(* ===== verification/_CoqProject ===== *)
-Q . S2P
Prelude.v
Words.v
Hyper.v
Startup.v
Transam.v
Varsup.v
Clog.v
Htup.v
Combocid.v
Snapshot.v
Visibility.v
VisibilityProofs.v
ProcArray.v
Lwlock.v
LwlockInv.v
LwlockWord.v
LwlockLists.v
LwlockWake.v
LwlockVar.v
LwlockRuns.v
Bufhdr.v
Bufmgr.v
BufInv.v
BufSteps.v
BufLocal.v
BufTurn.v
BufStable.v
BufRuns.v
BufMemory.v
BufSweep.v
BufWait.v
BufClaims.v
Lock.v
LockInv.v
LockOps.v
Deadlock.v
DeadlockGraph.v
DeadlockTopo.v
DeadlockOrders.v
DeadlockSearch.v
DeadlockProofs.v
LockRuns.v
DeadlockRuns.v
Xact.v
XactLogic.v
XactTop.v
XactSub.v
XactCommands.v
XactBlocks.v
XactRuns.v
XactXids.v
