(* ===== verification/Prelude.v ===== *)
(** * Verification of the transaction core of a PostgreSQL 12.2 fork

    The repository is PostgreSQL 12.2 ([src/postgresql-12.2]) with a change to
    [src/backend/tcop/postgres.c] that sends some queries to a hypergraph
    server.  The development models that change and the transaction core of
    the server it lives in: who gets which transaction id, what the commit log
    and the array of running transactions say about it, which tuple versions a
    snapshot sees, which locks processes hold and wait for, the pool of buffers
    that holds the pages they all work on, and the state machine of [xact.c] that
    drives transactions.

    ** Parts and files

    - [Hyper.v]: the functions the fork adds ([isHyper], [findCommand],
      [createXML], [query_rewrite]) as runs of external calls with undefined
      behaviour as an outcome.  [Startup.v]: [connectToHGDB] at the head of
      [PostgresMain], as interaction trees.
    - [Transam.v], [Varsup.v]: 32-bit and 64-bit transaction ids and their
      circular order ([transam.h], [transam.c]); [GetNewTransactionId] and
      [SetTransactionIdLimit] ([varsup.c]) as two critical sections and a step
      relation over many backends.
    - [Clog.v]: status bits, [pg_subtrans] and the status queries
      ([clog.c], [subtrans.c], [transam.c]).  A commit of a tree is the list of
      the page states another backend can see.
    - [Htup.v], [Combocid.v], [Snapshot.v], [Visibility.v]: tuple headers
      ([htup_details.h]), combo command ids ([combocid.c]), snapshots
      ([snapmgr.c]) and every [HeapTupleSatisfies] routine
      ([heapam_visibility.c]) as programs that run while other transactions
      end.  [VisibilityProofs.v] proves them against a specification without
      hint bits, from the interface [XactLaws].
    - [ProcArray.v]: the array of running transactions ([procarray.c]).
    - [Lwlock.v]: lightweight locks ([lwlock.c]), one lock and its processes at
      the grain of atomic operations, in any interleaving.  [LwlockInv.v]: the
      state word and the invariant.  [LwlockWord.v], [LwlockLists.v],
      [LwlockWake.v], [LwlockVar.v]: that each step keeps its parts.
      [LwlockRuns.v]: what follows for every reachable state.
    - [Words.v]: words of flags and counters, shared by the next two parts.
    - [Bufhdr.v], [Bufmgr.v]: the shared buffer pool ([bufmgr.c], [freelist.c],
      [buf_table.c], [buf_init.c], [buf_internals.h]).  A header is the 32-bit
      word of the code; a process is at one of some sixty points of a routine,
      and a step is a section under a header's spinlock or the strategy
      spinlock, a loop that compares and swaps, an operation on the mapping
      table, or the acquisition of a lightweight lock.  [BufInv.v]: the
      invariant, and the facts that a process relies on at each point.
      [BufSteps.v]: what a step may do to a buffer, the table and the disk.
      [BufLocal.v], [BufTurn.v]: what it does for the process itself, and that
      no check fails.  [BufStable.v]: that it leaves what others rely on.
      [BufRuns.v]: the invariant in every reachable state.  [BufMemory.v]: the
      refinement of a memory of pages.  [BufSweep.v]: the clock sweep.
      [BufWait.v]: cleanup locks.  [BufClaims.v]: what callers may rely on, and
      concrete runs.
    - [Lock.v]: the shared lock table ([lock.c], [proc.c]): one function for
      each critical section.  [LockInv.v]: its invariant.  [LockOps.v]: every
      routine fails no assertion, does what it should and keeps the invariant.
      [LockRuns.v]: the critical sections and the deadlock check as steps, in
      any order, from start-up on.
    - [Deadlock.v]: the deadlock detector ([deadlock.c], [CheckDeadLock] of
      [proc.c]), which runs with all partition locks held.  [DeadlockGraph.v]:
      the waits-for graph and [FindLockCycle].  [DeadlockTopo.v]: [TopoSort].
      [DeadlockOrders.v]: constraints, wait orders and other rearrangements.
      [DeadlockSearch.v]: [TestConfiguration] and [DeadLockCheckRecurse].
      [DeadlockProofs.v]: the application of a rearrangement and the whole
      check.  [DeadlockRuns.v]: what it promises in the states of [LockRuns].
    - [Xact.v]: [xact.c].  The stack of [TransactionStateData] is [top] and
      [subs]; a call of another module is an event of a trace that may raise
      an error and returns a value of the environment [Env].  [XactLogic.v]:
      the invariant [Inv] and a program logic in which every statement is also
      about all error exits.  [XactTop.v], [XactSub.v]: triples of the routines
      for transactions and subtransactions.  [XactCommands.v], [XactBlocks.v]:
      the commands.  [XactRuns.v]: all commands as one type, the machine of
      block states they refine, and runs with errors, recovery and exit.
      [XactXids.v]: which ids are current, in a backend and in its workers.

    Every definition keeps the name of the C function, type or macro it
    models; a C function whose body is split has helper definitions named
    after what they do.  Integers are [Z] with the conversions of C written
    out; pointers to list nodes are positions of a list; [elog] and [Assert]
    are outcomes.

    ** What the theorems show

    - Hypergraph routing: what is routed, what is sent, where the C code has
      no defined behaviour, and that the message loop is never reached.
    - Transaction ids: the circular order agrees with the order of 64-bit ids
      inside half the id space; limits stop the assignment before wraparound.
    - Commit log: setting a status changes that status only; a tree commits
      atomically for every reader; caching answers is transparent.
    - Visibility: each routine gives the answer of the specification whatever
      hint bits are set and whatever commits meanwhile; hint bits stay
      truthful; vacuum removes only what no snapshot sees.
    - Running transactions: a snapshot contains what runs, the in-progress
      test is exact, the removal horizon is safe, and ending transactions
      keeps the array well formed.
    - Lightweight locks: an exclusive holder is alone, nobody sleeps for ever on
      a free lock or for a change of its variable that has been made, and no
      assertion fails, in every interleaving.
    - Buffers: whatever the interleaving and the failures, the pool and the disk
      are one page for each tag, which only clients change; a read returns the
      page it was asked for; the log is flushed before a page is written; pins,
      I/O, tags and the table agree, and the table does not outgrow its space; no
      assertion fails; the sweep ends; a cleanup lock is had alone and its waiter
      is woken up.  A late wraparound makes the reported position of the sweep go
      back.
    - Locks: in every state that the lock manager reaches, lock groups do not
      hold conflicting locks, all counters, masks, lists and queues agree, and
      every waiter has a reason to wait; requests and releases do what they
      say; and one leak of a process slot.
    - Deadlocks: the search finds exactly the cycles of the waits-for graph,
      the sort of a queue satisfies the constraints whenever an order does, and
      the check fails no assertion, resolves every deadlock that it does not
      report, and reports none that a rearrangement would resolve.
    - Transactions: every command refines the machine of block states or ends
      in an error that keeps the invariant, no [Assert] fails in any run,
      recovery and exit terminate, no id is reported both committed and
      aborted, COMMIT reports the whole tree, ROLLBACK TO restores its
      savepoint, the test for current ids is exact and agrees in parallel
      workers; and two places where the code does less than it means to.

    ** Bounds and fuel

    Loops that C writes with [while] or recursion take fuel: the number of
    levels for the recursions of [xact.c] (each pops one), the length of the
    array for searches, the depth of a subtransaction for walks over parents.
    The search for a cycle visits each lock group once and the search for a
    configuration adds a constraint at each level, so [MaxBackends + 2] is
    enough for both; the sort of a queue puts out a process in every round.
    A process sweeps alone through at most six rounds of three steps for each
    buffer.  A header counts pins in 18 bits, which [MAX_BACKENDS] fits.
    Each theorem either shows that the fuel is enough or has it as the stated
    bound.  The loop of [CommitTransaction] over deferred triggers and portals
    ends because of other modules; [EnvLaws] says so.

    ** Assumptions about other code

    [EnvLaws] (ids handed out are valid and new, the commit log remembers, the
    security context is clear at top level) and [XactLaws] (a transaction that
    is over stays over, with one outcome) are type classes with instances for
    concrete environments.

    ** Not modelled

    Calls out of [xact.c] do not call back into it.  Work under a lightweight
    lock is an atomic step outside [Lwlock.v], which shows that such locks
    exclude each other; it takes accesses of shared memory as sequentially
    consistent, and leaves out the array of all locks that a process holds.  WAL, disk and network are calls
    without content, but for the buffer pool: there the disk is a map from tags
    to pages, the log has an inserted, a flushed and a redo position, and the
    lightweight locks a process holds follow from its point in a routine.  Of
    the buffer pool, rings of buffers, local buffers, the zeroing modes and the
    extension of relations, the loops of checkpoints and of the background
    writer, writeback and recovery are left out; its clients are taken to follow
    the rules for locking and pinning pages.
    The deadlock detector is shown correct for at most [MaxBackends] lock
    groups, the size of its arrays; [too_many_groups] runs it with more.
    Of the lock manager, the table of local locks, the fast path for weak
    relation locks and two-phase records are left out; a step of [LockRuns]
    asks only for locks that the process does not hold yet, which the table of
    local locks ensures.  The rest of the server (parser, planner, executor, access methods,
    storage managers, predicate locks, replication), the client programs, and the Java programs of the
    repository are outside this development. *)

From stdpp Require Export base tactics list strings numbers option.
From stdpp Require Export sets gmap.
From Stdlib Require Export ZArith Lia.

#[export] Set Default Goal Selector "!".

Declare Scope pg_scope.
Delimit Scope pg_scope with pg.

(** ** Machine integers *)

(** [uint32] and [int32] conversions of C, as functions on [Z]. *)
Definition u32 (z : Z) : Z := (z mod 2 ^ 32)%Z.
Definition s32 (z : Z) : Z :=
  let u := u32 z in if (u <? 2 ^ 31)%Z then u else (u - 2 ^ 32)%Z.

Definition is_u32 (z : Z) : Prop := (0 <= z < 2 ^ 32)%Z.

Lemma u32_range z : is_u32 (u32 z).
Proof. unfold is_u32, u32. apply Z.mod_pos_bound. lia. Qed.

Lemma u32_id z : is_u32 z -> u32 z = z.
Proof. intros H. apply Z.mod_small, H. Qed.

(** [s32] written without the intermediate value: the residue of [z] in the
    symmetric interval. *)
Lemma s32_spec z :
  (- 2 ^ 31 <= s32 z < 2 ^ 31 /\ exists k, s32 z = z + k * 2 ^ 32)%Z.
Proof.
  unfold s32, u32.
  pose proof (Z.mod_pos_bound z (2 ^ 32) ltac:(lia)).
  pose proof (Z.div_mod z (2 ^ 32) ltac:(lia)).
  case (Z.ltb_spec (z mod 2 ^ 32) (2 ^ 31)); intros.
  - split; [lia|]. exists (- (z / 2 ^ 32))%Z. lia.
  - split; [lia|]. exists (- (z / 2 ^ 32) - 1)%Z. lia.
Qed.

Lemma s32_unique z r k :
  (- 2 ^ 31 <= r < 2 ^ 31)%Z -> (r = z + k * 2 ^ 32)%Z -> s32 z = r.
Proof.
  intros Hr ->. destruct (s32_spec z) as [Hb [k' Hk']]. rewrite Hk' in *. lia.
Qed.

(** ** Tactics shared by the components *)

(** Destruct the innermost [match] or [if] scrutinee of the goal. *)
Ltac dmatch :=
  match goal with
  | |- context [match ?x with _ => _ end] =>
      lazymatch x with
      | context [match _ with _ => _ end] => fail
      | _ => let E := fresh "E" in destruct x eqn:E
      end
  end.

(** The same in a hypothesis. *)
Ltac dmatch_in H :=
  match type of H with
  | context [match ?x with _ => _ end] =>
      lazymatch x with
      | context [match _ with _ => _ end] => fail
      | _ => let E := fresh "E" in destruct x eqn:E
      end
  end.

(** The update of one field of a record: [e] is the eta-expansion of a record
    (its constructor applied to its fields), [p] the field, [v] the new value. *)
Ltac setter e p v :=
  let t := eval hnf in e in
  let t' := eval pattern p in t in
  match t' with
  | ?F _ => let r := eval cbv beta in (F v) in exact r
  end.

(** ** Lists *)

Section Last.
Context {A : Type}.
Implicit Types (l : list A) (a d : A).

Lemma last_default l a d d' : List.last (a :: l) d = List.last (a :: l) d'.
Proof. revert a. induction l as [|b l IH]; intros a; [done|]. apply (IH b). Qed.

Lemma last_cons_default l a d : List.last (a :: l) d = List.last l a.
Proof. destruct l as [|b l]; [done|]. apply (last_default l b). Qed.

(** The end of a run made of two runs, the second starting where the first
    stopped. *)
Lemma last_app_default l1 l2 d : List.last (l1 ++ l2) d = List.last l2 (List.last l1 d).
Proof.
  revert d. induction l1 as [|a l1 IH]; intros d; [done|].
  rewrite <- app_comm_cons, !last_cons_default. apply IH.
Qed.
End Last.

(** Quantifying over the members of a list, one at a time. *)
Lemma exists_elem_cons {A} (P : A -> Prop) k l :
  (exists x, x ∈ k :: l /\ P x) <-> P k \/ exists x, x ∈ l /\ P x.
Proof.
  split.
  - intros (x & [->|H]%elem_of_cons & HP); [by left|right; by exists x].
  - intros [HP|(x & H & HP)]; [exists k|exists x]; (split; [|done]); by constructor.
Qed.

Lemma exists_elem_nil {A} (P : A -> Prop) : (exists x, x ∈ [] /\ P x) <-> False.
Proof. split; [|done]. intros (x & H & _). by apply elem_of_nil in H. Qed.

(** ** Counting the members of a list *)

Section Countb.
Local Open Scope Z_scope.
Context {A : Type}.
Implicit Types (f g : A -> bool) (l : list A).

Fixpoint countb f l : Z :=
  match l with [] => 0 | x :: l' => Z.b2z (f x) + countb f l' end.

Lemma countb_nonneg f l : 0 <= countb f l.
Proof. induction l as [|x l IH]; simpl; [lia|]. destruct (f x); simpl; lia. Qed.

Lemma countb_app f l1 l2 : countb f (l1 ++ l2) = countb f l1 + countb f l2.
Proof. induction l1 as [|x l1 IH]; simpl; lia. Qed.

Lemma countb_ext f g l : (forall x, x ∈ l -> f x = g x) -> countb f l = countb g l.
Proof.
  induction l as [|x l IH]; intros H; simpl; [done|].
  rewrite (H x), IH; [done|by intros; apply H; constructor|constructor].
Qed.

#[export] Instance countb_perm f : Proper ((≡ₚ) ==> eq) (countb f).
Proof. intros l l' H. induction H; simpl; lia. Qed.

Lemma countb_pos f l : 0 < countb f l <-> exists x, x ∈ l /\ f x = true.
Proof.
  induction l as [|x l IH]; simpl.
  - split; [lia|]. intros (x & H & _). by apply elem_of_nil in H.
  - rewrite exists_elem_cons, <- IH. pose proof (countb_nonneg f l).
    destruct (f x); simpl; intuition (try lia; try done).
Qed.

Lemma countb_0 f l : (forall x, x ∈ l -> f x = false) -> countb f l = 0.
Proof.
  intros H. pose proof (countb_nonneg f l). destruct (decide (0 < countb f l)) as [Hp|]; [|lia].
  apply countb_pos in Hp as (x & Hx & Hf). by rewrite H in Hf.
Qed.

Lemma countb_insert f l i x y :
  l !! i = Some x -> countb f (<[i := y]> l) = countb f l - Z.b2z (f x) + Z.b2z (f y).
Proof.
  revert i. induction l as [|z l IH]; intros [|i] Hi; try done; simpl in Hi |- *.
  - injection Hi as ->. lia.
  - rewrite (IH i Hi). lia.
Qed.

Lemma countb_le f l : countb f l <= Z.of_nat (length l).
Proof. induction l as [|x l IH]; simpl; [lia|]. destruct (f x); simpl; lia. Qed.

Lemma countb_lookup f l : 0 < countb f l <-> exists i x, l !! i = Some x /\ f x = true.
Proof.
  rewrite countb_pos. split.
  - intros (x & [i Hi]%list_elem_of_lookup & Hx). by exists i, x.
  - intros (i & x & Hi & Hx). exists x. split; [by eapply list_elem_of_lookup_2|done].
Qed.

(** Two places of a list count twice. *)
Lemma countb_two f l i j x y :
  i <> j -> l !! i = Some x -> l !! j = Some y -> f x = true -> f y = true -> 2 <= countb f l.
Proof.
  revert i j. induction l as [|z l IH]; intros [|i] [|j] Hij Hi Hj Hx Hy; try done; simpl in *.
  - injection Hi as ->. rewrite Hx. assert (0 < countb f l) by (apply countb_lookup; by exists j, y). simpl. lia.
  - injection Hj as ->. rewrite Hy. assert (0 < countb f l) by (apply countb_lookup; by exists i, x). simpl. lia.
  - assert (2 <= countb f l) by (apply (IH i j); [congruence|done..]). destruct (f z); simpl; lia.
Qed.
End Countb.
