(* ===== verification/Words.v ===== *)
(** * Words of flags

    A [uint32] whose bits are flags and counters: the tests and updates that C
    writes with [&], [|] and [~], by bits and by parts. *)

From S2P Require Import Prelude.

Open Scope Z_scope.

Module Words.

(** [~x] of a [uint32]. *)
Definition not32 (x : Z) : Z := 2 ^ 32 - 1 - x.

(** [state & flag] as a condition. *)
Definition is_set (state flag : Z) : bool := negb (Z.land state flag =? 0).

(** ** A low part of [n] bits and a high part *)

Section Bits.
Context (n : Z) (Hn : 0 <= n).

Lemma testbit_split v hi i :
  0 <= v < 2 ^ n -> 0 <= i ->
  Z.testbit (v + 2 ^ n * hi) i = if i <? n then Z.testbit v i else Z.testbit hi (i - n).
Proof.
  intros Hv Hi. destruct (Z.ltb_spec i n) as [Hlt|Hge].
  - rewrite <- (Z.mod_pow2_bits_low _ n i) by lia. rewrite Z.mul_comm, Z.mod_add by lia.
    by rewrite Z.mod_small.
  - replace i with (i - n + n) at 1 by lia. rewrite <- Z.div_pow2_bits by lia.
    rewrite Z.mul_comm, Z.div_add by lia. by rewrite (Z.div_small v).
Qed.

Lemma bits_high v i : 0 <= v < 2 ^ n -> n <= i -> Z.testbit v i = false.
Proof.
  intros Hv Hi. pose proof (testbit_split v 0 i Hv ltac:(lia)) as Ht.
  rewrite Z.mul_0_r, Z.add_0_r in Ht. rewrite Ht.
  destruct (Z.ltb_spec i n); [lia|]. by rewrite Z.bits_0.
Qed.

Lemma ones_low i : 0 <= i < n -> Z.testbit (2 ^ n - 1) i = true.
Proof. intros Hi. rewrite Z.sub_1_r, <- Z.ones_equiv. apply Z.ones_spec_low. lia. Qed.

(** An operation on two words, by parts. *)
Lemma lor_split v hi f : 0 <= v < 2 ^ n -> Z.lor (v + 2 ^ n * hi) (2 ^ n * f) = v + 2 ^ n * Z.lor hi f.
Proof.
  intros Hv. apply Z.bits_inj'. intros i Hi. rewrite Z.lor_spec, !testbit_split by done.
  replace (2 ^ n * f) with (0 + 2 ^ n * f) by lia. rewrite testbit_split by lia.
  destruct (i <? n); [by rewrite Z.bits_0, orb_false_r|by rewrite Z.lor_spec].
Qed.

Lemma land_high v hi f : 0 <= v < 2 ^ n -> Z.land (v + 2 ^ n * hi) (2 ^ n * f) = 2 ^ n * Z.land hi f.
Proof.
  intros Hv. apply Z.bits_inj'. intros i Hi. rewrite Z.land_spec, testbit_split by done.
  replace (2 ^ n * f) with (0 + 2 ^ n * f) by lia.
  replace (2 ^ n * Z.land hi f) with (0 + 2 ^ n * Z.land hi f) by lia. rewrite !testbit_split by lia.
  destruct (i <? n); [by rewrite Z.bits_0, andb_false_r|by rewrite Z.land_spec].
Qed.

Lemma land_keep v hi f :
  0 <= v < 2 ^ n -> Z.land (v + 2 ^ n * hi) (2 ^ n - 1 + 2 ^ n * f) = v + 2 ^ n * Z.land hi f.
Proof.
  intros Hv. apply Z.bits_inj'. intros i Hi. rewrite Z.land_spec, !testbit_split by lia.
  destruct (Z.ltb_spec i n); [by rewrite ones_low, andb_true_r by lia|by rewrite Z.land_spec].
Qed.

Lemma land_low v hi : 0 <= v < 2 ^ n -> Z.land (v + 2 ^ n * hi) (2 ^ n - 1) = v.
Proof. intros Hv. pose proof (land_keep v hi 0 Hv) as H. rewrite Z.land_0_r in H. by rewrite !Z.mul_0_r, !Z.add_0_r in H. Qed.
End Bits.

(** ** Single flags *)

Lemma is_set_testbit z k : 0 <= k -> is_set z (Z.shiftl 1 k) = Z.testbit z k.
Proof.
  intros Hk. unfold is_set. rewrite Z.shiftl_1_l. destruct (Z.testbit z k) eqn:E.
  - apply negb_true_iff, Z.eqb_neq. intros H0.
    assert (Z.testbit (Z.land z (2 ^ k)) k = true) as Hx by (by rewrite Z.land_spec, E, Z.pow2_bits_true).
    by rewrite H0, Z.bits_0 in Hx.
  - apply negb_false_iff, Z.eqb_eq, Z.bits_inj'. intros i Hi.
    rewrite Z.land_spec, Z.bits_0, Z.pow2_bits_eqb by done.
    destruct (Z.eqb_spec k i) as [<-|]; [by rewrite E|apply andb_false_r].
Qed.

Lemma is_set_lor z j k :
  0 <= j -> 0 <= k -> is_set (Z.lor z (Z.shiftl 1 j)) (Z.shiftl 1 k) = is_set z (Z.shiftl 1 k) || (j =? k).
Proof. intros Hj Hk. by rewrite !is_set_testbit, Z.lor_spec, Z.shiftl_1_l, Z.pow2_bits_eqb. Qed.

Lemma is_set_land_not z j k :
  0 <= j < 32 -> 0 <= k < 32 ->
  is_set (Z.land z (not32 (Z.shiftl 1 j))) (Z.shiftl 1 k) = is_set z (Z.shiftl 1 k) && negb (j =? k).
Proof.
  intros Hj Hk. rewrite !is_set_testbit, Z.land_spec by lia. f_equal. unfold not32.
  assert (E : 2 ^ 32 - 1 - Z.shiftl 1 j = Z.ldiff (Z.ones 32) (2 ^ j)).
  { rewrite Z.shiftl_1_l. change (2 ^ 32 - 1) with (Z.ones 32). apply Z.sub_nocarry_ldiff.
    apply Z.bits_inj'. intros i Hi. rewrite Z.ldiff_spec, Z.bits_0, Z.pow2_bits_eqb by lia.
    destruct (Z.eqb_spec j i) as [<-|]; [|done]. by rewrite Z.ones_spec_low. }
  by rewrite E, Z.ldiff_spec, Z.ones_spec_low, Z.pow2_bits_eqb by lia.
Qed.

End Words.
