(* ===== verification/Hyper.v ===== *)
(** * Routing of simple queries to the hypergraph server

    Model of the functions this fork adds to [src/backend/tcop/postgres.c]
    ([isHyper], [findCommand], [createXML], [query_rewrite]) together with
    the C library routines they use on strings.

    A C string is the list of its bytes before the terminating NUL.  A block
    returned by [malloc] is a list of optional bytes, [None] for a byte the
    program has not written yet.  A run of [query_rewrite] is the sequence of
    externally visible calls it makes, paired with an outcome that is [Oub]
    when the C program has no defined behaviour. *)

From S2P Require Import Prelude.
From Stdlib Require Import Ascii.
Open Scope list_scope.

Module Hyper.

Definition QUERY_SIZE : nat := 500.
Definition HG_PORT : Z := 8433.

Definition NUL : ascii := "000"%char.
Definition space : ascii := " "%char.

(** ** Outcomes of C code *)

Inductive outcome (A : Type) : Type :=
| Oret (a : A)
| Oub (why : string).
Arguments Oret {A} a.
Arguments Oub {A} why.

Definition obind {A B} (m : outcome A) (f : A -> outcome B) : outcome B :=
  match m with Oret a => f a | Oub w => Oub w end.

(** ** String routines of the C library *)

(** [tolower] in the C locale. *)
Definition tolower (c : ascii) : ascii :=
  let n := nat_of_ascii c in
  if (65 <=? n) && (n <=? 90) then ascii_of_nat (n + 32) else c.

Fixpoint has_prefix_nocase (hay needle : list ascii) {struct needle} : bool :=
  match needle, hay with
  | [], _ => true
  | n :: ns, h :: hs =>
      Ascii.eqb (tolower h) (tolower n) && has_prefix_nocase hs ns
  | _ :: _, [] => false
  end.

(** The suffix of [hay] that starts at the first match, [None] for NULL. *)
Fixpoint strcasestr (hay needle : list ascii) : option (list ascii) :=
  if has_prefix_nocase hay needle then Some hay
  else match hay with
       | [] => None
       | _ :: hs => strcasestr hs needle
       end.

(** Difference of the first bytes that differ once lower-cased. *)
Fixpoint strcasecmp (a b : list ascii) : Z :=
  match a, b with
  | [], [] => 0
  | x :: _, [] => Z.of_nat (nat_of_ascii (tolower x))
  | [], y :: _ => - Z.of_nat (nat_of_ascii (tolower y))
  | x :: xs, y :: ys =>
      if Ascii.eqb (tolower x) (tolower y) then strcasecmp xs ys
      else Z.of_nat (nat_of_ascii (tolower x)) - Z.of_nat (nat_of_ascii (tolower y))
  end.

(** The bytes of a block up to its first NUL: [strlen] and every read of the
    block as a string run past the end, or over a byte nobody wrote, when
    there is none. *)
Fixpoint cstring_of (buf : list (option ascii)) : outcome (list ascii) :=
  match buf with
  | [] => Oub "read past the end of the block"
  | None :: _ => Oub "read of an indeterminate byte"
  | Some c :: rest =>
      if Ascii.eqb c NUL then Oret []
      else obind (cstring_of rest) (fun s => Oret (c :: s))
  end.

(** [buf[i] = c]. *)
Definition store (buf : list (option ascii)) (i : nat) (c : ascii)
  : outcome (list (option ascii)) :=
  if i <? length buf then Oret (<[i := Some c]> buf)
  else Oub "write past the end of the block".

(** ** The functions of postgres.c *)

Definition isHyper (query : list ascii) : bool :=
  match strcasestr query (String.list_ascii_of_string "hyper") with
  | Some _ => true
  | None => false
  end.

(** [for(; query[i]!=0 && query[i]!=' '; i++) command[i] = query[i];]  The
    first argument is the string that starts at [query + i]. *)
Fixpoint findCommand_loop (query : list ascii) (i : nat)
  (command : list (option ascii)) : outcome (nat * list (option ascii)) :=
  match query with
  | [] => Oret (i, command)
  | c :: query' =>
      if Ascii.eqb c space then Oret (i, command)
      else obind (store command i c)
             (fun command' => findCommand_loop query' (S i) command')
  end.

Definition findCommand (query : list ascii) : outcome (list (option ascii)) :=
  obind (findCommand_loop query 0 (replicate QUERY_SIZE None))
    (fun '(i, command) => store command i NUL).

(** [createXML] returns its block as [malloc] left it; [garbage] is what the
    allocator happens to return. *)
Definition createXML (garbage : list (option ascii)) (command : list (option ascii))
  : list (option ascii) := garbage.

(** What [query_rewrite] gets from the operating system: the results of
    [socket], [setsockopt] and [connect], the uninitialised [sin_addr] of its
    stack variable, and the block [malloc] hands to [createXML]. *)
Record sock_env := {
  r_socket : Z;
  r_setsockopt : Z;
  r_connect : Z;
  stack_sin_addr : Z;
  heap_xml : list (option ascii);
}.

Inductive hevent :=
| EvExecSimpleQuery (query : list ascii)
| EvSocket
| EvSetsockopt (fd opt : Z)
| EvPerror (msg : string)
| EvConnect (fd addr port : Z)
| EvPrintf (msg : string)
| EvSend (fd : Z) (msg : list ascii)
| EvRead (fd : Z) (n : nat)
| EvFree (what : string).

(** [SO_REUSEADDR | SO_REUSEPORT] of Linux. *)
Definition SO_REUSEADDR : Z := 2.
Definition SO_REUSEPORT : Z := 15.

Definition run (A : Type) : Type := list hevent * outcome A.
Definition emit (e : hevent) : run unit := ([e], Oret tt).
Definition rret {A} (a : A) : run A := ([], Oret a).
Definition rlift {A} (o : outcome A) : run A := ([], o).
Definition rbind {A B} (m : run A) (f : A -> run B) : run B :=
  match m with
  | (tr, Oret a) => let '(tr', o) := f a in (tr ++ tr', o)
  | (tr, Oub w) => (tr, Oub w)
  end.
Notation "'let*' x ':=' m 'in' k" := (rbind m (fun x => k))
  (at level 10, x name, k at level 200) : pg_scope.
Notation "m ';*' k" := (rbind m (fun _ => k))
  (at level 100, k at level 200, right associativity) : pg_scope.
Open Scope pg_scope.

Definition query_rewrite (env : sock_env) (query : list ascii) : run unit :=
  if negb (isHyper query) then emit (EvExecSimpleQuery query)
  else
    emit EvSocket ;*
    emit (EvSetsockopt (r_socket env) (Z.lor SO_REUSEADDR SO_REUSEPORT)) ;*
    if (r_setsockopt env =? 0)%Z then emit (EvPerror "setsockopt error")
    else
      emit (EvConnect (r_socket env) (stack_sin_addr env) HG_PORT) ;*
      if (r_connect env <? 0)%Z then emit (EvPerror "connection error")
      else
        emit (EvPrintf "HYPEREDGE keyword found") ;*
        let* command := rlift (findCommand query) in
        let xml := createXML (heap_xml env) command in
        let* msg := rlift (cstring_of xml) in
        emit (EvSend (r_socket env) msg) ;*
        let* cmd := rlift (cstring_of command) in
        (if (strcasecmp cmd (String.list_ascii_of_string "create") =? 0)%Z
         then emit (EvPrintf "create command")
         else if (strcasecmp cmd (String.list_ascii_of_string "alter") =? 0)%Z
         then emit (EvPrintf "alter command")
         else if (strcasecmp cmd (String.list_ascii_of_string "delete") =? 0)%Z
         then emit (EvPrintf "delete command")
         else rret tt) ;*
        emit (EvRead (r_socket env) QUERY_SIZE) ;*
        emit (EvFree "command") ;* emit (EvFree "xml") ;* emit (EvFree "response").

(** ** Specification vocabulary *)

(** The bytes before the first blank. *)
Fixpoint first_word (query : list ascii) : list ascii :=
  match query with
  | [] => []
  | c :: q => if Ascii.eqb c space then [] else c :: first_word q
  end.

Definition sends (tr : list hevent) : list (list ascii) :=
  omap (fun e => match e with EvSend _ m => Some m | _ => None end) tr.

(** ** Lemmas *)

Lemma has_prefix_nocase_spec hay needle :
  has_prefix_nocase hay needle = true <->
  exists mid post, hay = mid ++ post /\ map tolower mid = map tolower needle.
Proof.
  revert hay. induction needle as [|n ns IH]; intros hay; simpl.
  - split; [|done]. intros _. exists [], hay. done.
  - destruct hay as [|h hs].
    + split; [done|]. intros (mid & post & Heq & Hm).
      destruct mid; simpl in *; discriminate.
    + rewrite andb_true_iff, Ascii.eqb_eq, IH. split.
      * intros (Hc & mid & post & -> & Hm). exists (h :: mid), post.
        simpl. rewrite Hc, Hm. done.
      * intros ([|h' mid] & post & Heq & Hm); simpl in *; [discriminate|].
        injection Heq as <- ->. injection Hm as Hc Hm. split; [done|eauto].
Qed.

Lemma strcasestr_Some hay needle :
  is_Some (strcasestr hay needle) <->
  exists pre mid post, hay = pre ++ mid ++ post /\ map tolower mid = map tolower needle.
Proof.
  induction hay as [|h hs IH]; cbn [strcasestr].
  - destruct (has_prefix_nocase [] needle) eqn:E.
    + apply has_prefix_nocase_spec in E as (mid & post & Heq & Hm).
      split; [|eauto]. intros _. exists [], mid, post. done.
    + split; [by intros [? [=]]|]. intros (pre & mid & post & Heq & Hm).
      destruct pre, mid; simpl in *; try discriminate.
      destruct needle; [done|discriminate].
  - destruct (has_prefix_nocase (h :: hs) needle) eqn:E.
    + apply has_prefix_nocase_spec in E as (mid & post & Heq & Hm).
      split; [|eauto]. intros _. exists [], mid, post. done.
    + rewrite IH. split.
      * intros (pre & mid & post & -> & Hm). exists (h :: pre), mid, post. done.
      * intros ([|p pre] & mid & post & Heq & Hm); simpl in *.
        -- exfalso. apply not_true_iff_false in E. apply E.
           apply has_prefix_nocase_spec. eauto.
        -- injection Heq as _ ->. eauto.
Qed.

Lemma findCommand_loop_ok query i command :
  i + length (first_word query) <= length command ->
  exists command', findCommand_loop query i command
                   = Oret (i + length (first_word query), command') /\
    length command' = length command /\
    take (i + length (first_word query)) command'
    = take i command ++ map Some (first_word query).
Proof.
  revert i command. induction query as [|c q IH]; intros i command Hlen; simpl.
  - exists command. rewrite Nat.add_0_r, app_nil_r. done.
  - simpl in Hlen. destruct (Ascii.eqb c space) eqn:E; simpl in *.
    + exists command. rewrite Nat.add_0_r, app_nil_r. done.
    + unfold store. rewrite (proj2 (Nat.ltb_lt _ _)) by lia. simpl.
      destruct (IH (S i) (<[i:=Some c]> command)) as (cmd' & -> & Hl & Ht).
      { rewrite length_insert. lia. }
      exists cmd'. rewrite length_insert in Hl.
      replace (i + S (length (first_word q))) with (S i + length (first_word q)) by lia.
      split; [done|]. split; [done|]. rewrite Ht.
      rewrite (take_S_r _ i (Some c)).
      * rewrite take_insert_ge by lia. by rewrite <- app_assoc.
      * apply list_lookup_insert_eq. lia.
Qed.

Lemma findCommand_loop_overflow query i command :
  length command < i + length (first_word query) -> i <= length command ->
  findCommand_loop query i command = Oub "write past the end of the block".
Proof.
  revert i command. induction query as [|c q IH]; intros i command Hlen Hi; simpl in *.
  - lia.
  - destruct (Ascii.eqb c space) eqn:E; simpl in *; [lia|].
    unfold store. destruct (Nat.ltb_spec i (length command)); simpl; [|done].
    apply IH; rewrite length_insert; lia.
Qed.

Lemma cstring_of_app s rest :
  NUL ∉ s -> cstring_of (map Some s ++ Some NUL :: rest) = Oret s.
Proof.
  induction s as [|c s IH]; intros Hn; simpl; [done|].
  apply not_elem_of_cons in Hn as [Hc Hs].
  destruct (Ascii.eqb_spec c NUL); [congruence|]. by rewrite (IH Hs).
Qed.

Lemma first_word_no_NUL query : NUL ∉ query -> NUL ∉ first_word query.
Proof.
  induction query as [|c q IH]; simpl; [done|].
  intros [Hc Hq]%not_elem_of_cons. destruct (Ascii.eqb c space); set_solver.
Qed.

Lemma findCommand_fits query :
  length (first_word query) < QUERY_SIZE ->
  exists rest, findCommand query
    = Oret (map Some (first_word query) ++ Some NUL :: rest).
Proof.
  intros Hlen. unfold findCommand.
  destruct (findCommand_loop_ok query 0 (replicate QUERY_SIZE None))
    as (cmd & -> & Hl & Ht).
  { rewrite length_replicate. lia. }
  rewrite length_replicate in Hl. simpl in *. unfold store.
  rewrite (proj2 (Nat.ltb_lt _ _)) by lia.
  exists (drop (S (length (first_word query))) cmd). f_equal.
  rewrite insert_take_drop by lia. by rewrite Ht.
Qed.

Lemma findCommand_overflows query :
  QUERY_SIZE <= length (first_word query) ->
  findCommand query = Oub "write past the end of the block".
Proof.
  intros Hlen. unfold findCommand.
  destruct (decide (QUERY_SIZE = length (first_word query))) as [Heq|Hne].
  - destruct (findCommand_loop_ok query 0 (replicate QUERY_SIZE None))
      as (cmd & -> & Hl & _); [rewrite length_replicate; lia|].
    rewrite length_replicate in Hl. simpl. unfold store.
    by rewrite (proj2 (Nat.ltb_ge _ _)) by lia.
  - by rewrite findCommand_loop_overflow by (rewrite length_replicate; lia).
Qed.

(** ** Properties *)

(** [isHyper] recognises exactly the queries that contain the five
    letters of "hyper" in any capitalisation, at any position. *)
Theorem isHyper_spec query :
  isHyper query = true <->
  exists pre mid post, query = pre ++ mid ++ post /\
    map tolower mid = String.list_ascii_of_string "hyper".
Proof.
  unfold isHyper.
  pose proof (strcasestr_Some query (String.list_ascii_of_string "hyper")) as H.
  change (map tolower (String.list_ascii_of_string "hyper"))
    with (String.list_ascii_of_string "hyper") in H.
  rewrite <- H. unfold is_Some. destruct (strcasestr _ _); naive_solver.
Qed.

(** C3: the block [findCommand] returns, read back as a C string, is the text
    before the first blank of the query, as long as that text and its
    terminating NUL fit in the 500 bytes allocated; for every longer first
    word the function writes past its allocation. *)
Theorem findCommand_spec query :
  NUL ∉ query ->
  obind (findCommand query) cstring_of =
  if length (first_word query) <? QUERY_SIZE then Oret (first_word query)
  else Oub "write past the end of the block".
Proof.
  intros Hn. destruct (Nat.ltb_spec (length (first_word query)) QUERY_SIZE) as [Hl|Hl].
  - destruct (findCommand_fits query Hl) as [rest ->]. simpl.
    by apply cstring_of_app, first_word_no_NUL.
  - by rewrite findCommand_overflows.
Qed.

Lemma findCommand_spec_witness :
  NUL ∉ String.list_ascii_of_string "CREATE HYPEREDGE(1)" /\
  obind (findCommand (String.list_ascii_of_string "CREATE HYPEREDGE(1)")) cstring_of
  = Oret (String.list_ascii_of_string "CREATE").
Proof.
  assert (Hn : NUL ∉ String.list_ascii_of_string "CREATE HYPEREDGE(1)").
  { apply (bool_decide_unpack _). vm_compute. exact I. }
  split; [exact Hn|]. rewrite (findCommand_spec _ Hn). vm_compute. reflexivity.
Defined.

(** C1: complete account of where a simple query goes.  A query without
    "hyper" goes to [exec_simple_query] and nowhere else; a query with it is
    never executed, and a message leaves for the hypergraph server only when
    [setsockopt] reports a failure, [connect] succeeds and the first word
    fits; that message is whatever [malloc] left in the block, the same for
    every query. *)
Theorem query_rewrite_routes env query :
  NUL ∉ query ->
  let '(tr, out) := query_rewrite env query in
  (EvExecSimpleQuery query ∈ tr <-> isHyper query = false) /\
  (isHyper query = false -> tr = [EvExecSimpleQuery query] /\ out = Oret tt) /\
  (forall msg, sends tr = [msg] <->
     isHyper query = true /\ r_setsockopt env <> 0%Z /\ (0 <= r_connect env)%Z /\
     length (first_word query) < QUERY_SIZE /\ cstring_of (heap_xml env) = Oret msg) /\
  (isHyper query = true -> r_setsockopt env = 0%Z -> sends tr = [] /\ out = Oret tt).
Proof.
  intros Hn. unfold query_rewrite. destruct (isHyper query) eqn:EH; simpl.
  2: { split; [set_solver|]. split; [done|]. split; [|done].
       intros msg. split; [done|by intros [? _]]. }
  destruct (Z.eqb_spec (r_setsockopt env) 0) as [E0|E0]; simpl.
  { split; [set_solver|]. split; [done|]. split; [|done].
    intros msg. split; [done|]. by intros (_ & ? & _). }
  destruct (Z.ltb_spec (r_connect env) 0) as [Ec|Ec]; simpl.
  { split; [set_solver|]. split; [done|]. split; [|done].
    intros msg. split; [done|]. intros (_ & _ & ? & _). lia. }
  unfold createXML.
  destruct (Nat.ltb_spec (length (first_word query)) QUERY_SIZE) as [Hl|Hl].
  2: { rewrite findCommand_overflows by done. simpl.
       split; [set_solver|]. split; [done|]. split; [|done].
       intros msg. split; [done|]. intros (_ & _ & _ & ? & _). lia. }
  destruct (findCommand_fits query Hl) as [rest ->]. simpl.
  destruct (cstring_of (heap_xml env)) as [m|w] eqn:Ex; simpl.
  2: { split; [set_solver|]. split; [done|]. split; [|done].
       intros msg. split; [done|]. by intros (_ & _ & _ & _ & ?). }
  rewrite cstring_of_app by by apply first_word_no_NUL. simpl.
  repeat case_match; simpl;
    (split; [set_solver|]; split; [done|]; split; [|done]; naive_solver).
Qed.

Definition witness_env : sock_env :=
  {| r_socket := 7; r_setsockopt := 0; r_connect := 0; stack_sin_addr := 0;
     heap_xml := replicate QUERY_SIZE (Some NUL) |}.

Lemma query_rewrite_routes_witness :
  exists query, NUL ∉ query /\ isHyper query = true /\
    sends (fst (query_rewrite witness_env query)) = [].
Proof.
  exists (String.list_ascii_of_string "DELETE HyperEdge WHERE id = 4").
  assert (Hn : NUL ∉ String.list_ascii_of_string "DELETE HyperEdge WHERE id = 4").
  { apply (bool_decide_unpack _). vm_compute. exact I. }
  split; [exact Hn|]. split; [vm_compute; reflexivity|].
  pose proof (query_rewrite_routes witness_env _ Hn) as H.
  destruct (query_rewrite witness_env _) as [tr out].
  apply H; vm_compute; reflexivity.
Defined.

End Hyper.
