(* ===== verification/Startup.v ===== *)
(** * The hypergraph console loop at the head of the backend main loop

    [PostgresMain] calls [connectToHGDB] right before its message loop.  The
    function interacts with standard input and with the hypergraph server, and
    its [while(1)] has no exit, so both are modelled as interaction trees:
    the events are the calls into the C library and the kernel. *)

From S2P Require Import Prelude Hyper.
From Stdlib Require Import Ascii.
From ITree Require Import ITree ITreeFacts.
From Paco Require Import paco.

Module Startup.

Notation "'do' x '<~' t 'then' k" := (ITree.bind t (fun x => k))
  (at level 10, x name, k at level 200) : pg_scope.
Infix "≅" := (eq_itree eq) (at level 70) : pg_scope.
Open Scope pg_scope.

Definition MSG_SIZE : nat := 500.

(** Calls made by [connectToHGDB].  [Fgets] answers [None] for a NULL result
    (end of file), [Recvfrom] answers the bytes received. *)
Variant hgE : Type -> Type :=
| Socket : hgE Z
| Connect (fd port : Z) : hgE Z
| Printf (msg : string) : hgE unit
| Fgets (n : nat) : hgE (option (list ascii))
| Send (fd : Z) (msg : list ascii) : hgE Z
| Recvfrom (fd : Z) (n : nat) : hgE (list ascii)
| PrintReply (reply : Hyper.outcome (list ascii)) : hgE unit.

(** The global array [message] after [memset] and a write of [bytes] at its
    start. *)
Definition message_of (bytes : list ascii) : list (option ascii) :=
  List.map Some (take MSG_SIZE (bytes ++ replicate MSG_SIZE Hyper.NUL)%list).

(** [fgets] stores at most [n - 1] bytes. *)
Definition fgets_bytes (n : nat) (line : option (list ascii)) : list ascii :=
  match line with Some l => take (n - 1) l | None => [] end.

(** The bytes [send(fd, message, strlen(message), 0)] transmits. *)
Definition send_bytes (message : list (option ascii)) : list ascii :=
  match Hyper.cstring_of message with Hyper.Oret s => s | Hyper.Oub _ => [] end.

(** The calls of the message loop itself are any further events [E] offers. *)
Section Backend.
Context {E : Type -> Type} `{HE : hgE -< E}.

Definition call {A} (e : hgE A) : itree E A := trigger e.

Definition hgdb_iteration (fd : Z) : itree E (unit + Z) :=
  do _ <~ call (Printf "Enter a message: ") then
  do line <~ call (Fgets MSG_SIZE) then
  do _ <~ call (Send fd (send_bytes (message_of (fgets_bytes MSG_SIZE line)))) then
  do reply <~ call (Recvfrom fd MSG_SIZE) then
  do _ <~ call (PrintReply (Hyper.cstring_of (message_of reply))) then
  Ret (inl tt).

Definition connectToHGDB : itree E Z :=
  do fd <~ call Socket then
  do _ <~ call (Connect fd Hyper.HG_PORT) then
  ITree.iter (fun _ => hgdb_iteration fd) tt.

(** The tail of [PostgresMain]: [connectToHGDB(); for (;;) { ... }]. *)
Definition PostgresMain_tail {R} (main_loop : itree E R) : itree E R :=
  do _ <~ connectToHGDB then main_loop.

(** ** Properties *)

(** One turn of the loop, seen by the code that would run after it. *)
Lemma hgdb_loop_unfold {R} fd (k : Z -> itree E R) :
  ITree.bind (ITree.iter (fun _ => hgdb_iteration fd) tt) k ≅
  do _ <~ call (Printf "Enter a message: ") then
  do line <~ call (Fgets MSG_SIZE) then
  do _ <~ call (Send fd (send_bytes (message_of (fgets_bytes MSG_SIZE line)))) then
  do reply <~ call (Recvfrom fd MSG_SIZE) then
  do _ <~ call (PrintReply (Hyper.cstring_of (message_of reply))) then
  Tau (ITree.bind (ITree.iter (fun _ => hgdb_iteration fd) tt) k).
Proof.
  rewrite unfold_iter. unfold hgdb_iteration at 1.
  do 5 (rewrite !bind_bind; apply eqit_bind; [reflexivity|intros ?]).
  rewrite !bind_ret_l, bind_tau. reflexivity.
Qed.

(** Match the first event of two trees that start with the same call. *)
Ltac skip_event :=
  guclo eqit_clo_bind; eapply pbc_intro_h with (RU := eq);
  [reflexivity|]; intros ? _ <-.

Lemma hgdb_loop_no_exit {R} fd (k1 k2 : Z -> itree E R) :
  ITree.bind (ITree.iter (fun _ => hgdb_iteration fd) tt) k1
  ≅ ITree.bind (ITree.iter (fun _ => hgdb_iteration fd) tt) k2.
Proof.
  ginit. gcofix CIH. rewrite (hgdb_loop_unfold fd k1), (hgdb_loop_unfold fd k2).
  do 5 skip_event. gstep. constructor. gbase. apply CIH.
Qed.

(** C2: [connectToHGDB] never returns, whatever standard input and the server
    answer: the behaviour of a backend does not depend on its message loop,
    which is therefore never entered. *)
Theorem PostgresMain_loop_unreachable {R} (main_loop main_loop' : itree E R) :
  PostgresMain_tail main_loop ≅ PostgresMain_tail main_loop'.
Proof.
  unfold PostgresMain_tail, connectToHGDB. rewrite !bind_bind.
  apply eqit_bind; [reflexivity|]. intros fd. rewrite !bind_bind.
  apply eqit_bind; [reflexivity|]. intros _. apply hgdb_loop_no_exit.
Qed.

End Backend.
End Startup.
