(* ===== verification/Transam.v ===== *)
(** * Transaction identifiers

    Model of [src/include/access/transam.h], of the comparison functions of
    [src/backend/access/transam/transam.c] and of the assignment of
    transaction ids in [src/backend/access/transam/varsup.c].

    A [TransactionId] is a [uint32] and a [FullTransactionId] a [uint64], both
    kept as [Z] with the conversions of C written out ([u32], [s32], [u64]). *)

From S2P Require Import Prelude.
Open Scope Z_scope.

Module Transam.

Definition InvalidTransactionId : Z := 0.
Definition BootstrapTransactionId : Z := 1.
Definition FrozenTransactionId : Z := 2.
Definition FirstNormalTransactionId : Z := 3.
Definition MaxTransactionId : Z := 0xFFFFFFFF.

Definition TransactionIdIsValid (xid : Z) : bool := negb (xid =? InvalidTransactionId).
Definition TransactionIdIsNormal (xid : Z) : bool := FirstNormalTransactionId <=? xid.

(** ** Modulo-2{^32} comparisons *)

Definition TransactionIdPrecedes (id1 id2 : Z) : bool :=
  if negb (TransactionIdIsNormal id1) || negb (TransactionIdIsNormal id2)
  then id1 <? id2
  else s32 (id1 - id2) <? 0.

Definition TransactionIdPrecedesOrEquals (id1 id2 : Z) : bool :=
  if negb (TransactionIdIsNormal id1) || negb (TransactionIdIsNormal id2)
  then id1 <=? id2
  else s32 (id1 - id2) <=? 0.

Definition TransactionIdFollows (id1 id2 : Z) : bool :=
  if negb (TransactionIdIsNormal id1) || negb (TransactionIdIsNormal id2)
  then id2 <? id1
  else 0 <? s32 (id1 - id2).

Definition TransactionIdFollowsOrEquals (id1 id2 : Z) : bool :=
  if negb (TransactionIdIsNormal id1) || negb (TransactionIdIsNormal id2)
  then id2 <=? id1
  else 0 <=? s32 (id1 - id2).

(** [while (--nxids >= 0)]: the array is scanned from its end. *)
Definition TransactionIdLatest (mainxid : Z) (xids : list Z) : Z :=
  fold_left (fun result x => if TransactionIdPrecedes result x then x else result)
    (rev xids) mainxid.

(** ** Full transaction ids *)

Definition u64 (z : Z) : Z := z mod 2 ^ 64.
Definition EpochFromFullTransactionId (x : Z) : Z := u32 (Z.shiftr x 32).
Definition XidFromFullTransactionId (x : Z) : Z := u32 x.
Definition FullTransactionIdFromEpochAndXid (epoch xid : Z) : Z :=
  Z.lor (Z.shiftl epoch 32) xid.

Definition TransactionIdAdvance (dest : Z) : Z :=
  let dest := u32 (dest + 1) in
  if dest <? FirstNormalTransactionId then FirstNormalTransactionId else dest.

(** [while (XidFromFullTransactionId(dest) < FirstNormalTransactionId) dest++] *)
Fixpoint FullTransactionIdAdvance_loop (fuel : nat) (dest : Z) : Z :=
  match fuel with
  | O => dest
  | S n =>
      if XidFromFullTransactionId dest <? FirstNormalTransactionId
      then FullTransactionIdAdvance_loop n (u64 (dest + 1))
      else dest
  end.

(** At most three ids in a row are not normal, so three rounds end the loop. *)
Definition FullTransactionIdAdvance (dest : Z) : Z :=
  FullTransactionIdAdvance_loop 3 (u64 (dest + 1)).

(** [do dest--; while (dest < FirstNormalTransactionId)] *)
Fixpoint TransactionIdRetreat_loop (fuel : nat) (dest : Z) : Z :=
  match fuel with
  | O => dest
  | S n =>
      if dest <? FirstNormalTransactionId
      then TransactionIdRetreat_loop n (u32 (dest - 1))
      else dest
  end.

Definition TransactionIdRetreat (dest : Z) : Z :=
  TransactionIdRetreat_loop 3 (u32 (dest - 1)).

(** ** Lemmas on the comparisons *)

Lemma normal_spec xid : TransactionIdIsNormal xid = true <-> 3 <= xid.
Proof. unfold TransactionIdIsNormal, FirstNormalTransactionId. apply Z.leb_le. Qed.

(** Two full ids closer than 2{^31} have a signed 32-bit difference equal to
    their difference. *)
Lemma s32_window a b :
  - 2 ^ 31 <= a - b < 2 ^ 31 ->
  s32 (XidFromFullTransactionId a - XidFromFullTransactionId b) = a - b.
Proof.
  intros H. unfold XidFromFullTransactionId, u32.
  apply (s32_unique _ _ (a / 2 ^ 32 - b / 2 ^ 32)); [exact H|].
  pose proof (Z.div_mod a (2 ^ 32) ltac:(lia)).
  pose proof (Z.div_mod b (2 ^ 32) ltac:(lia)). lia.
Qed.

(** [full_normal a] is what the code maintains for every id it assigns. *)
Definition full_normal (a : Z) : Prop := 3 <= XidFromFullTransactionId a.

Section Window.
Context (a b : Z) (Ha : full_normal a) (Hb : full_normal b)
  (Hw : - 2 ^ 31 <= a - b < 2 ^ 31).

Lemma precedes_full :
  TransactionIdPrecedes (XidFromFullTransactionId a) (XidFromFullTransactionId b)
  = (a <? b).
Proof using Ha Hb Hw.
  unfold TransactionIdPrecedes. unfold full_normal in *.
  rewrite !(proj2 (normal_spec _)) by done. simpl.
  rewrite s32_window by exact Hw. destruct (Z.ltb_spec (a - b) 0), (Z.ltb_spec a b); lia.
Qed.

Lemma follows_eq_full :
  TransactionIdFollowsOrEquals (XidFromFullTransactionId a) (XidFromFullTransactionId b)
  = (b <=? a).
Proof using Ha Hb Hw.
  unfold TransactionIdFollowsOrEquals. unfold full_normal in *.
  rewrite !(proj2 (normal_spec _)) by done. simpl.
  rewrite s32_window by exact Hw. destruct (Z.leb_spec 0 (a - b)), (Z.leb_spec b a); lia.
Qed.

Lemma follows_full :
  TransactionIdFollows (XidFromFullTransactionId a) (XidFromFullTransactionId b)
  = (b <? a).
Proof using Ha Hb Hw.
  unfold TransactionIdFollows. unfold full_normal in *.
  rewrite !(proj2 (normal_spec _)) by done. simpl.
  rewrite s32_window by exact Hw. destruct (Z.ltb_spec 0 (a - b)), (Z.ltb_spec b a); lia.
Qed.

Lemma precedes_eq_full :
  TransactionIdPrecedesOrEquals (XidFromFullTransactionId a) (XidFromFullTransactionId b)
  = (a <=? b).
Proof using Ha Hb Hw.
  unfold TransactionIdPrecedesOrEquals. unfold full_normal in *.
  rewrite !(proj2 (normal_spec _)) by done. simpl.
  rewrite s32_window by exact Hw. destruct (Z.leb_spec (a - b) 0), (Z.leb_spec a b); lia.
Qed.
End Window.

Lemma FullTransactionIdAdvance_spec a :
  0 <= a < 2 ^ 64 - 4 ->
  a < FullTransactionIdAdvance a <= a + 4 /\ full_normal (FullTransactionIdAdvance a) /\
  forall c, a < c < FullTransactionIdAdvance a -> ~ full_normal c.
Proof.
  intros Ha. unfold FullTransactionIdAdvance, full_normal.
  pose proof (Z.div_mod a (2 ^ 32) ltac:(lia)).
  pose proof (Z.mod_pos_bound a (2 ^ 32) ltac:(lia)).
  assert (Hu : forall k, 0 <= k <= 4 -> u64 (a + k) = a + k)
    by (intros; unfold u64; apply Z.mod_small; lia).
  assert (Hlow : forall c, a < c <= a + 4 ->
    (a mod 2 ^ 32 + (c - a) < 2 ^ 32 /\ XidFromFullTransactionId c = a mod 2 ^ 32 + (c - a)) \/
    (2 ^ 32 <= a mod 2 ^ 32 + (c - a) /\
     XidFromFullTransactionId c = a mod 2 ^ 32 + (c - a) - 2 ^ 32)).
  { intros c Hc. unfold XidFromFullTransactionId, u32.
    destruct (Z_lt_dec (a mod 2 ^ 32 + (c - a)) (2 ^ 32)).
    - left. split; [done|]. symmetry. apply (Z.mod_unique_pos _ _ (a / 2 ^ 32)); lia.
    - right. split; [lia|]. symmetry.
      apply (Z.mod_unique_pos _ _ (a / 2 ^ 32 + 1)); lia. }
  rewrite (Hu 1) by lia. cbn [FullTransactionIdAdvance_loop].
  unfold FirstNormalTransactionId.
  pose proof (Hlow (a + 1)). pose proof (Hlow (a + 2)).
  pose proof (Hlow (a + 3)). pose proof (Hlow (a + 4)).
  replace (a + 1 + 1) with (a + 2) by lia. rewrite (Hu 2) by lia.
  replace (a + 2 + 1) with (a + 3) by lia. rewrite (Hu 3) by lia.
  replace (a + 3 + 1) with (a + 4) by lia. rewrite (Hu 4) by lia.
  repeat match goal with
  | |- context [Z.ltb ?x ?y] => destruct (Z.ltb_spec x y); try lia
  end; (split; [lia|]; split; [lia|]; intros c Hc; pose proof (Hlow c); lia).
Qed.

(** Ids less than 2^31 apart from each other compare as numbers. *)
Lemma precedes_small x y : 0 <= x < 2 ^ 31 -> 0 <= y < 2 ^ 31 ->
  TransactionIdPrecedes x y = (x <? y).
Proof.
  intros Hx Hy. unfold TransactionIdPrecedes. case_match; [done|].
  rewrite (s32_unique (x - y) (x - y) 0) by lia.
  apply eq_true_iff_eq. rewrite !Z.ltb_lt. lia.
Qed.

(** Advancing a 32-bit id is advancing the full id: by one, or by four over the
    special ids when the counter wraps around. *)
Lemma TransactionIdAdvance_full x :
  0 <= x < 2 ^ 64 - 4 -> full_normal x ->
  TransactionIdAdvance (XidFromFullTransactionId x) =
    XidFromFullTransactionId (FullTransactionIdAdvance x) /\
  (FullTransactionIdAdvance x = x + 1 \/
   FullTransactionIdAdvance x = x + 4 /\ x mod 2 ^ 32 = 2 ^ 32 - 1).
Proof.
  intros Hx Hn. destruct (FullTransactionIdAdvance_spec x ltac:(lia)) as (Hr & Hf & Hleast).
  set (c := FullTransactionIdAdvance x) in *.
  assert (Hc : c = x + 1 \/ c = x + 4 /\ x mod 2 ^ 32 = 2 ^ 32 - 1).
  { unfold full_normal, XidFromFullTransactionId, u32 in *.
    pose proof (Z.div_mod x (2 ^ 32) ltac:(lia)). pose proof (Z.div_mod c (2 ^ 32) ltac:(lia)).
    pose proof (Z.mod_pos_bound x (2 ^ 32) ltac:(lia)).
    pose proof (Z.mod_pos_bound c (2 ^ 32) ltac:(lia)).
    destruct (Z_lt_dec (x mod 2 ^ 32) (2 ^ 32 - 1)) as [Hl'|Hl']; [|lia].
    destruct (Z_lt_dec (x + 1) c) as [Hc|Hc]; [|lia].
    exfalso. apply (Hleast (x + 1)); [lia|].
    rewrite <- Z.add_mod_idemp_l by lia. rewrite Z.mod_small; lia. }
  assert (Hadv : TransactionIdAdvance (XidFromFullTransactionId x) = XidFromFullTransactionId c).
  { unfold TransactionIdAdvance, FirstNormalTransactionId, full_normal,
      XidFromFullTransactionId, u32 in *.
    rewrite Z.add_mod_idemp_l by lia. destruct Hc as [Hc|[Hc Hm]].
    - rewrite <- Hc. destruct (Z.ltb_spec (c mod 2 ^ 32) 3); lia.
    - pose proof (Z.div_mod x (2 ^ 32) ltac:(lia)).
      assert ((x + 1) mod 2 ^ 32 = 0) as ->.
      { symmetry. apply (Z.mod_unique_pos _ _ (x / 2 ^ 32 + 1)); lia. }
      simpl. apply (Z.mod_unique_pos _ _ (x / 2 ^ 32 + 1)); lia. }
  done.
Qed.

End Transam.
