(* ===== verification/Varsup.v ===== *)
(** * Assignment of transaction ids and wraparound protection

    Model of [src/backend/access/transam/varsup.c]: the part of
    [VariableCacheData] protected by [XidGenLock], [GetNewTransactionId] and
    [SetTransactionIdLimit].  [GetNewTransactionId] drops [XidGenLock] between
    the test of the limits and the assignment, so it is split in these two
    critical sections; the protocol of many backends is a step relation over
    them. *)

From S2P Require Import Prelude Transam.
Import Transam.
Open Scope Z_scope.

Module Varsup.

Record VariableCacheData := {
  nextFullXid : Z;
  oldestXid : Z;
  xidVacLimit : Z;
  xidWarnLimit : Z;
  xidStopLimit : Z;
  xidWrapLimit : Z;
  oldestXidDB : Z;
  oldestClogXid : Z;
}.

(** The fields of [PGXACT] and [PGPROC] that advertise a backend's ids. *)
Record PgXact := {
  pgx_xid : Z;
  pgx_subxids : list Z;          (* MyProc->subxids.xids[0 .. nxids-1] *)
  pgx_overflowed : bool;
}.

Definition PGPROC_MAX_CACHED_SUBXIDS : nat := 64.

(** Process-wide state consulted by this file. *)
Record xidgen_env := {
  IsInParallelMode : bool;
  IsBootstrapProcessingMode : bool;
  RecoveryInProgress : bool;
  IsUnderPostmaster : bool;
  InRecovery : bool;
  autovacuum_freeze_max_age : Z;
}.

Inductive xidgen_error :=
| ErrParallelMode
| ErrRecovery
| ErrStopLimit.

(** Calls into other modules and messages. *)
Inductive xidgen_event :=
| SignalAutovacLauncher
| WarnVacuumWithin (xids : Z)
| LogWrapLimit (xid : Z)
| ExtendCLOG (xid : Z)
| ExtendCommitTs (xid : Z)
| ExtendSUBTRANS (xid : Z).

(** First critical section: [inr true] when the lock was released and must be
    taken again, [inr false] when it is still held. *)
Definition GetNewTransactionId_check (env : xidgen_env) (vc : VariableCacheData)
  : list xidgen_event * (xidgen_error + bool) :=
  let xid := XidFromFullTransactionId (nextFullXid vc) in
  if TransactionIdFollowsOrEquals xid (xidVacLimit vc) then
    let evs := if IsUnderPostmaster env && (xid mod 65536 =? 0)
               then [SignalAutovacLauncher] else [] in
    if IsUnderPostmaster env && TransactionIdFollowsOrEquals xid (xidStopLimit vc)
    then (evs, inl ErrStopLimit)
    else if TransactionIdFollowsOrEquals xid (xidWarnLimit vc)
    then (evs ++ [WarnVacuumWithin (u32 (xidWrapLimit vc - xid))], inr true)
    else (evs, inr true)
  else ([], inr false).

Definition set_nextFullXid (n : Z) (vc : VariableCacheData) : VariableCacheData :=
  {| nextFullXid := n; oldestXid := oldestXid vc; xidVacLimit := xidVacLimit vc;
     xidWarnLimit := xidWarnLimit vc; xidStopLimit := xidStopLimit vc;
     xidWrapLimit := xidWrapLimit vc; oldestXidDB := oldestXidDB vc;
     oldestClogXid := oldestClogXid vc |}.

(** The advertisement of the new id in the shared PGPROC array. *)
Definition advertise (isSubXact : bool) (xid : Z) (p : PgXact) : PgXact :=
  if negb isSubXact then
    {| pgx_xid := xid; pgx_subxids := pgx_subxids p; pgx_overflowed := pgx_overflowed p |}
  else if (length (pgx_subxids p) <? PGPROC_MAX_CACHED_SUBXIDS)%nat then
    {| pgx_xid := pgx_xid p; pgx_subxids := pgx_subxids p ++ [xid];
       pgx_overflowed := pgx_overflowed p |}
  else
    {| pgx_xid := pgx_xid p; pgx_subxids := pgx_subxids p; pgx_overflowed := true |}.

(** Second critical section. *)
Definition GetNewTransactionId_assign (isSubXact : bool) (vc : VariableCacheData) (p : PgXact)
  : list xidgen_event * VariableCacheData * PgXact * Z :=
  let full_xid := nextFullXid vc in
  let xid := XidFromFullTransactionId full_xid in
  ([ExtendCLOG xid; ExtendCommitTs xid; ExtendSUBTRANS xid],
   set_nextFullXid (FullTransactionIdAdvance full_xid) vc,
   advertise isSubXact xid p, full_xid).

(** The whole function; [others] is what other backends do to the shared
    state while the lock is released. *)
Definition GetNewTransactionId (env : xidgen_env) (isSubXact : bool)
  (others : VariableCacheData -> VariableCacheData)
  (vc : VariableCacheData) (p : PgXact)
  : list xidgen_event * VariableCacheData * PgXact * (xidgen_error + Z) :=
  if IsInParallelMode env then ([], vc, p, inl ErrParallelMode)
  else if IsBootstrapProcessingMode env then
    ([], vc,
     {| pgx_xid := BootstrapTransactionId; pgx_subxids := pgx_subxids p;
        pgx_overflowed := pgx_overflowed p |},
     inr (FullTransactionIdFromEpochAndXid 0 BootstrapTransactionId))
  else if RecoveryInProgress env then ([], vc, p, inl ErrRecovery)
  else
    match GetNewTransactionId_check env vc with
    | (evs, inl e) => (evs, vc, p, inl e)
    | (evs, inr window) =>
        let vc := if window : bool then others vc else vc in
        let '(evs', vc', p', full_xid) := GetNewTransactionId_assign isSubXact vc p in
        (evs ++ evs', vc', p', inr full_xid)
    end.

Definition AdvanceNextFullTransactionIdPastXid (xid : Z) (vc : VariableCacheData)
  : VariableCacheData :=
  let next_xid := XidFromFullTransactionId (nextFullXid vc) in
  if negb (TransactionIdFollowsOrEquals xid next_xid) then vc
  else
    let xid := TransactionIdAdvance xid in
    let epoch := EpochFromFullTransactionId (nextFullXid vc) in
    let epoch := if xid <? next_xid then u32 (epoch + 1) else epoch in
    set_nextFullXid (FullTransactionIdFromEpochAndXid epoch xid) vc.

Definition AdvanceOldestClogXid (oldest_datfrozenxid : Z) (vc : VariableCacheData)
  : VariableCacheData :=
  if TransactionIdPrecedes (oldestClogXid vc) oldest_datfrozenxid then
    {| nextFullXid := nextFullXid vc; oldestXid := oldestXid vc;
       xidVacLimit := xidVacLimit vc; xidWarnLimit := xidWarnLimit vc;
       xidStopLimit := xidStopLimit vc; xidWrapLimit := xidWrapLimit vc;
       oldestXidDB := oldestXidDB vc; oldestClogXid := oldest_datfrozenxid |}
  else vc.

(** The two ways the limits step over the special ids. *)
Definition skip_up (xid : Z) : Z :=
  if xid <? FirstNormalTransactionId then u32 (xid + FirstNormalTransactionId) else xid.
Definition skip_down (xid : Z) : Z :=
  if xid <? FirstNormalTransactionId then u32 (xid - FirstNormalTransactionId) else xid.

Definition SetTransactionIdLimit (env : xidgen_env) (oldest_datfrozenxid oldest_datoid : Z)
  (vc : VariableCacheData) : list xidgen_event * VariableCacheData :=
  let wrap := skip_up (u32 (oldest_datfrozenxid + Z.shiftr MaxTransactionId 1)) in
  let stop := skip_down (u32 (wrap - 1000000)) in
  let warn := skip_down (u32 (stop - 10000000)) in
  let vac := skip_up (u32 (oldest_datfrozenxid + autovacuum_freeze_max_age env)) in
  let vc' := {| nextFullXid := nextFullXid vc; oldestXid := oldest_datfrozenxid;
                xidVacLimit := vac; xidWarnLimit := warn; xidStopLimit := stop;
                xidWrapLimit := wrap; oldestXidDB := oldest_datoid;
                oldestClogXid := oldestClogXid vc |} in
  let curXid := XidFromFullTransactionId (nextFullXid vc) in
  ([LogWrapLimit wrap]
   ++ (if TransactionIdFollowsOrEquals curXid vac && IsUnderPostmaster env
          && negb (InRecovery env) then [SignalAutovacLauncher] else [])
   ++ (if TransactionIdFollowsOrEquals curXid warn && negb (InRecovery env)
       then [WarnVacuumWithin (u32 (wrap - curXid))] else []),
   vc').

(** ** Counting normal ids *)

(** The number of normal ids below a normal id, up to a constant. *)
Definition rank (a : Z) : Z := a - 3 * (a / 2 ^ 32).

Lemma rank_lt_normal a b : a < b -> full_normal b -> rank a < rank b.
Proof.
  intros H Hb. unfold rank, full_normal, XidFromFullTransactionId, u32 in *.
  pose proof (Z.div_mod a (2 ^ 32) ltac:(lia)).
  pose proof (Z.div_mod b (2 ^ 32) ltac:(lia)).
  pose proof (Z.mod_pos_bound a (2 ^ 32) ltac:(lia)).
  pose proof (Z.mod_pos_bound b (2 ^ 32) ltac:(lia)). lia.
Qed.

Lemma rank_le a b : a <= b -> full_normal b -> rank a <= rank b.
Proof.
  intros H Hb. destruct (decide (a = b)) as [->|]; [done|].
  pose proof (rank_lt_normal a b ltac:(lia) Hb). lia.
Qed.

Lemma rank_diff a b : a <= b -> rank b - rank a <= b - a.
Proof.
  intros H. unfold rank. pose proof (Z.div_le_mono a b (2 ^ 32) ltac:(lia) H). lia.
Qed.

Lemma rank_window a b d :
  full_normal a -> full_normal b -> rank b - rank a <= d -> d <= 2 ^ 31 -> b - a <= d + 3.
Proof.
  unfold rank, full_normal, XidFromFullTransactionId, u32.
  pose proof (Z.div_mod a (2 ^ 32) ltac:(lia)).
  pose proof (Z.div_mod b (2 ^ 32) ltac:(lia)).
  pose proof (Z.mod_pos_bound a (2 ^ 32) ltac:(lia)).
  pose proof (Z.mod_pos_bound b (2 ^ 32) ltac:(lia)). lia.
Qed.

(** One assignment takes exactly one normal id. *)
Lemma rank_advance a :
  0 <= a < 2 ^ 64 - 4 -> full_normal a ->
  rank (FullTransactionIdAdvance a) = rank a + 1.
Proof.
  intros Ha Hn. destruct (FullTransactionIdAdvance_spec a Ha) as (Hr & Hf & Hleast).
  unfold rank, full_normal, XidFromFullTransactionId, u32 in *.
  set (c := FullTransactionIdAdvance a) in *.
  pose proof (Z.div_mod a (2 ^ 32) ltac:(lia)).
  pose proof (Z.div_mod c (2 ^ 32) ltac:(lia)).
  pose proof (Z.mod_pos_bound a (2 ^ 32) ltac:(lia)).
  pose proof (Z.mod_pos_bound c (2 ^ 32) ltac:(lia)).
  destruct (Z_lt_dec (a mod 2 ^ 32) (2 ^ 32 - 1)) as [Hl|Hl]; [|lia].
  destruct (Z_lt_dec (a + 1) c) as [Hc|Hc]; [|lia].
  exfalso. apply (Hleast (a + 1)); [lia|].
  rewrite <- Z.add_mod_idemp_l by lia. rewrite Z.mod_small; lia.
Qed.

(** ** The protocol of many backends *)

(** [MAX_BACKENDS] of [src/include/postmaster/postmaster.h]. *)
Definition MAX_BACKENDS : Z := 0x3FFFF.

(** Where a backend is in [GetNewTransactionId]: outside, or between the two
    critical sections. *)
Inductive backend_pc := BIdle | BInWindow.

(** [oldest_full] is the 64-bit id whose low half is [oldestXid]; the code
    never stores it. *)
Record cluster := { cl_vc : VariableCacheData; oldest_full : Z; cl_pcs : list backend_pc }.

Definition in_window (pc : backend_pc) : nat :=
  match pc with BInWindow => 1 | BIdle => 0 end.
Definition windows (pcs : list backend_pc) : nat := list_sum (map in_window pcs).

Lemma windows_insert pcs i pc pc' :
  pcs !! i = Some pc ->
  (windows (<[i := pc']> pcs) + in_window pc = windows pcs + in_window pc')%nat.
Proof.
  revert i. induction pcs as [|q pcs IH]; intros [|i] H; simplify_eq/=;
    unfold windows in *; simpl; [lia|]. specialize (IH _ H). lia.
Qed.

Lemma windows_le pcs : (windows pcs <= length pcs)%nat.
Proof.
  induction pcs as [|q pcs IH]; [done|]. unfold windows in *. simpl. destruct q; simpl; lia.
Qed.

Lemma windows_idle pcs i :
  pcs !! i = Some BIdle -> (windows pcs < length pcs)%nat.
Proof.
  intros H. pose proof (windows_insert pcs i BIdle BInWindow H).
  pose proof (windows_le (<[i := BInWindow]> pcs)) as Hle.
  rewrite length_insert in Hle. simpl in *. lia.
Qed.

Section Protocol.
Context (env : xidgen_env) (p : PgXact).

Definition assign_vc (vc : VariableCacheData) : VariableCacheData :=
  let '(_, vc', _, _) := GetNewTransactionId_assign false vc p in vc'.

(** One atomic step of the cluster.  The 64-bit counter is assumed not to
    overflow. *)
Inductive xid_step : cluster -> cluster -> Prop :=
| step_assign vc o pcs i evs :
    pcs !! i = Some BIdle ->
    GetNewTransactionId_check env vc = (evs, inr false) ->
    nextFullXid vc < 2 ^ 64 - 4 ->
    xid_step {| cl_vc := vc; oldest_full := o; cl_pcs := pcs |}
             {| cl_vc := assign_vc vc; oldest_full := o; cl_pcs := pcs |}
| step_window vc o pcs i evs :
    pcs !! i = Some BIdle ->
    GetNewTransactionId_check env vc = (evs, inr true) ->
    xid_step {| cl_vc := vc; oldest_full := o; cl_pcs := pcs |}
             {| cl_vc := vc; oldest_full := o; cl_pcs := <[i := BInWindow]> pcs |}
| step_finish vc o pcs i :
    pcs !! i = Some BInWindow ->
    nextFullXid vc < 2 ^ 64 - 4 ->
    xid_step {| cl_vc := vc; oldest_full := o; cl_pcs := pcs |}
             {| cl_vc := assign_vc vc; oldest_full := o; cl_pcs := <[i := BIdle]> pcs |}
| step_vacuum vc o pcs o' db :
    o <= o' <= nextFullXid vc -> full_normal o' ->
    xid_step {| cl_vc := vc; oldest_full := o; cl_pcs := pcs |}
             {| cl_vc := snd (SetTransactionIdLimit env (XidFromFullTransactionId o') db vc);
                oldest_full := o'; cl_pcs := pcs |}.

(** A cluster whose limits were just computed and where no backend is
    assigning an id. *)
Definition xid_init (n : nat) (st : cluster) : Prop :=
  exists vc0 o db,
    st = {| cl_vc := snd (SetTransactionIdLimit env (XidFromFullTransactionId o) db vc0);
            oldest_full := o; cl_pcs := replicate n BIdle |} /\
    0 <= o <= nextFullXid vc0 /\ full_normal o /\ full_normal (nextFullXid vc0) /\
    nextFullXid vc0 <= o + 2 ^ 31 - 1001000.

Definition xid_reachable (n : nat) (st : cluster) : Prop :=
  exists st0, xid_init n st0 /\ rtc xid_step st0 st.

(** *** Limits as full ids *)

Lemma skip_up_spec o d :
  0 <= o -> 0 <= d -> exists f, o + d <= f <= o + d + 3 /\ full_normal f /\
    XidFromFullTransactionId f = skip_up (u32 (XidFromFullTransactionId o + d)).
Proof.
  intros Ho Hd. unfold skip_up, FirstNormalTransactionId.
  assert (E : u32 (XidFromFullTransactionId o + d) = XidFromFullTransactionId (o + d)).
  { unfold XidFromFullTransactionId, u32. by rewrite Z.add_mod_idemp_l by lia. }
  rewrite E. destruct (Z.ltb_spec (XidFromFullTransactionId (o + d)) 3) as [Hl|Hl].
  - exists (o + d + 3). split; [lia|]. unfold full_normal, XidFromFullTransactionId, u32 in *.
    pose proof (Z.mod_pos_bound (o + d) (2 ^ 32) ltac:(lia)).
    assert ((o + d + 3) mod 2 ^ 32 = (o + d) mod 2 ^ 32 + 3) as ->.
    { rewrite <- Z.add_mod_idemp_l by lia. apply Z.mod_small. lia. }
    split; [lia|]. symmetry. apply Z.mod_small. lia.
  - exists (o + d). split; [lia|]. split; [exact Hl|done].
Qed.

Lemma skip_down_spec f d :
  exists g, f - d - 3 <= g <= f - d /\ full_normal g /\
    XidFromFullTransactionId g = skip_down (u32 (XidFromFullTransactionId f - d)).
Proof.
  unfold skip_down, FirstNormalTransactionId.
  assert (E : u32 (XidFromFullTransactionId f - d) = XidFromFullTransactionId (f - d)).
  { unfold XidFromFullTransactionId, u32. by rewrite Zminus_mod_idemp_l. }
  rewrite E. destruct (Z.ltb_spec (XidFromFullTransactionId (f - d)) 3) as [Hl|Hl].
  - exists (f - d - 3). split; [lia|]. unfold full_normal, XidFromFullTransactionId, u32 in *.
    pose proof (Z.mod_pos_bound (f - d) (2 ^ 32) ltac:(lia)).
    assert ((f - d - 3) mod 2 ^ 32 = (f - d) mod 2 ^ 32 - 3 + 2 ^ 32) as Hm.
    { symmetry. apply (Z.mod_unique_pos _ _ ((f - d) / 2 ^ 32 - 1)); [lia|].
      pose proof (Z.div_mod (f - d) (2 ^ 32) ltac:(lia)). lia. }
    split; [lia|]. rewrite Hm.
    apply (Z.mod_unique_pos _ _ (-1)); lia.
  - exists (f - d). split; [lia|]. split; [exact Hl|done].
Qed.

(** The limits of [vc] are those of the oldest id [o]. *)
Record limits_of (vc : VariableCacheData) (o stop vac : Z) : Prop := {
  lim_oldest : oldestXid vc = XidFromFullTransactionId o;
  lim_stop : xidStopLimit vc = XidFromFullTransactionId stop;
  lim_vac : xidVacLimit vc = XidFromFullTransactionId vac;
  lim_o_normal : full_normal o;
  lim_stop_normal : full_normal stop;
  lim_vac_normal : full_normal vac;
  lim_stop_range : o + 2 ^ 31 - 1000004 <= stop <= o + 2 ^ 31 - 999998;
  lim_vac_range : o <= vac <= stop;
}.

Context (Hfma : 100000 <= autovacuum_freeze_max_age env <= 2000000000).

Lemma SetTransactionIdLimit_limits o db vc :
  0 <= o -> full_normal o ->
  exists stop vac,
    limits_of (snd (SetTransactionIdLimit env (XidFromFullTransactionId o) db vc)) o stop vac.
Proof using Hfma.
  intros Ho Hn.
  destruct (skip_up_spec o (Z.shiftr MaxTransactionId 1)) as (w & Hw & Hwn & Ew); [done|done|].
  destruct (skip_down_spec w 1000000) as (s & Hs & Hsn & Es).
  destruct (skip_up_spec o (autovacuum_freeze_max_age env)) as (v & Hv & Hvn & Ev); [done|lia|].
  change (Z.shiftr MaxTransactionId 1) with (2 ^ 31 - 1) in *.
  exists s, v. split; simpl; try done.
  - rewrite Es, Ew. done.
  - lia.
  - lia.
Qed.

(** *** The invariant *)


Context (n : nat) (Hn : Z.of_nat n <= MAX_BACKENDS).

(** Each backend in the window may still take one id. *)
Record xid_inv (st : cluster) : Prop := {
  inv_len : length (cl_pcs st) = n;
  inv_pos : 0 <= oldest_full st <= nextFullXid (cl_vc st);
  inv_next : full_normal (nextFullXid (cl_vc st));
  inv_lim : exists stop vac, limits_of (cl_vc st) (oldest_full st) stop vac;
  inv_next_bound : rank (nextFullXid (cl_vc st)) + Z.of_nat (windows (cl_pcs st))
    <= rank (oldest_full st) + 2 ^ 31 - 999998 + Z.of_nat n;
}.

Local Ltac xcbn := cbn -[Z.mul windows FullTransactionIdAdvance rank].
Local Ltac xcbn_all := cbn -[Z.mul windows FullTransactionIdAdvance rank] in *.

Lemma xid_inv_dist st : xid_inv st -> nextFullXid (cl_vc st) < oldest_full st + 2 ^ 31.
Proof using Hn.
  intros [_ _ Hnx (stop & vac & L) Hb]. unfold MAX_BACKENDS in Hn.
  pose proof (lim_o_normal _ _ _ _ L) as Hno.
  pose proof (rank_window _ _ (2 ^ 31 - 999998 + Z.of_nat n) Hno Hnx). lia.
Qed.

Lemma xid_inv_init st : xid_init n st -> xid_inv st.
Proof using Hfma.
  intros (vc0 & o & db & -> & Ho & Hno & Hnn & Hd). split; xcbn.
  - apply length_replicate.
  - exact Ho.
  - exact Hnn.
  - destruct (SetTransactionIdLimit_limits o db vc0) as (s & v & L); [lia|done|].
    by exists s, v.
  - pose proof (windows_le (replicate n BIdle)) as Hw. rewrite length_replicate in Hw.
    pose proof (rank_diff o (nextFullXid vc0)). lia.
Qed.

(** What the first critical section guarantees when it lets a backend pass. *)
Lemma check_passes vc o stop vac evs b :
  IsUnderPostmaster env = true ->
  limits_of vc o stop vac -> full_normal (nextFullXid vc) ->
  o <= nextFullXid vc < o + 2 ^ 31 ->
  GetNewTransactionId_check env vc = (evs, inr b) ->
  nextFullXid vc < stop.
Proof using Hn.
  intros Hpm L Hnn Hr. destruct L. unfold GetNewTransactionId_check.
  rewrite lim_vac0, follows_eq_full by (done || lia).
  destruct (Z.leb_spec vac (nextFullXid vc)) as [Hv|Hv].
  - rewrite lim_stop0, follows_eq_full by (done || lia). rewrite Hpm. cbn [andb].
    destruct (Z.leb_spec stop (nextFullXid vc)); [done|]. intros _. lia.
  - intros _. lia.
Qed.

Lemma xid_inv_step st st' :
  IsUnderPostmaster env = true -> xid_step st st' -> xid_inv st -> xid_inv st'.
Proof using Hfma Hn.
  intros Hpm Hstep Hinv. pose proof (xid_inv_dist _ Hinv) as Hd.
  destruct Hinv as [Hlen Hpos Hnx (stop & vac & L) Hb].
  pose proof (lim_stop_range _ _ _ _ L) as Hs.
  pose proof (lim_stop_normal _ _ _ _ L) as Hsn.
  destruct Hstep as [vc o pcs i evs Hi Hc Hov|vc o pcs i evs Hi Hc|vc o pcs i Hi Hov
                    |vc o pcs o' db Ho' Hno']; xcbn_all.
  - pose proof (windows_idle _ _ Hi) as Hw.
    eapply check_passes in Hc; [|done|exact L|done|lia].
    pose proof (rank_lt_normal _ _ Hc Hsn). pose proof (rank_diff o stop).
    destruct (FullTransactionIdAdvance_spec (nextFullXid vc)) as (Ha & Hfn & _); [lia|].
    pose proof (rank_advance (nextFullXid vc) ltac:(lia) Hnx).
    split; xcbn; [done|lia|done| |lia].
    exists stop, vac. by destruct L; split.
  - pose proof (windows_idle _ _ Hi) as Hw.
    eapply check_passes in Hc; [|done|exact L|done|lia].
    pose proof (rank_lt_normal _ _ Hc Hsn). pose proof (rank_diff o stop).
    pose proof (windows_insert _ _ _ BInWindow Hi) as Hwi.
    split; xcbn_all; [by rewrite length_insert|lia|done|eauto|lia].
  - pose proof (windows_insert _ _ _ BIdle Hi) as Hwi.
    destruct (FullTransactionIdAdvance_spec (nextFullXid vc)) as (Ha & Hfn & _); [lia|].
    pose proof (rank_advance (nextFullXid vc) ltac:(lia) Hnx).
    split; xcbn_all; [by rewrite length_insert|lia|done| |lia].
    exists stop, vac. by destruct L; split.
  - destruct (SetTransactionIdLimit_limits o' db vc) as (s' & v' & L'); [lia|done|].
    pose proof (rank_le o o' ltac:(lia) Hno').
    split; xcbn; [done|lia|done|eauto|lia].
Qed.
End Protocol.

(** ** Properties *)

Definition witness_env : xidgen_env :=
  {| IsInParallelMode := false; IsBootstrapProcessingMode := false;
     RecoveryInProgress := false; IsUnderPostmaster := true; InRecovery := false;
     autovacuum_freeze_max_age := 200000000 |}.

Definition witness_vc : VariableCacheData :=
  {| nextFullXid := 2 ^ 32 + 100; oldestXid := 0; xidVacLimit := 0; xidWarnLimit := 0;
     xidStopLimit := 0; xidWrapLimit := 0; oldestXidDB := 1; oldestClogXid := 3 |}.

Definition witness_pgx : PgXact :=
  {| pgx_xid := 0; pgx_subxids := []; pgx_overflowed := false |}.

(** C4: wraparound protection.  However many backends (up to MAX_BACKENDS)
    race through the unlocked window of [GetNewTransactionId], the ids in use
    always span less than 2{^31}, so that [TransactionIdPrecedes] and
    [TransactionIdFollows] order them the way they were assigned. *)
Theorem wraparound_protection (env : xidgen_env) (p : PgXact) (n : nat) st a b :
  IsUnderPostmaster env = true ->
  100000 <= autovacuum_freeze_max_age env <= 2000000000 ->
  Z.of_nat n <= MAX_BACKENDS ->
  xid_reachable env p n st ->
  full_normal a -> full_normal b ->
  oldest_full st <= a <= nextFullXid (cl_vc st) ->
  oldest_full st <= b <= nextFullXid (cl_vc st) ->
  TransactionIdPrecedes (XidFromFullTransactionId a) (XidFromFullTransactionId b) = (a <? b) /\
  TransactionIdFollows (XidFromFullTransactionId a) (XidFromFullTransactionId b) = (b <? a).
Proof.
  intros Hpm Hfma Hn (st0 & Hinit & Hsteps) Ha Hb Hra Hrb.
  assert (Hinv : xid_inv n st).
  { apply (xid_inv_init env) in Hinit; [|done..].
    induction Hsteps as [|st0 st1 st Hstep _ IH]; [done|].
    eauto using xid_inv_step. }
  pose proof (xid_inv_dist n Hn st Hinv).
  split; [apply precedes_full|apply follows_full]; done || lia.
Qed.

Lemma wraparound_protection_witness :
  xid_reachable witness_env witness_pgx 2 
    {| cl_vc := snd (SetTransactionIdLimit witness_env
                       (XidFromFullTransactionId (2 ^ 32 - 5)) 1 witness_vc);
       oldest_full := 2 ^ 32 - 5; cl_pcs := [BIdle; BIdle] |} /\
  TransactionIdPrecedes (XidFromFullTransactionId (2 ^ 32 - 5))
    (XidFromFullTransactionId (2 ^ 32 + 50)) = true.
Proof.
  assert (Hr : xid_reachable witness_env witness_pgx 2
    {| cl_vc := snd (SetTransactionIdLimit witness_env
                       (XidFromFullTransactionId (2 ^ 32 - 5)) 1 witness_vc);
       oldest_full := 2 ^ 32 - 5; cl_pcs := [BIdle; BIdle] |}).
  { eexists. split; [|apply rtc_refl]. exists witness_vc, (2 ^ 32 - 5), 1.
    split; [reflexivity|]. unfold full_normal. vm_compute. intuition discriminate. }
  split; [exact Hr|].
  refine (proj1 (wraparound_protection witness_env witness_pgx 2 _
    (2 ^ 32 - 5) (2 ^ 32 + 50) eq_refl _ _ Hr _ _ _ _));
    unfold full_normal; vm_compute; intuition discriminate.
Defined.

Lemma advertise_spec isSubXact xid p :
  let p' := advertise isSubXact xid p in
  (pgx_xid p' = xid \/ xid ∈ pgx_subxids p' \/ pgx_overflowed p' = true) /\
  (isSubXact = true -> pgx_xid p' = pgx_xid p) /\
  pgx_subxids p ⊆ pgx_subxids p' /\
  (pgx_overflowed p = true -> pgx_overflowed p' = true) /\
  (length (pgx_subxids p) <= PGPROC_MAX_CACHED_SUBXIDS ->
   length (pgx_subxids p') <= PGPROC_MAX_CACHED_SUBXIDS)%nat.
Proof.
  unfold advertise. destruct isSubXact; simpl; [case_match eqn:El|]; simpl.
  - split; [right; left; set_solver|]. split; [done|]. split; [set_solver|]. split; [done|].
    intros _. rewrite length_app. apply Nat.ltb_lt in El. simpl. lia.
  - split_and!; auto; set_solver.
  - split_and!; auto; set_solver.
Qed.

(** A successful [GetNewTransactionId] returns the next id, moves the
    counter to the next normal id, changes no other field, and leaves the new
    id advertised in the backend's PGXACT (or the overflow flag set) without
    dropping an id advertised before; a refusal changes nothing. *)
Theorem GetNewTransactionId_spec env isSubXact vc p :
  IsBootstrapProcessingMode env = false ->
  let '(evs, vc', p', r) := GetNewTransactionId env isSubXact id vc p in
  match r with
  | inr full =>
      full = nextFullXid vc /\
      vc' = set_nextFullXid (FullTransactionIdAdvance full) vc /\
      ExtendCLOG (XidFromFullTransactionId full) ∈ evs /\
      (pgx_xid p' = XidFromFullTransactionId full \/
       XidFromFullTransactionId full ∈ pgx_subxids p' \/ pgx_overflowed p' = true) /\
      (isSubXact = true -> pgx_xid p' = pgx_xid p) /\
      pgx_subxids p ⊆ pgx_subxids p' /\
      (pgx_overflowed p = true -> pgx_overflowed p' = true) /\
      (length (pgx_subxids p) <= PGPROC_MAX_CACHED_SUBXIDS ->
       length (pgx_subxids p') <= PGPROC_MAX_CACHED_SUBXIDS)%nat
  | inl e =>
      vc' = vc /\ p' = p /\
      match e with
      | ErrParallelMode => IsInParallelMode env = true
      | ErrRecovery => RecoveryInProgress env = true
      | ErrStopLimit =>
          IsUnderPostmaster env = true /\
          TransactionIdFollowsOrEquals (XidFromFullTransactionId (nextFullXid vc))
            (xidStopLimit vc) = true
      end
  end.
Proof.
  intros Hb. unfold GetNewTransactionId. rewrite Hb.
  destruct (IsInParallelMode env) eqn:Hp; [done|].
  destruct (RecoveryInProgress env) eqn:Hr; [done|].
  destruct (GetNewTransactionId_check env vc) as [evs [e|w]] eqn:Ec.
  - unfold GetNewTransactionId_check in Ec.
    repeat case_match; simplify_eq; split_and?; try done;
      by destruct (IsUnderPostmaster env).
  - assert ((if w then id vc else vc) = vc) as -> by by destruct w.
    unfold GetNewTransactionId_assign. split; [done|]. split; [done|]. split; [set_solver|].
    apply advertise_spec.
Qed.

Lemma GetNewTransactionId_spec_witness :
  let '(evs, vc', _, r) := GetNewTransactionId witness_env true id
    (snd (SetTransactionIdLimit witness_env 5000 1 witness_vc)) witness_pgx in
  r = inr (2 ^ 32 + 100) /\ nextFullXid vc' = 2 ^ 32 + 101 /\ ExtendCLOG 100 ∈ evs.
Proof.
  pose proof (GetNewTransactionId_spec witness_env true
    (snd (SetTransactionIdLimit witness_env 5000 1 witness_vc)) witness_pgx eq_refl) as H.
  vm_compute in H |- *. destruct H as (? & Hvc & Hev & _).
  split; [reflexivity|split; [reflexivity|exact Hev]].
Defined.

Lemma FullFromEpoch_add epoch xid :
  is_u32 xid -> FullTransactionIdFromEpochAndXid epoch xid = epoch * 2 ^ 32 + xid.
Proof.
  intros Hx. unfold FullTransactionIdFromEpochAndXid. unfold is_u32 in Hx.
  rewrite Z.shiftl_mul_pow2 by lia. rewrite <- Z.add_lor_land.
  assert (Z.land (epoch * 2 ^ 32) xid = 0) as ->; [|lia].
  apply Z.bits_inj'. intros i Hi. rewrite Z.land_spec, Z.bits_0.
  destruct (Z_lt_dec i 32).
  - by rewrite Z.mul_pow2_bits_low by lia.
  - rewrite (Z.bits_above_log2 xid i); [apply andb_false_r|lia|].
    destruct (Z.eq_dec xid 0) as [->|]; [simpl; lia|].
    apply Z.log2_lt_pow2; [lia|].
    pose proof (Z.pow_le_mono_r 2 32 i ltac:(lia) ltac:(lia)). lia.
Qed.

(** Replaying an id [x] moves the counter past [x] and never backwards,
    with the right epoch when the 32-bit id has wrapped around. *)
Theorem AdvanceNextFullTransactionIdPastXid_spec x vc :
  full_normal x -> full_normal (nextFullXid vc) ->
  0 <= x < 2 ^ 63 -> 0 <= nextFullXid vc < 2 ^ 63 ->
  - 2 ^ 31 <= x - nextFullXid vc < 2 ^ 31 ->
  AdvanceNextFullTransactionIdPastXid (XidFromFullTransactionId x) vc =
  set_nextFullXid (if x <? nextFullXid vc then nextFullXid vc
                   else FullTransactionIdAdvance x) vc.
Proof.
  intros Hx Hn Hrx Hrn Hw. unfold AdvanceNextFullTransactionIdPastXid.
  rewrite follows_eq_full by done.
  destruct (Z.ltb_spec x (nextFullXid vc)) as [Hl|Hl].
  { rewrite (proj2 (Z.leb_gt _ _)) by lia. by destruct vc. }
  rewrite (proj2 (Z.leb_le _ _)) by lia. cbn [negb]. f_equal.
  destruct (FullTransactionIdAdvance_spec x ltac:(lia)) as (Hr & Hf & Hleast).
  set (c := FullTransactionIdAdvance x) in *. set (m := nextFullXid vc) in *.
  destruct (TransactionIdAdvance_full x ltac:(lia) Hx) as [Hadv Hc]. fold c in Hadv, Hc.
  rewrite Hadv, FullFromEpoch_add by apply u32_range.
  unfold EpochFromFullTransactionId, XidFromFullTransactionId, u32.
  rewrite Z.shiftr_div_pow2 by lia.
  pose proof (Z.div_mod m (2 ^ 32) ltac:(lia)). pose proof (Z.div_mod c (2 ^ 32) ltac:(lia)).
  pose proof (Z.mod_pos_bound m (2 ^ 32) ltac:(lia)).
  pose proof (Z.mod_pos_bound c (2 ^ 32) ltac:(lia)).
  destruct (Z.ltb_spec (c mod 2 ^ 32) (m mod 2 ^ 32)).
  - rewrite Z.add_mod_idemp_l by lia. rewrite Z.mod_small by lia. lia.
  - rewrite Z.mod_small by lia. lia.
Qed.

Lemma AdvanceNextFullTransactionIdPastXid_spec_witness :
  nextFullXid (AdvanceNextFullTransactionIdPastXid 0xFFFFFFFF
    (set_nextFullXid (2 ^ 32 - 10) witness_vc)) = 2 ^ 32 + 3.
Proof.
  change 0xFFFFFFFF with (XidFromFullTransactionId (2 ^ 32 - 1)).
  rewrite (AdvanceNextFullTransactionIdPastXid_spec (2 ^ 32 - 1)
    (set_nextFullXid (2 ^ 32 - 10) witness_vc));
    [reflexivity|unfold full_normal; vm_compute; intuition discriminate..].
Defined.

End Varsup.
