(* ===== verification/Clog.v ===== *)
(** * Commit log, subtransaction parents and transaction status

    Model of the status bits of [src/backend/access/transam/clog.c], of
    [pg_subtrans] ([subtrans.c]) and of the status queries of [transam.c].

    Pages are kept by their page number: a clog page is the map from byte
    number to byte, a group of 32 transactions shares one LSN, a page of
    pg_subtrans maps entry numbers to parents; an absent entry is the zero of a
    freshly zeroed page.  The buffer pool that caches the pages ([slru.c]) and
    the group update of [TransactionGroupUpdateXidStatus], which performs the
    same page update on behalf of a waiting backend, are not part of the
    model: a page update is one atomic step under CLogControlLock. *)

From S2P Require Import Prelude Transam.
Import Transam.
Open Scope Z_scope.

Module Clog.

Definition TRANSACTION_STATUS_IN_PROGRESS : Z := 0.
Definition TRANSACTION_STATUS_COMMITTED : Z := 1.
Definition TRANSACTION_STATUS_ABORTED : Z := 2.
Definition TRANSACTION_STATUS_SUB_COMMITTED : Z := 3.

Definition BLCKSZ : Z := 8192.
Definition CLOG_BITS_PER_XACT : Z := 2.
Definition CLOG_XACTS_PER_BYTE : Z := 4.
Definition CLOG_XACTS_PER_PAGE : Z := BLCKSZ * CLOG_XACTS_PER_BYTE.
Definition CLOG_XACT_BITMASK : Z := Z.shiftl 1 CLOG_BITS_PER_XACT - 1.
Definition CLOG_XACTS_PER_LSN_GROUP : Z := 32.
Definition InvalidXLogRecPtr : Z := 0.

Definition TransactionIdToPage (xid : Z) : Z := xid / CLOG_XACTS_PER_PAGE.
Definition TransactionIdToPgIndex (xid : Z) : Z := xid mod CLOG_XACTS_PER_PAGE.
Definition TransactionIdToByte (xid : Z) : Z := TransactionIdToPgIndex xid / CLOG_XACTS_PER_BYTE.
Definition TransactionIdToBIndex (xid : Z) : Z := xid mod CLOG_XACTS_PER_BYTE.
Definition GetLSNIndex (xid : Z) : Z := TransactionIdToPgIndex xid / CLOG_XACTS_PER_LSN_GROUP.

Record clog := {
  page_buffer : gmap (Z * Z) Z;
  group_lsn : gmap (Z * Z) Z;
}.

Definition read_byte (c : clog) (pageno byteno : Z) : Z :=
  default 0 (page_buffer c !! (pageno, byteno)).
Definition read_lsn (c : clog) (pageno index : Z) : Z :=
  default InvalidXLogRecPtr (group_lsn c !! (pageno, index)).

(** Conversion to [char], bytes being kept unsigned. *)
Definition u8 (z : Z) : Z := Z.land z 255.

Definition TransactionIdSetStatusBit (InRecovery : bool) (xid status lsn pageno : Z)
  (c : clog) : clog :=
  let byteno := TransactionIdToByte xid in
  let bshift := TransactionIdToBIndex xid * CLOG_BITS_PER_XACT in
  let curval := Z.land (Z.shiftr (read_byte c pageno byteno) bshift) CLOG_XACT_BITMASK in
  if InRecovery && (status =? TRANSACTION_STATUS_SUB_COMMITTED)
     && (curval =? TRANSACTION_STATUS_COMMITTED) then c
  else
    let byteval := read_byte c pageno byteno in
    let byteval := u8 (Z.land byteval (Z.lnot (Z.shiftl CLOG_XACT_BITMASK bshift))) in
    let byteval := u8 (Z.lor byteval (Z.shiftl status bshift)) in
    {| page_buffer := <[(pageno, byteno) := byteval]> (page_buffer c);
       group_lsn :=
         if negb (lsn =? InvalidXLogRecPtr) && (read_lsn c pageno (GetLSNIndex xid) <? lsn)
         then <[(pageno, GetLSNIndex xid) := lsn]> (group_lsn c)
         else group_lsn c |}.

Definition TransactionIdGetStatus (xid : Z) (c : clog) : Z * Z :=
  let pageno := TransactionIdToPage xid in
  let byteno := TransactionIdToByte xid in
  let bshift := TransactionIdToBIndex xid * CLOG_BITS_PER_XACT in
  (Z.land (Z.shiftr (read_byte c pageno byteno) bshift) CLOG_XACT_BITMASK,
   read_lsn c pageno (GetLSNIndex xid)).

(** The [for] loops over [subxids]. *)
Definition set_all_bits (InRecovery : bool) (xids : list Z) (status lsn pageno : Z)
  (c : clog) : clog :=
  fold_left (fun c x => TransactionIdSetStatusBit InRecovery x status lsn pageno c) xids c.

Definition TransactionIdSetPageStatusInternal (InRecovery : bool) (xid : Z)
  (subxids : list Z) (status lsn pageno : Z) (c : clog) : clog :=
  let c :=
    if TransactionIdIsValid xid then
      let c := if status =? TRANSACTION_STATUS_COMMITTED
               then set_all_bits InRecovery subxids TRANSACTION_STATUS_SUB_COMMITTED lsn pageno c
               else c in
      TransactionIdSetStatusBit InRecovery xid status lsn pageno c
    else c in
  set_all_bits InRecovery subxids status lsn pageno c.

(** Acquire CLogControlLock, update the page, release it. *)
Definition TransactionIdSetPageStatus (InRecovery : bool) (xid : Z)
  (subxids : list Z) (status lsn pageno : Z) (c : clog) : clog :=
  TransactionIdSetPageStatusInternal InRecovery xid subxids status lsn pageno c.

(** The longest prefix of [xids] on page [pageno], and what follows it. *)
Fixpoint split_page (pageno : Z) (xids : list Z) : list Z * list Z :=
  match xids with
  | [] => ([], [])
  | x :: rest =>
      if TransactionIdToPage x =? pageno
      then let '(here, later) := split_page pageno rest in (x :: here, later)
      else ([], xids)
  end.

(** [while (i < nsubxids)]: the clog after each page update, oldest first.
    Every round takes at least one id, so [length xids] rounds are enough. *)
Fixpoint set_status_by_pages_loop (InRecovery : bool) (fuel : nat) (pageno : Z)
  (xids : list Z) (status lsn : Z) (c : clog) : list clog :=
  match fuel, xids with
  | O, _ | _, [] => []
  | S n, _ :: _ =>
      let '(here, later) := split_page pageno xids in
      let c' := TransactionIdSetPageStatus InRecovery InvalidTransactionId here
                  status lsn pageno c in
      let nextpageno := match later with x :: _ => TransactionIdToPage x | [] => pageno end in
      c' :: set_status_by_pages_loop InRecovery n nextpageno later status lsn c'
  end.

Definition set_status_by_pages (InRecovery : bool) (xids : list Z) (status lsn : Z)
  (c : clog) : list clog :=
  match xids with
  | [] => []
  | x :: _ => set_status_by_pages_loop InRecovery (length xids) (TransactionIdToPage x)
                xids status lsn c
  end.

(** State after a sequence of page updates that started in [c]. *)
Definition final (c : clog) (states : list clog) : clog := List.last states c.

(** The states of the clog other backends can observe while a transaction
    tree is being marked, the last one being the result. *)
Definition TransactionIdSetTreeStatus (InRecovery : bool) (xid : Z) (subxids : list Z)
  (status lsn : Z) (c : clog) : list clog :=
  let pageno := TransactionIdToPage xid in
  let '(first_page, others) := split_page pageno subxids in
  match others with
  | [] => [TransactionIdSetPageStatus InRecovery xid subxids status lsn pageno c]
  | _ :: _ =>
      let s1 := if status =? TRANSACTION_STATUS_COMMITTED
                then set_status_by_pages InRecovery others
                       TRANSACTION_STATUS_SUB_COMMITTED lsn c
                else [] in
      let c1 := final c s1 in
      let c2 := TransactionIdSetPageStatus InRecovery xid first_page status lsn pageno c1 in
      let s3 := set_status_by_pages InRecovery others status lsn c2 in
      s1 ++ [c2] ++ s3
  end.

(** ** pg_subtrans *)

Definition SUBTRANS_XACTS_PER_PAGE : Z := BLCKSZ / 4.
Definition SubTransToPage (xid : Z) : Z := xid / SUBTRANS_XACTS_PER_PAGE.
Definition SubTransToEntry (xid : Z) : Z := xid mod SUBTRANS_XACTS_PER_PAGE.

Definition subtrans : Type := gmap (Z * Z) Z.

Definition SubTransSetParent (xid parent : Z) (t : gmap (Z * Z) Z) : gmap (Z * Z) Z :=
  if default InvalidTransactionId (t !! (SubTransToPage xid, SubTransToEntry xid)) =? parent
  then t
  else <[(SubTransToPage xid, SubTransToEntry xid) := parent]> t.

Definition SubTransGetParent (xid : Z) (t : gmap (Z * Z) Z) : Z :=
  if negb (TransactionIdIsNormal xid) then InvalidTransactionId
  else default InvalidTransactionId (t !! (SubTransToPage xid, SubTransToEntry xid)).

(** [None]: out of fuel; [Some None]: the ERROR about an invalid entry. *)
Fixpoint SubTransGetTopmost_loop (fuel : nat) (TransactionXmin : Z) (t : gmap (Z * Z) Z)
  (parentXid previousXid : Z) : option (option Z) :=
  match fuel with
  | O => None
  | S n =>
      if negb (TransactionIdIsValid parentXid) then Some (Some previousXid)
      else
        let previousXid := parentXid in
        if TransactionIdPrecedes parentXid TransactionXmin then Some (Some previousXid)
        else
          let parentXid := SubTransGetParent parentXid t in
          if negb (TransactionIdPrecedes parentXid previousXid) then Some None
          else SubTransGetTopmost_loop n TransactionXmin t parentXid previousXid
  end.

Definition SubTransGetTopmostTransaction (fuel : nat) (TransactionXmin : Z)
  (t : gmap (Z * Z) Z) (xid : Z) : option (option Z) :=
  SubTransGetTopmost_loop fuel TransactionXmin t xid xid.

(** ** Status queries of transam.c *)

(** The static single-item cache. *)
Record fetch_cache := {
  cachedFetchXid : Z;
  cachedFetchXidStatus : Z;
  cachedCommitLSN : Z;
}.

Definition empty_cache : fetch_cache :=
  {| cachedFetchXid := InvalidTransactionId; cachedFetchXidStatus := 0; cachedCommitLSN := 0 |}.

Definition TransactionLogFetch (c : clog) (k : fetch_cache) (xid : Z) : Z * fetch_cache :=
  if xid =? cachedFetchXid k then (cachedFetchXidStatus k, k)
  else if negb (TransactionIdIsNormal xid) then
    (if xid =? BootstrapTransactionId then TRANSACTION_STATUS_COMMITTED
     else if xid =? FrozenTransactionId then TRANSACTION_STATUS_COMMITTED
     else TRANSACTION_STATUS_ABORTED, k)
  else
    let '(xidstatus, xidlsn) := TransactionIdGetStatus xid c in
    (xidstatus,
     if negb (xidstatus =? TRANSACTION_STATUS_IN_PROGRESS)
        && negb (xidstatus =? TRANSACTION_STATUS_SUB_COMMITTED)
     then {| cachedFetchXid := xid; cachedFetchXidStatus := xidstatus;
             cachedCommitLSN := xidlsn |}
     else k).

Section Queries.
Context (TransactionXmin : Z) (t : gmap (Z * Z) Z) (c : clog).

(** Recursion climbs pg_subtrans; [None] is lack of fuel. *)
Fixpoint TransactionIdDidCommit (fuel : nat) (k : fetch_cache) (xid : Z)
  : option (bool * fetch_cache) :=
  match fuel with
  | O => None
  | S n =>
      let '(xidstatus, k) := TransactionLogFetch c k xid in
      if xidstatus =? TRANSACTION_STATUS_COMMITTED then Some (true, k)
      else if xidstatus =? TRANSACTION_STATUS_SUB_COMMITTED then
        if TransactionIdPrecedes xid TransactionXmin then Some (false, k)
        else
          let parentXid := SubTransGetParent xid t in
          if negb (TransactionIdIsValid parentXid) then Some (false, k)
          else TransactionIdDidCommit n k parentXid
      else Some (false, k)
  end.

Fixpoint TransactionIdDidAbort (fuel : nat) (k : fetch_cache) (xid : Z)
  : option (bool * fetch_cache) :=
  match fuel with
  | O => None
  | S n =>
      let '(xidstatus, k) := TransactionLogFetch c k xid in
      if xidstatus =? TRANSACTION_STATUS_ABORTED then Some (true, k)
      else if xidstatus =? TRANSACTION_STATUS_SUB_COMMITTED then
        if TransactionIdPrecedes xid TransactionXmin then Some (true, k)
        else
          let parentXid := SubTransGetParent xid t in
          if negb (TransactionIdIsValid parentXid) then Some (true, k)
          else TransactionIdDidAbort n k parentXid
      else Some (false, k)
  end.
End Queries.

Definition TransactionIdIsKnownCompleted (k : fetch_cache) (xid : Z) : bool :=
  xid =? cachedFetchXid k.

Definition TransactionIdGetCommitLSN (c : clog) (k : fetch_cache) (xid : Z) : Z :=
  if xid =? cachedFetchXid k then cachedCommitLSN k
  else if negb (TransactionIdIsNormal xid) then InvalidXLogRecPtr
  else snd (TransactionIdGetStatus xid c).

Definition TransactionIdCommitTree (InRecovery : bool) (xid : Z) (xids : list Z) (c : clog) : list clog :=
  TransactionIdSetTreeStatus InRecovery xid xids TRANSACTION_STATUS_COMMITTED InvalidXLogRecPtr c.
Definition TransactionIdAsyncCommitTree (InRecovery : bool) (xid : Z) (xids : list Z)
  (lsn : Z) (c : clog) : list clog :=
  TransactionIdSetTreeStatus InRecovery xid xids TRANSACTION_STATUS_COMMITTED lsn c.
Definition TransactionIdAbortTree (InRecovery : bool) (xid : Z) (xids : list Z) (c : clog) : list clog :=
  TransactionIdSetTreeStatus InRecovery xid xids TRANSACTION_STATUS_ABORTED InvalidXLogRecPtr c.

(** ** Status of one transaction *)

Definition status_of (c : clog) (xid : Z) : Z := fst (TransactionIdGetStatus xid c).

Definition is_status (s : Z) : Prop := 0 <= s < 4.

Lemma status_of_land c xid :
  status_of c xid =
  Z.land (Z.shiftr (read_byte c (TransactionIdToPage xid) (TransactionIdToByte xid))
            (xid mod 4 * 2)) 3.
Proof. reflexivity. Qed.

(** Two transactions with the same page, byte and position are equal. *)
Lemma clog_position_inj x y :
  0 <= x -> 0 <= y ->
  TransactionIdToPage x = TransactionIdToPage y ->
  TransactionIdToByte x = TransactionIdToByte y ->
  x mod 4 = y mod 4 -> x = y.
Proof.
  unfold TransactionIdToPage, TransactionIdToByte, TransactionIdToPgIndex.
  change CLOG_XACTS_PER_PAGE with 32768. change CLOG_XACTS_PER_BYTE with 4.
  intros Hx Hy Hp Hb Hm. 
  pose proof (Z.div_mod x 32768 ltac:(lia)). pose proof (Z.div_mod y 32768 ltac:(lia)).
  pose proof (Z.div_mod (x mod 32768) 4 ltac:(lia)).
  pose proof (Z.div_mod (y mod 32768) 4 ltac:(lia)).
  assert (forall z, (z mod 32768) mod 4 = z mod 4) as Hmm.
  { intros z. symmetry. apply Znumtheory.Zmod_div_mod; [lia|lia|]. by exists 8192. }
  rewrite !Hmm in *. lia.
Qed.

Lemma testbit_mask3 k i : 0 <= k -> Z.testbit (Z.shiftl 3 k) i = ((i =? k) || (i =? k + 1)).
Proof.
  intros Hk. destruct (Z_lt_dec i 0) as [Hi|Hi].
  { rewrite Z.testbit_neg_r by lia. destruct (Z.eqb_spec i k), (Z.eqb_spec i (k + 1)); lia. }
  rewrite Z.shiftl_spec by lia.
  destruct (Z.eqb_spec i k) as [->|]; [by rewrite Z.sub_diag|].
  destruct (Z.eqb_spec i (k + 1)) as [->|].
  { by replace (k + 1 - k) with 1 by lia. }
  destruct (Z_lt_dec i k); [by rewrite Z.testbit_neg_r by lia|].
  apply (Z.bits_above_log2 3); [lia|]. change (Z.log2 3) with 1. lia.
Qed.

Lemma testbit_255 i : 0 <= i -> Z.testbit 255 i = (i <? 8).
Proof.
  intros Hi. change 255 with (Z.ones 8). rewrite Z.testbit_ones_nonneg by lia. done.
Qed.

Lemma testbit_3 i : 0 <= i -> Z.testbit 3 i = (i <? 2).
Proof.
  intros Hi. change 3 with (Z.ones 2). rewrite Z.testbit_ones_nonneg by lia. done.
Qed.

Lemma status_testbit_high s i : is_status s -> 2 <= i -> Z.testbit s i = false.
Proof.
  intros Hs Hi. destruct (decide (s = 0)) as [->|]; [apply Z.bits_0|].
  unfold is_status in Hs. apply Z.bits_above_log2; [lia|].
  apply Z.log2_lt_pow2; [lia|]. pose proof (Z.pow_le_mono_r 2 2 i ltac:(lia) Hi). lia.
Qed.

(** The two bits of a byte after an update, at the updated position and at
    another one. *)
Lemma byte_update b s k k' :
  is_status s -> 0 <= k < 4 -> 0 <= k' < 4 ->
  Z.land (Z.shiftr
    (u8 (Z.lor (u8 (Z.land b (Z.lnot (Z.shiftl 3 (k * 2))))) (Z.shiftl s (k * 2))))
    (k' * 2)) 3
  = if decide (k' = k) then s else Z.land (Z.shiftr b (k' * 2)) 3.
Proof.
  intros Hs Hk Hk'. apply Z.bits_inj'. intros i Hi. unfold u8.
  rewrite Z.land_spec, Z.shiftr_spec, !Z.land_spec, Z.lor_spec, !Z.land_spec by lia.
  rewrite Z.lnot_spec, testbit_mask3, testbit_3, testbit_255, Z.shiftl_spec by lia.
  destruct (Z.ltb_spec i 2) as [Hi2|Hi2].
  2: { rewrite andb_false_r. destruct (decide (k' = k)).
       - symmetry. apply status_testbit_high; [done|lia].
       - by rewrite Z.land_spec, testbit_3, (proj2 (Z.ltb_ge _ _)), andb_false_r by lia. }
  rewrite (proj2 (Z.ltb_lt (i + k' * 2) 8)), !andb_true_r by lia.
  destruct (decide (k' = k)) as [->|Hne].
  - assert ((i + k * 2 =? k * 2) || (i + k * 2 =? k * 2 + 1) = true) as ->.
    { destruct (Z.eqb_spec (i + k * 2) (k * 2)), (Z.eqb_spec (i + k * 2) (k * 2 + 1)); lia. }
    cbn [negb]. rewrite andb_false_r. simpl. f_equal. lia.
  - assert ((i + k' * 2 =? k * 2) || (i + k' * 2 =? k * 2 + 1) = false) as ->.
    { destruct (Z.eqb_spec (i + k' * 2) (k * 2)), (Z.eqb_spec (i + k' * 2) (k * 2 + 1)); lia. }
    rewrite andb_true_r, Z.land_spec, Z.shiftr_spec, testbit_3 by lia.
    rewrite (proj2 (Z.ltb_lt i 2)), andb_true_r by lia.
    assert (Z.testbit s (i + k' * 2 - k * 2) = false) as ->; [|by rewrite orb_false_r].
    destruct (Z_lt_dec k' k); [by rewrite Z.testbit_neg_r by lia|].
    apply status_testbit_high; [done|lia].
Qed.

(** What an update makes of an old status: during recovery a sub-commit never
    overwrites a commit. *)
Definition merge_status (InRecovery : bool) (old new : Z) : Z :=
  if InRecovery && (new =? TRANSACTION_STATUS_SUB_COMMITTED)
     && (old =? TRANSACTION_STATUS_COMMITTED) then old else new.

Lemma status_set_bit r x s lsn c y :
  0 <= x -> 0 <= y -> is_status s ->
  status_of (TransactionIdSetStatusBit r x s lsn (TransactionIdToPage x) c) y
  = if decide (y = x) then merge_status r (status_of c x) s else status_of c y.
Proof.
  intros Hx Hy Hs. unfold TransactionIdSetStatusBit, merge_status.
  change (Z.land (Z.shiftr (read_byte c (TransactionIdToPage x) (TransactionIdToByte x))
    (TransactionIdToBIndex x * CLOG_BITS_PER_XACT)) CLOG_XACT_BITMASK) with (status_of c x).
  destruct (r && (s =? TRANSACTION_STATUS_SUB_COMMITTED)
            && (status_of c x =? TRANSACTION_STATUS_COMMITTED)).
  { by destruct (decide (y = x)) as [->|]. }
  rewrite !status_of_land. unfold read_byte at 1. cbn [page_buffer].
  destruct (decide ((TransactionIdToPage x, TransactionIdToByte x) =
                    (TransactionIdToPage y, TransactionIdToByte y))) as [Heq|Hne].
  - rewrite <- Heq, lookup_insert_eq. cbn [default from_option id]. injection Heq as Hp Hb.
    change (TransactionIdToBIndex x * CLOG_BITS_PER_XACT) with (x mod 4 * 2).
    change CLOG_XACT_BITMASK with 3.
    rewrite byte_update by (done || apply Z.mod_pos_bound; lia).
    destruct (decide (y mod 4 = x mod 4)) as [Hm|Hm], (decide (y = x)) as [->|Hn]; try done.
    + exfalso. apply Hn. by apply clog_position_inj.
    + by rewrite <- Hp, <- Hb.
  - rewrite lookup_insert_ne by done. fold (read_byte c (TransactionIdToPage y) (TransactionIdToByte y)).
    by destruct (decide (y = x)) as [->|].
Qed.

Lemma status_set_all r xs s lsn pageno c y :
  is_status s -> 0 <= y ->
  Forall (fun x => 0 <= x /\ TransactionIdToPage x = pageno) xs ->
  status_of (set_all_bits r xs s lsn pageno c) y
  = if decide (y ∈ xs) then merge_status r (status_of c y) s else status_of c y.
Proof.
  intros Hs Hy Hxs. revert c. induction Hxs as [|x xs [Hx Hp] Hxs IH]; intros c; [done|].
  unfold set_all_bits in *. cbn [fold_left]. rewrite IH. subst pageno.
  rewrite status_set_bit by done. unfold merge_status.
  destruct (decide (y = x)) as [Heq|Hn], (decide (y ∈ xs)), (decide (y ∈ x :: xs));
    try set_solver; try subst y.
  destruct (r && (s =? TRANSACTION_STATUS_SUB_COMMITTED)) eqn:E; cbn [andb];
    repeat case_match; congruence.
Qed.

(** One page update outside recovery: the listed transactions get [status]. *)
Lemma status_page_update xid subxids s lsn pageno c y :
  is_status s -> 0 <= y -> 0 <= xid ->
  (TransactionIdIsValid xid = true -> TransactionIdToPage xid = pageno) ->
  Forall (fun x => 0 <= x /\ TransactionIdToPage x = pageno) subxids ->
  status_of (TransactionIdSetPageStatus false xid subxids s lsn pageno c) y
  = if decide (y ∈ subxids) then s
    else if TransactionIdIsValid xid then
      (if decide (y = xid) then s else status_of c y)
    else status_of c y.
Proof.
  intros Hs Hy Hx Hxp Hsub. unfold TransactionIdSetPageStatus, TransactionIdSetPageStatusInternal.
  rewrite status_set_all by done. unfold merge_status at 1. cbn [andb].
  destruct (decide (y ∈ subxids)) as [Hin|Hin]; [done|].
  destruct (TransactionIdIsValid xid) eqn:Ev; [|done].
  rewrite <- (Hxp eq_refl) at 1. rewrite status_set_bit by done. unfold merge_status. cbn [andb].
  destruct (decide (y = xid)) as [->|Hn].
  { done. }
  destruct (s =? TRANSACTION_STATUS_COMMITTED); [|done].
  rewrite status_set_all; [|split; unfold TRANSACTION_STATUS_SUB_COMMITTED; lia|done|done].
  by destruct (decide (y ∈ subxids)).
Qed.

Lemma split_page_spec pageno xids here later :
  split_page pageno xids = (here, later) ->
  xids = here ++ later /\
  Forall (fun x => TransactionIdToPage x = pageno) here /\
  match later with x :: _ => TransactionIdToPage x <> pageno | [] => True end.
Proof.
  revert here later. induction xids as [|x xids IH]; intros here later H; cbn [split_page] in H.
  { by simplify_eq. }
  destruct (Z.eqb_spec (TransactionIdToPage x) pageno) as [Hp|Hp].
  - destruct (split_page pageno xids) as [h l] eqn:E. simplify_eq.
    destruct (IH _ _ eq_refl) as (-> & Hf & Hl). auto.
  - simplify_eq. auto.
Qed.

(** Every state [set_status_by_pages] goes through assigns [s] to some of the
    ids and leaves everything else alone; the last one assigns it to all. *)
Lemma set_status_by_pages_loop_states fuel pageno xids s lsn c :
  is_status s -> Forall (fun x => 0 <= x) xids ->
  (length xids <= fuel)%nat ->
  match xids with x :: _ => TransactionIdToPage x = pageno | [] => True end ->
  let states := set_status_by_pages_loop false fuel pageno xids s lsn c in
  Forall (fun c' => forall y, 0 <= y ->
    status_of c' y = status_of c y \/ (y ∈ xids /\ status_of c' y = s)) states /\
  forall y, 0 <= y ->
    status_of (final c states) y = if decide (y ∈ xids) then s else status_of c y.
Proof.
  intros Hs. revert pageno xids c. induction fuel as [|n IH]; intros pageno xids c Hpos Hlen Hhd.
  - destruct xids; [|simpl in Hlen; lia]. cbn. split; [constructor|done].
  - destruct xids as [|x xids]; [cbn; split; [constructor|done]|].
    cbn [set_status_by_pages_loop].
    destruct (split_page pageno (x :: xids)) as [here later] eqn:Esp.
    pose proof Esp as (Heq & Hhere & Hlater)%split_page_spec.
    set (c' := TransactionIdSetPageStatus _ _ _ _ _ _ _).
    rewrite Heq, Forall_app in Hpos. destruct Hpos as [Hph Hpl].
    assert (Hc' : forall y, 0 <= y ->
      status_of c' y = if decide (y ∈ here) then s else status_of c y).
    { intros y Hy. unfold c'. rewrite status_page_update; try done.
      apply Forall_and. done. }
    assert (Hnl : (length later <= n)%nat).
    { rewrite Heq, length_app in Hlen. destruct here; [|simpl in *; lia].
      cbn in Heq. subst later. done. }
    destruct (IH (match later with y :: _ => TransactionIdToPage y | [] => pageno end)
                 later c' Hpl Hnl) as [Hst Hfin].
    { by destruct later. }
    rewrite Heq. split.
    + constructor.
      * intros y Hy. rewrite Hc' by done. destruct (decide (y ∈ here)); [right|by left].
        split; [set_solver|done].
      * eapply Forall_impl; [exact Hst|]. intros c'' Hc'' y Hy. cbv beta in Hc''.
        destruct (Hc'' y Hy) as [E|[Hin E]].
        -- rewrite E, Hc' by done. destruct (decide (y ∈ here)); [right|by left].
           split; [set_solver|done].
        -- right. split; [set_solver|done].
    + intros y Hy. unfold final in *. rewrite last_cons_default. rewrite Hfin, Hc' by done.
      destruct (decide (y ∈ later)), (decide (y ∈ here)), (decide (y ∈ here ++ later));
        set_solver.
Qed.

Lemma set_status_by_pages_states xids s lsn c :
  is_status s -> Forall (fun x => 0 <= x) xids ->
  let states := set_status_by_pages false xids s lsn c in
  Forall (fun c' => forall y, 0 <= y ->
    status_of c' y = status_of c y \/ (y ∈ xids /\ status_of c' y = s)) states /\
  forall y, 0 <= y ->
    status_of (final c states) y = if decide (y ∈ xids) then s else status_of c y.
Proof.
  intros Hs Hpos. unfold set_status_by_pages.
  destruct xids as [|x xids]; [cbn; split; [constructor|done]|].
  by apply set_status_by_pages_loop_states.
Qed.

(** Close the cases of a decided membership. *)
Ltac by_member := first [done | exfalso; set_solver].

(** A state seen before, respectively after, the page of the main transaction
    was updated. *)
Definition before_main (c : clog) (xid : Z) (subxids : list Z) (c' : clog) : Prop :=
  forall y, 0 <= y ->
    status_of c' y = status_of c y \/
    (y ∈ subxids /\ status_of c' y = TRANSACTION_STATUS_SUB_COMMITTED).

Definition after_main (c : clog) (xid : Z) (subxids : list Z) (c' : clog) : Prop :=
  status_of c' xid = TRANSACTION_STATUS_COMMITTED /\
  (forall y, y ∈ subxids -> status_of c' y = TRANSACTION_STATUS_COMMITTED \/
                            status_of c' y = TRANSACTION_STATUS_SUB_COMMITTED) /\
  (forall y, 0 <= y -> y ∉ xid :: subxids -> status_of c' y = status_of c y).

Section Tree.
Context (xid : Z) (subxids : list Z) (lsn : Z) (c : clog).
Context (Hxid : TransactionIdIsNormal xid = true)
  (Hsub : Forall (fun x => TransactionIdIsNormal x = true) subxids).

Lemma xid_pos : 0 <= xid /\ TransactionIdIsValid xid = true.
Proof using Hxid.
  apply normal_spec in Hxid. unfold TransactionIdIsValid, InvalidTransactionId.
  split; [lia|]. destruct (Z.eqb_spec xid 0); [lia|done].
Qed.

Lemma subxids_pos : Forall (fun x => 0 <= x) subxids.
Proof using Hsub.
  eapply Forall_impl; [exact Hsub|]. intros x Hx%normal_spec. lia.
Qed.

(** Statuses after the whole tree has been marked. *)
Lemma tree_final s y :
  is_status s -> 0 <= y ->
  status_of (final c (TransactionIdSetTreeStatus false xid subxids s lsn c)) y
  = if decide (y ∈ xid :: subxids) then s else status_of c y.
Proof using Hxid Hsub.
  intros Hs Hy. pose proof xid_pos as [Hx Hv]. pose proof subxids_pos as Hp.
  unfold TransactionIdSetTreeStatus.
  destruct (split_page (TransactionIdToPage xid) subxids) as [here later] eqn:E.
  apply split_page_spec in E as (Heq & Hhere & _).
  rewrite Heq, Forall_app in Hp. destruct Hp as [Hph Hpl].
  destruct later as [|z later].
  - rewrite app_nil_r in Heq. subst here. cbn [final List.last].
    rewrite status_page_update, Hv; try done; [|by apply Forall_and].
    destruct (decide (y ∈ subxids)), (decide (y = xid)), (decide (y ∈ xid :: subxids));
      by_member.
  - set (s1 := if s =? TRANSACTION_STATUS_COMMITTED then _ else _).
    set (c2 := TransactionIdSetPageStatus _ _ _ _ _ _ _).
    destruct (set_status_by_pages_states (z :: later) s lsn c2 Hs Hpl) as [_ Hfin].
    unfold final in *. rewrite !last_app_default. cbn [List.last]. rewrite Hfin by done.
    subst c2. rewrite status_page_update, Hv; try done; [|by apply Forall_and].
    assert (Hs1 : y ∉ z :: later -> status_of (List.last s1 c) y = status_of c y).
    { intros Hn. unfold s1. destruct (s =? _); [|done].
      pose proof (set_status_by_pages_states (z :: later) TRANSACTION_STATUS_SUB_COMMITTED
        lsn c ltac:(done) Hpl) as [_ Hf]. unfold final in Hf.
      rewrite Hf by done. by destruct (decide (y ∈ z :: later)). }
    rewrite Heq.
    destruct (decide (y ∈ z :: later)), (decide (y ∈ here)), (decide (y = xid)),
      (decide (y ∈ xid :: here ++ z :: later)); first [by apply Hs1 | by_member].
Qed.

(** Every visible state of a commit is one of the two kinds. *)
Lemma tree_commit_states :
  Forall (fun c' => before_main c xid subxids c' \/ after_main c xid subxids c')
    (TransactionIdSetTreeStatus false xid subxids TRANSACTION_STATUS_COMMITTED lsn c).
Proof using Hxid Hsub.
  pose proof xid_pos as [Hx Hv]. pose proof subxids_pos as Hp.
  unfold TransactionIdSetTreeStatus.
  destruct (split_page (TransactionIdToPage xid) subxids) as [here later] eqn:E.
  apply split_page_spec in E as (Heq & Hhere & _).
  pose proof Hp as Hp'. rewrite Heq, Forall_app in Hp'. destruct Hp' as [Hph Hpl].
  assert (Hpage : forall c0 y, 0 <= y ->
    status_of (TransactionIdSetPageStatus false xid here TRANSACTION_STATUS_COMMITTED lsn
                 (TransactionIdToPage xid) c0) y
    = if decide (y ∈ xid :: here) then TRANSACTION_STATUS_COMMITTED else status_of c0 y).
  { intros c0 y Hy. rewrite status_page_update, Hv; try done; [|by apply Forall_and].
    destruct (decide (y ∈ here)), (decide (y = xid)), (decide (y ∈ xid :: here)); by_member. }
  assert (Hafter : forall c0 c', 
    (forall y, 0 <= y -> status_of c0 y = status_of c y \/
       (y ∈ later /\ status_of c0 y = TRANSACTION_STATUS_SUB_COMMITTED)) ->
    (forall y, y ∈ later -> status_of c0 y = TRANSACTION_STATUS_SUB_COMMITTED) ->
    (forall y, 0 <= y -> status_of c' y
       = (if decide (y ∈ xid :: here) then TRANSACTION_STATUS_COMMITTED else status_of c0 y)
       \/ (y ∈ later /\ status_of c' y = TRANSACTION_STATUS_COMMITTED)) ->
    after_main c xid subxids c').
  { intros c0 c' H0 Hl H. rewrite Heq in *. rewrite Forall_forall in Hp.
    split; [|split].
    - destruct (H xid Hx) as [E|[? E]]; [|done]. rewrite E. by rewrite decide_True by set_solver.
    - intros y Hy. destruct (H y (Hp y Hy)) as [E|[_ E]]; [|by left]. rewrite E.
      destruct (decide (y ∈ xid :: here)); [by left|]. right. apply Hl. set_solver.
    - intros y Hy Hn. destruct (H y Hy) as [E|[? _]]; [|set_solver].
      rewrite E, decide_False by set_solver. destruct (H0 y Hy) as [?|[? _]]; [done|set_solver]. }
  destruct later as [|z later].
  - constructor; [|constructor]. right. rewrite app_nil_r in Heq. subst here.
    apply (Hafter c); [by left|set_solver|]. intros y Hy. left. by apply Hpage.
  - rewrite Z.eqb_refl.
    pose proof (set_status_by_pages_states (z :: later) TRANSACTION_STATUS_SUB_COMMITTED
      lsn c ltac:(done) Hpl) as [Hst1 Hf1].
    set (s1 := set_status_by_pages false (z :: later) TRANSACTION_STATUS_SUB_COMMITTED lsn c) in *.
    set (c1 := final c s1) in *.
    assert (H0 : forall y, 0 <= y -> status_of c1 y = status_of c y \/
       (y ∈ z :: later /\ status_of c1 y = TRANSACTION_STATUS_SUB_COMMITTED)).
    { intros y Hy. rewrite Hf1 by done. destruct (decide (y ∈ z :: later)); auto. }
    assert (Hl : forall y, y ∈ z :: later -> status_of c1 y = TRANSACTION_STATUS_SUB_COMMITTED).
    { intros y Hy. rewrite Hf1; [by rewrite decide_True|]. 
      rewrite Forall_forall in Hpl. by apply Hpl. }
    set (c2 := TransactionIdSetPageStatus _ _ _ _ _ _ c1).
    pose proof (set_status_by_pages_states (z :: later) TRANSACTION_STATUS_COMMITTED
      lsn c2 ltac:(done) Hpl) as [Hst3 _].
    apply Forall_app. split; [|apply Forall_app; split].
    + eapply Forall_impl; [exact Hst1|]. intros c' Hc'. left. intros y Hy.
      destruct (Hc' y Hy) as [?|[? ?]]; [by left|right; split; [set_solver|done]].
    + constructor; [|constructor]. right. apply (Hafter c1); [done|done|].
      intros y Hy. left. by apply Hpage.
    + eapply Forall_impl; [exact Hst3|]. intros c' Hc'. right.
      apply (Hafter c1); [done|done|]. intros y Hy.
      destruct (Hc' y Hy) as [E|?]; [left|by right]. rewrite E. by apply Hpage.
Qed.
End Tree.

(** ** Queries during a commit *)

(** Every subtransaction is newer than TransactionXmin and its pg_subtrans
    entry leads, through ids of the tree of smaller depth [d], to the main
    transaction. *)
Definition tree_parents (TransactionXmin : Z) (t : gmap (Z * Z) Z) (xid : Z)
  (subxids : list Z) (d : Z -> nat) : Prop :=
  forall x, x ∈ subxids ->
    TransactionIdPrecedes x TransactionXmin = false /\
    SubTransGetParent x t ∈ xid :: subxids /\
    (d (SubTransGetParent x t) < d x)%nat.

Lemma fetch_uncached c k x :
  TransactionIdIsNormal x = true -> x <> cachedFetchXid k ->
  fst (TransactionLogFetch c k x) = status_of c x /\
  (status_of c x = TRANSACTION_STATUS_SUB_COMMITTED -> snd (TransactionLogFetch c k x) = k).
Proof.
  intros Hn Hk. unfold TransactionLogFetch, status_of.
  rewrite (proj2 (Z.eqb_neq _ _) Hk), Hn. cbn [negb].
  destruct (TransactionIdGetStatus x c) as [s l]. cbn [fst snd]. split; [done|].
  intros ->. done.
Qed.

Section Commit.
Context (TransactionXmin : Z) (t : gmap (Z * Z) Z) (xid : Z) (subxids : list Z) (d : Z -> nat).
Context (Hxid : TransactionIdIsNormal xid = true)
  (Hsub : Forall (fun x => TransactionIdIsNormal x = true) subxids)
  (Hnotin : xid ∉ subxids)
  (Hpar : tree_parents TransactionXmin t xid subxids d).

Lemma tree_normal x : x ∈ xid :: subxids -> TransactionIdIsNormal x = true /\
  TransactionIdIsValid x = true /\ 0 <= x.
Proof using Hxid Hsub.
  intros Hx. assert (Hn : TransactionIdIsNormal x = true).
  { apply elem_of_cons in Hx as [->|Hx]; [done|]. rewrite Forall_forall in Hsub. auto. }
  split; [done|]. apply normal_spec in Hn. unfold TransactionIdIsValid, InvalidTransactionId.
  split; [|lia]. destruct (Z.eqb_spec x 0); [lia|done].
Qed.

(** The answer is decided by the statuses [a] the query can meet: [a] at the
    main transaction, [a] or SUB_COMMITTED below it. *)
Lemma did_commit_tree c k a fuel x :
  cachedFetchXid k ∉ xid :: subxids ->
  a <> TRANSACTION_STATUS_SUB_COMMITTED ->
  status_of c xid = a ->
  (forall y, y ∈ subxids -> status_of c y = a \/
             status_of c y = TRANSACTION_STATUS_SUB_COMMITTED) ->
  x ∈ xid :: subxids -> (d x < fuel)%nat ->
  option_map fst (TransactionIdDidCommit TransactionXmin t c fuel k x)
  = Some (a =? TRANSACTION_STATUS_COMMITTED).
Proof using Hxid Hsub Hnotin Hpar.
  intros Hk Ha Hmain Hsubs. revert x. induction fuel as [|n IH]; intros x Hx Hd; [lia|].
  cbn [TransactionIdDidCommit].
  destruct (tree_normal x Hx) as (Hnx & _ & _).
  destruct (fetch_uncached c k x Hnx) as [Hs Hkeep]; [set_solver|].
  destruct (TransactionLogFetch c k x) as [s k']. cbn [fst snd] in *. subst s.
  assert (Hcase : status_of c x = a \/ (x ∈ subxids /\
    status_of c x = TRANSACTION_STATUS_SUB_COMMITTED)).
  { apply elem_of_cons in Hx as [->|Hx]; [by left|]. destruct (Hsubs x Hx); auto. }
  destruct Hcase as [->|[Hxs E]].
  - destruct (a =? TRANSACTION_STATUS_COMMITTED) eqn:Ea; [done|].
    by rewrite (proj2 (Z.eqb_neq _ _) Ha).
  - rewrite (Hkeep E), E. cbn [Z.eqb].
    destruct (Hpar x Hxs) as (Hmin & Hin & Hlt).
    destruct (tree_normal _ Hin) as (_ & Hv & _). rewrite Hmin, Hv. cbn.
    apply IH; [done|lia].
Qed.

Context (c : clog) (Hstart : forall y, y ∈ xid :: subxids ->
  status_of c y = TRANSACTION_STATUS_IN_PROGRESS).

Lemma did_commit_visible lsn k c' :
  cachedFetchXid k ∉ xid :: subxids ->
  c' ∈ TransactionIdSetTreeStatus false xid subxids TRANSACTION_STATUS_COMMITTED lsn c ->
  exists b, forall x, x ∈ xid :: subxids ->
    option_map fst (TransactionIdDidCommit TransactionXmin t c' (S (d x)) k x) = Some b.
Proof using Hxid Hsub Hnotin Hpar Hstart.
  intros Hk Hc'. pose proof (tree_commit_states xid subxids lsn c Hxid Hsub) as Hst.
  rewrite Forall_forall in Hst. destruct (Hst c' Hc') as [Hb|(Hm & Hs & _)].
  - exists false. intros x Hx.
    assert (Hy : forall y, y ∈ xid :: subxids ->
      status_of c' y = TRANSACTION_STATUS_IN_PROGRESS \/
      (y ∈ subxids /\ status_of c' y = TRANSACTION_STATUS_SUB_COMMITTED)).
    { intros y Hy. destruct (tree_normal y Hy) as (_ & _ & Hp).
      rewrite <- (Hstart y Hy). by apply Hb. }
    apply (did_commit_tree c' k TRANSACTION_STATUS_IN_PROGRESS); [done|done| | |done|lia].
    + destruct (Hy xid) as [?|[? _]]; [set_solver|done|done].
    + intros y Hin. destruct (Hy y) as [?|[_ ?]]; [set_solver|auto|auto].
  - exists true. intros x Hx.
    by apply (did_commit_tree c' k TRANSACTION_STATUS_COMMITTED); [done..|lia].
Qed.
End Commit.

(** ** Properties *)

(** C5: committing a transaction tree is atomic for concurrent observers.  At
    every state the clog goes through while the tree is spread over several
    pages, [TransactionIdDidCommit] answers the same for the main transaction
    and all its subtransactions; it ends with all of them committed and no
    other transaction touched. *)
Theorem TransactionIdCommitTree_atomic TransactionXmin t xid subxids d c k :
  TransactionIdIsNormal xid = true ->
  Forall (fun x => TransactionIdIsNormal x = true) subxids ->
  xid ∉ subxids ->
  tree_parents TransactionXmin t xid subxids d ->
  (forall y, y ∈ xid :: subxids -> status_of c y = TRANSACTION_STATUS_IN_PROGRESS) ->
  cachedFetchXid k ∉ xid :: subxids ->
  let answer c' x := option_map fst (TransactionIdDidCommit TransactionXmin t c' (S (d x)) k x) in
  let states := TransactionIdCommitTree false xid subxids c in
  (forall c', c' ∈ states -> exists b, forall x, x ∈ xid :: subxids -> answer c' x = Some b) /\
  (forall x, x ∈ xid :: subxids -> answer (final c states) x = Some true) /\
  (forall y, 0 <= y -> y ∉ xid :: subxids -> status_of (final c states) y = status_of c y).
Proof.
  intros Hxid Hsub Hnotin Hpar Hstart Hk answer states.
  assert (Hfin : forall y, 0 <= y -> status_of (final c states) y
    = if decide (y ∈ xid :: subxids) then TRANSACTION_STATUS_COMMITTED else status_of c y).
  { intros y Hy. by apply tree_final. }
  assert (Hpos : forall y, y ∈ xid :: subxids -> 0 <= y).
  { intros y Hy. apply (tree_normal xid subxids Hxid Hsub y Hy). }
  split; [|split].
  - intros c' Hc'. by eapply did_commit_visible.
  - intros x Hx.
    apply (did_commit_tree _ _ xid subxids d Hxid Hsub Hnotin Hpar _ k TRANSACTION_STATUS_COMMITTED);
      [done|done| | |done|lia].
    + rewrite Hfin by (apply Hpos; set_solver). by rewrite decide_True by set_solver.
    + intros y Hy. left. rewrite Hfin by (apply Hpos; set_solver).
      by rewrite decide_True by set_solver.
  - intros y Hy Hn. rewrite Hfin by done. by rewrite decide_False.
Qed.

Definition witness_clog : clog := {| page_buffer := ∅; group_lsn := ∅ |}.
Definition witness_subtrans : gmap (Z * Z) Z :=
  SubTransSetParent 40000 101 (SubTransSetParent 101 100 ∅).
Definition witness_depth (x : Z) : nat :=
  if x =? 100 then 0%nat else if x =? 101 then 1%nat else 2%nat.

Lemma TransactionIdCommitTree_atomic_witness :
  length (TransactionIdCommitTree false 100 [101; 40000] witness_clog) = 3%nat /\
  forall c', c' ∈ TransactionIdCommitTree false 100 [101; 40000] witness_clog ->
    exists b, forall x, x ∈ [100; 101; 40000] ->
      option_map fst (TransactionIdDidCommit 90 witness_subtrans c'
                        (S (witness_depth x)) empty_cache x) = Some b.
Proof.
  split; [vm_compute; reflexivity|].
  apply (TransactionIdCommitTree_atomic 90 witness_subtrans 100 [101; 40000] witness_depth
           witness_clog empty_cache).
  - reflexivity.
  - repeat constructor.
  - apply (bool_decide_unpack _). vm_compute. exact I.
  - intros x Hx. repeat (apply elem_of_cons in Hx as [->|Hx]); [..|by apply not_elem_of_nil in Hx];
      (split; [vm_compute; reflexivity|split;
        [apply (bool_decide_unpack _); vm_compute; exact I|apply Nat.ltb_lt; vm_compute; reflexivity]]).
  - intros y Hy. repeat (apply elem_of_cons in Hy as [->|Hy]); [..|by apply not_elem_of_nil in Hy];
      vm_compute; reflexivity.
  - apply (bool_decide_unpack _). vm_compute. exact I.
Defined.

(** Marking a transaction tree committed or aborted gives exactly that
    status to its members, wherever their bits are stored, and leaves the
    status of every other transaction alone. *)
Theorem TransactionIdSetTreeStatus_spec xid subxids status lsn c y :
  status = TRANSACTION_STATUS_COMMITTED \/ status = TRANSACTION_STATUS_ABORTED ->
  TransactionIdIsNormal xid = true ->
  Forall (fun x => TransactionIdIsNormal x = true) subxids ->
  0 <= y ->
  fst (TransactionIdGetStatus y
    (final c (TransactionIdSetTreeStatus false xid subxids status lsn c)))
  = if decide (y ∈ xid :: subxids) then status else fst (TransactionIdGetStatus y c).
Proof.
  intros Hs Hxid Hsub Hy. apply tree_final; [done|done| |done].
  destruct Hs as [-> | ->]; unfold is_status, TRANSACTION_STATUS_COMMITTED,
    TRANSACTION_STATUS_ABORTED; lia.
Qed.

Lemma TransactionIdSetTreeStatus_spec_witness :
  fst (TransactionIdGetStatus 32768 (final witness_clog
    (TransactionIdSetTreeStatus false 32766 [32767; 32768] TRANSACTION_STATUS_ABORTED 0
       witness_clog))) = TRANSACTION_STATUS_ABORTED.
Proof.
  rewrite TransactionIdSetTreeStatus_spec; [vm_compute; reflexivity|by right|reflexivity| |lia].
  repeat constructor.
Defined.

(** The cache holds nothing, or the final status of a normal transaction. *)
Definition cache_coherent (c : clog) (k : fetch_cache) : Prop :=
  cachedFetchXid k = InvalidTransactionId \/
  (TransactionIdIsNormal (cachedFetchXid k) = true /\
   status_of c (cachedFetchXid k) = cachedFetchXidStatus k /\
   (cachedFetchXidStatus k = TRANSACTION_STATUS_COMMITTED \/
    cachedFetchXidStatus k = TRANSACTION_STATUS_ABORTED)).

Lemma fetch_coherent c k x :
  cache_coherent c k -> x <> InvalidTransactionId ->
  fst (TransactionLogFetch c k x) = fst (TransactionLogFetch c empty_cache x) /\
  cache_coherent c (snd (TransactionLogFetch c k x)).
Proof.
  intros Hk Hx. unfold TransactionLogFetch. cbn [cachedFetchXid empty_cache].
  rewrite (proj2 (Z.eqb_neq x InvalidTransactionId) Hx).
  destruct (Z.eqb_spec x (cachedFetchXid k)) as [->|Hne].
  - split; [|done]. destruct Hk as [Hk|(Hn & Hs & Hf)]; [done|]. rewrite Hn. cbn [negb].
    unfold status_of in Hs. by destruct (TransactionIdGetStatus _ c).
  - destruct (TransactionIdIsNormal x) eqn:Hn; cbn [negb]; [|done].
    destruct (TransactionIdGetStatus x c) as [s l] eqn:Es. cbn [fst snd]. split; [done|].
    destruct (Z.eqb_spec s TRANSACTION_STATUS_IN_PROGRESS) as [|H0]; [done|].
    destruct (Z.eqb_spec s TRANSACTION_STATUS_SUB_COMMITTED) as [|H3]; [done|]. cbn [negb andb].
    right. cbn [cachedFetchXid cachedFetchXidStatus]. unfold status_of. rewrite Es.
    split; [done|]. split; [done|].
    assert (is_status s) as Hr.
    { unfold TransactionIdGetStatus in Es. injection Es as <- _. unfold is_status.
      change CLOG_XACT_BITMASK with (Z.ones 2). rewrite Z.land_ones by lia.
      apply Z.mod_pos_bound. lia. }
    unfold is_status, TRANSACTION_STATUS_IN_PROGRESS, TRANSACTION_STATUS_SUB_COMMITTED,
      TRANSACTION_STATUS_COMMITTED, TRANSACTION_STATUS_ABORTED in *. lia.
Qed.

(** The single-item cache never changes an answer: from any coherent cache
    [TransactionIdDidCommit] and [TransactionIdDidAbort] answer what they
    answer with an empty one, leave a coherent cache, and never both say
    yes. *)
Theorem status_cache_transparent TransactionXmin t c fuel k xid :
  cache_coherent c k -> xid <> InvalidTransactionId ->
  let commits k := TransactionIdDidCommit TransactionXmin t c fuel k xid in
  let aborts k := TransactionIdDidAbort TransactionXmin t c fuel k xid in
  option_map fst (commits k) = option_map fst (commits empty_cache) /\
  option_map fst (aborts k) = option_map fst (aborts empty_cache) /\
  (forall b k', commits k = Some (b, k') -> cache_coherent c k') /\
  (option_map fst (commits k) = Some true -> option_map fst (aborts k) = Some false).
Proof.
  intros Hk Hx commits aborts. subst commits aborts. cbv beta.
  assert (Hempty : cache_coherent c empty_cache) by by left.
  generalize empty_cache Hempty. intros e He. clear Hempty.
  revert k e xid Hk He Hx. induction fuel as [|n IH]; intros k e xid Hk He Hx; [done|].
  cbn [TransactionIdDidCommit TransactionIdDidAbort].
  destruct (fetch_coherent c k xid Hk Hx) as [Hs1 Hk1].
  destruct (fetch_coherent c e xid He Hx) as [Hs2 He2].
  destruct (TransactionLogFetch c k xid) as [s k1], (TransactionLogFetch c e xid) as [s' e1].
  cbn [fst snd] in *. assert (s = s') as -> by congruence. clear Hs1 Hs2.
  destruct (Z.eqb_spec s' TRANSACTION_STATUS_COMMITTED) as [->|Hc]; cbn;
    [by split_and!; [..|intros ?? [= <- <-]|]|].
  destruct (Z.eqb_spec s' TRANSACTION_STATUS_ABORTED) as [->|Ha]; cbn;
    [by split_and!; [..|intros ?? [= <- <-]|]|].
  destruct (s' =? TRANSACTION_STATUS_SUB_COMMITTED);
    [|by split_and!; [..|intros ?? [= <- <-]|]].
  destruct (TransactionIdPrecedes xid TransactionXmin);
    [by split_and!; [..|intros ?? [= <- <-]|]|].
  destruct (TransactionIdIsValid (SubTransGetParent xid t)) eqn:Ev; cbn;
    [|by split_and!; [..|intros ?? [= <- <-]|]].
  apply IH; [done|done|]. unfold TransactionIdIsValid in Ev.
  by destruct (Z.eqb_spec (SubTransGetParent xid t) InvalidTransactionId).
Qed.

Definition witness_cache : fetch_cache :=
  {| cachedFetchXid := 100; cachedFetchXidStatus := 1; cachedCommitLSN := 0 |}.

Lemma status_cache_transparent_witness :
  option_map fst (TransactionIdDidCommit 90 witness_subtrans
    (final witness_clog (TransactionIdCommitTree false 100 [101; 40000] witness_clog))
    3 witness_cache 101) = Some true.
Proof.
  set (c := final witness_clog (TransactionIdCommitTree false 100 [101; 40000] witness_clog)).
  assert (Hk : cache_coherent c witness_cache).
  { right. split; [vm_compute; reflexivity|]. split; [vm_compute; reflexivity|left; reflexivity]. }
  rewrite (proj1 (status_cache_transparent 90 witness_subtrans c 3 witness_cache 101 Hk
                    ltac:(discriminate))).
  vm_compute. reflexivity.
Defined.

(** The static cache starts out matching InvalidTransactionId, whose status is
    then reported as in progress until another transaction is looked up, not
    as aborted as for any other id that is not normal. *)
Lemma TransactionLogFetch_invalid_xid c :
  fst (TransactionLogFetch c empty_cache InvalidTransactionId) = TRANSACTION_STATUS_IN_PROGRESS /\
  fst (TransactionLogFetch c witness_cache InvalidTransactionId) = TRANSACTION_STATUS_ABORTED.
Proof. split; reflexivity. Qed.

End Clog.
