(* ===== verification/Htup.v ===== *)
(** * Heap tuple headers

    Models [src/include/access/htup_details.h]: the header fields the
    transaction machinery reads, the [t_infomask] bits, the accessor macros
    and the item pointers of [storage/itemptr.h].  The masks are the numbers
    of the header file and every test is the C expression on [Z.land]; the
    lemmas at the end turn those tests into bit tests and describe what setting
    a hint bit does to each of them. *)

From S2P Require Import Prelude.
From S2P Require Import Transam.

Import Transam.

Open Scope Z_scope.

Module Htup.

(** ** Item pointers *)

Record ItemPointerData := { ip_blkid : Z; ip_posid : Z }.

Definition ItemPointerEquals (p q : ItemPointerData) : bool :=
  (ip_blkid p =? ip_blkid q) && (ip_posid p =? ip_posid q).

Definition InvalidBlockNumber : Z := 0xFFFFFFFF.
Definition SpecTokenOffsetNumber : Z := 0xfffe.
Definition MovedPartitionsOffsetNumber : Z := 0xfffd.
Definition MovedPartitionsBlockNumber : Z := InvalidBlockNumber.

(** ** [t_infomask] *)

Definition HEAP_XMAX_KEYSHR_LOCK : Z := 0x0010.
Definition HEAP_COMBOCID : Z := 0x0020.
Definition HEAP_XMAX_EXCL_LOCK : Z := 0x0040.
Definition HEAP_XMAX_LOCK_ONLY : Z := 0x0080.
Definition HEAP_XMAX_SHR_LOCK : Z := Z.lor HEAP_XMAX_EXCL_LOCK HEAP_XMAX_KEYSHR_LOCK.
Definition HEAP_LOCK_MASK : Z :=
  Z.lor HEAP_XMAX_SHR_LOCK (Z.lor HEAP_XMAX_EXCL_LOCK HEAP_XMAX_KEYSHR_LOCK).
Definition HEAP_XMIN_COMMITTED : Z := 0x0100.
Definition HEAP_XMIN_INVALID : Z := 0x0200.
Definition HEAP_XMIN_FROZEN : Z := Z.lor HEAP_XMIN_COMMITTED HEAP_XMIN_INVALID.
Definition HEAP_XMAX_COMMITTED : Z := 0x0400.
Definition HEAP_XMAX_INVALID : Z := 0x0800.
Definition HEAP_XMAX_IS_MULTI : Z := 0x1000.
Definition HEAP_MOVED_OFF : Z := 0x4000.
Definition HEAP_MOVED_IN : Z := 0x8000.
Definition HEAP_MOVED : Z := Z.lor HEAP_MOVED_OFF HEAP_MOVED_IN.

(** The C truth value of [infomask & flag]. *)
Definition has (infomask flag : Z) : bool := negb (Z.land infomask flag =? 0).

Definition HEAP_XMAX_IS_LOCKED_ONLY (infomask : Z) : bool :=
  has infomask HEAP_XMAX_LOCK_ONLY ||
  (Z.land infomask (Z.lor HEAP_XMAX_IS_MULTI HEAP_LOCK_MASK) =? HEAP_XMAX_EXCL_LOCK).

Definition HEAP_LOCKED_UPGRADED (infomask : Z) : bool :=
  has infomask HEAP_XMAX_IS_MULTI && has infomask HEAP_XMAX_LOCK_ONLY &&
  (Z.land infomask (Z.lor HEAP_XMAX_EXCL_LOCK HEAP_XMAX_KEYSHR_LOCK) =? 0).

(** ** The header *)

(** [t_field3] is the union of [t_cid] and [t_xvac]. *)
Record HeapTupleHeaderData := {
  t_xmin : Z; t_xmax : Z; t_field3 : Z;
  t_ctid : ItemPointerData; t_infomask2 : Z; t_infomask : Z }.

Record HeapTupleData := { t_self : ItemPointerData; t_data : HeapTupleHeaderData }.

Definition or_infomask (flags : Z) (t : HeapTupleHeaderData) : HeapTupleHeaderData :=
  {| t_xmin := t_xmin t; t_xmax := t_xmax t; t_field3 := t_field3 t; t_ctid := t_ctid t;
     t_infomask2 := t_infomask2 t; t_infomask := Z.lor (t_infomask t) flags |}.

Definition HeapTupleHeaderGetRawXmin (t : HeapTupleHeaderData) : Z := t_xmin t.
Definition HeapTupleHeaderGetRawXmax (t : HeapTupleHeaderData) : Z := t_xmax t.
Definition HeapTupleHeaderGetRawCommandId (t : HeapTupleHeaderData) : Z := t_field3 t.

Definition HeapTupleHeaderXminCommitted (t : HeapTupleHeaderData) : bool :=
  has (t_infomask t) HEAP_XMIN_COMMITTED.
Definition HeapTupleHeaderXminInvalid (t : HeapTupleHeaderData) : bool :=
  Z.land (t_infomask t) (Z.lor HEAP_XMIN_COMMITTED HEAP_XMIN_INVALID) =? HEAP_XMIN_INVALID.
Definition HeapTupleHeaderXminFrozen (t : HeapTupleHeaderData) : bool :=
  Z.land (t_infomask t) HEAP_XMIN_FROZEN =? HEAP_XMIN_FROZEN.

Definition HeapTupleHeaderGetXmin (t : HeapTupleHeaderData) : Z :=
  if HeapTupleHeaderXminFrozen t then FrozenTransactionId else HeapTupleHeaderGetRawXmin t.

Definition HeapTupleHeaderGetXvac (t : HeapTupleHeaderData) : Z :=
  if has (t_infomask t) HEAP_MOVED then t_field3 t else InvalidTransactionId.

Definition HeapTupleHeaderIsSpeculative (t : HeapTupleHeaderData) : bool :=
  ip_posid (t_ctid t) =? SpecTokenOffsetNumber.
Definition HeapTupleHeaderGetSpeculativeToken (t : HeapTupleHeaderData) : Z :=
  ip_blkid (t_ctid t).
Definition HeapTupleHeaderIndicatesMovedPartitions (t : HeapTupleHeaderData) : bool :=
  (ip_posid (t_ctid t) =? MovedPartitionsOffsetNumber) &&
  (ip_blkid (t_ctid t) =? MovedPartitionsBlockNumber).

(** The command-id field: [t_infomask &= ~HEAP_COMBOCID] clears bit 5. *)
Definition HeapTupleHeaderSetCmin (cid : Z) (t : HeapTupleHeaderData) : HeapTupleHeaderData :=
  {| t_xmin := t_xmin t; t_xmax := t_xmax t; t_field3 := cid; t_ctid := t_ctid t;
     t_infomask2 := t_infomask2 t; t_infomask := Z.ldiff (t_infomask t) HEAP_COMBOCID |}.
Definition HeapTupleHeaderSetCmax (cid : Z) (iscombo : bool) (t : HeapTupleHeaderData)
  : HeapTupleHeaderData :=
  {| t_xmin := t_xmin t; t_xmax := t_xmax t; t_field3 := cid; t_ctid := t_ctid t;
     t_infomask2 := t_infomask2 t;
     t_infomask := if iscombo then Z.lor (t_infomask t) HEAP_COMBOCID
                   else Z.ldiff (t_infomask t) HEAP_COMBOCID |}.

(** ** Bit lemmas *)

Lemma has_lor m f g : has (Z.lor m f) g = has m g || has f g.
Proof.
  unfold has. rewrite <- negb_andb. f_equal.
  rewrite Z.land_comm, Z.land_lor_distr_r, !(Z.land_comm g).
  apply eq_true_iff_eq. rewrite andb_true_iff, !Z.eqb_eq. apply Z.lor_eq_0_iff.
Qed.

Lemma has_ldiff m f g : Z.land f g = 0 -> has (Z.ldiff m f) g = has m g.
Proof.
  intros H. unfold has. do 2 f_equal. apply Z.bits_inj. intros i.
  rewrite !Z.land_spec, Z.ldiff_spec.
  assert (Z.testbit (Z.land f g) i = false) as Hi by by rewrite H, Z.bits_0.
  rewrite Z.land_spec in Hi. destruct (Z.testbit m i), (Z.testbit f i), (Z.testbit g i); done.
Qed.

Lemma has_ldiff_same m f : has (Z.ldiff m f) f = false.
Proof.
  unfold has. replace (Z.land (Z.ldiff m f) f) with 0; [done|].
  apply Z.bits_inj. intros i. rewrite Z.land_spec, Z.ldiff_spec, Z.bits_0.
  destruct (Z.testbit m i), (Z.testbit f i); done.
Qed.

(** A test against bits outside [f] does not see [f] being set. *)
Lemma land_lor_disjoint m f g : Z.land f g = 0 -> Z.land (Z.lor m f) g = Z.land m g.
Proof.
  intros H. rewrite Z.land_comm, Z.land_lor_distr_r, (Z.land_comm g f), H, Z.lor_0_r.
  apply Z.land_comm.
Qed.

Lemma has_bit m k : 0 <= k -> has m (2 ^ k) = Z.testbit m k.
Proof.
  intros Hk. unfold has. destruct (Z.testbit m k) eqn:E.
  - apply negb_true_iff, Z.eqb_neq. intros H.
    assert (Z.testbit (Z.land m (2 ^ k)) k = true) as H1
      by by rewrite Z.land_spec, E, Z.pow2_bits_true.
    by rewrite H, Z.bits_0 in H1.
  - apply negb_false_iff, Z.eqb_eq, Z.bits_inj. intros i.
    rewrite Z.land_spec, Z.pow2_bits_eqb, Z.bits_0 by lia.
    destruct (Z.eqb_spec k i); [by subst; rewrite E|apply andb_false_r].
Qed.

Lemma land_two m j k : 0 <= j -> 0 <= k ->
  Z.land m (Z.lor (2 ^ j) (2 ^ k)) =
  Z.lor (if Z.testbit m j then 2 ^ j else 0) (if Z.testbit m k then 2 ^ k else 0).
Proof.
  intros Hj Hk. apply Z.bits_inj. intros i.
  rewrite Z.land_spec, !Z.lor_spec.
  assert (forall b l, 0 <= l -> Z.testbit (if b : bool then 2 ^ l else 0) i = b && (l =? i))
    as Hb by (intros [] l Hl; [by rewrite Z.pow2_bits_eqb|by rewrite Z.bits_0]).
  rewrite !Hb, !Z.pow2_bits_eqb by done.
  destruct (Z.eqb_spec j i), (Z.eqb_spec k i); subst;
    rewrite ?andb_true_r, ?andb_false_r, ?orb_true_r, ?orb_false_r; try done.
  by rewrite orb_diag.
Qed.

(** The two-bit tests as boolean combinations of one-bit tests. *)
Lemma XminInvalid_spec t :
  HeapTupleHeaderXminInvalid t =
  negb (has (t_infomask t) HEAP_XMIN_COMMITTED) && has (t_infomask t) HEAP_XMIN_INVALID.
Proof.
  unfold HeapTupleHeaderXminInvalid.
  change HEAP_XMIN_COMMITTED with (2 ^ 8). change HEAP_XMIN_INVALID with (2 ^ 9).
  rewrite land_two, !has_bit by lia. by destruct (Z.testbit _ 8), (Z.testbit _ 9).
Qed.

Lemma XminFrozen_spec t :
  HeapTupleHeaderXminFrozen t =
  has (t_infomask t) HEAP_XMIN_COMMITTED && has (t_infomask t) HEAP_XMIN_INVALID.
Proof.
  unfold HeapTupleHeaderXminFrozen, HEAP_XMIN_FROZEN.
  change HEAP_XMIN_COMMITTED with (2 ^ 8). change HEAP_XMIN_INVALID with (2 ^ 9).
  rewrite land_two, !has_bit by lia. by destruct (Z.testbit _ 8), (Z.testbit _ 9).
Qed.

(** The hint bits are none of the lock bits. *)
Lemma locked_only_lor m f :
  Z.land f (Z.lor HEAP_XMAX_LOCK_ONLY (Z.lor HEAP_XMAX_IS_MULTI HEAP_LOCK_MASK)) = 0 ->
  HEAP_XMAX_IS_LOCKED_ONLY (Z.lor m f) = HEAP_XMAX_IS_LOCKED_ONLY m.
Proof.
  rewrite Z.land_lor_distr_r. intros [H1 H2]%Z.lor_eq_0_iff.
  unfold HEAP_XMAX_IS_LOCKED_ONLY, has. by rewrite !land_lor_disjoint.
Qed.

End Htup.
