(* ===== verification/Combocid.v ===== *)
(** * Combo command ids

    Models [src/backend/utils/time/combocid.c]: the array [comboCids], the
    hash table that shares equal pairs, and the header accessors that resolve
    a stored command id into [cmin] and [cmax].  The array is created on
    first use and its capacity doubles when it is full; the capacity is state
    because the code tests it. *)

From S2P Require Import Prelude.
From S2P Require Import Transam.
From S2P Require Import Htup.

Import Transam Htup.

Open Scope Z_scope.

Module Combocid.

Definition CCID_ARRAY_SIZE : Z := 100.

(** [comboHash == NULL] is [None].  [usedComboCids] is the length of the
    array in use. *)
Record combo_state := {
  comboHash : option (gmap (Z * Z) Z);
  comboCids : list (Z * Z);
  sizeComboCids : Z }.

Definition combo_init : combo_state :=
  {| comboHash := None; comboCids := []; sizeComboCids := 0 |}.

Definition usedComboCids (s : combo_state) : Z := Z.of_nat (length (comboCids s)).

Definition AtEOXact_ComboCid (s : combo_state) : combo_state :=
  {| comboHash := None; comboCids := []; sizeComboCids := 0 |}.

(** "Create the hash table and array the first time we need to use combo
    cids." *)
Definition combo_create (s : combo_state) : combo_state :=
  match comboHash s with
  | None => {| comboHash := Some empty; comboCids := []; sizeComboCids := CCID_ARRAY_SIZE |}
  | Some _ => s
  end.

Definition combo_grow (s : combo_state) : combo_state :=
  if sizeComboCids s <=? usedComboCids s
  then {| comboHash := comboHash s; comboCids := comboCids s;
          sizeComboCids := sizeComboCids s * 2 |}
  else s.

(** [hash_search(..., HASH_ENTER, &found)] on the pair of command ids. *)
Definition GetComboCommandId (cmin cmax : Z) (s : combo_state) : Z * combo_state :=
  let s := combo_grow (combo_create s) in
  match default empty (comboHash s) !! (cmin, cmax) with
  | Some combocid => (combocid, s)
  | None =>
      let combocid := usedComboCids s in
      (combocid,
       {| comboHash := Some (<[(cmin, cmax) := combocid]> (default empty (comboHash s)));
          comboCids := comboCids s ++ [(cmin, cmax)];
          sizeComboCids := sizeComboCids s |})
  end.

(** A subscript outside the array is undefined behaviour, [None]. *)
Definition GetRealCmin (combocid : Z) (s : combo_state) : option Z :=
  if combocid <? 0 then None else fst <$> comboCids s !! Z.to_nat combocid.
Definition GetRealCmax (combocid : Z) (s : combo_state) : option Z :=
  if combocid <? 0 then None else snd <$> comboCids s !! Z.to_nat combocid.

Definition HeapTupleHeaderGetCmin (s : combo_state) (t : HeapTupleHeaderData) : option Z :=
  let cid := HeapTupleHeaderGetRawCommandId t in
  if has (t_infomask t) HEAP_COMBOCID then GetRealCmin cid s else Some cid.

Definition HeapTupleHeaderGetCmax (s : combo_state) (t : HeapTupleHeaderData) : option Z :=
  let cid := HeapTupleHeaderGetRawCommandId t in
  if has (t_infomask t) HEAP_COMBOCID then GetRealCmax cid s else Some cid.

(** The result is the pair [*cmax], [*iscombo]; [current] is
    [TransactionIdIsCurrentTransactionId]. *)
Definition HeapTupleHeaderAdjustCmax (current : Z -> bool) (t : HeapTupleHeaderData)
  (cmax : Z) (s : combo_state) : option (Z * bool * combo_state) :=
  if negb (HeapTupleHeaderXminCommitted t) && current (HeapTupleHeaderGetRawXmin t) then
    match HeapTupleHeaderGetCmin s t with
    | None => None
    | Some cmin => let '(c, s') := GetComboCommandId cmin cmax s in Some (c, true, s')
    end
  else Some (cmax, false, s).

(** ** Invariant *)

(** Hash and array describe the same set of pairs, each pair stands once, and
    the array fits its allocation. *)
Record combo_ok (s : combo_state) : Prop := {
  combo_index : forall p i, default empty (comboHash s) !! p = Some i <->
    0 <= i /\ comboCids s !! Z.to_nat i = Some p;
  combo_size : usedComboCids s <= sizeComboCids s;
  combo_alloc : comboHash s <> None -> 0 < sizeComboCids s;
  combo_none : comboHash s = None -> comboCids s = [] }.

Lemma combo_ok_init : combo_ok combo_init.
Proof.
  split; try done. intros p i. split; [|by intros [_ ?]].
  intros H. change ((∅ : gmap (Z * Z) Z) !! p = Some i) in H. by rewrite lookup_empty in H.
Qed.

(** Creating and growing the array change neither hash nor contents, and
    leave room for one more pair. *)
Lemma combo_room s : combo_ok s ->
  let s' := combo_grow (combo_create s) in
  combo_ok s' /\ comboCids s' = comboCids s /\ comboHash s' <> None /\
  default empty (comboHash s') = default empty (comboHash s) /\
  usedComboCids s' < sizeComboCids s'.
Proof.
  intros [Hi Hs Ha Hn]. unfold combo_create, combo_grow.
  destruct (comboHash s) as [h|] eqn:E.
  - specialize (Ha ltac:(done)). case (Z.leb_spec (sizeComboCids s) (usedComboCids s)); intros.
    + split_and!; try done; [split; cbn in *; rewrite ?E in *; try done|..].
      * unfold usedComboCids in *. cbn. lia.
      * lia.
      * cbn. by rewrite E.
      * cbn. by rewrite E.
      * unfold usedComboCids in *. cbn. lia.
    + split_and!; try done; [by split; rewrite ?E|by rewrite E|by rewrite E].
  - rewrite (Hn eq_refl). cbn. split_and!; try done.
    split; try done. apply combo_ok_init.
Qed.

(** GetComboCommandId answers an index at which the array holds the pair, and
    moves no pair already in the array. *)
Lemma GetComboCommandId_ok cmin cmax s : combo_ok s ->
  let '(c, s') := GetComboCommandId cmin cmax s in
  combo_ok s' /\ 0 <= c /\ comboCids s' !! Z.to_nat c = Some (cmin, cmax) /\
  comboCids s `prefix_of` comboCids s'.
Proof.
  intros Hok. destruct (combo_room s Hok) as (Hok' & Hc & Hh & Hd & Hr).
  unfold GetComboCommandId. set (s1 := combo_grow (combo_create s)) in *.
  destruct Hok' as [Hi Hs Ha Hn].
  destruct (default empty (comboHash s1) !! (cmin, cmax)) as [c|] eqn:E.
  - split_and!; [by split| | |by rewrite Hc]; apply (Hi (cmin, cmax) c), E.
  - cbn. assert (0 <= usedComboCids s1) as Hu by (unfold usedComboCids; lia).
    assert (forall l : list (Z * Z), (l ++ [(cmin, cmax)]) !! length l = Some (cmin, cmax)) as Hl
      by (intros l; by rewrite lookup_app_r, Nat.sub_diag by lia).
    split_and!; [split; cbn [comboHash comboCids sizeComboCids]| | |].
    + intros p i. cbn [default from_option id]. destruct (decide (p = (cmin, cmax))) as [->|Hp].
      * rewrite lookup_insert_eq. split.
        -- intros [= <-]. split; [done|]. unfold usedComboCids. rewrite Nat2Z.id. apply Hl.
        -- intros [H0 H]. f_equal. apply lookup_app_Some in H as [H|[H1 H2]].
           ++ exfalso. assert (default empty (comboHash s1) !! (cmin, cmax) = Some i)
                as Hx by by apply Hi. by rewrite E in Hx.
           ++ apply list_lookup_singleton_Some in H2 as [H2 _]. unfold usedComboCids. lia.
      * rewrite lookup_insert_ne by congruence. rewrite Hi.
        split; intros [H0 H]; (split; [done|]).
        -- by apply lookup_app_l_Some.
        -- apply lookup_app_Some in H as [H|[H1 H2]]; [done|].
           apply list_lookup_singleton_Some in H2 as [_ H2]. congruence.
    + unfold usedComboCids in *. cbn. rewrite length_app. cbn. lia.
    + intros _. by apply Ha.
    + done.
    + done.
    + unfold usedComboCids. rewrite Nat2Z.id. apply Hl.
    + rewrite <- Hc. by apply prefix_app_r.
Qed.

(** A sequence of requests of one transaction. *)
Fixpoint combo_run (reqs : list (Z * Z)) (s : combo_state) : list Z * combo_state :=
  match reqs with
  | [] => ([], s)
  | (cmin, cmax) :: reqs' =>
      let '(c, s1) := GetComboCommandId cmin cmax s in
      let '(cs, s2) := combo_run reqs' s1 in (c :: cs, s2)
  end.

Lemma combo_run_ok reqs s : combo_ok s ->
  let '(cs, s') := combo_run reqs s in
  combo_ok s' /\ comboCids s `prefix_of` comboCids s' /\
  Forall2 (fun p c => 0 <= c /\ comboCids s' !! Z.to_nat c = Some p) reqs cs.
Proof.
  revert s. induction reqs as [|[cmin cmax] reqs IH]; intros s Hs; cbn.
  - split_and!; [done|done|constructor].
  - pose proof (GetComboCommandId_ok cmin cmax s Hs) as H.
    destruct (GetComboCommandId cmin cmax s) as [c s1]. destruct H as (H1 & Hc & Hl & Hp).
    specialize (IH s1 H1). destruct (combo_run reqs s1) as [cs s2].
    destruct IH as (H2 & Hp2 & HF). split_and!; [done|by etrans|].
    constructor; [|done]. split; [done|]. by eapply prefix_lookup_Some.
Qed.

Lemma real_cids s c cmin cmax :
  0 <= c -> comboCids s !! Z.to_nat c = Some (cmin, cmax) ->
  GetRealCmin c s = Some cmin /\ GetRealCmax c s = Some cmax.
Proof.
  intros H0 H. unfold GetRealCmin, GetRealCmax.
  destruct (Z.ltb_spec c 0); [lia|]. by rewrite H.
Qed.

(** ** Properties *)

(** Every combo command id a transaction was given keeps resolving to the
    [cmin] and [cmax] it was asked for, however many more are created, and two
    requests are given the same id exactly when they asked for the same pair. *)
Theorem combo_ids_roundtrip reqs i j p q c d :
  let '(cs, s) := combo_run reqs combo_init in
  reqs !! i = Some p -> cs !! i = Some c -> reqs !! j = Some q -> cs !! j = Some d ->
  GetRealCmin c s = Some p.1 /\ GetRealCmax c s = Some p.2 /\ (c = d <-> p = q).
Proof.
  pose proof (combo_run_ok reqs combo_init combo_ok_init) as H.
  destruct (combo_run reqs combo_init) as [cs s]. destruct H as (Hok & _ & HF).
  intros Hp Hc Hq Hd.
  destruct (Forall2_lookup_lr _ _ _ _ _ _ HF Hp Hc) as [H0 H1].
  destruct (Forall2_lookup_lr _ _ _ _ _ _ HF Hq Hd) as [H2 H3].
  destruct p as [cmin cmax]. destruct (real_cids s c cmin cmax H0 H1) as [-> ->].
  split_and!; [done|done|]. split; [naive_solver|]. intros <-.
  assert (Some c = Some d) as [=]; [|done].
  rewrite <- (proj2 (combo_index s Hok (cmin, cmax) c) (conj H0 H1)).
  by apply (combo_index s Hok).
Qed.

Lemma combo_ids_roundtrip_witness :
  let '(cs, s) := combo_run [(0, 4); (2, 4); (0, 4)] combo_init in
  cs = [0; 1; 0] /\ GetRealCmin 0 s = Some 0 /\ GetRealCmax 0 s = Some 4.
Proof.
  pose proof (combo_ids_roundtrip [(0, 4); (2, 4); (0, 4)] 0%nat 2%nat (0, 4) (0, 4) 0 0) as H.
  vm_compute in H |- *. destruct (H eq_refl eq_refl eq_refl eq_refl) as (H1 & H2 & _).
  split; [reflexivity|]. split; [exact H1|exact H2].
Defined.

(** When a transaction deletes a tuple, storing what
    HeapTupleHeaderAdjustCmax returns with HeapTupleHeaderSetCmax makes
    HeapTupleHeaderGetCmax return the deleting command, and if the
    transaction had itself inserted the tuple, HeapTupleHeaderGetCmin still
    returns the inserting command although both ids share one field. *)
Theorem HeapTupleHeaderAdjustCmax_spec current t cmax s r :
  combo_ok s ->
  HeapTupleHeaderAdjustCmax current t cmax s = Some r ->
  let '(c, iscombo, s') := r in
  combo_ok s' /\
  HeapTupleHeaderGetCmax s' (HeapTupleHeaderSetCmax c iscombo t) = Some cmax /\
  iscombo = negb (HeapTupleHeaderXminCommitted t) && current (HeapTupleHeaderGetRawXmin t) /\
  (iscombo = true ->
   HeapTupleHeaderGetCmin s' (HeapTupleHeaderSetCmax c iscombo t) =
   HeapTupleHeaderGetCmin s t).
Proof.
  intros Hs. unfold HeapTupleHeaderAdjustCmax.
  destruct (negb _ && _).
  - destruct (HeapTupleHeaderGetCmin s t) as [cmin|]; [|done].
    pose proof (GetComboCommandId_ok cmin cmax s Hs) as H.
    destruct (GetComboCommandId cmin cmax s) as [c s'].
    destruct H as (Hs' & Hc & Hl & _). intros [= <-].
    destruct (real_cids s' c cmin cmax Hc Hl) as [H1 H2].
    unfold HeapTupleHeaderGetCmin, HeapTupleHeaderGetCmax. cbn -[has].
    rewrite has_lor, orb_true_r. done.
  - intros [= <-]. unfold HeapTupleHeaderGetCmax. cbn -[has].
    by rewrite has_ldiff_same.
Qed.

Lemma HeapTupleHeaderAdjustCmax_spec_witness :
  let t := {| t_xmin := 900; t_xmax := 0; t_field3 := 3; t_ctid := {| ip_blkid := 0; ip_posid := 1 |};
              t_infomask2 := 2; t_infomask := HEAP_XMAX_INVALID |} in
  match HeapTupleHeaderAdjustCmax (Z.eqb 900) t 8 combo_init with
  | Some (c, iscombo, s') =>
      HeapTupleHeaderGetCmax s' (HeapTupleHeaderSetCmax c iscombo t) = Some 8 /\
      HeapTupleHeaderGetCmin s' (HeapTupleHeaderSetCmax c iscombo t) = Some 3
  | None => False
  end.
Proof.
  intros t.
  pose proof (HeapTupleHeaderAdjustCmax_spec (Z.eqb 900) t 8 combo_init _ combo_ok_init eq_refl)
    as (_ & H1 & _ & H2).
  split; [exact H1|exact (H2 eq_refl)].
Defined.

End Combocid.
