(* ===== verification/Snapshot.v ===== *)
(** * Snapshots

    Models [src/include/utils/snapshot.h], [XidInMVCCSnapshot] of
    [src/backend/utils/time/snapmgr.c] and the binary search
    [TransactionIdInArray] of [src/backend/access/heap/heapam_visibility.c].
    [topmost] is [SubTransGetTopmostTransaction] (module [Clog]), which reads
    the shared pg_subtrans area and is an argument here. *)

From S2P Require Import Prelude.
From S2P Require Import Transam.

Import Transam.

Open Scope Z_scope.

Module Snapshot.

Inductive SnapshotType :=
  | SNAPSHOT_MVCC | SNAPSHOT_SELF | SNAPSHOT_ANY | SNAPSHOT_TOAST | SNAPSHOT_DIRTY
  | SNAPSHOT_HISTORIC_MVCC | SNAPSHOT_NON_VACUUMABLE.

(** [xcnt] and [subxcnt] are the lengths of the arrays.  Reference counts,
    the heap node and the "snapshot too old" fields play no part in
    visibility. *)
Record SnapshotData := {
  snapshot_type : SnapshotType;
  xmin : Z; xmax : Z;
  xip : list Z;
  subxip : list Z;
  suboverflowed : bool;
  takenDuringRecovery : bool;
  curcid : Z;
  speculativeToken : Z }.

(** The linear scans [for (i = 0; i < xcnt; i++)]. *)
Fixpoint xid_in (xid : Z) (xs : list Z) : bool :=
  match xs with
  | [] => false
  | x :: xs' => if xid =? x then true else xid_in xid xs'
  end.

Definition XidInMVCCSnapshot (topmost : Z -> Z) (xid : Z) (snapshot : SnapshotData) : bool :=
  if TransactionIdPrecedes xid (xmin snapshot) then false
  else if TransactionIdFollowsOrEquals xid (xmax snapshot) then true
  else if negb (takenDuringRecovery snapshot) then
    if negb (suboverflowed snapshot) then
      if xid_in xid (subxip snapshot) then true else xid_in xid (xip snapshot)
    else
      let xid := topmost xid in
      if TransactionIdPrecedes xid (xmin snapshot) then false
      else xid_in xid (xip snapshot)
  else
    if suboverflowed snapshot then
      let xid := topmost xid in
      if TransactionIdPrecedes xid (xmin snapshot) then false
      else xid_in xid (subxip snapshot)
    else xid_in xid (subxip snapshot).

(** [xidComparator]: plain numeric order, not the modular one. *)
Definition xidComparator (xid1 xid2 : Z) : comparison := Z.compare xid1 xid2.

(** [bsearch] on [xip[lo .. lo + fuel)]: the interval halves at each step. *)
Fixpoint bsearch (xid : Z) (xs : list Z) (lo hi fuel : nat) : bool :=
  match fuel with
  | O => false
  | S fuel' =>
      if (hi <=? lo)%nat then false
      else
        let mid := ((lo + hi) / 2)%nat in
        match xidComparator xid (nth mid xs 0) with
        | Eq => true
        | Lt => bsearch xid xs lo mid fuel'
        | Gt => bsearch xid xs (S mid) hi fuel'
        end
  end.

Definition TransactionIdInArray (xid : Z) (xs : list Z) : bool :=
  bsearch xid xs 0 (length xs) (S (length xs)).

(** ** Lemmas *)

Lemma xid_in_spec xid xs : xid_in xid xs = true <-> xid ∈ xs.
Proof.
  induction xs as [|x xs IH]; cbn.
  - split; [done|]. by intros ?%elem_of_nil.
  - rewrite elem_of_cons, <- IH. case (Z.eqb_spec xid x); naive_solver.
Qed.

Definition sorted_at (xs : list Z) : Prop :=
  forall i j, (i <= j < length xs)%nat -> nth i xs 0 <= nth j xs 0.

Lemma bsearch_spec xid xs lo hi fuel :
  sorted_at xs -> (hi <= length xs)%nat -> (hi - lo < fuel)%nat ->
  bsearch xid xs lo hi fuel = true <->
  exists i, (lo <= i < hi)%nat /\ nth i xs 0 = xid.
Proof.
  intros Hs. revert lo hi. induction fuel as [|fuel IH]; intros lo hi Hhi Hf; [lia|]. cbn -[Nat.div].
  case (Nat.leb_spec hi lo); intros Hlo.
  { split; [done|]. intros (i & ? & _). lia. }
  set (mid := ((lo + hi) / 2)%nat).
  assert (lo <= mid < hi)%nat as Hm.
  { unfold mid. split; [apply Nat.div_le_lower_bound; lia|].
    apply Nat.div_lt_upper_bound; lia. }
  unfold xidComparator. destruct (Z.compare_spec xid (nth mid xs 0)) as [E|E|E].
  - split; [|done]. intros _. exists mid. split; [done|]. by symmetry.
  - rewrite IH by lia. split; intros (i & Hi & Hx); exists i; (split; [|done]); [lia|].
    destruct (decide (i < mid)%nat); [lia|]. pose proof (Hs mid i ltac:(lia)). lia.
  - rewrite IH by lia. split; intros (i & Hi & Hx); exists i; (split; [|done]); [lia|].
    destruct (decide (mid < i)%nat); [lia|]. pose proof (Hs i mid ltac:(lia)). lia.
Qed.

(** On a sorted array the binary search finds exactly the members. *)
Lemma TransactionIdInArray_spec xid xs :
  sorted_at xs -> TransactionIdInArray xid xs = true <-> xid ∈ xs.
Proof.
  intros Hs. unfold TransactionIdInArray. rewrite bsearch_spec by (done || lia).
  rewrite list_elem_of_lookup. split.
  - intros (i & Hi & <-). exists i.
    destruct (nth_lookup_or_length xs i 0) as [E|]; [done|lia].
  - intros (i & Hi). exists i. apply lookup_lt_Some in Hi as Hlt. split; [lia|].
    by apply nth_lookup_Some.
Qed.

End Snapshot.
