(* ===== verification/Visibility.v ===== *)
(** * Tuple visibility

    Models [src/backend/access/heap/heapam_visibility.c]: all the
    [HeapTupleSatisfies*] routines, [SetHintBits], [HeapTupleIsSurelyDead] and
    [HeapTupleHeaderIsOnlyLocked], with [MultiXactIdIsRunning] of [multixact.c]
    and [MultiXactIdGetUpdateXid] of [heapam.c].

    The routines run while other backends commit and abort.  The model makes
    that explicit: the interface [XactEnv] gives the answers of the
    transaction manager as functions of time, and every question to it moves
    the clock.  Each C function becomes one program of the monad [M]: the
    state is the clock, the tuple header (whose hint bits the code sets) and
    the snapshot (which the dirty test writes to); [Return] is the C [return]
    statement.  Theorems about these programs are in [VisibilityProofs.v]. *)

From S2P Require Import Prelude.
From S2P Require Import Transam.
From S2P Require Import Htup.
From S2P Require Import Combocid.
From S2P Require Import Snapshot.

Import Transam Htup Combocid Snapshot.

Open Scope Z_scope.

Module Visibility.

(** ** What the routines ask of other components *)

(** [in_progress n x] and [did_commit n x] are the answers of
    [TransactionIdIsInProgress] and [TransactionIdDidCommit] at time [n]. *)
Class XactEnv := {
  TransactionIdIsCurrentTransactionId : Z -> bool;
  in_progress : nat -> Z -> bool;
  did_commit : nat -> Z -> bool;
  SubTransGetTopmost : Z -> Z;
  (** [GetMultiXactIdMembers(multi, &members, false, isLockOnly)]; the answers
      0 and -1 are the empty list *)
  GetMultiXactIdMembers : Z -> bool -> list (Z * Z);
  combo : combo_state;
  TransactionIdGetCommitLSN : Z -> Z;
  lsn_needs_flush : nat -> Z -> bool;
  BufferIsPermanent : bool;
  BufferGetLSNAtomic : Z;
  (** [ResolveCminCmaxDuringDecoding]: the pair [*cmin], [*cmax] *)
  ResolveCminCmaxDuringDecoding : HeapTupleData -> option (Z * Z) }.

(** ** The monad *)

Inductive vis_error :=
  | ErrBadComboCid            (* a subscript outside comboCids *)
  | ErrUnresolvedCminCmax.    (* elog(ERROR) of the historic test *)

Inductive outcome (R A : Type) :=
  | Cont (a : A)
  | Return (r : R)
  | Raise (e : vis_error).
Arguments Cont {R A}. Arguments Return {R A}. Arguments Raise {R A}.

(** [hinted] records that MarkBufferDirtyHint was called. *)
Record vstate := {
  clock : nat; tup : HeapTupleHeaderData; snap : SnapshotData; hinted : bool }.

Definition M (R A : Type) : Type := vstate -> outcome R A * vstate.

Definition mret {R A} (a : A) : M R A := fun s => (Cont a, s).
Definition mbind {R A B} (m : M R A) (k : A -> M R B) : M R B := fun s =>
  match m s with
  | (Cont a, s') => k a s'
  | (Return r, s') => (Return r, s')
  | (Raise e, s') => (Raise e, s')
  end.
Definition return_ {R A} (r : R) : M R A := fun s => (Return r, s).
Definition raise {R A} (e : vis_error) : M R A := fun s => (Raise e, s).
Definition skip {R} : M R unit := mret tt.
Definition get_tuple {R} : M R HeapTupleHeaderData := fun s => (Cont (tup s), s).
Definition get_snapshot {R} : M R SnapshotData := fun s => (Cont (snap s), s).
Definition set_snapshot {R} (f : SnapshotData -> SnapshotData) : M R unit := fun s =>
  (Cont tt, {| clock := clock s; tup := tup s; snap := f (snap s); hinted := hinted s |}).

(** A question to the transaction manager takes place at one instant. *)
Definition ask {R A} (q : nat -> A) : M R A := fun s =>
  (Cont (q (clock s)),
   {| clock := S (clock s); tup := tup s; snap := snap s; hinted := hinted s |}).

Notation "'let!' x := m 'in' k" := (mbind m (fun x => k))
  (at level 200, x name, m at level 100, k at level 200).
Notation "m ;! k" := (mbind m (fun _ => k)) (at level 100, k at level 200, right associativity).

(** The value of a routine: what its [return] statement gave, and the state. *)
Definition result {R} (m : M R R) (s : vstate) : (R + vis_error) * vstate :=
  match m s with
  | (Cont r, s') | (Return r, s') => (inl r, s')
  | (Raise e, s') => (inr e, s')
  end.

(** [tableam.h] and [heapam.h]. *)
Inductive TM_Result :=
  | TM_Ok | TM_Invisible | TM_SelfModified | TM_Updated | TM_Deleted | TM_BeingModified
  | TM_WouldBlock.

Inductive HTSV_Result :=
  | HEAPTUPLE_DEAD | HEAPTUPLE_LIVE | HEAPTUPLE_RECENTLY_DEAD
  | HEAPTUPLE_INSERT_IN_PROGRESS | HEAPTUPLE_DELETE_IN_PROGRESS.

Section Routines.
Context `{env : XactEnv}.

Definition TransactionIdIsInProgress {R} (xid : Z) : M R bool :=
  ask (fun n => in_progress n xid).
Definition TransactionIdDidCommit {R} (xid : Z) : M R bool :=
  ask (fun n => did_commit n xid).
Definition XLogNeedsFlush {R} (lsn : Z) : M R bool :=
  ask (fun n => lsn_needs_flush n lsn).

(** The [||] of C: the right operand is asked only when the left is false. *)
Definition mor {R} (m k : M R bool) : M R bool := let! b := m in if b then mret true else k.

(** ** MultiXacts *)

Definition ISUPDATE_from_mxstatus (status : Z) : bool := 3 <? status.

Definition MultiXactIdGetUpdateXid (xmax infomask : Z) : Z :=
  match filter (fun m => ISUPDATE_from_mxstatus m.2 = true) (GetMultiXactIdMembers xmax false) with
  | [] => InvalidTransactionId
  | m :: _ => m.1
  end.

Definition HeapTupleGetUpdateXid (t : HeapTupleHeaderData) : Z :=
  MultiXactIdGetUpdateXid (HeapTupleHeaderGetRawXmax t) (t_infomask t).

Definition HeapTupleHeaderGetUpdateXid (t : HeapTupleHeaderData) : Z :=
  if negb (has (t_infomask t) HEAP_XMAX_INVALID) && has (t_infomask t) HEAP_XMAX_IS_MULTI &&
     negb (has (t_infomask t) HEAP_XMAX_LOCK_ONLY)
  then HeapTupleGetUpdateXid t else HeapTupleHeaderGetRawXmax t.

Fixpoint any_in_progress {R} (members : list (Z * Z)) : M R bool :=
  match members with
  | [] => mret false
  | m :: ms => let! p := TransactionIdIsInProgress m.1 in
               if p then mret true else any_in_progress ms
  end.

Definition MultiXactIdIsRunning {R} (multi : Z) (isLockOnly : bool) : M R bool :=
  let members := GetMultiXactIdMembers multi isLockOnly in
  if existsb (fun m => TransactionIdIsCurrentTransactionId m.1) members then mret true
  else any_in_progress members.

(** ** Hint bits *)

Definition SetHintBits {R} (infomask xid : Z) : M R unit :=
  let! skip_hint :=
    (if TransactionIdIsValid xid then
       let commitLSN := TransactionIdGetCommitLSN xid in
       if BufferIsPermanent then
         let! f := XLogNeedsFlush commitLSN in
         mret (f && (BufferGetLSNAtomic <? commitLSN))
       else mret false
     else mret false) in
  if skip_hint then skip
  else fun s => (Cont tt, {| clock := clock s; tup := or_infomask infomask (tup s);
                             snap := snap s; hinted := true |}).

Definition HeapTupleSetHintBits {R} (infomask xid : Z) : M R unit := SetHintBits infomask xid.

(** The command ids of the tuple, through the combo command ids. *)
Definition GetCmin {R} (t : HeapTupleHeaderData) : M R Z :=
  match HeapTupleHeaderGetCmin combo t with
  | Some c => mret c | None => raise ErrBadComboCid end.
Definition GetCmax {R} (t : HeapTupleHeaderData) : M R Z :=
  match HeapTupleHeaderGetCmax combo t with
  | Some c => mret c | None => raise ErrBadComboCid end.

(** The branches for tuples moved by a VACUUM FULL of a server before 9.0,
    the same text in five routines: [gone] is what they return when the tuple
    is not there, [running] how they ask whether [xvac] is still running and
    [other] the branches for tuples that were not moved. *)
Definition moved_or {R} (running : Z -> M R bool) (gone : R) (other : M R unit) : M R unit :=
  let! t := get_tuple in
  if has (t_infomask t) HEAP_MOVED_OFF then
    let xvac := HeapTupleHeaderGetXvac t in
    if TransactionIdIsCurrentTransactionId xvac then return_ gone
    else
      let! p := running xvac in
      if negb p then
        let! c := TransactionIdDidCommit xvac in
        if c then SetHintBits HEAP_XMIN_INVALID InvalidTransactionId ;! return_ gone
        else SetHintBits HEAP_XMIN_COMMITTED InvalidTransactionId
      else skip
  else if has (t_infomask t) HEAP_MOVED_IN then
    let xvac := HeapTupleHeaderGetXvac t in
    if negb (TransactionIdIsCurrentTransactionId xvac) then
      let! p := running xvac in
      if p then return_ gone
      else
        let! c := TransactionIdDidCommit xvac in
        if c then SetHintBits HEAP_XMIN_COMMITTED InvalidTransactionId
        else SetHintBits HEAP_XMIN_INVALID InvalidTransactionId ;! return_ gone
    else skip
  else other.

(** ** HeapTupleSatisfiesSelf *)

(** The deleter of a tuple its own transaction inserted. *)
Definition Self_own {A} : M bool A :=
  let! t := get_tuple in
  if has (t_infomask t) HEAP_XMAX_INVALID then return_ true
  else if HEAP_XMAX_IS_LOCKED_ONLY (t_infomask t) then return_ true
  else if has (t_infomask t) HEAP_XMAX_IS_MULTI then
    let xmax := HeapTupleGetUpdateXid t in
    if negb (TransactionIdIsCurrentTransactionId xmax) then return_ true else return_ false
  else if negb (TransactionIdIsCurrentTransactionId (HeapTupleHeaderGetRawXmax t)) then
    SetHintBits HEAP_XMAX_INVALID InvalidTransactionId ;! return_ true
  else return_ false.

Definition Self_xmin : M bool unit :=
  let! t := get_tuple in
  if negb (HeapTupleHeaderXminCommitted t) then
    if HeapTupleHeaderXminInvalid t then return_ false
    else moved_or TransactionIdIsInProgress false
      (if TransactionIdIsCurrentTransactionId (HeapTupleHeaderGetRawXmin t) then Self_own
       else
         let! p := TransactionIdIsInProgress (HeapTupleHeaderGetRawXmin t) in
         if p then return_ false
         else
           let! c := TransactionIdDidCommit (HeapTupleHeaderGetRawXmin t) in
           if c then SetHintBits HEAP_XMIN_COMMITTED (HeapTupleHeaderGetRawXmin t)
           else SetHintBits HEAP_XMIN_INVALID InvalidTransactionId ;! return_ false)
  else skip.

Definition Self_xmax : M bool bool :=
  let! t := get_tuple in
  if has (t_infomask t) HEAP_XMAX_INVALID then return_ true
  else if has (t_infomask t) HEAP_XMAX_COMMITTED then
    if HEAP_XMAX_IS_LOCKED_ONLY (t_infomask t) then return_ true else return_ false
  else if has (t_infomask t) HEAP_XMAX_IS_MULTI then
    if HEAP_XMAX_IS_LOCKED_ONLY (t_infomask t) then return_ true
    else
      let xmax := HeapTupleGetUpdateXid t in
      if TransactionIdIsCurrentTransactionId xmax then return_ false
      else
        let! p := TransactionIdIsInProgress xmax in
        if p then return_ true
        else
          let! c := TransactionIdDidCommit xmax in
          if c then return_ false else return_ true
  else if TransactionIdIsCurrentTransactionId (HeapTupleHeaderGetRawXmax t) then
    if HEAP_XMAX_IS_LOCKED_ONLY (t_infomask t) then return_ true else return_ false
  else
    let! p := TransactionIdIsInProgress (HeapTupleHeaderGetRawXmax t) in
    if p then return_ true
    else
      let! c := TransactionIdDidCommit (HeapTupleHeaderGetRawXmax t) in
      if negb c then SetHintBits HEAP_XMAX_INVALID InvalidTransactionId ;! return_ true
      else if HEAP_XMAX_IS_LOCKED_ONLY (t_infomask t) then
        SetHintBits HEAP_XMAX_INVALID InvalidTransactionId ;! return_ true
      else
        SetHintBits HEAP_XMAX_COMMITTED (HeapTupleHeaderGetRawXmax t) ;! return_ false.

Definition HeapTupleSatisfiesSelf : M bool bool := Self_xmin ;! Self_xmax.

(** ** HeapTupleSatisfiesAny *)

Definition HeapTupleSatisfiesAny : M bool bool := return_ true.

(** ** HeapTupleSatisfiesToast *)

Definition HeapTupleSatisfiesToast : M bool bool :=
  (let! t := get_tuple in
   if negb (HeapTupleHeaderXminCommitted t) then
     if HeapTupleHeaderXminInvalid t then return_ false
     else moved_or TransactionIdIsInProgress false
       (if negb (TransactionIdIsValid (HeapTupleHeaderGetXmin t)) then return_ false else skip)
   else skip) ;!
  return_ true.

(** ** HeapTupleSatisfiesUpdate *)

(** The lines deciding between [TM_Updated] and [TM_Deleted]. *)
Definition updated_or_deleted (self : ItemPointerData) (t : HeapTupleHeaderData) : TM_Result :=
  if negb (ItemPointerEquals self (t_ctid t)) || HeapTupleHeaderIndicatesMovedPartitions t
  then TM_Updated else TM_Deleted.

Definition cmax_test {A} (t : HeapTupleHeaderData) (curcid : Z) : M TM_Result A :=
  let! cmax := GetCmax t in
  if curcid <=? cmax then return_ TM_SelfModified else return_ TM_Invisible.

Definition Update_own {A} (curcid : Z) : M TM_Result A :=
  let! t := get_tuple in
  let! cmin := GetCmin t in
  if curcid <=? cmin then return_ TM_Invisible
  else if has (t_infomask t) HEAP_XMAX_INVALID then return_ TM_Ok
  else if HEAP_XMAX_IS_LOCKED_ONLY (t_infomask t) then
    let xmax := HeapTupleHeaderGetRawXmax t in
    if has (t_infomask t) HEAP_XMAX_IS_MULTI then
      let! r := MultiXactIdIsRunning xmax true in
      if r then return_ TM_BeingModified else return_ TM_Ok
    else
      let! p := TransactionIdIsInProgress xmax in
      if negb p then return_ TM_Ok else return_ TM_BeingModified
  else if has (t_infomask t) HEAP_XMAX_IS_MULTI then
    let xmax := HeapTupleGetUpdateXid t in
    if negb (TransactionIdIsCurrentTransactionId xmax) then
      let! r := MultiXactIdIsRunning (HeapTupleHeaderGetRawXmax t) false in
      if r then return_ TM_BeingModified else return_ TM_Ok
    else cmax_test t curcid
  else if negb (TransactionIdIsCurrentTransactionId (HeapTupleHeaderGetRawXmax t)) then
    SetHintBits HEAP_XMAX_INVALID InvalidTransactionId ;! return_ TM_Ok
  else cmax_test t curcid.

Definition Update_xmin (curcid : Z) : M TM_Result unit :=
  let! t := get_tuple in
  if negb (HeapTupleHeaderXminCommitted t) then
    if HeapTupleHeaderXminInvalid t then return_ TM_Invisible
    else moved_or TransactionIdIsInProgress TM_Invisible
      (if TransactionIdIsCurrentTransactionId (HeapTupleHeaderGetRawXmin t)
       then Update_own curcid
       else
         let! p := TransactionIdIsInProgress (HeapTupleHeaderGetRawXmin t) in
         if p then return_ TM_Invisible
         else
           let! c := TransactionIdDidCommit (HeapTupleHeaderGetRawXmin t) in
           if c then SetHintBits HEAP_XMIN_COMMITTED (HeapTupleHeaderGetRawXmin t)
           else SetHintBits HEAP_XMIN_INVALID InvalidTransactionId ;! return_ TM_Invisible)
  else skip.

(** The multixact branch of the [xmax] part. *)
Definition Update_multi {A} (self : ItemPointerData) (curcid : Z) : M TM_Result A :=
  let! t := get_tuple in
  if HEAP_LOCKED_UPGRADED (t_infomask t) then return_ TM_Ok
  else if HEAP_XMAX_IS_LOCKED_ONLY (t_infomask t) then
    let! r := MultiXactIdIsRunning (HeapTupleHeaderGetRawXmax t) true in
    if r then return_ TM_BeingModified
    else SetHintBits HEAP_XMAX_INVALID InvalidTransactionId ;! return_ TM_Ok
  else
    let xmax := HeapTupleGetUpdateXid t in
    (if negb (TransactionIdIsValid xmax) then
       let! r := MultiXactIdIsRunning (HeapTupleHeaderGetRawXmax t) false in
       if r then return_ TM_BeingModified else skip
     else skip) ;!
    if TransactionIdIsCurrentTransactionId xmax then cmax_test t curcid
    else
      let! r := MultiXactIdIsRunning (HeapTupleHeaderGetRawXmax t) false in
      if r then return_ TM_BeingModified
      else
        let! c := TransactionIdDidCommit xmax in
        if c then return_ (updated_or_deleted self t)
        else
          let! r := MultiXactIdIsRunning (HeapTupleHeaderGetRawXmax t) false in
          if negb r then SetHintBits HEAP_XMAX_INVALID InvalidTransactionId ;! return_ TM_Ok
          else return_ TM_BeingModified.

Definition Update_xmax (self : ItemPointerData) (curcid : Z) : M TM_Result TM_Result :=
  let! t := get_tuple in
  if has (t_infomask t) HEAP_XMAX_INVALID then return_ TM_Ok
  else if has (t_infomask t) HEAP_XMAX_COMMITTED then
    if HEAP_XMAX_IS_LOCKED_ONLY (t_infomask t) then return_ TM_Ok
    else return_ (updated_or_deleted self t)
  else if has (t_infomask t) HEAP_XMAX_IS_MULTI then Update_multi self curcid
  else if TransactionIdIsCurrentTransactionId (HeapTupleHeaderGetRawXmax t) then
    if HEAP_XMAX_IS_LOCKED_ONLY (t_infomask t) then return_ TM_BeingModified
    else cmax_test t curcid
  else
    let! p := TransactionIdIsInProgress (HeapTupleHeaderGetRawXmax t) in
    if p then return_ TM_BeingModified
    else
      let! c := TransactionIdDidCommit (HeapTupleHeaderGetRawXmax t) in
      if negb c then SetHintBits HEAP_XMAX_INVALID InvalidTransactionId ;! return_ TM_Ok
      else if HEAP_XMAX_IS_LOCKED_ONLY (t_infomask t) then
        SetHintBits HEAP_XMAX_INVALID InvalidTransactionId ;! return_ TM_Ok
      else
        SetHintBits HEAP_XMAX_COMMITTED (HeapTupleHeaderGetRawXmax t) ;!
        return_ (updated_or_deleted self t).

Definition HeapTupleSatisfiesUpdate (self : ItemPointerData) (curcid : Z)
  : M TM_Result TM_Result :=
  Update_xmin curcid ;! Update_xmax self curcid.

(** ** HeapTupleSatisfiesDirty *)

Definition set_dirty (x1 x2 token : Z) (s : SnapshotData) : SnapshotData :=
  {| snapshot_type := snapshot_type s; xmin := x1; xmax := x2; xip := xip s;
     subxip := subxip s; suboverflowed := suboverflowed s;
     takenDuringRecovery := takenDuringRecovery s; curcid := curcid s;
     speculativeToken := token |}.

Definition Dirty_reset : M bool unit :=
  set_snapshot (set_dirty InvalidTransactionId InvalidTransactionId 0).
Definition set_snapshot_xmin (x : Z) : M bool unit :=
  set_snapshot (fun s => set_dirty x (xmax s) (speculativeToken s) s).
Definition set_snapshot_xmax (x : Z) : M bool unit :=
  set_snapshot (fun s => set_dirty (xmin s) x (speculativeToken s) s).
Definition set_snapshot_token (x : Z) : M bool unit :=
  set_snapshot (fun s => set_dirty (xmin s) (xmax s) x s).

(** The lines for a tuple of the running transaction are those of
    [HeapTupleSatisfiesSelf]. *)
Definition Dirty_xmin : M bool unit :=
  Dirty_reset ;!
  let! t := get_tuple in
  if negb (HeapTupleHeaderXminCommitted t) then
    if HeapTupleHeaderXminInvalid t then return_ false
    else moved_or TransactionIdIsInProgress false
      (if TransactionIdIsCurrentTransactionId (HeapTupleHeaderGetRawXmin t) then
         Self_own
       else
         let! p := TransactionIdIsInProgress (HeapTupleHeaderGetRawXmin t) in
         if p then
           (if HeapTupleHeaderIsSpeculative t
            then set_snapshot_token (HeapTupleHeaderGetSpeculativeToken t) else skip) ;!
           set_snapshot_xmin (HeapTupleHeaderGetRawXmin t) ;! return_ true
         else
           let! c := TransactionIdDidCommit (HeapTupleHeaderGetRawXmin t) in
           if c then SetHintBits HEAP_XMIN_COMMITTED (HeapTupleHeaderGetRawXmin t)
           else SetHintBits HEAP_XMIN_INVALID InvalidTransactionId ;! return_ false)
  else skip.

Definition Dirty_xmax : M bool bool :=
  let! t := get_tuple in
  if has (t_infomask t) HEAP_XMAX_INVALID then return_ true
  else if has (t_infomask t) HEAP_XMAX_COMMITTED then
    if HEAP_XMAX_IS_LOCKED_ONLY (t_infomask t) then return_ true else return_ false
  else if has (t_infomask t) HEAP_XMAX_IS_MULTI then
    if HEAP_XMAX_IS_LOCKED_ONLY (t_infomask t) then return_ true
    else
      let xmax := HeapTupleGetUpdateXid t in
      if TransactionIdIsCurrentTransactionId xmax then return_ false
      else
        let! p := TransactionIdIsInProgress xmax in
        if p then set_snapshot_xmax xmax ;! return_ true
        else
          let! c := TransactionIdDidCommit xmax in
          if c then return_ false else return_ true
  else if TransactionIdIsCurrentTransactionId (HeapTupleHeaderGetRawXmax t) then
    if HEAP_XMAX_IS_LOCKED_ONLY (t_infomask t) then return_ true else return_ false
  else
    let! p := TransactionIdIsInProgress (HeapTupleHeaderGetRawXmax t) in
    if p then
      (if negb (HEAP_XMAX_IS_LOCKED_ONLY (t_infomask t))
       then set_snapshot_xmax (HeapTupleHeaderGetRawXmax t) else skip) ;! return_ true
    else
      let! c := TransactionIdDidCommit (HeapTupleHeaderGetRawXmax t) in
      if negb c then SetHintBits HEAP_XMAX_INVALID InvalidTransactionId ;! return_ true
      else if HEAP_XMAX_IS_LOCKED_ONLY (t_infomask t) then
        SetHintBits HEAP_XMAX_INVALID InvalidTransactionId ;! return_ true
      else
        SetHintBits HEAP_XMAX_COMMITTED (HeapTupleHeaderGetRawXmax t) ;! return_ false.

Definition HeapTupleSatisfiesDirty : M bool bool := Dirty_xmin ;! Dirty_xmax.

(** ** HeapTupleSatisfiesMVCC *)

Definition in_snapshot {R} (xid : Z) : M R bool :=
  let! s := get_snapshot in mret (XidInMVCCSnapshot SubTransGetTopmost xid s).

(** "Deleted after scan started" or before, by command id. *)
Definition MVCC_cmax_test {A} (t : HeapTupleHeaderData) : M bool A :=
  let! s := get_snapshot in
  let! cmax := GetCmax t in
  if curcid s <=? cmax then return_ true else return_ false.

Definition MVCC_own {A} : M bool A :=
  let! t := get_tuple in
  let! s := get_snapshot in
  let! cmin := GetCmin t in
  if curcid s <=? cmin then return_ false
  else if has (t_infomask t) HEAP_XMAX_INVALID then return_ true
  else if HEAP_XMAX_IS_LOCKED_ONLY (t_infomask t) then return_ true
  else if has (t_infomask t) HEAP_XMAX_IS_MULTI then
    let xmax := HeapTupleGetUpdateXid t in
    if negb (TransactionIdIsCurrentTransactionId xmax) then return_ true
    else MVCC_cmax_test t
  else if negb (TransactionIdIsCurrentTransactionId (HeapTupleHeaderGetRawXmax t)) then
    SetHintBits HEAP_XMAX_INVALID InvalidTransactionId ;! return_ true
  else MVCC_cmax_test t.

Definition MVCC_xmin : M bool unit :=
  let! t := get_tuple in
  if negb (HeapTupleHeaderXminCommitted t) then
    if HeapTupleHeaderXminInvalid t then return_ false
    else moved_or in_snapshot false
      (if TransactionIdIsCurrentTransactionId (HeapTupleHeaderGetRawXmin t) then MVCC_own
       else
         let! p := in_snapshot (HeapTupleHeaderGetRawXmin t) in
         if p then return_ false
         else
           let! c := TransactionIdDidCommit (HeapTupleHeaderGetRawXmin t) in
           if c then SetHintBits HEAP_XMIN_COMMITTED (HeapTupleHeaderGetRawXmin t)
           else SetHintBits HEAP_XMIN_INVALID InvalidTransactionId ;! return_ false)
  else
    let! p := (if negb (HeapTupleHeaderXminFrozen t)
               then in_snapshot (HeapTupleHeaderGetRawXmin t) else mret false) in
    if p then return_ false else skip.

Definition MVCC_xmax : M bool bool :=
  let! t := get_tuple in
  if has (t_infomask t) HEAP_XMAX_INVALID then return_ true
  else if HEAP_XMAX_IS_LOCKED_ONLY (t_infomask t) then return_ true
  else if has (t_infomask t) HEAP_XMAX_IS_MULTI then
    let xmax := HeapTupleGetUpdateXid t in
    if TransactionIdIsCurrentTransactionId xmax then MVCC_cmax_test t
    else
      let! p := in_snapshot xmax in
      if p then return_ true
      else
        let! c := TransactionIdDidCommit xmax in
        if c then return_ false else return_ true
  else
    (if negb (has (t_infomask t) HEAP_XMAX_COMMITTED) then
       if TransactionIdIsCurrentTransactionId (HeapTupleHeaderGetRawXmax t)
       then MVCC_cmax_test t
       else
         let! p := in_snapshot (HeapTupleHeaderGetRawXmax t) in
         if p then return_ true
         else
           let! c := TransactionIdDidCommit (HeapTupleHeaderGetRawXmax t) in
           if negb c then SetHintBits HEAP_XMAX_INVALID InvalidTransactionId ;! return_ true
           else SetHintBits HEAP_XMAX_COMMITTED (HeapTupleHeaderGetRawXmax t)
     else
       let! p := in_snapshot (HeapTupleHeaderGetRawXmax t) in
       if p then return_ true else skip) ;!
    return_ false.

Definition HeapTupleSatisfiesMVCC : M bool bool := MVCC_xmin ;! MVCC_xmax.

(** ** HeapTupleHeaderIsOnlyLocked *)

Definition HeapTupleHeaderIsOnlyLocked {R} : M R bool :=
  let! t := get_tuple in
  if has (t_infomask t) HEAP_XMAX_INVALID then mret true
  else if has (t_infomask t) HEAP_XMAX_LOCK_ONLY then mret true
  else if negb (TransactionIdIsValid (HeapTupleHeaderGetRawXmax t)) then mret true
  else if negb (has (t_infomask t) HEAP_XMAX_IS_MULTI) then mret false
  else
    let xmax := HeapTupleGetUpdateXid t in
    if TransactionIdIsCurrentTransactionId xmax then mret false
    else
      let! p := TransactionIdIsInProgress xmax in
      if p then mret false
      else
        let! c := TransactionIdDidCommit xmax in
        if c then mret false else mret true.

(** ** HeapTupleSatisfiesVacuum *)

Definition Vacuum_moved (other : M HTSV_Result unit) : M HTSV_Result unit :=
  let! t := get_tuple in
  if has (t_infomask t) HEAP_MOVED_OFF then
    let xvac := HeapTupleHeaderGetXvac t in
    if TransactionIdIsCurrentTransactionId xvac then return_ HEAPTUPLE_DELETE_IN_PROGRESS
    else
      let! p := TransactionIdIsInProgress xvac in
      if p then return_ HEAPTUPLE_DELETE_IN_PROGRESS
      else
        let! c := TransactionIdDidCommit xvac in
        if c then SetHintBits HEAP_XMIN_INVALID InvalidTransactionId ;! return_ HEAPTUPLE_DEAD
        else SetHintBits HEAP_XMIN_COMMITTED InvalidTransactionId
  else if has (t_infomask t) HEAP_MOVED_IN then
    let xvac := HeapTupleHeaderGetXvac t in
    if TransactionIdIsCurrentTransactionId xvac then return_ HEAPTUPLE_INSERT_IN_PROGRESS
    else
      let! p := TransactionIdIsInProgress xvac in
      if p then return_ HEAPTUPLE_INSERT_IN_PROGRESS
      else
        let! c := TransactionIdDidCommit xvac in
        if c then SetHintBits HEAP_XMIN_COMMITTED InvalidTransactionId
        else SetHintBits HEAP_XMIN_INVALID InvalidTransactionId ;! return_ HEAPTUPLE_DEAD
  else other.

(** "inserted by our own transaction" *)
Definition Vacuum_own : M HTSV_Result unit :=
  let! t := get_tuple in
  if has (t_infomask t) HEAP_XMAX_INVALID then return_ HEAPTUPLE_INSERT_IN_PROGRESS
  else
    let! l := mor (mret (HEAP_XMAX_IS_LOCKED_ONLY (t_infomask t)))
                  HeapTupleHeaderIsOnlyLocked in
    if l then return_ HEAPTUPLE_INSERT_IN_PROGRESS
    else if TransactionIdIsCurrentTransactionId (HeapTupleHeaderGetUpdateXid t)
    then return_ HEAPTUPLE_DELETE_IN_PROGRESS
    else return_ HEAPTUPLE_INSERT_IN_PROGRESS.

Definition Vacuum_xmin : M HTSV_Result unit :=
  let! t := get_tuple in
  if negb (HeapTupleHeaderXminCommitted t) then
    if HeapTupleHeaderXminInvalid t then return_ HEAPTUPLE_DEAD
    else Vacuum_moved
      (if TransactionIdIsCurrentTransactionId (HeapTupleHeaderGetRawXmin t) then
         Vacuum_own
       else
         let! p := TransactionIdIsInProgress (HeapTupleHeaderGetRawXmin t) in
         if p then return_ HEAPTUPLE_INSERT_IN_PROGRESS
         else
           let! c := TransactionIdDidCommit (HeapTupleHeaderGetRawXmin t) in
           if c then SetHintBits HEAP_XMIN_COMMITTED (HeapTupleHeaderGetRawXmin t)
           else SetHintBits HEAP_XMIN_INVALID InvalidTransactionId ;! return_ HEAPTUPLE_DEAD)
  else skip.

Definition Vacuum_xmax (OldestXmin : Z) : M HTSV_Result HTSV_Result :=
  let! t := get_tuple in
  if has (t_infomask t) HEAP_XMAX_INVALID then return_ HEAPTUPLE_LIVE
  else if HEAP_XMAX_IS_LOCKED_ONLY (t_infomask t) then
    (if negb (has (t_infomask t) HEAP_XMAX_COMMITTED) then
       if has (t_infomask t) HEAP_XMAX_IS_MULTI then
         let! r := (if negb (HEAP_LOCKED_UPGRADED (t_infomask t))
                    then MultiXactIdIsRunning (HeapTupleHeaderGetRawXmax t) true
                    else mret false) in
         if r then return_ HEAPTUPLE_LIVE
         else SetHintBits HEAP_XMAX_INVALID InvalidTransactionId
       else
         let! p := TransactionIdIsInProgress (HeapTupleHeaderGetRawXmax t) in
         if p then return_ HEAPTUPLE_LIVE
         else SetHintBits HEAP_XMAX_INVALID InvalidTransactionId
     else skip) ;!
    return_ HEAPTUPLE_LIVE
  else if has (t_infomask t) HEAP_XMAX_IS_MULTI then
    let xmax := HeapTupleGetUpdateXid t in
    let! p := TransactionIdIsInProgress xmax in
    if p then return_ HEAPTUPLE_DELETE_IN_PROGRESS
    else
      let! c := TransactionIdDidCommit xmax in
      if c then
        if negb (TransactionIdPrecedes xmax OldestXmin) then return_ HEAPTUPLE_RECENTLY_DEAD
        else return_ HEAPTUPLE_DEAD
      else
        (let! r := MultiXactIdIsRunning (HeapTupleHeaderGetRawXmax t) false in
         if negb r then SetHintBits HEAP_XMAX_INVALID InvalidTransactionId else skip) ;!
        return_ HEAPTUPLE_LIVE
  else
    (if negb (has (t_infomask t) HEAP_XMAX_COMMITTED) then
       let! p := TransactionIdIsInProgress (HeapTupleHeaderGetRawXmax t) in
       if p then return_ HEAPTUPLE_DELETE_IN_PROGRESS
       else
         let! c := TransactionIdDidCommit (HeapTupleHeaderGetRawXmax t) in
         if c then SetHintBits HEAP_XMAX_COMMITTED (HeapTupleHeaderGetRawXmax t)
         else SetHintBits HEAP_XMAX_INVALID InvalidTransactionId ;! return_ HEAPTUPLE_LIVE
     else skip) ;!
    if negb (TransactionIdPrecedes (HeapTupleHeaderGetRawXmax t) OldestXmin)
    then return_ HEAPTUPLE_RECENTLY_DEAD
    else return_ HEAPTUPLE_DEAD.

Definition HeapTupleSatisfiesVacuum (OldestXmin : Z) : M HTSV_Result HTSV_Result :=
  Vacuum_xmin ;! Vacuum_xmax OldestXmin.

(** A call of one routine from another, which returns to its caller. *)
Definition call {R S} (m : M S S) : M R S := fun s =>
  match m s with
  | (Cont r, s') | (Return r, s') => (Cont r, s')
  | (Raise e, s') => (Raise e, s')
  end.

Definition HeapTupleSatisfiesNonVacuumable : M bool bool :=
  let! s := get_snapshot in
  let! v := call (HeapTupleSatisfiesVacuum (xmin s)) in
  return_ (match v with HEAPTUPLE_DEAD => false | _ => true end).

(** ** HeapTupleIsSurelyDead *)

Definition HeapTupleIsSurelyDead (t : HeapTupleHeaderData) (OldestXmin : Z) : bool :=
  if negb (HeapTupleHeaderXminCommitted t) then
    if HeapTupleHeaderXminInvalid t then true else false
  else if has (t_infomask t) HEAP_XMAX_INVALID then false
  else if HEAP_XMAX_IS_LOCKED_ONLY (t_infomask t) then false
  else if has (t_infomask t) HEAP_XMAX_IS_MULTI then false
  else if negb (has (t_infomask t) HEAP_XMAX_COMMITTED) then false
  else TransactionIdPrecedes (HeapTupleHeaderGetRawXmax t) OldestXmin.

(** ** HeapTupleSatisfiesHistoricMVCC *)

Definition resolve {R} (self : ItemPointerData) (t : HeapTupleHeaderData) : M R (Z * Z) :=
  match ResolveCminCmaxDuringDecoding {| t_self := self; t_data := t |} with
  | Some p => mret p
  | None => raise ErrUnresolvedCminCmax
  end.

Definition Historic_xmin (self : ItemPointerData) : M bool unit :=
  let! t := get_tuple in
  let! s := get_snapshot in
  let x := HeapTupleHeaderGetXmin t in
  if HeapTupleHeaderXminInvalid t then return_ false
  else if TransactionIdInArray x (subxip s) then
    let! p := resolve self t in
    if curcid s <=? p.1 then return_ false else skip
  else if TransactionIdPrecedes x (xmin s) then
    let! gone := (if negb (HeapTupleHeaderXminCommitted t)
                  then let! c := TransactionIdDidCommit x in mret (negb c)
                  else mret false) in
    if gone then return_ false else skip
  else if TransactionIdFollowsOrEquals x (xmax s) then return_ false
  else if TransactionIdInArray x (xip s) then skip
  else return_ false.

Definition Historic_xmax (self : ItemPointerData) : M bool bool :=
  let! t := get_tuple in
  let! s := get_snapshot in
  if has (t_infomask t) HEAP_XMAX_INVALID then return_ true
  else if HEAP_XMAX_IS_LOCKED_ONLY (t_infomask t) then return_ true
  else
    let x := if has (t_infomask t) HEAP_XMAX_IS_MULTI then HeapTupleGetUpdateXid t
             else HeapTupleHeaderGetRawXmax t in
    if TransactionIdInArray x (subxip s) then
      let! p := resolve self t in
      if curcid s <=? p.2 then return_ true else return_ false
    else if TransactionIdPrecedes x (xmin s) then
      if has (t_infomask t) HEAP_XMAX_COMMITTED then return_ false
      else let! c := TransactionIdDidCommit x in return_ (negb c)
    else if TransactionIdFollowsOrEquals x (xmax s) then return_ true
    else if TransactionIdInArray x (xip s) then return_ false
    else return_ true.

Definition HeapTupleSatisfiesHistoricMVCC (self : ItemPointerData) : M bool bool :=
  Historic_xmin self ;! Historic_xmax self.

(** ** HeapTupleSatisfiesVisibility *)

Definition HeapTupleSatisfiesVisibility (self : ItemPointerData) : M bool bool :=
  let! s := get_snapshot in
  match snapshot_type s with
  | SNAPSHOT_MVCC => HeapTupleSatisfiesMVCC
  | SNAPSHOT_SELF => HeapTupleSatisfiesSelf
  | SNAPSHOT_ANY => HeapTupleSatisfiesAny
  | SNAPSHOT_TOAST => HeapTupleSatisfiesToast
  | SNAPSHOT_DIRTY => HeapTupleSatisfiesDirty
  | SNAPSHOT_HISTORIC_MVCC => HeapTupleSatisfiesHistoricMVCC self
  | SNAPSHOT_NON_VACUUMABLE => HeapTupleSatisfiesNonVacuumable
  end.

End Routines.

End Visibility.
