(* ===== verification/VisibilityProofs.v ===== *)
(** * Tuple visibility: specification and proofs

    The routines of [Visibility.v] against a specification that speaks of the
    fate of transactions only and knows nothing of hint bits.  [XactLaws] is
    what the transaction manager promises: a known transaction that is no
    longer in progress stays so and its outcome never changes.  Programs of the monad are reasoned about with the weakest
    precondition [wp]. *)

From S2P Require Import Prelude.
From S2P Require Import Transam.
From S2P Require Import Htup.
From S2P Require Import Combocid.
From S2P Require Import Snapshot.
From S2P Require Import Visibility.

Import Transam Htup Combocid Snapshot Visibility.

Open Scope Z_scope.

Module VisibilityProofs.

(** ** Fates of transactions *)

Inductive xstat := XCurrent | XInProgress | XCommitted | XAborted.
#[export] Instance xstat_eq_dec : EqDecision xstat.
Proof. solve_decision. Defined.

Class XactLaws (env : XactEnv) := {
  known : Z -> Prop;
  settle : forall n m x, known x -> (n <= m)%nat -> in_progress n x = false ->
    in_progress m x = false /\ did_commit m x = did_commit n x;
  current_in_progress : forall n x,
    TransactionIdIsCurrentTransactionId x = true -> in_progress n x = true;
  invalid_known : known InvalidTransactionId;
  invalid_aborted : forall n,
    in_progress n InvalidTransactionId = false /\ did_commit n InvalidTransactionId = false;
  invalid_multi : forall b, GetMultiXactIdMembers InvalidTransactionId b = [] }.

(** ** Specification *)

Section Spec.
Context `{env : XactEnv}.

Definition xst (n : nat) (x : Z) : xstat :=
  if TransactionIdIsCurrentTransactionId x then XCurrent
  else if in_progress n x then XInProgress
  else if did_commit n x then XCommitted else XAborted.

(** The transaction that deleted or updated the tuple, if [xmax] is not just
    a locker.  It does not look at hint bits. *)
Definition updater (t : HeapTupleHeaderData) : option Z :=
  if HEAP_XMAX_IS_LOCKED_ONLY (t_infomask t) then None
  else Some (if has (t_infomask t) HEAP_XMAX_IS_MULTI then HeapTupleGetUpdateXid t
             else HeapTupleHeaderGetRawXmax t).

(** The fate of the tuple's creation: frozen tuples count as committed. *)
Definition ins_st (n : nat) (t : HeapTupleHeaderData) : xstat :=
  if HeapTupleHeaderXminFrozen t then XCommitted else xst n (t_xmin t).

(** The fate of its deletion; a tuple nobody deleted has an aborted one. *)
Definition del_st (n : nat) (t : HeapTupleHeaderData) : xstat :=
  match updater t with None => XAborted | Some d => xst n d end.

Definition cmin_of (t : HeapTupleHeaderData) : Z := default 0 (HeapTupleHeaderGetCmin combo t).
Definition cmax_of (t : HeapTupleHeaderData) : Z := default 0 (HeapTupleHeaderGetCmax combo t).

Definition self_spec (n : nat) (t : HeapTupleHeaderData) : bool :=
  match ins_st n t with
  | XCurrent | XCommitted =>
      match del_st n t with XCurrent | XCommitted => false | _ => true end
  | _ => false
  end.

(** Visible?, inserter to wait for, deleter to wait for, speculative token. *)
Definition dirty_spec (n : nat) (t : HeapTupleHeaderData) : bool * Z * Z * Z :=
  match ins_st n t with
  | XAborted => (false, 0, 0, 0)
  | XInProgress =>
      (true, t_xmin t, 0,
       if HeapTupleHeaderIsSpeculative t then HeapTupleHeaderGetSpeculativeToken t else 0)
  | XCurrent | XCommitted =>
      match del_st n t with
      | XCurrent | XCommitted => (false, 0, 0, 0)
      | XInProgress => (true, 0, default 0 (updater t), 0)
      | XAborted => (true, 0, 0, 0)
      end
  end.

(** Did the snapshot, taken at time [n], see the effects of [x]? *)
Definition seen (n : nat) (s : SnapshotData) (x : Z) : bool :=
  negb (XidInMVCCSnapshot SubTransGetTopmost x s) && bool_decide (xst n x = XCommitted).

Definition mvcc_ins (n : nat) (s : SnapshotData) (t : HeapTupleHeaderData) : bool :=
  if HeapTupleHeaderXminFrozen t then true
  else if TransactionIdIsCurrentTransactionId (t_xmin t) then cmin_of t <? curcid s
  else seen n s (t_xmin t).

Definition mvcc_del (n : nat) (s : SnapshotData) (t : HeapTupleHeaderData) : bool :=
  match updater t with
  | None => false
  | Some d => if TransactionIdIsCurrentTransactionId d then cmax_of t <? curcid s
              else seen n s d
  end.

(** A snapshot sees a tuple when it sees its creation and not its deletion. *)
Definition mvcc_spec (n : nat) (s : SnapshotData) (t : HeapTupleHeaderData) : bool :=
  mvcc_ins n s t && negb (mvcc_del n s t).

Definition vacuum_spec (n : nat) (OldestXmin : Z) (t : HeapTupleHeaderData) : HTSV_Result :=
  match ins_st n t with
  | XAborted => HEAPTUPLE_DEAD
  | XInProgress => HEAPTUPLE_INSERT_IN_PROGRESS
  | XCurrent =>
      match del_st n t with
      | XCurrent => HEAPTUPLE_DELETE_IN_PROGRESS | _ => HEAPTUPLE_INSERT_IN_PROGRESS
      end
  | XCommitted =>
      match del_st n t with
      | XAborted => HEAPTUPLE_LIVE
      | XCurrent | XInProgress => HEAPTUPLE_DELETE_IN_PROGRESS
      | XCommitted =>
          if TransactionIdPrecedes (default 0 (updater t)) OldestXmin
          then HEAPTUPLE_DEAD else HEAPTUPLE_RECENTLY_DEAD
      end
  end.

(** Is anybody, the caller included, holding a lock recorded in [xmax]? *)
Definition xmax_busy (n : nat) (t : HeapTupleHeaderData) : Prop :=
  let running x := xst n x = XCurrent \/ xst n x = XInProgress in
  if has (t_infomask t) HEAP_XMAX_IS_MULTI
  then exists b m, m ∈ GetMultiXactIdMembers (t_xmax t) b /\ running m.1
  else running (t_xmax t).

(** What each answer to an attempted update means. *)
Definition update_spec (n : nat) (self : ItemPointerData) (cid : Z) (t : HeapTupleHeaderData)
  (r : TM_Result) : Prop :=
  let inserted := ins_st n t = XCommitted \/ (ins_st n t = XCurrent /\ cmin_of t < cid) in
  match r with
  | TM_Invisible =>
      ins_st n t = XAborted \/ ins_st n t = XInProgress \/
      (ins_st n t = XCurrent /\ cid <= cmin_of t) \/
      (del_st n t = XCurrent /\ cmax_of t < cid)
  | TM_SelfModified => inserted /\ del_st n t = XCurrent /\ cid <= cmax_of t
  | TM_Updated | TM_Deleted =>
      inserted /\ del_st n t = XCommitted /\ r = updated_or_deleted self t
  | TM_BeingModified => inserted /\ xmax_busy n t
  | TM_Ok => inserted /\ del_st n t = XAborted
  | TM_WouldBlock => False
  end.

(** ** Well-formed tuples and sound hint bits *)

(** A tuple written by this server (no [HEAP_MOVED] bits) whose transactions
    are known.  If the running transaction created it, nobody else can have
    seen it, so a deleter that is not the running transaction is an aborted
    subtransaction of it. *)
Record tuple_wf `{laws : !XactLaws env} (n : nat) (t : HeapTupleHeaderData) : Prop := {
  wf_moved_off : has (t_infomask t) HEAP_MOVED_OFF = false;
  wf_moved_in : has (t_infomask t) HEAP_MOVED_IN = false;
  wf_xmin : known (t_xmin t);
  wf_xmax : has (t_infomask t) HEAP_XMAX_IS_MULTI = false -> known (t_xmax t);
  wf_members : has (t_infomask t) HEAP_XMAX_IS_MULTI = true ->
    forall b m, m ∈ GetMultiXactIdMembers (t_xmax t) b -> known m.1;
  wf_own : xst n (t_xmin t) = XCurrent -> forall d, updater t = Some d ->
    xst n d = XCurrent \/ xst n d = XAborted;
  wf_cmin : TransactionIdIsCurrentTransactionId (t_xmin t) = true ->
    is_Some (HeapTupleHeaderGetCmin combo t);
  wf_cmax : forall d, updater t = Some d -> TransactionIdIsCurrentTransactionId d = true ->
    is_Some (HeapTupleHeaderGetCmax combo t) }.

(** Each hint bit that is set tells the truth. *)
Record hint_ok (n : nat) (t : HeapTupleHeaderData) : Prop := {
  ok_xmin_committed : has (t_infomask t) HEAP_XMIN_COMMITTED = true ->
    ins_st n t = XCommitted;
  ok_xmin_invalid : HeapTupleHeaderXminInvalid t = true -> xst n (t_xmin t) = XAborted;
  ok_xmax_committed : has (t_infomask t) HEAP_XMAX_COMMITTED = true ->
    forall d, updater t = Some d ->
    has (t_infomask t) HEAP_XMAX_IS_MULTI = false /\ xst n d = XCommitted;
  ok_xmax_invalid : has (t_infomask t) HEAP_XMAX_INVALID = true ->
    del_st n t = XAborted }.

(** [t'] is [t] with some hint bits added, and not turned into a frozen
    tuple. *)
Definition hinted_from (t t' : HeapTupleHeaderData) : Prop :=
  (exists f, t' = or_infomask f t /\
     Z.land f (Z.lnot (Z.lor HEAP_XMIN_FROZEN (Z.lor HEAP_XMAX_COMMITTED HEAP_XMAX_INVALID))) = 0) /\
  HeapTupleHeaderXminFrozen t' = HeapTupleHeaderXminFrozen t.

End Spec.

(** ** Lemmas on fates *)

Section Fates.
Context `{env : XactEnv} `{laws : !XactLaws env}.

Lemma xst_current n x : xst n x = XCurrent <-> TransactionIdIsCurrentTransactionId x = true.
Proof. unfold xst. repeat case_match; naive_solver. Qed.

(** A question answered "not in progress" fixes the fate. *)
Lemma not_in_progress n x : in_progress n x = false ->
  TransactionIdIsCurrentTransactionId x = false /\ xst n x <> XInProgress.
Proof.
  intros H. destruct (TransactionIdIsCurrentTransactionId x) eqn:E.
  - rewrite (current_in_progress n x E) in H. done.
  - split; [done|]. unfold xst. rewrite E, H. by case_match.
Qed.

Lemma in_progress_true n x : in_progress n x = true ->
  xst n x = XCurrent \/ xst n x = XInProgress.
Proof. intros H. unfold xst. rewrite H. case_match; auto. Qed.

Definition settled (st : xstat) : Prop := st = XCommitted \/ st = XAborted.

Lemma settled_spec n x : settled (xst n x) <-> in_progress n x = false.
Proof.
  unfold settled, xst. destruct (TransactionIdIsCurrentTransactionId x) eqn:E.
  - rewrite (current_in_progress n x E). naive_solver.
  - repeat case_match; naive_solver.
Qed.

Lemma xst_mono n m x : known x -> (n <= m)%nat -> settled (xst n x) -> xst m x = xst n x.
Proof.
  intros Hk Hn Hs. assert (in_progress n x = false) as Hp by by apply settled_spec.
  destruct (settle n m x Hk Hn Hp) as [Hm Hc].
  destruct (not_in_progress n x Hp) as [Hcur _]. unfold xst. by rewrite Hcur, Hp, Hm, Hc.
Qed.

Lemma xst_committed_mono n m x : known x -> (n <= m)%nat ->
  xst n x = XCommitted -> xst m x = XCommitted.
Proof. intros Hk Hn H. rewrite (xst_mono n m); [done|done|done|]. by left. Qed.

Lemma xst_aborted_mono n m x : known x -> (n <= m)%nat ->
  xst n x = XAborted -> xst m x = XAborted.
Proof. intros Hk Hn H. rewrite (xst_mono n m); [done|done|done|]. by right. Qed.

(** DidCommit decides the fate of a transaction that is no longer running. *)
Lemma did_commit_true n x : settled (xst n x) -> did_commit n x = true -> xst n x = XCommitted.
Proof.
  intros H%settled_spec Hc. destruct (not_in_progress n x H) as [E _].
  unfold xst. by rewrite E, H, Hc.
Qed.

Lemma did_commit_false n x : settled (xst n x) -> did_commit n x = false -> xst n x = XAborted.
Proof.
  intros H%settled_spec Hc. destruct (not_in_progress n x H) as [E _].
  unfold xst. by rewrite E, H, Hc.
Qed.

Lemma xst_invalid n : xst n InvalidTransactionId = XAborted.
Proof.
  destruct (invalid_aborted n) as [H1 H2]. destruct (not_in_progress n _ H1) as [H3 _].
  unfold xst. by rewrite H3, H1, H2.
Qed.

(** ** Hint bits do not change what the tuple says *)

Lemma hinted_from_refl t : hinted_from t t.
Proof.
  split; [|done]. exists 0. split; [|done]. unfold or_infomask. destruct t.
  cbn. by rewrite Z.lor_0_r.
Qed.

Lemma hint_mask f g :
  Z.land f (Z.lnot (Z.lor HEAP_XMIN_FROZEN (Z.lor HEAP_XMAX_COMMITTED HEAP_XMAX_INVALID))) = 0 ->
  Z.land (Z.lor HEAP_XMIN_FROZEN (Z.lor HEAP_XMAX_COMMITTED HEAP_XMAX_INVALID)) g = 0 ->
  Z.land f g = 0.
Proof.
  set (m := Z.lor _ _). intros H1 H2. apply Z.bits_inj. intros i.
  pose proof (f_equal (fun z => Z.testbit z i) H1) as B1.
  pose proof (f_equal (fun z => Z.testbit z i) H2) as B2. cbn beta in B1, B2.
  rewrite Z.land_spec, Z.bits_0 in *.
  destruct (Z.ltb_spec i 0); [by rewrite Z.testbit_neg_r by lia|].
  rewrite Z.lnot_spec in B1 by lia.
  destruct (Z.testbit f i), (Z.testbit g i), (Z.testbit m i); done.
Qed.

Lemma hinted_from_trans t1 t2 t3 : hinted_from t1 t2 -> hinted_from t2 t3 -> hinted_from t1 t3.
Proof.
  intros [(f & -> & Hf) F1] [(g & -> & Hg) F2]. split; [|by rewrite F2].
  exists (Z.lor f g). split.
  - unfold or_infomask. cbn. by rewrite Z.lor_assoc.
  - by rewrite Z.land_comm, Z.land_lor_distr_r, !(Z.land_comm (Z.lnot _)), Hf, Hg.
Qed.

(** Everything the specification looks at is the same on both tuples. *)
Lemma hinted_same t t' : hinted_from t t' ->
  t_xmin t' = t_xmin t /\ t_xmax t' = t_xmax t /\ t_ctid t' = t_ctid t /\
  updater t' = updater t /\
  has (t_infomask t') HEAP_XMAX_IS_MULTI = has (t_infomask t) HEAP_XMAX_IS_MULTI /\
  HEAP_XMAX_IS_LOCKED_ONLY (t_infomask t') = HEAP_XMAX_IS_LOCKED_ONLY (t_infomask t) /\
  has (t_infomask t') HEAP_MOVED_OFF = has (t_infomask t) HEAP_MOVED_OFF /\
  has (t_infomask t') HEAP_MOVED_IN = has (t_infomask t) HEAP_MOVED_IN /\
  HeapTupleHeaderGetCmin combo t' = HeapTupleHeaderGetCmin combo t /\
  HeapTupleHeaderGetCmax combo t' = HeapTupleHeaderGetCmax combo t /\
  HeapTupleHeaderXminFrozen t' = HeapTupleHeaderXminFrozen t.
Proof.
  intros [(f & -> & Hf) HF].
  assert (forall g, Z.land (Z.lor HEAP_XMIN_FROZEN (Z.lor HEAP_XMAX_COMMITTED HEAP_XMAX_INVALID)) g
            = 0 -> has (t_infomask (or_infomask f t)) g = has (t_infomask t) g) as Hh.
  { intros g Hg. cbn [or_infomask t_infomask]. rewrite has_lor.
    unfold has at 2. by rewrite (hint_mask f g Hf Hg), orb_false_r. }
  assert (HEAP_XMAX_IS_LOCKED_ONLY (t_infomask (or_infomask f t)) =
          HEAP_XMAX_IS_LOCKED_ONLY (t_infomask t)) as HL
    by by apply locked_only_lor, (hint_mask f _ Hf).
  split_and!; try done; try (by apply Hh).
  - unfold updater. rewrite HL, (Hh HEAP_XMAX_IS_MULTI) by done. done.
  - unfold HeapTupleHeaderGetCmin. by rewrite Hh by done.
  - unfold HeapTupleHeaderGetCmax. by rewrite Hh by done.
Qed.

Lemma hinted_st t t' n : hinted_from t t' ->
  ins_st n t' = ins_st n t /\ del_st n t' = del_st n t.
Proof.
  intros H. destruct (hinted_same t t' H) as (Hx & _ & _ & Hu & _ & _ & _ & _ & _ & _ & HF).
  unfold ins_st, del_st. by rewrite HF, Hx, Hu.
Qed.

(** ** Monotonicity in time *)

(** The updating member of a multixact is one of its members. *)
Lemma update_xid_member t :
  HeapTupleGetUpdateXid t = InvalidTransactionId \/
  exists m, m ∈ GetMultiXactIdMembers (t_xmax t) false /\ HeapTupleGetUpdateXid t = m.1.
Proof.
  unfold HeapTupleGetUpdateXid, MultiXactIdGetUpdateXid, HeapTupleHeaderGetRawXmax.
  destruct (filter _ _) as [|m ms] eqn:E; [by left|]. right. exists m. split; [|done].
  assert (m ∈ m :: ms) as H by by left. rewrite <- E in H.
  by apply list_elem_of_filter in H as [_ ?].
Qed.

Lemma wf_updater n t : tuple_wf n t -> forall d, updater t = Some d -> known d.
Proof.
  intros Hw d. unfold updater. case_match; [done|]. case_match; intros [= <-].
  - destruct (update_xid_member t) as [->|(m & Hm & ->)]; [apply invalid_known|].
    by eapply wf_members.
  - by apply (wf_xmax n t Hw).
Qed.

Lemma ins_committed_mono n m t : known (t_xmin t) -> (n <= m)%nat ->
  ins_st n t = XCommitted -> ins_st m t = XCommitted.
Proof. unfold ins_st. case_match; [done|]. apply xst_committed_mono. Qed.

Lemma del_mono n m t : tuple_wf n t -> (n <= m)%nat ->
  (del_st n t = XCommitted -> del_st m t = XCommitted) /\
  (del_st n t = XAborted -> del_st m t = XAborted).
Proof.
  intros Hwf Hn. unfold del_st. destruct (updater t) as [d|] eqn:E; [|done].
  pose proof (wf_updater n t Hwf d E) as Hk.
  split; [by apply xst_committed_mono|by apply xst_aborted_mono].
Qed.

Lemma tuple_wf_mono n m t : tuple_wf n t -> (n <= m)%nat -> tuple_wf m t.
Proof.
  intros Hwf Hn. destruct Hwf as [H1 H2 H3 H4 Hm H5 H6 H7]. split; try done.
  intros Hc d Hd. rewrite xst_current in Hc.
  destruct (H5 (proj2 (xst_current n _) Hc) d Hd) as [H|H].
  - left. by apply xst_current, (xst_current n).
  - right. eapply xst_aborted_mono; [|exact Hn|done].
    eapply (wf_updater n); [|done]. by split.
Qed.

Lemma hint_ok_mono n m t : tuple_wf n t -> hint_ok n t -> (n <= m)%nat -> hint_ok m t.
Proof.
  intros Hwf [H1 H2 H3 H4] Hn. pose proof (wf_xmin n t Hwf) as Hx. split.
  - intros H. eapply ins_committed_mono; eauto.
  - intros H. eapply xst_aborted_mono; eauto.
  - intros H d Hd. destruct (H3 H d Hd) as [? Hc]. split; [done|].
    eapply xst_committed_mono; eauto using wf_updater.
  - intros H. by apply (del_mono n m t Hwf Hn), H4.
Qed.

Lemma tuple_wf_hinted n t t' : tuple_wf n t -> hinted_from t t' -> tuple_wf n t'.
Proof.
  intros [H1 H2 H3 H4 Hm H5 H6 H7] H.
  destruct (hinted_same t t' H) as (Ex & Em & _ & Eu & EM & _ & Eo & Ei & En & Ec & _).
  split; rewrite ?Ex, ?Em, ?Eu, ?EM, ?Eo, ?Ei, ?En, ?Ec; done.
Qed.

(** ** Setting a hint bit that tells the truth *)

Lemma or_has f t g : has (t_infomask (or_infomask f t)) g =
  has (t_infomask t) g || has f g.
Proof. cbn [or_infomask t_infomask]. apply has_lor. Qed.

Lemma hinted_from_or f t :
  Z.land f (Z.lnot (Z.lor HEAP_XMIN_FROZEN (Z.lor HEAP_XMAX_COMMITTED HEAP_XMAX_INVALID))) = 0 ->
  HeapTupleHeaderXminFrozen (or_infomask f t) = HeapTupleHeaderXminFrozen t ->
  hinted_from t (or_infomask f t).
Proof. intros H1 H2. split; [by exists f|done]. Qed.

Ltac hint_bits := rewrite ?XminFrozen_spec, ?XminInvalid_spec, ?or_has in *.

Lemma set_xmin_committed n t : hint_ok n t ->
  HeapTupleHeaderXminCommitted t = false -> HeapTupleHeaderXminInvalid t = false ->
  xst n (t_xmin t) = XCommitted ->
  hint_ok n (or_infomask HEAP_XMIN_COMMITTED t) /\
  hinted_from t (or_infomask HEAP_XMIN_COMMITTED t).
Proof.
  intros [H1 H2 H3 H4] Hc Hi Hx. unfold HeapTupleHeaderXminCommitted in Hc.
  rewrite XminInvalid_spec, Hc in Hi. cbn in Hi.
  assert (hinted_from t (or_infomask HEAP_XMIN_COMMITTED t)) as Hf.
  { apply hinted_from_or; [done|]. hint_bits. by rewrite Hi, !andb_false_r. }
  split; [|done]. destruct (hinted_st t _ n Hf) as [Ei Ed].
  destruct (hinted_same t _ Hf) as (Ex & _ & _ & Eu & Em & _).
  split; rewrite ?Ei, ?Ed, ?Ex, ?Eu, ?Em, ?or_has, ?orb_false_r; try done.
  - intros _. unfold ins_st. by rewrite XminFrozen_spec, Hc, Hx.
  - hint_bits. by rewrite Hi, !andb_false_r.
Qed.

Lemma set_xmin_invalid n t : hint_ok n t ->
  HeapTupleHeaderXminCommitted t = false -> HeapTupleHeaderXminInvalid t = false ->
  xst n (t_xmin t) = XAborted ->
  hint_ok n (or_infomask HEAP_XMIN_INVALID t) /\
  hinted_from t (or_infomask HEAP_XMIN_INVALID t).
Proof.
  intros [H1 H2 H3 H4] Hc Hi Hx. unfold HeapTupleHeaderXminCommitted in Hc.
  assert (hinted_from t (or_infomask HEAP_XMIN_INVALID t)) as Hf.
  { apply hinted_from_or; [done|]. hint_bits. by rewrite Hc. }
  split; [|done]. destruct (hinted_st t _ n Hf) as [Ei Ed].
  destruct (hinted_same t _ Hf) as (Ex & _ & _ & Eu & Em & _).
  split; rewrite ?Ei, ?Ed, ?Ex, ?Eu, ?Em, ?or_has, ?orb_false_r; try done.
Qed.

Lemma frozen_or_xmax f t :
  has f HEAP_XMIN_COMMITTED = false -> has f HEAP_XMIN_INVALID = false ->
  HeapTupleHeaderXminFrozen (or_infomask f t) = HeapTupleHeaderXminFrozen t /\
  HeapTupleHeaderXminInvalid (or_infomask f t) = HeapTupleHeaderXminInvalid t.
Proof. intros H1 H2. hint_bits. by rewrite H1, H2, !orb_false_r. Qed.

Lemma set_xmax_committed n t d : hint_ok n t ->
  updater t = Some d -> has (t_infomask t) HEAP_XMAX_IS_MULTI = false ->
  xst n d = XCommitted ->
  hint_ok n (or_infomask HEAP_XMAX_COMMITTED t) /\
  hinted_from t (or_infomask HEAP_XMAX_COMMITTED t).
Proof.
  intros [H1 H2 H3 H4] Hu Hm Hx.
  destruct (frozen_or_xmax HEAP_XMAX_COMMITTED t eq_refl eq_refl) as [Ff Fi].
  assert (hinted_from t (or_infomask HEAP_XMAX_COMMITTED t)) as Hf by by apply hinted_from_or.
  split; [|done]. destruct (hinted_st t _ n Hf) as [Ei Ed].
  destruct (hinted_same t _ Hf) as (Ex & _ & _ & Eu & Em & _).
  split; rewrite ?Ei, ?Ed, ?Ex, ?Eu, ?Em, ?Fi, ?or_has, ?orb_false_r; try done.
  - intros _ d' Hd. rewrite Hu in Hd. by injection Hd as <-.
Qed.

Lemma set_xmax_invalid n t : hint_ok n t -> del_st n t = XAborted ->
  hint_ok n (or_infomask HEAP_XMAX_INVALID t) /\
  hinted_from t (or_infomask HEAP_XMAX_INVALID t).
Proof.
  intros [H1 H2 H3 H4] Hx.
  destruct (frozen_or_xmax HEAP_XMAX_INVALID t eq_refl eq_refl) as [Ff Fi].
  assert (hinted_from t (or_infomask HEAP_XMAX_INVALID t)) as Hf by by apply hinted_from_or.
  split; [|done]. destruct (hinted_st t _ n Hf) as [Ei Ed].
  destruct (hinted_same t _ Hf) as (Ex & _ & _ & Eu & Em & _).
  split; rewrite ?Ei, ?Ed, ?Ex, ?Eu, ?Em, ?Fi, ?or_has, ?orb_false_r; try done.
Qed.

End Fates.

(** ** Weakest preconditions *)

Section Wp.
Context `{env : XactEnv} `{laws : !XactLaws env}.

Definition wp {R A} (m : M R A) (Q : outcome R A -> vstate -> Prop) (s : vstate) : Prop :=
  Q (m s).1 (m s).2.

Definition tick (s : vstate) : vstate :=
  {| clock := S (clock s); tup := tup s; snap := snap s; hinted := hinted s |}.

(** Sound state, and the states reachable from it by hinting and waiting. *)
Definition ready (s : vstate) : Prop :=
  tuple_wf (clock s) (tup s) /\ hint_ok (clock s) (tup s).

Record later (s s' : vstate) : Prop := {
  later_clock : (clock s <= clock s')%nat;
  later_tuple : hinted_from (tup s) (tup s');
  later_ready : ready s' }.

Lemma later_refl s : ready s -> later s s.
Proof. intros H. split; [done|apply hinted_from_refl|done]. Qed.

Lemma later_trans s1 s2 s3 : later s1 s2 -> later s2 s3 -> later s1 s3.
Proof. intros [] []. split; [lia|by eapply hinted_from_trans|done]. Qed.

Lemma ready_tick s : ready s -> ready (tick s).
Proof.
  intros [Hw Hh]. assert (clock s <= clock (tick s))%nat by (cbn; lia).
  split; [by eapply tuple_wf_mono|by eapply hint_ok_mono].
Qed.

Lemma later_tick s s' : later s s' -> later s (tick s').
Proof.
  intros H. apply (later_trans s s'); [done|]. destruct H as [_ _ Hr].
  split; [cbn; lia|apply hinted_from_refl|by apply ready_tick].
Qed.

Lemma vis_wp_bind {R A B} (m : M R A) (k : A -> M R B) Q s :
  wp m (fun o s' => match o with
                    | Cont a => wp (k a) Q s'
                    | Return r => Q (Return r) s'
                    | Raise e => Q (Raise e) s'
                    end) s ->
  wp (mbind m k) Q s.
Proof. unfold wp, mbind. by destruct (m s) as [[a|r|e] s']. Qed.

Lemma wp_ext {R A} (m m' : M R A) Q s : m s = m' s -> wp m' Q s -> wp m Q s.
Proof. unfold wp. by intros ->. Qed.

Lemma vis_wp_ret {R A} (a : A) (Q : outcome R A -> vstate -> Prop) s :
  Q (Cont a) s -> wp (mret a) Q s.
Proof. done. Qed.

Lemma wp_return {R A} (r : R) (Q : outcome R A -> vstate -> Prop) s :
  Q (Return r) s -> wp (return_ r) Q s.
Proof. done. Qed.

Lemma wp_get_tuple {R} (Q : outcome R HeapTupleHeaderData -> vstate -> Prop) s :
  Q (Cont (tup s)) s -> wp get_tuple Q s.
Proof. done. Qed.

Lemma wp_get_snapshot {R} (Q : outcome R SnapshotData -> vstate -> Prop) s :
  Q (Cont (snap s)) s -> wp get_snapshot Q s.
Proof. done. Qed.

Definition with_snap (f : SnapshotData -> SnapshotData) (s : vstate) : vstate :=
  {| clock := clock s; tup := tup s; snap := f (snap s); hinted := hinted s |}.

Lemma wp_set_snapshot {R} f (Q : outcome R unit -> vstate -> Prop) s :
  Q (Cont tt) (with_snap f s) -> wp (set_snapshot f) Q s.
Proof. done. Qed.

Lemma wp_elim {R A} (m : M R A) Q s : wp m Q s -> Q (m s).1 (m s).2.
Proof. done. Qed.

Lemma vis_wp_mono {R A} (m : M R A) (P Q : outcome R A -> vstate -> Prop) s :
  wp m P s -> (forall o s', P o s' -> Q o s') -> wp m Q s.
Proof. unfold wp. auto. Qed.

Lemma wp_in_progress {R} x (Q : outcome R bool -> vstate -> Prop) s :
  (xst (clock s) x = XCurrent \/ xst (clock s) x = XInProgress -> Q (Cont true) (tick s)) ->
  (settled (xst (clock s) x) -> Q (Cont false) (tick s)) ->
  wp (TransactionIdIsInProgress x) Q s.
Proof.
  intros H1 H2. unfold wp, TransactionIdIsInProgress, ask. cbn.
  destruct (in_progress (clock s) x) eqn:E.
  - by apply H1, in_progress_true.
  - by apply H2, settled_spec.
Qed.

Lemma wp_did_commit {R} x (Q : outcome R bool -> vstate -> Prop) s :
  settled (xst (clock s) x) ->
  (xst (clock s) x = XCommitted -> Q (Cont true) (tick s)) ->
  (xst (clock s) x = XAborted -> Q (Cont false) (tick s)) ->
  wp (TransactionIdDidCommit x) Q s.
Proof.
  intros Hs H1 H2. unfold wp, TransactionIdDidCommit, ask. cbn.
  destruct (did_commit (clock s) x) eqn:E.
  - by apply H1, did_commit_true.
  - by apply H2, did_commit_false.
Qed.

(** A hint bit that tells the truth may be set or not; either way the state
    stays sound. *)
Lemma wp_SetHintBits {R} f x (Q : outcome R unit -> vstate -> Prop) s :
  ready s ->
  hint_ok (clock s) (or_infomask f (tup s)) /\ hinted_from (tup s) (or_infomask f (tup s)) ->
  (forall s', later s s' -> snap s' = snap s -> Q (Cont tt) s') ->
  wp (SetHintBits f x) Q s.
Proof.
  intros Hr [Hok Hf] HQ.
  assert (forall s', (clock s <= clock s')%nat -> snap s' = snap s ->
            tup s' = tup s \/ tup s' = or_infomask f (tup s) -> Q (Cont tt) s') as H.
  { intros s' Hc Hs Ht. apply HQ; [|done]. destruct Hr as [Hw Hh].
    destruct Ht as [Ht|Ht]; split; unfold ready; rewrite ?Ht; try done.
    - apply hinted_from_refl.
    - split; [by eapply tuple_wf_mono|by eapply hint_ok_mono].
    - pose proof (tuple_wf_hinted _ _ _ Hw Hf) as Hw'.
      split; [by eapply tuple_wf_mono|by eapply hint_ok_mono]. }
  unfold wp, SetHintBits, XLogNeedsFlush, ask, mbind, mret, skip.
  repeat (case_match; cbn in *; simplify_eq/=); try (by apply H; cbn; auto with lia).
  all: cbn in *; repeat case_match; simplify_eq/=; apply H; cbn; auto with lia.
Qed.

(** [MultiXactIdIsRunning]: a yes names a running member at some moment of the
    call, a no means that every member is settled. *)
Lemma wp_any_in_progress {R} ms (Q : outcome R bool -> vstate -> Prop) s :
  ready s -> (forall m, m ∈ ms -> known m.1) ->
  (forall m s', later s s' -> snap s' = snap s -> tup s' = tup s -> m ∈ ms ->
     xst (clock s') m.1 = XCurrent \/ xst (clock s') m.1 = XInProgress ->
     Q (Cont true) (tick s')) ->
  (forall s', later s s' -> snap s' = snap s -> tup s' = tup s ->
     (forall m, m ∈ ms -> settled (xst (clock s') m.1)) -> Q (Cont false) s') ->
  wp (any_in_progress ms) Q s.
Proof.
  revert s. induction ms as [|m ms IH]; intros s Hr Hk HT HF; cbn.
  - apply HF; [by apply later_refl|done|done|]. by intros m ?%elem_of_nil.
  - apply vis_wp_bind, wp_in_progress.
    + intros H. unfold wp, mret. cbn. apply (HT m s); [by apply later_refl|done|done| |done].
      by apply elem_of_cons; left.
    + intros Hm. pose proof (later_tick s s (later_refl s Hr)) as Hl.
      apply IH; [by apply ready_tick|intros; apply Hk; by right| |].
      * intros m' s' Hl' Hs Ht Hin H. eapply HT; [by eapply later_trans|done|done| |done].
        by right.
      * intros s' Hl' Hs Ht H. apply HF; [by eapply later_trans|done|done|].
        intros m' [->|Hin]%elem_of_cons; [|by apply H].
        assert (clock s <= clock s')%nat by (destruct Hl'; cbn in *; lia).
        rewrite (xst_mono (clock s)); [done|apply Hk; by left|done|done].
Qed.

Lemma wp_MultiXactIdIsRunning {R} multi b (Q : outcome R bool -> vstate -> Prop) s :
  ready s -> (forall m, m ∈ GetMultiXactIdMembers multi b -> known m.1) ->
  (forall m s' s'', later s s' -> later s' s'' -> snap s'' = snap s -> tup s'' = tup s ->
     m ∈ GetMultiXactIdMembers multi b ->
     xst (clock s') m.1 = XCurrent \/ xst (clock s') m.1 = XInProgress ->
     Q (Cont true) s'') ->
  (forall s', later s s' -> snap s' = snap s -> tup s' = tup s ->
     (forall m, m ∈ GetMultiXactIdMembers multi b -> settled (xst (clock s') m.1)) ->
     Q (Cont false) s') ->
  wp (MultiXactIdIsRunning multi b) Q s.
Proof.
  intros Hr Hk HT HF. unfold MultiXactIdIsRunning.
  destruct (existsb _ _) eqn:E.
  - apply existsb_exists in E as (m & Hin & Hc). unfold wp, mret. cbn.
    eapply (HT m s s); try done; [by apply later_refl|by apply later_refl| |].
    + by apply list_elem_of_In.
    + left. by apply xst_current.
  - apply wp_any_in_progress; [done|done| |done].
    intros m s' Hl Hs Ht Hin H.
    eapply (HT m s' (tick s')); try done. apply later_tick, later_refl, Hl.
Qed.

End Wp.

#[global] Opaque wp.

(** A condition of the code: one that is already known is rewritten. *)
Ltac vcase b :=
  lazymatch b with
  | negb ?c => vcase c
  | true => idtac
  | false => idtac
  | _ =>
      lazymatch goal with
      | H : b = _ |- _ => rewrite H
      | _ => let E := fresh "Heqb" in case_eq b; intros E
      end
  end; cbn [negb]; cbv beta iota.

(** One step of symbolic execution. *)
Ltac vstep :=
  lazymatch goal with
  | |- wp (mbind (TransactionIdIsInProgress _) _) _ _ => fail
  | |- wp (mbind (SetHintBits _ _) _) _ _ => fail
  | |- wp (mbind _ _) _ _ => apply vis_wp_bind
  | |- wp get_tuple _ _ => apply wp_get_tuple; cbv beta iota
  | |- wp get_snapshot _ _ => apply wp_get_snapshot; cbv beta iota
  | |- wp (return_ _) _ _ => apply wp_return; cbv beta iota
  | |- wp (mret _) _ _ => apply vis_wp_ret; cbv beta iota
  | |- wp skip _ _ => apply vis_wp_ret; cbv beta iota
  | |- wp (match ?b with true => _ | false => _ end) _ _ => vcase b
  end.

Section Xmin.
Context `{env : XactEnv} `{laws : !XactLaws env}.

(** ** The part of a routine that settles [xmin]

    Five routines share it; they differ in the answers, in what they do with a
    tuple of their own transaction and in what they do while the inserting
    transaction runs. *)
Definition xmin_pattern {R} (moved : M R unit -> M R unit) (gone : R) (own : M R unit)
  (running : HeapTupleHeaderData -> M R unit) : M R unit :=
  let! t := get_tuple in
  if negb (HeapTupleHeaderXminCommitted t) then
    if HeapTupleHeaderXminInvalid t then return_ gone
    else moved
      (if TransactionIdIsCurrentTransactionId (HeapTupleHeaderGetRawXmin t) then own
       else
         let! p := TransactionIdIsInProgress (HeapTupleHeaderGetRawXmin t) in
         if p then running t
         else
           let! c := TransactionIdDidCommit (HeapTupleHeaderGetRawXmin t) in
           if c then SetHintBits HEAP_XMIN_COMMITTED (HeapTupleHeaderGetRawXmin t)
           else SetHintBits HEAP_XMIN_INVALID InvalidTransactionId ;! return_ gone)
  else skip.

Definition skips_moved {R} (moved : M R unit -> M R unit) : Prop := forall m s,
  has (t_infomask (tup s)) HEAP_MOVED_OFF = false ->
  has (t_infomask (tup s)) HEAP_MOVED_IN = false -> moved m s = m s.

Lemma moved_or_skips {R} run (gone : R) : skips_moved (moved_or run gone).
Proof. intros m s H1 H2. unfold moved_or, mbind, get_tuple. cbn -[has]. by rewrite H1, H2. Qed.

Lemma Vacuum_moved_skips : skips_moved Vacuum_moved.
Proof. intros m s H1 H2. unfold Vacuum_moved, mbind, get_tuple. cbn -[has]. by rewrite H1, H2. Qed.

Lemma not_frozen t : HeapTupleHeaderXminCommitted t = false -> HeapTupleHeaderXminFrozen t = false.
Proof. rewrite XminFrozen_spec. unfold HeapTupleHeaderXminCommitted. by intros ->. Qed.

Lemma wp_hint_xmin {R} n (gone : R) (c : bool) (Q : outcome R unit -> vstate -> Prop) s :
  ready s -> (n <= clock s)%nat ->
  HeapTupleHeaderXminCommitted (tup s) = false -> HeapTupleHeaderXminInvalid (tup s) = false ->
  xst n (t_xmin (tup s)) = (if c then XCommitted else XAborted) ->
  (forall s', later s s' -> snap s' = snap s ->
     if c then ins_st (clock s') (tup s') = XCommitted -> Q (Cont tt) s'
     else ins_st (clock s') (tup s') = XAborted -> Q (Return gone) s') ->
  wp (if c then SetHintBits HEAP_XMIN_COMMITTED (HeapTupleHeaderGetRawXmin (tup s))
      else SetHintBits HEAP_XMIN_INVALID InvalidTransactionId ;! return_ gone) Q s.
Proof.
  intros Hr Hn Hc Hi Hx HQ. pose proof Hr as [Hw Hh].
  assert (xst (clock s) (t_xmin (tup s)) = if c then XCommitted else XAborted) as Hx'.
  { rewrite (xst_mono n); [done|apply (wf_xmin _ _ Hw)|done|]. rewrite Hx.
    destruct c; [by left|by right]. }
  assert (forall s', later s s' -> ins_st (clock s') (tup s') = if c then XCommitted else XAborted)
    as Hins.
  { intros s' [Hc' Hf _]. rewrite (proj1 (hinted_st _ _ _ Hf)). unfold ins_st.
    rewrite (not_frozen _ Hc). rewrite (xst_mono (clock s)); [done|apply (wf_xmin _ _ Hw)|done|].
    rewrite Hx'. destruct c; [by left|by right]. }
  destruct c.
  - apply wp_SetHintBits; [done|by apply set_xmin_committed|].
    intros s' Hl Hs. apply (HQ s' Hl Hs). by apply Hins.
  - apply vis_wp_bind, wp_SetHintBits; [done|by apply set_xmin_invalid|].
    intros s' Hl Hs. vstep. apply (HQ s' Hl Hs). by apply Hins.
Qed.

Lemma wp_xmin {R} moved (gone : R) own running (Q : outcome R unit -> vstate -> Prop) s :
  skips_moved moved -> ready s ->
  (forall s', later s s' -> snap s' = snap s ->
     ins_st (clock s') (tup s') = XAborted -> Q (Return gone) s') ->
  (ins_st (clock s) (tup s) = XCurrent -> wp own Q s) ->
  (ins_st (clock s) (tup s) = XInProgress -> wp (running (tup s)) Q (tick s)) ->
  (forall s', later s s' -> snap s' = snap s ->
     ins_st (clock s') (tup s') = XCommitted -> Q (Cont tt) s') ->
  wp (xmin_pattern moved gone own running) Q s.
Proof.
  intros Hm Hr HA HO HP HC. pose proof Hr as [Hw Hh]. unfold xmin_pattern.
  pose proof (later_refl s Hr) as Hl. pose proof (ready_tick s Hr) as Hrt.
  do 3 vstep.
  1:{ vstep. apply HC; [done|done|]. by apply (ok_xmin_committed _ _ Hh). }
  rename Heqb into Hcb. pose proof (not_frozen _ Hcb) as HF.
  assert (forall n, ins_st n (tup s) = xst n (t_xmin (tup s))) as Hins.
  { intros n. unfold ins_st. by rewrite HF. }
  vstep.
  - vstep. apply HA; [done|done|]. rewrite Hins. by apply (ok_xmin_invalid _ _ Hh).
  - eapply wp_ext; [apply Hm; apply Hw|].
    unfold HeapTupleHeaderGetRawXmin at 1 2 3 4.
    vstep.
    { apply HO. rewrite Hins. by apply xst_current. }
    apply vis_wp_bind, wp_in_progress.
    + intros [H|H]; [|by apply HP; rewrite Hins].
      apply xst_current in H. unfold HeapTupleHeaderGetRawXmin in *. congruence.
    + intros H. vstep.
      assert (xst (clock (tick s)) (t_xmin (tup s)) = xst (clock s) (t_xmin (tup s))) as E
        by (apply xst_mono; [apply (wf_xmin _ _ Hw)|cbn; lia|done]).
      assert (forall s', later (tick (tick s)) s' -> later s s') as Htr.
      { intros s'. apply later_trans. by do 2 apply later_tick. }
      apply wp_did_commit; [by rewrite E|..]; rewrite E; intros Hx;
        [apply (wp_hint_xmin (clock s) gone true _ (tick (tick s)))
        |apply (wp_hint_xmin (clock s) gone false _ (tick (tick s)))]; try done;
        try (by apply ready_tick); try (cbn; lia).
      * intros s' Hl' Hs Hi. apply HC; auto.
      * intros s' Hl' Hs Hi. apply HA; auto.
Qed.

End Xmin.

(** ** Answers *)

Section Answers.
Context `{env : XactEnv} `{laws : !XactLaws env}.

(** A routine started in [s] ends without error in a sound state, and its
    answer is right at some moment [k] of the call. *)
Definition answer {R} (P : nat -> HeapTupleHeaderData -> R -> SnapshotData -> Prop)
  (s : vstate) (o : outcome R R) (s' : vstate) : Prop :=
  later s s' /\
  match o with
  | Cont r | Return r => exists k, (clock s <= k <= clock s')%nat /\ P k (tup s) r (snap s')
  | Raise _ => False
  end.

Definition hint_blind {R} (P : nat -> HeapTupleHeaderData -> R -> SnapshotData -> Prop) : Prop :=
  forall k t t' r sn, hinted_from t t' -> P k t' r sn -> P k t r sn.

Lemma answer_at {R} P (s s' : vstate) (r : R) :
  later s s' -> P (clock s) (tup s) r (snap s') -> answer P s (Return r) s'.
Proof.
  intros Hl HP. split; [done|]. exists (clock s). split; [|done]. destruct Hl. lia.
Qed.

(** An answer given by the second part of a routine. *)
Lemma answer_later {R} P (s s1 s' : vstate) (o : outcome R R) :
  hint_blind P -> later s s1 -> answer P s1 o s' -> answer P s o s'.
Proof.
  intros HP Hl [Hl' Ho]. split; [by eapply later_trans|]. destruct Hl as [Hc Hf _].
  destruct o; try done; destruct Ho as (k & Hk & H);
    (exists k; split; [lia|by eapply HP]).
Qed.

(** An answer given early by the first part. *)
Lemma answer_early {R} P (s s1 : vstate) (r : R) :
  hint_blind P -> later s s1 -> P (clock s1) (tup s1) r (snap s1) -> answer P s (Return r) s1.
Proof.
  intros HP Hl H. apply (answer_later P s s1 s1); [done|done|].
  apply answer_at; [|done]. by apply later_refl, Hl.
Qed.

(** Asking for the fate of [x] in the order the code does. *)
Lemma vis_wp_fate {R A} x (kp : M R A) (kc : bool -> M R A) Q s :
  known x -> ready s ->
  (TransactionIdIsCurrentTransactionId x = true \/ xst (clock s) x = XInProgress ->
     wp kp Q (tick s)) ->
  (xst (clock s) x = XCommitted -> wp (kc true) Q (tick (tick s))) ->
  (xst (clock s) x = XAborted -> wp (kc false) Q (tick (tick s))) ->
  wp (let! p := TransactionIdIsInProgress x in
      if p then kp else let! c := TransactionIdDidCommit x in kc c) Q s.
Proof.
  intros Hk Hr HP HC HA. apply vis_wp_bind, wp_in_progress.
  - intros [H|H]; apply HP; [left; by apply (xst_current (clock s))|by right].
  - intros Hs. vstep.
    assert (xst (clock (tick s)) x = xst (clock s) x) as E
      by (apply xst_mono; [done|cbn; lia|done]).
    apply wp_did_commit; rewrite E; auto.
Qed.

Lemma locked_only_updater t : HEAP_XMAX_IS_LOCKED_ONLY (t_infomask t) = true ->
  updater t = None /\ forall n, del_st n t = XAborted.
Proof. intros H. unfold del_st, updater. by rewrite H. Qed.

(** With the lock test negative, the updater is what the code looks at. *)
Lemma not_locked_updater t : HEAP_XMAX_IS_LOCKED_ONLY (t_infomask t) = false ->
  (has (t_infomask t) HEAP_XMAX_IS_MULTI = true ->
     updater t = Some (HeapTupleGetUpdateXid t) /\
     forall n, del_st n t = xst n (HeapTupleGetUpdateXid t)) /\
  (has (t_infomask t) HEAP_XMAX_IS_MULTI = false ->
     updater t = Some (t_xmax t) /\ forall n, del_st n t = xst n (t_xmax t)).
Proof. intros H. unfold del_st, updater. rewrite H. by split; intros ->. Qed.

End Answers.

#[export] Hint Resolve later_tick later_refl ready_tick : vis.
#[export] Hint Resolve later_trans : vis_trans.

Section XmaxHints.
Context `{env : XactEnv} `{laws : !XactLaws env}.

(** Recording the fate of the deleter, known since the state [s0]. *)
Lemma wp_xmax_invalid {R} (Q : outcome R unit -> vstate -> Prop) s0 s :
  ready s0 -> later s0 s -> del_st (clock s0) (tup s0) = XAborted ->
  (forall s', later s0 s' -> snap s' = snap s -> Q (Cont tt) s') ->
  wp (SetHintBits HEAP_XMAX_INVALID InvalidTransactionId) Q s.
Proof.
  intros [Hw0 _] Hl Hd HQ. apply wp_SetHintBits; [apply Hl| |].
  - apply set_xmax_invalid; [apply Hl|]. rewrite (proj2 (hinted_st _ _ _ (later_tuple _ _ Hl))).
    by apply (del_mono (clock s0)); [|apply Hl|].
  - intros s' Hl' Hs. apply HQ; [by eapply later_trans|done].
Qed.

Lemma wp_xmax_committed {R} (Q : outcome R unit -> vstate -> Prop) s0 s :
  ready s0 -> later s0 s ->
  HEAP_XMAX_IS_LOCKED_ONLY (t_infomask (tup s0)) = false ->
  has (t_infomask (tup s0)) HEAP_XMAX_IS_MULTI = false ->
  xst (clock s0) (t_xmax (tup s0)) = XCommitted ->
  (forall s', later s0 s' -> snap s' = snap s -> Q (Cont tt) s') ->
  wp (SetHintBits HEAP_XMAX_COMMITTED (HeapTupleHeaderGetRawXmax (tup s0))) Q s.
Proof.
  intros [Hw0 _] Hl HL HM Hx HQ.
  destruct (hinted_same _ _ (later_tuple _ _ Hl)) as (_ & Ex & _ & Eu & EM & EL & _).
  destruct (not_locked_updater (tup s0) HL) as [_ HU]. destruct (HU HM) as [Hu _].
  apply wp_SetHintBits; [apply Hl| |].
  - apply set_xmax_committed with (t_xmax (tup s0)); [apply Hl|by rewrite Eu|by rewrite EM|].
    eapply xst_committed_mono; [by apply (wf_xmax _ _ Hw0)|apply Hl|done].
  - intros s' Hl' Hs. apply HQ; [by eapply later_trans|done].
Qed.

Lemma wp_hint_xmax_invalid {R A} (k : M R A) Q s0 s :
  ready s0 -> later s0 s -> del_st (clock s0) (tup s0) = XAborted ->
  (forall s', later s0 s' -> snap s' = snap s -> wp k Q s') ->
  wp (SetHintBits HEAP_XMAX_INVALID InvalidTransactionId ;! k) Q s.
Proof. intros. by apply vis_wp_bind, (wp_xmax_invalid _ s0). Qed.

Lemma wp_hint_xmax_committed {R A} (k : M R A) Q s0 s :
  ready s0 -> later s0 s ->
  HEAP_XMAX_IS_LOCKED_ONLY (t_infomask (tup s0)) = false ->
  has (t_infomask (tup s0)) HEAP_XMAX_IS_MULTI = false ->
  xst (clock s0) (t_xmax (tup s0)) = XCommitted ->
  (forall s', later s0 s' -> snap s' = snap s -> wp k Q s') ->
  wp (SetHintBits HEAP_XMAX_COMMITTED (HeapTupleHeaderGetRawXmax (tup s0)) ;! k) Q s.
Proof. intros. by apply vis_wp_bind, (wp_xmax_committed _ s0). Qed.

Lemma fate_of_current n x : TransactionIdIsCurrentTransactionId x = true -> xst n x = XCurrent.
Proof. apply xst_current. Qed.

Lemma not_current n x : TransactionIdIsCurrentTransactionId x = false ->
  (TransactionIdIsCurrentTransactionId x = true \/ xst n x = XInProgress) -> xst n x = XInProgress.
Proof. intros E [H|H]; [congruence|done]. Qed.

End XmaxHints.

Section Self.
Context `{env : XactEnv} `{laws : !XactLaws env}.

Definition self_answer (sn0 : SnapshotData) (k : nat) t (r : bool) sn : Prop :=
  r = self_spec k t /\ sn = sn0.

Lemma self_blind sn0 : hint_blind (self_answer sn0).
Proof.
  intros k t t' r sn Hf [-> ->]. split; [|done]. unfold self_spec.
  by destruct (hinted_st t t' k Hf) as [-> ->].
Qed.

Lemma wp_Self_xmax s :
  ready s -> ins_st (clock s) (tup s) = XCommitted ->
  wp Self_xmax (answer (self_answer (snap s)) s) s.
Proof.
  intros Hr Hi. pose proof Hr as [Hw Hh].
  assert (forall r s', later s s' -> snap s' = snap s ->
    r = match del_st (clock s) (tup s) with XCurrent | XCommitted => false | _ => true end ->
    answer (self_answer (snap s)) s (Return r) s') as HQ.
  { intros r s' Hl Hs Hd. apply answer_at; [done|]. split; [|done].
    unfold self_spec. by rewrite Hi. }
  unfold Self_xmax, HeapTupleHeaderGetRawXmax. do 3 vstep.
  { vstep. apply HQ; [auto with vis|done|]. by rewrite (ok_xmax_invalid _ _ Hh). }
  destruct (HEAP_XMAX_IS_LOCKED_ONLY (t_infomask (tup s))) eqn:EL.
  - destruct (locked_only_updater _ EL) as [Hu Hd].
    repeat vstep; try (apply HQ; [auto with vis|done|by rewrite Hd]).
    assert (forall s', later s s' -> snap s' = snap s ->
      answer (self_answer (snap s)) s (Return true) s') as HT.
    { intros s' Hl Hs. apply HQ; [done|done|by rewrite Hd]. }
    apply vis_wp_fate; [by apply (wf_xmax _ _ Hw)|done|..]; intros; repeat vstep;
      try (apply HT; [auto with vis|done]);
      (eapply wp_hint_xmax_invalid; [exact Hr|auto with vis|apply Hd|]);
      intros s' Hl Hs; vstep; by apply HT.
  - destruct (not_locked_updater _ EL) as [HM HN].
    destruct (has (t_infomask (tup s)) HEAP_XMAX_IS_MULTI) eqn:EM.
    + destruct (HM eq_refl) as [Hu Hd]. 
      repeat vstep.
      { destruct (ok_xmax_committed _ _ Hh Heqb0 _ Hu). congruence. }
      { apply HQ; [auto with vis|done|]. by rewrite Hd, (fate_of_current _ _ Heqb1). }
      apply vis_wp_fate; [by apply (wf_updater _ _ Hw)|done|..]; intros Hf; repeat vstep;
        (apply HQ; [auto with vis|done|rewrite Hd]).
      * by rewrite (not_current _ _ Heqb1 Hf).
      * by rewrite Hf.
      * by rewrite Hf.
    + destruct (HN eq_refl) as [Hu Hd].
      repeat vstep.
      { apply HQ; [auto with vis|done|]. rewrite Hd.
        by destruct (ok_xmax_committed _ _ Hh Heqb0 _ Hu) as [_ ->]. }
      { apply HQ; [auto with vis|done|]. by rewrite Hd, (fate_of_current _ _ Heqb1). }
      apply vis_wp_fate; [by apply (wf_xmax _ _ Hw)|done|..]; intros Hf; repeat vstep.
      * apply HQ; [auto with vis|done|]. by rewrite Hd, (not_current _ _ Heqb1 Hf).
      * eapply wp_hint_xmax_committed; [done|auto with vis|done|done|done|].
        intros s' Hl Hs. vstep. apply HQ; [done|done|]. by rewrite Hd, Hf.
      * eapply wp_hint_xmax_invalid; [done|auto with vis|by rewrite Hd|].
        intros s' Hl Hs. vstep. apply HQ; [done|done|]. by rewrite Hd, Hf.
Qed.

(** A tuple of the running transaction: its deleter is the running
    transaction or an aborted part of it. *)
Lemma own_del s : ready s -> ins_st (clock s) (tup s) = XCurrent ->
  TransactionIdIsCurrentTransactionId (t_xmin (tup s)) = true /\
  forall d, updater (tup s) = Some d ->
    (TransactionIdIsCurrentTransactionId d = true -> xst (clock s) d = XCurrent) /\
    (TransactionIdIsCurrentTransactionId d = false -> xst (clock s) d = XAborted).
Proof.
  intros [Hw _] Hi. unfold ins_st in Hi. case_match; [done|].
  split; [by apply (xst_current (clock s))|]. intros d Hd.
  split; [apply fate_of_current|]. intros E.
  destruct (wf_own _ _ Hw Hi d Hd) as [H1|H1]; [|done].
  apply xst_current in H1. congruence.
Qed.

Lemma wp_Self_own {A} (Q : outcome bool A -> vstate -> Prop) s :
  ready s -> ins_st (clock s) (tup s) = XCurrent ->
  (forall r s', later s s' -> snap s' = snap s -> r = self_spec (clock s) (tup s) ->
     Q (Return r) s') ->
  wp Self_own Q s.
Proof.
  intros Hr Hi HQ'. pose proof Hr as [Hw Hh]. destruct (own_del s Hr Hi) as [_ Hown].
  assert (forall r s', later s s' -> snap s' = snap s ->
    r = match del_st (clock s) (tup s) with XCurrent | XCommitted => false | _ => true end ->
    Q (Return r) s') as HQ.
  { intros r s' Hl Hs Hd. apply HQ'; [done|done|]. unfold self_spec. by rewrite Hi. }
  unfold Self_own, HeapTupleHeaderGetRawXmax. do 3 vstep.
  { vstep. apply HQ; [auto with vis|done|]. by rewrite (ok_xmax_invalid _ _ Hh). }
  vstep.
  { vstep. apply HQ; [auto with vis|done|]. by rewrite (proj2 (locked_only_updater _ Heqb0)). }
  vstep; destruct (not_locked_updater _ Heqb0) as [HM HN];
    [destruct (HM Heqb1) as [Hu Hd]|destruct (HN Heqb1) as [Hu Hd]];
    destruct (Hown _ Hu) as [HC HA]; vstep; try vstep;
    try (apply HQ; [auto with vis|done|rewrite Hd; by rewrite ?HC, ?HA by done]).
  eapply wp_hint_xmax_invalid; [exact Hr|auto with vis|by rewrite Hd, HA|].
  intros s' Hl Hs. vstep. apply HQ; [done|done|]. by rewrite Hd, HA.
Qed.

(** HeapTupleSatisfiesSelf as a whole. *)
Lemma wp_Self s :
  ready s -> wp HeapTupleSatisfiesSelf (answer (self_answer (snap s)) s) s.
Proof.
  intros Hr. apply vis_wp_bind.
  apply (wp_xmin (moved_or TransactionIdIsInProgress false) false Self_own
    (fun _ => return_ false)); [apply moved_or_skips|done|..].
  - intros s' Hl Hs Hi. apply answer_early; [apply self_blind|done|].
    split; [unfold self_spec; by rewrite Hi|done].
  - intros Hi. apply wp_Self_own; [done|done|]. intros r s' Hl Hs ->.
    apply answer_at; [done|]. by split.
  - intros Hi. vstep. apply answer_at; [auto with vis|].
    split; [unfold self_spec; by rewrite Hi|done].
  - intros s' Hl Hs Hi. rewrite <- Hs. eapply vis_wp_mono; [apply wp_Self_xmax; [apply Hl|done]|].
    intros o s'' Ho. eapply answer_later; [apply self_blind|done|done].
Qed.

End Self.

Section Dirty.
Context `{env : XactEnv} `{laws : !XactLaws env}.

Lemma later_with_snap f s s' : later s s' -> later s (with_snap f s').
Proof. intros [H1 H2 H3]. by split. Qed.

Lemma later_from_with_snap f s s' : later (with_snap f s) s' -> later s s'.
Proof. intros [H1 H2 H3]. by split. Qed.

Definition outputs (sn : SnapshotData) : Z * Z * Z := (xmin sn, xmax sn, speculativeToken sn).

Definition dirty_answer (k : nat) t (r : bool) sn : Prop :=
  (r, xmin sn, xmax sn, speculativeToken sn) = dirty_spec k t.

Lemma dirty_blind : hint_blind dirty_answer.
Proof.
  intros k t t' r sn Hf. unfold dirty_answer, dirty_spec.
  destruct (hinted_same t t' Hf) as (-> & _ & Ec & -> & _).
  unfold HeapTupleHeaderIsSpeculative, HeapTupleHeaderGetSpeculativeToken. rewrite Ec.
  by destruct (hinted_st t t' k Hf) as [-> ->].
Qed.

(** The answer once the fate [st] of the deleter is known. *)
Lemma dirty_done s s' r st :
  later s s' -> ins_st (clock s) (tup s) = XCommitted \/ ins_st (clock s) (tup s) = XCurrent ->
  del_st (clock s) (tup s) = st ->
  (r, xmin (snap s'), xmax (snap s'), speculativeToken (snap s')) =
    match st with
    | XCurrent | XCommitted => (false, 0, 0, 0)
    | XInProgress => (true, 0, default 0 (updater (tup s)), 0)
    | XAborted => (true, 0, 0, 0)
    end ->
  answer dirty_answer s (Return r) s'.
Proof.
  intros Hl Hi Hd H. apply answer_at; [done|]. unfold dirty_answer, dirty_spec.
  rewrite H, Hd. by destruct Hi as [-> | ->].
Qed.

Lemma wp_Dirty_xmax s :
  ready s -> ins_st (clock s) (tup s) = XCommitted -> outputs (snap s) = (0, 0, 0) ->
  wp Dirty_xmax (answer dirty_answer s) s.
Proof.
  intros Hr Hi Ho. pose proof Hr as [Hw Hh]. injection Ho as Hx1 Hx2 Hx3.
  assert (forall r st s', later s s' -> snap s' = snap s -> del_st (clock s) (tup s) = st ->
    st <> XInProgress ->
    r = match st with XCurrent | XCommitted => false | _ => true end ->
    answer dirty_answer s (Return r) s') as HQ.
  { intros r st s' Hl Hs Hd Hn ->. eapply dirty_done; [done|by left|done|].
    rewrite Hs, Hx1, Hx2, Hx3. by destruct st. }
  assert (forall d, updater (tup s) = Some d -> xst (clock s) d = XInProgress ->
    answer dirty_answer s (Return true) (with_snap
      (fun s => set_dirty (xmin s) d (speculativeToken s) s) (tick s))) as HP.
  { intros d Hu Hd. eapply dirty_done; [apply later_with_snap; auto with vis|by left| |].
    - unfold del_st. rewrite Hu. exact Hd.
    - cbn. by rewrite Hx1, Hx3, Hu. }
  unfold Dirty_xmax, HeapTupleHeaderGetRawXmax, set_snapshot_xmax. do 3 vstep.
  { vstep. eapply HQ; [auto with vis|done|by apply (ok_xmax_invalid _ _ Hh)|done|done]. }
  destruct (HEAP_XMAX_IS_LOCKED_ONLY (t_infomask (tup s))) eqn:EL.
  - destruct (locked_only_updater _ EL) as [Hu Hd].
    assert (forall s', later s s' -> snap s' = snap s ->
      answer dirty_answer s (Return true) s') as HT.
    { intros s' Hl Hs. by apply (HQ _ XAborted). }
    repeat vstep; try (apply HT; [auto with vis|done]).
    apply vis_wp_fate; [by apply (wf_xmax _ _ Hw)|done|..]; intros; repeat vstep;
      try (apply HT; [auto with vis|done]);
      (eapply wp_hint_xmax_invalid; [exact Hr|auto with vis|apply Hd|]);
      intros s' Hl Hs; vstep; by apply HT.
  - destruct (not_locked_updater _ EL) as [HM HN].
    destruct (has (t_infomask (tup s)) HEAP_XMAX_IS_MULTI) eqn:EM.
    + destruct (HM eq_refl) as [Hu Hd].
      repeat vstep.
      { destruct (ok_xmax_committed _ _ Hh Heqb0 _ Hu). congruence. }
      { eapply HQ; [auto with vis|done|rewrite Hd; by apply fate_of_current|done|done]. }
      apply vis_wp_fate; [by apply (wf_updater _ _ Hw)|done|..]; intros Hf; repeat vstep;
        try (eapply HQ; [auto with vis|done|rewrite Hd; exact Hf|done|done]).
      apply wp_set_snapshot. vstep. apply (HP _ Hu), (not_current _ _ Heqb1 Hf).
    + destruct (HN eq_refl) as [Hu Hd].
      repeat vstep.
      { apply (HQ _ XCommitted); [auto with vis|done| |done|done].
        rewrite Hd. apply (ok_xmax_committed _ _ Hh Heqb0 _ Hu). }
      { eapply HQ; [auto with vis|done|rewrite Hd; by apply fate_of_current|done|done]. }
      apply vis_wp_fate; [by apply (wf_xmax _ _ Hw)|done|..]; intros Hf; repeat vstep.
      * apply wp_set_snapshot. vstep. apply (HP _ Hu), (not_current _ _ Heqb1 Hf).
      * eapply wp_hint_xmax_committed; [done|auto with vis|done|done|done|].
        intros s' Hl Hs. vstep. eapply HQ; [done|done|rewrite Hd; exact Hf|done|done].
      * eapply wp_hint_xmax_invalid; [done|auto with vis|by rewrite Hd|].
        intros s' Hl Hs. vstep. eapply HQ; [done|done|rewrite Hd; exact Hf|done|done].
Qed.

Lemma wp_Dirty s : ready s -> wp HeapTupleSatisfiesDirty (answer dirty_answer s) s.
Proof.
  intros Hr. apply vis_wp_bind. unfold Dirty_xmin. apply vis_wp_bind, wp_set_snapshot.
  set (s1 := with_snap _ s).
  assert (ready s1) as Hr1 by done. assert (later s s1) as Hl1.
  { apply later_with_snap, later_refl, Hr. }
  apply (wp_xmin (moved_or TransactionIdIsInProgress false) false Self_own
    (fun t => (if HeapTupleHeaderIsSpeculative t
               then set_snapshot_token (HeapTupleHeaderGetSpeculativeToken t) else skip) ;!
              set_snapshot_xmin (HeapTupleHeaderGetRawXmin t) ;! return_ true));
    [apply moved_or_skips|done|..].
  - intros s' Hl Hs Hi. apply answer_early; [apply dirty_blind|by eapply later_trans|].
    unfold dirty_answer, dirty_spec. by rewrite Hi, Hs.
  - intros Hi. apply wp_Self_own; [done|done|]. intros r s' Hl Hs ->.
    eapply dirty_done; [by eapply later_trans|by right|reflexivity|].
    rewrite Hs. destruct (own_del s1 Hr1 Hi) as [_ Hown].
    change (clock s1) with (clock s) in *. change (tup s1) with (tup s) in *.
    unfold self_spec. rewrite Hi. cbn -[del_st].
    unfold del_st. destruct (updater (tup s)) as [d|] eqn:Hu; [|done].
    destruct (Hown d eq_refl) as [HC HA].
    destruct (TransactionIdIsCurrentTransactionId d); [by rewrite HC|by rewrite HA].
  - intros Hi. 
    assert (forall s', later s s' -> dirty_answer (clock s) (tup s) true (snap s') ->
      answer dirty_answer s (Return true) s') as HQ by (intros; by apply answer_at).
    unfold set_snapshot_token, set_snapshot_xmin. vstep. vstep.
    + apply wp_set_snapshot, vis_wp_bind, wp_set_snapshot. vstep.
      apply HQ; [do 2 apply later_with_snap; eauto with vis|].
      unfold dirty_answer, dirty_spec. change (ins_st (clock s) (tup s)) with (ins_st (clock s1) (tup s1)).
      rewrite Hi. cbn. change (tup s1) with (tup s) in Heqb. by rewrite Heqb.
    + vstep. apply vis_wp_bind, wp_set_snapshot. vstep.
      apply HQ; [apply later_with_snap; eauto with vis|].
      unfold dirty_answer, dirty_spec. change (ins_st (clock s) (tup s)) with (ins_st (clock s1) (tup s1)).
      rewrite Hi. cbn. change (tup s1) with (tup s) in Heqb. by rewrite Heqb.
  - intros s' Hl Hs Hi. eapply vis_wp_mono; [apply wp_Dirty_xmax; [apply Hl|done|by rewrite Hs]|].
    intros o s'' Ho. eapply answer_later; [apply dirty_blind| |done]. by eapply later_trans.
Qed.

End Dirty.

Section Update.
Context `{env : XactEnv} `{laws : !XactLaws env}.
Context (self : ItemPointerData) (cid : Z).

Definition update_answer (sn0 : SnapshotData) (k : nat) t (r : TM_Result) sn : Prop :=
  update_spec k self cid t r /\ sn = sn0.

Lemma update_blind sn0 : hint_blind (update_answer sn0).
Proof.
  intros k t t' r sn Hf [H ->]. split; [|done]. revert H.
  destruct (hinted_same t t' Hf) as (_ & Ex & Ec & _ & Em & _ & _ & _ & En & Ea & _).
  destruct (hinted_st t t' k Hf) as [Ei Ed].
  unfold update_spec, xmax_busy, cmin_of, cmax_of, updated_or_deleted,
    HeapTupleHeaderIndicatesMovedPartitions. by rewrite Ex, Ec, Em, En, Ea, Ei, Ed.
Qed.

Definition inserted_at (k : nat) t : Prop :=
  ins_st k t = XCommitted \/ (ins_st k t = XCurrent /\ cmin_of t < cid).

Lemma inserted_mono n m t : known (t_xmin t) -> (n <= m)%nat ->
  inserted_at n t -> inserted_at m t.
Proof.
  intros Hk Hn [H|[H Hc]]; [left; by eapply ins_committed_mono|right; split; [|done]].
  unfold ins_st in *. case_match; [done|]. by apply xst_current, (xst_current n).
Qed.

Lemma wp_cmax_test {A} (Q : outcome TM_Result A -> vstate -> Prop) s d :
  ready s -> updater (tup s) = Some d -> TransactionIdIsCurrentTransactionId d = true ->
  (forall r, r = (if cid <=? cmax_of (tup s) then TM_SelfModified else TM_Invisible) ->
     Q (Return r) s) ->
  wp (cmax_test (tup s) cid) Q s.
Proof.
  intros [Hw _] Hu Hd HQ. destruct (wf_cmax _ _ Hw d Hu Hd) as [c Hc].
  unfold cmax_test, GetCmax. vstep. rewrite Hc. vstep.
  unfold cmax_of in HQ. rewrite Hc in HQ. cbn in HQ.
  vstep; vstep; apply HQ; by rewrite Heqb.
Qed.

(** The self-deletion answers. *)
Lemma update_self k t d r : inserted_at k t -> updater t = Some d ->
  TransactionIdIsCurrentTransactionId d = true ->
  r = (if cid <=? cmax_of t then TM_SelfModified else TM_Invisible) ->
  update_spec k self cid t r.
Proof.
  intros Hi Hu Hd ->. assert (del_st k t = XCurrent) as HD
    by (unfold del_st; rewrite Hu; by apply fate_of_current).
  destruct (Z.leb_spec cid (cmax_of t)); cbn; [done|]. auto.
Qed.

Lemma update_moved k t : inserted_at k t -> del_st k t = XCommitted ->
  update_spec k self cid t (updated_or_deleted self t).
Proof. intros Hi Hd. unfold update_spec.
  destruct (updated_or_deleted self t) eqn:E; try done; revert E;
    unfold updated_or_deleted; by case_match. Qed.

Lemma answer_time {R} P (s s' : vstate) (k : nat) (r : R) :
  later s s' -> (clock s <= k <= clock s')%nat -> P k (tup s) r (snap s') ->
  answer P s (Return r) s'.
Proof. intros. split; [done|]. by exists k. Qed.

Lemma locked_upgraded_only m : HEAP_LOCKED_UPGRADED m = true ->
  HEAP_XMAX_IS_LOCKED_ONLY m = true.
Proof.
  unfold HEAP_LOCKED_UPGRADED, HEAP_XMAX_IS_LOCKED_ONLY.
  intros [[_ H]%andb_true_iff _]%andb_true_iff. by rewrite H.
Qed.

(** No member of the multixact runs any more: the updater is settled. *)
Lemma members_settled n t :
  (forall m, m ∈ GetMultiXactIdMembers (t_xmax t) false -> settled (xst n m.1)) ->
  settled (xst n (HeapTupleGetUpdateXid t)).
Proof.
  intros H. destruct (update_xid_member t) as [->|(m & Hm & ->)].
  - rewrite xst_invalid. by right.
  - by apply H.
Qed.

(** Asking whether the multixact is running, in a state later than [s]. *)
Lemma wp_running {R} b (Q : outcome R bool -> vstate -> Prop) s s1 :
  ready s -> later s s1 -> tup s1 = tup s -> snap s1 = snap s ->
  has (t_infomask (tup s)) HEAP_XMAX_IS_MULTI = true ->
  (forall k s', later s s' -> tup s' = tup s -> snap s' = snap s ->
     (clock s <= k <= clock s')%nat -> xmax_busy k (tup s) -> Q (Cont true) s') ->
  (forall s', later s s' -> tup s' = tup s -> snap s' = snap s ->
     (clock s1 <= clock s')%nat ->
     (forall m, m ∈ GetMultiXactIdMembers (t_xmax (tup s)) b -> settled (xst (clock s') m.1)) ->
     Q (Cont false) s') ->
  wp (MultiXactIdIsRunning (HeapTupleHeaderGetRawXmax (tup s)) b) Q s1.
Proof.
  intros [Hw Hh] Hl Ht Hs HM HT HF.
  apply wp_MultiXactIdIsRunning; [apply Hl|by apply (wf_members _ _ Hw HM)| |].
  - intros m s' s'' Hl1 Hl2 Hs2 Ht2 Hin Hx.
    pose proof (later_clock _ _ Hl). pose proof (later_clock _ _ Hl1).
    pose proof (later_clock _ _ Hl2).
    apply (HT (clock s')); [|congruence|congruence|lia|].
    + eapply later_trans; [done|]. by eapply later_trans.
    + unfold xmax_busy. rewrite HM. by exists b, m.
  - intros s' Hl1 Hs1 Ht1 HA. apply HF; try done; [by eapply later_trans|congruence|congruence|].
    apply Hl1.
Qed.


Lemma wp_Update_multi s :
  ready s -> ins_st (clock s) (tup s) = XCommitted ->
  has (t_infomask (tup s)) HEAP_XMAX_IS_MULTI = true ->
  wp (Update_multi self cid) (answer (update_answer (snap s)) s) s.
Proof.
  intros Hr Hi HM. pose proof Hr as [Hw Hh].
  assert (forall k, (clock s <= k)%nat -> inserted_at k (tup s)) as Hins.
  { intros k Hk. left. eapply ins_committed_mono; [apply (wf_xmin _ _ Hw)|exact Hk|done]. }
  assert (forall k r s', later s s' -> snap s' = snap s -> (clock s <= k <= clock s')%nat ->
    (inserted_at k (tup s) -> update_spec k self cid (tup s) r) ->
    answer (update_answer (snap s)) s (Return r) s') as HQ.
  { intros k r s' Hl Hs Hk HP. apply (answer_time _ _ _ k); [done|done|]. split; [|done].
    apply HP, Hins. lia. }
  assert (forall k s', later s s' -> tup s' = tup s -> snap s' = snap s ->
    (clock s <= k <= clock s')%nat -> xmax_busy k (tup s) ->
    answer (update_answer (snap s)) s (Return TM_BeingModified) s') as HB.
  { intros k s' Hl _ Hs Hk Hb. by apply (HQ k). }
  unfold Update_multi. do 3 vstep.
  { vstep. pose proof (locked_upgraded_only _ Heqb) as HL.
    destruct (locked_only_updater _ HL) as [_ Hd].
    apply (HQ (clock s)); [auto with vis|done|lia|]. intros ?. by split. }
  vstep.
  { destruct (locked_only_updater _ Heqb0) as [_ Hd]. vstep.
    eapply (wp_running true _ s s); [done|auto with vis|done|done|done| |].
    - intros k s' Hl Ht Hs Hk Hb. repeat vstep. by apply (HB k).
    - intros s' Hl Ht Hs Hc _.
      eapply wp_hint_xmax_invalid; [exact Hr|done|by apply Hd|].
      intros s'' Hl' Hs'. vstep. apply (HQ (clock s)); [done|congruence|split; [done|apply Hl']|].
      intros ?. by split. }
  destruct (not_locked_updater _ Heqb0) as [HU _]. destruct (HU HM) as [Hu Hd]. clear HU.
  set (x := HeapTupleGetUpdateXid (tup s)) in *.
  assert (forall s1, later s s1 -> tup s1 = tup s -> snap s1 = snap s ->
    wp (if TransactionIdIsCurrentTransactionId x then cmax_test (tup s) cid
        else let! r := MultiXactIdIsRunning (HeapTupleHeaderGetRawXmax (tup s)) false in
          if r then return_ TM_BeingModified
          else let! c := TransactionIdDidCommit x in
            if c then return_ (updated_or_deleted self (tup s))
            else let! r := MultiXactIdIsRunning (HeapTupleHeaderGetRawXmax (tup s)) false in
              if negb r then SetHintBits HEAP_XMAX_INVALID InvalidTransactionId ;! return_ TM_Ok
              else return_ TM_BeingModified) (answer (update_answer (snap s)) s) s1) as Hrest.
  { intros s1 Hl Ht Hs. vstep.
    { rewrite <- Ht. eapply wp_cmax_test; [apply Hl|by rewrite Ht|done|]. rewrite Ht.
      intros r Hres. apply (HQ (clock s)); [done|done|split; [done|apply Hl]|].
      intros Hin. by eapply update_self. }
    vstep. eapply (wp_running false _ s s1); [done..| |].
    { intros k s' Hl' Ht' Hs' Hk Hb. repeat vstep. by apply (HB k). }
    intros s2 Hl2 Ht2 Hs2 Hc2 Hset. apply members_settled in Hset. fold x in Hset.
    vstep. apply wp_did_commit; [done|..]; intros Hx.
    - vstep. apply (HQ (clock s2)); [auto with vis|done|pose proof (later_clock _ _ Hl2); cbn; lia|].
      intros Hin. apply update_moved; [done|by rewrite Hd].
    - vstep. eapply (wp_running false _ s (tick s2)); [done|auto with vis|done|done|done| |].
      { intros k s' Hl' Ht' Hs' Hk Hb. repeat vstep. by apply (HB k). }
      intros s3 Hl3 Ht3 Hs3 Hc3 Hset3.
      assert (xst (clock s3) x = XAborted) as Hx3.
      { eapply xst_aborted_mono; [by apply (wf_updater _ _ Hw)| |done]. cbn in Hc3. lia. }
      assert (ready s2) as Hr2 by apply Hl2.
      eapply (wp_hint_xmax_invalid _ _ s3); [apply Hl3|apply later_refl, Hl3|by rewrite Ht3, Hd|].
      intros s4 Hl4 Hs4. vstep.
      apply (HQ (clock s3)); [by eapply later_trans|congruence| |].
      + split; [apply Hl3|apply Hl4].
      + intros ?. split; [done|]. by rewrite Hd. }
  apply vis_wp_bind. vstep; [by vstep; apply Hrest; [auto with vis|..]|].
  vstep. eapply (wp_running false _ s s); [done|auto with vis|done|done|done| |].
  - intros k s' Hl Ht Hs Hk Hb. repeat vstep. by apply (HB k).
  - intros s' Hl Ht Hs _ _. vstep. by apply Hrest.
Qed.


Lemma wp_Update_own {A} (Q : outcome TM_Result A -> vstate -> Prop) s :
  ready s -> ins_st (clock s) (tup s) = XCurrent ->
  (forall k r s', later s s' -> snap s' = snap s -> (clock s <= k <= clock s')%nat ->
     update_spec k self cid (tup s) r -> Q (Return r) s') ->
  wp (Update_own cid) Q s.
Proof.
  intros Hr Hi HQ. pose proof Hr as [Hw Hh]. destruct (own_del s Hr Hi) as [Hcur Hown].
  destruct (wf_cmin _ _ Hw Hcur) as [c Hc].
  assert (cmin_of (tup s) = c) as Hcm by (unfold cmin_of; by rewrite Hc).
  unfold Update_own. do 3 vstep. unfold GetCmin. rewrite Hc. do 2 vstep.
  { apply Z.leb_le in Heqb. vstep. apply (HQ (clock s)); [auto with vis|done|lia|].
    cbn. rewrite Hcm. auto. }
  apply Z.leb_gt in Heqb.
  assert (forall k, (clock s <= k)%nat -> inserted_at k (tup s)) as Hins.
  { intros k Hk. eapply inserted_mono; [apply (wf_xmin _ _ Hw)|exact Hk|].
    right. by rewrite Hcm. }
  assert (forall s', later s s' -> snap s' = snap s -> del_st (clock s) (tup s) = XAborted ->
    Q (Return TM_Ok) s') as HOk.
  { intros s' Hl Hs Hd. apply (HQ (clock s)); [done|done|split; [done|apply Hl]|].
    split; [by apply Hins|done]. }
  assert (forall k s', later s s' -> tup s' = tup s -> snap s' = snap s ->
    (clock s <= k <= clock s')%nat -> xmax_busy k (tup s) -> Q (Return TM_BeingModified) s') as HB.
  { intros k s' Hl _ Hs Hk Hb. apply (HQ k); [done|done|done|]. split; [apply Hins; lia|done]. }
  vstep.
  { vstep. apply HOk; [auto with vis|done|by apply (ok_xmax_invalid _ _ Hh)]. }
  vstep.
  { destruct (locked_only_updater _ Heqb1) as [_ Hd]. vstep.
    - vstep. eapply (wp_running true _ s s); [done|auto with vis|done|done|done| |].
      + intros k s' Hl Ht Hs Hk Hb. repeat vstep. by apply (HB k).
      + intros s' Hl Ht Hs _ _. vstep. by apply HOk.
    - apply vis_wp_bind, wp_in_progress; intros Hx; repeat vstep.
      + apply (HB (clock s)); [auto with vis|done|done|cbn; lia|].
        unfold xmax_busy. by rewrite Heqb2.
      + by apply HOk; [auto with vis|..]. }
  vstep; destruct (not_locked_updater _ Heqb1) as [HM HN];
    [destruct (HM Heqb2) as [Hu Hd]|destruct (HN Heqb2) as [Hu Hd]];
    destruct (Hown _ Hu) as [HC HA]; vstep.
  - eapply wp_cmax_test; [done|done|done|]. intros r Hres.
    apply (HQ (clock s)); [auto with vis|done|lia|]. by eapply update_self; [apply Hins|..].
  - vstep. eapply (wp_running false _ s s); [done|auto with vis|done|done|done| |].
    + intros k s' Hl Ht Hs Hk Hb. repeat vstep. by apply (HB k).
    + intros s' Hl Ht Hs _ _. vstep. apply HOk; [done|done|]. by rewrite Hd, HA.
  - eapply wp_cmax_test; [done|done|done|]. intros r Hres.
    apply (HQ (clock s)); [auto with vis|done|lia|]. by eapply update_self; [apply Hins|..].
  - eapply wp_hint_xmax_invalid; [exact Hr|auto with vis|by rewrite Hd, HA|].
    intros s' Hl Hs. vstep. apply HOk; [done|done|]. by rewrite Hd, HA.
Qed.

Lemma wp_Update_xmax s :
  ready s -> ins_st (clock s) (tup s) = XCommitted ->
  wp (Update_xmax self cid) (answer (update_answer (snap s)) s) s.
Proof.
  intros Hr Hi. pose proof Hr as [Hw Hh].
  assert (inserted_at (clock s) (tup s)) as Hin by by left.
  assert (forall r s', later s s' -> snap s' = snap s -> update_spec (clock s) self cid (tup s) r ->
    answer (update_answer (snap s)) s (Return r) s') as HQ.
  { intros r s' Hl Hs HP. by apply answer_at. }
  assert (forall s', later s s' -> snap s' = snap s -> del_st (clock s) (tup s) = XAborted ->
    answer (update_answer (snap s)) s (Return TM_Ok) s') as HOk.
  { intros s' Hl Hs Hd. by apply HQ. }
  unfold Update_xmax. do 3 vstep.
  { vstep. apply HOk; [auto with vis|done|by apply (ok_xmax_invalid _ _ Hh)]. }
  vstep.
  { vstep; vstep.
    - apply HOk; [auto with vis|done|]. by apply locked_only_updater.
    - destruct (not_locked_updater _ Heqb1) as [HM HN].
      destruct (has (t_infomask (tup s)) HEAP_XMAX_IS_MULTI) eqn:EM.
      + destruct (HM eq_refl) as [Hu Hd].
        destruct (ok_xmax_committed _ _ Hh Heqb0 _ Hu). congruence.
      + destruct (HN eq_refl) as [Hu Hd]. destruct (ok_xmax_committed _ _ Hh Heqb0 _ Hu) as [_ Hx].
        apply HQ; [auto with vis|done|]. apply update_moved; [done|by rewrite Hd]. }
  vstep; [by apply wp_Update_multi|]. unfold HeapTupleHeaderGetRawXmax.
  assert (forall s', later s s' -> snap s' = snap s ->
    (TransactionIdIsCurrentTransactionId (t_xmax (tup s)) = true \/
     xst (clock s) (t_xmax (tup s)) = XInProgress) ->
    answer (update_answer (snap s)) s (Return TM_BeingModified) s') as HB.
  { intros s' Hl Hs Hx. apply HQ; [done|done|]. split; [done|]. unfold xmax_busy. rewrite Heqb1.
    destruct Hx as [Hx|Hx]; [left; by apply fate_of_current|by right]. }
  destruct (HEAP_XMAX_IS_LOCKED_ONLY (t_infomask (tup s))) eqn:EL.
  - destruct (locked_only_updater _ EL) as [_ Hd]. vstep; [vstep; apply HB; [auto with vis|done|by left]|].
    apply vis_wp_fate; [by apply (wf_xmax _ _ Hw)|done|..]; intros Hf; repeat vstep;
      try (apply HB; [auto with vis|done|done]);
      (eapply wp_hint_xmax_invalid; [exact Hr|auto with vis|apply Hd|]);
      intros s' Hl Hs; vstep; by apply HOk.
  - destruct (not_locked_updater _ EL) as [_ HN]. destruct (HN Heqb1) as [Hu Hd]. vstep.
    { eapply wp_cmax_test; [done|done|done|]. intros r Hres.
      apply HQ; [auto with vis|done|]. by eapply update_self. }
    apply vis_wp_fate; [by apply (wf_xmax _ _ Hw)|done|..]; intros Hf; repeat vstep.
    + apply HB; [auto with vis|done|done].
    + eapply wp_hint_xmax_committed; [done|auto with vis|done|done|done|].
      intros s' Hl Hs. vstep. apply HQ; [done|done|]. apply update_moved; [done|by rewrite Hd].
    + eapply wp_hint_xmax_invalid; [done|auto with vis|by rewrite Hd|].
      intros s' Hl Hs. vstep. apply HOk; [done|done|]. by rewrite Hd.
Qed.

Lemma wp_Update s :
  ready s -> wp (HeapTupleSatisfiesUpdate self cid) (answer (update_answer (snap s)) s) s.
Proof.
  intros Hr. apply vis_wp_bind.
  apply (wp_xmin (moved_or TransactionIdIsInProgress TM_Invisible) TM_Invisible
    (Update_own cid) (fun _ => return_ TM_Invisible)); [apply moved_or_skips|done|..].
  - intros s' Hl Hs Hi. apply answer_early; [apply update_blind|done|]. split; [by left|done].
  - intros Hi. apply wp_Update_own; [done|done|]. intros k r s' Hl Hs Hk HP.
    by apply (answer_time _ _ _ k).
  - intros Hi. vstep. apply answer_at; [auto with vis|]. split; [right; by left|done].
  - intros s' Hl Hs Hi. rewrite <- Hs. eapply vis_wp_mono; [apply wp_Update_xmax; [apply Hl|done]|].
    intros o s'' Ho. eapply answer_later; [apply update_blind|done|done].
Qed.

End Update.

Section Vacuum.
Context `{env : XactEnv} `{laws : !XactLaws env}.
Context (OldestXmin : Z).

Definition vacuum_answer (sn0 : SnapshotData) (k : nat) t (r : HTSV_Result) sn : Prop :=
  r = vacuum_spec k OldestXmin t /\ sn = sn0.

Lemma vacuum_blind sn0 : hint_blind (vacuum_answer sn0).
Proof.
  intros k t t' r sn Hf [-> ->]. split; [|done]. unfold vacuum_spec.
  destruct (hinted_same t t' Hf) as (_ & _ & _ & -> & _).
  by destruct (hinted_st t t' k Hf) as [-> ->].
Qed.

(** A multixact 0 has no members, so an invalid [xmax] means no deleter. *)
Lemma invalid_xmax t n : t_xmax t = InvalidTransactionId -> del_st n t = XAborted.
Proof.
  intros Hx. unfold del_st. destruct (updater t) as [d|] eqn:Hu; [|done].
  unfold updater in Hu. case_match; [done|].
  destruct (has (t_infomask t) HEAP_XMAX_IS_MULTI); injection Hu as <-.
  - unfold HeapTupleGetUpdateXid, MultiXactIdGetUpdateXid, HeapTupleHeaderGetRawXmax.
    rewrite Hx, invalid_multi. apply xst_invalid.
  - unfold HeapTupleHeaderGetRawXmax. rewrite Hx. apply xst_invalid.
Qed.

Lemma lock_only_locked m : has m HEAP_XMAX_LOCK_ONLY = true -> HEAP_XMAX_IS_LOCKED_ONLY m = true.
Proof. intros H. unfold HEAP_XMAX_IS_LOCKED_ONLY. by rewrite H. Qed.

(** A yes means that the tuple has no live deleter. *)
Lemma wp_IsOnlyLocked {R} (Q : outcome R bool -> vstate -> Prop) s :
  ready s ->
  (forall b s', later s s' -> snap s' = snap s ->
     (b = true -> del_st (clock s) (tup s) = XAborted) -> Q (Cont b) s') ->
  wp HeapTupleHeaderIsOnlyLocked Q s.
Proof.
  intros Hr HQ. pose proof Hr as [Hw Hh]. unfold HeapTupleHeaderIsOnlyLocked. do 3 vstep.
  { vstep. apply HQ; [auto with vis|done|]. intros _. by apply (ok_xmax_invalid _ _ Hh). }
  vstep.
  { vstep. apply HQ; [auto with vis|done|]. intros _.
    by apply locked_only_updater, lock_only_locked. }
  vstep; [|vstep; apply HQ; [auto with vis|done|]; intros _; apply invalid_xmax;
           unfold TransactionIdIsValid in *; apply negb_false_iff, Z.eqb_eq in Heqb1; done].
  vstep; [|vstep; apply HQ; [auto with vis|done|done]].
  assert (del_st (clock s) (tup s) = XAborted \/
    (updater (tup s) = Some (HeapTupleGetUpdateXid (tup s)) /\
     del_st (clock s) (tup s) = xst (clock s) (HeapTupleGetUpdateXid (tup s)))) as Hd.
  { destruct (HEAP_XMAX_IS_LOCKED_ONLY (t_infomask (tup s))) eqn:EL.
    - left. by apply locked_only_updater.
    - right. destruct (not_locked_updater _ EL) as [HM _]. destruct (HM Heqb2) as [Hu Hd].
      by rewrite Hd. }
  vstep; [vstep; apply HQ; [auto with vis|done|done]|].
  apply vis_wp_fate; [|done|..].
  - destruct (update_xid_member (tup s)) as [->|(m & Hm & ->)]; [apply invalid_known|].
    by apply (wf_members _ _ Hw Heqb2 false).
  - intros _. vstep. by apply HQ; [auto with vis|..].
  - intros _. vstep. by apply HQ; [auto with vis|..].
  - intros Hx. vstep. apply HQ; [auto with vis|done|]. intros _.
    destruct Hd as [Hd|[_ Hd]]; [done|by rewrite Hd].
Qed.

Lemma wp_Vacuum_own (Q : outcome HTSV_Result unit -> vstate -> Prop) s :
  ready s -> ins_st (clock s) (tup s) = XCurrent ->
  (forall r s', later s s' -> snap s' = snap s -> r = vacuum_spec (clock s) OldestXmin (tup s) ->
     Q (Return r) s') ->
  wp Vacuum_own Q s.
Proof.
  intros Hr Hi HQ'. pose proof Hr as [Hw Hh]. destruct (own_del s Hr Hi) as [_ Hown].
  assert (forall r s', later s s' -> snap s' = snap s ->
    r = match del_st (clock s) (tup s) with
        | XCurrent => HEAPTUPLE_DELETE_IN_PROGRESS | _ => HEAPTUPLE_INSERT_IN_PROGRESS end ->
    Q (Return r) s') as HQ.
  { intros r s' Hl Hs Hd. apply HQ'; [done|done|]. unfold vacuum_spec. by rewrite Hi. }
  assert (forall s', later s s' -> snap s' = snap s -> del_st (clock s) (tup s) = XAborted ->
    Q (Return HEAPTUPLE_INSERT_IN_PROGRESS) s') as HI by (intros s' ?? Hd; apply HQ; by rewrite ?Hd).
  unfold Vacuum_own. do 3 vstep.
  { vstep. apply HI; [auto with vis|done|by apply (ok_xmax_invalid _ _ Hh)]. }
  unfold mor. repeat vstep.
  { apply HI; [auto with vis|done|]. by apply locked_only_updater. }
  apply wp_IsOnlyLocked; [done|]. intros b s' Hl Hs Hb. destruct b.
  { vstep. apply HI; [done|done|by apply Hb]. }
  assert (updater (tup s) = Some (HeapTupleHeaderGetUpdateXid (tup s)) /\
    del_st (clock s) (tup s) = xst (clock s) (HeapTupleHeaderGetUpdateXid (tup s))) as [Hu Hd].
  { unfold HeapTupleHeaderGetUpdateXid. rewrite Heqb. cbn [negb andb].
    assert (has (t_infomask (tup s)) HEAP_XMAX_LOCK_ONLY = false) as ->.
    { destruct (has _ HEAP_XMAX_LOCK_ONLY) eqn:E; [|done]. apply lock_only_locked in E. congruence. }
    destruct (not_locked_updater (tup s)) as [HM HN]; [done|].
    destruct (has (t_infomask (tup s)) HEAP_XMAX_IS_MULTI); cbn [andb negb].
    - destruct (HM eq_refl) as [? Hd]. by rewrite Hd.
    - destruct (HN eq_refl) as [? Hd]. by rewrite Hd. }
  destruct (Hown _ Hu) as [HC HA].
  vstep; vstep; apply HQ; try done; rewrite Hd; [by rewrite HC|by rewrite HA].
Qed.


(** The [xmax] part when the tuple is only locked: nothing depends on the
    locker but a hint bit. *)
Lemma wp_Vacuum_locked s :
  ready s -> HEAP_XMAX_IS_LOCKED_ONLY (t_infomask (tup s)) = true ->
  has (t_infomask (tup s)) HEAP_XMAX_INVALID = false ->
  forall Q : outcome HTSV_Result HTSV_Result -> vstate -> Prop,
  (forall s', later s s' -> snap s' = snap s -> Q (Return HEAPTUPLE_LIVE) s') ->
  wp (Vacuum_xmax OldestXmin) Q s.
Proof.
  intros Hr HL HI Q HQ. pose proof Hr as [Hw Hh].
  destruct (locked_only_updater _ HL) as [_ Hd].
  assert (forall s', later s s' -> snap s' = snap s ->
    wp (SetHintBits HEAP_XMAX_INVALID InvalidTransactionId)
      (fun o s'' => match o with
                    | Cont _ => wp (return_ HEAPTUPLE_LIVE) Q s''
                    | Return r => Q (Return r) s''
                    | Raise e => Q (Raise e) s'' end) s') as HH.
  { intros s' Hl Hs. eapply wp_xmax_invalid; [exact Hr|done|apply Hd|].
    intros s'' Hl' Hs'. vstep. apply HQ; [done|congruence]. }
  unfold Vacuum_xmax. do 2 vstep. rewrite HI, HL. apply vis_wp_bind.
  vstep; [repeat vstep; by apply HQ; [auto with vis|..]|]. vstep.
  - assert (forall s', later s s' -> tup s' = tup s -> snap s' = snap s ->
      Q (Return HEAPTUPLE_LIVE) s') as HQ' by auto. 
    apply vis_wp_bind. vstep; [repeat vstep; by apply HH; [auto with vis|..]|].
    eapply (wp_running true _ s s); [done|auto with vis|done|done|done| |].
    + intros k s' Hl Ht Hs _ _. repeat vstep. by apply HQ.
    + intros s' Hl Ht Hs _ _. by apply HH.
  - apply vis_wp_bind, wp_in_progress; intros _; [repeat vstep; by apply HQ; [auto with vis|..]|].
    by apply HH; [auto with vis|..].
Qed.

Lemma wp_Vacuum_xmax s :
  ready s -> ins_st (clock s) (tup s) = XCommitted ->
  wp (Vacuum_xmax OldestXmin) (answer (vacuum_answer (snap s)) s) s.
Proof.
  intros Hr Hi. pose proof Hr as [Hw Hh].
  assert (forall r st s', later s s' -> snap s' = snap s -> del_st (clock s) (tup s) = st ->
    r = match st with
        | XAborted => HEAPTUPLE_LIVE
        | XCurrent | XInProgress => HEAPTUPLE_DELETE_IN_PROGRESS
        | XCommitted =>
            if TransactionIdPrecedes (default 0 (updater (tup s))) OldestXmin
            then HEAPTUPLE_DEAD else HEAPTUPLE_RECENTLY_DEAD
        end -> answer (vacuum_answer (snap s)) s (Return r) s') as HQ.
  { intros r st s' Hl Hs Hd ->. apply answer_at; [done|]. split; [|done].
    unfold vacuum_spec. by rewrite Hi, Hd. }
  destruct (has (t_infomask (tup s)) HEAP_XMAX_INVALID) eqn:EI.
  { unfold Vacuum_xmax. repeat vstep. eapply (HQ _ XAborted); [auto with vis|done| |done].
    by apply (ok_xmax_invalid _ _ Hh). }
  destruct (HEAP_XMAX_IS_LOCKED_ONLY (t_infomask (tup s))) eqn:EL.
  { apply wp_Vacuum_locked; [done..|]. intros s' Hl Hs. apply (HQ _ XAborted); [done|done| |done].
    by apply locked_only_updater. }
  unfold Vacuum_xmax, HeapTupleHeaderGetRawXmax. do 2 vstep. rewrite EI, EL.
  destruct (not_locked_updater _ EL) as [HM HN]. vstep.
  - destruct (HM Heqb) as [Hu Hd]. apply vis_wp_fate; [by apply (wf_updater _ _ Hw)|done|..].
    + intros Hf. vstep. destruct Hf as [Hf|Hf].
      * apply (HQ _ XCurrent); [auto with vis|done| |done]. rewrite Hd. by apply fate_of_current.
      * apply (HQ _ XInProgress); [auto with vis|done| |done]. by rewrite Hd.
    + intros Hf. cbv beta iota. vstep; vstep;
        (apply (HQ _ XCommitted); [auto with vis|done|by rewrite Hd|]; rewrite Hu; cbn [default from_option id]);
        by rewrite Heqb0.
    + intros Hf. cbv beta iota. apply vis_wp_bind, vis_wp_bind.
      assert (forall s', later s s' -> snap s' = snap s ->
        answer (vacuum_answer (snap s)) s (Return HEAPTUPLE_LIVE) s') as HL.
      { intros s' Hl Hs. apply (HQ _ XAborted); [done|done|by rewrite Hd|done]. }
      eapply (wp_running false _ s); [done|auto with vis|done|done|done| |].
      * intros k s' Hl Ht Hs _ _. repeat vstep. by apply HL.
      * intros s' Hl Ht Hs _ _. vstep. eapply wp_xmax_invalid; [exact Hr|done|by rewrite Hd|].
        intros s'' Hl' Hs'. vstep. apply HL; [done|congruence].
  - destruct (HN Heqb) as [Hu Hd]. apply vis_wp_bind.
    assert (forall s', later s s' -> snap s' = snap s -> xst (clock s) (t_xmax (tup s)) = XCommitted ->
      wp (if negb (TransactionIdPrecedes (t_xmax (tup s)) OldestXmin)
          then return_ HEAPTUPLE_RECENTLY_DEAD else return_ HEAPTUPLE_DEAD)
        (answer (vacuum_answer (snap s)) s) s') as HC.
    { intros s' Hl Hs Hf. vstep; vstep;
        (apply (HQ _ XCommitted); [done|done|by rewrite Hd|]; rewrite Hu; cbn [default from_option id]);
        by rewrite Heqb0. }
    vstep; [vstep; apply HC; [auto with vis|done|]; by destruct (ok_xmax_committed _ _ Hh Heqb0 _ Hu)|].
    apply (vis_wp_fate (t_xmax (tup s)) (return_ HEAPTUPLE_DELETE_IN_PROGRESS)
      (fun c => if c then SetHintBits HEAP_XMAX_COMMITTED (t_xmax (tup s))
                else SetHintBits HEAP_XMAX_INVALID InvalidTransactionId ;! return_ HEAPTUPLE_LIVE));
      [by apply (wf_xmax _ _ Hw)|done|..].
    + intros Hf. vstep. destruct Hf as [Hf|Hf].
      * apply (HQ _ XCurrent); [auto with vis|done| |done]. rewrite Hd. by apply fate_of_current.
      * apply (HQ _ XInProgress); [auto with vis|done| |done]. by rewrite Hd.
    + intros Hf. eapply (wp_xmax_committed _ s); [done|auto with vis|done|done|done|].
      intros s' Hl Hs. by apply HC.
    + intros Hf. eapply wp_hint_xmax_invalid; [exact Hr|auto with vis|by rewrite Hd|].
      intros s' Hl Hs. vstep. apply (HQ _ XAborted); [done|done|by rewrite Hd|done].
Qed.

Lemma wp_Vacuum s :
  ready s -> wp (HeapTupleSatisfiesVacuum OldestXmin) (answer (vacuum_answer (snap s)) s) s.
Proof.
  intros Hr. apply vis_wp_bind.
  apply (wp_xmin Vacuum_moved HEAPTUPLE_DEAD Vacuum_own
    (fun _ => return_ HEAPTUPLE_INSERT_IN_PROGRESS)); [apply Vacuum_moved_skips|done|..].
  - intros s' Hl Hs Hi. apply answer_early; [apply vacuum_blind|done|].
    split; [unfold vacuum_spec; by rewrite Hi|done].
  - intros Hi. apply wp_Vacuum_own; [done|done|]. intros r s' Hl Hs ->.
    apply answer_at; [done|]. by split.
  - intros Hi. vstep. apply answer_at; [auto with vis|].
    split; [unfold vacuum_spec; by rewrite Hi|done].
  - intros s' Hl Hs Hi. rewrite <- Hs. eapply vis_wp_mono; [apply wp_Vacuum_xmax; [apply Hl|done]|].
    intros o s'' Ho. eapply answer_later; [apply vacuum_blind|done|done].
Qed.

End Vacuum.

Section Mvcc.
Context `{env : XactEnv} `{laws : !XactLaws env}.
Context (n0 : nat) (sn : SnapshotData).

(** A snapshot taken at [n0]: a known transaction of another backend that it
    does not list had ended by then. *)
Definition snapshot_at : Prop := forall x,
  known x -> TransactionIdIsCurrentTransactionId x = false ->
  XidInMVCCSnapshot SubTransGetTopmost x sn = false -> settled (xst n0 x).

Context (Hsn : snapshot_at).

Definition mvcc_answer (_ : nat) t (r : bool) (sn' : SnapshotData) : Prop :=
  r = mvcc_spec n0 sn t /\ sn' = sn.

Lemma mvcc_blind : hint_blind mvcc_answer.
Proof.
  intros k t t' r s Hf [-> ->]. split; [|done]. unfold mvcc_spec, mvcc_ins, mvcc_del, cmin_of, cmax_of.
  destruct (hinted_same t t' Hf) as (-> & _ & _ & -> & _ & _ & _ & _ & -> & -> & ->). done.
Qed.

(** What the snapshot sees of a transaction whose fate is known later. *)
Lemma seen_later n x : known x -> (n0 <= n)%nat -> TransactionIdIsCurrentTransactionId x = false ->
  settled (xst n x) ->
  seen n0 sn x = negb (XidInMVCCSnapshot SubTransGetTopmost x sn) && bool_decide (xst n x = XCommitted).
Proof using Hsn.
  intros Hk Hn Hc Hs. unfold seen.
  destruct (XidInMVCCSnapshot SubTransGetTopmost x sn) eqn:E; [done|]. cbn.
  by rewrite (xst_mono n0 n x Hk Hn (Hsn x Hk Hc E)).
Qed.

Lemma seen_aborted n x : known x -> (n0 <= n)%nat -> xst n x = XAborted -> seen n0 sn x = false.
Proof using Hsn.
  intros Hk Hn Hx. rewrite (seen_later n); [rewrite Hx; apply andb_false_r|done|done| |].
  - destruct (TransactionIdIsCurrentTransactionId x) eqn:E; [|done].
    apply (xst_current n) in E. congruence.
  - rewrite Hx. by right.
Qed.

Lemma not_seen_in_snapshot x :
  XidInMVCCSnapshot SubTransGetTopmost x sn = true -> seen n0 sn x = false.
Proof using. unfold seen. by intros ->. Qed.

Lemma del_aborted_unseen s : ready s -> (n0 <= clock s)%nat ->
  del_st (clock s) (tup s) = XAborted -> mvcc_del n0 sn (tup s) = false.
Proof using Hsn.
  intros [Hw _] Hn Hd. unfold mvcc_del, del_st in *.
  destruct (updater (tup s)) as [d|] eqn:Hu; [|done].
  destruct (TransactionIdIsCurrentTransactionId d) eqn:E.
  - apply (xst_current (clock s)) in E. congruence.
  - eapply seen_aborted; [by apply (wf_updater _ _ Hw)|exact Hn|done].
Qed.

(** Asking the clog about a transaction the snapshot does not list. *)
Lemma wp_mvcc_commit {R} x (Q : outcome R bool -> vstate -> Prop) s :
  known x -> (n0 <= clock s)%nat -> TransactionIdIsCurrentTransactionId x = false ->
  XidInMVCCSnapshot SubTransGetTopmost x sn = false ->
  (xst (clock s) x = XCommitted -> seen n0 sn x = true -> Q (Cont true) (tick s)) ->
  (xst (clock s) x = XAborted -> seen n0 sn x = false -> Q (Cont false) (tick s)) ->
  wp (TransactionIdDidCommit x) Q s.
Proof using Hsn.
  intros Hk Hn Hc Hin HC HA. pose proof (Hsn x Hk Hc Hin) as Hset.
  pose proof (xst_mono n0 (clock s) x Hk Hn Hset) as E.
  apply wp_did_commit; rewrite E; [done|..]; intros Hx; rewrite E in *.
  - apply HC; [done|]. unfold seen. by rewrite Hin, Hx.
  - apply HA; [done|]. unfold seen. by rewrite Hin, Hx.
Qed.

Lemma wp_in_snapshot {R} x (Q : outcome R bool -> vstate -> Prop) s :
  snap s = sn -> Q (Cont (XidInMVCCSnapshot SubTransGetTopmost x sn)) s -> wp (in_snapshot x) Q s.
Proof using. intros Hs H. unfold in_snapshot. repeat vstep. by rewrite Hs. Qed.

Lemma wp_MVCC_cmax_test {A} (Q : outcome bool A -> vstate -> Prop) s d :
  ready s -> snap s = sn -> updater (tup s) = Some d ->
  TransactionIdIsCurrentTransactionId d = true ->
  Q (Return (negb (mvcc_del n0 sn (tup s)))) s ->
  wp (MVCC_cmax_test (tup s)) Q s.
Proof using.
  intros [Hw _] Hs Hu Hd HQ. destruct (wf_cmax _ _ Hw d Hu Hd) as [c Hc].
  unfold MVCC_cmax_test, GetCmax. do 3 vstep. rewrite Hc. do 2 vstep;
    unfold mvcc_del, cmax_of in HQ; rewrite Hu, Hd, Hc, <- Hs, Z.ltb_antisym in HQ;
    cbn [default from_option id] in HQ; rewrite Heqb in HQ; vstep; exact HQ.
Qed.

Lemma wp_MVCC_xmax s :
  ready s -> (n0 <= clock s)%nat -> snap s = sn -> mvcc_ins n0 sn (tup s) = true ->
  wp MVCC_xmax (answer mvcc_answer s) s.
Proof using Hsn.
  intros Hr Hn Hs Hins. pose proof Hr as [Hw Hh].
  assert (forall r s', later s s' -> snap s' = snap s -> r = negb (mvcc_del n0 sn (tup s)) ->
    answer mvcc_answer s (Return r) s') as HQ.
  { intros r s' Hl Hs' ->. apply answer_at; [done|]. split; [|congruence].
    unfold mvcc_spec. by rewrite Hins. }
  assert (forall s', later s s' -> snap s' = snap s -> del_st (clock s) (tup s) = XAborted ->
    answer mvcc_answer s (Return true) s') as HT.
  { intros s' Hl Hs' Hd. apply HQ; [done|done|]. by rewrite (del_aborted_unseen s). }
  unfold MVCC_xmax, HeapTupleHeaderGetRawXmax. do 3 vstep.
  { vstep. apply HT; [auto with vis|done|by apply (ok_xmax_invalid _ _ Hh)]. }
  vstep.
  { vstep. apply HT; [auto with vis|done|by apply locked_only_updater]. }
  destruct (not_locked_updater _ Heqb0) as [HM HN].
  vstep; [destruct (HM Heqb1) as [Hu Hd]|destruct (HN Heqb1) as [Hu Hd]].
  - vstep; [eapply wp_MVCC_cmax_test; [done|done|done|done|]; by apply HQ; [auto with vis|..]|].
    assert (mvcc_del n0 sn (tup s) = seen n0 sn (HeapTupleGetUpdateXid (tup s))) as HD.
    { unfold mvcc_del. by rewrite Hu, Heqb2. }
    vstep. apply wp_in_snapshot; [done|]. vstep.
    { vstep. apply HQ; [auto with vis|done|]. by rewrite HD, not_seen_in_snapshot. }
    vstep. apply wp_mvcc_commit; [by apply (wf_updater _ _ Hw)|done|done|done|..];
      intros _ Hseen; vstep; (apply HQ; [auto with vis|done|by rewrite HD, Hseen]).
  - apply vis_wp_bind.
    assert (TransactionIdIsCurrentTransactionId (t_xmax (tup s)) = false ->
      mvcc_del n0 sn (tup s) = seen n0 sn (t_xmax (tup s))) as HD.
    { intros E. unfold mvcc_del. by rewrite Hu, E. }
    pose proof (wf_xmax _ _ Hw Heqb1) as Hk. vstep.
    + destruct (ok_xmax_committed _ _ Hh Heqb2 _ Hu) as [_ Hx].
      assert (TransactionIdIsCurrentTransactionId (t_xmax (tup s)) = false) as E.
      { destruct (TransactionIdIsCurrentTransactionId (t_xmax (tup s))) eqn:E; [|done].
        apply (xst_current (clock s)) in E. congruence. }
      vstep. apply wp_in_snapshot; [done|]. repeat vstep; (apply HQ; [auto with vis|done|]; rewrite (HD E)).
      * by rewrite not_seen_in_snapshot.
      * rewrite (seen_later (clock s)); [by rewrite Heqb3, Hx|done|done|done|]. rewrite Hx. by left.
    + vstep; [eapply wp_MVCC_cmax_test; [done|done|done|done|]; by apply HQ; [auto with vis|..]|].
      specialize (HD Heqb3). vstep. apply wp_in_snapshot; [done|]. vstep.
      { vstep. apply HQ; [auto with vis|done|]. by rewrite HD, not_seen_in_snapshot. }
      vstep. apply wp_mvcc_commit; [done..| |]; intros Hx Hseen; vstep.
      * eapply (wp_xmax_committed _ s); [done|auto with vis|done|done|done|].
        intros s' Hl Hs'. vstep. apply HQ; [done|done|]. by rewrite HD, Hseen.
      * eapply wp_hint_xmax_invalid; [exact Hr|auto with vis|by rewrite Hd|].
        intros s' Hl Hs'. vstep. apply HQ; [done|done|]. by rewrite HD, Hseen.
Qed.

Lemma wp_MVCC_own (Q : outcome bool unit -> vstate -> Prop) s :
  ready s -> (n0 <= clock s)%nat -> snap s = sn -> ins_st (clock s) (tup s) = XCurrent ->
  (forall r s', later s s' -> snap s' = snap s -> r = mvcc_spec n0 sn (tup s) -> Q (Return r) s') ->
  wp MVCC_own Q s.
Proof using Hsn.
  intros Hr Hn Hs Hi HQ'. pose proof Hr as [Hw Hh]. destruct (own_del s Hr Hi) as [Hcur Hown].
  destruct (wf_cmin _ _ Hw Hcur) as [c Hc].
  assert (mvcc_ins n0 sn (tup s) = negb (curcid sn <=? c)) as Hins.
  { unfold mvcc_ins, cmin_of. rewrite Hcur, Hc. cbn [default from_option id].
    unfold ins_st in Hi. case_match; [done|]. apply Z.ltb_antisym. }
  unfold MVCC_own, GetCmin, HeapTupleHeaderGetRawXmax. do 5 vstep. rewrite Hc, Hs. do 2 vstep.
  { vstep. apply HQ'; [auto with vis|done|]. unfold mvcc_spec. by rewrite Hins, Heqb. }
  rewrite Heqb in Hins.
  assert (forall r s', later s s' -> snap s' = snap s -> r = negb (mvcc_del n0 sn (tup s)) ->
    Q (Return r) s') as HQ.
  { intros r s' Hl Hs' ->. apply HQ'; [done|done|]. unfold mvcc_spec. by rewrite Hins. }
  assert (forall s', later s s' -> snap s' = snap s -> del_st (clock s) (tup s) = XAborted ->
    Q (Return true) s') as HT.
  { intros s' Hl Hs' Hd. apply HQ; [done|done|]. by rewrite (del_aborted_unseen s). }
  vstep; [vstep; apply HT; [auto with vis|done|by apply (ok_xmax_invalid _ _ Hh)]|].
  vstep; [vstep; apply HT; [auto with vis|done|by apply locked_only_updater]|].
  vstep; (destruct (not_locked_updater (tup s)) as [HM HN]; [done|]);
    [destruct HM as [Hu Hd]; [done|]|destruct HN as [Hu Hd]; [done|]];
    destruct (Hown _ Hu) as [HC HA]; vstep;
    try (eapply wp_MVCC_cmax_test; [done|done|done|done|]; by apply HQ; [auto with vis|..]).
  - vstep. apply HT; [auto with vis|done|by rewrite Hd, HA].
  - eapply wp_hint_xmax_invalid; [exact Hr|auto with vis|by rewrite Hd, HA|].
    intros s' Hl Hs'. vstep. apply HT; [done|done|by rewrite Hd, HA].
Qed.

Lemma wp_MVCC s :
  ready s -> (n0 <= clock s)%nat -> snap s = sn ->
  wp HeapTupleSatisfiesMVCC (answer mvcc_answer s) s.
Proof using Hsn.
  intros Hr Hn Hs. pose proof Hr as [Hw Hh]. apply vis_wp_bind.
  assert (forall s', later s s' -> snap s' = snap s -> mvcc_ins n0 sn (tup s) = true ->
    wp MVCC_xmax (answer mvcc_answer s) s') as HX.
  { intros s' Hl Hs' Hins. eapply vis_wp_mono.
    - apply wp_MVCC_xmax; [apply Hl|pose proof (later_clock _ _ Hl); lia|congruence|].
      unfold mvcc_ins, cmin_of in *.
      by destruct (hinted_same _ _ (later_tuple _ _ Hl)) as (-> & _ & _ & _ & _ & _ & _ & _ & -> & _ & ->).
    - intros o s'' Ho. eapply answer_later; [apply mvcc_blind|done|done]. }
  assert (forall s', later s s' -> snap s' = snap s -> mvcc_ins n0 sn (tup s) = false ->
    answer mvcc_answer s (Return false) s') as HF.
  { intros s' Hl Hs' Hins. apply answer_at; [done|]. split; [|congruence].
    unfold mvcc_spec. by rewrite Hins. }
  pose proof (wf_xmin _ _ Hw) as Hk.
  unfold MVCC_xmin, HeapTupleHeaderGetRawXmin. do 3 vstep.
  - (* the hint says committed *)
    destruct (HeapTupleHeaderXminFrozen (tup s)) eqn:EF.
    { repeat vstep. apply HX; [auto with vis|done|]. unfold mvcc_ins. by rewrite EF. }
    pose proof (ok_xmin_committed _ _ Hh Heqb) as Hx. unfold ins_st in Hx. rewrite EF in Hx.
    assert (mvcc_ins n0 sn (tup s) = seen n0 sn (t_xmin (tup s))) as HI.
    { unfold mvcc_ins. rewrite EF. case_match; [|done].
      assert (xst (clock s) (t_xmin (tup s)) = XCurrent) by (by apply xst_current). congruence. }
    do 2 vstep. apply wp_in_snapshot; [done|]. repeat vstep.
    + apply HF; [auto with vis|done|]. by rewrite HI, not_seen_in_snapshot.
    + apply HX; [auto with vis|done|]. rewrite HI, (seen_later (clock s)), Heqb0, Hx; try done; [|by left].
      destruct (TransactionIdIsCurrentTransactionId (t_xmin (tup s))) eqn:E; [|done].
      apply (xst_current (clock s)) in E. congruence.
  - pose proof (not_frozen _ Heqb) as EF.
    assert (TransactionIdIsCurrentTransactionId (t_xmin (tup s)) = false ->
      mvcc_ins n0 sn (tup s) = seen n0 sn (t_xmin (tup s))) as HI.
    { intros E. unfold mvcc_ins. by rewrite EF, E. }
    vstep.
    { vstep. apply HF; [auto with vis|done|]. pose proof (ok_xmin_invalid _ _ Hh Heqb0) as Hx.
      rewrite HI; [by apply (seen_aborted (clock s))|].
      destruct (TransactionIdIsCurrentTransactionId (t_xmin (tup s))) eqn:E; [|done].
      apply (xst_current (clock s)) in E. congruence. }
    eapply wp_ext; [apply moved_or_skips; apply Hw|]. vstep.
    { apply wp_MVCC_own; [done|done|done| |].
      - unfold ins_st. rewrite EF. by apply xst_current.
      - intros r s' Hl Hs' ->. apply answer_at; [done|]. split; [done|congruence]. }
    specialize (HI Heqb1). vstep. apply wp_in_snapshot; [done|]. vstep.
    { vstep. apply HF; [auto with vis|done|]. by rewrite HI, not_seen_in_snapshot. }
    vstep. apply wp_mvcc_commit; [done..| |]; intros Hx Hseen.
    + apply (wp_hint_xmin (clock s) false true _ (tick s)); [auto with vis|cbn; lia|done|done|done|].
      intros s' Hl Hs' _. apply HX; [|done|by rewrite HI]. eapply later_trans; [|exact Hl]. auto with vis.
    + apply (wp_hint_xmin (clock s) false false _ (tick s)); [auto with vis|cbn; lia|done|done|done|].
      intros s' Hl Hs' _. apply HF; [|done|by rewrite HI]. eapply later_trans; [|exact Hl]. auto with vis.
Qed.

End Mvcc.

(** ** The answers as results *)

Lemma result_answer `{env : XactEnv} `{laws : !XactLaws env} {R} (m : M R R) P s :
  wp m (answer P s) s ->
  exists r s' k, result m s = (inl r, s') /\ later s s' /\
    (clock s <= k <= clock s')%nat /\ P k (tup s) r (snap s').
Proof.
  intros H%wp_elim. unfold result. destruct (m s) as [o s']. cbn in H. destruct H as [Hl Ho].
  destruct o as [r|r|e]; [| |done]; destruct Ho as (k & Hk & HP); by exists r, s', k.
Qed.

(** ** A concrete transaction manager

    The running transaction is 100; 50 runs until time 5 and its commit is in
    the clog from time 3 on; 40 has committed, everything else is aborted. *)
Definition demo_env : XactEnv := {|
  TransactionIdIsCurrentTransactionId := fun x => x =? 100;
  in_progress := fun n x => (x =? 100) || ((x =? 50) && (n <? 5)%nat);
  did_commit := fun n x => (x =? 40) || ((x =? 50) && (3 <=? n)%nat);
  SubTransGetTopmost := id;
  GetMultiXactIdMembers := fun _ _ => [];
  combo := combo_init;
  TransactionIdGetCommitLSN := fun _ => 0;
  lsn_needs_flush := fun _ _ => false;
  BufferIsPermanent := true; BufferGetLSNAtomic := 0;
  ResolveCminCmaxDuringDecoding := fun _ => None |}.

#[export] Instance demo_laws : XactLaws demo_env.
Proof.
  refine {| known := fun x => 0 <= x < 1000 |}; try done.
  - intros n m x _ Hn. cbn -[Nat.ltb Nat.leb].
    destruct (x =? 100); [done|]. destruct (x =? 50); cbn -[Nat.ltb Nat.leb]; [|done].
    intros H%Nat.ltb_ge. split; [by apply Nat.ltb_ge; lia|].
    by rewrite !(proj2 (Nat.leb_le 3 _)) by lia.
  - intros n x. cbn. by intros ->.
Defined.

Definition demo_tuple (x1 x2 mask : Z) : HeapTupleHeaderData :=
  {| t_xmin := x1; t_xmax := x2; t_field3 := 7; t_ctid := {| ip_blkid := 0; ip_posid := 9 |};
     t_infomask2 := 1; t_infomask := mask |}.

(** Taken at time 0, when 50 was running. *)
Definition demo_snapshot : SnapshotData :=
  {| snapshot_type := SNAPSHOT_MVCC; xmin := 50; xmax := 60; xip := [50]; subxip := [];
     suboverflowed := false; takenDuringRecovery := false; curcid := 3; speculativeToken := 0 |}.

Definition demo_state (n : nat) (t : HeapTupleHeaderData) : vstate :=
  {| clock := n; tup := t; snap := demo_snapshot; hinted := false |}.

(** A tuple inserted by 40 and deleted by 50, without hint bits, is sound at
    any time. *)
Lemma demo_ready n : @ready demo_env demo_laws (demo_state n (demo_tuple 40 50 0)).
Proof.
  by split; split.
Qed.

(** ** Properties *)

(** C6: HeapTupleSatisfiesMVCC ends without error and answers whether the
    snapshot sees the tuple's creation and not its deletion, a function of the
    snapshot, of the transactions' fates when it was taken and of nothing that
    happens or is hinted later; the hint bits stay truthful. *)
Theorem MVCC_visibility (env : XactEnv) (laws : XactLaws env) n0 s :
  ready s -> (n0 <= clock s)%nat -> snapshot_at n0 (snap s) ->
  exists s', result HeapTupleSatisfiesMVCC s = (inl (mvcc_spec n0 (snap s) (tup s)), s') /\
    later s s' /\ snap s' = snap s.
Proof.
  intros Hr Hn Hs.
  destruct (result_answer _ _ s (wp_MVCC n0 (snap s) Hs s Hr Hn eq_refl))
    as (r & s' & k & Hres & Hl & _ & -> & Hs'). by exists s'.
Qed.

(** The deleter 50 has committed by time 6, but the snapshot does not see it. *)
Lemma MVCC_visibility_witness :
  fst (@result bool (@HeapTupleSatisfiesMVCC demo_env) (demo_state 6 (demo_tuple 40 50 0))) = inl true /\
  fst (@result bool (@HeapTupleSatisfiesSelf demo_env) (demo_state 6 (demo_tuple 40 50 0))) = inl false.
Proof.
  destruct (MVCC_visibility demo_env demo_laws 0 (demo_state 6 (demo_tuple 40 50 0)))
    as (s' & H & _).
  - apply demo_ready.
  - cbn. lia.
  - intros x _. cbn -[Z.eqb]. unfold settled, xst. cbn -[Z.eqb XidInMVCCSnapshot].
    intros -> . destruct (Z.eqb_spec x 50) as [->|]; [vm_compute; done|]. intros _.
    cbn. rewrite orb_false_r. destruct (x =? 40); auto.
  - split; [rewrite H; vm_compute; reflexivity|vm_compute; reflexivity].
Defined.



(** HeapTupleSatisfiesSelf answers what is true at some moment of the
    call: the tuple's creator has committed or is the running transaction, and
    its deleter is neither. *)
Theorem Self_visibility (env : XactEnv) (laws : XactLaws env) s :
  ready s ->
  exists s' k, (clock s <= k <= clock s')%nat /\
    result HeapTupleSatisfiesSelf s = (inl (self_spec k (tup s)), s') /\
    later s s' /\ snap s' = snap s.
Proof.
  intros Hr. destruct (result_answer _ _ s (wp_Self s Hr))
    as (r & s' & k & Hres & Hl & Hk & -> & Hs'). by exists s', k.
Qed.

Lemma Self_visibility_witness :
  exists s' k, (0 <= k <= clock s')%nat /\
    result (@HeapTupleSatisfiesSelf demo_env) (demo_state 0 (demo_tuple 40 50 0)) =
    (inl true, s') /\ @self_spec demo_env k (demo_tuple 40 50 0) = true.
Proof.
  destruct (Self_visibility demo_env demo_laws (demo_state 0 (demo_tuple 40 50 0)))
    as (s' & k & Hk & H & _); [apply demo_ready|].
  exists s', k. split; [exact Hk|]. rewrite H.
  assert (fst (result (@HeapTupleSatisfiesSelf demo_env) (demo_state 0 (demo_tuple 40 50 0))) = inl true)
    as E by (vm_compute; reflexivity).
  rewrite H in E. cbn in E. injection E as E. cbn in *. rewrite E. auto.
Defined.

(** HeapTupleSatisfiesDirty also sees tuples being inserted or deleted,
    and reports in the snapshot exactly the transaction to wait for, or the
    speculative token; the report is right at some moment of the call. *)
Theorem Dirty_visibility (env : XactEnv) (laws : XactLaws env) s :
  ready s ->
  exists r s' k, (clock s <= k <= clock s')%nat /\
    result HeapTupleSatisfiesDirty s = (inl r, s') /\ later s s' /\
    (r, xmin (snap s'), xmax (snap s'), speculativeToken (snap s')) = dirty_spec k (tup s).
Proof.
  intros Hr. destruct (result_answer _ _ s (wp_Dirty s Hr)) as (r & s' & k & Hres & Hl & Hk & HP).
  by exists r, s', k.
Qed.

Lemma Dirty_visibility_witness :
  let '(r, s') := result (@HeapTupleSatisfiesDirty demo_env) (demo_state 0 (demo_tuple 40 50 0)) in
  r = inl true /\ xmax (snap s') = 50.
Proof.
  destruct (Dirty_visibility demo_env demo_laws (demo_state 0 (demo_tuple 40 50 0)))
    as (r & s' & k & _ & H & _ & Hr); [apply demo_ready|].
  rewrite H. vm_compute in H. injection H as <- <-. auto.
Defined.

(** C9: every answer of HeapTupleSatisfiesUpdate is justified at some moment
    of the call; in particular TM_Ok is given only if no deleter or updater of
    the tuple has committed or is running, TM_Updated and TM_Deleted only if
    one has committed. *)
Theorem Update_visibility (env : XactEnv) (laws : XactLaws env) self cid s :
  ready s ->
  exists r s' k, (clock s <= k <= clock s')%nat /\
    result (HeapTupleSatisfiesUpdate self cid) s = (inl r, s') /\
    update_spec k self cid (tup s) r /\ later s s' /\ snap s' = snap s.
Proof.
  intros Hr. destruct (result_answer _ _ s (wp_Update self cid s Hr))
    as (r & s' & k & Hres & Hl & Hk & HP & Hs). by exists r, s', k.
Qed.

Lemma Update_visibility_witness :
  let call n := fst (result (@HeapTupleSatisfiesUpdate demo_env {| ip_blkid := 0; ip_posid := 1 |} 3)
                       (demo_state n (demo_tuple 40 50 0))) in
  call 0%nat = inl TM_BeingModified /\ call 6%nat = inl TM_Updated /\
  exists k, @update_spec demo_env k {| ip_blkid := 0; ip_posid := 1 |} 3 (demo_tuple 40 50 0) TM_Updated.
Proof.
  destruct (Update_visibility demo_env demo_laws {| ip_blkid := 0; ip_posid := 1 |} 3
    (demo_state 6 (demo_tuple 40 50 0))) as (r & s' & k & _ & H & HP & _); [apply demo_ready|].
  split; [vm_compute; reflexivity|]. split; [vm_compute; reflexivity|]. exists k.
  vm_compute in H. injection H as <- _. exact HP.
Defined.

(** HeapTupleSatisfiesVacuum classifies the tuple by the fates of its
    creator and deleter at some moment of the call. *)
Theorem Vacuum_classification (env : XactEnv) (laws : XactLaws env) OldestXmin s :
  ready s ->
  exists s' k, (clock s <= k <= clock s')%nat /\
    result (HeapTupleSatisfiesVacuum OldestXmin) s =
      (inl (vacuum_spec k OldestXmin (tup s)), s') /\ later s s' /\ snap s' = snap s.
Proof.
  intros Hr. destruct (result_answer _ _ s (wp_Vacuum OldestXmin s Hr))
    as (r & s' & k & Hres & Hl & Hk & -> & Hs). by exists s', k.
Qed.

Lemma Vacuum_classification_witness :
  let call n o := fst (result (@HeapTupleSatisfiesVacuum demo_env o)
                         (demo_state n (demo_tuple 40 50 0))) in
  call 6%nat 51 = inl HEAPTUPLE_DEAD /\ call 6%nat 50 = inl HEAPTUPLE_RECENTLY_DEAD /\
  exists k, @vacuum_spec demo_env k 51 (demo_tuple 40 50 0) = HEAPTUPLE_DEAD.
Proof.
  destruct (Vacuum_classification demo_env demo_laws 51 (demo_state 6 (demo_tuple 40 50 0)))
    as (s' & k & _ & H & _); [apply demo_ready|].
  split; [vm_compute; reflexivity|]. split; [vm_compute; reflexivity|]. exists k.
  assert (fst (result (@HeapTupleSatisfiesVacuum demo_env 51) (demo_state 6 (demo_tuple 40 50 0)))
          = inl HEAPTUPLE_DEAD) as E by (vm_compute; reflexivity).
  rewrite H in E. injection E as E. exact E.
Defined.

(** Two backends on one cluster: only the notion of "current" differs. *)
Definition same_cluster (env1 env2 : XactEnv) : Prop :=
  @in_progress env1 = @in_progress env2 /\ @did_commit env1 = @did_commit env2 /\
  @GetMultiXactIdMembers env1 = @GetMultiXactIdMembers env2.

(** An ended transaction looks the same from every backend. *)
Lemma settled_everywhere (env1 env2 : XactEnv) (laws1 : XactLaws env1) (laws2 : XactLaws env2) n x :
  same_cluster env1 env2 -> settled (@xst env1 n x) -> @xst env2 n x = @xst env1 n x.
Proof.
  intros (Hp & Hc & _) Hs.
  apply (@settled_spec env1 laws1) in Hs as H1.
  assert (@in_progress env2 n x = false) as H2 by by rewrite <- Hp.
  destruct (@not_in_progress env1 laws1 n x H1) as [E1 _].
  destruct (@not_in_progress env2 laws2 n x H2) as [E2 _].
  unfold xst. by rewrite E1, E2, H1, H2, Hc.
Qed.

(** If the clog and the snapshot agree that the creation is aborted or the
    deletion committed, the snapshot does not see the tuple. *)
Lemma dead_unseen (env : XactEnv) (laws : XactLaws env) n0 sn s k :
  snapshot_at n0 sn -> ready s -> (n0 <= clock s)%nat -> (k <= clock s)%nat ->
  (HeapTupleHeaderXminFrozen (tup s) = false /\ xst k (t_xmin (tup s)) = XAborted) \/
  (exists d, updater (tup s) = Some d /\ xst k d = XCommitted /\
     XidInMVCCSnapshot SubTransGetTopmost d sn = false) ->
  mvcc_spec n0 sn (tup s) = false.
Proof.
  intros Hsn [Hw _] Hn Hk [[HF Hx]|(d & Hu & Hd & Hin)]; unfold mvcc_spec.
  - apply andb_false_iff. left. unfold mvcc_ins. rewrite HF.
    pose proof (wf_xmin _ _ Hw) as Hkn.
    apply (xst_aborted_mono k (clock s)) in Hx; [|done|done].
    destruct (TransactionIdIsCurrentTransactionId _) eqn:E.
    + apply (xst_current (clock s)) in E. congruence.
    + by apply (seen_aborted n0 sn Hsn (clock s)).
  - apply andb_false_iff. right. unfold mvcc_del. rewrite Hu.
    pose proof (wf_updater _ _ Hw d Hu) as Hkn.
    apply (xst_committed_mono k (clock s)) in Hd; [|done|done].
    destruct (TransactionIdIsCurrentTransactionId d) eqn:E.
    + apply (xst_current (clock s)) in E. congruence.
    + rewrite (seen_later n0 sn Hsn (clock s)); [by rewrite Hin, Hd|done|done|done|].
      rewrite Hd. by left.
Qed.

Lemma dead_spec (env : XactEnv) (laws : XactLaws env) k OldestXmin t :
  vacuum_spec k OldestXmin t = HEAPTUPLE_DEAD ->
  (HeapTupleHeaderXminFrozen t = false /\ xst k (t_xmin t) = XAborted) \/
  (exists d, updater t = Some d /\ xst k d = XCommitted /\
     TransactionIdPrecedes d OldestXmin = true).
Proof.
  unfold vacuum_spec. destruct (ins_st k t) eqn:Ei; try done; try (by case_match).
  - destruct (del_st k t) eqn:Ed; try done. case_match; [|done]. intros _. right.
    unfold del_st in Ed. destruct (updater t) as [d|]; [|done]. by exists d.
  - intros _. left. unfold ins_st in Ei. by case_match.
Qed.

(** C8: vacuum removes only what nobody can see: if VACUUM in one backend
    classifies a tuple as DEAD with a horizon no later than a snapshot of any
    backend, HeapTupleSatisfiesMVCC with that snapshot, called at any time
    afterwards, does not show the tuple. *)
Theorem vacuum_safe (env1 env2 : XactEnv) (laws1 : XactLaws env1) (laws2 : XactLaws env2)
  OldestXmin n0 s1 s1' s2 :
  same_cluster env1 env2 ->
  @ready env1 laws1 s1 -> @ready env2 laws2 s2 ->
  result (@HeapTupleSatisfiesVacuum env1 OldestXmin) s1 = (inl HEAPTUPLE_DEAD, s1') ->
  hinted_from (tup s1) (tup s2) -> (clock s1' <= clock s2)%nat -> (n0 <= clock s2)%nat ->
  @snapshot_at env2 laws2 n0 (snap s2) ->
  (forall x, @known env2 laws2 x -> TransactionIdPrecedes x OldestXmin = true ->
     XidInMVCCSnapshot (@SubTransGetTopmost env2) x (snap s2) = false) ->
  fst (result (@HeapTupleSatisfiesMVCC env2) s2) = inl false.
Proof.
  intros Hsame Hr1 Hr2 Hv Hf Hc Hn Hsn Hhor.
  destruct (@result_answer env1 laws1 _ _ _ s1 (wp_Vacuum OldestXmin s1 Hr1))
    as (r & s & k & Hres & _ & Hk & Hspec & _).
  rewrite Hv in Hres. injection Hres as <- <-. symmetry in Hspec.
  destruct (@result_answer env2 laws2 _ _ _ s2 (wp_MVCC n0 _ Hsn s2 Hr2 Hn eq_refl))
    as (r & s' & k' & -> & _ & _ & -> & _).
  cbn. f_equal. apply (dead_unseen env2 laws2 n0 _ s2 k); [done|done|done|lia|].
  destruct (@hinted_same env1 _ _ Hf) as (Ex & Em & _ & _ & EM & EL & _ & _ & _ & _ & EF).
  assert (@updater env2 (tup s2) = @updater env1 (tup s1)) as Eu.
  { unfold updater, HeapTupleGetUpdateXid, MultiXactIdGetUpdateXid, HeapTupleHeaderGetRawXmax.
    destruct Hsame as (_ & _ & Hmm). by rewrite EL, EM, Em, Hmm. }
  rewrite Eu, Ex, EF. apply (dead_spec env1 laws1) in Hspec as [[HF Hx]|(d & Hu & Hd & Hp)].
  - left. split; [done|]. rewrite (settled_everywhere env1 env2 laws1 laws2); [done|done|].
    rewrite Hx. by right.
  - right. exists d. split; [done|].
    assert (@known env2 laws2 d) as Hkn by (eapply wf_updater; [apply Hr2|by rewrite Eu]).
    split; [|by apply Hhor].
    rewrite (settled_everywhere env1 env2 laws1 laws2); [done|done|]. rewrite Hd. by left.
Qed.

Definition demo_reader : vstate :=
  {| clock := 20; tup := demo_tuple 40 50 0;
     snap := {| snapshot_type := SNAPSHOT_MVCC; xmin := 55; xmax := 60; xip := [55]; subxip := [];
                suboverflowed := false; takenDuringRecovery := false; curcid := 3;
                speculativeToken := 0 |};
     hinted := false |}.

Lemma vacuum_safe_witness :
  fst (result (@HeapTupleSatisfiesMVCC demo_env) demo_reader) = inl false.
Proof.
  apply (vacuum_safe demo_env demo_env demo_laws demo_laws 51 6 (demo_state 6 (demo_tuple 40 50 0))
    (snd (result (@HeapTupleSatisfiesVacuum demo_env 51) (demo_state 6 (demo_tuple 40 50 0))))).
  - split; [reflexivity|split; reflexivity].
  - apply demo_ready.
  - by split; split.
  - vm_compute. reflexivity.
  - apply hinted_from_refl.
  - vm_compute. lia.
  - vm_compute. lia.
  - intros x _ Hc _. unfold settled, xst. rewrite Hc.
    cbn -[Z.eqb] in Hc |- *. rewrite Hc. cbn -[Z.eqb]. rewrite andb_false_r. cbn -[Z.eqb].
    destruct (_ || _); [left|right]; reflexivity.
  - intros x [Hx1 Hx2] H. unfold XidInMVCCSnapshot. cbn [snap demo_reader xmin xmax].
    rewrite precedes_small in H by lia. rewrite precedes_small by lia.
    apply Z.ltb_lt in H. replace (x <? 55) with true; [reflexivity|].
    symmetry. apply Z.ltb_lt. lia.
Defined.

(** HeapTupleIsSurelyDead, which looks at hint bits only, never says yes
    when HeapTupleSatisfiesVacuum would not answer DEAD; no question is asked
    and nothing is hinted in that case. *)
Theorem SurelyDead_sound (env : XactEnv) OldestXmin s :
  HeapTupleIsSurelyDead (tup s) OldestXmin = true ->
  result (HeapTupleSatisfiesVacuum OldestXmin) s = (inl HEAPTUPLE_DEAD, s).
Proof.
  intros H. unfold HeapTupleIsSurelyDead in H.
  unfold result, HeapTupleSatisfiesVacuum, Vacuum_xmin, Vacuum_xmax.
  repeat (unfold mbind at 1, get_tuple at 1). cbn -[has] in *.
  destruct (HeapTupleHeaderXminCommitted (tup s)) eqn:E1; cbn -[has] in *.
  - unfold mbind, get_tuple, skip, mret, return_ in *. cbn -[has] in *.
    repeat (case_match; simplify_eq/=; try done).
    by match goal with H : negb _ = true |- _ => apply negb_true_iff in H; congruence end.
  - by destruct (HeapTupleHeaderXminInvalid (tup s)).
Qed.

Lemma SurelyDead_sound_witness :
  HeapTupleIsSurelyDead (demo_tuple 40 50 0x500) 51 = true /\
  fst (result (@HeapTupleSatisfiesVacuum demo_env 51) (demo_state 0 (demo_tuple 40 50 0x500))) =
  inl HEAPTUPLE_DEAD.
Proof.
  split; [vm_compute; reflexivity|].
  rewrite (SurelyDead_sound demo_env 51 (demo_state 0 (demo_tuple 40 50 0x500))); reflexivity.
Defined.

End VisibilityProofs.
