(* ===== verification/ProcArray.v ===== *)
(** * The shared array of running transactions

    Models [src/backend/storage/ipc/procarray.c]: entering and leaving the
    array, the end of a transaction (alone or for a group of backends), the
    test whether a transaction is in progress, the taking of a snapshot and
    the computation of the removal horizon.

    Every routine runs under [ProcArrayLock] and is one function of the shared
    state.  The two facts it leans on that live elsewhere are arguments:
    [topmost] is [SubTransGetTopmostTransaction] and [did_abort] is
    [TransactionIdDidAbort]; the KnownAssignedXids array of hot standby is an
    argument of the recovery branches. *)

From S2P Require Import Prelude.
From S2P Require Import Transam.
From S2P Require Import Snapshot.

Import Transam Snapshot.

Open Scope Z_scope.

Module ProcArray.

(** ** State *)

(** [vacuumFlags] *)
Definition PROC_IN_VACUUM : Z := 0x02.
Definition PROC_IN_ANALYZE : Z := 0x04.
Definition PROC_VACUUM_FOR_WRAPAROUND : Z := 0x08.
Definition PROC_IN_LOGICAL_DECODING : Z := 0x10.
Definition PROC_VACUUM_STATE_MASK : Z :=
  Z.lor (Z.lor PROC_IN_VACUUM PROC_IN_ANALYZE) PROC_VACUUM_FOR_WRAPAROUND.

Definition PROCARRAY_SLOTS_XMIN : Z := 0x20.
Definition PROCARRAY_PROC_FLAGS_MASK : Z :=
  Z.lor (Z.lor PROC_IN_VACUUM PROC_IN_ANALYZE) PROC_IN_LOGICAL_DECODING.

(** The fields of a PGPROC and its PGXACT that this file works on; [nxids] is
    the length of [subxids]. *)
Record PGPROC := {
  pgprocno : Z; pid : Z; backendId : Z; databaseId : Z; lxid : Z;
  xid : Z; pxmin : Z; vacuumFlags : Z; overflowed : bool; delayChkpt : bool;
  subxids : list Z; recoveryConflictPending : bool }.

Record ProcArrayStruct := {
  maxProcs : Z;
  pgprocnos : list Z;              (* [numProcs] entries *)
  allProcs : Z -> PGPROC;          (* allProcs and allPgXact, by number *)
  latestCompletedXid : Z;          (* of ShmemVariableCache *)
  lastOverflowedXid : Z;
  replication_slot_xmin : Z;
  replication_slot_catalog_xmin : Z }.

Definition set_procs (nos : list Z) (all : Z -> PGPROC) (latest : Z) (a : ProcArrayStruct)
  : ProcArrayStruct :=
  {| maxProcs := maxProcs a; pgprocnos := nos; allProcs := all; latestCompletedXid := latest;
     lastOverflowedXid := lastOverflowedXid a;
     replication_slot_xmin := replication_slot_xmin a;
     replication_slot_catalog_xmin := replication_slot_catalog_xmin a |}.

Definition upd_proc (n : Z) (p : PGPROC) (all : Z -> PGPROC) : Z -> PGPROC :=
  fun k => if k =? n then p else all k.

Definition advance_latest (latestXid : Z) (a : ProcArrayStruct) : Z :=
  if TransactionIdPrecedes (latestCompletedXid a) latestXid then latestXid
  else latestCompletedXid a.

(** ** Entering and leaving *)

(** The insertion keeps the array sorted by number: [break] at the first
    larger entry, then [memmove]. *)
Fixpoint insert_procno (n : Z) (nos : list Z) : list Z :=
  match nos with
  | [] => [n]
  | k :: nos' => if (k =? -1) || (n <? k) then n :: nos else k :: insert_procno n nos'
  end.

(** [None] is the FATAL error "sorry, too many clients already". *)
Definition ProcArrayAdd (n : Z) (a : ProcArrayStruct) : option ProcArrayStruct :=
  if maxProcs a <=? Z.of_nat (length (pgprocnos a)) then None
  else Some (set_procs (insert_procno n (pgprocnos a)) (allProcs a) (latestCompletedXid a) a).

Fixpoint remove_procno (n : Z) (nos : list Z) : option (list Z) :=
  match nos with
  | [] => None
  | k :: nos' => if k =? n then Some nos' else cons k <$> remove_procno n nos'
  end.

(** The boolean is false for the LOG message "failed to find proc". *)
Definition ProcArrayRemove (n latestXid : Z) (a : ProcArrayStruct) : bool * ProcArrayStruct :=
  let latest := if TransactionIdIsValid latestXid then advance_latest latestXid a
                else latestCompletedXid a in
  match remove_procno n (pgprocnos a) with
  | Some nos => (true, set_procs nos (allProcs a) latest a)
  | None => (false, set_procs (pgprocnos a) (allProcs a) latest a)
  end.

(** ** The end of a transaction *)

Definition InvalidLocalTransactionId : Z := 0.

(** The assignments common to the routines that end a transaction. *)
Definition clear_proc (new_xid : Z) (subs : list Z) (ovf : bool) (p : PGPROC) : PGPROC :=
  {| pgprocno := pgprocno p; pid := pid p; backendId := backendId p;
     databaseId := databaseId p; lxid := InvalidLocalTransactionId;
     xid := new_xid; pxmin := InvalidTransactionId;
     vacuumFlags := Z.ldiff (vacuumFlags p) PROC_VACUUM_STATE_MASK;
     overflowed := ovf; delayChkpt := false; subxids := subs;
     recoveryConflictPending := false |}.

Definition ProcArrayEndTransactionInternal (n latestXid : Z) (a : ProcArrayStruct)
  : ProcArrayStruct :=
  set_procs (pgprocnos a)
    (upd_proc n (clear_proc InvalidTransactionId [] false (allProcs a n)) (allProcs a))
    (advance_latest latestXid a) a.

(** The leader of a group clears the ids of all members in list order, while
    holding the lock; [members] are the entries of the lock-free list, each
    with its [procArrayGroupMemberXid]. *)
Definition ProcArrayGroupClearXid (members : list (Z * Z)) (a : ProcArrayStruct)
  : ProcArrayStruct :=
  fold_left (fun a m => ProcArrayEndTransactionInternal m.1 m.2 a) members a.

(** [lock_free] is the answer of [LWLockConditionalAcquire]; otherwise this
    backend joins a group, whose [others] the leader (this backend or another
    one) clears together with it. *)
Definition ProcArrayEndTransaction (n latestXid : Z) (lock_free : bool)
  (before after : list (Z * Z)) (a : ProcArrayStruct) : ProcArrayStruct :=
  if TransactionIdIsValid latestXid then
    if lock_free then ProcArrayEndTransactionInternal n latestXid a
    else ProcArrayGroupClearXid (before ++ (n, latestXid) :: after) a
  else
    let p := allProcs a n in
    set_procs (pgprocnos a)
      (upd_proc n (clear_proc (xid p) (subxids p) (overflowed p) p) (allProcs a))
      (latestCompletedXid a) a.

(** Used after PREPARE TRANSACTION: the ids now belong to a dummy entry. *)
Definition ProcArrayClearTransaction (n : Z) (a : ProcArrayStruct) : ProcArrayStruct :=
  set_procs (pgprocnos a)
    (upd_proc n (clear_proc InvalidTransactionId [] false (allProcs a n)) (allProcs a))
    (latestCompletedXid a) a.

(** ** Is a transaction in progress? *)

(** The scan of the array.  [inl true] is an early [return true]; otherwise
    the [xids] array of the top-level ids whose subtransaction caches have
    overflowed.  [j] runs downwards over the cache. *)
Fixpoint InProgress_scan (me x : Z) (all : Z -> PGPROC) (nos : list Z) (xids : list Z)
  : bool + list Z :=
  match nos with
  | [] => inr xids
  | k :: nos' =>
      let p := all k in
      if k =? me then InProgress_scan me x all nos' xids
      else
        let pxid := xid p in
        if negb (TransactionIdIsValid pxid) then InProgress_scan me x all nos' xids
        else if pxid =? x then inl true
        else if TransactionIdPrecedes x pxid then InProgress_scan me x all nos' xids
        else if xid_in x (rev (subxids p)) then inl true
        else if overflowed p then InProgress_scan me x all nos' (xids ++ [pxid])
        else InProgress_scan me x all nos' xids
  end.

(** What the routine consults besides the array: backend-local state, the
    clog cache, and the answers of the recovery machinery. *)
Record inprogress_env := {
  MyProcNo : Z;
  RecentXmin : Z;
  IsKnownCompleted : Z -> bool;
  IsCurrentXid : Z -> bool;
  RecoveryInProgress : bool;
  KnownAssignedXidExists : Z -> bool;
  KnownAssignedXidsGet : Z -> list Z;
  DidAbort : Z -> bool;
  SubTransTopmost : Z -> Z }.

(** The search through pg_subtrans when some cache has overflowed. *)
Definition InProgress_slow (env : inprogress_env) (x : Z) (xids : list Z) : bool :=
  match xids with
  | [] => false
  | _ =>
      if DidAbort env x then false
      else
        let topxid := SubTransTopmost env x in
        if negb (topxid =? x) then xid_in topxid xids else false
  end.

Definition TransactionIdIsInProgress (env : inprogress_env) (x : Z) (a : ProcArrayStruct) : bool :=
  if TransactionIdPrecedes x (RecentXmin env) then false
  else if IsKnownCompleted env x then false
  else if IsCurrentXid env x then true
  else if TransactionIdPrecedes (latestCompletedXid a) x then true
  else
    match InProgress_scan (MyProcNo env) x (allProcs a) (pgprocnos a) [] with
    | inl b => b
    | inr xids =>
        if RecoveryInProgress env then
          if KnownAssignedXidExists env x then true
          else
            InProgress_slow env x
              (if TransactionIdPrecedesOrEquals x (lastOverflowedXid a)
               then KnownAssignedXidsGet env x else xids)
        else InProgress_slow env x xids
    end.

Fixpoint IsActive_scan (x : Z) (all : Z -> PGPROC) (nos : list Z) : bool :=
  match nos with
  | [] => false
  | k :: nos' =>
      let p := all k in
      if negb (TransactionIdIsValid (xid p)) then IsActive_scan x all nos'
      else if pid p =? 0 then IsActive_scan x all nos'
      else if xid p =? x then true
      else IsActive_scan x all nos'
  end.

Definition TransactionIdIsActive (env : inprogress_env) (x : Z) (a : ProcArrayStruct) : bool :=
  if TransactionIdPrecedes x (RecentXmin env) then false
  else IsActive_scan x (allProcs a) (pgprocnos a).

(** ** The removal horizon *)

Record horizon_env := {
  MyDatabaseId : Z;
  hz_recovery : bool;
  KnownAssignedXidsGetOldestXmin : Z;
  vacuum_defer_cleanup_age : Z }.

(** "older than the result so far": the test and assignment that occur for
    [xid] and [xmin] of each entry. *)
Definition older (x result : Z) : Z :=
  if TransactionIdIsNormal x && TransactionIdPrecedes x result then x else result.

Fixpoint OldestXmin_scan (env : horizon_env) (allDbs : bool) (flags : Z)
  (all : Z -> PGPROC) (nos : list Z) (result : Z) : Z :=
  match nos with
  | [] => result
  | k :: nos' =>
      let p := all k in
      if negb (Z.land (vacuumFlags p) (Z.land flags PROCARRAY_PROC_FLAGS_MASK) =? 0)
      then OldestXmin_scan env allDbs flags all nos' result
      else if allDbs || (databaseId p =? MyDatabaseId env) || (databaseId p =? 0)
      then OldestXmin_scan env allDbs flags all nos' (older (pxmin p) (older (xid p) result))
      else OldestXmin_scan env allDbs flags all nos' result
  end.

(** [NormalTransactionIdPrecedes] on ids known to be normal. *)
Definition NormalTransactionIdPrecedes (id1 id2 : Z) : bool := s32 (id1 - id2) <? 0.

(** [rel = None] is a NULL relation; [Some (shared, logical)] gives
    [rd_rel->relisshared] and [RelationIsAccessibleInLogicalDecoding]. *)
Definition GetOldestXmin (env : horizon_env) (rel : option (bool * bool)) (flags : Z)
  (a : ProcArrayStruct) : Z :=
  let allDbs := match rel with None => true | Some (shared, _) => shared end in
  let result := OldestXmin_scan env allDbs flags (allProcs a) (pgprocnos a)
                  (TransactionIdAdvance (latestCompletedXid a)) in
  let result :=
    if hz_recovery env then older (KnownAssignedXidsGetOldestXmin env) result
    else
      let result := u32 (result - vacuum_defer_cleanup_age env) in
      if negb (TransactionIdIsNormal result) then FirstNormalTransactionId else result in
  let no_slots := Z.land flags PROCARRAY_SLOTS_XMIN =? 0 in
  let result :=
    if no_slots && TransactionIdIsValid (replication_slot_xmin a) &&
       NormalTransactionIdPrecedes (replication_slot_xmin a) result
    then replication_slot_xmin a else result in
  if no_slots && (match rel with None => true | Some (_, logical) => logical end) &&
     TransactionIdIsValid (replication_slot_catalog_xmin a) &&
     NormalTransactionIdPrecedes (replication_slot_catalog_xmin a) result
  then replication_slot_catalog_xmin a else result.

(** ** Taking a snapshot *)

(** The loop variables of [GetSnapshotData]. *)
Record snap_acc := {
  sa_xmin : Z; sa_globalxmin : Z; sa_xip : list Z; sa_subxip : list Z;
  sa_suboverflowed : bool }.

(** One round of the loop over the array. *)
Definition Snapshot_step (me xmax k : Z) (p : PGPROC) (s : snap_acc) : snap_acc :=
  if negb (Z.land (vacuumFlags p) (Z.lor PROC_IN_LOGICAL_DECODING PROC_IN_VACUUM) =? 0) then s
  else
    let globalxmin :=
      if TransactionIdIsNormal (pxmin p) &&
         NormalTransactionIdPrecedes (pxmin p) (sa_globalxmin s)
      then pxmin p else sa_globalxmin s in
    let x := xid p in
    if negb (TransactionIdIsNormal x) || negb (NormalTransactionIdPrecedes x xmax) then
      {| sa_xmin := sa_xmin s; sa_globalxmin := globalxmin; sa_xip := sa_xip s;
         sa_subxip := sa_subxip s; sa_suboverflowed := sa_suboverflowed s |}
    else
      let xmin := if NormalTransactionIdPrecedes x (sa_xmin s) then x else sa_xmin s in
      if k =? me then
        {| sa_xmin := xmin; sa_globalxmin := globalxmin; sa_xip := sa_xip s;
           sa_subxip := sa_subxip s; sa_suboverflowed := sa_suboverflowed s |}
      else
        {| sa_xmin := xmin; sa_globalxmin := globalxmin; sa_xip := sa_xip s ++ [x];
           sa_subxip := if sa_suboverflowed s then sa_subxip s
                        else if overflowed p then sa_subxip s else sa_subxip s ++ subxids p;
           sa_suboverflowed := sa_suboverflowed s || overflowed p |}.

Definition Snapshot_scan (me xmax : Z) (all : Z -> PGPROC) (nos : list Z) (s : snap_acc)
  : snap_acc :=
  fold_left (fun s k => Snapshot_step me xmax k (all k) s) nos s.

Record snapshot_env := {
  sn_me : Z;                       (* MyPgXact's number *)
  sn_recovery : bool;
  (* KnownAssignedXidsGetAndSetXmin(subxip, &xmin, xmax): subxip and xmin *)
  KnownAssignedXidsGetAndSetXmin : Z -> Z -> list Z * Z;
  GetCurrentCommandId : Z;
  sn_defer : Z;
  sn_TransactionXmin : Z }.

(** The backend-local variables that the routine sets. *)
Record snapshot_globals := {
  g_TransactionXmin : Z; g_RecentGlobalXmin : Z; g_RecentGlobalDataXmin : Z; g_RecentXmin : Z }.

(** The last part: the global horizons, from [globalxmin] and the slots. *)
Definition Snapshot_globals (env : snapshot_env) (a : ProcArrayStruct) (xmin globalxmin : Z)
  (TransactionXmin : Z) : snapshot_globals :=
  let globalxmin := if TransactionIdPrecedes xmin globalxmin then xmin else globalxmin in
  let r := u32 (globalxmin - sn_defer env) in
  let r := if negb (TransactionIdIsNormal r) then FirstNormalTransactionId else r in
  let r := if TransactionIdIsValid (replication_slot_xmin a) &&
              NormalTransactionIdPrecedes (replication_slot_xmin a) r
           then replication_slot_xmin a else r in
  let rc := if TransactionIdIsNormal (replication_slot_catalog_xmin a) &&
               NormalTransactionIdPrecedes (replication_slot_catalog_xmin a) r
            then replication_slot_catalog_xmin a else r in
  {| g_TransactionXmin := TransactionXmin; g_RecentGlobalXmin := rc;
     g_RecentGlobalDataXmin := r; g_RecentXmin := xmin |}.

Definition set_pxmin (x : Z) (p : PGPROC) : PGPROC :=
  {| pgprocno := pgprocno p; pid := pid p; backendId := backendId p;
     databaseId := databaseId p; lxid := lxid p; xid := xid p; pxmin := x;
     vacuumFlags := vacuumFlags p; overflowed := overflowed p; delayChkpt := delayChkpt p;
     subxids := subxids p; recoveryConflictPending := recoveryConflictPending p |}.

Definition install_xmin (n x : Z) (a : ProcArrayStruct) : ProcArrayStruct :=
  set_procs (pgprocnos a) (upd_proc n (set_pxmin x (allProcs a n)) (allProcs a))
    (latestCompletedXid a) a.

Definition GetSnapshotData (env : snapshot_env) (type : SnapshotType) (token : Z)
  (a : ProcArrayStruct) : SnapshotData * snapshot_globals * ProcArrayStruct :=
  let xmax := TransactionIdAdvance (latestCompletedXid a) in
  let start := {| sa_xmin := xmax; sa_globalxmin := xmax; sa_xip := []; sa_subxip := [];
                  sa_suboverflowed := false |} in
  let acc :=
    if negb (sn_recovery env)
    then Snapshot_scan (sn_me env) xmax (allProcs a) (pgprocnos a) start
    else
      let '(subs, xmin) := KnownAssignedXidsGetAndSetXmin env xmax xmax in
      {| sa_xmin := xmin; sa_globalxmin := xmax; sa_xip := []; sa_subxip := subs;
         sa_suboverflowed := TransactionIdPrecedesOrEquals xmin (lastOverflowedXid a) |} in
  let xmin := sa_xmin acc in
  let first := negb (TransactionIdIsValid (pxmin (allProcs a (sn_me env)))) in
  let a' := if first then install_xmin (sn_me env) xmin a else a in
  let TransactionXmin := if first then xmin else sn_TransactionXmin env in
  ({| snapshot_type := type; Snapshot.xmin := xmin; Snapshot.xmax := xmax; xip := sa_xip acc;
      subxip := sa_subxip acc; suboverflowed := sa_suboverflowed acc;
      takenDuringRecovery := sn_recovery env; curcid := GetCurrentCommandId env;
      speculativeToken := token |},
   Snapshot_globals env a xmin (sa_globalxmin acc) TransactionXmin, a').

(** ** Importing a snapshot's xmin *)

Fixpoint Imported_scan (env : horizon_env) (bid lx xmin : Z) (all : Z -> PGPROC)
  (nos : list Z) : bool :=
  match nos with
  | [] => false
  | k :: nos' =>
      let p := all k in
      if negb (Z.land (vacuumFlags p) PROC_IN_VACUUM =? 0) then Imported_scan env bid lx xmin all nos'
      else if negb (backendId p =? bid) then Imported_scan env bid lx xmin all nos'
      else if negb (lxid p =? lx) then Imported_scan env bid lx xmin all nos'
      else if negb (databaseId p =? MyDatabaseId env) then Imported_scan env bid lx xmin all nos'
      else if negb (TransactionIdIsNormal (pxmin p)) ||
              negb (TransactionIdPrecedesOrEquals (pxmin p) xmin)
      then Imported_scan env bid lx xmin all nos'
      else true
  end.

(** [sourcevxid] is the source's backend id and local transaction id. *)
Definition ProcArrayInstallImportedXmin (env : horizon_env) (me xmin : Z)
  (sourcevxid : option (Z * Z)) (a : ProcArrayStruct) : bool * ProcArrayStruct :=
  match sourcevxid with
  | None => (false, a)
  | Some (bid, lx) =>
      if Imported_scan env bid lx xmin (allProcs a) (pgprocnos a)
      then (true, install_xmin me xmin a) else (false, a)
  end.

Definition ProcArrayInstallRestoredXmin (env : horizon_env) (me xmin n : Z)
  (a : ProcArrayStruct) : bool * ProcArrayStruct :=
  let p := allProcs a n in
  if (databaseId p =? MyDatabaseId env) && TransactionIdIsNormal (pxmin p) &&
     TransactionIdPrecedesOrEquals (pxmin p) xmin
  then (true, install_xmin me xmin a) else (false, a).

(** ** Aborted subtransactions leave the cache *)

(** [XidCacheRemove(j)]: the last entry moves into the hole. *)
Definition XidCacheRemove (j : nat) (xs : list Z) : list Z :=
  take (length xs - 1) (<[j := List.last xs 0]> xs).

(** The highest index holding [x], scanning down from the end. *)
Fixpoint rfind (x : Z) (xs : list Z) : option nat :=
  match xs with
  | [] => None
  | y :: ys => match rfind x ys with
               | Some j => Some (S j)
               | None => if y =? x then Some O else None
               end
  end.

(** The boolean asks for the WARNING "did not find subXID". *)
Definition remove_one (ovf : bool) (x : Z) (xs : list Z) : list Z * bool :=
  match rfind x xs with
  | Some j => (XidCacheRemove j xs, false)
  | None => (xs, negb ovf)
  end.

Fixpoint remove_many (ovf : bool) (rev_xids : list Z) (xs : list Z) : list Z * list Z :=
  match rev_xids with
  | [] => (xs, [])
  | x :: more =>
      let '(xs1, w) := remove_one ovf x xs in
      let '(xs2, ws) := remove_many ovf more xs1 in
      (xs2, if w then x :: ws else ws)
  end.

Definition set_subxids (xs : list Z) (p : PGPROC) : PGPROC :=
  {| pgprocno := pgprocno p; pid := pid p; backendId := backendId p;
     databaseId := databaseId p; lxid := lxid p; xid := xid p; pxmin := pxmin p;
     vacuumFlags := vacuumFlags p; overflowed := overflowed p; delayChkpt := delayChkpt p;
     subxids := xs; recoveryConflictPending := recoveryConflictPending p |}.

(** The children are taken from the end of the array, then [x] itself; the
    list is that of the ids warned about. *)
Definition XidCacheRemoveRunningXids (me x : Z) (xids : list Z) (latestXid : Z)
  (a : ProcArrayStruct) : list Z * ProcArrayStruct :=
  let p := allProcs a me in
  let '(xs, ws) := remove_many (overflowed p) (rev xids ++ [x]) (subxids p) in
  (ws, set_procs (pgprocnos a) (upd_proc me (set_subxids xs p) (allProcs a))
         (advance_latest latestXid a) a).


(** ** The array and the full transaction ids behind it

    [top k] is the 64-bit id of the transaction entry [k] runs, [subs k] the
    ids of its live subtransactions.  All ids in use lie in a window of less
    than 2^31 ids starting at [oldest] ([Varsup.wraparound_protection]). *)
Record array_ok (oldest next lc : Z) (top : Z -> option Z) (subs : Z -> list Z)
  (a : ProcArrayStruct) : Prop := {
  ao_window : next - oldest < 2 ^ 31;
  ao_next : 3 <= oldest /\ next < 2 ^ 64 - 4 /\ full_normal next;
  ao_latest : latestCompletedXid a = XidFromFullTransactionId lc /\ full_normal lc /\
    oldest - 1 <= lc < next;
  ao_top : forall k, k ∈ pgprocnos a ->
    match top k with
    | None => xid (allProcs a k) = InvalidTransactionId /\ subs k = []
    | Some t => xid (allProcs a k) = XidFromFullTransactionId t /\ full_normal t /\
        oldest <= t < next
    end;
  ao_subs : forall k t s, k ∈ pgprocnos a -> top k = Some t -> s ∈ subs k ->
    full_normal s /\ t < s < next;
  ao_cache : forall k, k ∈ pgprocnos a ->
    (forall x, x ∈ subxids (allProcs a k) -> x ∈ map XidFromFullTransactionId (subs k)) /\
    (overflowed (allProcs a k) = false ->
     forall s, s ∈ subs k -> XidFromFullTransactionId s ∈ subxids (allProcs a k)) }.

Definition running (top : Z -> option Z) (subs : Z -> list Z) (k x : Z) : Prop :=
  top k = Some x \/ x ∈ subs k.

(** Entries of lazy vacuums and logical decoding are left out of snapshots. *)
Definition snapshot_skips (p : PGPROC) : bool :=
  negb (Z.land (vacuumFlags p) (Z.lor PROC_IN_LOGICAL_DECODING PROC_IN_VACUUM) =? 0).

(** An entry whose id goes into a snapshot with upper bound [xmax]. *)
Definition counted (xmax : Z) (p : PGPROC) : bool :=
  negb (snapshot_skips p) && TransactionIdIsNormal (xid p) &&
  NormalTransactionIdPrecedes (xid p) xmax.

Lemma normal_precedes_full a b : - 2 ^ 31 <= a - b < 2 ^ 31 ->
  NormalTransactionIdPrecedes (XidFromFullTransactionId a) (XidFromFullTransactionId b) = (a <? b).
Proof.
  intros H. unfold NormalTransactionIdPrecedes. rewrite s32_window by done.
  apply eq_true_iff_eq. rewrite !Z.ltb_lt. lia.
Qed.

(** Ids of one window are determined by their low 32 bits. *)
Lemma xid_of_full_inj a b : - 2 ^ 31 <= a - b < 2 ^ 31 ->
  XidFromFullTransactionId a = XidFromFullTransactionId b -> a = b.
Proof.
  intros H E. pose proof (s32_window a b H) as Hs. rewrite E, Z.sub_diag in Hs.
  change (s32 0) with 0 in Hs. lia.
Qed.

(** *** What the loop collects *)

Lemma Snapshot_step_spec me xmax k p s :
  let r := Snapshot_step me xmax k p s in
  (sa_xip r, sa_suboverflowed r, sa_subxip r) =
    (if counted xmax p && negb (k =? me) then
       (sa_xip s ++ [xid p], sa_suboverflowed s || overflowed p,
        if sa_suboverflowed s || overflowed p then sa_subxip s else sa_subxip s ++ subxids p)
     else (sa_xip s, sa_suboverflowed s, sa_subxip s)) /\
  sa_xmin r = (if counted xmax p && NormalTransactionIdPrecedes (xid p) (sa_xmin s)
               then xid p else sa_xmin s).
Proof.
  unfold Snapshot_step, counted, snapshot_skips.
  destruct (negb (Z.land _ _ =? 0)); [done|].
  destruct (TransactionIdIsNormal (xid p)); [|done].
  destruct (NormalTransactionIdPrecedes (xid p) xmax); [|done].
  destruct (k =? me); [done|]. cbn.
  by destruct (sa_suboverflowed s), (overflowed p).
Qed.

(** The entries that contribute to the lists. *)
Definition listed (me xmax : Z) (all : Z -> PGPROC) (k : Z) : Prop :=
  counted xmax (all k) && negb (k =? me) = true.

Lemma Snapshot_scan_xip me xmax all nos s x :
  x ∈ sa_xip (Snapshot_scan me xmax all nos s) <->
  x ∈ sa_xip s \/ exists k, k ∈ nos /\ listed me xmax all k /\ x = xid (all k).
Proof.
  unfold Snapshot_scan. revert s. induction nos as [|k nos IH]; intros s; cbn [fold_left].
  - rewrite exists_elem_nil. tauto.
  - rewrite IH, exists_elem_cons. unfold listed at 2.
    destruct (Snapshot_step_spec me xmax k (all k) s) as [Hst _].
    destruct (counted xmax (all k) && negb (k =? me)); injection Hst as -> _ _.
    + rewrite elem_of_app, list_elem_of_singleton. tauto.
    + intuition congruence.
Qed.

Lemma Snapshot_scan_overflow me xmax all nos s :
  sa_suboverflowed (Snapshot_scan me xmax all nos s) = true <->
  sa_suboverflowed s = true \/
  exists k, k ∈ nos /\ listed me xmax all k /\ overflowed (all k) = true.
Proof.
  unfold Snapshot_scan. revert s. induction nos as [|k nos IH]; intros s; cbn [fold_left].
  - rewrite exists_elem_nil. tauto.
  - rewrite IH, exists_elem_cons. unfold listed at 2.
    destruct (Snapshot_step_spec me xmax k (all k) s) as [Hst _].
    destruct (counted xmax (all k) && negb (k =? me)); injection Hst as _ -> _.
    + rewrite orb_true_iff. tauto.
    + intuition congruence.
Qed.

(** Without overflow all caches have been copied. *)
Lemma Snapshot_scan_subxip me xmax all nos s x :
  sa_suboverflowed (Snapshot_scan me xmax all nos s) = false ->
  x ∈ sa_subxip (Snapshot_scan me xmax all nos s) <->
  x ∈ sa_subxip s \/ exists k, k ∈ nos /\ listed me xmax all k /\ x ∈ subxids (all k).
Proof.
  revert s. induction nos as [|k nos IH]; intros s Ho; cbn [Snapshot_scan fold_left] in *.
  - rewrite exists_elem_nil. tauto.
  - change (fold_left _ nos ?s1) with (Snapshot_scan me xmax all nos s1) in *.
    set (s1 := Snapshot_step me xmax k (all k) s) in *.
    assert (sa_suboverflowed s1 = false) as Ho1.
    { destruct (sa_suboverflowed s1) eqn:E1; [|done].
      assert (sa_suboverflowed (Snapshot_scan me xmax all nos s1) = true) as E2
        by (apply Snapshot_scan_overflow; by left). congruence. }
    rewrite IH, exists_elem_cons by done. unfold listed at 2.
    destruct (Snapshot_step_spec me xmax k (all k) s) as [Hst _]. fold s1 in Hst.
    destruct (counted xmax (all k) && negb (k =? me)); injection Hst as _ H1 H2.
    + rewrite H1 in Ho1. rewrite Ho1 in H2. rewrite H2, elem_of_app. tauto.
    + rewrite H2. intuition congruence.
Qed.

Section SnapshotExact.
Context (oldest next lc : Z) (top : Z -> option Z) (subs : Z -> list Z) (a : ProcArrayStruct)
  (Hok : array_ok oldest next lc top subs a).

(** The upper bound of snapshots as a full id. *)
Definition full_xmax : Z := FullTransactionIdAdvance lc.

Lemma full_xmax_spec :
  oldest <= full_xmax <= next /\ lc < full_xmax /\ full_normal full_xmax /\
  TransactionIdAdvance (latestCompletedXid a) = XidFromFullTransactionId full_xmax.
Proof using Hok.
  destruct (ao_latest _ _ _ _ _ _ Hok) as (-> & Hn & Hl).
  destruct (ao_next _ _ _ _ _ _ Hok) as (H0 & H1 & Hnn).
  assert (0 <= lc < 2 ^ 64 - 4) as Hr by lia.
  destruct (FullTransactionIdAdvance_spec lc Hr) as (Ha & Hf & Hleast).
  unfold full_xmax. split_and!; [lia| |lia|done|by apply TransactionIdAdvance_full].
  destruct (decide (FullTransactionIdAdvance lc <= next)); [done|].
  exfalso. apply (Hleast next); [lia|done].
Qed.

Lemma counted_spec k :
  k ∈ pgprocnos a ->
  counted (XidFromFullTransactionId full_xmax) (allProcs a k) = true <->
  snapshot_skips (allProcs a k) = false /\ exists t, top k = Some t /\ t < full_xmax.
Proof using Hok.
  intros Hk. pose proof (ao_top _ _ _ _ _ _ Hok k Hk) as Ht. pose proof (ao_window _ _ _ _ _ _ Hok).
  destruct full_xmax_spec as (Hx1 & Hx2 & Hx3 & _).
  unfold counted. rewrite !andb_true_iff, negb_true_iff. destruct (top k) as [t|].
  - destruct Ht as (-> & Hn & Hr). rewrite normal_precedes_full by lia.
    rewrite Z.ltb_lt, normal_spec. unfold full_normal in Hn.
    split; [intros [[? ?] ?]; eauto|]. intros (? & ? & [= <-] & ?). auto.
  - destruct Ht as [-> _]. split; [intros [[_ ?] _]; done|]. by intros (_ & ? & ? & _).
Qed.

(** The lower bound of the snapshot is no later than any counted id. *)
Lemma Snapshot_scan_xmin me nos s m :
  (forall k, k ∈ nos -> k ∈ pgprocnos a) ->
  sa_xmin s = XidFromFullTransactionId m -> full_normal m -> oldest <= m <= full_xmax ->
  exists m', sa_xmin (Snapshot_scan me (XidFromFullTransactionId full_xmax) (allProcs a) nos s) =
      XidFromFullTransactionId m' /\ full_normal m' /\ oldest <= m' <= m /\
    forall k t, k ∈ nos -> top k = Some t ->
      counted (XidFromFullTransactionId full_xmax) (allProcs a k) = true -> m' <= t.
Proof using Hok.
  pose proof (ao_window _ _ _ _ _ _ Hok). destruct full_xmax_spec as (Hx1 & Hx2 & Hx3 & _).
  revert s m. induction nos as [|k nos IH]; intros s m Hin Hs Hm Hr; cbn [Snapshot_scan fold_left].
  - exists m. split_and!; try done; try lia. intros k t H1. by apply elem_of_nil in H1.
  - change (fold_left _ nos ?s1) with (Snapshot_scan me (XidFromFullTransactionId full_xmax) (allProcs a) nos s1).
    set (s1 := Snapshot_step _ _ _ _ _).
    assert (exists m1, sa_xmin s1 = XidFromFullTransactionId m1 /\ full_normal m1 /\
      oldest <= m1 <= m /\ forall t, top k = Some t ->
        counted (XidFromFullTransactionId full_xmax) (allProcs a k) = true -> m1 <= t)
      as (m1 & Hs1 & Hn1 & Hr1 & Hk1).
    { destruct (Snapshot_step_spec me (XidFromFullTransactionId full_xmax) k (allProcs a k) s)
        as [_ Hx]. fold s1 in Hx. rewrite Hs in Hx.
      destruct (counted _ _) eqn:E; [|by exists m; split_and!; try done; lia].
      apply counted_spec in E as (_ & t & Ht & Hlt); [|by apply Hin; left].
      pose proof (ao_top _ _ _ _ _ _ Hok k ltac:(apply Hin; by left)) as Hkk.
      rewrite Ht in Hkk. destruct Hkk as (Hxid & Hnt & Hrt).
      rewrite Hxid, normal_precedes_full in Hx by lia. cbn [andb] in Hx.
      destruct (Z.ltb_spec t m).
      - exists t. split_and!; try done; try lia. intros t' ? _. assert (t' = t) by congruence. lia.
      - exists m. split_and!; try done; try lia. intros t' ? _.
        assert (t' = t) by congruence. lia. }
    destruct (IH s1 m1) as (m' & Hs' & Hn' & Hr' & Hk'); [|done|done|lia|].
    { intros k' Hk'. apply Hin. by right. }
    exists m'. split_and!; try done; try lia.
    intros k' t [->|Hin']%elem_of_cons Ht Hc; [|by eapply Hk'].
    specialize (Hk1 t Ht Hc). lia.
Qed.

(** Comparing full ids of the window through their low halves. *)
Lemma window_precedes x y : full_normal x -> full_normal y ->
  oldest <= x <= next -> oldest <= y <= next ->
  TransactionIdPrecedes (XidFromFullTransactionId x) (XidFromFullTransactionId y) = (x <? y).
Proof using Hok. intros. pose proof (ao_window _ _ _ _ _ _ Hok). apply precedes_full; (done || lia). Qed.

Lemma window_follows_eq x y : full_normal x -> full_normal y ->
  oldest <= x <= next -> oldest <= y <= next ->
  TransactionIdFollowsOrEquals (XidFromFullTransactionId x) (XidFromFullTransactionId y) = (y <=? x).
Proof using Hok. intros. pose proof (ao_window _ _ _ _ _ _ Hok). apply follows_eq_full; (done || lia). Qed.

Lemma window_inj x y : oldest <= x <= next -> oldest <= y <= next ->
  XidFromFullTransactionId x = XidFromFullTransactionId y -> x = y.
Proof using Hok. intros. pose proof (ao_window _ _ _ _ _ _ Hok). apply xid_of_full_inj; (done || lia). Qed.

(** A running id belongs to its top-level transaction's entry, lies in the
    window and is not older than it. *)
Lemma running_spec k x : k ∈ pgprocnos a -> running top subs k x ->
  exists t, top k = Some t /\ full_normal t /\ full_normal x /\ oldest <= t <= x /\ x < next /\
    xid (allProcs a k) = XidFromFullTransactionId t.
Proof using Hok.
  intros Hk Hr. pose proof (ao_top _ _ _ _ _ _ Hok k Hk) as Ht.
  destruct (top k) as [t|] eqn:E.
  - destruct Ht as (Hx & Hn & Hw). exists t. destruct Hr as [Hr|Hr].
    + rewrite E in Hr. injection Hr as <-. split_and!; try done; lia.
    + destruct (ao_subs _ _ _ _ _ _ Hok k t x Hk E Hr). split_and!; try done; lia.
  - destruct Hr as [Hr|Hr]; [congruence|]. destruct Ht as [_ Ht]. rewrite Ht in Hr.
    by apply elem_of_nil in Hr.
Qed.


(** The snapshot's fields, outside recovery. *)
Lemma GetSnapshotData_fields env type token :
  sn_recovery env = false ->
  let sn := (GetSnapshotData env type token a).1.1 in
  let acc := Snapshot_scan (sn_me env) (XidFromFullTransactionId full_xmax) (allProcs a)
    (pgprocnos a) {| sa_xmin := XidFromFullTransactionId full_xmax;
                     sa_globalxmin := XidFromFullTransactionId full_xmax; sa_xip := [];
                     sa_subxip := []; sa_suboverflowed := false |} in
  Snapshot.xmin sn = sa_xmin acc /\ Snapshot.xmax sn = XidFromFullTransactionId full_xmax /\
  xip sn = sa_xip acc /\ subxip sn = sa_subxip acc /\ suboverflowed sn = sa_suboverflowed acc /\
  takenDuringRecovery sn = false.
Proof using Hok.
  intros Hrec. destruct full_xmax_spec as (_ & _ & _ & E).
  unfold GetSnapshotData. rewrite Hrec, E. done.
Qed.

(** What [XidInMVCCSnapshot] finds in the lists. *)
Lemma listed_top me k : k ∈ pgprocnos a ->
  listed me (XidFromFullTransactionId full_xmax) (allProcs a) k <->
  k <> me /\ snapshot_skips (allProcs a k) = false /\ exists t, top k = Some t /\ t < full_xmax.
Proof using Hok.
  intros Hk. unfold listed. rewrite andb_true_iff, counted_spec, negb_true_iff, Z.eqb_neq by done.
  tauto.
Qed.

Lemma XidInMVCCSnapshot_exact env type token topmost x :
  sn_recovery env = false -> full_normal x -> oldest <= x < next ->
  (forall k t, k ∈ pgprocnos a -> top k = Some t -> running top subs k x ->
     topmost (XidFromFullTransactionId x) = XidFromFullTransactionId t) ->
  let sn := (GetSnapshotData env type token a).1.1 in
  let inside := XidInMVCCSnapshot topmost (XidFromFullTransactionId x) sn = true in
  ((exists k, k ∈ pgprocnos a /\ k <> sn_me env /\ snapshot_skips (allProcs a k) = false /\
      running top subs k x) -> inside) /\
  (inside -> full_xmax <= x \/
     exists k t, k ∈ pgprocnos a /\ k <> sn_me env /\ top k = Some t /\
       (running top subs k x \/ topmost (XidFromFullTransactionId x) = XidFromFullTransactionId t)).
Proof using Hok.
  intros Hrec Hn Hw Htop sn. subst sn.
  destruct (GetSnapshotData_fields env type token Hrec) as (E1 & E2 & E3 & E4 & E5 & E6).
  set (sn := (GetSnapshotData env type token a).1.1) in *.
  set (start := {| sa_xmin := _ |}) in *.
  destruct full_xmax_spec as (Hf1 & Hf2 & Hf3 & _).
  destruct (Snapshot_scan_xmin (sn_me env) (pgprocnos a) start full_xmax)
    as (m & Hm & Hmn & Hmr & Hmk); [done|done|done|lia|].
  rewrite <- E1 in Hm. unfold XidInMVCCSnapshot. rewrite Hm, E2, E6. cbn [negb].
  rewrite window_precedes, window_follows_eq by (done || lia).
  assert (forall k, k ∈ pgprocnos a -> k <> sn_me env -> snapshot_skips (allProcs a k) = false ->
    running top subs k x -> x < full_xmax ->
    exists t, top k = Some t /\ listed (sn_me env) (XidFromFullTransactionId full_xmax) (allProcs a) k /\
      m <= t <= x /\ full_normal t /\ XidFromFullTransactionId t ∈ xip sn) as Hlist.
  { intros k Hk Hme Hs Hr Hlt. destruct (running_spec k x Hk Hr) as (t & Ht & Htn & _ & Htr & _ & Hx).
    assert (listed (sn_me env) (XidFromFullTransactionId full_xmax) (allProcs a) k) as Hl.
    { apply listed_top; [done|]. split_and!; [done|done|]. exists t. split; [done|lia]. }
    exists t. split_and!; try done; try lia.
    - eapply Hmk; [done..|]. unfold listed in Hl. by apply andb_true_iff in Hl as [? _].
    - rewrite E3. apply Snapshot_scan_xip. right. by exists k. }
  split.
  - intros (k & Hk & Hme & Hs & Hr).
    destruct (Z.leb_spec full_xmax x); [by rewrite (proj2 (Z.ltb_ge x m)) by lia|].
    destruct (Hlist k Hk Hme Hs Hr ltac:(lia)) as (t & Ht & Hl & Htr & Htn & Hin).
    rewrite (proj2 (Z.ltb_ge x m)) by lia.
    destruct (suboverflowed sn) eqn:Eo; cbn [negb].
    + rewrite (Htop k t Hk Ht Hr), window_precedes by (done || lia).
      rewrite (proj2 (Z.ltb_ge t m)) by lia. by apply xid_in_spec.
    + destruct (xid_in _ (subxip sn)) eqn:Es; [done|]. apply xid_in_spec.
      destruct Hr as [Hr|Hr]; [by rewrite Ht in Hr; injection Hr as <-|].
      exfalso. apply not_true_iff_false in Es. apply Es, xid_in_spec. rewrite E4.
      apply Snapshot_scan_subxip; [by rewrite <- E5|]. right. exists k. split_and!; [done|done|].
      destruct (overflowed (allProcs a k)) eqn:Ok; [|by apply (ao_cache _ _ _ _ _ _ Hok k Hk)].
      exfalso. symmetry in E5. apply not_true_iff_false in E5. apply E5, Snapshot_scan_overflow.
      right. by exists k.
  - assert (forall y, y ∈ xip sn -> exists k t, k ∈ pgprocnos a /\ k <> sn_me env /\
      top k = Some t /\ y = XidFromFullTransactionId t) as Hxip.
    { intros y Hy. rewrite E3 in Hy. apply Snapshot_scan_xip in Hy as [Hy|(k & Hk & Hl & ->)].
      - by apply elem_of_nil in Hy.
      - apply listed_top in Hl as (Hme & _ & t & Ht & _); [|done]. exists k, t. split_and!; try done.
        pose proof (ao_top _ _ _ _ _ _ Hok k Hk) as H. rewrite Ht in H. by destruct H. }
    intros Hin. destruct (x <? m); [done|]. destruct (Z.leb_spec full_xmax x); [by left|]. right.
    destruct (suboverflowed sn) eqn:Eo; cbn [negb] in *.
    + destruct (TransactionIdPrecedes _ _); [done|]. apply xid_in_spec in Hin.
      destruct (Hxip _ Hin) as (k & t & Hk & Hme & Ht & E). exists k, t. auto.
    + destruct (xid_in (XidFromFullTransactionId x) (subxip sn)) eqn:Es.
      * apply xid_in_spec in Es. rewrite E4 in Es.
        apply Snapshot_scan_subxip in Es as [Es|(k & Hk & Hl & Hs)]; [by apply elem_of_nil in Es| |by rewrite <- E5].
        apply listed_top in Hl as (Hme & _ & t & Ht & _); [|done].
        apply (ao_cache _ _ _ _ _ _ Hok k Hk), list_elem_of_fmap in Hs as (s & Exs & Hs).
        assert (running top subs k s) as Hrs by by right.
        destruct (running_spec k s Hk Hrs) as (t' & _ & _ & _ & ? & ? & _).
        apply window_inj in Exs; [|lia|lia]. subst s. exists k, t. auto.
      * apply xid_in_spec in Hin. destruct (Hxip _ Hin) as (k & t & Hk & Hme & Ht & E).
        pose proof (ao_top _ _ _ _ _ _ Hok k Hk) as Hk'. rewrite Ht in Hk'.
        apply window_inj in E; [|lia|lia]. subst t. exists k, x. split_and!; try done. left. by left.
Qed.

End SnapshotExact.

(** ** The removal horizon is older than everything in use *)

Section Horizon.
Context (oldest next lc : Z) (top : Z -> option Z) (subs : Z -> list Z) (a : ProcArrayStruct)
  (Hok : array_ok oldest next lc top subs a).
(** [pm k] is the full id behind the [xmin] that entry [k] advertises, [slot]
    and [catalog] those of the replication slots. *)
Context (pm : Z -> option Z) (slot catalog : option Z) (env : horizon_env).

Definition id_of (o : option Z) : Z :=
  match o with None => InvalidTransactionId | Some p => XidFromFullTransactionId p end.

Definition in_window (lo : Z) (o : option Z) : Prop :=
  match o with None => True | Some p => full_normal p /\ lo <= p <= next end.

(** "Ignore [entries] with the given flags", and the database test. *)
Definition considered (allDbs : bool) (flags : Z) (p : PGPROC) : bool :=
  (Z.land (vacuumFlags p) (Z.land flags PROCARRAY_PROC_FLAGS_MASK) =? 0) &&
  (allDbs || (databaseId p =? MyDatabaseId env) || (databaseId p =? 0)).

Context (Hpm : forall k, k ∈ pgprocnos a -> pxmin (allProcs a k) = id_of (pm k) /\ in_window oldest (pm k)).

Lemma older_spec o m : in_window oldest o -> full_normal m -> oldest <= m <= next ->
  exists m', older (id_of o) (XidFromFullTransactionId m) = XidFromFullTransactionId m' /\
    full_normal m' /\ oldest <= m' <= m /\ forall p, o = Some p -> m' <= p.
Proof using Hok.
  intros Ho Hm Hr. unfold older. destruct o as [p|]; cbn [id_of].
  - destruct Ho as [Hn Hp]. rewrite (proj2 (normal_spec _)) by done. cbn [andb].
    rewrite (window_precedes _ _ _ _ _ _ Hok) by done.
    destruct (Z.ltb_spec p m); [exists p|exists m]; split_and!; try done; try lia;
      intros p' [= <-]; lia.
  - change (TransactionIdIsNormal InvalidTransactionId) with false. cbn [andb].
    exists m. split_and!; try done; lia.
Qed.

Lemma OldestXmin_scan_spec allDbs flags nos m :
  (forall k, k ∈ nos -> k ∈ pgprocnos a) -> full_normal m -> oldest <= m <= next ->
  exists m', OldestXmin_scan env allDbs flags (allProcs a) nos (XidFromFullTransactionId m) =
      XidFromFullTransactionId m' /\ full_normal m' /\ oldest <= m' <= m /\
    forall k p, k ∈ nos -> considered allDbs flags (allProcs a k) = true ->
      top k = Some p \/ pm k = Some p -> m' <= p.
Proof using Hok Hpm.
  revert m. induction nos as [|k nos IH]; intros m Hin Hm Hr; cbn [OldestXmin_scan].
  - exists m. split_and!; try done; try lia. intros k p H. by apply elem_of_nil in H.
  - assert (k ∈ pgprocnos a) as Hk by (apply Hin; by left).
    assert (forall k', k' ∈ nos -> k' ∈ pgprocnos a) as Hin' by (intros; apply Hin; by right).
    assert (xid (allProcs a k) = id_of (top k) /\ in_window oldest (top k)) as [Ht Htw].
    { pose proof (ao_top _ _ _ _ _ _ Hok k Hk) as H. destruct (top k) as [t|].
      - destruct H as (-> & ? & ?). split; [done|]. split; [done|lia].
      - by destruct H. }
    destruct (Hpm k Hk) as [Hp Hpw]. rewrite Ht, Hp.
    destruct (older_spec (top k) m Htw Hm Hr) as (m1 & E1 & Hn1 & Hr1 & H1).
    destruct (older_spec (pm k) m1 Hpw Hn1 ltac:(lia)) as (m2 & E2 & Hn2 & Hr2 & H2).
    unfold considered. destruct (Z.land _ _ =? 0) eqn:EF; cbn [negb].
    + destruct (allDbs || _ || _) eqn:ED.
      * rewrite E1, E2. destruct (IH m2 Hin' Hn2 ltac:(lia)) as (m' & E' & Hn' & Hr' & H').
        exists m'. split_and!; try done; try lia.
        intros k' p [->|Hk']%elem_of_cons Hc Hor; [|by eapply H'].
        destruct Hor as [Hor|Hor]; [specialize (H1 p Hor); lia|specialize (H2 p Hor); lia].
      * destruct (IH m Hin' Hm Hr) as (m' & E' & Hn' & Hr' & H'). exists m'. split_and!; try done; try lia.
        intros k' p [->|Hk']%elem_of_cons Hc Hor; [|by eapply H']. by rewrite EF, ED in Hc.
    + destruct (IH m Hin' Hm Hr) as (m' & E' & Hn' & Hr' & H'). exists m'. split_and!; try done; try lia.
      intros k' p [->|Hk']%elem_of_cons Hc Hor; [|by eapply H']. by rewrite EF in Hc.
Qed.

Context (Hdefer : 0 <= vacuum_defer_cleanup_age env /\
  3 <= oldest - vacuum_defer_cleanup_age env /\
  next - (oldest - vacuum_defer_cleanup_age env) < 2 ^ 31).

(** Holding the horizon back by [vacuum_defer_cleanup_age]: stepping over the
    special ids never passes the id it started from. *)
Lemma deferred_spec m : full_normal m -> oldest <= m <= next ->
  let r := u32 (XidFromFullTransactionId m - vacuum_defer_cleanup_age env) in
  exists m', (if negb (TransactionIdIsNormal r) then FirstNormalTransactionId else r) =
      XidFromFullTransactionId m' /\ full_normal m' /\
    oldest - vacuum_defer_cleanup_age env <= m' <= m.
Proof using Hdefer.
  intros Hm Hr. set (d := vacuum_defer_cleanup_age env) in *. cbn zeta.
  assert (u32 (XidFromFullTransactionId m - d) = XidFromFullTransactionId (m - d)) as ->.
  { unfold XidFromFullTransactionId, u32. by rewrite Zminus_mod_idemp_l. }
  destruct (TransactionIdIsNormal (XidFromFullTransactionId (m - d))) eqn:E; cbn [negb].
  - exists (m - d). apply normal_spec in E. split_and!; try done; lia.
  - assert (XidFromFullTransactionId (m - d) < 3) as Hlt.
    { destruct (Z.lt_ge_cases (XidFromFullTransactionId (m - d)) 3) as [?|H]; [done|].
      apply normal_spec in H. congruence. }
    unfold full_normal, XidFromFullTransactionId, u32 in *.
    set (q := (m - d) / 2 ^ 32). exists (q * 2 ^ 32 + 3).
    pose proof (Z.div_mod (m - d) (2 ^ 32) ltac:(lia)) as Hdm. fold q in Hdm.
    pose proof (Z.mod_pos_bound (m - d) (2 ^ 32) ltac:(lia)).
    assert ((q * 2 ^ 32 + 3) mod 2 ^ 32 = 3) as E3
      by (symmetry; apply (Z.mod_unique_pos _ _ q); lia).
    rewrite E3. split_and!; try done; try lia.
    destruct (Z.lt_ge_cases m (q * 2 ^ 32 + 3)) as [Hc|]; [|lia].
    exfalso. assert (m mod 2 ^ 32 = m - q * 2 ^ 32) as E4
      by (symmetry; apply (Z.mod_unique_pos _ _ q); lia). lia.
Qed.

Context (Hslot : replication_slot_xmin a = id_of slot /\
  in_window (oldest - vacuum_defer_cleanup_age env) slot).
Context (Hcat : replication_slot_catalog_xmin a = id_of catalog /\
  in_window (oldest - vacuum_defer_cleanup_age env) catalog).

Lemma slot_spec (b : bool) o m : in_window (oldest - vacuum_defer_cleanup_age env) o ->
  full_normal m -> oldest - vacuum_defer_cleanup_age env <= m <= next ->
  exists m', (if b && TransactionIdIsValid (id_of o) &&
                 NormalTransactionIdPrecedes (id_of o) (XidFromFullTransactionId m)
              then id_of o else XidFromFullTransactionId m) = XidFromFullTransactionId m' /\
    full_normal m' /\ oldest - vacuum_defer_cleanup_age env <= m' <= m.
Proof using Hdefer.
  intros Ho Hm Hr. destruct o as [p|]; cbn [id_of].
  - destruct Ho as [Hn Hp]. destruct (b && _); cbn [andb]; [|by exists m; split_and!; try done; lia].
    rewrite normal_precedes_full by lia.
    destruct (Z.ltb_spec p m); [exists p|exists m]; split_and!; try done; lia.
  - change (TransactionIdIsValid InvalidTransactionId) with false.
    rewrite andb_false_r. cbn [andb]. exists m. split_and!; try done; lia.
Qed.

Lemma GetOldestXmin_spec rel flags :
  hz_recovery env = false ->
  exists r, GetOldestXmin env rel flags a = XidFromFullTransactionId r /\ full_normal r /\
    oldest - vacuum_defer_cleanup_age env <= r <= next /\
    forall k p, k ∈ pgprocnos a ->
      considered (match rel with None => true | Some (shared, _) => shared end) flags
        (allProcs a k) = true ->
      top k = Some p \/ pm k = Some p -> r <= p.
Proof using Hok Hpm Hdefer Hslot Hcat.
  intros Hrec. unfold GetOldestXmin. rewrite Hrec.
  destruct (full_xmax_spec _ _ _ _ _ _ Hok) as (Hx1 & _ & Hx3 & ->).
  set (allDbs := match rel with None => true | Some (shared, _) => shared end).
  destruct (OldestXmin_scan_spec allDbs flags (pgprocnos a) (full_xmax lc))
    as (m & -> & Hm & Hmr & Hmin); [done|done|lia|].
  destruct (deferred_spec m Hm ltac:(lia)) as (m1 & -> & Hm1 & Hr1).
  destruct Hslot as [-> Hsw]. destruct Hcat as [-> Hcw].
  destruct (slot_spec (Z.land flags PROCARRAY_SLOTS_XMIN =? 0) slot m1 Hsw Hm1 ltac:(lia))
    as (m2 & -> & Hm2 & Hr2).
  destruct (slot_spec ((Z.land flags PROCARRAY_SLOTS_XMIN =? 0) &&
      (match rel with None => true | Some (_, logical) => logical end)) catalog m2 Hcw Hm2 ltac:(lia))
    as (m3 & -> & Hm3 & Hr3).
  exists m3. split_and!; try done; try lia.
  intros k p Hk Hc Hor. specialize (Hmin k p Hk Hc Hor). lia.
Qed.

End Horizon.

(** ** TransactionIdIsInProgress *)

Lemma xid_in_rev y ys : xid_in y (rev ys) = true <-> y ∈ ys.
Proof. by rewrite xid_in_spec, !list_elem_of_In, <- in_rev. Qed.

Section Scan.
Context (me x : Z) (all : Z -> PGPROC).

(** The entries the scan looks at. *)
Definition scanned (k : Z) : Prop := k <> me /\ TransactionIdIsValid (xid (all k)) = true.

Lemma InProgress_scan_found nos xids b :
  InProgress_scan me x all nos xids = inl b ->
  b = true /\ exists k, k ∈ nos /\ (scanned k /\ (xid (all k) = x \/ x ∈ subxids (all k))).
Proof.
  revert xids. induction nos as [|k nos IH]; intros xids; cbn [InProgress_scan]; [done|].
  rewrite exists_elem_cons.
  destruct (Z.eqb_spec k me) as [|Hk]; [intros H; destruct (IH _ H); auto|].
  destruct (TransactionIdIsValid (xid (all k))) eqn:Ev; cbn [negb];
    [|intros H; destruct (IH _ H); auto].
  destruct (Z.eqb_spec (xid (all k)) x) as [Ex|Hx].
  { intros [= <-]. split; [done|]. left. split; [by split|by left]. }
  destruct (TransactionIdPrecedes x _); [intros H; destruct (IH _ H); auto|].
  destruct (xid_in x _) eqn:Ei.
  { intros [= <-]. split; [done|]. left. split; [by split|right].
    by apply xid_in_rev. }
  destruct (overflowed (all k)); intros H; destruct (IH _ H); auto.
Qed.

Lemma InProgress_scan_rest nos xids ys :
  InProgress_scan me x all nos xids = inr ys ->
  (forall y, y ∈ xids -> y ∈ ys) /\
  (forall y, y ∈ ys -> y ∈ xids \/
     exists k, k ∈ nos /\ (scanned k /\ overflowed (all k) = true /\ y = xid (all k))) /\
  (forall k, k ∈ nos -> scanned k -> xid (all k) <> x /\
     (TransactionIdPrecedes x (xid (all k)) = false ->
      x ∉ subxids (all k) /\ (overflowed (all k) = true -> xid (all k) ∈ ys))).
Proof.
  revert xids. induction nos as [|k nos IH]; intros xids; cbn [InProgress_scan].
  - intros [= ->]. split_and!; [done|by left|]. intros k H. by apply elem_of_nil in H.
  - setoid_rewrite exists_elem_cons.
    assert (forall zs P, InProgress_scan me x all nos zs = inr ys -> (forall y, y ∈ xids -> y ∈ zs) ->
      (forall y, y ∈ zs -> y ∈ xids \/ P y) -> (forall y, P y -> y ∈ zs) ->
      (forall y, P y -> (scanned k /\ overflowed (all k) = true /\ y = xid (all k))) ->
      (scanned k -> xid (all k) <> x /\ (TransactionIdPrecedes x (xid (all k)) = false ->
         x ∉ subxids (all k) /\ (overflowed (all k) = true -> P (xid (all k))))) ->
      (forall y, y ∈ xids -> y ∈ ys) /\
      (forall y, y ∈ ys -> y ∈ xids \/
         (scanned k /\ overflowed (all k) = true /\ y = xid (all k)) \/
         (exists k, k ∈ nos /\ (scanned k /\ overflowed (all k) = true /\ y = xid (all k)))) /\
      (forall k', k' ∈ k :: nos -> scanned k' -> xid (all k') <> x /\
        (TransactionIdPrecedes x (xid (all k')) = false ->
         x ∉ subxids (all k') /\ (overflowed (all k') = true -> xid (all k') ∈ ys)))) as Hgen.
    { intros zs P Hsc H1 H2 H3 H4 H5. destruct (IH _ Hsc) as (I1 & I2 & I3). split_and!.
      - auto.
      - intros y Hy. destruct (I2 y Hy) as [Hz|Hz]; [|by right; right].
        destruct (H2 y Hz) as [?|?]; [by left|]. right. left. by apply H4.
      - intros k' [->|Hk']%elem_of_cons Hs; [|by apply I3].
        destruct (H5 Hs) as [Hne Hsub]. split; [done|]. intros Hp. destruct (Hsub Hp) as [Hn Ho].
        split; [done|]. intros Hov. auto. }
    destruct (Z.eqb_spec k me) as [->|Hk].
    { intros H. apply (Hgen xids (fun _ => False)); try done; [by left|by intros []]. }
    destruct (TransactionIdIsValid (xid (all k))) eqn:Ev; cbn [negb].
    2:{ intros H. apply (Hgen xids (fun _ => False)); try done; [by left|].
        intros [_ Hv]. congruence. }
    destruct (Z.eqb_spec (xid (all k)) x) as [Ex|Hx]; [done|].
    destruct (TransactionIdPrecedes x _) eqn:Ep.
    { intros H. apply (Hgen xids (fun _ => False)); try done; by left. }
    destruct (xid_in x _) eqn:Ei; [done|].
    assert (x ∉ subxids (all k)) as Hni.
    { intros Hin%xid_in_rev. congruence. }
    destruct (overflowed (all k)) eqn:Eo; intros H.
    + apply (Hgen _ (fun y => y = xid (all k)) H).
      * intros y Hy. apply elem_of_app. by left.
      * intros y [?|Hy%list_elem_of_singleton]%elem_of_app; auto.
      * intros y ->. apply elem_of_app. right. by apply list_elem_of_singleton.
      * intros y ->. done.
      * done.
    + apply (Hgen xids (fun _ => False)); try done; by left.
Qed.

End Scan.

(** What the other components tell the routine is true: no transaction before
    [RecentXmin] runs, the caches and the clog report no running transaction
    as ended, and pg_subtrans leads from a running id to its entry's id. *)
Record env_ok (next : Z) (top : Z -> option Z) (subs : Z -> list Z) (a : ProcArrayStruct)
  (env : inprogress_env) (rx x : Z) : Prop := {
  eo_recent : RecentXmin env = XidFromFullTransactionId rx /\ full_normal rx /\ rx <= next;
  eo_recent_min : forall k y, k ∈ pgprocnos a -> running top subs k y -> rx <= y;
  eo_completed : IsKnownCompleted env (XidFromFullTransactionId x) = true ->
    forall k, k ∈ pgprocnos a -> ~ running top subs k x;
  eo_aborted : DidAbort env (XidFromFullTransactionId x) = true ->
    forall k, k ∈ pgprocnos a -> ~ running top subs k x;
  eo_current : IsCurrentXid env (XidFromFullTransactionId x) = false ->
    MyProcNo env ∈ pgprocnos a -> ~ running top subs (MyProcNo env) x;
  eo_topmost : forall k t, k ∈ pgprocnos a -> top k = Some t -> running top subs k x ->
    SubTransTopmost env (XidFromFullTransactionId x) = XidFromFullTransactionId t;
  eo_recovery : RecoveryInProgress env = false }.

Lemma InProgress_complete oldest next lc top subs a env rx x :
  array_ok oldest next lc top subs a -> env_ok next top subs a env rx x ->
  full_normal x -> oldest <= x < next -> oldest <= rx ->
  (exists k, k ∈ pgprocnos a /\ running top subs k x) ->
  TransactionIdIsInProgress env (XidFromFullTransactionId x) a = true.
Proof.
  intros Hok He Hn Hw Hrx (k & Hk & Hr). unfold TransactionIdIsInProgress.
  destruct (eo_recent _ _ _ _ _ _ _ He) as (-> & Hrn & Hrl).
  rewrite (window_precedes _ _ _ _ _ _ Hok) by (done || lia).
  pose proof (eo_recent_min _ _ _ _ _ _ _ He k x Hk Hr).
  rewrite (proj2 (Z.ltb_ge x rx)) by done.
  destruct (IsKnownCompleted _ _) eqn:Ec; [by destruct (eo_completed _ _ _ _ _ _ _ He Ec k Hk)|].
  destruct (IsCurrentXid _ _) eqn:Ecur; [done|]. destruct (TransactionIdPrecedes _ _) eqn:El; [done|].
  rewrite (eo_recovery _ _ _ _ _ _ _ He).
  destruct (InProgress_scan _ _ _ _ _) as [b|ys] eqn:Es.
  { by destruct (InProgress_scan_found _ _ _ _ _ _ Es). }
  destruct (InProgress_scan_rest _ _ _ _ _ _ Es) as (_ & _ & Hall).
  destruct (running_spec _ _ _ _ _ _ Hok k x Hk Hr) as (t & Ht & Htn & _ & Htx & _ & Hxid).
  assert (k <> MyProcNo env) as Hme.
  { intros ->. by apply (eo_current _ _ _ _ _ _ _ He). }
  destruct (Hall k Hk) as [Hne Hsub].
  { split; [done|]. rewrite Hxid. unfold TransactionIdIsValid, InvalidTransactionId.
    unfold full_normal in Htn. apply negb_true_iff, Z.eqb_neq. lia. }
  destruct Hr as [Hr|Hr]; [rewrite Ht in Hr; injection Hr as ->; congruence|].
  rewrite Hxid, (window_precedes _ _ _ _ _ _ Hok) in Hsub by (done || lia).
  destruct Hsub as [Hni Hov]; [apply Z.ltb_ge; lia|].
  destruct (overflowed (allProcs a k)) eqn:Eo.
  2:{ exfalso. by apply Hni, (ao_cache _ _ _ _ _ _ Hok k Hk). }
  specialize (Hov eq_refl). unfold InProgress_slow. destruct ys as [|y ys]; [by apply elem_of_nil in Hov|].
  destruct (DidAbort _ _) eqn:Ea.
  { destruct (eo_aborted _ _ _ _ _ _ _ He Ea k Hk). by right. }
  rewrite (eo_topmost _ _ _ _ _ _ _ He k t Hk Ht) by (by right).
  rewrite Hxid in Hne. rewrite (proj2 (Z.eqb_neq _ _)) by done. cbn [negb]. by apply xid_in_spec.
Qed.

Lemma InProgress_sound oldest next lc top subs a env rx x :
  array_ok oldest next lc top subs a -> env_ok next top subs a env rx x ->
  full_normal x -> oldest <= x < next ->
  TransactionIdIsInProgress env (XidFromFullTransactionId x) a = true ->
  IsCurrentXid env (XidFromFullTransactionId x) = true \/ lc < x \/
  exists k t, k ∈ pgprocnos a /\ top k = Some t /\
    (running top subs k x \/
     SubTransTopmost env (XidFromFullTransactionId x) = XidFromFullTransactionId t).
Proof.
  intros Hok He Hn Hw. unfold TransactionIdIsInProgress.
  destruct (TransactionIdPrecedes _ _); [done|]. destruct (IsKnownCompleted _ _); [done|].
  destruct (IsCurrentXid _ _); [by left|]. intros H. right.
  destruct (ao_latest _ _ _ _ _ _ Hok) as (Elc & Hlc & Hlr). rewrite Elc in H.
  pose proof (ao_window _ _ _ _ _ _ Hok).
  rewrite precedes_full in H by (done || lia).
  destruct (Z.ltb_spec lc x); [by left|]. right.
  rewrite (eo_recovery _ _ _ _ _ _ _ He) in H.
  destruct (InProgress_scan _ _ _ _ _) as [b|ys] eqn:Es.
  - destruct (InProgress_scan_found _ _ _ _ _ _ Es) as (_ & k & Hk & _ & Hx).
    pose proof (ao_top _ _ _ _ _ _ Hok k Hk) as Ht. destruct (top k) as [t|] eqn:Et.
    + destruct Ht as (Hxid & Htn & Htr). exists k, t. split; [done|]. split; [done|]. left.
      destruct Hx as [Hx|Hx].
      * left. rewrite Hxid in Hx. apply (window_inj _ _ _ _ _ _ Hok) in Hx; [by rewrite <- Hx|lia|lia].
      * apply (ao_cache _ _ _ _ _ _ Hok k Hk), list_elem_of_fmap in Hx as (s & Exs & Hs).
        destruct (running_spec _ _ _ _ _ _ Hok k s Hk (or_intror Hs)) as (t' & _ & _ & _ & ? & ? & _).
        apply (window_inj _ _ _ _ _ _ Hok) in Exs; [|lia|lia]. subst s. by right.
    + destruct Ht as [Hxid Hs]. destruct Hx as [Hx|Hx].
      * rewrite Hxid in Hx. unfold full_normal in Hn. rewrite <- Hx in Hn. done.
      * apply (ao_cache _ _ _ _ _ _ Hok k Hk) in Hx. rewrite Hs in Hx. by apply elem_of_nil in Hx.
  - destruct (InProgress_scan_rest _ _ _ _ _ _ Es) as (_ & Hys & _).
    unfold InProgress_slow in H. destruct ys as [|y ys]; [done|]. destruct (DidAbort _ _); [done|].
    destruct (negb _); [|done]. apply xid_in_spec in H.
    destruct (Hys _ H) as [Hx|(k & Hk & [_ Hv] & _ & E)]; [by apply elem_of_nil in Hx|].
    pose proof (ao_top _ _ _ _ _ _ Hok k Hk) as Ht. destruct (top k) as [t|] eqn:Et.
    + destruct Ht as (Hxid & _). exists k, t. rewrite <- Hxid. auto.
    + destruct Ht as [Hxid _]. by rewrite Hxid in Hv.
Qed.

(** ** The end of a transaction keeps the array consistent *)

Definition end_top (n : Z) (top : Z -> option Z) : Z -> option Z :=
  fun k => if k =? n then None else top k.
Definition end_subs (n : Z) (subs : Z -> list Z) : Z -> list Z :=
  fun k => if k =? n then [] else subs k.

Lemma EndTransactionInternal_ok oldest next lc top subs a n latest :
  array_ok oldest next lc top subs a -> full_normal latest -> oldest <= latest < next ->
  array_ok oldest next (Z.max lc latest) (end_top n top) (end_subs n subs)
    (ProcArrayEndTransactionInternal n (XidFromFullTransactionId latest) a).
Proof.
  intros Hok Hn Hr. destruct (ao_latest _ _ _ _ _ _ Hok) as (El & Hln & Hlr).
  pose proof (ao_window _ _ _ _ _ _ Hok).
  unfold ProcArrayEndTransactionInternal, advance_latest. split; cbn.
  - done.
  - apply Hok.
  - rewrite El, precedes_full by (done || lia).
    destruct (Z.ltb_spec lc latest); [rewrite Z.max_r by lia|rewrite Z.max_l by lia];
      (split; [done|]; split; [done|lia]).
  - intros k Hk. unfold end_top, end_subs, upd_proc. destruct (k =? n); [done|].
    by apply (ao_top _ _ _ _ _ _ Hok).
  - intros k t s Hk. unfold end_top, end_subs. destruct (k =? n); [done|].
    by apply (ao_subs _ _ _ _ _ _ Hok).
  - intros k Hk. unfold end_subs, upd_proc. destruct (k =? n); cbn; [|by apply (ao_cache _ _ _ _ _ _ Hok)].
    split; [by intros x ?%elem_of_nil|]. by intros _ s ?%elem_of_nil.
Qed.

(** A group of ending transactions: numbers and full ids. *)
Definition end_group (members : list (Z * Z)) (s : (Z -> option Z) * (Z -> list Z) * Z)
  : (Z -> option Z) * (Z -> list Z) * Z :=
  fold_left (fun s m => (end_top m.1 s.1.1, end_subs m.1 s.1.2, Z.max s.2 m.2)) members s.

Definition low_ids (members : list (Z * Z)) : list (Z * Z) :=
  map (fun m => (m.1, XidFromFullTransactionId m.2)) members.

Lemma GroupClearXid_ok oldest next members : forall lc top subs a,
  array_ok oldest next lc top subs a ->
  Forall (fun m => full_normal m.2 /\ oldest <= m.2 < next) members ->
  let '(top', subs', lc') := end_group members (top, subs, lc) in
  array_ok oldest next lc' top' subs' (ProcArrayGroupClearXid (low_ids members) a).
Proof.
  induction members as [|[n latest] members IH]; intros lc top subs a Hok HF; [done|].
  inversion_clear HF as [|? ? [Hn Hr] HF']. cbn [low_ids map].
  unfold ProcArrayGroupClearXid, end_group. cbn [fold_left fst snd].
  apply (IH _ _ _ _ (EndTransactionInternal_ok _ _ _ _ _ _ n latest Hok Hn Hr) HF').
Qed.

Lemma end_group_top members s k :
  (end_group members s).1.1 k = if existsb (fun m => k =? m.1) members then None else s.1.1 k.
Proof.
  revert s. induction members as [|m members IH]; intros s; [done|].
  unfold end_group. cbn [fold_left existsb]. fold (end_group members). rewrite IH. cbn.
  unfold end_top. destruct (k =? m.1); cbn; [by destruct (existsb _ _)|done].
Qed.

(** ** Properties *)


(** *** A concrete array: backend 1 takes the snapshot; backend 2 runs
    2^32 + 10 with the subtransaction 2^32 + 12 and a full cache; backend 3
    runs 2^32 - 5, an id from before the 32-bit counter wrapped around. *)
Definition demo_proc (k x : Z) (ovf : bool) : PGPROC :=
  {| pgprocno := k; pid := 1000 + k; backendId := k; databaseId := 1; lxid := 1; xid := x;
     pxmin := 0; vacuumFlags := 0; overflowed := ovf; delayChkpt := false; subxids := [];
     recoveryConflictPending := false |}.

Definition demo_array : ProcArrayStruct :=
  {| maxProcs := 10; pgprocnos := [1; 2; 3];
     allProcs := fun k => if k =? 2 then demo_proc 2 10 true
                          else if k =? 3 then demo_proc 3 (2 ^ 32 - 5) false else demo_proc k 0 false;
     latestCompletedXid := 20; lastOverflowedXid := 0; replication_slot_xmin := 0;
     replication_slot_catalog_xmin := 0 |}.

Definition demo_top (k : Z) : option Z :=
  if k =? 2 then Some (2 ^ 32 + 10) else if k =? 3 then Some (2 ^ 32 - 5) else None.
Definition demo_subs (k : Z) : list Z := if k =? 2 then [2 ^ 32 + 12] else [].

Lemma demo_array_ok :
  array_ok (2 ^ 32 - 100) (2 ^ 32 + 30) (2 ^ 32 + 20) demo_top demo_subs demo_array.
Proof.
  split; cbn [pgprocnos demo_array].
  - lia.
  - split_and!; [lia|lia|by vm_compute].
  - split_and!; [done|by vm_compute|lia|lia].
  - intros k [->|[->|[->|[]%elem_of_nil]%elem_of_cons]%elem_of_cons]%elem_of_cons; [by split| |];
      (split; [reflexivity|]; split; [by vm_compute|by vm_compute]).
  - intros k t s [->|[->|[->|[]%elem_of_nil]%elem_of_cons]%elem_of_cons]%elem_of_cons Ht Hs;
      vm_compute in Hs; try (by apply elem_of_nil in Hs); try done.
    apply list_elem_of_singleton in Hs as ->. injection Ht as <-. by vm_compute.
  - intros k [->|[->|[->|[]%elem_of_nil]%elem_of_cons]%elem_of_cons]%elem_of_cons;
      (split; [intros x Hx; by apply elem_of_nil in Hx|]); try done;
      intros _ s Hs; by apply elem_of_nil in Hs.
Qed.

Definition demo_snapshot_env : snapshot_env :=
  {| sn_me := 1; sn_recovery := false; KnownAssignedXidsGetAndSetXmin := fun _ m => ([], m);
     GetCurrentCommandId := 0; sn_defer := 0; sn_TransactionXmin := 0 |}.



(** C11: TransactionIdIsInProgress answers yes for every running transaction
    and subtransaction, and yes only for the backend's own ids, for ids later
    than any completed one, and for ids of which they or their top-level
    transaction runs. *)
Theorem TransactionIdIsInProgress_exact oldest next lc top subs a env rx x :
  array_ok oldest next lc top subs a -> env_ok next top subs a env rx x ->
  full_normal x -> oldest <= x < next -> oldest <= rx ->
  ((exists k, k ∈ pgprocnos a /\ running top subs k x) ->
     TransactionIdIsInProgress env (XidFromFullTransactionId x) a = true) /\
  (TransactionIdIsInProgress env (XidFromFullTransactionId x) a = true ->
     IsCurrentXid env (XidFromFullTransactionId x) = true \/ lc < x \/
     exists k t, k ∈ pgprocnos a /\ top k = Some t /\
       (running top subs k x \/
        SubTransTopmost env (XidFromFullTransactionId x) = XidFromFullTransactionId t)).
Proof.
  intros Hok He Hn Hw Hrx. split.
  - by apply (InProgress_complete oldest next lc top subs a env rx).
  - by apply (InProgress_sound oldest next lc top subs a env rx).
Qed.

Definition demo_inprogress_env : inprogress_env :=
  {| MyProcNo := 1; RecentXmin := 2 ^ 32 - 5; IsKnownCompleted := fun _ => false;
     IsCurrentXid := fun _ => false; RecoveryInProgress := false;
     KnownAssignedXidExists := fun _ => false; KnownAssignedXidsGet := fun _ => [];
     DidAbort := fun _ => false; SubTransTopmost := fun x => if x =? 12 then 10 else x |}.

Lemma TransactionIdIsInProgress_exact_witness :
  TransactionIdIsInProgress demo_inprogress_env 12 demo_array = true /\
  TransactionIdIsInProgress demo_inprogress_env 11 demo_array = false.
Proof.
  split; [|vm_compute; reflexivity].
  apply (TransactionIdIsInProgress_exact _ _ _ _ _ _ demo_inprogress_env (2 ^ 32 - 5)
    (2 ^ 32 + 12) demo_array_ok).
  - split; try done.
    + intros k y [->|[->|[->|[]%elem_of_nil]%elem_of_cons]%elem_of_cons]%elem_of_cons [H|H];
        try (by apply elem_of_nil in H); try (vm_compute in H; congruence).
      * injection H as <-. lia.
      * apply list_elem_of_singleton in H as ->. lia.
      * injection H as <-. lia.
    + intros _ _ [H|H]; [vm_compute in H; congruence|by apply elem_of_nil in H].
    + intros k t [->|[->|[->|[]%elem_of_nil]%elem_of_cons]%elem_of_cons]%elem_of_cons Ht [H|H];
        try done; try (by apply elem_of_nil in H); by injection Ht as <-.
  - by vm_compute.
  - lia.
  - lia.
  - exists 2. split; [by right; left|]. right. by left.
Defined.


Definition demo_horizon_env : horizon_env :=
  {| MyDatabaseId := 1; hz_recovery := false; KnownAssignedXidsGetOldestXmin := 0;
     vacuum_defer_cleanup_age := 7 |}.


Lemma end_group_latest members s : s.2 <= (end_group members s).2.
Proof.
  revert s. induction members as [|m members IH]; intros s; [done|].
  unfold end_group. cbn [fold_left]. fold (end_group members).
  etrans; [|apply IH]. cbn. lia.
Qed.




(** ** The cache of subtransaction ids *)

Lemma rfind_Some x xs j : rfind x xs = Some j -> xs !! j = Some x.
Proof.
  revert j. induction xs as [|y ys IH]; intros j; cbn; [done|].
  destruct (rfind x ys) as [i|]; [intros [= <-]; by apply IH|].
  destruct (Z.eqb_spec y x) as [->|]; [|done]. by intros [= <-].
Qed.

Lemma rfind_None x xs : rfind x xs = None <-> x ∉ xs.
Proof.
  induction xs as [|y ys IH]; cbn.
  - split; [by intros _ ?%elem_of_nil|done].
  - rewrite not_elem_of_cons. destruct (rfind x ys).
    + split; [done|]. intros [_ H]. by apply IH in H.
    + destruct (Z.eqb_spec y x); naive_solver.
Qed.

(** Moving the last entry into the hole is deletion up to order. *)
Lemma XidCacheRemove_perm x xs j : xs !! j = Some x -> xs ≡ₚ x :: XidCacheRemove j xs.
Proof.
  intros Hj. destruct xs as [|z ys _] using rev_ind; [done|].
  unfold XidCacheRemove. rewrite last_last, length_app. cbn [length].
  replace (length ys + 1 - 1)%nat with (length ys) by lia.
  apply lookup_app_Some in Hj as [Hj|[Hl Hj]].
  - rewrite insert_app_l by (by eapply lookup_lt_Some).
    rewrite take_app_length' by (by rewrite length_insert).
    rewrite <- (take_drop_middle ys j x Hj) at 1.
    rewrite (insert_take_drop ys j z) by (by eapply lookup_lt_Some).
    rewrite <- app_assoc. cbn [app]. rewrite <- !Permutation_middle.
    constructor. rewrite app_assoc, Permutation_app_comm. done.
  - apply list_lookup_singleton_Some in Hj as [Hj ->].
    rewrite insert_app_r_alt by lia. rewrite take_app_length. apply Permutation_app_comm.
Qed.

Lemma remove_one_spec ovf x xs : NoDup xs ->
  NoDup (remove_one ovf x xs).1 /\
  (forall y, y ∈ (remove_one ovf x xs).1 <-> y ∈ xs /\ y <> x) /\
  ((remove_one ovf x xs).2 = true <-> x ∉ xs /\ ovf = false).
Proof.
  intros Hnd. unfold remove_one. destruct (rfind x xs) as [j|] eqn:E; cbn.
  - apply rfind_Some in E. pose proof (XidCacheRemove_perm x xs j E) as Hp.
    set (R := XidCacheRemove j xs) in *. clearbody R.
    assert (forall y, y ∈ xs <-> y = x \/ y ∈ R) as Hm by (intros y; rewrite Hp; apply elem_of_cons).
    rewrite Hp in Hnd. apply NoDup_cons in Hnd as [Hx Hnd].
    split; [done|]. split; [|rewrite Hm; split; [done|tauto]].
    intros y. rewrite Hm. split; [|tauto]. intros Hy. split; [by right|]. by intros ->.
  - apply rfind_None in E. split; [done|]. split.
    + intros y. split; [|by intros []]. intros Hy. split; [done|]. by intros ->.
    + rewrite negb_true_iff. tauto.
Qed.

Lemma remove_many_spec ovf rxs : forall xs, NoDup xs ->
  NoDup (remove_many ovf rxs xs).1 /\
  (forall y, y ∈ (remove_many ovf rxs xs).1 <-> y ∈ xs /\ y ∉ rxs) /\
  (NoDup rxs -> forall y, y ∈ (remove_many ovf rxs xs).2 <-> y ∈ rxs /\ y ∉ xs /\ ovf = false).
Proof.
  induction rxs as [|x rxs IH]; intros xs Hnd; cbn [remove_many].
  - split_and!; [done| |]; intros; rewrite ?elem_of_nil; tauto.
  - destruct (remove_one_spec ovf x xs Hnd) as (H1 & H2 & H3).
    destruct (remove_one ovf x xs) as [xs1 w]. cbn in *.
    destruct (IH xs1 H1) as (I1 & I2 & I3). destruct (remove_many ovf rxs xs1) as [xs2 ws]. cbn in *.
    split_and!; [done| |].
    + intros y. rewrite I2, H2, not_elem_of_cons. tauto.
    + intros [Hx Hr]%NoDup_cons y. specialize (I3 Hr y). rewrite H2 in I3.
      rewrite elem_of_cons. destruct w.
      * rewrite elem_of_cons, I3. destruct (decide (y = x)) as [->|]; [|tauto].
        destruct H3 as [H3 _]. specialize (H3 eq_refl). tauto.
      * rewrite I3. destruct (decide (y = x)) as [->|]; [|tauto].
        split; [tauto|]. intros (_ & ? & ?). exfalso. assert (false = true) by tauto. done.
Qed.

(** XidCacheRemoveRunningXids takes exactly the aborted
    subtransactions out of the backend's cache, keeps it free of duplicates,
    warns exactly about ids that were missing although the cache had not
    overflowed, and touches no other entry. *)
Theorem XidCacheRemoveRunningXids_spec me x xids latest a :
  NoDup (subxids (allProcs a me)) -> NoDup (x :: xids) ->
  let '(ws, a') := XidCacheRemoveRunningXids me x xids latest a in
  NoDup (subxids (allProcs a' me)) /\
  (forall y, y ∈ subxids (allProcs a' me) <->
     y ∈ subxids (allProcs a me) /\ y <> x /\ y ∉ xids) /\
  (forall y, y ∈ ws <->
     (y = x \/ y ∈ xids) /\ y ∉ subxids (allProcs a me) /\ overflowed (allProcs a me) = false) /\
  (forall k, k <> me -> allProcs a' k = allProcs a k) /\ pgprocnos a' = pgprocnos a.
Proof.
  intros Hnd Hx. unfold XidCacheRemoveRunningXids.
  assert (rev xids ++ [x] ≡ₚ x :: xids) as Hp.
  { rewrite <- (Permutation_rev xids). apply Permutation_app_comm. }
  assert (forall y, y ∈ rev xids ++ [x] <-> y = x \/ y ∈ xids) as Hm
    by (intros y; rewrite Hp; apply elem_of_cons).
  destruct (remove_many_spec (overflowed (allProcs a me)) (rev xids ++ [x]) _ Hnd)
    as (H1 & H2 & H3). specialize (H3 ltac:(by rewrite Hp)).
  destruct (remove_many _ _ _) as [xs ws]. cbn [fst snd set_procs allProcs pgprocnos] in *.
  unfold upd_proc at 1 2. rewrite Z.eqb_refl. cbn [subxids set_subxids].
  split_and!; [done| | | |done].
  - intros y. rewrite H2, Hm. tauto.
  - intros y. by rewrite H3, Hm.
  - intros k Hk. unfold upd_proc. by rewrite (proj2 (Z.eqb_neq k me)).
Qed.

Lemma XidCacheRemoveRunningXids_spec_witness :
  let a := set_procs [4] (fun k => set_subxids [21; 22; 24; 25] (demo_proc k 20 false)) 26 demo_array in
  let '(ws, a') := XidCacheRemoveRunningXids 4 22 [23; 24] 25 a in
  subxids (allProcs a' 4) = [21; 25] /\ ws = [23] /\ pgprocnos a' = pgprocnos a.
Proof.
  set (a := set_procs _ _ _ _).
  assert (NoDup (subxids (allProcs a 4))) as Hnd
    by (apply (bool_decide_unpack _); vm_compute; exact I).
  assert (NoDup [22; 23; 24]) as Hx by (apply (bool_decide_unpack _); vm_compute; exact I).
  pose proof (XidCacheRemoveRunningXids_spec 4 22 [23; 24] 25 a Hnd Hx) as H.
  cbv zeta. destruct (XidCacheRemoveRunningXids 4 22 [23; 24] 25 a) as [ws a'] eqn:E.
  destruct H as (_ & _ & _ & _ & Hp). vm_compute in E. injection E as <- <-.
  split; [vm_compute; reflexivity|]. split; [reflexivity|exact Hp].
Defined.

End ProcArray.
