(* ===== verification/Lwlock.v ===== *)
(** * Lightweight locks

    Models [src/backend/storage/lmgr/lwlock.c]: one LWLock and the processes
    that use it, at the grain of its atomic operations.  The control point of a
    process in one of the routines is its [pc], with the local variables that
    are live there; [step_proc] runs one process to its next access of shared memory.
    Processes interleave in any order.  Accesses are sequentially consistent,
    as the barriers of the code are there to ensure.

    The process semaphore is shared with other parts of the server, so it may
    be incremented at any time by somebody else; that also stands for the other
    lightweight locks.  A process asks for a lock only if it does not hold it. *)

From S2P Require Import Prelude.
From S2P Require Import Words.
From S2P Require Varsup.
From stdpp Require Import list.

Import Words.

Open Scope Z_scope.

Module Lwlock.

(** ** The state word *)

Definition LW_FLAG_HAS_WAITERS : Z := Z.shiftl 1 30.
Definition LW_FLAG_RELEASE_OK : Z := Z.shiftl 1 29.
Definition LW_FLAG_LOCKED : Z := Z.shiftl 1 28.
Definition LW_VAL_EXCLUSIVE : Z := Z.shiftl 1 24.
Definition LW_VAL_SHARED : Z := 1.
Definition LW_LOCK_MASK : Z := Z.shiftl 1 25 - 1.

Inductive LWLockMode := LW_EXCLUSIVE | LW_SHARED | LW_WAIT_UNTIL_FREE.

#[export] Instance LWLockMode_eq : EqDecision LWLockMode.
Proof. solve_decision. Defined.

Definition lock_value (m : LWLockMode) : Z :=
  match m with LW_EXCLUSIVE => LW_VAL_EXCLUSIVE | _ => LW_VAL_SHARED end.

(** ** Processes *)

(** The routine that a process is in; [WaitForVar] with its [oldval]. *)
Inductive call :=
  | Acquire (m : LWLockMode)
  | OrWait (m : LWLockMode)
  | Conditional (m : LWLockMode)
  | WaitForVar (oldval : Z).

(** What it comes to: the lock was taken or not; [LWLockWaitForVar] found the
    lock free, or the variable changed. *)
Inductive outcome := Got | NotGot | Free | Changed (v : Z).

#[export] Instance outcome_eq : EqDecision outcome.
Proof. solve_decision. Defined.

(** Whoever waits for the wait list, and goes on with it locked. *)
Inductive after_lock :=
  | ForQueue (c : call) (extraWaits : nat)
  | ForValue (oldval : Z) (again : bool) (extraWaits : nat)
  | ForDequeue (c : call) (extraWaits : nat) (o : outcome)
  | ForWakeup
  | ForUpdate (v : Z)
  | ForClear (v : Z).

Inductive pc :=
  | Idle
  (* LWLockAttemptLock, for the first or the second time in a round *)
  | AttemptRead (c : call) (again : bool) (extraWaits : nat)
  | AttemptCAS (c : call) (again : bool) (extraWaits : nat) (old_state : Z)
  (* LWLockWaitListLock *)
  | ListLock (k : after_lock)
  | ListSpin (k : after_lock)
  (* LWLockQueueSelf *)
  | QueueStart (c : call) (extraWaits : nat)
  | QueueFlag (c : call) (extraWaits : nat)
  | QueuePush (c : call) (extraWaits : nat)
  | QueueUnlock (c : call) (extraWaits : nat)
  (* LWLockWaitForVar, LWLockConflictsWithVar *)
  | VarReleaseOk (oldval : Z) (extraWaits : nat)
  | VarState (oldval : Z) (again : bool) (extraWaits : nat)
  | VarValue (oldval : Z) (again : bool) (extraWaits : nat)
  | VarUnlock (oldval : Z) (again : bool) (extraWaits : nat) (value : Z)
  (* waiting to be awakened *)
  | SemLock (c : call) (extraWaits : nat)
  | CheckWaiting (c : call) (extraWaits : nat)
  | RetryOk (c : call) (extraWaits : nat)
  (* LWLockDequeueSelf *)
  | DequeueRemove (c : call) (extraWaits : nat) (o : outcome)
  | DequeueTest (c : call) (extraWaits : nat) (o : outcome) (found : bool)
  | DequeueClear (c : call) (extraWaits : nat) (o : outcome) (found : bool)
  | DequeueUnlock (c : call) (extraWaits : nat) (o : outcome) (found : bool)
  | DequeueOk (c : call) (extraWaits : nat) (o : outcome)
  | DequeueSem (c : call) (extraWaits : nat) (o : outcome) (absorbed : nat)
  | DequeueCheck (c : call) (extraWaits : nat) (o : outcome) (absorbed : nat)
  | DequeueRepost (c : call) (extraWaits : nat) (o : outcome) (absorbed : nat)
  (* giving back the absorbed wakeups, and returning *)
  | Repost (c : call) (extraWaits : nat) (o : outcome)
  (* LWLockRelease *)
  | ReleaseSub (m : LWLockMode)
  (* LWLockWakeup *)
  | WakeCollect
  | WakeRead (wakeup : list nat) (new_release_ok : bool)
  | WakeCAS (wakeup : list nat) (new_release_ok : bool) (old_state : Z)
  | WakeNext (wakeup : list nat)
  | WakePost (waiter : nat) (wakeup : list nat)
  (* LWLockUpdateVar *)
  | UpdateSet (v : Z)
  | UpdateUnlock (wakeup : list nat)
  (* LWLockReleaseClearVar *)
  | ClearSet (v : Z)
  | ClearUnlock.

Record proc := MkProc {
  at_pc : pc;
  lwWaiting : bool;
  lwWaitMode : LWLockMode;
  sem : nat;
  held : option LWLockMode;      (* the entry of held_lwlocks for this lock *)
  returned : option outcome }.

Record LWLock := MkLock { state : Z; waiters : list nat; valptr : Z }.

Record system := MkSystem { lock : LWLock; procs : list proc }.

Definition set_pc (c : pc) (x : proc) : proc :=
  MkProc c (lwWaiting x) (lwWaitMode x) (sem x) (held x) (returned x).
Definition set_waiting (b : bool) (x : proc) : proc :=
  MkProc (at_pc x) b (lwWaitMode x) (sem x) (held x) (returned x).
Definition set_mode (m : LWLockMode) (x : proc) : proc :=
  MkProc (at_pc x) (lwWaiting x) m (sem x) (held x) (returned x).
Definition set_sem (n : nat) (x : proc) : proc :=
  MkProc (at_pc x) (lwWaiting x) (lwWaitMode x) n (held x) (returned x).
Definition set_held (m : option LWLockMode) (x : proc) : proc :=
  MkProc (at_pc x) (lwWaiting x) (lwWaitMode x) (sem x) m (returned x).
Definition set_returned (o : option outcome) (x : proc) : proc :=
  MkProc (at_pc x) (lwWaiting x) (lwWaitMode x) (sem x) (held x) o.

(** [LWLockInitialize], and processes that do not use the lock. *)
Definition LWLockInitialize : LWLock := MkLock LW_FLAG_RELEASE_OK [] 0.
Definition new_proc (n : nat) : proc := MkProc Idle false LW_EXCLUSIVE n None None.

(** ** One step of one process *)

Inductive result := Failed | Asleep | Done (st : system).

(** The mode of the request and the mode of the wait. *)
Definition req_mode (c : call) : LWLockMode :=
  match c with
  | Acquire m | OrWait m | Conditional m => m
  | WaitForVar _ => LW_WAIT_UNTIL_FREE
  end.
Definition wait_mode (c : call) : LWLockMode :=
  match c with Acquire m => m | _ => LW_WAIT_UNTIL_FREE end.

Definition lock_free (m : LWLockMode) (old_state : Z) : bool :=
  match m with
  | LW_EXCLUSIVE => Z.land old_state LW_LOCK_MASK =? 0
  | _ => Z.land old_state LW_VAL_EXCLUSIVE =? 0
  end.

(** [desired_state] of [LWLockAttemptLock]. *)
Definition desired_state (m : LWLockMode) (old_state : Z) : Z :=
  if lock_free m old_state then u32 (old_state + lock_value m) else old_state.

(** Where a process goes when [LWLockAttemptLock] has its answer. *)
Definition attempted (c : call) (again : bool) (extraWaits : nat) (mustwait : bool) : pc :=
  if mustwait then
    match c with
    | Conditional _ => Repost c extraWaits NotGot
    | _ => if again then SemLock c extraWaits else QueueStart c extraWaits
    end
  else if again then ListLock (ForDequeue c extraWaits Got) else Repost c extraWaits Got.

(** Where it goes when [LWLockConflictsWithVar] has. *)
Definition var_checked (oldval : Z) (again : bool) (extraWaits : nat) (o : option outcome) : pc :=
  match o with
  | None => if again then SemLock (WaitForVar oldval) extraWaits
            else QueueStart (WaitForVar oldval) extraWaits
  | Some o => if again then ListLock (ForDequeue (WaitForVar oldval) extraWaits o)
              else Repost (WaitForVar oldval) extraWaits o
  end.

Definition locked (k : after_lock) : pc :=
  match k with
  | ForQueue c x => QueueFlag c x
  | ForValue v a x => VarValue v a x
  | ForDequeue c x o => DequeueRemove c x o
  | ForWakeup => WakeCollect
  | ForUpdate v => UpdateSet v
  | ForClear v => ClearSet v
  end.

(** After the second failure to get what it wants and a sleep. *)
Definition awakened (c : call) (extraWaits : nat) : pc :=
  match c with
  | Acquire _ => RetryOk c extraWaits
  | WaitForVar v => VarState v false extraWaits
  | _ => Repost c extraWaits NotGot
  end.

Section Step.
Context (me : nat).   (* MyProc *)

(** The loop of [LWLockWakeup] over the wait list: the list that is left, the
    processes to wake and [new_release_ok]. *)
Fixpoint collect (mode_of : nat -> LWLockMode) (ws : list nat) (wokeup_somebody : bool)
  : list nat * list nat * bool :=
  match ws with
  | [] => ([], [], true)
  | w :: ws' =>
      if wokeup_somebody && bool_decide (mode_of w = LW_EXCLUSIVE) then
        let '(rest, wakeup, ok) := collect mode_of ws' wokeup_somebody in (w :: rest, wakeup, ok)
      else
        let until_free := bool_decide (mode_of w = LW_WAIT_UNTIL_FREE) in
        if bool_decide (mode_of w = LW_EXCLUSIVE) then (ws', [w], false)
        else
          let '(rest, wakeup, ok) := collect mode_of ws' (wokeup_somebody || negb until_free) in
          (rest, w :: wakeup, until_free && ok)
  end.

(** The loop of [LWLockUpdateVar]: the waiters for the variable are in front. *)
Fixpoint collect_var (mode_of : nat -> LWLockMode) (ws : list nat) : list nat * list nat :=
  match ws with
  | [] => ([], [])
  | w :: ws' =>
      if bool_decide (mode_of w <> LW_WAIT_UNTIL_FREE) then (w :: ws', [])
      else let '(rest, wakeup) := collect_var mode_of ws' in (rest, w :: wakeup)
  end.

(** The new state in [LWLockWakeup]. *)
Definition wake_state (wakeup : list nat) (new_release_ok : bool) (old_state : Z) : Z :=
  let s := if new_release_ok then Z.lor old_state LW_FLAG_RELEASE_OK
           else Z.land old_state (not32 LW_FLAG_RELEASE_OK) in
  let s := if bool_decide (wakeup = []) then Z.land s (not32 LW_FLAG_HAS_WAITERS) else s in
  Z.land s (not32 LW_FLAG_LOCKED).

Definition mode_in (ps : list proc) (p : nat) : LWLockMode :=
  match ps !! p with Some x => lwWaitMode x | None => LW_EXCLUSIVE end.

Definition set_state (z : Z) (l : LWLock) : LWLock := MkLock z (waiters l) (valptr l).
Definition set_waiters (ws : list nat) (l : LWLock) : LWLock := MkLock (state l) ws (valptr l).
Definition set_var (v : Z) (l : LWLock) : LWLock := MkLock (state l) (waiters l) v.

Definition remove (p : nat) (ws : list nat) : list nat := filter (fun q => q <> p) ws.

(** What a step does: the lock and [me] are replaced. *)
Definition put (l : LWLock) (x : proc) (st : system) : result := Done (MkSystem l (<[me := x]> (procs st))).

Section Routines.
Context (st : system) (x : proc).   (* the PGPROC of [me] *)

Definition goto (c : pc) : result := put (lock st) (set_pc c x) st.
Definition store (z : Z) (c : pc) : result := put (set_state z (lock st)) (set_pc c x) st.

Definition LWLockAttemptLock_read (c : call) (again : bool) (extraWaits : nat) : result :=
  goto (AttemptCAS c again extraWaits (state (lock st))).

Definition LWLockAttemptLock_swap (c : call) (again : bool) (extraWaits : nat) (old_state : Z) : result :=
  if state (lock st) =? old_state then
    store (desired_state (req_mode c) old_state)
      (attempted c again extraWaits (negb (lock_free (req_mode c) old_state)))
  else goto (AttemptCAS c again extraWaits (state (lock st))).

Definition LWLockWaitListLock (k : after_lock) : result :=
  store (Z.lor (state (lock st)) LW_FLAG_LOCKED)
    (if is_set (state (lock st)) LW_FLAG_LOCKED then ListSpin k else locked k).

Definition LWLockWaitListLock_spin (k : after_lock) : result :=
  goto (if is_set (state (lock st)) LW_FLAG_LOCKED then ListSpin k else ListLock k).

(** [x'] is the process afterwards. *)
Definition LWLockWaitListUnlock (x' : proc) : result :=
  if is_set (state (lock st)) LW_FLAG_LOCKED then
    put (set_state (Z.land (state (lock st)) (not32 LW_FLAG_LOCKED)) (lock st)) x' st
  else Failed.

Definition LWLockQueueSelf (c : call) (extraWaits : nat) : result :=
  if lwWaiting x then Failed else goto (ListLock (ForQueue c extraWaits)).

Definition LWLockQueueSelf_flag (c : call) (extraWaits : nat) : result :=
  store (Z.lor (state (lock st)) LW_FLAG_HAS_WAITERS) (QueuePush c extraWaits).

Definition LWLockQueueSelf_push (c : call) (extraWaits : nat) : result :=
  let ws := match wait_mode c with
            | LW_WAIT_UNTIL_FREE => me :: waiters (lock st)
            | _ => waiters (lock st) ++ [me]
            end in
  put (set_waiters ws (lock st)) (set_pc (QueueUnlock c extraWaits) (set_waiting true (set_mode (wait_mode c) x))) st.

(** What comes after the entry into the wait list. *)
Definition queued (c : call) (extraWaits : nat) : pc :=
  match c with WaitForVar v => VarReleaseOk v extraWaits | _ => AttemptRead c true extraWaits end.

Definition LWLockConflictsWithVar (oldval : Z) (again : bool) (extraWaits : nat) : result :=
  goto (if is_set (state (lock st)) LW_VAL_EXCLUSIVE then ListLock (ForValue oldval again extraWaits)
        else var_checked oldval again extraWaits (Some Free)).

Definition LWLockConflictsWithVar_read (oldval : Z) (again : bool) (extraWaits : nat) : result :=
  goto (VarUnlock oldval again extraWaits (valptr (lock st))).

Definition compared (oldval : Z) (again : bool) (extraWaits : nat) (value : Z) : pc :=
  var_checked oldval again extraWaits (if value =? oldval then None else Some (Changed value)).

(** [PGSemaphoreLock] and [PGSemaphoreUnlock] on the semaphore of [me]. *)
Definition PGSemaphoreLock (c : pc) : result :=
  match sem x with O => Asleep | S n => put (lock st) (set_pc c (set_sem n x)) st end.
Definition PGSemaphoreUnlock (c : pc) : result := put (lock st) (set_pc c (set_sem (S (sem x)) x)) st.

(** After a wakeup: was it meant for this wait? *)
Definition wait_loop (c : call) (extraWaits : nat) : result :=
  goto (if lwWaiting x then SemLock c (S extraWaits) else awakened c extraWaits).

Definition set_release_ok (c : pc) : result := store (Z.lor (state (lock st)) LW_FLAG_RELEASE_OK) c.

Definition LWLockDequeueSelf_remove (c : call) (extraWaits : nat) (o : outcome) : result :=
  put (set_waiters (remove me (waiters (lock st))) (lock st))
    (set_pc (DequeueTest c extraWaits o (bool_decide (me ∈ waiters (lock st)))) x) st.

Definition LWLockDequeueSelf_test (c : call) (extraWaits : nat) (o : outcome) (found : bool) : result :=
  goto (if bool_decide (waiters (lock st) = []) && is_set (state (lock st)) LW_FLAG_HAS_WAITERS
        then DequeueClear c extraWaits o found else DequeueUnlock c extraWaits o found).

Definition LWLockDequeueSelf_clear (c : call) (extraWaits : nat) (o : outcome) (found : bool) : result :=
  store (Z.land (state (lock st)) (not32 LW_FLAG_HAS_WAITERS)) (DequeueUnlock c extraWaits o found).

Definition dequeued (c : call) (extraWaits : nat) (o : outcome) (found : bool) : proc :=
  if found then set_pc (Repost c extraWaits o) (set_waiting false x) else set_pc (DequeueOk c extraWaits o) x.

Definition LWLockDequeueSelf_wait (c : call) (extraWaits : nat) (o : outcome) (absorbed : nat) : result :=
  goto (if lwWaiting x then DequeueSem c extraWaits o (S absorbed) else DequeueRepost c extraWaits o absorbed).

Definition LWLockDequeueSelf_repost (c : call) (extraWaits : nat) (o : outcome) (absorbed : nat) : result :=
  match absorbed with
  | O => goto (Repost c extraWaits o)
  | S k => PGSemaphoreUnlock (DequeueRepost c extraWaits o k)
  end.

(** The end of the routines that acquire or wait; [held_lwlocks] is private to
    the process. *)
Definition finish (c : call) (extraWaits : nat) (o : outcome) : result :=
  match extraWaits with
  | O => put (lock st) (set_pc Idle (set_returned (Some o)
           (set_held (if bool_decide (o = Got) then Some (req_mode c) else held x) x))) st
  | S k => PGSemaphoreUnlock (Repost c k o)
  end.

(** [check_waiters] of [LWLockRelease]. *)
Definition check_waiters (oldstate : Z) : bool :=
  (Z.land oldstate (Z.lor LW_FLAG_HAS_WAITERS LW_FLAG_RELEASE_OK) =?
     Z.lor LW_FLAG_HAS_WAITERS LW_FLAG_RELEASE_OK) && (Z.land oldstate LW_LOCK_MASK =? 0).

Definition LWLockRelease_sub (mode : LWLockMode) : result :=
  let oldstate := u32 (state (lock st) - lock_value mode) in
  if is_set oldstate LW_VAL_EXCLUSIVE then Failed
  else store oldstate (if check_waiters oldstate then ListLock ForWakeup else Idle).

Definition LWLockWakeup_collect : result :=
  let '(rest, wakeup, new_release_ok) := collect (mode_in (procs st)) (waiters (lock st)) false in
  if bool_decide (wakeup = []) || is_set (state (lock st)) LW_FLAG_HAS_WAITERS then
    put (set_waiters rest (lock st)) (set_pc (WakeRead wakeup new_release_ok) x) st
  else Failed.

Definition LWLockWakeup_swap (wakeup : list nat) (new_release_ok : bool) (old_state : Z) : result :=
  if state (lock st) =? old_state then store (wake_state wakeup new_release_ok old_state) (WakeNext wakeup)
  else goto (WakeCAS wakeup new_release_ok (state (lock st))).

(** Somebody else is told, and its semaphore is unlocked. *)
Definition awaken_next (wakeup : list nat) : result :=
  match wakeup with
  | [] => goto Idle
  | waiter :: wakeup' =>
      Done (MkSystem (lock st) (alter (set_waiting false) waiter (<[me := set_pc (WakePost waiter wakeup') x]> (procs st))))
  end.
Definition awaken_post (waiter : nat) (wakeup : list nat) : result :=
  Done (MkSystem (lock st) (alter (fun y => set_sem (S (sem y)) y) waiter (<[me := set_pc (WakeNext wakeup) x]> (procs st)))).

Definition LWLockUpdateVar_set (val : Z) : result :=
  if is_set (state (lock st)) LW_VAL_EXCLUSIVE then
    let '(rest, wakeup) := collect_var (mode_in (procs st)) (waiters (lock st)) in
    put (set_var val (set_waiters rest (lock st))) (set_pc (UpdateUnlock wakeup) x) st
  else Failed.

Definition LWLockReleaseClearVar_set (val : Z) : result :=
  put (set_var val (lock st)) (set_pc ClearUnlock x) st.

(** [LWLockRelease] looks the mode up and forgets it. *)
Definition LWLockReleaseClearVar_unlock : result :=
  match held x with
  | Some mode => LWLockWaitListUnlock (set_pc (ReleaseSub mode) (set_held None x))
  | None => Failed
  end.

(** One step of [me]. *)
Definition step_proc : result :=
  match at_pc x with
  | Idle => Asleep
  | AttemptRead c a n => LWLockAttemptLock_read c a n
  | AttemptCAS c a n old => LWLockAttemptLock_swap c a n old
  | ListLock k => LWLockWaitListLock k
  | ListSpin k => LWLockWaitListLock_spin k
  | QueueStart c n => LWLockQueueSelf c n
  | QueueFlag c n => LWLockQueueSelf_flag c n
  | QueuePush c n => LWLockQueueSelf_push c n
  | QueueUnlock c n => LWLockWaitListUnlock (set_pc (queued c n) x)
  | VarReleaseOk v n => set_release_ok (VarState v true n)
  | VarState v a n => LWLockConflictsWithVar v a n
  | VarValue v a n => LWLockConflictsWithVar_read v a n
  | VarUnlock v a n value => LWLockWaitListUnlock (set_pc (compared v a n value) x)
  | SemLock c n => PGSemaphoreLock (CheckWaiting c n)
  | CheckWaiting c n => wait_loop c n
  | RetryOk c n => set_release_ok (AttemptRead c false n)
  | DequeueRemove c n o => LWLockDequeueSelf_remove c n o
  | DequeueTest c n o found => LWLockDequeueSelf_test c n o found
  | DequeueClear c n o found => LWLockDequeueSelf_clear c n o found
  | DequeueUnlock c n o found => LWLockWaitListUnlock (dequeued c n o found)
  | DequeueOk c n o => set_release_ok (DequeueSem c n o 0)
  | DequeueSem c n o k => PGSemaphoreLock (DequeueCheck c n o k)
  | DequeueCheck c n o k => LWLockDequeueSelf_wait c n o k
  | DequeueRepost c n o k => LWLockDequeueSelf_repost c n o k
  | Repost c n o => finish c n o
  | ReleaseSub m => LWLockRelease_sub m
  | WakeCollect => LWLockWakeup_collect
  | WakeRead ws ok => goto (WakeCAS ws ok (state (lock st)))
  | WakeCAS ws ok old => LWLockWakeup_swap ws ok old
  | WakeNext ws => awaken_next ws
  | WakePost w ws => awaken_post w ws
  | UpdateSet v => LWLockUpdateVar_set v
  | UpdateUnlock ws => LWLockWaitListUnlock (set_pc (WakeNext ws) x)
  | ClearSet v => LWLockReleaseClearVar_set v
  | ClearUnlock => LWLockReleaseClearVar_unlock
  end.
End Routines.
End Step.

(** The code of a step. *)
Ltac unfold_step :=
  unfold step_proc, LWLockAttemptLock_read, LWLockAttemptLock_swap, LWLockWaitListLock, LWLockWaitListLock_spin,
    LWLockQueueSelf, LWLockQueueSelf_flag, LWLockQueueSelf_push, LWLockConflictsWithVar, LWLockConflictsWithVar_read,
    wait_loop, set_release_ok, LWLockDequeueSelf_remove, LWLockDequeueSelf_test, LWLockDequeueSelf_clear,
    LWLockDequeueSelf_wait, LWLockDequeueSelf_repost, finish, LWLockRelease_sub, check_waiters, LWLockWakeup_collect,
    LWLockWakeup_swap, awaken_next, awaken_post, LWLockUpdateVar_set, LWLockReleaseClearVar_set,
    LWLockReleaseClearVar_unlock, LWLockWaitListUnlock, queued, compared, dequeued, PGSemaphoreLock, PGSemaphoreUnlock,
    goto, store, put.

(** ** Runs *)

(** The routines that a process may call. *)
Inductive routine :=
  | LWLockAcquire (m : LWLockMode)
  | LWLockConditionalAcquire (m : LWLockMode)
  | LWLockAcquireOrWait (m : LWLockMode)
  | LWLockWaitForVar (oldval : Z)
  | LWLockUpdateVar (v : Z)
  | LWLockRelease
  | LWLockReleaseClearVar (v : Z).

(** The entry of a routine; [None] when it may not be called. *)
Definition enter (r : routine) (x : proc) : option proc :=
  match r, held x with
  | LWLockAcquire m, None =>
      if bool_decide (m = LW_WAIT_UNTIL_FREE) then None else Some (set_pc (AttemptRead (Acquire m) false 0) x)
  | LWLockConditionalAcquire m, None =>
      if bool_decide (m = LW_WAIT_UNTIL_FREE) then None else Some (set_pc (AttemptRead (Conditional m) false 0) x)
  | LWLockAcquireOrWait m, None =>
      if bool_decide (m = LW_WAIT_UNTIL_FREE) then None else Some (set_pc (AttemptRead (OrWait m) false 0) x)
  | LWLockWaitForVar v, None => Some (set_pc (VarState v false 0) x)
  | LWLockUpdateVar v, Some LW_EXCLUSIVE => Some (set_pc (ListLock (ForUpdate v)) x)
  | LWLockRelease, Some m => Some (set_pc (ReleaseSub m) (set_held None x))
  | LWLockReleaseClearVar v, Some _ => Some (set_pc (ListLock (ForClear v)) x)
  | _, _ => None
  end.

Inductive move := Call (p : nat) (r : routine) | Run (p : nat) | Post (p : nat).

(** A routine is called by a process that is in none; a process runs; somebody
    else posts the semaphore of a process. *)
Definition do_move (mv : move) (st : system) : result :=
  match mv with
  | Call p r =>
      match procs st !! p with
      | Some x =>
          match at_pc x, enter r x with
          | Idle, Some x' => Done (MkSystem (lock st) (<[p := x']> (procs st)))
          | _, _ => Asleep
          end
      | None => Asleep
      end
  | Run p => match procs st !! p with Some x => step_proc p st x | None => Asleep end
  | Post p => Done (MkSystem (lock st) (alter (fun y => set_sem (S (sem y)) y) p (procs st)))
  end.

Inductive reachable : system -> Prop :=
  | reach_init sems : Z.of_nat (length sems) <= Varsup.Varsup.MAX_BACKENDS ->
      reachable (MkSystem LWLockInitialize (map new_proc sems))
  | reach_move st mv st' : reachable st -> do_move mv st = Done st' -> reachable st'.

End Lwlock.
