(* ===== verification/LwlockInv.v ===== *)
(** * The invariant of a lightweight lock

    The state word counts the owners and says whether the wait list is locked;
    the wait list, the lists of processes to wake up and the control points of
    the processes agree; and whenever a process has gone to sleep on a lock that
    is free, somebody is about to wake it or to try the lock. *)

From S2P Require Import Prelude.
From S2P Require Import Words.
From S2P Require Varsup.
From S2P Require Import Lwlock.
From stdpp Require Import list.

Import Words Lwlock.

Open Scope Z_scope.

Module LwlockInv.

(** ** The state word *)

Definition flags (lk ro hw : bool) : Z := 8 * Z.b2z lk + 16 * Z.b2z ro + 32 * Z.b2z hw.

(** The state word: the wait list is locked, a release may wake waiters, there
    are waiters, and the value that counts the owners. *)
Definition word (lk ro hw : bool) (v : Z) : Z := v + 2 ^ 25 * flags lk ro hw.

Section Word.
Context (lk ro hw : bool) (v : Z) (Hv : 0 <= v < 2 ^ 25).

Lemma word_lor_locked : Z.lor (word lk ro hw v) LW_FLAG_LOCKED = word true ro hw v.
Proof. unfold word. rewrite (lor_split 25 ltac:(lia) v _ 8 Hv). by destruct lk, ro, hw. Qed.

Lemma word_lor_release_ok : Z.lor (word lk ro hw v) LW_FLAG_RELEASE_OK = word lk true hw v.
Proof. unfold word. rewrite (lor_split 25 ltac:(lia) v _ 16 Hv). by destruct lk, ro, hw. Qed.

Lemma word_lor_has_waiters : Z.lor (word lk ro hw v) LW_FLAG_HAS_WAITERS = word lk ro true v.
Proof. unfold word. rewrite (lor_split 25 ltac:(lia) v _ 32 Hv). by destruct lk, ro, hw. Qed.

Lemma word_land_locked : Z.land (word lk ro hw v) (not32 LW_FLAG_LOCKED) = word false ro hw v.
Proof. unfold word. rewrite (land_keep 25 ltac:(lia) v _ 119 Hv). by destruct lk, ro, hw. Qed.

Lemma word_land_release_ok : Z.land (word lk ro hw v) (not32 LW_FLAG_RELEASE_OK) = word lk false hw v.
Proof. unfold word. rewrite (land_keep 25 ltac:(lia) v _ 111 Hv). by destruct lk, ro, hw. Qed.

Lemma word_land_has_waiters : Z.land (word lk ro hw v) (not32 LW_FLAG_HAS_WAITERS) = word lk ro false v.
Proof. unfold word. rewrite (land_keep 25 ltac:(lia) v _ 95 Hv). by destruct lk, ro, hw. Qed.

Lemma word_locked : is_set (word lk ro hw v) LW_FLAG_LOCKED = lk.
Proof. unfold is_set, word. rewrite (land_high 25 ltac:(lia) v _ 8 Hv). by destruct lk, ro, hw. Qed.

Lemma word_has_waiters : is_set (word lk ro hw v) LW_FLAG_HAS_WAITERS = hw.
Proof. unfold is_set, word. rewrite (land_high 25 ltac:(lia) v _ 32 Hv). by destruct lk, ro, hw. Qed.

Lemma word_check_waiters :
  (Z.land (word lk ro hw v) (Z.lor LW_FLAG_HAS_WAITERS LW_FLAG_RELEASE_OK) =?
     Z.lor LW_FLAG_HAS_WAITERS LW_FLAG_RELEASE_OK) = hw && ro.
Proof. unfold word. rewrite (land_high 25 ltac:(lia) v _ 48 Hv). by destruct lk, ro, hw. Qed.

Lemma word_value : Z.land (word lk ro hw v) LW_LOCK_MASK = v.
Proof. apply (land_low 25); [lia|done]. Qed.

Lemma word_exclusive : is_set (word lk ro hw v) LW_VAL_EXCLUSIVE = (2 ^ 24 <=? v).
Proof.
  unfold is_set. assert (E : Z.land (word lk ro hw v) LW_VAL_EXCLUSIVE = 2 ^ 24 * (v / 2 ^ 24)).
  { pose proof (Z.div_mod v (2 ^ 24) ltac:(lia)) as Hd. pose proof (Z.mod_pos_bound v (2 ^ 24) ltac:(lia)) as Hm.
    assert (v / 2 ^ 24 = 0 \/ v / 2 ^ 24 = 1) as Hq.
    { assert (0 <= v / 2 ^ 24 < 2) by (split; [apply Z.div_pos; lia|apply Z.div_lt_upper_bound; lia]). lia. }
    unfold word. rewrite Hd at 1. replace (2 ^ 24 * (v / 2 ^ 24) + v mod 2 ^ 24 + 2 ^ 25 * flags lk ro hw)
      with (v mod 2 ^ 24 + 2 ^ 24 * (v / 2 ^ 24 + 2 * flags lk ro hw)) by lia.
    rewrite (land_high 24 ltac:(lia) _ _ 1 Hm). by destruct Hq as [-> | ->], lk, ro, hw. }
  rewrite E. pose proof (Z.div_mod v (2 ^ 24) ltac:(lia)). pose proof (Z.mod_pos_bound v (2 ^ 24) ltac:(lia)).
  destruct (Z.leb_spec (2 ^ 24) v), (Z.eqb_spec (2 ^ 24 * (v / 2 ^ 24)) 0); try done; exfalso.
  - assert (1 <= v / 2 ^ 24) by (apply Z.div_le_lower_bound; lia). lia.
  - rewrite Z.div_small in *; lia.
Qed.

Lemma word_u32 d : 0 <= v + d < 2 ^ 25 -> u32 (word lk ro hw v + d) = word lk ro hw (v + d).
Proof.
  intros Hd. unfold u32, word. rewrite Z.mod_small; [lia|]. unfold flags. destruct lk, ro, hw; cbn; lia.
Qed.
End Word.

(** ** Control points *)

(** With the wait list locked. *)
Definition inside (c : pc) : bool :=
  match c with
  | QueueFlag _ _ | QueuePush _ _ | QueueUnlock _ _ | VarValue _ _ _ | VarUnlock _ _ _ _
  | DequeueRemove _ _ _ | DequeueTest _ _ _ _ | DequeueClear _ _ _ _ | DequeueUnlock _ _ _ _
  | WakeCollect | WakeRead _ _ | WakeCAS _ _ _ | UpdateSet _ | UpdateUnlock _ | ClearSet _ | ClearUnlock => true
  | _ => false
  end.

(** Between the entry into the wait list and the end of the wait. *)
Definition queued_k (k : after_lock) : option call :=
  match k with
  | ForDequeue c _ _ => Some c
  | ForValue v true _ => Some (WaitForVar v)
  | _ => None
  end.

Definition queued_in (c : pc) : option call :=
  match c with
  | QueueUnlock c _ | AttemptRead c true _ | AttemptCAS c true _ _ | SemLock c _ | CheckWaiting c _
  | DequeueRemove c _ _ => Some c
  | VarReleaseOk v _ | VarState v true _ | VarValue v true _ | VarUnlock v true _ _ => Some (WaitForVar v)
  | ListLock k | ListSpin k => queued_k k
  | _ => None
  end.

(** Removed from the wait list by somebody else while giving up the wait. *)
Definition popped_in (c : pc) : option call :=
  match c with
  | DequeueTest c _ _ false | DequeueClear c _ _ false | DequeueUnlock c _ _ false | DequeueOk c _ _
  | DequeueSem c _ _ _ | DequeueCheck c _ _ _ => Some c
  | _ => None
  end.

(** Removed from the wait list by itself. *)
Definition found_in (c : pc) : bool :=
  match c with DequeueTest _ _ _ true | DequeueClear _ _ _ true | DequeueUnlock _ _ _ true => true | _ => false end.

(** Will set [LW_FLAG_RELEASE_OK] if it is not in the wait list any more. *)
Definition owes_in (c : pc) : option call :=
  match c with
  | DequeueTest c _ _ false | DequeueClear c _ _ false | DequeueUnlock c _ _ false | DequeueOk c _ _
  | RetryOk c _ => Some c
  | _ => queued_in c
  end.

(** The processes that it is going to wake up, with the wait list locked and
    later. *)
Definition inner (c : pc) : list nat :=
  match c with WakeRead ws _ | WakeCAS ws _ _ | UpdateUnlock ws => ws | _ => [] end.
Definition outer (c : pc) : list nat :=
  match c with WakeNext ws | WakePost _ ws => ws | _ => [] end.
Definition wakelist (x : proc) : list nat := inner (at_pc x) ++ outer (at_pc x).

(** Owning the lock: from the compare-and-swap to the subtraction. *)
Definition got (c : call) (o : outcome) (h : option LWLockMode) : option LWLockMode :=
  if bool_decide (o = Got) then Some (req_mode c) else h.

Definition owns (x : proc) : option LWLockMode :=
  match at_pc x with
  | ListLock (ForDequeue c _ o) | ListSpin (ForDequeue c _ o) | DequeueRemove c _ o | DequeueTest c _ o _
  | DequeueClear c _ o _ | DequeueUnlock c _ o _ | DequeueOk c _ o | DequeueSem c _ o _ | DequeueCheck c _ o _
  | DequeueRepost c _ o _ | Repost c _ o => got c o (held x)
  | ReleaseSub m => Some m
  | _ => held x
  end.

Definition shares (x : proc) : bool := bool_decide (owns x = Some LW_SHARED).
Definition excludes (x : proc) : bool := bool_decide (owns x = Some LW_EXCLUSIVE).

(** About to collect the waiters; about to try the lock. *)
Definition waking (c : pc) : bool :=
  match c with ListLock ForWakeup | ListSpin ForWakeup | WakeCollect => true | _ => false end.
Definition trying (c : pc) : bool :=
  match c with AttemptRead _ _ _ | AttemptCAS _ _ _ _ => true | _ => false end.

(** Found that it has to wait after it had entered the wait list. *)
Definition settled (c : pc) : bool :=
  match c with
  | SemLock _ _ | CheckWaiting _ _ | ListLock (ForValue _ true _) | ListSpin (ForValue _ true _)
  | VarValue _ true _ | VarUnlock _ true _ _ => true
  | _ => false
  end.

(** The requests that may be where a process is. *)
Definition queue_ok (c : call) : Prop :=
  match c with Conditional _ => False | WaitForVar _ => True | _ => req_mode c <> LW_WAIT_UNTIL_FREE end.
Definition try_ok (c : call) (again : bool) : Prop :=
  req_mode c <> LW_WAIT_UNTIL_FREE /\ (again = true -> queue_ok c).
Definition end_ok (c : call) (o : outcome) : Prop :=
  (o = Got -> req_mode c <> LW_WAIT_UNTIL_FREE) /\ (wait_mode c <> LW_WAIT_UNTIL_FREE -> o = Got).

Definition local_k (k : after_lock) (h : option LWLockMode) : Prop :=
  match k with
  | ForQueue c _ => h = None /\ queue_ok c
  | ForValue _ _ _ | ForWakeup => h = None
  | ForDequeue c _ o => h = None /\ queue_ok c /\ end_ok c o
  | ForUpdate _ => h = Some LW_EXCLUSIVE
  | ForClear _ => h <> None
  end.

Definition local (x : proc) : Prop :=
  held x <> Some LW_WAIT_UNTIL_FREE /\
  match at_pc x with
  | Idle | WakeNext _ | WakePost _ _ => True
  | AttemptRead c a _ | AttemptCAS c a _ _ => held x = None /\ try_ok c a
  | ListLock k | ListSpin k => local_k k (held x)
  | QueueStart c _ | QueueFlag c _ | QueuePush c _ | QueueUnlock c _ | SemLock c _ | CheckWaiting c _ =>
      held x = None /\ queue_ok c
  | VarReleaseOk _ _ | VarState _ _ _ | VarValue _ _ _ | VarUnlock _ _ _ _ => held x = None
  | RetryOk c _ => held x = None /\ queue_ok c /\ wait_mode c <> LW_WAIT_UNTIL_FREE
  | DequeueRemove c _ o | DequeueTest c _ o _ | DequeueClear c _ o _ | DequeueUnlock c _ o _ | DequeueOk c _ o
  | DequeueSem c _ o _ | DequeueCheck c _ o _ | DequeueRepost c _ o _ => held x = None /\ queue_ok c /\ end_ok c o
  | Repost c _ o => held x = None /\ end_ok c o
  | ReleaseSub m => held x = None /\ m <> LW_WAIT_UNTIL_FREE
  | WakeCollect | WakeRead _ _ | WakeCAS _ _ _ => held x = None
  | UpdateSet _ | UpdateUnlock _ => held x = Some LW_EXCLUSIVE
  | ClearSet _ | ClearUnlock => held x <> None
  end.

(** ** The invariant *)

Definition is_locked (st : system) : bool := is_set (state (lock st)) LW_FLAG_LOCKED.
Definition release_ok (st : system) : bool := is_set (state (lock st)) LW_FLAG_RELEASE_OK.
Definition has_waiters (st : system) : bool := is_set (state (lock st)) LW_FLAG_HAS_WAITERS.

Definition value (ps : list proc) : Z := countb shares ps + 2 ^ 24 * countb excludes ps.

Definition owed (st : system) (p : nat) (x : proc) : Prop :=
  p ∉ waiters (lock st) /\ exists c, owes_in (at_pc x) = Some c /\ wait_mode c <> LW_WAIT_UNTIL_FREE.

(** Something is going on that will let a waiter have the lock. *)
Definition pending (st : system) : Prop :=
  exists p x, procs st !! p = Some x /\
    (owns x <> None \/ waking (at_pc x) = true \/ trying (at_pc x) = true \/ owed st p x).

(** [x] waits in the list or is to be woken up, as its PGPROC says. *)
Definition waits_in (x : proc) : Prop :=
  exists c, queued_in (at_pc x) = Some c /\ lwWaiting x = true /\ lwWaitMode x = wait_mode c.

(** The processes in the wait list and those that somebody is to wake up. *)
Definition wakeups (ps : list proc) : list nat := concat (wakelist <$> ps).
Definition listed (st : system) : list nat := waiters (lock st) ++ wakeups (procs st).

Record word_inv (st : system) : Prop := {
  w_local : forall p x, procs st !! p = Some x -> local x;
  w_size : Z.of_nat (length (procs st)) <= Varsup.Varsup.MAX_BACKENDS;
  w_state : state (lock st) = word (is_locked st) (release_ok st) (has_waiters st) (value (procs st));
  w_inside : countb (fun x => inside (at_pc x)) (procs st) = Z.b2z (is_locked st);
  w_excl : countb excludes (procs st) = 0 \/ countb excludes (procs st) = 1 /\ countb shares (procs st) = 0 }.

Record list_inv (st : system) : Prop := {
  q_nodup : NoDup (listed st);
  q_known : forall p, p ∈ listed st -> is_Some (procs st !! p);
  q_wait : forall p x, procs st !! p = Some x -> p ∈ waiters (lock st) -> waits_in x;
  q_inner : forall p x q y, procs st !! p = Some x -> procs st !! q = Some y -> p ∈ inner (at_pc y) -> waits_in x;
  q_outer : forall p x q y, procs st !! p = Some x -> procs st !! q = Some y -> p ∈ outer (at_pc y) ->
    lwWaiting x = true /\ (queued_in (at_pc x) <> None \/ popped_in (at_pc x) <> None);
  q_waiting : forall p x, procs st !! p = Some x -> lwWaiting x = true ->
    p ∈ listed st \/ found_in (at_pc x) = true }.

Record flag_inv (st : system) : Prop := {
  f_hw : waiters (lock st) <> [] -> has_waiters st = true;
  f_push : forall p x c n, procs st !! p = Some x -> at_pc x = QueuePush c n -> has_waiters st = true;
  f_clear : forall p x c n o f, procs st !! p = Some x -> at_pc x = DequeueClear c n o f -> waiters (lock st) = [];
  f_empty : forall p x ok old, procs st !! p = Some x ->
    at_pc x = WakeRead [] ok \/ at_pc x = WakeCAS [] ok old -> waiters (lock st) = [];
  f_retry : forall p x ws old, procs st !! p = Some x ->
    at_pc x = WakeRead ws false \/ at_pc x = WakeCAS ws false old ->
    exists w y, w ∈ ws /\ procs st !! w = Some y /\ lwWaitMode y <> LW_WAIT_UNTIL_FREE }.

(** A wakeup is on its way to whoever has been removed from the list. *)
Definition awaits (c : pc) : bool :=
  match c with
  | CheckWaiting _ _ | DequeueCheck _ _ _ _ => false
  | c => match queued_in c, popped_in c with None, None => false | _, _ => true end
  end.

Definition sleep_inv (st : system) : Prop :=
  forall p x, procs st !! p = Some x -> awaits (at_pc x) = true -> lwWaiting x = false ->
    (0 < sem x)%nat \/ exists q y ws, procs st !! q = Some y /\ at_pc y = WakePost p ws.

Definition retry_inv (st : system) : Prop :=
  release_ok st = false -> exists p x, procs st !! p = Some x /\ owed st p x.

Definition pending_inv (st : system) : Prop :=
  forall p x, procs st !! p = Some x -> p ∈ waiters (lock st) -> settled (at_pc x) = true -> pending st.

Record inv (st : system) : Prop := {
  inv_word : word_inv st;
  inv_list : list_inv st;
  inv_flag : flag_inv st;
  inv_sleep : sleep_inv st;
  inv_retry : retry_inv st;
  inv_pending : pending_inv st }.

(** ** The flags *)

(** The flags of a new state word from those of the old one. *)
Ltac flags :=
  unfold has_waiters, release_ok, is_locked in *; cbn [lock state set_state set_waiters set_var] in *;
  unfold LW_FLAG_HAS_WAITERS, LW_FLAG_RELEASE_OK, LW_FLAG_LOCKED in *;
  repeat first [rewrite is_set_lor in * by lia | rewrite is_set_land_not in * by lia];
  cbn [Z.eqb Pos.eqb negb] in *; rewrite ?orb_false_r, ?orb_true_r, ?andb_true_r, ?andb_false_r in *.

(** ** One process changes *)

Lemma lookup_upd (ps : list proc) p x x' q y :
  ps !! p = Some x -> <[p := x']> ps !! q = Some y -> q = p /\ y = x' \/ q <> p /\ ps !! q = Some y.
Proof.
  intros Hp Hq. destruct (decide (q = p)) as [->|Hne].
  - left. rewrite list_lookup_insert_eq in Hq by (by apply lookup_lt_Some in Hp). by injection Hq.
  - right. by rewrite list_lookup_insert_ne in Hq.
Qed.

Lemma lookup_upd_eq (ps : list proc) p x x' : ps !! p = Some x -> <[p := x']> ps !! p = Some x'.
Proof. intros Hp. apply list_lookup_insert_eq. by apply lookup_lt_Some in Hp. Qed.

(** The part of a process in the value. *)
Definition share (x : proc) : Z := Z.b2z (shares x) + 2 ^ 24 * Z.b2z (excludes x).

Lemma value_upd ps p x x' :
  ps !! p = Some x -> value (<[p := x']> ps) = value ps - share x + share x'.
Proof. intros Hp. unfold value, share. rewrite !(countb_insert _ _ _ _ _ Hp). lia. Qed.

Lemma MAX_BACKENDS_lt : Varsup.Varsup.MAX_BACKENDS < 2 ^ 24.
Proof. done. Qed.

Lemma word_inv_value st : word_inv st -> 0 <= value (procs st) < 2 ^ 25.
Proof.
  intros [_ Hn _ _ He]. unfold value. pose proof MAX_BACKENDS_lt.
  pose proof (countb_nonneg shares (procs st)). pose proof (countb_le shares (procs st)). lia.
Qed.

Lemma word_inv_exclusive st :
  word_inv st -> (2 ^ 24 <=? value (procs st)) = true <-> countb excludes (procs st) = 1.
Proof.
  intros [_ Hn _ _ He]. unfold value. pose proof MAX_BACKENDS_lt. rewrite Z.leb_le.
  pose proof (countb_nonneg shares (procs st)). pose proof (countb_le shares (procs st)). lia.
Qed.

(** The new word is right when it is a word for the right value. *)
Lemma word_self z lk ro hw v :
  0 <= v < 2 ^ 25 -> z = word lk ro hw v ->
  z = word (is_set z LW_FLAG_LOCKED) (is_set z LW_FLAG_RELEASE_OK) (is_set z LW_FLAG_HAS_WAITERS) v /\
  is_set z LW_FLAG_LOCKED = lk.
Proof.
  intros Hv ->. rewrite word_locked, word_has_waiters by done. split; [|done]. f_equal.
  unfold is_set, word. rewrite (land_high 25 ltac:(lia) v _ 16 Hv). by destruct lk, ro, hw.
Qed.

Lemma word_upd st p x x' l' lk ro hw :
  word_inv st -> procs st !! p = Some x -> local x' ->
  state l' = word lk ro hw (value (procs st) - share x + share x') ->
  Z.b2z lk = Z.b2z (is_locked st) - Z.b2z (inside (at_pc x)) + Z.b2z (inside (at_pc x')) ->
  owns x' = owns x \/ owns x' = None \/
    owns x = None /\ (owns x' = Some LW_SHARED /\ countb excludes (procs st) = 0 \/
                      owns x' = Some LW_EXCLUSIVE /\ value (procs st) = 0) ->
  word_inv (MkSystem l' (<[p := x']> (procs st))).
Proof.
  intros W Hp Hloc Hst Hin Hown.
  assert (Hex : countb excludes (<[p := x']> (procs st)) = 0 \/
    countb excludes (<[p := x']> (procs st)) = 1 /\ countb shares (<[p := x']> (procs st)) = 0).
  { rewrite !(countb_insert _ _ _ _ _ Hp). pose proof (w_excl _ W) as He.
    pose proof (countb_nonneg excludes (procs st)). pose proof (countb_nonneg shares (procs st)).
    assert (Hx : Z.b2z (excludes x) <= countb excludes (procs st) /\ Z.b2z (shares x) <= countb shares (procs st)).
    { split; [destruct (excludes x) eqn:E|destruct (shares x) eqn:E]; cbn [Z.b2z]; try lia.
      - assert (H1 : 0 < countb excludes (procs st)) by (apply countb_lookup; by exists p, x). lia.
      - assert (H1 : 0 < countb shares (procs st)) by (apply countb_lookup; by exists p, x). lia. }
    assert (Hcase : excludes x' = excludes x /\ shares x' = shares x \/ excludes x' = false /\ shares x' = false \/
      excludes x = false /\ shares x = false /\
        (excludes x' = false /\ countb excludes (procs st) = 0 \/ shares x' = false /\ value (procs st) = 0)).
    { unfold excludes, shares. destruct Hown as [-> | [-> | (-> & [[-> Hz]|[-> Hz]])]]; [by left|by right; left|..];
        right; right; (split; [done|]; split; [done|]); [left|right]; (split; [done|exact Hz]). }
    assert (Hb : forall b : bool, 0 <= Z.b2z b) by (intros []; simpl; lia).
    pose proof (Hb (excludes x)). pose proof (Hb (shares x)). unfold value in Hcase.
    destruct Hcase as [[-> ->]|[[-> ->]|(E1 & E2 & [[-> Hz]|[-> Hz]])]]; rewrite ?E1, ?E2; cbn [Z.b2z];
      [lia|lia|lia|destruct (excludes x'); cbn [Z.b2z]; lia]. }
  assert (Hsize : Z.of_nat (length (<[p := x']> (procs st))) <= Varsup.Varsup.MAX_BACKENDS) by (rewrite length_insert; apply W).
  assert (Hv : 0 <= value (<[p := x']> (procs st)) < 2 ^ 25).
  { unfold value. pose proof MAX_BACKENDS_lt. pose proof (countb_nonneg shares (<[p := x']> (procs st))).
    pose proof (countb_le shares (<[p := x']> (procs st))). lia. }
  rewrite <- (value_upd _ _ _ _ Hp) in Hst. destruct (word_self _ _ _ _ _ Hv Hst) as [Hself Hlk].
  split; cbn [lock procs]; try done.
  - intros q y Hq. destruct (lookup_upd _ _ _ _ _ _ Hp Hq) as [[-> ->]|[_ Hq']]; [done|]. by apply (w_local _ W q).
  - rewrite (countb_insert _ _ _ _ _ Hp), (w_inside _ W). unfold is_locked at 2. cbn [lock]. rewrite Hlk. lia.
Qed.

(** A field that neither the control point nor the lock depends on changes. *)
Definition same_place (f : proc -> proc) : Prop := forall y, at_pc (f y) = at_pc y /\ held (f y) = held y.

Lemma lookup_alter_inv (f : proc -> proc) (ps : list proc) w q y :
  alter f w ps !! q = Some y -> exists y0, ps !! q = Some y0 /\ y = (if bool_decide (q = w) then f y0 else y0).
Proof.
  destruct (decide (q = w)) as [->|Hne].
  - rewrite list_lookup_alter_eq, bool_decide_eq_true_2 by done. intros (y0 & H & ->)%fmap_Some. by exists y0.
  - rewrite list_lookup_alter_ne, bool_decide_eq_false_2 by done. intros H. by exists y.
Qed.

Lemma countb_alter (g : proc -> bool) (f : proc -> proc) w ps :
  (forall y, g (f y) = g y) -> countb g (alter f w ps) = countb g ps.
Proof.
  intros Hg. revert w. induction ps as [|y ps IH]; intros [|w]; try done.
  - cbn. by rewrite Hg.
  - simpl. f_equal. apply IH.
Qed.

Lemma word_alter f w st : same_place f -> word_inv st -> word_inv (MkSystem (lock st) (alter f w (procs st))).
Proof.
  intros Hf [W1 W2 W3 W4 W5].
  assert (Ho : forall y, owns (f y) = owns y) by (intros y; unfold owns; by destruct (Hf y) as [-> ->]).
  assert (He : forall y, excludes (f y) = excludes y) by (intros y; unfold excludes; by rewrite Ho).
  assert (Hs : forall y, shares (f y) = shares y) by (intros y; unfold shares; by rewrite Ho).
  split; cbn [lock procs].
  - intros q y (y0 & Hy0 & ->)%lookup_alter_inv. specialize (W1 q y0 Hy0). case_bool_decide; [|done].
    unfold local in *. by destruct (Hf y0) as [-> ->].
  - by rewrite length_alter.
  - unfold value. rewrite !countb_alter by done. exact W3.
  - rewrite countb_alter; [exact W4|]. intros y. by destruct (Hf y) as [-> _].
  - by rewrite !countb_alter.
Qed.

End LwlockInv.
