(* ===== verification/LwlockWord.v ===== *)
(** * The state word of a lightweight lock

    A step of a process keeps the state word equal to what the control points
    of the processes say: how many own the lock, in which mode, and whether one
    of them has the wait list locked. *)

From S2P Require Import Prelude.
From S2P Require Import Words.
From S2P Require Varsup.
From S2P Require Import Lwlock.
From S2P Require Import LwlockInv.
From stdpp Require Import list.

Import Words Lwlock LwlockInv.

Open Scope Z_scope.

Module LwlockWord.

(** ** The word and the local conditions are kept *)

Lemma word_upd_same st p x x' l' lk ro hw :
  word_inv st -> procs st !! p = Some x -> local x' -> owns x' = owns x ->
  state l' = word lk ro hw (value (procs st)) ->
  Z.b2z lk = Z.b2z (is_locked st) - Z.b2z (inside (at_pc x)) + Z.b2z (inside (at_pc x')) ->
  word_inv (MkSystem l' (<[p := x']> (procs st))).
Proof.
  intros W Hp Hloc Hown Hst Hin. eapply word_upd; [done|done|done| |exact Hin|by left].
  rewrite Hst. f_equal. unfold share, shares, excludes. rewrite Hown. lia.
Qed.

Lemma inside_locked st p x :
  word_inv st -> procs st !! p = Some x -> inside (at_pc x) = true -> is_locked st = true.
Proof.
  intros W Hp Hin. pose proof (w_inside _ W) as Hc.
  assert (0 < countb (fun x => inside (at_pc x)) (procs st)) by (apply countb_lookup; by exists p, x).
  by destruct (is_locked st); [|cbn in Hc; lia].
Qed.

(** At most one process has the wait list locked. *)
Lemma inside_unique st p x q y :
  word_inv st -> procs st !! p = Some x -> procs st !! q = Some y ->
  inside (at_pc x) = true -> inside (at_pc y) = true -> q = p /\ y = x.
Proof.
  intros W Hp Hq Hx Hy. destruct (decide (q = p)) as [->|Hne]; [split; [done|congruence]|].
  pose proof (countb_two (fun x => inside (at_pc x)) _ _ _ _ _ Hne Hq Hp Hy Hx) as H2.
  rewrite (w_inside _ W) in H2. by destruct (is_locked st).
Qed.

Lemma lock_free_word st m :
  word_inv st -> m <> LW_WAIT_UNTIL_FREE -> lock_free m (state (lock st)) = true ->
  m = LW_SHARED /\ countb excludes (procs st) = 0 \/ m = LW_EXCLUSIVE /\ value (procs st) = 0.
Proof.
  intros W Hm Hf. pose proof (word_inv_value st W) as Hv. pose proof (word_inv_exclusive st W) as He.
  rewrite (w_state _ W) in Hf. destruct m; [right|left|done]; (split; [done|]); unfold lock_free in Hf.
  - rewrite word_value in Hf by done. lia.
  - pose proof (word_exclusive (is_locked st) (release_ok st) (has_waiters st) _ Hv) as Hx.
    unfold is_set in Hx. rewrite Hf in Hx. cbn in Hx. rewrite <- Hx in He.
    destruct (w_excl _ W) as [?|[H1 _]]; [done|]. by apply He in H1.
Qed.

Lemma free_value_room st m :
  word_inv st -> m = LW_SHARED /\ countb excludes (procs st) = 0 \/ m = LW_EXCLUSIVE /\ value (procs st) = 0 ->
  0 <= value (procs st) + lock_value m < 2 ^ 25.
Proof.
  intros W Hm. pose proof (w_size _ W). pose proof MAX_BACKENDS_lt.
  pose proof (countb_nonneg shares (procs st)). pose proof (countb_le shares (procs st)).
  unfold value in *. destruct Hm as [[-> Hz]|[-> Hz]]; unfold lock_value, LW_VAL_SHARED, LW_VAL_EXCLUSIVE; [lia|].
  rewrite Z.shiftl_1_l. lia.
Qed.

Lemma share_owner x m : owns x = Some m -> m <> LW_WAIT_UNTIL_FREE -> share x = lock_value m.
Proof.
  intros Ho Hm. unfold share, shares, excludes. rewrite Ho. destruct m; [| |done];
    rewrite ?(bool_decide_eq_true_2 (Some _ = Some _)), ?(bool_decide_eq_false_2 (Some _ = Some _)) by done; done.
Qed.

Lemma share_none x : owns x = None -> share x = 0.
Proof. intros Ho. unfold share, shares, excludes. by rewrite Ho, !bool_decide_eq_false_2. Qed.

Lemma share_le st p x : procs st !! p = Some x -> share x <= value (procs st).
Proof.
  intros Hp. pose proof (value_upd (procs st) p x (set_held None (set_pc Idle x)) Hp) as Hu.
  rewrite (share_none (set_held None (set_pc Idle x))) in Hu by done.
  assert (0 <= value (<[p := set_held None (set_pc Idle x)]> (procs st))); [|lia].
  unfold value. pose proof (countb_nonneg shares (<[p := set_held None (set_pc Idle x)]> (procs st))).
  pose proof (countb_nonneg excludes (<[p := set_held None (set_pc Idle x)]> (procs st))). lia.
Qed.

(** The tests of the asserts. *)
Lemma owner_value st p x m :
  word_inv st -> procs st !! p = Some x -> owns x = Some m -> m <> LW_WAIT_UNTIL_FREE ->
  0 <= value (procs st) - lock_value m < 2 ^ 24.
Proof.
  intros W Hp Ho Hm. pose proof (share_le st p x Hp) as Hs. rewrite (share_owner _ _ Ho Hm) in Hs.
  split; [lia|]. pose proof (w_size _ W). pose proof MAX_BACKENDS_lt.
  pose proof (countb_le shares (procs st)). unfold value in *. destruct (w_excl _ W) as [E|[E1 E2]]; [destruct m; [|unfold lock_value, LW_VAL_SHARED; lia|done]|].
  - unfold lock_value, LW_VAL_EXCLUSIVE. rewrite Z.shiftl_1_l. lia.
  - destruct m; [unfold lock_value, LW_VAL_EXCLUSIVE; rewrite Z.shiftl_1_l; lia| |done].
    exfalso. assert (0 < countb shares (procs st)); [|lia]. apply countb_lookup. exists p, x. split; [done|].
    unfold shares. rewrite Ho. by apply bool_decide_eq_true_2.
Qed.

Lemma same_place_waiting b : same_place (set_waiting b).
Proof. by intros y. Qed.

Lemma same_place_post : same_place (fun y => set_sem (S (sem y)) y).
Proof. by intros y. Qed.

(** The kinds of change a step makes to the state word. *)
Section WordStep.
Context (st : system) (p : nat) (x : proc) (W : word_inv st) (Hp : procs st !! p = Some x).

Notation z := (state (lock st)).
Notation v := (value (procs st)).

(** [local x'] and [owns x' = owns x] for the control points that come next. *)
Ltac next :=
  repeat match goal with
  | Hpc : at_pc ?y = _ |- _ => progress (unfold local, owns in *; rewrite ?Hpc in *; cbn in *)
  end.

Lemma word_goto l' c :
  local (set_pc c x) -> owns (set_pc c x) = owns x -> state l' = z ->
  inside c = inside (at_pc x) -> word_inv (MkSystem l' (<[p := set_pc c x]> (procs st))).
Proof.
  intros Hl Ho Hz Hi. eapply word_upd_same; [exact W|exact Hp|exact Hl|exact Ho| |].
  - rewrite Hz. apply (w_state _ W).
  - cbn [at_pc set_pc]. rewrite Hi. lia.
Qed.

Lemma word_own l' x' :
  local x' -> owns x' = owns x -> state l' = z -> inside (at_pc x') = inside (at_pc x) ->
  word_inv (MkSystem l' (<[p := x']> (procs st))).
Proof.
  intros Hl Ho Hz Hi. eapply word_upd_same; [exact W|exact Hp|exact Hl|exact Ho| |].
  - rewrite Hz. apply (w_state _ W).
  - rewrite Hi. lia.
Qed.

(** Flags other than that of the wait list. *)
Lemma word_flags l' x' ro hw :
  local x' -> owns x' = owns x -> state l' = word (is_locked st) ro hw v ->
  inside (at_pc x') = inside (at_pc x) -> word_inv (MkSystem l' (<[p := x']> (procs st))).
Proof.
  intros Hl Ho Hz Hi. eapply word_upd_same; [exact W|exact Hp|exact Hl|exact Ho|exact Hz|].
  rewrite Hi. lia.
Qed.

Lemma word_unlock l' x' ro hw :
  local x' -> owns x' = owns x -> state l' = word false ro hw v ->
  inside (at_pc x) = true -> inside (at_pc x') = false ->
  word_inv (MkSystem l' (<[p := x']> (procs st))).
Proof.
  intros Hl Ho Hz Hi Hi'. eapply word_upd_same; [exact W|exact Hp|exact Hl|exact Ho|exact Hz|].
  rewrite Hi, Hi', (inside_locked st p x W Hp Hi). done.
Qed.

Lemma word_take l' x' m :
  local x' -> owns x = None -> owns x' = Some m -> m <> LW_WAIT_UNTIL_FREE ->
  lock_free m z = true -> state l' = u32 (z + lock_value m) -> inside (at_pc x') = inside (at_pc x) ->
  word_inv (MkSystem l' (<[p := x']> (procs st))).
Proof.
  intros Hl Ho Ho' Hm Hf Hz Hi. pose proof (lock_free_word st m W Hm Hf) as Hfree.
  pose proof (free_value_room st m W Hfree) as Hroom.
  eapply word_upd; [exact W|exact Hp|exact Hl| |rewrite Hi; instantiate (1 := is_locked st); lia|].
  - rewrite Hz, (w_state _ W) at 1. rewrite word_u32 by done.
    by rewrite (share_none _ Ho), (share_owner _ _ Ho' Hm), Z.sub_0_r.
  - right. right. split; [done|]. rewrite Ho'. destruct Hfree as [[-> ?]|[-> ?]]; [by left|by right].
Qed.

Lemma word_release l' x' m :
  local x' -> owns x = Some m -> owns x' = None -> m <> LW_WAIT_UNTIL_FREE ->
  state l' = u32 (z - lock_value m) -> inside (at_pc x') = inside (at_pc x) ->
  word_inv (MkSystem l' (<[p := x']> (procs st))).
Proof.
  intros Hl Ho Ho' Hm Hz Hi. pose proof (owner_value st p x m W Hp Ho Hm) as Hroom.
  eapply word_upd; [exact W|exact Hp|exact Hl| |rewrite Hi; instantiate (1 := is_locked st); lia|by right; left].
  rewrite Hz, (w_state _ W) at 1. rewrite <- Z.add_opp_r, word_u32 by lia.
  by rewrite (share_none _ Ho'), (share_owner _ _ Ho Hm), Z.add_0_r.
Qed.

Lemma word_lock_list k :
  at_pc x = ListLock k ->
  word_inv (MkSystem (set_state (Z.lor z LW_FLAG_LOCKED) (lock st))
    (<[p := set_pc (if is_set z LW_FLAG_LOCKED then ListSpin k else locked k) x]> (procs st))).
Proof.
  intros Epc. pose proof (w_local _ W p x Hp) as Hloc. unfold local in Hloc. rewrite Epc in Hloc.
  pose proof (word_inv_value st W) as Hv. destruct (is_set z LW_FLAG_LOCKED) eqn:Elk.
  - eapply word_flags; cbn [at_pc set_pc].
    + exact Hloc.
    + unfold owns. cbn [at_pc set_pc held]. by rewrite Epc.
    + cbn [state set_state]. rewrite (w_state _ W) at 1. rewrite word_lor_locked by done. unfold is_locked. by rewrite Elk.
    + by rewrite Epc.
  - eapply word_upd_same; [exact W|exact Hp|..].
    + unfold local. cbn [at_pc set_pc held]. destruct k; cbn in *; intuition.
    + unfold owns. cbn [at_pc set_pc held]. rewrite Epc. by destruct k.
    + cbn [state set_state]. rewrite (w_state _ W) at 1. by rewrite word_lor_locked.
    + cbn [at_pc set_pc]. unfold is_locked. rewrite Epc, Elk. by destruct k.
Qed.
End WordStep.

Lemma local_attempted x c a n b :
  held x = None -> try_ok c a -> local (set_pc (attempted c a n b) x).
Proof.
  intros Hh [Hm Ha]. unfold local, attempted. cbn [at_pc set_pc held]. rewrite Hh. split; [done|].
  destruct a; [specialize (Ha eq_refl)|clear Ha]; destruct b, c; cbn in *; unfold end_ok; naive_solver.
Qed.

Lemma owns_attempted x c a n b :
  held x = None -> owns (set_pc (attempted c a n b) x) = if b then None else Some (req_mode c).
Proof. intros Hh. unfold owns, attempted. cbn [at_pc set_pc held]. rewrite Hh. by destruct b, c, a. Qed.

Lemma inside_attempted c a n b : inside (attempted c a n b) = false.
Proof. by destruct b, c, a. Qed.

Lemma local_var_checked x v a n o :
  held x = None -> o <> Some Got -> local (set_pc (var_checked v a n o) x).
Proof.
  intros Hh Ho. unfold local, var_checked. cbn [at_pc set_pc held]. rewrite Hh. split; [done|].
  destruct o as [o|], a; cbn; (split; [done|]); unfold end_ok; cbn; naive_solver.
Qed.

Lemma owns_var_checked x v a n o :
  held x = None -> o <> Some Got -> owns (set_pc (var_checked v a n o) x) = None.
Proof.
  intros Hh Ho. unfold owns, var_checked. cbn [at_pc set_pc held]. rewrite Hh.
  destruct o as [o|], a; cbn; try done; unfold got; by rewrite bool_decide_eq_false_2 by congruence.
Qed.

Lemma inside_var_checked v a n o : inside (var_checked v a n o) = false.
Proof. by destruct o, a. Qed.

Lemma local_awakened x c n : held x = None -> queue_ok c -> local (set_pc (awakened c n) x).
Proof.
  intros Hh Hq. unfold local. cbn [at_pc set_pc held]. rewrite Hh. split; [done|]. destruct c; cbn in *; unfold end_ok; naive_solver.
Qed.

Lemma owns_awakened x c n : owns (set_pc (awakened c n) x) = held x.
Proof. by destruct c. Qed.

Lemma inside_awakened c n : inside (awakened c n) = false.
Proof. by destruct c. Qed.

Ltac at_point Epc Hloc :=
  unfold local, owns in *; cbn [at_pc set_pc set_held set_sem set_returned set_waiting set_mode held] in *;
  rewrite ?Epc in *; cbn in *; destruct_and? Hloc; try (split_and?; done); try congruence.

(** [LWLockAttemptLock] with the value it expected. *)
Lemma word_attempt st p x c a n :
  word_inv st -> procs st !! p = Some x -> at_pc x = AttemptCAS c a n (state (lock st)) ->
  let z := state (lock st) in
  word_inv (MkSystem (set_state (desired_state (req_mode c) z) (lock st))
    (<[p := set_pc (attempted c a n (negb (lock_free (req_mode c) z))) x]> (procs st))).
Proof.
  intros W Hp Epc z. pose proof (w_local _ W p x Hp) as Hloc. unfold local in Hloc. rewrite Epc in Hloc.
  destruct Hloc as (_ & Hh & Htry). unfold desired_state.
  assert (Hin : inside (attempted c a n (negb (lock_free (req_mode c) z))) = inside (at_pc x))
    by (by rewrite inside_attempted, Epc).
  assert (Hno : owns x = None) by (unfold owns; by rewrite Epc).
  destruct (lock_free (req_mode c) z) eqn:Ef; cbn [negb] in *.
  - eapply (word_take st p x W Hp _ _ (req_mode c)); [by apply local_attempted|done|by rewrite owns_attempted|apply Htry|done|done|exact Hin].
  - eapply word_goto; [done|done|by apply local_attempted|by rewrite owns_attempted|done|exact Hin].
Qed.

(** A step that leaves the state word alone. *)
Ltac keeps_word W Hp Epc Hloc :=
  eapply word_own; [exact W|exact Hp|..]; at_point Epc Hloc.

(** One that changes a flag. *)
Ltac sets_flag W Hp Epc Hloc lem :=
  eapply word_flags; [exact W|exact Hp|at_point Epc Hloc|at_point Epc Hloc
    |cbn [state set_state]; rewrite (w_state _ W) at 1; by rewrite lem|at_point Epc Hloc].

Lemma word_step st p x st' :
  word_inv st -> procs st !! p = Some x -> step_proc p st x = Done st' -> word_inv st'.
Proof.
  intros W Hp. pose proof (w_local _ W p x Hp) as Hloc. pose proof (word_inv_value st W) as Hv.
  assert (Hun : forall l' x', local x' -> owns x' = owns x -> inside (at_pc x) = true -> inside (at_pc x') = false ->
    state l' = Z.land (state (lock st)) (not32 LW_FLAG_LOCKED) ->
    word_inv (MkSystem l' (<[p := x']> (procs st)))).
  { intros l' x' H1 H2 H3 H4 H5. eapply word_unlock; [exact W|exact Hp|done|done| |done|done].
    rewrite H5, (w_state _ W) at 1. by rewrite word_land_locked. }
  unfold_step. destruct (at_pc x) eqn:Epc; try done; cbn zeta.
  - (* AttemptRead *) intros [= <-]. keeps_word W Hp Epc Hloc.
  - (* AttemptCAS *) destruct (Z.eqb_spec (state (lock st)) old_state) as [<-|]; intros [= <-].
    + by apply word_attempt.
    + keeps_word W Hp Epc Hloc.
  - (* ListLock *) intros [= <-]. by apply word_lock_list.
  - (* ListSpin *) intros [= <-]. destruct (is_set _ _); keeps_word W Hp Epc Hloc.
  - (* QueueStart *) destruct (lwWaiting x); [done|]. intros [= <-]. keeps_word W Hp Epc Hloc.
  - (* QueueFlag *) intros [= <-]. sets_flag W Hp Epc Hloc word_lor_has_waiters.
  - (* QueuePush *) intros [= <-]. keeps_word W Hp Epc Hloc.
  - (* QueueUnlock *) destruct (is_set _ _); [|done]. intros [= <-]. destruct c; apply Hun; at_point Epc Hloc.
  - (* VarReleaseOk *) intros [= <-]. sets_flag W Hp Epc Hloc word_lor_release_ok.
  - (* VarState *) intros [= <-]. destruct (is_set _ _); [keeps_word W Hp Epc Hloc|].
    unfold local in Hloc. rewrite Epc in Hloc. destruct Hloc as [_ Hh].
    pose proof (local_var_checked x oldval again extraWaits (Some Free) Hh ltac:(done)) as H1.
    pose proof (owns_var_checked x oldval again extraWaits (Some Free) Hh ltac:(done)) as H2.
    eapply word_goto; [exact W|exact Hp|exact H1| |done|rewrite Epc; exact (inside_var_checked oldval again extraWaits (Some Free))].
    transitivity (@None LWLockMode); [exact H2|]. unfold owns. by rewrite Epc.
  - (* VarValue *) intros [= <-]. keeps_word W Hp Epc Hloc.
  - (* VarUnlock *) destruct (is_set _ _); [|done]. intros [= <-].
    unfold local in Hloc. rewrite Epc in Hloc. destruct Hloc as [_ Hh].
    assert (Hgot : (if value0 =? oldval then None else Some (Changed value0)) <> Some Got) by (by destruct (_ =? _)).
    apply Hun; [by apply local_var_checked| |done|by apply inside_var_checked|done].
    rewrite owns_var_checked by done. unfold owns. by rewrite Epc.
  - (* SemLock *) destruct (sem x); [done|]. intros [= <-]. keeps_word W Hp Epc Hloc.
  - (* CheckWaiting *) intros [= <-]. destruct (lwWaiting x); [keeps_word W Hp Epc Hloc|].
    unfold local in Hloc. rewrite Epc in Hloc. destruct Hloc as (_ & Hh & Hq).
    eapply word_goto; [exact W|exact Hp|by apply local_awakened| |done|by rewrite inside_awakened, Epc].
    rewrite owns_awakened. unfold owns. by rewrite Epc.
  - (* RetryOk *) intros [= <-]. assert (Ho : owns (set_pc (AttemptRead c false extraWaits) x) = owns x)
      by (unfold owns; by rewrite Epc).
    unfold local in Hloc. rewrite Epc in Hloc. destruct Hloc as (Hm & Hh & Hq & Hw).
    eapply word_flags; [exact W|exact Hp| |exact Ho|cbn [state set_state]; rewrite (w_state _ W) at 1; by rewrite word_lor_release_ok|by rewrite Epc].
    split; [done|]. cbn. split; [done|]. split; [by destruct c|done].
  - (* DequeueRemove *) intros [= <-]. keeps_word W Hp Epc Hloc.
  - (* DequeueTest *) intros [= <-]. destruct (_ && _); keeps_word W Hp Epc Hloc.
  - (* DequeueClear *) intros [= <-]. sets_flag W Hp Epc Hloc word_land_has_waiters.
  - (* DequeueUnlock *) destruct (is_set _ _); [|done]. intros [= <-]. destruct found; apply Hun; at_point Epc Hloc.
  - (* DequeueOk *) intros [= <-]. sets_flag W Hp Epc Hloc word_lor_release_ok.
  - (* DequeueSem *) destruct (sem x); [done|]. intros [= <-]. keeps_word W Hp Epc Hloc.
  - (* DequeueCheck *) intros [= <-]. destruct (lwWaiting x); keeps_word W Hp Epc Hloc.
  - (* DequeueRepost *) destruct absorbed; intros [= <-]; keeps_word W Hp Epc Hloc.
  - (* Repost *) destruct extraWaits; intros [= <-]; [|keeps_word W Hp Epc Hloc].
    unfold local in Hloc. rewrite Epc in Hloc. destruct Hloc as (Hm & Hh & He).
    eapply word_own; [exact W|exact Hp| | |done|by rewrite Epc].
    + split; [|done]. cbn. case_bool_decide; [|done]. intros [= E]. by apply He.
    + unfold owns. cbn. by rewrite Epc.
  - (* ReleaseSub *) destruct (is_set _ _); [done|]. intros [= <-].
    unfold local in Hloc. rewrite Epc in Hloc. destruct Hloc as (_ & Hh & Hm).
    eapply (word_release st p x W Hp _ _ m); [| |by destruct (_ && _)|done|done|rewrite Epc; by destruct (_ && _)].
    + unfold local. cbn. rewrite Hh. by destruct (_ && _).
    + unfold owns. by rewrite Epc.
  - (* WakeCollect *) destruct (collect _ _ _) as [[rest wakeup] ok]. destruct (_ || _); [|done]. intros [= <-].
    keeps_word W Hp Epc Hloc.
  - (* WakeRead *) intros [= <-]. keeps_word W Hp Epc Hloc.
  - (* WakeCAS *) destruct (Z.eqb_spec (state (lock st)) old_state) as [<-|]; intros [= <-]; [|keeps_word W Hp Epc Hloc].
    eapply (word_unlock st p x W Hp _ _ new_release_ok (if bool_decide (wakeup = []) then false else has_waiters st));
      [at_point Epc Hloc|at_point Epc Hloc| |by rewrite Epc|done].
    cbn [state set_state]. unfold wake_state.
    destruct new_release_ok, (bool_decide (wakeup = [])); rewrite (w_state _ W) at 1;
      by rewrite ?word_lor_release_ok, ?word_land_release_ok, ?word_land_has_waiters, word_land_locked by done.
  - (* WakeNext *) destruct wakeup as [|w ws]; intros [= <-]; [keeps_word W Hp Epc Hloc|].
    apply (word_alter _ w (MkSystem (lock st) _) (same_place_waiting false)). keeps_word W Hp Epc Hloc.
  - (* WakePost *) intros [= <-].
    apply (word_alter _ waiter (MkSystem (lock st) _) same_place_post). keeps_word W Hp Epc Hloc.
  - (* UpdateSet *) destruct (is_set _ _); [|done]. destruct (collect_var _ _) as [rest wakeup]. intros [= <-].
    keeps_word W Hp Epc Hloc.
  - (* UpdateUnlock *) destruct (is_set _ _); [|done]. intros [= <-]. apply Hun; at_point Epc Hloc.
  - (* ClearSet *) intros [= <-]. keeps_word W Hp Epc Hloc.
  - (* ClearUnlock *) destruct (held x) as [m|] eqn:Eh; [|done]. destruct (is_set _ _); [|done]. intros [= <-].
    unfold local in Hloc. rewrite Eh in Hloc.
    apply Hun; [split; [done|cbn; split; [done|]; intros ->; by apply Hloc]| |done|done|done].
    unfold owns. cbn. by rewrite Epc, Eh.
Qed.

(** ** Who owns the lock *)

Lemma owner_counted st p x m :
  word_inv st -> procs st !! p = Some x -> owns x = Some m -> m = LW_SHARED \/ m = LW_EXCLUSIVE ->
  m = LW_SHARED /\ 0 < countb shares (procs st) \/ m = LW_EXCLUSIVE /\ 0 < countb excludes (procs st).
Proof.
  intros W Hp Ho [-> | ->]; [left|right]; (split; [done|]); apply countb_lookup; exists p, x; (split; [done|]);
    unfold shares, excludes; rewrite Ho; by apply bool_decide_eq_true_2.
Qed.

(** The exclusive owner is alone. *)
Lemma owners_exclude st p x q y m :
  word_inv st -> procs st !! p = Some x -> procs st !! q = Some y -> owns x = Some LW_EXCLUSIVE ->
  owns y = Some m -> m = LW_SHARED \/ m = LW_EXCLUSIVE -> q = p.
Proof.
  intros W Hp Hq Hx Hy Hm. destruct (decide (q = p)) as [|Hne]; [done|exfalso].
  destruct (owner_counted st p x LW_EXCLUSIVE W Hp Hx) as [[? _]|[_ He]]; [by right|done|].
  destruct (w_excl _ W) as [E|[E1 E2]]; [lia|].
  destruct (owner_counted st q y m W Hq Hy Hm) as [[-> Hs]|[-> _]]; [lia|].
  assert (2 <= countb excludes (procs st)); [|lia].
  apply (countb_two _ _ q p y x Hne); [done..| |]; unfold excludes; rewrite ?Hx, ?Hy; by apply bool_decide_eq_true_2.
Qed.

End LwlockWord.
