(* ===== verification/LwlockLists.v ===== *)
(** * The lists of a lightweight lock

    A step of a process keeps the wait list and the lists of processes to wake
    up disjoint, and in agreement with [lwWaiting], [lwWaitMode] and the control
    point of those who are in them. *)

From S2P Require Import Prelude.
From S2P Require Import Words.
From S2P Require Import Lwlock.
From S2P Require Import LwlockInv.
From S2P Require Import LwlockWord.
From stdpp Require Import list.

Import Words Lwlock LwlockInv LwlockWord.

Open Scope Z_scope.

Module LwlockLists.

(** ** The lists are kept *)

Lemma wakeups_upd ps p x :
  ps !! p = Some x -> exists rest, wakeups ps ≡ₚ wakelist x ++ rest /\
    forall x', wakeups (<[p := x']> ps) ≡ₚ wakelist x' ++ rest.
Proof.
  unfold wakeups. revert p. induction ps as [|y ps IH]; intros [|p] Hp; try done; cbn in Hp.
  - injection Hp as ->. exists (concat (wakelist <$> ps)). by split.
  - destruct (IH p Hp) as (rest & H1 & H2). exists (wakelist y ++ rest). cbn [fmap list_fmap concat insert list_insert].
    split; [|intros x'].
    + rewrite H1. by rewrite Permutation_app_swap_app.
    + etransitivity; [apply Permutation_app_head, H2|]. by rewrite Permutation_app_swap_app.
Qed.

Lemma elem_of_wakeups ps w : w ∈ wakeups ps <-> exists q y, ps !! q = Some y /\ w ∈ wakelist y.
Proof.
  unfold wakeups. rewrite list_elem_of_In, in_concat. split.
  - intros (l & Hl & Hw). apply list_elem_of_In, list_elem_of_fmap in Hl as (y & -> & [q Hq]%list_elem_of_lookup).
    exists q, y. split; [done|by apply list_elem_of_In].
  - intros (q & y & Hq & Hw). exists (wakelist y). split; [|by apply list_elem_of_In].
    apply list_elem_of_In, list_elem_of_fmap_2. by eapply list_elem_of_lookup_2.
Qed.

Lemma listed_cases st w :
  w ∈ listed st <-> w ∈ waiters (lock st) \/
    exists q y, procs st !! q = Some y /\ (w ∈ inner (at_pc y) \/ w ∈ outer (at_pc y)).
Proof.
  unfold listed. rewrite elem_of_app, elem_of_wakeups. unfold wakelist. setoid_rewrite elem_of_app. done.
Qed.

(** Whoever is listed waits. *)
Lemma listed_waits st p x :
  list_inv st -> procs st !! p = Some x -> p ∈ listed st ->
  lwWaiting x = true /\ (queued_in (at_pc x) <> None \/ popped_in (at_pc x) <> None).
Proof.
  intros Q Hp [Hw|(q & y & Hq & [Hi|Ho])]%listed_cases.
  - destruct (q_wait _ Q p x Hp Hw) as (c & Hc & ? & _). split; [done|]. left. by rewrite Hc.
  - destruct (q_inner _ Q p x q y Hp Hq Hi) as (c & Hc & ? & _). split; [done|]. left. by rewrite Hc.
  - by apply (q_outer _ Q p x q y).
Qed.

Lemma not_listed st p x :
  list_inv st -> procs st !! p = Some x ->
  lwWaiting x = false \/ queued_in (at_pc x) = None /\ popped_in (at_pc x) = None -> p ∉ listed st.
Proof.
  intros Q Hp Hx Hin. destruct (listed_waits st p x Q Hp Hin) as [Hw Hpc].
  destruct Hx as [Hx|[H1 H2]]; [congruence|]. by rewrite H1, H2 in Hpc; destruct Hpc.
Qed.

(** A step that moves processes between the lists. *)
Definition as_before (x x' : proc) : Prop :=
  lwWaiting x' = lwWaiting x /\ lwWaitMode x' = lwWaitMode x /\ queued_in (at_pc x') = queued_in (at_pc x) /\
  popped_in (at_pc x') = popped_in (at_pc x) /\ found_in (at_pc x') = found_in (at_pc x).

Lemma list_upd st p x x' l' :
  list_inv st -> procs st !! p = Some x ->
  waiters l' ++ wakelist x' ≡ₚ waiters (lock st) ++ wakelist x ->
  (forall q, q ∈ waiters l' -> q ∈ waiters (lock st)) ->
  (forall q, q ∈ inner (at_pc x') -> q ∈ waiters (lock st) \/ q ∈ inner (at_pc x)) ->
  (forall q, q ∈ outer (at_pc x') -> q ∈ waiters (lock st) \/ q ∈ inner (at_pc x) \/ q ∈ outer (at_pc x)) ->
  as_before x x' \/ p ∉ listed st /\ lwWaiting x' = false ->
  list_inv (MkSystem l' (<[p := x']> (procs st))).
Proof.
  intros Q Hp Hperm Hwt Hin Hout Hx. set (st' := MkSystem l' _).
  destruct (wakeups_upd (procs st) p x Hp) as (rest & R1 & R2).
  assert (Hlist : listed st' ≡ₚ listed st).
  { unfold listed, st'. cbn [lock procs]. rewrite R1, R2, !app_assoc. by rewrite Hperm. }
  assert (Hsame : forall q y, <[p := x']> (procs st) !! q = Some y -> q ∈ listed st ->
    exists y0, procs st !! q = Some y0 /\ lwWaiting y = lwWaiting y0 /\ lwWaitMode y = lwWaitMode y0 /\
      queued_in (at_pc y) = queued_in (at_pc y0) /\ popped_in (at_pc y) = popped_in (at_pc y0)).
  { intros q y Hq Hl. destruct (lookup_upd _ _ _ _ _ _ Hp Hq) as [[-> ->]|[_ Hq']]; [|by exists y].
    destruct Hx as [(A1 & A2 & A3 & A4 & _)|[Hx _]]; [by exists x|done]. }
  assert (Hfrom : forall q y w, <[p := x']> (procs st) !! q = Some y ->
    (w ∈ inner (at_pc y) -> w ∈ waiters (lock st) \/ exists q y, procs st !! q = Some y /\ w ∈ inner (at_pc y)) /\
    (w ∈ outer (at_pc y) -> w ∈ listed st)).
  { intros q y w Hq. destruct (lookup_upd _ _ _ _ _ _ Hp Hq) as [[-> ->]|[_ Hq']].
    - split; [intros [?|?]%Hin; [by left|right; by exists p, x]|].
      intros [?|Hw]%Hout; apply listed_cases; [by left|right; by exists p, x].
    - split; [right; by exists q, y|]. intros Hw. apply listed_cases. right. exists q, y. by split; [|right]. }
  assert (Hwaits : forall q y, <[p := x']> (procs st) !! q = Some y ->
    (q ∈ waiters (lock st) \/ exists q' y', procs st !! q' = Some y' /\ q ∈ inner (at_pc y')) -> waits_in y).
  { intros q y Hq Hsrc.
    assert (Hl : q ∈ listed st) by (apply listed_cases; destruct Hsrc as [?|(q' & y' & ? & ?)]; [by left|right; exists q', y'; by split; [|left]]).
    destruct (Hsame q y Hq Hl) as (y0 & Hy0 & S1 & S2 & S3 & _).
    assert (waits_in y0) as (c & C1 & C2 & C3).
    { destruct Hsrc as [Hw|(q' & y' & Hq' & Hi)]; [by apply (q_wait _ Q q)|by apply (q_inner _ Q q y0 q' y')]. }
    exists c. by rewrite S1, S2, S3. }
  split; unfold st' in *; cbn [lock procs] in *.
  - rewrite Hlist. apply Q.
  - intros q Hq. rewrite Hlist in Hq. apply (q_known _ Q) in Hq. apply lookup_lt_is_Some. rewrite length_insert. by apply lookup_lt_is_Some.
  - intros q y Hq Hw. eapply Hwaits; [exact Hq|]. left. by apply Hwt.
  - intros q y q' y' Hq Hq' Hi. eapply Hwaits; [exact Hq|]. by eapply Hfrom.
  - intros q y q' y' Hq Hq' Ho. apply (Hfrom q' y' q Hq') in Ho.
    destruct (Hsame q y Hq Ho) as (y0 & Hy0 & S1 & _ & S3 & S4). rewrite S1, S3, S4. by apply (listed_waits st q).
  - intros q y Hq Hw. rewrite Hlist. destruct (lookup_upd _ _ _ _ _ _ Hp Hq) as [[-> ->]|[_ Hq']]; [|by apply (q_waiting _ Q q)].
    destruct Hx as [(A1 & _ & _ & _ & A5)|[_ Hx]]; [|congruence]. rewrite A1 in Hw. rewrite A5. by apply (q_waiting _ Q p).
Qed.

(** A step without effect on the lists. *)
Lemma list_quiet st p x x' l' :
  list_inv st -> procs st !! p = Some x -> waiters l' = waiters (lock st) ->
  inner (at_pc x') = inner (at_pc x) -> outer (at_pc x') = outer (at_pc x) ->
  as_before x x' \/ (lwWaiting x = false \/ queued_in (at_pc x) = None /\ popped_in (at_pc x) = None) /\ lwWaiting x' = false ->
  list_inv (MkSystem l' (<[p := x']> (procs st))).
Proof.
  intros Q Hp Hw Hi Ho Hx. eapply list_upd; [exact Q|exact Hp|..].
  - unfold wakelist. by rewrite Hw, Hi, Ho.
  - intros q. by rewrite Hw.
  - intros q. rewrite Hi. tauto.
  - intros q. rewrite Ho. tauto.
  - destruct Hx as [?|[? ?]]; [by left|right]. split; [by eapply not_listed|done].
Qed.

Record collected (mode_of : nat -> LWLockMode) (ws rest wakeup : list nat) (b ok : bool) : Prop := {
  co_perm : rest ++ wakeup ≡ₚ ws;
  co_ok : ok = false -> exists w, w ∈ wakeup /\ mode_of w <> LW_WAIT_UNTIL_FREE;
  co_rest : rest <> [] -> b = true \/ exists w, w ∈ wakeup /\ mode_of w <> LW_WAIT_UNTIL_FREE;
  co_nil : b = false -> wakeup = [] -> rest = [] }.

Lemma collect_spec mode_of ws : forall b rest wakeup ok,
  collect mode_of ws b = (rest, wakeup, ok) -> collected mode_of ws rest wakeup b ok.
Proof.
  induction ws as [|w ws IH]; intros b rest wakeup ok; cbn [collect]; [by intros [= <- <- <-]|].
  destruct (b && bool_decide (mode_of w = LW_EXCLUSIVE)) eqn:Eb.
  - apply andb_true_iff in Eb as [-> _].
    destruct (collect mode_of ws true) as [[r k] o] eqn:E. intros [= <- <- <-].
    destruct (IH _ _ _ _ E) as [C1 C2 C3 C4]. split; [|done|by left|done]. cbn. by rewrite C1.
  - case_bool_decide as Hex.
    + intros [= <- <- <-]. split; [by rewrite Permutation_app_comm|..|done];
        intros _; [|right]; exists w; (split; [constructor|congruence]).
    + destruct (collect mode_of ws _) as [[r k] o] eqn:E. intros [= <- <- <-].
      destruct (IH _ _ _ _ E) as [C1 C2 C3 _].
      assert (Hlift : (exists v, v ∈ k /\ mode_of v <> LW_WAIT_UNTIL_FREE) ->
        exists v, v ∈ w :: k /\ mode_of v <> LW_WAIT_UNTIL_FREE).
      { intros (v & Hv & Hm). exists v. split; [by constructor|done]. }
      split; [by rewrite <- C1, Permutation_middle|..|done].
      * case_bool_decide as Hf; cbn [andb]; [intros Ho; by apply Hlift, C2|].
        intros _. exists w. split; [constructor|done].
      * intros Hr. destruct (C3 Hr) as [Hb|He]; [|right; by apply Hlift].
        apply orb_true_iff in Hb as [?|Hb%negb_true_iff%bool_decide_eq_false]; [by left|].
        right. exists w. split; [constructor|done].
Qed.

Lemma collect_var_perm mode_of ws : forall rest wakeup,
  collect_var mode_of ws = (rest, wakeup) -> rest ++ wakeup ≡ₚ ws.
Proof.
  induction ws as [|w ws IH]; intros rest wakeup; cbn [collect_var]; [by intros [= <- <-]|].
  case_bool_decide; [intros [= <- <-]; by rewrite app_nil_r|].
  destruct (collect_var mode_of ws) as [r k]. intros [= <- <-].
  by rewrite <- (IH r k eq_refl), Permutation_middle.
Qed.

Lemma wakeups_alter (f : proc -> proc) w ps :
  (forall y, at_pc (f y) = at_pc y) -> wakeups (alter f w ps) = wakeups ps.
Proof.
  intros Hf. unfold wakeups. f_equal. revert w. induction ps as [|y ps IH]; intros [|w]; try done; cbn.
  - f_equal. unfold wakelist. by rewrite Hf.
  - f_equal. apply IH.
Qed.

Section ListStep.
Context (st : system) (p : nat) (x : proc) (Q : list_inv st) (Hp : procs st !! p = Some x).

(** Whoever joins the list was not in it. *)
Lemma list_push c n ws :
  at_pc x = QueuePush c n -> ws ≡ₚ p :: waiters (lock st) ->
  list_inv (MkSystem (set_waiters ws (lock st))
    (<[p := set_pc (QueueUnlock c n) (set_waiting true (set_mode (wait_mode c) x))]> (procs st))).
Proof.
  intros Epc Hws. set (x' := set_pc _ _).
  assert (Hn : p ∉ listed st) by (eapply not_listed; [done..|right; by rewrite Epc]).
  destruct (wakeups_upd (procs st) p x Hp) as (rest & R1 & R2).
  assert (Hwl : wakelist x = [] /\ wakelist x' = []) by (unfold wakelist; by rewrite Epc).
  assert (Hlist : listed (MkSystem (set_waiters ws (lock st)) (<[p := x']> (procs st))) ≡ₚ p :: listed st).
  { unfold listed. cbn [lock procs waiters set_waiters]. rewrite R2, R1. destruct Hwl as [-> ->]. by rewrite Hws. }
  assert (Hself : waits_in x') by (exists c; done).
  assert (Hinner : forall q y, <[p := x']> (procs st) !! q = Some y ->
    inner (at_pc y) = [] /\ outer (at_pc y) = [] \/ procs st !! q = Some y).
  { intros q y Hq. destruct (lookup_upd _ _ _ _ _ _ Hp Hq) as [[-> ->]|[_ ?]]; [by left|by right]. }
  split; cbn [lock procs waiters set_waiters].
  - rewrite Hlist. apply NoDup_cons. split; [done|apply Q].
  - intros q Hq. rewrite Hlist in Hq. apply lookup_lt_is_Some. rewrite length_insert.
    apply elem_of_cons in Hq as [->|Hq]; [by apply lookup_lt_Some in Hp|].
    by apply lookup_lt_is_Some, (q_known _ Q).
  - intros q y Hq Hw. destruct (lookup_upd _ _ _ _ _ _ Hp Hq) as [[_ ->]|[Hne Hq']]; [done|].
    rewrite Hws in Hw. apply elem_of_cons in Hw as [?|Hw]; [done|by apply (q_wait _ Q q)].
  - intros q y q' y' Hq Hq' Hi. destruct (Hinner q' y' Hq') as [[E _]|Hq0]; [rewrite E in Hi; by apply elem_of_nil in Hi|].
    destruct (lookup_upd _ _ _ _ _ _ Hp Hq) as [[_ ->]|[_ Hq1]]; [done|by apply (q_inner _ Q q y q' y')].
  - intros q y q' y' Hq Hq' Ho. destruct (Hinner q' y' Hq') as [[_ E]|Hq0]; [rewrite E in Ho; by apply elem_of_nil in Ho|].
    destruct (lookup_upd _ _ _ _ _ _ Hp Hq) as [[_ ->]|[_ Hq1]]; [by split; [|left]|by apply (q_outer _ Q q y q' y')].
  - intros q y Hq Hw. rewrite Hlist. destruct (lookup_upd _ _ _ _ _ _ Hp Hq) as [[-> _]|[_ Hq']]; [left; constructor|].
    destruct (q_waiting _ Q q y Hq' Hw); [left; by constructor|by right].
Qed.

(** Whoever leaves the list by itself is in no other. *)
Lemma list_remove c n o :
  word_inv st -> at_pc x = DequeueRemove c n o ->
  list_inv (MkSystem (set_waiters (remove p (waiters (lock st))) (lock st))
    (<[p := set_pc (DequeueTest c n o (bool_decide (p ∈ waiters (lock st)))) x]> (procs st))).
Proof.
  intros W Epc. set (x' := set_pc _ _).
  assert (Hrm : forall q, q ∈ remove p (waiters (lock st)) <-> q <> p /\ q ∈ waiters (lock st))
    by (intros q; unfold remove; by rewrite list_elem_of_filter).
  destruct (wakeups_upd (procs st) p x Hp) as (rest & R1 & R2).
  assert (Hwl : wakelist x = [] /\ wakelist x' = []) by (unfold wakelist; by rewrite Epc).
  set (st' := MkSystem _ _).
  assert (Hlist : listed st' ≡ₚ remove p (waiters (lock st)) ++ wakeups (procs st)).
  { unfold listed, st'. cbn [lock procs waiters set_waiters]. rewrite R2, R1. by destruct Hwl as [-> ->]. }
  assert (Hsub : forall q, q ∈ listed st' <-> q ∈ listed st /\ (q <> p \/ q ∉ waiters (lock st))).
  { intros q. rewrite Hlist. unfold listed. rewrite !elem_of_app, Hrm.
    destruct (decide (q = p)) as [->|]; [|tauto]. split; [|tauto].
    intros [[? _]|Hw]; [done|]. split; [by right|]. right. intros Hin.
    pose proof (q_nodup _ Q) as Hnd. apply NoDup_app in Hnd as (_ & Hnd & _). by apply (Hnd p). }
  assert (Hin : forall q y, procs st !! q = Some y -> p ∈ inner (at_pc y) -> False).
  { intros q y Hq Hi. assert (Hy : inside (at_pc y) = true) by (by destruct (at_pc y); try by apply elem_of_nil in Hi).
    destruct (inside_unique st p x q y W Hp Hq) as [_ ->]; [by rewrite Epc|done|].
    rewrite Epc in Hi. by apply elem_of_nil in Hi. }
  assert (Hold : forall q y, <[p := x']> (procs st) !! q = Some y ->
    inner (at_pc y) = [] /\ outer (at_pc y) = [] \/ procs st !! q = Some y).
  { intros q y Hq. destruct (lookup_upd _ _ _ _ _ _ Hp Hq) as [[-> ->]|[_ ?]]; [by left|by right]. }
  split; unfold st' in *; cbn [lock procs waiters set_waiters] in *.
  - rewrite Hlist. pose proof (q_nodup _ Q) as Hnd. apply NoDup_app in Hnd as (N1 & N2 & N3).
    apply NoDup_app. split; [by apply NoDup_filter|]. split; [|done]. intros q [_ Hq]%Hrm. by apply N2.
  - intros q [Hq _]%Hsub. apply lookup_lt_is_Some. rewrite length_insert. by apply lookup_lt_is_Some, (q_known _ Q).
  - intros q y Hq [Hne Hw]%Hrm. destruct (lookup_upd _ _ _ _ _ _ Hp Hq) as [[? _]|[_ Hq']]; [done|]. by apply (q_wait _ Q q).
  - intros q y q' y' Hq Hq' Hi. destruct (Hold q' y' Hq') as [[E _]|Hq0]; [rewrite E in Hi; by apply elem_of_nil in Hi|].
    destruct (lookup_upd _ _ _ _ _ _ Hp Hq) as [[-> _]|[_ Hq1]]; [by destruct (Hin q' y')|by apply (q_inner _ Q q y q' y')].
  - intros q y q' y' Hq Hq' Ho. destruct (Hold q' y' Hq') as [[_ E]|Hq0]; [rewrite E in Ho; by apply elem_of_nil in Ho|].
    destruct (lookup_upd _ _ _ _ _ _ Hp Hq) as [[-> ->]|[_ Hq1]]; [|by apply (q_outer _ Q q y q' y')].
    destruct (q_outer _ Q p x q' y' Hp Hq0 Ho) as [Hw _]. split; [done|]. right. cbn.
    rewrite bool_decide_eq_false_2; [done|]. intros Hpw.
    pose proof (q_nodup _ Q) as Hnd. apply NoDup_app in Hnd as (_ & Hnd & _). apply (Hnd p Hpw).
    apply elem_of_wakeups. exists q', y'. split; [done|]. apply elem_of_app. by right.
  - intros q y Hq Hw. rewrite Hsub. destruct (lookup_upd _ _ _ _ _ _ Hp Hq) as [[-> ->]|[Hne Hq']].
    + cbn in Hw |- *. destruct (q_waiting _ Q p x Hp Hw) as [Hl|Hf]; [|by rewrite Epc in Hf].
      case_bool_decide; [by right|left]. split; [done|by right].
    + destruct (q_waiting _ Q q y Hq' Hw); [left; by split; [|left]|by right].
Qed.

(** A process of the list is told that its wait is over. *)
Lemma list_notify w ws :
  at_pc x = WakeNext (w :: ws) ->
  list_inv (MkSystem (lock st) (alter (set_waiting false) w (<[p := set_pc (WakePost w ws) x]> (procs st)))).
Proof.
  intros Epc. set (x' := set_pc _ _).
  destruct (wakeups_upd (procs st) p x Hp) as (rest & R1 & R2).
  assert (Hwl : wakelist x = w :: ws /\ wakelist x' = ws) by (unfold wakelist; by rewrite Epc).
  assert (Hwake : wakeups (alter (set_waiting false) w (<[p := x']> (procs st))) = wakeups (<[p := x']> (procs st))).
  { by apply wakeups_alter. }
  set (st' := MkSystem _ _).
  assert (Hlist : listed st ≡ₚ w :: listed st').
  { unfold listed, st'. cbn [lock procs]. rewrite Hwake, R2, R1. destruct Hwl as [-> ->]. cbn. by rewrite <- Permutation_middle. }
  pose proof (q_nodup _ Q) as Hnd. rewrite Hlist in Hnd. apply NoDup_cons in Hnd as [Hw Hnd].
  assert (Hpn : p ∉ listed st) by (eapply not_listed; [done..|right; by rewrite Epc]).
  assert (Hback : forall q y, alter (set_waiting false) w (<[p := x']> (procs st)) !! q = Some y -> q ∈ listed st' ->
    procs st !! q = Some y).
  { intros q y (y0 & Hy0 & ->)%lookup_alter_inv Hq.
    assert (q <> w) by (by intros ->). rewrite bool_decide_eq_false_2 by done.
    destruct (lookup_upd _ _ _ _ _ _ Hp Hy0) as [[-> _]|[_ ?]]; [|done].
    destruct Hpn. rewrite Hlist. by constructor. }
  assert (Hsrc : forall q y, alter (set_waiting false) w (<[p := x']> (procs st)) !! q = Some y ->
    exists y0, procs st !! q = Some y0 /\ (inner (at_pc y) = inner (at_pc y0)) /\
      forall u, u ∈ outer (at_pc y) -> u ∈ outer (at_pc y0)).
  { intros q y (y0 & Hy0 & ->)%lookup_alter_inv.
    assert (Hpc : at_pc (if bool_decide (q = w) then set_waiting false y0 else y0) = at_pc y0) by (by case_bool_decide).
    rewrite Hpc. destruct (lookup_upd _ _ _ _ _ _ Hp Hy0) as [[-> ->]|[_ ?]]; [|by exists y0].
    exists x. rewrite Epc. split; [done|]. split; [done|]. intros u Hu. by constructor. }
  split; unfold st' in *; cbn [lock procs].
  - exact Hnd.
  - intros q Hq. apply lookup_lt_is_Some. rewrite length_alter, length_insert.
    apply lookup_lt_is_Some, (q_known _ Q). rewrite Hlist. by constructor.
  - intros q y Hq Hqw. apply (q_wait _ Q q); [|done]. apply Hback; [done|]. apply listed_cases. by left.
  - intros q y q' y' Hq Hq' Hi. apply Hback in Hq.
    + destruct (Hsrc q' y' Hq') as (y0 & Hy0 & E & _). rewrite E in Hi. by apply (q_inner _ Q q y q' y0).
    + apply listed_cases. right. exists q', y'. by split; [|left].
  - intros q y q' y' Hq Hq' Ho. apply Hback in Hq.
    + destruct (Hsrc q' y' Hq') as (y0 & Hy0 & _ & E). by apply (q_outer _ Q q y q' y0), E.
    + apply listed_cases. right. exists q', y'. by split; [|right].
  - intros q y Hq Hqw. pose proof Hq as (y0 & Hy0 & Ey)%lookup_alter_inv.
    case_bool_decide as Hqe; [by rewrite Ey in Hqw|]. subst y.
    destruct (lookup_upd _ _ _ _ _ _ Hp Hy0) as [[-> ->]|[_ Hq']].
    + destruct (q_waiting _ Q p x Hp Hqw) as [?|Hf]; [done|by rewrite Epc in Hf].
    + destruct (q_waiting _ Q q y0 Hq' Hqw) as [Hl|]; [left|by right]. rewrite Hlist in Hl.
      by apply elem_of_cons in Hl as [?|?].
Qed.
End ListStep.

(** What does not change the lists or the fields they depend on. *)
Lemma list_alter f w st :
  (forall y, at_pc (f y) = at_pc y /\ lwWaiting (f y) = lwWaiting y /\ lwWaitMode (f y) = lwWaitMode y) ->
  list_inv st -> list_inv (MkSystem (lock st) (alter f w (procs st))).
Proof.
  intros Hf Q. set (st' := MkSystem _ _).
  assert (Hwake : wakeups (alter f w (procs st)) = wakeups (procs st)).
  { apply wakeups_alter. intros y. apply Hf. }
  assert (Hlist : listed st' = listed st) by (unfold listed, st'; cbn [lock procs]; by rewrite Hwake).
  assert (Hsrc : forall q y, alter f w (procs st) !! q = Some y -> exists y0, procs st !! q = Some y0 /\
    at_pc y = at_pc y0 /\ lwWaiting y = lwWaiting y0 /\ lwWaitMode y = lwWaitMode y0).
  { intros q y (y0 & Hy0 & ->)%lookup_alter_inv. exists y0. split; [done|]. case_bool_decide; [by apply Hf|done]. }
  destruct Q as [Q1 Q2 Q3 Q4 Q5 Q6]. unfold waits_in in *. split; rewrite ?Hlist; unfold st', waits_in; cbn [lock procs].
  - done.
  - intros q Hq. apply lookup_lt_is_Some. rewrite length_alter. by apply lookup_lt_is_Some, Q2.
  - intros q y (y0 & Hy0 & -> & -> & ->)%Hsrc Hw. by apply (Q3 q).
  - intros q y q' y' (y0 & Hy0 & -> & -> & ->)%Hsrc (y1 & Hy1 & -> & _)%Hsrc Hi. by apply (Q4 q y0 q' y1).
  - intros q y q' y' (y0 & Hy0 & -> & -> & _)%Hsrc (y1 & Hy1 & -> & _)%Hsrc Ho. by apply (Q5 q y0 q' y1).
  - intros q y (y0 & Hy0 & -> & -> & _)%Hsrc Hw. by apply (Q6 q y0).
Qed.

(** A step without effect on the lists, by computation. *)
Ltac quiet Q Hp Epc :=
  eapply list_quiet; [exact Q|exact Hp|reflexivity|rewrite Epc; try reflexivity|rewrite Epc; try reflexivity
    |left; unfold as_before; cbn [set_pc at_pc lwWaiting lwWaitMode set_sem set_held set_returned]; rewrite ?Epc].

Lemma list_step st p x st' :
  word_inv st -> list_inv st -> procs st !! p = Some x -> step_proc p st x = Done st' -> list_inv st'.
Proof.
  intros W Q Hp. pose proof (w_local _ W p x Hp) as [_ Hloc].
  unfold_step. destruct (at_pc x) eqn:Epc; try done; cbn zeta.
  - (* AttemptRead *) intros [= <-]. quiet Q Hp Epc. by destruct again.
  - (* AttemptCAS *) destruct (Z.eqb _ _); intros [= <-]; [|quiet Q Hp Epc; by destruct again].
    destruct Hloc as [_ [_ Htry]]. quiet Q Hp Epc.
    1,2: by destruct again, c, (lock_free _ _).
    destruct again; [specialize (Htry eq_refl)|]; by destruct c, (lock_free _ _).
  - (* ListLock *) intros [= <-]. destruct (is_set _ _); [by quiet Q Hp Epc|].
    quiet Q Hp Epc; destruct k as [| ? [] | | | |]; done.
  - (* ListSpin *) intros [= <-]. destruct (is_set _ _); by quiet Q Hp Epc.
  - (* QueueStart *) destruct (lwWaiting x); [done|]. intros [= <-]. by quiet Q Hp Epc.
  - (* QueueFlag *) intros [= <-]. by quiet Q Hp Epc.
  - (* QueuePush *) intros [= <-]. apply list_push; [done..|].
    destruct (wait_mode c); [by rewrite Permutation_app_comm..|done].
  - (* QueueUnlock *) destruct (is_set _ _); [|done]. intros [= <-]. quiet Q Hp Epc; by destruct c.
  - (* VarReleaseOk *) intros [= <-]. by quiet Q Hp Epc.
  - (* VarState *) intros [= <-]. destruct (is_set _ _); quiet Q Hp Epc; by destruct again.
  - (* VarValue *) intros [= <-]. by quiet Q Hp Epc.
  - (* VarUnlock *) destruct (is_set _ _); [|done]. intros [= <-]. destruct (_ =? _); quiet Q Hp Epc; by destruct again.
  - (* SemLock *) destruct (sem x); [done|]. intros [= <-]. by quiet Q Hp Epc.
  - (* CheckWaiting *) intros [= <-]. destruct (lwWaiting x) eqn:Ew; [by quiet Q Hp Epc|].
    eapply list_quiet; [exact Q|exact Hp|done|rewrite Epc; by destruct c..|right; by split; [left|]].
  - (* RetryOk *) intros [= <-]. by quiet Q Hp Epc.
  - (* DequeueRemove *) intros [= <-]. by apply list_remove.
  - (* DequeueTest *) intros [= <-]. destruct (_ && _); quiet Q Hp Epc; by destruct found.
  - (* DequeueClear *) intros [= <-]. quiet Q Hp Epc; by destruct found.
  - (* DequeueUnlock *) destruct (is_set _ _); [|done]. intros [= <-]. destruct found; [|by quiet Q Hp Epc].
    eapply list_quiet; [exact Q|exact Hp|done|by rewrite Epc..|right; split; [right; by rewrite Epc|done]].
  - (* DequeueOk *) intros [= <-]. by quiet Q Hp Epc.
  - (* DequeueSem *) destruct (sem x); [done|]. intros [= <-]. by quiet Q Hp Epc.
  - (* DequeueCheck *) intros [= <-]. destruct (lwWaiting x) eqn:Ew; [by quiet Q Hp Epc|].
    eapply list_quiet; [exact Q|exact Hp|done|by rewrite Epc..|right; by split; [left|]].
  - (* DequeueRepost *) destruct absorbed; intros [= <-]; by quiet Q Hp Epc.
  - (* Repost *) destruct extraWaits; intros [= <-]; by quiet Q Hp Epc.
  - (* ReleaseSub *) destruct (is_set _ _); [done|]. intros [= <-]. destruct (_ && _); by quiet Q Hp Epc.
  - (* WakeCollect *) destruct (collect _ _ _) as [[rest wakeup] ok] eqn:Ec. destruct (_ || _); [|done]. intros [= <-].
    pose proof (co_perm _ _ _ _ _ _ (collect_spec _ _ _ _ _ _ Ec)) as Hperm.
    eapply list_upd; [exact Q|exact Hp|..]; cbn [waiters set_waiters].
    + unfold wakelist. rewrite Epc. cbn. by rewrite !app_nil_r.
    + intros q Hq. rewrite <- Hperm. apply elem_of_app. by left.
    + intros q Hq. left. rewrite <- Hperm. apply elem_of_app. by right.
    + intros q Hq. by apply elem_of_nil in Hq.
    + left. unfold as_before. by rewrite Epc.
  - (* WakeRead *) intros [= <-]. by quiet Q Hp Epc.
  - (* WakeCAS *) destruct (Z.eqb _ _); intros [= <-]; [|by quiet Q Hp Epc].
    eapply list_upd; [exact Q|exact Hp|..]; cbn [waiters set_state].
    + unfold wakelist. rewrite Epc. cbn. by rewrite app_nil_r.
    + done.
    + intros q Hq. by apply elem_of_nil in Hq.
    + intros q Hq. right. left. by rewrite Epc.
    + left. unfold as_before. by rewrite Epc.
  - (* WakeNext *) destruct wakeup as [|w ws]; intros [= <-]; [by quiet Q Hp Epc|]. by apply list_notify.
  - (* WakePost *) intros [= <-]. apply (list_alter _ waiter (MkSystem (lock st) _)); [done|]. by quiet Q Hp Epc.
  - (* UpdateSet *) destruct (is_set _ _); [|done]. destruct (collect_var _ _) as [rest wakeup] eqn:Ec. intros [= <-].
    pose proof (collect_var_perm _ _ _ _ Ec) as Hperm.
    eapply list_upd; [exact Q|exact Hp|..]; cbn [waiters set_waiters set_var].
    + unfold wakelist. rewrite Epc. cbn. by rewrite !app_nil_r.
    + intros q Hq. rewrite <- Hperm. apply elem_of_app. by left.
    + intros q Hq. left. rewrite <- Hperm. apply elem_of_app. by right.
    + intros q Hq. by apply elem_of_nil in Hq.
    + left. unfold as_before. by rewrite Epc.
  - (* UpdateUnlock *) destruct (is_set _ _); [|done]. intros [= <-].
    eapply list_upd; [exact Q|exact Hp|..]; cbn [waiters set_state].
    + unfold wakelist. rewrite Epc. cbn. by rewrite app_nil_r.
    + done.
    + intros q Hq. by apply elem_of_nil in Hq.
    + intros q Hq. right. left. by rewrite Epc.
    + left. unfold as_before. by rewrite Epc.
  - (* ClearSet *) intros [= <-]. by quiet Q Hp Epc.
  - (* ClearUnlock *) destruct (held x); [|done]. destruct (is_set _ _); [|done]. intros [= <-]. by quiet Q Hp Epc.
Qed.

End LwlockLists.
