(* ===== verification/LwlockWake.v ===== *)
(** * The wakeups of a lightweight lock

    A step of a process keeps the flags in agreement with the wait list; a
    process that has been removed from the list gets its wakeup; and as long as
    somebody waits, there is an owner, or somebody about to wake the waiters or
    to try the lock. *)

From S2P Require Import Prelude.
From S2P Require Import Words.
From S2P Require Import Lwlock.
From S2P Require Import LwlockInv.
From S2P Require Import LwlockWord.
From S2P Require Import LwlockLists.
From stdpp Require Import list.

Import Words Lwlock LwlockInv LwlockWord LwlockLists.

Open Scope Z_scope.

Module LwlockWake.

(** ** The flags are kept *)

(** Taking and releasing the lock leaves the flags alone. *)
Lemma flags_add st d l' ps :
  word_inv st -> 0 <= value (procs st) + d < 2 ^ 25 -> state l' = u32 (state (lock st) + d) ->
  has_waiters (MkSystem l' ps) = has_waiters st /\ release_ok (MkSystem l' ps) = release_ok st.
Proof.
  intros W Hd Hl. pose proof (word_inv_value st W) as Hv. rewrite (w_state _ W), word_u32 in Hl by done.
  split; [unfold has_waiters at 1|unfold release_ok at 1]; cbn [lock]; rewrite Hl.
  - by apply word_has_waiters.
  - unfold is_set, word. rewrite (land_high 25 ltac:(lia) _ _ 16 Hd). by destruct (is_locked st), (release_ok st), (has_waiters st).
Qed.

Lemma desired_flags st p x c a n ps :
  word_inv st -> procs st !! p = Some x -> at_pc x = AttemptCAS c a n (state (lock st)) ->
  let st' := MkSystem (set_state (desired_state (req_mode c) (state (lock st))) (lock st)) ps in
  has_waiters st' = has_waiters st /\ release_ok st' = release_ok st.
Proof.
  intros W Hp Epc. pose proof (w_local _ W p x Hp) as Hloc. unfold local in Hloc. rewrite Epc in Hloc.
  destruct Hloc as (_ & _ & Hm & _). unfold desired_state. destruct (lock_free _ _) eqn:Ef; [|done].
  apply (flags_add st (lock_value (req_mode c))); [done| |done].
  apply free_value_room; [done|]. by apply lock_free_word.
Qed.

Lemma release_flags st p x m ps :
  word_inv st -> procs st !! p = Some x -> at_pc x = ReleaseSub m ->
  let st' := MkSystem (set_state (u32 (state (lock st) - lock_value m)) (lock st)) ps in
  has_waiters st' = has_waiters st /\ release_ok st' = release_ok st.
Proof.
  intros W Hp Epc. pose proof (w_local _ W p x Hp) as Hloc. unfold local in Hloc. rewrite Epc in Hloc.
  destruct Hloc as (_ & _ & Hm). assert (Ho : owns x = Some m) by (unfold owns; by rewrite Epc).
  pose proof (owner_value st p x m W Hp Ho Hm) as Hv. apply (flags_add st (- lock_value m)); [done|lia|done].
Qed.

Definition flag_new (hw : bool) (ws : list nat) (ps : list proc) (c : pc) : Prop :=
  (forall d n, c = QueuePush d n -> hw = true) /\
  (forall d n o f, c = DequeueClear d n o f -> ws = []) /\
  (forall ok old, c = WakeRead [] ok \/ c = WakeCAS [] ok old -> ws = []) /\
  (forall ks old, c = WakeRead ks false \/ c = WakeCAS ks false old ->
     exists w y, w ∈ ks /\ ps !! w = Some y /\ lwWaitMode y <> LW_WAIT_UNTIL_FREE).

(** Control points that are under no condition. *)
Definition unflagged (c : pc) : bool :=
  match c with QueuePush _ _ | DequeueClear _ _ _ _ | WakeRead _ _ | WakeCAS _ _ _ => false | _ => true end.

Lemma flag_new_unflagged hw ws ps c : unflagged c = true -> flag_new hw ws ps c.
Proof.
  intros Hc. split_and!; [intros d n ->|intros d n o f ->|intros ok old [-> | ->]|intros ks old [-> | ->]]; discriminate Hc.
Qed.

Lemma flag_upd st p x x' l' :
  word_inv st -> flag_inv st -> procs st !! p = Some x ->
  let st' := MkSystem l' (<[p := x']> (procs st)) in
  (waiters l' <> [] -> has_waiters st' = true) ->
  (inside (at_pc x) = true \/
   waiters l' = waiters (lock st) /\ has_waiters st' = has_waiters st /\ lwWaitMode x' = lwWaitMode x) ->
  flag_new (has_waiters st') (waiters l') (procs st') (at_pc x') -> flag_inv st'.
Proof.
  intros W F Hp st' Hhw Hmono (N1 & N2 & N3 & N4).
  assert (Hother : forall q y, q <> p -> procs st !! q = Some y -> inside (at_pc y) = true ->
    waiters l' = waiters (lock st) /\ has_waiters st' = has_waiters st /\ lwWaitMode x' = lwWaitMode x).
  { intros q y Hne Hq Hy. destruct Hmono as [Hx|?]; [|done].
    destruct (inside_unique st p x q y W Hp Hq Hx Hy). done. }
  split; [done|..]; [|change (waiters (lock st')) with (waiters l')..|]; change (procs st') with (<[p := x']> (procs st)).
  - intros q y c n Hq Ec. destruct (lookup_upd _ _ _ _ _ _ Hp Hq) as [[-> ->]|[Hne Hq']]; [by eapply N1|].
    destruct (Hother q y Hne Hq') as (_ & -> & _); [by rewrite Ec|]. by eapply f_push.
  - intros q y c n o f Hq Ec. destruct (lookup_upd _ _ _ _ _ _ Hp Hq) as [[-> ->]|[Hne Hq']]; [by eapply N2|].
    destruct (Hother q y Hne Hq') as (-> & _ & _); [by rewrite Ec|]. by eapply f_clear.
  - intros q y ok old Hq Ec. destruct (lookup_upd _ _ _ _ _ _ Hp Hq) as [[-> ->]|[Hne Hq']]; [by eapply N3|].
    destruct (Hother q y Hne Hq') as (-> & _ & _); [by destruct Ec as [-> | ->]|]. by eapply f_empty.
  - intros q y ws old Hq Ec. destruct (lookup_upd _ _ _ _ _ _ Hp Hq) as [[-> ->]|[Hne Hq']]; [by eapply N4|].
    destruct (Hother q y Hne Hq') as (_ & _ & Hm); [by destruct Ec as [-> | ->]|].
    destruct (f_retry _ F q y ws old Hq' Ec) as (w & u & Hw & Hu & Hmu).
    destruct (decide (w = p)) as [->|Hwp].
    + exists p, x'. split; [done|]. split; [by eapply lookup_upd_eq|]. rewrite Hm. congruence.
    + exists w, u. split; [done|]. split; [by rewrite list_lookup_insert_ne|done].
Qed.

Lemma flag_alter f w st :
  (forall y, at_pc (f y) = at_pc y /\ lwWaitMode (f y) = lwWaitMode y) ->
  flag_inv st -> flag_inv (MkSystem (lock st) (alter f w (procs st))).
Proof.
  intros Hf [F1 F2 F3 F4 F5].
  assert (Hsrc : forall q y, alter f w (procs st) !! q = Some y -> exists y0, procs st !! q = Some y0 /\ at_pc y = at_pc y0).
  { intros q y (y0 & Hy0 & ->)%lookup_alter_inv. exists y0. split; [done|]. case_bool_decide; [by apply Hf|done]. }
  split; cbn [lock procs].
  - done.
  - intros q y c n (y0 & Hy0 & ->)%Hsrc. by apply (F2 q).
  - intros q y c n o g (y0 & Hy0 & ->)%Hsrc. by apply (F3 q y0).
  - intros q y ok old (y0 & Hy0 & ->)%Hsrc. by apply (F4 q y0).
  - intros q y ws old (y0 & Hy0 & ->)%Hsrc Ec. destruct (F5 q y0 ws old Hy0 Ec) as (v & u & Hv & Hu & Hm).
    exists v. destruct (decide (v = w)) as [->|Hne].
    + exists (f u). rewrite list_lookup_alter_eq, Hu. split; [done|]. split; [done|]. by destruct (Hf u) as [_ ->].
    + exists u. by rewrite list_lookup_alter_ne.
Qed.

Lemma flag_quiet st p x x' l' :
  word_inv st -> flag_inv st -> procs st !! p = Some x ->
  waiters l' = waiters (lock st) -> has_waiters (MkSystem l' (<[p := x']> (procs st))) = has_waiters st ->
  lwWaitMode x' = lwWaitMode x -> unflagged (at_pc x') = true ->
  flag_inv (MkSystem l' (<[p := x']> (procs st))).
Proof.
  intros W F Hp Hw Hh Hm Hu. eapply flag_upd; [exact W|exact F|exact Hp|..].
  - rewrite Hw, Hh. apply F.
  - by right.
  - by apply flag_new_unflagged.
Qed.

Ltac fquiet W F Hp := eapply flag_quiet; [exact W|exact F|exact Hp|done|flags; done|done|try done].

Lemma mode_in_waiter st w : mode_in (procs st) w <> LW_WAIT_UNTIL_FREE -> is_Some (procs st !! w) ->
  exists y, procs st !! w = Some y /\ lwWaitMode y <> LW_WAIT_UNTIL_FREE.
Proof. unfold mode_in. intros Hm [y Hy]. rewrite Hy in Hm. by exists y. Qed.

Lemma flag_step st p x st' :
  word_inv st -> list_inv st -> flag_inv st -> procs st !! p = Some x -> step_proc p st x = Done st' -> flag_inv st'.
Proof.
  intros W Q F Hp. pose proof (f_hw _ F) as Hhw.
  unfold_step. destruct (at_pc x) eqn:Epc; try done; cbn zeta.
  - (* AttemptRead *) intros [= <-]. fquiet W F Hp.
  - (* AttemptCAS *) destruct (Z.eqb_spec (state (lock st)) old_state) as [<-|]; intros [= <-]; [|fquiet W F Hp].
    eapply flag_quiet; [exact W|exact F|exact Hp|done|by apply (desired_flags st p x c again extraWaits)|done|].
    by destruct c, again, (lock_free _ _).
  - (* ListLock *) intros [= <-]. fquiet W F Hp. destruct (is_set _ _); [done|by destruct k].
  - (* ListSpin *) intros [= <-]. fquiet W F Hp. by destruct (is_set _ _).
  - (* QueueStart *) destruct (lwWaiting x); [done|]. intros [= <-]. fquiet W F Hp.
  - (* QueueFlag *) intros [= <-]. eapply flag_upd; [exact W|exact F|exact Hp|..].
    + intros _. by flags.
    + left. by rewrite Epc.
    + split_and!; [intros; by flags|..]; cbn; try done; by intros * [? | ?].
  - (* QueuePush *) intros [= <-]. eapply flag_upd; [exact W|exact F|exact Hp|..].
    + intros _. by apply (f_push _ F p x c extraWaits).
    + left. by rewrite Epc.
    + by apply flag_new_unflagged.
  - (* QueueUnlock *) destruct (is_set _ _); [|done]. intros [= <-]. fquiet W F Hp. by destruct c.
  - (* VarReleaseOk *) intros [= <-]. fquiet W F Hp.
  - (* VarState *) intros [= <-]. fquiet W F Hp. destruct (is_set _ _), again; done.
  - (* VarValue *) intros [= <-]. fquiet W F Hp.
  - (* VarUnlock *) destruct (is_set _ _); [|done]. intros [= <-]. fquiet W F Hp. by destruct (_ =? _), again.
  - (* SemLock *) destruct (sem x); [done|]. intros [= <-]. fquiet W F Hp.
  - (* CheckWaiting *) intros [= <-]. fquiet W F Hp. destruct (lwWaiting x); [done|by destruct c].
  - (* RetryOk *) intros [= <-]. fquiet W F Hp.
  - (* DequeueRemove *) intros [= <-]. eapply flag_upd; [exact W|exact F|exact Hp|..].
    + cbn. intros Hne. apply Hhw. intros E. by rewrite E in Hne.
    + left. by rewrite Epc.
    + by apply flag_new_unflagged.
  - (* DequeueTest *) intros [= <-]. destruct (_ && _) eqn:E; [|fquiet W F Hp].
    apply andb_true_iff in E as [E%bool_decide_eq_true _].
    eapply flag_upd; [exact W|exact F|exact Hp|done|left; by rewrite Epc|].
    split_and!; cbn; try done; by intros * [? | ?].
  - (* DequeueClear *) intros [= <-]. eapply flag_upd; [exact W|exact F|exact Hp| |left; by rewrite Epc|by apply flag_new_unflagged].
    cbn. by rewrite (f_clear _ F p x _ _ _ _ Hp Epc).
  - (* DequeueUnlock *) destruct (is_set _ _); [|done]. intros [= <-]. destruct found; fquiet W F Hp.
  - (* DequeueOk *) intros [= <-]. fquiet W F Hp.
  - (* DequeueSem *) destruct (sem x); [done|]. intros [= <-]. fquiet W F Hp.
  - (* DequeueCheck *) intros [= <-]. fquiet W F Hp. by destruct (lwWaiting x).
  - (* DequeueRepost *) destruct absorbed; intros [= <-]; fquiet W F Hp.
  - (* Repost *) destruct extraWaits; intros [= <-]; fquiet W F Hp.
  - (* ReleaseSub *) destruct (is_set _ _); [done|]. intros [= <-].
    eapply flag_quiet; [exact W|exact F|exact Hp|done|by apply (release_flags st p x m)|done|by destruct (_ && _)].
  - (* WakeCollect *) destruct (collect _ _ _) as [[rest wakeup] ok] eqn:Ec. destruct (_ || _); [|done]. intros [= <-].
    destruct (collect_spec _ _ _ _ _ _ Ec) as [C1 C2 _ C4].
    eapply flag_upd; [exact W|exact F|exact Hp| |left; by rewrite Epc|].
    + cbn. intros Hr. apply Hhw. intros E. rewrite E in C1. symmetry in C1. apply Permutation_nil in C1.
      by destruct rest.
    + split_and!; cbn; [done|done|intros o old [[= E _]|?]; [by apply C4|done]|].
      intros ks old [[= -> ->]|?]; [|done]. destruct (C2 eq_refl) as (w & Hw & Hm).
      assert (Hww : w ∈ waiters (lock st)) by (rewrite <- C1; apply elem_of_app; by right).
      destruct (mode_in_waiter st w Hm) as (y & Hy & Hmy); [apply (q_known _ Q), elem_of_app; by left|].
      exists w, y. split; [done|]. split; [|done]. rewrite list_lookup_insert_ne; [done|]. intros <-.
      destruct (q_wait _ Q p x Hp Hww) as (c & Hc & _). by rewrite Epc in Hc.
  - (* WakeRead *) intros [= <-]. eapply flag_upd; [exact W|exact F|exact Hp|exact Hhw|left; by rewrite Epc|].
    split_and!; cbn; [done|done|..].
    + intros o old [?|[= -> -> _]]; [done|]. apply (f_empty _ F p x o old Hp). by left.
    + intros ks old [?|[= -> -> _]]; [done|]. destruct (f_retry _ F p x ks old Hp) as (w & y & Hw & Hy & Hm); [by left|].
      exists w. destruct (decide (w = p)) as [->|]; [exists (set_pc (WakeCAS ks false (state (lock st))) x)|exists y];
        (split; [done|]); [rewrite (lookup_upd_eq _ _ _ _ Hp); split; [done|]; cbn; congruence|by rewrite list_lookup_insert_ne].
  - (* WakeCAS *) destruct (Z.eqb_spec (state (lock st)) old_state) as [<-|]; intros [= <-].
    + eapply flag_upd; [exact W|exact F|exact Hp| |left; by rewrite Epc|by apply flag_new_unflagged].
      cbn [waiters set_state]. unfold wake_state. intros Hne.
      rewrite bool_decide_eq_false_2 by (intros ->; apply Hne, (f_empty _ F p x new_release_ok (state (lock st)) Hp); by right).
      specialize (Hhw Hne). destruct new_release_ok; by flags.
    + eapply flag_upd; [exact W|exact F|exact Hp|exact Hhw|left; by rewrite Epc|].
      split_and!; cbn; [done|done|..].
      * intros o old [?|[= -> -> _]]; [done|]. apply (f_empty _ F p x o old_state Hp). by right.
      * intros ks old [?|[= -> -> _]]; [done|]. destruct (f_retry _ F p x ks old_state Hp) as (w & y & Hw & Hy & Hm); [by right|].
        exists w. destruct (decide (w = p)) as [->|]; [exists (set_pc (WakeCAS ks false (state (lock st))) x)|exists y];
          (split; [done|]); [rewrite (lookup_upd_eq _ _ _ _ Hp); split; [done|]; cbn; congruence|by rewrite list_lookup_insert_ne].
  - (* WakeNext *) destruct wakeup as [|w ws]; intros [= <-]; [fquiet W F Hp|].
    apply (flag_alter _ w (MkSystem (lock st) _)); [done|]. fquiet W F Hp.
  - (* WakePost *) intros [= <-]. apply (flag_alter _ waiter (MkSystem (lock st) _)); [done|]. fquiet W F Hp.
  - (* UpdateSet *) destruct (is_set _ _); [|done]. destruct (collect_var _ _) as [rest wakeup] eqn:Ec. intros [= <-].
    pose proof (collect_var_perm _ _ _ _ Ec) as C1.
    eapply flag_upd; [exact W|exact F|exact Hp| |left; by rewrite Epc|by apply flag_new_unflagged].
    cbn. intros Hr. apply Hhw. intros E. rewrite E in C1. symmetry in C1. apply Permutation_nil in C1. by destruct rest.
  - (* UpdateUnlock *) destruct (is_set _ _); [|done]. intros [= <-]. fquiet W F Hp.
  - (* ClearSet *) intros [= <-]. fquiet W F Hp.
  - (* ClearUnlock *) destruct (held x); [|done]. destruct (is_set _ _); [|done]. intros [= <-]. fquiet W F Hp.
Qed.

(** ** Wakeups are on their way *)

Lemma sleep_upd st p x x' l' :
  sleep_inv st -> procs st !! p = Some x -> (forall w ws, at_pc x <> WakePost w ws) ->
  (awaits (at_pc x') = true -> lwWaiting x' = false ->
     awaits (at_pc x) = true /\ lwWaiting x = false /\ (sem x <= sem x')%nat) ->
  sleep_inv (MkSystem l' (<[p := x']> (procs st))).
Proof.
  intros S Hp Hpc Hx q y Hq Ha Hw. cbn [procs] in *.
  assert (Hold : exists y0, procs st !! q = Some y0 /\ awaits (at_pc y0) = true /\ lwWaiting y0 = false /\ (sem y0 <= sem y)%nat).
  { destruct (lookup_upd _ _ _ _ _ _ Hp Hq) as [[-> ->]|[_ Hq']]; [exists x; split; [done|by apply Hx]|by exists y]. }
  destruct Hold as (y0 & Hy0 & Ha0 & Hw0 & Hs). destruct (S q y0 Hy0 Ha0 Hw0) as [?|(u & z & ws & Hu & Hz)]; [left; lia|].
  right. exists u, z, ws. split; [|done]. rewrite list_lookup_insert_ne; [done|]. intros <-.
  assert (z = x) by congruence. subst z. by destruct (Hpc q ws).
Qed.

Lemma sleep_notify st p x w ws :
  sleep_inv st -> procs st !! p = Some x -> at_pc x = WakeNext (w :: ws) -> p <> w ->
  sleep_inv (MkSystem (lock st) (alter (set_waiting false) w (<[p := set_pc (WakePost w ws) x]> (procs st)))).
Proof.
  intros S Hp Epc Hpw q y Hq Ha Hw. cbn [procs] in *. apply lookup_alter_inv in Hq as (y0 & Hy0 & ->).
  case_bool_decide as Hqw.
  - right. exists p, (set_pc (WakePost w ws) x), ws. subst q. split; [|done].
    rewrite list_lookup_alter_ne by done. by eapply lookup_upd_eq.
  - destruct (lookup_upd _ _ _ _ _ _ Hp Hy0) as [[-> ->]|[Hne Hq']]; [done|].
    destruct (S q y0 Hq' Ha Hw) as [?|(u & z & k & Hu & Hz)]; [by left|right].
    assert (Hup : u <> p) by (intros ->; congruence).
    exists u, (if bool_decide (u = w) then set_waiting false z else z), k.
    split; [|by case_bool_decide]. case_bool_decide as Huw.
    + subst u. rewrite list_lookup_alter_eq, list_lookup_insert_ne by done. by rewrite Hu.
    + by rewrite list_lookup_alter_ne, list_lookup_insert_ne.
Qed.

Lemma sleep_post st p x w ws :
  sleep_inv st -> procs st !! p = Some x -> at_pc x = WakePost w ws ->
  sleep_inv (MkSystem (lock st) (alter (fun y => set_sem (S (sem y)) y) w (<[p := set_pc (WakeNext ws) x]> (procs st)))).
Proof.
  intros S Hp Epc q y Hq Ha Hw. cbn [procs] in *. apply lookup_alter_inv in Hq as (y0 & Hy0 & ->).
  case_bool_decide as Hqw; [left; cbn; lia|].
  destruct (lookup_upd _ _ _ _ _ _ Hp Hy0) as [[-> ->]|[Hne Hq']]; [done|].
  destruct (S q y0 Hq' Ha Hw) as [?|(u & z & k & Hu & Hz)]; [by left|right].
  assert (Hup : u <> p) by (intros ->; congruence).
  exists u, (if bool_decide (u = w) then set_sem (Datatypes.S (sem z)) z else z), k.
  split; [|by case_bool_decide]. case_bool_decide as Huw.
  - subst u. rewrite list_lookup_alter_eq, list_lookup_insert_ne by done. by rewrite Hu.
  - by rewrite list_lookup_alter_ne, list_lookup_insert_ne.
Qed.

Lemma sleep_env st w :
  sleep_inv st -> sleep_inv (MkSystem (lock st) (alter (fun y => set_sem (S (sem y)) y) w (procs st))).
Proof.
  intros S q y Hq Ha Hw. cbn [procs] in *. apply lookup_alter_inv in Hq as (y0 & Hy0 & ->).
  case_bool_decide as Hqw; [left; cbn; lia|].
  destruct (S q y0 Hy0 Ha Hw) as [?|(u & z & k & Hu & Hz)]; [by left|right].
  exists u, (if bool_decide (u = w) then set_sem (Datatypes.S (sem z)) z else z), k.
  split; [|by case_bool_decide]. case_bool_decide as Huw.
  - subst u. rewrite list_lookup_alter_eq. by rewrite Hu.
  - by rewrite list_lookup_alter_ne.
Qed.

Ltac squiet S Hp Epc :=
  eapply sleep_upd; [exact S|exact Hp|intros ? ?; by rewrite Epc
    |cbn [set_pc at_pc lwWaiting sem set_sem set_waiting set_held set_returned]; rewrite ?Epc; try done].

Lemma sleep_step st p x st' :
  word_inv st -> list_inv st -> sleep_inv st -> procs st !! p = Some x -> step_proc p st x = Done st' -> sleep_inv st'.
Proof.
  intros W Q S Hp. pose proof (w_local _ W p x Hp) as [_ Hloc].
  unfold_step. destruct (at_pc x) eqn:Epc; try done; cbn zeta.
  - (* AttemptRead *) intros [= <-]. squiet S Hp Epc; try by destruct again.
  - (* AttemptCAS *) destruct (Z.eqb _ _); intros [= <-]; squiet S Hp Epc; try by destruct again.
    destruct Hloc as [_ [_ Htry]]. destruct again; [specialize (Htry eq_refl)|]; by destruct c, (lock_free _ _).
  - (* ListLock *) intros [= <-]. squiet S Hp Epc. destruct (is_set _ _); [done|]. by destruct k as [| ? [] | | | |].
  - (* ListSpin *) intros [= <-]. squiet S Hp Epc; try by destruct (is_set _ _).
  - (* QueueStart *) destruct (lwWaiting x); [done|]. intros [= <-]. squiet S Hp Epc.
  - (* QueueFlag *) intros [= <-]. squiet S Hp Epc.
  - (* QueuePush *) intros [= <-]. squiet S Hp Epc.
  - (* QueueUnlock *) destruct (is_set _ _); [|done]. intros [= <-]. squiet S Hp Epc.
  - (* VarReleaseOk *) intros [= <-]. squiet S Hp Epc.
  - (* VarState *) intros [= <-]. squiet S Hp Epc; try by destruct (is_set _ _), again.
  - (* VarValue *) intros [= <-]. squiet S Hp Epc; try by destruct again.
  - (* VarUnlock *) destruct (is_set _ _); [|done]. intros [= <-]. squiet S Hp Epc; try by destruct (_ =? _), again.
  - (* SemLock *) destruct (sem x); [done|]. intros [= <-]. squiet S Hp Epc.
  - (* CheckWaiting *) intros [= <-]. squiet S Hp Epc. destruct (lwWaiting x); [done|by destruct c].
  - (* RetryOk *) intros [= <-]. squiet S Hp Epc.
  - (* DequeueRemove *) intros [= <-]. squiet S Hp Epc.
  - (* DequeueTest *) intros [= <-]. squiet S Hp Epc; try by destruct (_ && _), found.
  - (* DequeueClear *) intros [= <-]. squiet S Hp Epc; try by destruct found.
  - (* DequeueUnlock *) destruct (is_set _ _); [|done]. intros [= <-]. destruct found; squiet S Hp Epc.
  - (* DequeueOk *) intros [= <-]. squiet S Hp Epc.
  - (* DequeueSem *) destruct (sem x); [done|]. intros [= <-]. squiet S Hp Epc.
  - (* DequeueCheck *) intros [= <-]. squiet S Hp Epc; try by destruct (lwWaiting x).
  - (* DequeueRepost *) destruct absorbed; intros [= <-]; squiet S Hp Epc.
  - (* Repost *) destruct extraWaits; intros [= <-]; squiet S Hp Epc.
  - (* ReleaseSub *) destruct (is_set _ _); [done|]. intros [= <-]. squiet S Hp Epc; try by destruct (_ && _).
  - (* WakeCollect *) destruct (collect _ _ _) as [[rest wakeup] ok]. destruct (_ || _); [|done]. intros [= <-]. squiet S Hp Epc.
  - (* WakeRead *) intros [= <-]. squiet S Hp Epc.
  - (* WakeCAS *) destruct (Z.eqb _ _); intros [= <-]; squiet S Hp Epc.
  - (* WakeNext *) destruct wakeup as [|w ws]; intros [= <-]; [squiet S Hp Epc|]. apply sleep_notify; try done.
    intros ->. eapply (not_listed st w x Q Hp); [right; by rewrite Epc|]. apply listed_cases. right. exists w, x.
    split; [done|]. right. rewrite Epc. constructor.
  - (* WakePost *) intros [= <-]. by apply sleep_post.
  - (* UpdateSet *) destruct (is_set _ _); [|done]. destruct (collect_var _ _) as [rest wakeup]. intros [= <-]. squiet S Hp Epc.
  - (* UpdateUnlock *) destruct (is_set _ _); [|done]. intros [= <-]. squiet S Hp Epc.
  - (* ClearSet *) intros [= <-]. squiet S Hp Epc.
  - (* ClearUnlock *) destruct (held x); [|done]. destruct (is_set _ _); [|done]. intros [= <-]. squiet S Hp Epc.
Qed.

(** ** Whoever was woken lets the next release wake others *)

Definition owes (x : proc) : Prop := exists c, owes_in (at_pc x) = Some c /\ wait_mode c <> LW_WAIT_UNTIL_FREE.

Lemma retry_upd st p x x' l' :
  retry_inv st -> procs st !! p = Some x ->
  (forall q, q ∈ waiters l' -> q ∈ waiters (lock st) \/ q = p) ->
  (release_ok (MkSystem l' (<[p := x']> (procs st))) = false ->
     release_ok st = false /\ (p ∉ waiters (lock st) -> owes x -> p ∉ waiters l' /\ owes x')) ->
  retry_inv (MkSystem l' (<[p := x']> (procs st))).
Proof.
  intros R Hp Hw Hx Hro. destruct (Hx Hro) as [Hro0 Ho]. destruct (R Hro0) as (q & y & Hq & Hn & Hy).
  destruct (decide (q = p)) as [->|Hne].
  - assert (y = x) as -> by congruence. destruct (Ho Hn Hy) as [Hn' Hy']. exists p, x'.
    split; [by eapply lookup_upd_eq|]. by split.
  - exists q, y. split; [cbn; by rewrite list_lookup_insert_ne|]. split; [|done]. cbn. intros Hin.
    by destruct (Hw q Hin).
Qed.

Lemma retry_alter f w st :
  (forall y, at_pc (f y) = at_pc y) -> retry_inv st -> retry_inv (MkSystem (lock st) (alter f w (procs st))).
Proof.
  intros Hf R Hro. destruct (R Hro) as (q & y & Hq & Hn & Hy).
  exists q, (if bool_decide (q = w) then f y else y). cbn [procs]. split.
  - case_bool_decide as E; [subst; by rewrite list_lookup_alter_eq, Hq|by rewrite list_lookup_alter_ne].
  - split; [done|]. by case_bool_decide; rewrite ?Hf.
Qed.

Lemma retry_set st p x' l' : release_ok (MkSystem l' (<[p := x']> (procs st))) = true ->
  retry_inv (MkSystem l' (<[p := x']> (procs st))).
Proof. intros Hro Hf. congruence. Qed.

Ltac rquiet R Hp Epc :=
  eapply retry_upd; [exact R|exact Hp|by left|];
  let Hro := fresh "Hro" in intros Hro; split; [revert Hro; flags; done|];
  unfold owes; cbn [set_pc at_pc set_waiting set_held set_sem set_returned];
  let Hn := fresh "Hn" in let c := fresh "c" in let Hc := fresh "Hc" in let Hm := fresh "Hm" in
  intros Hn (c & Hc & Hm); rewrite Epc in Hc; split; [exact Hn|]; try discriminate Hc; try (by exists c).

Lemma retry_step st p x st' :
  word_inv st -> list_inv st -> flag_inv st -> retry_inv st -> procs st !! p = Some x ->
  step_proc p st x = Done st' -> retry_inv st'.
Proof.
  intros W Q F R Hp. pose proof (w_local _ W p x Hp) as [_ Hloc].
  unfold_step. destruct (at_pc x) eqn:Epc; try done; cbn zeta.
  - (* AttemptRead *) intros [= <-]. rquiet R Hp Epc; try by destruct again.
  - (* AttemptCAS *) destruct (Z.eqb_spec (state (lock st)) old_state) as [<-|]; intros [= <-].
    2: { rquiet R Hp Epc; try by destruct again. }
    destruct (desired_flags st p x c again extraWaits
      (<[p := set_pc (attempted c again extraWaits (negb (lock_free (req_mode c) (state (lock st))))) x]> (procs st)) W Hp Epc) as [_ Hro].
    eapply retry_upd; [exact R|exact Hp|by left|]. rewrite Hro. intros H0. split; [done|].
    intros Hn (d & Hd & Hm). split; [done|]. rewrite Epc in Hd. destruct again; [|done]. injection Hd as <-.
    exists c. split; [|done]. by destruct c, (lock_free _ _).
  - (* ListLock *) intros [= <-]. destruct (is_set _ _); rquiet R Hp Epc; try by destruct k as [| ? [] | | | |]; try (by exists c).
  - (* ListSpin *) intros [= <-]. destruct (is_set _ _); rquiet R Hp Epc.
  - (* QueueStart *) destruct (lwWaiting x); [done|]. intros [= <-]. rquiet R Hp Epc.
  - (* QueueFlag *) intros [= <-]. rquiet R Hp Epc.
  - (* QueuePush *) intros [= <-]. eapply retry_upd; [exact R|exact Hp|..].
    + cbn. intros q. destruct (wait_mode c); rewrite ?elem_of_app, ?elem_of_cons, ?elem_of_nil; tauto.
    + intros Hro. split; [done|]. intros _ (d & Hd & _). by rewrite Epc in Hd.
  - (* QueueUnlock *) destruct (is_set _ _); [|done]. intros [= <-]. rquiet R Hp Epc. injection Hc as <-. by exists c; destruct c.
  - (* VarReleaseOk *) intros [= <-]. rquiet R Hp Epc.
  - (* VarState *) intros [= <-]. rquiet R Hp Epc. destruct again; [|done]. injection Hc as <-. done.
  - (* VarValue *) intros [= <-]. rquiet R Hp Epc; try by destruct again.
  - (* VarUnlock *) destruct (is_set _ _); [|done]. intros [= <-]. rquiet R Hp Epc. destruct again; [|done]. injection Hc as <-. done.
  - (* SemLock *) destruct (sem x); [done|]. intros [= <-]. rquiet R Hp Epc.
  - (* CheckWaiting *) intros [= <-]. rquiet R Hp Epc. injection Hc as <-. exists c. by destruct (lwWaiting x), c.
  - (* RetryOk *) intros [= <-]. apply retry_set. by flags.
  - (* DequeueRemove *) intros [= <-]. eapply retry_upd; [exact R|exact Hp|..].
    + cbn. intros q [_ ?]%list_elem_of_filter. by left.
    + intros Hro. split; [done|]. intros Hn (d & Hd & Hm). rewrite Epc in Hd. split; [cbn; by intros [? _]%list_elem_of_filter|].
      exists d. split; [|done]. cbn. by rewrite bool_decide_eq_false_2.
  - (* DequeueTest *) intros [= <-]. rquiet R Hp Epc. exists c0. by destruct (_ && _), found.
  - (* DequeueClear *) intros [= <-]. rquiet R Hp Epc; try by destruct found.
  - (* DequeueUnlock *) destruct (is_set _ _); [|done]. intros [= <-]. destruct found; rquiet R Hp Epc.
  - (* DequeueOk *) intros [= <-]. apply retry_set. by flags.
  - (* DequeueSem *) destruct (sem x); [done|]. intros [= <-]. rquiet R Hp Epc.
  - (* DequeueCheck *) intros [= <-]. rquiet R Hp Epc.
  - (* DequeueRepost *) destruct absorbed; intros [= <-]; rquiet R Hp Epc.
  - (* Repost *) destruct extraWaits; intros [= <-]; rquiet R Hp Epc.
  - (* ReleaseSub *) destruct (is_set _ _); [done|]. intros [= <-].
    eapply retry_upd; [exact R|exact Hp|by left|]. intros Hro. split.
    + destruct (release_flags st p x m (<[p := set_pc (if (Z.land (u32 (state (lock st) - lock_value m))
        (Z.lor LW_FLAG_HAS_WAITERS LW_FLAG_RELEASE_OK) =? Z.lor LW_FLAG_HAS_WAITERS LW_FLAG_RELEASE_OK) &&
        (Z.land (u32 (state (lock st) - lock_value m)) LW_LOCK_MASK =? 0) then ListLock ForWakeup else Idle) x]> (procs st)) W Hp Epc)
        as [_ Hro']. exact (eq_trans (eq_sym Hro') Hro).
    + intros _ (d & Hd & _). by rewrite Epc in Hd.
  - (* WakeCollect *) destruct (collect _ _ _) as [[rest wakeup] ok] eqn:Ec. destruct (_ || _); [|done]. intros [= <-].
    eapply retry_upd; [exact R|exact Hp|..].
    + intros q Hq. left. rewrite <- (co_perm _ _ _ _ _ _ (collect_spec _ _ _ _ _ _ Ec)). apply elem_of_app. by left.
    + intros Hro. split; [done|]. intros _ (d & Hd & _). by rewrite Epc in Hd.
  - (* WakeRead *) intros [= <-]. rquiet R Hp Epc.
  - (* WakeCAS *) destruct (Z.eqb_spec (state (lock st)) old_state) as [<-|]; intros [= <-]; [|rquiet R Hp Epc].
    destruct new_release_ok.
    + apply retry_set. unfold wake_state. destruct (bool_decide _); by flags.
    + intros _. destruct (f_retry _ F p x wakeup (state (lock st)) Hp) as (w & y & Hw & Hy & Hm); [by right|].
      assert (Hiw : w ∈ inner (at_pc x)) by (by rewrite Epc).
      destruct (q_inner _ Q w y p x Hy Hp Hiw) as (c & Hc & _ & Hmc).
      assert (Hwp : w <> p) by (intros ->; assert (y = x) as -> by congruence; by rewrite Epc in Hc).
      exists w, y. cbn. split; [by rewrite list_lookup_insert_ne|]. split.
      * cbn. intros Hin. pose proof (q_nodup _ Q) as Hnd. apply NoDup_app in Hnd as (_ & Hnd & _). apply (Hnd w Hin).
        apply elem_of_wakeups. exists p, x. split; [done|]. apply elem_of_app. by left.
      * exists c. split; [|by rewrite <- Hmc]. by destruct (at_pc y).
  - (* WakeNext *) destruct wakeup as [|w ws]; intros [= <-]; [rquiet R Hp Epc|].
    apply (retry_alter _ w (MkSystem (lock st) _)); [done|]. rquiet R Hp Epc.
  - (* WakePost *) intros [= <-]. apply (retry_alter _ waiter (MkSystem (lock st) _)); [done|]. rquiet R Hp Epc.
  - (* UpdateSet *) destruct (is_set _ _); [|done]. destruct (collect_var _ _) as [rest wakeup] eqn:Ec. intros [= <-].
    eapply retry_upd; [exact R|exact Hp|..].
    + intros q Hq. left. rewrite <- (collect_var_perm _ _ _ _ Ec). apply elem_of_app. by left.
    + intros Hro. split; [done|]. intros _ (d & Hd & _). by rewrite Epc in Hd.
  - (* UpdateUnlock *) destruct (is_set _ _); [|done]. intros [= <-]. rquiet R Hp Epc.
  - (* ClearSet *) intros [= <-]. rquiet R Hp Epc.
  - (* ClearUnlock *) destruct (held x); [|done]. destruct (is_set _ _); [|done]. intros [= <-]. rquiet R Hp Epc.
Qed.

(** ** Nobody sleeps on a free lock *)

Definition pends (st : system) (p : nat) (x : proc) : Prop :=
  owns x <> None \/ waking (at_pc x) = true \/ trying (at_pc x) = true \/ owed st p x.

Lemma pending_upd st p x x' l' :
  pending_inv st -> procs st !! p = Some x ->
  let st' := MkSystem l' (<[p := x']> (procs st)) in
  (forall q, q ∈ waiters l' -> q ∈ waiters (lock st) \/ q = p) ->
  (p ∈ waiters l' -> settled (at_pc x') = true -> p ∈ waiters (lock st) /\ settled (at_pc x) = true) ->
  (pends st p x -> pends st' p x') -> pending_inv st'.
Proof.
  intros P Hp st' Hw Hset Hx q y Hq Hqw Hs.
  assert (Hold : pending st).
  { destruct (lookup_upd _ _ _ _ _ _ Hp Hq) as [[-> ->]|[Hne Hq']].
    - destruct (Hset Hqw Hs). by apply (P p x).
    - apply (P q y); [done| |done]. by destruct (Hw q Hqw). }
  destruct Hold as (r & z & Hr & Hz). destruct (decide (r = p)) as [->|Hne].
  - assert (z = x) as -> by congruence. exists p, x'. split; [by eapply lookup_upd_eq|by apply Hx].
  - exists r, z. split; [unfold st'; cbn; by rewrite list_lookup_insert_ne|]. destruct Hz as [?|[?|[?|[Hn ?]]]]; [tauto|tauto|tauto|].
    right. right. right. split; [|done]. intros Hin. by destruct (Hw r Hin).
Qed.

(** Something that is pending whatever waits. *)
Lemma pending_now st : pending st -> pending_inv st.
Proof. by intros H p x _ _ _. Qed.

Lemma pending_self st p x' l' :
  (p < length (procs st))%nat -> pends (MkSystem l' (<[p := x']> (procs st))) p x' ->
  pending (MkSystem l' (<[p := x']> (procs st))).
Proof. intros Hp Hx. exists p, x'. split; [by apply list_lookup_insert_eq|done]. Qed.

Lemma pending_alter f w st :
  same_place f -> pending_inv st -> pending_inv (MkSystem (lock st) (alter f w (procs st))).
Proof.
  intros Hf P q y (y0 & Hy0 & ->)%lookup_alter_inv Hw Hs. cbn [lock] in Hw.
  assert (Hpc : forall (b : bool) z, at_pc (if b then f z else z) = at_pc z /\ held (if b then f z else z) = held z)
    by (intros []; [apply Hf|done]).
  assert (Hp : pending st) by (apply (P q y0 Hy0 Hw); by rewrite (proj1 (Hpc _ y0)) in Hs).
  destruct Hp as (r & z & Hr & Hz). exists r, (if bool_decide (r = w) then f z else z). split.
  - cbn [procs]. destruct (decide (r = w)) as [->|E].
    + by rewrite list_lookup_alter_eq, Hr, bool_decide_eq_true_2.
    + by rewrite list_lookup_alter_ne, bool_decide_eq_false_2.
  - destruct (Hpc (bool_decide (r = w)) z) as [E1 E2]. unfold owed, owns in *. cbn [lock]. by rewrite E1, E2.
Qed.

Lemma owner_of_value st : word_inv st -> 0 < value (procs st) -> exists q y, procs st !! q = Some y /\ owns y <> None.
Proof.
  intros W Hv. unfold value in Hv. pose proof (countb_nonneg shares (procs st)). pose proof (countb_nonneg excludes (procs st)).
  destruct (decide (0 < countb shares (procs st))) as [Hs|Hs].
  - apply countb_lookup in Hs as (q & y & Hq & Hy%bool_decide_eq_true). exists q, y. split; [done|congruence].
  - assert (0 < countb excludes (procs st)) as He by lia.
    apply countb_lookup in He as (q & y & Hq & Hy%bool_decide_eq_true). exists q, y. split; [done|congruence].
Qed.

(** A lock that is not free has an owner, who is still there when [p] has made
    its step. *)
Lemma pending_owned st p x x' l' :
  word_inv st -> procs st !! p = Some x -> owns x = None -> 0 < value (procs st) ->
  pending (MkSystem l' (<[p := x']> (procs st))).
Proof.
  intros W Hp Ho Hv. destruct (owner_of_value st W Hv) as (q & y & Hq & Hy). exists q, y.
  split; [|by left]. cbn. rewrite list_lookup_insert_ne; [done|]. intros <-. congruence.
Qed.

Lemma not_free_value st m :
  word_inv st -> m <> LW_WAIT_UNTIL_FREE -> lock_free m (state (lock st)) = false -> 0 < value (procs st).
Proof.
  intros W Hm Hf. pose proof (word_inv_value st W) as Hv. rewrite (w_state _ W) in Hf.
  destruct m; [| |done]; unfold lock_free in Hf.
  - rewrite word_value in Hf by done. lia.
  - pose proof (word_exclusive (is_locked st) (release_ok st) (has_waiters st) _ Hv) as Hx.
    unfold is_set in Hx. rewrite Hf in Hx. cbn in Hx. symmetry in Hx. apply Z.leb_le in Hx. lia.
Qed.

Ltac pcases Epc :=
  unfold pends, owed, owns; cbn [set_pc at_pc held set_waiting set_held set_sem set_returned waiters set_state set_var lock]; rewrite Epc;
  intros [Hown|[Hwk|[Htr|(Hnw & c1 & Hc1 & Hm1)]]]; try discriminate; try (by left); try (by right; left); try (by right; right; left);
  try (right; right; right; split; [exact Hnw|]; by exists c1).

Ltac pquiet P Hp Epc :=
  eapply pending_upd; [exact P|exact Hp|by left|cbn [set_pc at_pc set_waiting set_held set_sem set_returned]; rewrite Epc; try done|pcases Epc].

Lemma owed_other st p x' l' q y :
  q <> p -> procs st !! q = Some y -> q ∉ waiters l' -> (exists c, owes_in (at_pc y) = Some c /\ wait_mode c <> LW_WAIT_UNTIL_FREE) ->
  pending (MkSystem l' (<[p := x']> (procs st))).
Proof.
  intros Hne Hq Hn Hy. exists q, y. split; [cbn; by rewrite list_lookup_insert_ne|]. by right; right; right.
Qed.

(** The last owner wakes the waiters, unless somebody woken earlier has not got
    to try the lock yet. *)
Lemma pending_release st p x m st' :
  word_inv st -> flag_inv st -> retry_inv st -> procs st !! p = Some x -> at_pc x = ReleaseSub m ->
  step_proc p st x = Done st' -> pending_inv st'.
Proof.
  intros W F R Hp Epc Hstep. pose proof (word_step _ _ _ _ W Hp Hstep) as W'. revert Hstep.
  unfold_step. rewrite Epc. cbn zeta.
  pose proof (w_local _ W p x Hp) as Hloc. unfold local in Hloc. rewrite Epc in Hloc. destruct Hloc as (_ & Hh & Hm).
  assert (Ho : owns x = Some m) by (unfold owns; by rewrite Epc).
  pose proof (owner_value st p x m W Hp Ho Hm) as Hv.
  assert (Hnew : u32 (state (lock st) - lock_value m) =
    word (is_locked st) (release_ok st) (has_waiters st) (value (procs st) - lock_value m)).
  { rewrite (w_state _ W) at 1. rewrite <- Z.add_opp_r, word_u32 by lia. done. }
  rewrite Hnew, word_check_waiters, word_value by lia. destruct (is_set _ _); [done|].
  set (x' := set_pc _ x). intros [= Hst'] q y Hq Hqw Hs.
  assert (Hhw : has_waiters st = true) by (apply (f_hw _ F); subst st'; cbn in Hqw; intros E; by rewrite E in Hqw; apply elem_of_nil in Hqw).
  assert (Ho' : owns x' = None) by (unfold owns, x'; cbn; by destruct (_ && _)).
  destruct (Z.eqb_spec (value (procs st) - lock_value m) 0) as [Hz|Hz].
  - destruct (release_ok st) eqn:Ero.
    + rewrite <- Hst'. apply pending_self; [by apply lookup_lt_Some in Hp|]. right. left. unfold x'. by rewrite Hhw.
    + destruct (R Ero) as (r & z & Hr & Hn & Hz'). rewrite <- Hst'. apply (owed_other st p x' _ r z); try done.
      intros ->. assert (z = x) as -> by congruence. rewrite Epc in Hz'. by destruct Hz' as (d & ? & _).
  - destruct (owner_of_value st' W') as (r & z & Hr & Hz'); [|exists r, z; by split; [|left]].
    rewrite <- Hst'. cbn [procs]. rewrite (value_upd _ _ _ _ Hp), (share_none _ Ho'), (share_owner _ _ Ho Hm). lia.
Qed.

(** Whoever is left in the list can rely on one that is taken out of it. *)
Lemma pending_collect st p x st' :
  list_inv st -> procs st !! p = Some x -> at_pc x = WakeCollect ->
  step_proc p st x = Done st' -> pending_inv st'.
Proof.
  intros Q Hp Epc. unfold_step. rewrite Epc. cbn zeta.
  destruct (collect _ _ _) as [[rest wakeup] ok] eqn:Ec. destruct (_ || _); [|done]. intros [= <-] q y Hq Hqw Hs.
  destruct (collect_spec _ _ _ _ _ _ Ec) as [C1 _ C3 _].
  destruct C3 as [?|(w & Hw & Hm)]; [cbn in Hqw; intros E; by rewrite E in Hqw; apply elem_of_nil in Hqw|done|].
  assert (Hww : w ∈ waiters (lock st)) by (rewrite <- C1; apply elem_of_app; by right).
  destruct (mode_in_waiter st w Hm) as (z & Hz & Hmz); [apply (q_known _ Q), elem_of_app; by left|].
  destruct (q_wait _ Q w z Hz Hww) as (c & Hc & _ & Hmc).
  apply (owed_other st p _ _ w z); [intros ->; assert (z = x) as -> by congruence; by rewrite Epc in Hc|done|..].
  - cbn. intros Hin. pose proof (q_nodup _ Q) as Hnd. apply NoDup_app in Hnd as (Hnd & _ & _).
    rewrite <- C1 in Hnd. apply NoDup_app in Hnd as (_ & Hnd & _). by apply (Hnd w).
  - exists c. split; [by destruct (at_pc z)|congruence].
Qed.

Lemma pending_step st p x st' :
  word_inv st -> list_inv st -> flag_inv st -> retry_inv st -> pending_inv st -> procs st !! p = Some x ->
  step_proc p st x = Done st' -> pending_inv st'.
Proof.
  intros W Q F R P Hp. pose proof (w_local _ W p x Hp) as [_ Hloc].
  assert (Hlt : (p < length (procs st))%nat) by (by apply lookup_lt_Some in Hp).
  unfold_step. destruct (at_pc x) eqn:Epc; try done; cbn zeta.
  - (* AttemptRead *) intros [= <-]. pquiet P Hp Epc.
  - (* AttemptCAS *) destruct (Z.eqb_spec (state (lock st)) old_state) as [<-|]; intros [= <-]; [|pquiet P Hp Epc].
    destruct Hloc as (Hh & Hm & _). apply pending_now. destruct (lock_free _ _) eqn:Ef.
    + apply pending_self; [done|]. left. cbn [negb]. by rewrite owns_attempted.
    + eapply pending_owned; [exact W|exact Hp|unfold owns; by rewrite Epc|by eapply not_free_value].
  - (* ListLock *) intros [= <-]. destruct (is_set _ _), k as [| ? [] | | | |]; pquiet P Hp Epc.
  - (* ListSpin *) intros [= <-]. destruct (is_set _ _); pquiet P Hp Epc.
  - (* QueueStart *) destruct (lwWaiting x); [done|]. intros [= <-]. pquiet P Hp Epc.
  - (* QueueFlag *) intros [= <-]. pquiet P Hp Epc.
  - (* QueuePush *) intros [= <-]. eapply pending_upd; [exact P|exact Hp|..|pcases Epc]; [|done].
    cbn. intros q. destruct (wait_mode c); rewrite ?elem_of_app, ?elem_of_cons, ?elem_of_nil; tauto.
  - (* QueueUnlock *) destruct (is_set _ _); [|done]. intros [= <-]. destruct c; pquiet P Hp Epc.
  - (* VarReleaseOk *) intros [= <-]. pquiet P Hp Epc.
  - (* VarState *) intros [= <-]. destruct (is_set _ _) eqn:Ex; [|destruct again; pquiet P Hp Epc].
    apply pending_now. eapply pending_owned; [exact W|exact Hp|unfold owns; by rewrite Epc|].
    pose proof (word_inv_value st W) as Hv. rewrite (w_state _ W), word_exclusive in Ex by done. lia.
  - (* VarValue *) intros [= <-]. destruct again; pquiet P Hp Epc.
  - (* VarUnlock *) destruct (is_set _ _); [|done]. intros [= <-]. destruct (_ =? _), again; pquiet P Hp Epc.
  - (* SemLock *) destruct (sem x); [done|]. intros [= <-]. pquiet P Hp Epc.
  - (* CheckWaiting *) intros [= <-]. destruct (lwWaiting x), c; pquiet P Hp Epc; by injection Hc1 as <-.
  - (* RetryOk *) intros [= <-]. pquiet P Hp Epc.
  - (* DequeueRemove *) intros [= <-]. eapply pending_upd; [exact P|exact Hp|..|pcases Epc]; [|done|].
    + cbn. intros q [_ ?]%list_elem_of_filter. by left.
    + right. right. right. split; [cbn; by intros [? _]%list_elem_of_filter|].
      exists c1. split; [|done]. by rewrite bool_decide_eq_false_2.
  - (* DequeueTest *) intros [= <-]. destruct (_ && _), found; pquiet P Hp Epc.
  - (* DequeueClear *) intros [= <-]. destruct found; pquiet P Hp Epc.
  - (* DequeueUnlock *) destruct (is_set _ _); [|done]. intros [= <-]. destruct found; pquiet P Hp Epc.
  - (* DequeueOk *) intros [= <-]. destruct Hloc as (_ & _ & _ & Hend). pquiet P Hp Epc.
    injection Hc1 as <-. left. unfold got. by rewrite (Hend Hm1).
  - (* DequeueSem *) destruct (sem x); [done|]. intros [= <-]. pquiet P Hp Epc.
  - (* DequeueCheck *) intros [= <-]. destruct (lwWaiting x); pquiet P Hp Epc.
  - (* DequeueRepost *) destruct absorbed; intros [= <-]; pquiet P Hp Epc.
  - (* Repost *) destruct extraWaits; intros [= <-]; pquiet P Hp Epc.
  - (* ReleaseSub *) intros Hs. eapply (pending_release st p x m); try done. unfold_step. by rewrite Epc.
  - (* WakeCollect *) intros Hs. eapply (pending_collect st p x); try done. unfold_step. by rewrite Epc.
  - (* WakeRead *) intros [= <-]. pquiet P Hp Epc.
  - (* WakeCAS *) destruct (Z.eqb _ _); intros [= <-]; pquiet P Hp Epc.
  - (* WakeNext *) destruct wakeup as [|w ws]; intros [= <-]; [pquiet P Hp Epc|].
    apply (pending_alter _ w (MkSystem (lock st) _)); [done|]. pquiet P Hp Epc.
  - (* WakePost *) intros [= <-]. apply (pending_alter _ waiter (MkSystem (lock st) _)); [done|]. pquiet P Hp Epc.
  - (* UpdateSet *) destruct (is_set _ _); [|done]. destruct (collect_var _ _) as [rest wakeup]. intros [= <-].
    apply pending_now, pending_self; [done|]. left. unfold owns. cbn. by rewrite Hloc.
  - (* UpdateUnlock *) destruct (is_set _ _); [|done]. intros [= <-]. pquiet P Hp Epc.
  - (* ClearSet *) intros [= <-]. pquiet P Hp Epc.
  - (* ClearUnlock *) destruct (held x); [|done]. destruct (is_set _ _); [|done]. intros [= <-]. pquiet P Hp Epc.
Qed.

End LwlockWake.
