(* ===== verification/LwlockVar.v ===== *)
(** * The variable that a lightweight lock protects

    [LWLockWaitForVar] sleeps until the lock is free or its variable has another
    value.  A step of a process keeps this: whoever sleeps for a change of the
    variable has seen its present value, or somebody who has changed it is about
    to wake it. *)

From S2P Require Import Prelude.
From S2P Require Import Words.
From S2P Require Import Lwlock.
From S2P Require Import LwlockInv.
From S2P Require Import LwlockWord.
From S2P Require Import LwlockLists.
From S2P Require Import LwlockWake.
From stdpp Require Import list.

Import Words Lwlock LwlockInv LwlockWord LwlockLists LwlockWake.

Open Scope Z_scope.

Module LwlockVar.

(** In the wait list for a change of the variable, with [LW_FLAG_RELEASE_OK]
    set; asleep there. *)
Definition eager (c : pc) : bool :=
  match c with
  | QueueUnlock _ _ | VarReleaseOk _ _ => false
  | _ => match queued_in c with Some (WaitForVar _) => true | _ => false end
  end.

Definition sleeps_for (c : pc) : option Z :=
  match c with SemLock (WaitForVar v) _ | CheckWaiting (WaitForVar v) _ => Some v | _ => None end.

(** Has changed the variable, or may be the last to release the lock after that. *)
Definition changes (x : proc) : bool :=
  match at_pc x with
  | ClearUnlock | ReleaseSub _ => true
  | c => waking c || shares x
  end.
Definition changing (st : system) : Prop := exists p x, procs st !! p = Some x /\ changes x = true.

Definition collecting (c : pc) : bool :=
  match c with WakeRead _ _ | WakeCAS _ _ _ => true | _ => false end.

(** Nobody in the list waits for a change. *)
Definition none_until_free (m : nat -> LWLockMode) (ws : list nat) : Prop :=
  Forall (fun w => m w <> LW_WAIT_UNTIL_FREE) ws.

Record var_inv (st : system) : Prop := {
  v_front : exists us rs, waiters (lock st) = us ++ rs /\
    Forall (fun w => mode_in (procs st) w = LW_WAIT_UNTIL_FREE) us /\ none_until_free (mode_in (procs st)) rs;
  v_none : forall p x, procs st !! p = Some x -> collecting (at_pc x) = true ->
    none_until_free (mode_in (procs st)) (waiters (lock st));
  v_ok : forall p x, procs st !! p = Some x -> p ∈ waiters (lock st) -> eager (at_pc x) = true -> release_ok st = true;
  v_value : forall p x v a n value, procs st !! p = Some x -> at_pc x = VarUnlock v a n value -> value = valptr (lock st);
  v_sleep : forall p x v, procs st !! p = Some x -> p ∈ waiters (lock st) -> sleeps_for (at_pc x) = Some v ->
    valptr (lock st) = v \/ changing st }.

Lemma Forall_sublist {A} (P : A -> Prop) l k : k `sublist_of` l -> Forall P l -> Forall P k.
Proof. intros Hs%sublist_subseteq. rewrite !Forall_forall. auto. Qed.

Lemma mode_in_upd ps p x x' w :
  ps !! p = Some x -> lwWaitMode x' = lwWaitMode x -> mode_in (<[p := x']> ps) w = mode_in ps w.
Proof.
  intros Hp Hm. unfold mode_in. destruct (decide (w = p)) as [->|].
  - by rewrite (lookup_upd_eq _ _ _ _ Hp), Hp, Hm.
  - by rewrite list_lookup_insert_ne.
Qed.

Lemma eager_mode st p x :
  list_inv st -> procs st !! p = Some x -> p ∈ waiters (lock st) -> eager (at_pc x) = true ->
  mode_in (procs st) p = LW_WAIT_UNTIL_FREE.
Proof.
  intros Q Hp Hw He. destruct (q_wait _ Q p x Hp Hw) as (c & Hc & _ & Hm). unfold mode_in. rewrite Hp, Hm.
  assert (exists v, c = WaitForVar v) as [v ->]; [|done].
  unfold eager in He. rewrite Hc in He. destruct (at_pc x); try done; destruct c; try done; by eexists.
Qed.

Lemma sleeps_for_eager c v : sleeps_for c = Some v -> eager c = true.
Proof. by destruct c; try done; destruct c. Qed.

Section VarUpd.
Context (st : system) (p : nat) (x x' : proc) (l' : LWLock).
Context (W : word_inv st) (Q : list_inv st) (V : var_inv st) (Hp : procs st !! p = Some x).
Let st' := MkSystem l' (<[p := x']> (procs st)).
Let m := mode_in (procs st).

(** Somebody sleeps who should be woken. *)
Definition overslept : Prop :=
  exists q y v, <[p := x']> (procs st) !! q = Some y /\ q ∈ waiters l' /\ sleeps_for (at_pc y) = Some v /\
    procs st !! q = Some (if bool_decide (q = p) then x else y).

Context (Hmode : lwWaitMode x' = lwWaitMode x) (Hsub : waiters l' `sublist_of` waiters (lock st)).
Context (Hro : release_ok st = true -> release_ok st' = true \/ none_until_free m (waiters l')).
Context (Heager : p ∈ waiters l' -> eager (at_pc x') = true -> eager (at_pc x) = true \/ release_ok st' = true).
Context (Hnone : collecting (at_pc x') = true -> none_until_free m (waiters l')).
Context (Hval : forall v a n value, at_pc x' = VarUnlock v a n value -> value = valptr l').
Context (Hvar : valptr l' = valptr (lock st) \/
  inside (at_pc x) = true /\ (none_until_free m (waiters l') \/ at_pc x' = ClearUnlock)).
Context (Hsleep : forall v, sleeps_for (at_pc x') = Some v -> sleeps_for (at_pc x) = Some v \/ valptr l' = v).
Context (Hchg : changes x = true -> changes x' = true \/ none_until_free m (waiters l') \/ (overslept -> changing st')).

Let Hin (q : nat) : q ∈ waiters l' -> q ∈ waiters (lock st).
Proof. intros Hq. by eapply elem_of_sublist. Qed.

Let Hno (q : nat) : none_until_free m (waiters l') -> q ∈ waiters l' -> m q = LW_WAIT_UNTIL_FREE -> False.
Proof. intros Hn Hq. unfold none_until_free in Hn. rewrite Forall_forall in Hn. by apply Hn. Qed.

Lemma none_upd ws : none_until_free m ws -> none_until_free (mode_in (<[p := x']> (procs st))) ws.
Proof. apply List.Forall_impl. intros w Hw. by rewrite (mode_in_upd _ _ _ _ _ Hp Hmode). Qed.

Lemma var_upd_sleep q y v :
  <[p := x']> (procs st) !! q = Some y -> q ∈ waiters l' -> sleeps_for (at_pc y) = Some v ->
  valptr l' = v \/ changing st'.
Proof.
  intros Hq Hw Hs.
  assert (Hy : valptr l' = v \/ exists y0, procs st !! q = Some y0 /\ sleeps_for (at_pc y0) = Some v /\
    y0 = if bool_decide (q = p) then x else y).
  { destruct (lookup_upd _ _ _ _ _ _ Hp Hq) as [[-> ->]|[Hne Hq']].
    - rewrite bool_decide_eq_true_2 by done. destruct (Hsleep v Hs); [right; by exists x|by left].
    - rewrite bool_decide_eq_false_2 by done. right. by exists y. }
  destruct Hy as [?|(y0 & Hq0 & Hs0 & ->)]; [by left|].
  assert (Hm : m q = LW_WAIT_UNTIL_FREE) by (eapply eager_mode; [done|exact Hq0|by apply Hin|by eapply sleeps_for_eager]).
  destruct Hvar as [E|[_ [Hn|E]]]; [|by destruct (Hno q Hn Hw Hm)|right; exists p, x'; split; [by eapply lookup_upd_eq|by unfold changes; rewrite E]].
  destruct (v_sleep _ V q _ v Hq0 (Hin q Hw) Hs0) as [Hv|(r & z & Hr & Hz)]; [left; congruence|right].
  destruct (decide (r = p)) as [->|Hne]; [|exists r, z; split; [unfold st'; cbn; by rewrite list_lookup_insert_ne|done]].
  assert (z = x) as -> by congruence. destruct (Hchg Hz) as [Hz'|[Hn|Hc]].
  - exists p, x'. split; [by eapply lookup_upd_eq|done].
  - by destruct (Hno q Hn Hw Hm).
  - apply Hc. by exists q, y, v.
Qed.

Lemma var_upd : var_inv st'.
Proof.
  split; unfold st'; cbn [lock procs].
  - destruct (v_front _ V) as (us & rs & E & Hu & Hr). rewrite E in Hsub.
    apply sublist_app_r in Hsub as (us' & rs' & -> & Hus & Hrs). exists us', rs'. split; [done|]. split.
    + eapply List.Forall_impl; [|eapply Forall_sublist; [exact Hus|exact Hu]]. intros w Hw. cbn in Hw. by rewrite (mode_in_upd _ _ _ _ _ Hp Hmode).
    + apply none_upd. by eapply Forall_sublist.
  - intros q y Hq Hc. apply none_upd. destruct (lookup_upd _ _ _ _ _ _ Hp Hq) as [[-> ->]|[_ Hq']]; [by apply Hnone|].
    eapply Forall_sublist; [done|by eapply (v_none _ V)].
  - intros q y Hq Hw He. fold st'.
    assert (Hold : release_ok st' = true \/ eager (at_pc y) = true /\ exists y0, procs st !! q = Some y0 /\ eager (at_pc y0) = true).
    { destruct (lookup_upd _ _ _ _ _ _ Hp Hq) as [[-> ->]|[_ Hq']]; [|right; split; [done|by exists y]].
      destruct (Heager Hw He); [right; split; [done|by exists x]|by left]. }
    destruct Hold as [?|(_ & y0 & Hy0 & He0)]; [done|].
    destruct Hro as [?|Hn]; [by eapply (v_ok _ V); [exact Hy0|apply Hin|]|done|].
    destruct (Hno q Hn Hw). by eapply eager_mode; [|exact Hy0|apply Hin|].
  - intros q y v a n value Hq Hy. destruct (lookup_upd _ _ _ _ _ _ Hp Hq) as [[-> ->]|[Hne Hq']]; [by eapply Hval|].
    destruct Hvar as [->|[Hi _]]; [by eapply (v_value _ V)|].
    destruct (inside_unique st p x q y W Hp Hq' Hi); [by rewrite Hy|done].
  - intros q y v. apply var_upd_sleep.
Qed.
End VarUpd.

(** ** What the loops leave in the list *)

Lemma collect_sublist m ws : forall b rest wakeup ok, collect m ws b = (rest, wakeup, ok) -> rest `sublist_of` ws.
Proof.
  induction ws as [|w ws IH]; intros b rest wakeup ok; cbn [collect]; [by intros [= <- _ _]|].
  destruct (b && _); [|case_bool_decide].
  - destruct (collect m ws b) as [[r k] o] eqn:E. intros [= <- _ _]. apply sublist_skip. by eapply IH.
  - intros [= <- _ _]. by apply sublist_cons.
  - destruct (collect m ws _) as [[r k] o] eqn:E. intros [= <- _ _]. apply sublist_cons. by eapply IH.
Qed.

Lemma collect_none m us rs : forall b rest wakeup ok,
  Forall (fun w => m w = LW_WAIT_UNTIL_FREE) us -> none_until_free m rs ->
  collect m (us ++ rs) b = (rest, wakeup, ok) -> none_until_free m rest.
Proof.
  induction us as [|w us IH]; intros b rest wakeup ok Hu Hr.
  - intros H%collect_sublist. by eapply Forall_sublist.
  - apply Forall_cons in Hu as [Hw Hu]. cbn [collect app].
    rewrite (bool_decide_eq_false_2 (m w = LW_EXCLUSIVE)) by congruence. rewrite andb_false_r.
    destruct (collect m (us ++ rs) _) as [[r k] o] eqn:E. intros [= <- _ _]. by eapply IH.
Qed.

Lemma collect_var_none m us rs rest wakeup :
  Forall (fun w => m w = LW_WAIT_UNTIL_FREE) us -> none_until_free m rs ->
  collect_var m (us ++ rs) = (rest, wakeup) -> rest = rs.
Proof.
  intros Hu Hr. revert rest wakeup. induction Hu as [|w us Hw Hu IH]; intros rest wakeup.
  - destruct Hr as [|w rs Hw Hr]; cbn; [by intros [= <- _]|]. rewrite bool_decide_eq_true_2 by done. by intros [= <- _].
  - cbn. rewrite bool_decide_eq_false_2 by (intros H; by apply H).
    destruct (collect_var m (us ++ rs)) as [r k] eqn:E. intros [= <- _]. by eapply IH.
Qed.

Section VarStep.
Context (st : system) (p : nat) (x : proc).
Context (W : word_inv st) (Q : list_inv st) (V : var_inv st) (Hp : procs st !! p = Some x).

(** Those who wait for a change join the list in front. *)
Lemma var_push c n :
  at_pc x = QueuePush c n ->
  let ws := match wait_mode c with LW_WAIT_UNTIL_FREE => p :: waiters (lock st) | _ => waiters (lock st) ++ [p] end in
  var_inv (MkSystem (set_waiters ws (lock st))
    (<[p := set_pc (QueueUnlock c n) (set_waiting true (set_mode (wait_mode c) x))]> (procs st))).
Proof.
  intros Epc ws. set (x' := set_pc _ _). set (ps' := <[p := x']> (procs st)).
  pose proof (w_local _ W p x Hp) as Hloc. unfold local in Hloc. rewrite Epc in Hloc. destruct Hloc as (_ & Hh & _).
  assert (Hn : p ∉ listed st) by (eapply not_listed; [done..|right; by rewrite Epc]).
  assert (Hm : forall w, w ∈ waiters (lock st) -> mode_in ps' w = mode_in (procs st) w).
  { intros w Hw. unfold mode_in, ps'. rewrite list_lookup_insert_ne; [done|]. intros <-.
    apply Hn. apply elem_of_app. by left. }
  assert (Hmp : mode_in ps' p = wait_mode c) by (unfold mode_in, ps'; by rewrite (lookup_upd_eq _ _ _ _ Hp)).
  assert (Hws : forall q, q ∈ ws -> q = p \/ q ∈ waiters (lock st)).
  { intros q. unfold ws. destruct (wait_mode c); rewrite ?elem_of_app, ?elem_of_cons, ?elem_of_nil; tauto. }
  assert (Hch : changing st -> changing (MkSystem (set_waiters ws (lock st)) ps')).
  { intros (q & y & Hq & Hy). exists q, y. split; [|done]. cbn. unfold ps'. rewrite list_lookup_insert_ne; [done|].
    intros <-. assert (y = x) as -> by congruence. unfold changes, shares, owns in Hy. by rewrite Epc, Hh in Hy. }
  split; cbn [lock procs waiters set_waiters valptr].
  - destruct (v_front _ V) as (us & rs & E & Hu & Hr). unfold none_until_free in *. rewrite Forall_forall in Hu, Hr.
    assert (Hu' : Forall (fun w => mode_in ps' w = LW_WAIT_UNTIL_FREE) us).
    { apply Forall_forall. intros w Hw. rewrite Hm; [by apply Hu|]. rewrite E. apply elem_of_app. by left. }
    assert (Hr' : Forall (fun w => mode_in ps' w <> LW_WAIT_UNTIL_FREE) rs).
    { apply Forall_forall. intros w Hw. rewrite Hm; [by apply Hr|]. rewrite E. apply elem_of_app. by right. }
    unfold ws. rewrite E. destruct (wait_mode c) eqn:Ec; [exists us, (rs ++ [p])..|exists (p :: us), rs].
    1,2: rewrite <- app_assoc; split; [done|]; split; [done|]; apply Forall_app; split; [done|];
      apply Forall_singleton; by rewrite Hmp.
    split; [done|]. split; [by constructor|done].
  - intros q y Hq Hc. exfalso. destruct (lookup_upd _ _ _ _ _ _ Hp Hq) as [[-> ->]|[Hne Hq']]; [done|].
    destruct (inside_unique st p x q y W Hp Hq'); [by rewrite Epc|by destruct (at_pc y)|done].
  - intros q y Hq Hw He. destruct (lookup_upd _ _ _ _ _ _ Hp Hq) as [[-> ->]|[Hne Hq']]; [done|].
    destruct (Hws q Hw) as [?|Hw']; [done|]. change (release_ok st = true). by eapply (v_ok _ V).
  - intros q y v a k value Hq Hy. destruct (lookup_upd _ _ _ _ _ _ Hp Hq) as [[-> ->]|[Hne Hq']]; [done|].
    by eapply (v_value _ V).
  - intros q y v Hq Hw Hs. destruct (lookup_upd _ _ _ _ _ _ Hp Hq) as [[-> ->]|[Hne Hq']]; [done|].
    destruct (Hws q Hw) as [?|Hw']; [done|]. destruct (v_sleep _ V q y v Hq' Hw' Hs); [by left|right; by apply Hch].
Qed.

(** If the lock is not free after a release then somebody else shares it. *)
Lemma another_sharer m :
  owns x = Some m -> m = LW_SHARED \/ m = LW_EXCLUSIVE -> value (procs st) - lock_value m <> 0 ->
  exists r z, r <> p /\ procs st !! r = Some z /\ shares z = true.
Proof.
  intros Ho Hm Hz. pose proof (owner_counted st p x m W Hp Ho Hm) as Hc.
  pose proof (countb_nonneg shares (procs st)). pose proof (countb_nonneg excludes (procs st)).
  set (x0 := set_held None (set_pc Idle x)).
  assert (Hs : 0 < countb shares (<[p := x0]> (procs st))).
  { rewrite (countb_insert _ _ _ _ _ Hp). change (shares x0) with false. unfold shares at 2. rewrite Ho.
    unfold value in Hz. pose proof (w_excl _ W) as He.
    destruct Hc as [[-> Hc]|[-> Hc]]; unfold lock_value, LW_VAL_EXCLUSIVE, LW_VAL_SHARED in Hz; rewrite ?Z.shiftl_1_l in Hz.
    - rewrite bool_decide_eq_true_2 by done. cbn [Z.b2z]. lia.
    - lia. }
  apply countb_lookup in Hs as (r & z & Hr & Hzs). destruct (lookup_upd _ _ _ _ _ _ Hp Hr) as [[-> ->]|[Hne Hr']]; [done|].
  by exists r, z.
Qed.

(** The last to release the lock will wake those who wait for a change. *)
Lemma var_release m x' l' :
  flag_inv st -> at_pc x = ReleaseSub m ->
  step_proc p st x = Done (MkSystem l' (<[p := x']> (procs st))) -> waiters l' = waiters (lock st) ->
  overslept st p x x' l' -> changing (MkSystem l' (<[p := x']> (procs st))).
Proof.
  intros F Epc Hstep Hwt (q & y & v & Hq & Hw & Hs & Hold).
  pose proof (w_local _ W p x Hp) as Hloc. unfold local in Hloc. rewrite Epc in Hloc. destruct Hloc as (_ & Hh & Hm).
  assert (Ho : owns x = Some m) by (unfold owns; by rewrite Epc).
  pose proof (owner_value st p x m W Hp Ho Hm) as Hv.
  assert (Hro : release_ok st = true).
  { rewrite Hwt in Hw. eapply (v_ok _ V q); [exact Hold|done|]. case_bool_decide as E; [|by eapply sleeps_for_eager].
    exfalso. revert Hstep. subst q. rewrite (lookup_upd_eq _ _ _ _ Hp) in Hq. injection Hq as <-.
    unfold_step. rewrite Epc. cbn zeta. destruct (is_set _ _); [done|]. intros [= _ E].
    pose proof (lookup_upd_eq _ _ _ x' Hp) as H1. rewrite <- E, (lookup_upd_eq _ _ _ _ Hp) in H1. injection H1 as <-.
    cbn in Hs. by destruct (_ && _). }
  assert (Hhw : has_waiters st = true) by (apply (f_hw _ F); rewrite <- Hwt; intros E; rewrite E in Hw; by apply elem_of_nil in Hw).
  assert (Hx : changes x' = true \/ value (procs st) - lock_value m <> 0).
  { revert Hstep. unfold_step. rewrite Epc. cbn zeta.
    rewrite (w_state _ W), <- Z.add_opp_r, word_u32, word_check_waiters, word_value, Hro, Hhw by lia.
    destruct (is_set _ _); [done|]. destruct (Z.eqb_spec (value (procs st) + - lock_value m) 0) as [|Hz]; [|right; lia].
    intros [= _ E]. left. pose proof (lookup_upd_eq _ _ _ x' Hp) as H1.
    rewrite <- E, (lookup_upd_eq _ _ _ _ Hp) in H1. by injection H1 as <-. }
  destruct Hx as [Hx|Hz]; [exists p, x'; split; [by eapply lookup_upd_eq|done]|].
  assert (Hm' : m = LW_SHARED \/ m = LW_EXCLUSIVE) by (destruct m; by auto).
  destruct (another_sharer m Ho Hm' Hz) as (r & z & Hne & Hr & Hzs).
  exists r, z. split; [cbn; by rewrite list_lookup_insert_ne|]. unfold changes. rewrite Hzs. destruct (at_pc z); try done; by rewrite orb_true_r.
Qed.
End VarStep.


(** A step without effect on the waits, by computation. *)
Ltac vquiet W Q V Hp Epc :=
  eapply var_upd; [exact W|exact Q|exact V|exact Hp|reflexivity|reflexivity
    |intros; left; by flags
    |cbn [set_pc at_pc set_waiting set_held set_sem set_returned]; rewrite Epc; try done; try (by left)
    |cbn [set_pc at_pc set_waiting set_held set_sem set_returned]; try done
    |cbn [set_pc at_pc set_waiting set_held set_sem set_returned]; try done
    |by left
    |cbn [set_pc at_pc set_waiting set_held set_sem set_returned]; rewrite Epc; try done; try (by left)
    |unfold changes, shares, owns; cbn [set_pc at_pc set_waiting set_held set_sem set_returned held]; rewrite Epc; try done; try (by left)].

Lemma var_alter f w st :
  (forall y, at_pc (f y) = at_pc y /\ lwWaitMode (f y) = lwWaitMode y /\ held (f y) = held y) ->
  var_inv st -> var_inv (MkSystem (lock st) (alter f w (procs st))).
Proof.
  intros Hf V.
  assert (Hm : forall q, mode_in (alter f w (procs st)) q = mode_in (procs st) q).
  { intros q. unfold mode_in. destruct (decide (q = w)) as [->|].
    - rewrite list_lookup_alter_eq. destruct (procs st !! w) as [y|]; [|done]. cbn. by apply Hf.
    - by rewrite list_lookup_alter_ne. }
  assert (Hsrc : forall q y, alter f w (procs st) !! q = Some y -> exists y0, procs st !! q = Some y0 /\ at_pc y = at_pc y0).
  { intros q y (y0 & Hy0 & ->)%lookup_alter_inv. exists y0. split; [done|]. case_bool_decide; [by apply Hf|done]. }
  assert (Hch : changing st -> changing (MkSystem (lock st) (alter f w (procs st)))).
  { intros (q & y & Hq & Hy). destruct (decide (q = w)) as [->|Hne].
    - exists w, (f y). cbn. rewrite list_lookup_alter_eq, Hq. split; [done|].
      unfold changes, shares, owns in *. by destruct (Hf y) as (-> & _ & ->).
    - exists q, y. cbn. by rewrite list_lookup_alter_ne. }
  assert (Hnn : forall ws, none_until_free (mode_in (procs st)) ws -> none_until_free (mode_in (alter f w (procs st))) ws).
  { intros ws. apply List.Forall_impl. intros q Hq. by rewrite Hm. }
  destruct V as [V1 V2 V3 V4 V5]. split; cbn [lock procs].
  - destruct V1 as (us & rs & E & Hu & Hr). exists us, rs. split; [done|]. split; [|by apply Hnn].
    eapply List.Forall_impl; [|exact Hu]. intros q Hq. cbn in Hq. by rewrite Hm.
  - intros q y (y0 & Hy0 & ->)%Hsrc Hc. apply Hnn. by eapply V2.
  - intros q y (y0 & Hy0 & ->)%Hsrc Hw He. by eapply (V3 q y0).
  - intros q y v a n value (y0 & Hy0 & ->)%Hsrc Hc. by eapply V4.
  - intros q y v (y0 & Hy0 & ->)%Hsrc Hw Hs. destruct (V5 q y0 v Hy0 Hw Hs); [by left|right; by apply Hch].
Qed.

Lemma var_step st p x st' :
  word_inv st -> list_inv st -> flag_inv st -> var_inv st -> procs st !! p = Some x ->
  step_proc p st x = Done st' -> var_inv st'.
Proof.
  intros W Q F V Hp. pose proof (w_local _ W p x Hp) as [_ Hloc].
  unfold_step. destruct (at_pc x) eqn:Epc; try done; cbn zeta.
  - (* AttemptRead *) intros [= <-]. vquiet W Q V Hp Epc.
  - (* AttemptCAS *) destruct (Z.eqb_spec (state (lock st)) old_state) as [<-|]; intros [= <-]; [|destruct again; vquiet W Q V Hp Epc].
    destruct Hloc as (Hh & Hm & Hq).
    eapply var_upd; [exact W|exact Q|exact V|exact Hp|done|done|..]; cbn [set_pc at_pc].
    + intros Hro. left. by rewrite (proj2 (desired_flags st p x c again extraWaits _ W Hp Epc)).
    + intros _. destruct c, again, (lock_free _ _); try done; rewrite Epc; by left.
    + by destruct c, again, (lock_free _ _).
    + by destruct c, again, (lock_free _ _).
    + by left.
    + by destruct c, again, (lock_free _ _).
    + unfold changes, shares, owns. by rewrite Epc, Hh.
  - (* ListLock *) intros [= <-]. destruct (is_set _ _); [|destruct k as [| ? [] | | | |]]; vquiet W Q V Hp Epc.
  - (* ListSpin *) intros [= <-]. destruct (is_set _ _); vquiet W Q V Hp Epc.
  - (* QueueStart *) destruct (lwWaiting x); [done|]. intros [= <-]. vquiet W Q V Hp Epc.
  - (* QueueFlag *) intros [= <-]. vquiet W Q V Hp Epc.
  - (* QueuePush *) intros [= <-]. by apply var_push.
  - (* QueueUnlock *) destruct (is_set _ _); [|done]. intros [= <-]. destruct c; vquiet W Q V Hp Epc.
  - (* VarReleaseOk *) intros [= <-]. vquiet W Q V Hp Epc. intros _ _. right. by flags.
  - (* VarState *) intros [= <-]. destruct (is_set _ _), again; vquiet W Q V Hp Epc.
  - (* VarValue *) intros [= <-]. destruct again; vquiet W Q V Hp Epc; by intros v a n value [= _ _ <-].
  - (* VarUnlock *) destruct (is_set _ _); [|done]. intros [= <-]. destruct (Z.eqb_spec value0 oldval) as [Ev|], again; vquiet W Q V Hp Epc.
    intros v [= <-]. right. by rewrite <- Ev, (v_value _ V p x _ _ _ _ Hp Epc).
  - (* SemLock *) destruct (sem x); [done|]. intros [= <-]. vquiet W Q V Hp Epc.
  - (* CheckWaiting *) intros [= <-]. destruct (lwWaiting x), c; vquiet W Q V Hp Epc.
  - (* RetryOk *) intros [= <-]. vquiet W Q V Hp Epc.
  - (* DequeueRemove *) intros [= <-]. eapply var_upd; [exact W|exact Q|exact V|exact Hp|done|..]; cbn [set_pc at_pc]; try done.
    + apply sublist_filter.
    + intros Hro. by left.
    + by left.
    + unfold changes, shares, owns. rewrite Epc. by left.
  - (* DequeueTest *) intros [= <-]. destruct (_ && _), found; vquiet W Q V Hp Epc.
  - (* DequeueClear *) intros [= <-]. destruct found; vquiet W Q V Hp Epc.
  - (* DequeueUnlock *) destruct (is_set _ _); [|done]. intros [= <-]. destruct found; vquiet W Q V Hp Epc.
  - (* DequeueOk *) intros [= <-]. vquiet W Q V Hp Epc.
  - (* DequeueSem *) destruct (sem x); [done|]. intros [= <-]. vquiet W Q V Hp Epc.
  - (* DequeueCheck *) intros [= <-]. destruct (lwWaiting x); vquiet W Q V Hp Epc.
  - (* DequeueRepost *) destruct absorbed; intros [= <-]; vquiet W Q V Hp Epc.
  - (* Repost *) destruct extraWaits; intros [= <-]; vquiet W Q V Hp Epc.
  - (* ReleaseSub *) destruct (is_set _ _) eqn:Ex; [done|]. intros [= <-].
    eapply var_upd; [exact W|exact Q|exact V|exact Hp|done|done|..]; cbn [set_pc at_pc].
    + intros Hro. left. by rewrite (proj2 (release_flags st p x m _ W Hp Epc)).
    + by destruct (_ && _).
    + by destruct (_ && _).
    + by destruct (_ && _).
    + by left.
    + by destruct (_ && _).
    + intros _. right. right. eapply (var_release st p x W V Hp m); [done|done| |done].
      unfold_step. rewrite Epc. cbn zeta. by rewrite Ex.
  - (* WakeCollect *) destruct (collect _ _ _) as [[rest wakeup] ok] eqn:Ec. destruct (_ || _); [|done]. intros [= <-].
    assert (Hnone : none_until_free (mode_in (procs st)) rest).
    { destruct (v_front _ V) as (us & rs & E & Hu & Hr). rewrite E in Ec. by eapply collect_none. }
    eapply var_upd; [exact W|exact Q|exact V|exact Hp|done|by eapply collect_sublist|..]; cbn [set_pc at_pc]; try done.
    + intros Hro. by left.
    + by left.
    + intros _. right. by left.
  - (* WakeRead *) intros [= <-]. vquiet W Q V Hp Epc. intros _. eapply (v_none _ V p x Hp). by rewrite Epc.
  - (* WakeCAS *) assert (Hnone : none_until_free (mode_in (procs st)) (waiters (lock st)))
      by (eapply (v_none _ V p x Hp); by rewrite Epc).
    destruct (Z.eqb_spec (state (lock st)) old_state) as [<-|]; intros [= <-]; [|by vquiet W Q V Hp Epc].
    eapply var_upd; [exact W|exact Q|exact V|exact Hp|done|done|..]; cbn [set_pc at_pc]; try done.
    + intros _. by right.
    + by left.
    + unfold changes, shares, owns. rewrite Epc. by left.
  - (* WakeNext *) destruct wakeup as [|w ws]; intros [= <-]; [vquiet W Q V Hp Epc|].
    apply (var_alter _ w (MkSystem (lock st) _)); [done|]. vquiet W Q V Hp Epc.
  - (* WakePost *) intros [= <-]. apply (var_alter _ waiter (MkSystem (lock st) _)); [done|]. vquiet W Q V Hp Epc.
  - (* UpdateSet *) destruct (is_set _ _); [|done]. destruct (collect_var _ _) as [rest wakeup] eqn:Ec. intros [= <-].
    destruct (v_front _ V) as (us & rs & E & Hu & Hr). rewrite E in Ec.
    rewrite (collect_var_none _ _ _ _ _ Hu Hr Ec) in *.
    eapply var_upd; [exact W|exact Q|exact V|exact Hp|done|..]; cbn [set_pc at_pc waiters set_waiters set_var lock]; try done.
    + rewrite E. apply sublist_inserts_l. done.
    + intros Hro. by left.
    + right. rewrite Epc. split; [done|by left].
    + intros _. right. by left.
  - (* UpdateUnlock *) destruct (is_set _ _); [|done]. intros [= <-]. vquiet W Q V Hp Epc.
  - (* ClearSet *) intros [= <-].
    eapply var_upd; [exact W|exact Q|exact V|exact Hp|done|done|..]; cbn [set_pc at_pc]; try done.
    + intros Hro. by left.
    + right. rewrite Epc. split; [done|by right].
    + by left.
  - (* ClearUnlock *) destruct (held x); [|done]. destruct (is_set _ _); [|done]. intros [= <-]. vquiet W Q V Hp Epc.
Qed.

End LwlockVar.
