(* ===== verification/LwlockRuns.v ===== *)
(** * The runs of a lightweight lock

    The invariant holds in every state that can be reached; so an exclusive
    owner is alone, no assertion of the code fails, nobody sleeps for ever on a
    free lock, and nobody misses a change of its variable. *)

From S2P Require Import Prelude.
From S2P Require Import Words.
From S2P Require Varsup.
From S2P Require Import Lwlock.
From S2P Require Import LwlockInv.
From S2P Require Import LwlockWord.
From S2P Require Import LwlockLists.
From S2P Require Import LwlockWake.
From S2P Require Import LwlockVar.
From stdpp Require Import list.

Import Words Lwlock LwlockInv LwlockWord LwlockLists LwlockWake LwlockVar.

Open Scope Z_scope.

Module LwlockRuns.

(** ** The invariant holds *)

Lemma new_procs sems p x : map new_proc sems !! p = Some x -> exists n, x = new_proc n.
Proof. change (map new_proc sems) with (new_proc <$> sems). rewrite list_lookup_fmap. intros (n & _ & ->)%fmap_Some. by exists n. Qed.

Lemma inv_init sems : Z.of_nat (length sems) <= Varsup.Varsup.MAX_BACKENDS -> inv (MkSystem LWLockInitialize (map new_proc sems)).
Proof.
  intros Hlen.
  assert (Hz : forall f, (forall n, f (new_proc n) = false) -> countb f (map new_proc sems) = 0).
  { intros f Hf. apply countb_0. by intros x (n & -> & _)%list_elem_of_fmap. }
  assert (Hw : wakeups (map new_proc sems) = []).
  { clear. unfold wakeups. by induction sems as [|n l IH]. }
  split.
  - split; cbn [lock procs].
    + by intros p x (n & ->)%new_procs.
    + by rewrite length_map.
    + unfold value. by rewrite !Hz.
    + by rewrite Hz.
    + left. by apply Hz.
  - unfold waits_in. split; cbn [lock procs]; unfold listed; cbn [lock procs]; rewrite ?Hw.
    + constructor.
    + by intros p Hp%elem_of_nil.
    + by intros p x _ Hp%elem_of_nil.
    + by intros p x q y _ (n & ->)%new_procs Hp%elem_of_nil.
    + by intros p x q y _ (n & ->)%new_procs Hp%elem_of_nil.
    + by intros p x (n & ->)%new_procs.
  - split; cbn [lock procs]; [done|..].
    + by intros p x c n (k & ->)%new_procs.
    + by intros p x c n o f (k & ->)%new_procs.
    + by intros p x ok old (k & ->)%new_procs [?|?].
    + by intros p x ws old (k & ->)%new_procs [?|?].
  - by intros p x (n & ->)%new_procs.
  - done.
  - by intros p x _ Hp%elem_of_nil.
Qed.

Lemma inv_step st p x st' : inv st -> procs st !! p = Some x -> step_proc p st x = Done st' -> inv st'.
Proof.
  intros [W Q F S R P] Hp Hs. split.
  - by eapply word_step.
  - by eapply list_step.
  - by eapply flag_step.
  - by eapply sleep_step.
  - by eapply retry_step.
  - by eapply pending_step.
Qed.

(** The control points where a routine begins. *)
Record entered (x x' : proc) : Prop := {
  en_local : local x';
  en_owns : owns x' = owns x;
  en_same : lwWaiting x' = lwWaiting x /\ lwWaitMode x' = lwWaitMode x;
  en_inside : inside (at_pc x') = false;
  en_lists : inner (at_pc x') = [] /\ outer (at_pc x') = [] /\ queued_in (at_pc x') = None /\
    popped_in (at_pc x') = None /\ found_in (at_pc x') = false;
  en_var : collecting (at_pc x') = false /\ (forall v a n value, at_pc x' <> VarUnlock v a n value) /\
    eager (at_pc x') = false /\ sleeps_for (at_pc x') = None;
  en_free : unflagged (at_pc x') = true /\ awaits (at_pc x') = false /\ settled (at_pc x') = false }.

Lemma enter_spec r x x' : local x -> at_pc x = Idle -> enter r x = Some x' -> entered x x'.
Proof.
  unfold local. intros [Hm _] Epc. unfold enter. destruct r, (held x) as [h|] eqn:Eh; try done;
    repeat case_bool_decide; try done; try destruct h; try done; intros [= <-];
    (split; unfold local, owns, set_pc, set_held; cbn; rewrite ?Eh, ?Epc; try (split_and?; done)).
  all: split_and?; done.
Qed.

Lemma inv_call st p x x' r :
  inv st -> procs st !! p = Some x -> at_pc x = Idle -> enter r x = Some x' ->
  inv (MkSystem (lock st) (<[p := x']> (procs st))).
Proof.
  intros [W Q F S R P] Hp Epc He.
  destruct (enter_spec r x x' (w_local _ W p x Hp) Epc He) as [E1 E2 [E3 E3'] E4 (E5 & E6 & E7 & E8 & E9) _ (E10 & E11 & E12)].
  split.
  - eapply word_own; [done|done|done|done|done|by rewrite E4, Epc].
  - eapply list_quiet; [done|done|done|by rewrite E5, Epc|by rewrite E6, Epc|].
    left. unfold as_before. by rewrite E3, E3', E7, E8, E9, Epc.
  - by eapply flag_quiet.
  - eapply sleep_upd; [done|done|by rewrite Epc|by rewrite E11].
  - eapply retry_upd; [done|done|by left|]. intros Hro. split; [done|]. intros _ (c & Hc & _). by rewrite Epc in Hc.
  - eapply pending_upd; [done|done|by left|by rewrite E12|].
    intros [Ho|[Hk|[Ht|(_ & c & Hc & _)]]]; [left; by rewrite E2|by rewrite Epc in *..].
Qed.

Lemma var_call st p x x' r :
  inv st -> var_inv st -> procs st !! p = Some x -> at_pc x = Idle -> enter r x = Some x' ->
  var_inv (MkSystem (lock st) (<[p := x']> (procs st))).
Proof.
  intros [W Q _ _ _ _] V Hp Epc He.
  destruct (enter_spec r x x' (w_local _ W p x Hp) Epc He) as [_ E2 [_ E3] _ _ (E4 & E5 & E6 & E7) _].
  eapply var_upd; [exact W|exact Q|exact V|exact Hp|exact E3|reflexivity|by left|by rewrite E6|by rewrite E4|..].
  - intros v a n value Hpc. by destruct (E5 v a n value).
  - by left.
  - by rewrite E7.
  - unfold changes, shares. rewrite Epc, E2. cbn [waking orb]. intros ->. left.
    destruct (at_pc x'); try done; by rewrite orb_true_r.
Qed.

Lemma inv_post st p : inv st -> inv (MkSystem (lock st) (alter (fun y => set_sem (S (sem y)) y) p (procs st))).
Proof.
  intros [W Q F S R P]. split.
  - by apply word_alter.
  - by apply list_alter.
  - by apply flag_alter.
  - by apply sleep_env.
  - by apply retry_alter.
  - by apply pending_alter.
Qed.

Lemma inv_move st mv st' : inv st -> do_move mv st = Done st' -> inv st'.
Proof.
  intros I. destruct mv as [p r|p|p]; cbn.
  - destruct (procs st !! p) as [x|] eqn:Hp; [|done]. destruct (at_pc x) eqn:Epc; try done.
    destruct (enter r x) as [x'|] eqn:He; [|done]. intros [= <-]. by eapply inv_call.
  - destruct (procs st !! p) as [x|] eqn:Hp; [|done]. by apply inv_step.
  - intros [= <-]. by apply inv_post.
Qed.

Lemma var_move st mv st' : inv st -> var_inv st -> do_move mv st = Done st' -> var_inv st'.
Proof.
  intros I V. destruct mv as [p r|p|p]; cbn.
  - destruct (procs st !! p) as [x|] eqn:Hp; [|done]. destruct (at_pc x) eqn:Epc; try done.
    destruct (enter r x) as [x'|] eqn:He; [|done]. intros [= <-]. by eapply var_call.
  - destruct (procs st !! p) as [x|] eqn:Hp; [|done]. by apply var_step; destruct I.
  - intros [= <-]. by apply var_alter.
Qed.

Lemma var_init sems : var_inv (MkSystem LWLockInitialize (map new_proc sems)).
Proof.
  split; cbn [lock procs].
  - exists [], []. split; [done|]. split; constructor.
  - by intros p x (n & ->)%new_procs.
  - by intros p x (n & ->)%new_procs.
  - by intros p x v a k value (n & ->)%new_procs.
  - by intros p x v (n & ->)%new_procs.
Qed.

Lemma lwlock_inv st : reachable st -> inv st.
Proof. induction 1 as [sems Hs|st mv st' _ IH Hm]; [by apply inv_init|by eapply inv_move]. Qed.

Lemma lwlock_var st : reachable st -> var_inv st.
Proof.
  induction 1 as [sems Hs|st mv st' Hr IH Hm]; [by apply var_init|].
  by eapply var_move; [apply lwlock_inv|..].
Qed.

(** ** What the invariant gives *)

(** Holding a lock is owning it. *)
Lemma held_owns x m : local x -> held x = Some m -> owns x = Some m.
Proof.
  unfold local, owns. intros [_ Hl] Hh. rewrite Hh in Hl. destruct (at_pc x); try done;
    try (by destruct Hl); destruct k; try done; by destruct Hl.
Qed.

(** The asserts and the PANIC of the code. *)
Lemma inv_no_failure st p x : inv st -> procs st !! p = Some x -> step_proc p st x <> Failed.
Proof.
  intros [W Q F _ _ _] Hp. pose proof (w_local _ W p x Hp) as [_ Hloc].
  assert (Hin : inside (at_pc x) = true -> is_set (state (lock st)) LW_FLAG_LOCKED = true) by (by apply (inside_locked st p x)).
  pose proof (word_inv_value st W) as Hv.
  unfold_step. destruct (at_pc x) eqn:Epc; try done; cbn zeta; try rewrite (Hin eq_refl); try done.
  - (* AttemptCAS *) by destruct (_ =? _).
  - (* QueueStart *) destruct (lwWaiting x) eqn:Ew; [|done]. exfalso.
    destruct (q_waiting _ Q p x Hp Ew) as [Hl|Hf]; [|by rewrite Epc in Hf].
    eapply not_listed; [done|done| |exact Hl]. right. by rewrite Epc.
  - (* SemLock *) by destruct (sem x).
  - (* DequeueSem *) by destruct (sem x).
  - (* DequeueRepost *) by destruct absorbed.
  - (* Repost *) by destruct extraWaits.
  - (* ReleaseSub *) destruct Hloc as [_ Hm].
    pose proof (owner_value st p x m W Hp ltac:(unfold owns; by rewrite Epc) Hm) as Hv'.
    rewrite (w_state _ W) at 1. rewrite <- Z.add_opp_r, word_u32, word_exclusive by lia.
    destruct (Z.leb_spec (2 ^ 24) (value (procs st) + - lock_value m)); [lia|done].
  - (* WakeCollect *) destruct (collect _ _ _) as [[rest wakeup] ok] eqn:Ec. case_bool_decide as Hw; [done|].
    pose proof (co_perm _ _ _ _ _ _ (collect_spec _ _ _ _ _ _ Ec)) as Hperm.
    pose proof (f_hw _ F) as Hhw. unfold has_waiters in Hhw. rewrite Hhw; [done|]. intros E. rewrite E in Hperm.
    symmetry in Hperm. apply Permutation_nil, app_eq_nil in Hperm. by destruct Hperm.
  - (* WakeCAS *) by destruct (_ =? _).
  - (* WakeNext *) by destruct wakeup.
  - (* UpdateSet *) destruct (collect_var _ _) as [rest wakeup].
    assert (Ho : owns x = Some LW_EXCLUSIVE) by (unfold owns; by rewrite Epc).
    destruct (owner_counted st p x LW_EXCLUSIVE W Hp Ho) as [[? _]|[_ He]]; [by right|done|].
    pose proof (countb_nonneg shares (procs st)). rewrite (w_state _ W), word_exclusive by done.
    unfold value. destruct (Z.leb_spec (2 ^ 24) (countb shares (procs st) + 2 ^ 24 * countb excludes (procs st))); [done|lia].
  - (* ClearUnlock *) by destruct (held x).
Qed.

(** ** Sleepers *)

Definition asleep (x : proc) : Prop :=
  at_pc x = Idle \/ sem x = O /\ ((exists c n, at_pc x = SemLock c n) \/ exists c n o k, at_pc x = DequeueSem c n o k).

Lemma Asleep_asleep p st x : step_proc p st x = Asleep -> asleep x.
Proof.
  unfold_step; unfold asleep. destruct (at_pc x) eqn:Epc; cbn zeta; try done;
    repeat first [done | case_match]; intros _; try (by left); right; (split; [done|]); [left|right]; eauto.
Qed.

Section Quiescent.
Context (st : system) (I : inv st) (Hrun : forall p, do_move (Run p) st = Asleep).

Lemma all_asleep p x : procs st !! p = Some x -> asleep x.
Proof. intros Hp. specialize (Hrun p). cbn in Hrun. rewrite Hp in Hrun. by eapply Asleep_asleep. Qed.

(** A sleeper is in the wait list. *)
Lemma sleeper_waits p x : procs st !! p = Some x -> at_pc x <> Idle ->
  p ∈ waiters (lock st) /\ exists c n, at_pc x = SemLock c n.
Proof.
  intros Hp Hi. destruct I as [W Q F S R P]. destruct (all_asleep p x Hp) as [?|[Hsem Hpc]]; [done|].
  assert (Ha : awaits (at_pc x) = true) by (by destruct Hpc as [(c & n & ->)|(c & n & o & k & ->)]).
  assert (Hw : lwWaiting x = true).
  { destruct (lwWaiting x) eqn:Ew; [done|]. destruct (S p x Hp Ha Ew) as [?|(q & y & ws & Hq & Hy)]; [lia|].
    destruct (all_asleep q y Hq) as [E|[_ [(c & n & E)|(c & n & o & k & E)]]]; congruence. }
  assert (Hin : p ∈ waiters (lock st)).
  { destruct (q_waiting _ Q p x Hp Hw) as [[?|(q & y & Hq & Hy)]%listed_cases|Hf]; [done|..].
    - by destruct (all_asleep q y Hq) as [E|[_ [(c & n & E)|(c & n & o & k & E)]]];
        rewrite E in Hy; destruct Hy as [Hy|Hy]; apply elem_of_nil in Hy.
    - by destruct Hpc as [(c & n & E)|(c & n & o & k & E)]; rewrite E in Hf. }
  split; [done|]. destruct Hpc as [?|(c & n & o & k & E)]; [done|].
  destruct (q_wait _ Q p x Hp Hin) as (d & Hd & _). by rewrite E in Hd.
Qed.

Lemma quiescent_owner : (exists p x, procs st !! p = Some x /\ held x <> None) \/
  forall p x, procs st !! p = Some x -> at_pc x = Idle.
Proof.
  assert (Hdec : forall x, at_pc x = Idle \/ at_pc x <> Idle) by (intros x; destruct (at_pc x); first [by left|by right]).
  destruct (Forall_Exists_dec (fun x => at_pc x = Idle) (fun x => at_pc x <> Idle)) with (l := procs st) as [Hall|Hex].
  { intros x. destruct (at_pc x); first [by left|by right]. }
  - right. intros p x Hp. rewrite Forall_lookup in Hall. by eapply Hall.
  - left. apply Exists_exists in Hex as (x & [p Hp]%list_elem_of_lookup & Hx).
    destruct (sleeper_waits p x Hp Hx) as [Hin (c & n & E)].
    destruct (inv_pending _ I p x Hp Hin) as (r & z & Hr & Hz); [by rewrite E|].
    destruct (Hdec z) as [Ez|Ez].
    + destruct Hz as [Hz|[Hz|[Hz|(_ & d & Hz & _)]]]; [|by rewrite Ez in Hz..].
      exists r, z. split; [done|]. unfold owns in Hz. by rewrite Ez in Hz.
    + destruct (sleeper_waits r z Hr Ez) as [Hin' (d & k & E')].
      destruct Hz as [Hz|[Hz|[Hz|(Hn & _)]]]; [|by rewrite E' in Hz..|done].
      exists r, z. split; [done|]. unfold owns in Hz. by rewrite E' in Hz.
Qed.
(** Whoever sleeps for a change of the variable has seen its value, unless the
    lock is shared. *)
Lemma quiescent_value p x v n : var_inv st -> procs st !! p = Some x -> at_pc x = SemLock (WaitForVar v) n ->
  valptr (lock st) = v \/ exists q y, procs st !! q = Some y /\ held y = Some LW_SHARED.
Proof.
  intros V Hp Epc. destruct (sleeper_waits p x Hp) as [Hw _]; [by rewrite Epc|].
  destruct (v_sleep _ V p x v Hp Hw) as [?|(q & y & Hq & Hy)]; [by rewrite Epc|by left|right].
  exists q, y. split; [done|].
  assert (Hpc : at_pc y = Idle \/ exists c n, at_pc y = SemLock c n).
  { destruct (all_asleep q y Hq) as [?|[_ [?|(c & k & o & j & E)]]]; [by left|by right|].
    destruct (sleeper_waits q y Hq) as [_ (d & i & E')]; congruence. }
  unfold changes, shares, owns in Hy. destruct Hpc as [E|(c & k & E)]; rewrite E in Hy; by apply bool_decide_eq_true in Hy.
Qed.
End Quiescent.


(** ** Concrete runs *)

Fixpoint do_moves (ms : list move) (st : system) : option system :=
  match ms with
  | [] => Some st
  | mv :: ms' => match do_move mv st with Done st' => do_moves ms' st' | _ => None end
  end.

Lemma do_moves_reachable ms : forall st st', reachable st -> do_moves ms st = Some st' -> reachable st'.
Proof.
  induction ms as [|mv ms IH]; intros st st' Hr; cbn; [by intros [= <-]|].
  destruct (do_move mv st) as [| |st1] eqn:E; try done. intros H. eapply IH; [|exact H]. by eapply reach_move.
Qed.

Definition start (n : nat) : system := MkSystem LWLockInitialize (map new_proc (repeat O n)).

(** Calls, and a process that runs for so many steps. *)
Definition steps (p n : nat) : list move := repeat (Run p) n.

(** Process 1 finds the lock taken, enters the wait list, tries once more and
    goes to sleep. *)
Definition contended : list move :=
  Call 0 (LWLockAcquire LW_EXCLUSIVE) :: steps 0 3 ++
  Call 1 (LWLockAcquire LW_SHARED) :: steps 1 9.

(** Then process 0 releases the lock and wakes it. *)
Definition handed_over : list move := contended ++ Call 0 LWLockRelease :: steps 0 8.

(** It takes the lock and releases it. *)
Definition finished : list move := handed_over ++ steps 1 6 ++ Call 1 LWLockRelease :: steps 1 6.

(** Process 0 sets the variable to 5 and process 1 waits for another value. *)
Definition waits_for_value : list move :=
  Call 0 (LWLockAcquire LW_EXCLUSIVE) :: steps 0 3 ++ Call 0 (LWLockUpdateVar 5) :: steps 0 4 ++
  Call 1 (LWLockWaitForVar 5) :: steps 1 14.

(** The next change wakes it. *)
Definition value_changed : list move :=
  waits_for_value ++ Call 0 (LWLockUpdateVar 6) :: steps 0 6 ++ steps 1 7.

Definition after (ms : list move) : system :=
  match do_moves ms (start 2) with Some st => st | None => start 2 end.

Lemma after_reachable ms : is_Some (do_moves ms (start 2)) -> reachable (after ms).
Proof.
  intros [st Hst]. unfold after. rewrite Hst. eapply do_moves_reachable; [|exact Hst].
  apply (reach_init [O; O]). done.
Qed.

(** ** Properties *)

(** C28: While a process holds a lightweight lock in exclusive mode nobody else
    holds it in any mode, however the processes that use the lock interleave;
    and at most one process has its wait list locked. *)
Theorem LWLock_exclusion st p x q y :
  reachable st -> procs st !! p = Some x -> procs st !! q = Some y -> q <> p ->
  (held x = Some LW_EXCLUSIVE -> held y = None) /\ (inside (at_pc x) = true -> inside (at_pc y) = false).
Proof.
  intros Hr Hp Hq Hne. pose proof (lwlock_inv st Hr) as [W _ _ _ _ _].
  pose proof (w_local _ W p x Hp) as Hx. pose proof (w_local _ W q y Hq) as Hy. split.
  - intros Hh%held_owns; [|done]. destruct (held y) as [m|] eqn:Ey; [|done].
    destruct Hne. apply (owners_exclude st p x q y m); try done; [by apply held_owns|].
    destruct Hy as [Hm _]. rewrite Ey in Hm. destruct m; [by right|by left|done].
  - intros Hi. destruct (inside (at_pc y)) eqn:Ei; [|done]. by destruct (inside_unique st p x q y W Hp Hq).
Qed.

Lemma LWLock_exclusion_witness :
  exists x y, procs (after contended) !! 0%nat = Some x /\ procs (after contended) !! 1%nat = Some y /\
    held x = Some LW_EXCLUSIVE /\ held y = None /\ at_pc y = SemLock (Acquire LW_SHARED) 0.
Proof.
  exists (MkProc Idle false LW_EXCLUSIVE 0 (Some LW_EXCLUSIVE) (Some Got)),
    (MkProc (SemLock (Acquire LW_SHARED) 0) true LW_SHARED 0 None None).
  split; [vm_compute; reflexivity|]. split; [vm_compute; reflexivity|]. split; [reflexivity|]. split; [|reflexivity].
  eapply (LWLock_exclusion (after contended) 0 _ 1 _).
  - apply after_reachable. exact (bool_decide_unpack (is_Some (do_moves contended (start 2))) I).
  - vm_compute. reflexivity.
  - vm_compute. reflexivity.
  - discriminate.
  - reflexivity.
Defined.

(** C29: No wakeup is lost.  When no process can make a step of its own any more,
    somebody holds the lock, or nobody waits for it: a process is never left
    asleep in [LWLockAcquire], [LWLockAcquireOrWait] or [LWLockWaitForVar] while
    the lock is free. *)
Theorem LWLock_no_lost_wakeup st :
  reachable st -> (forall p, do_move (Run p) st = Asleep) ->
  (exists p x, procs st !! p = Some x /\ held x <> None) \/
  (forall p x, procs st !! p = Some x -> at_pc x = Idle).
Proof. intros Hr%lwlock_inv Hrun. by apply quiescent_owner. Qed.

Lemma LWLock_no_lost_wakeup_witness :
  (exists p x, procs (after finished) !! p = Some x /\ held x <> None) \/
  (forall p x, procs (after finished) !! p = Some x -> at_pc x = Idle).
Proof.
  apply (LWLock_no_lost_wakeup (after finished)).
  - apply after_reachable. exact (bool_decide_unpack (is_Some (do_moves finished (start 2))) I).
  - intros [|[|p]]; vm_compute; reflexivity.
Defined.

(** C30: No change of the variable is missed.  When no process can make a step of
    its own any more and the lock is held in exclusive mode, then whoever sleeps
    in [LWLockWaitForVar] has given the value that the variable has now. *)
Theorem LWLock_no_lost_update st p x v n q y :
  reachable st -> (forall p, do_move (Run p) st = Asleep) ->
  procs st !! p = Some x -> at_pc x = SemLock (WaitForVar v) n ->
  procs st !! q = Some y -> held y = Some LW_EXCLUSIVE -> valptr (lock st) = v.
Proof.
  intros Hr Hrun Hp Epc Hq Hy. pose proof (lwlock_inv st Hr) as I.
  destruct (quiescent_value st I Hrun p x v n (lwlock_var st Hr) Hp Epc) as [?|(r & z & Hr' & Hz)]; [done|exfalso].
  pose proof (held_owns y _ (w_local _ (inv_word _ I) q y Hq) Hy) as Hoy.
  pose proof (held_owns z _ (w_local _ (inv_word _ I) r z Hr') Hz) as Hoz.
  assert (r = q) as -> by (eapply (owners_exclude st q y r z); [apply I|done..|by left]).
  congruence.
Qed.

Lemma LWLock_no_lost_update_witness : valptr (lock (after waits_for_value)) = 5.
Proof.
  eapply (LWLock_no_lost_update (after waits_for_value) 1 _ 5 0 0 _).
  - apply after_reachable. exact (bool_decide_unpack (is_Some (do_moves waits_for_value (start 2))) I).
  - intros [|[|p]]; vm_compute; reflexivity.
  - vm_compute. reflexivity.
  - vm_compute. reflexivity.
  - vm_compute. reflexivity.
  - vm_compute. reflexivity.
Defined.

(** C31: No assertion of the code fails and the PANIC of [LWLockQueueSelf] is not
    raised, in any state that can be reached, whatever is done next. *)
Theorem LWLock_no_failure st mv : reachable st -> do_move mv st <> Failed.
Proof.
  intros Hr%lwlock_inv. destruct mv as [p r|p|p]; cbn; [|destruct (procs st !! p) eqn:Hp; [by apply inv_no_failure|done]|done].
  destruct (procs st !! p) as [x|]; [|done]. by destruct (at_pc x), (enter r x).
Qed.

Lemma LWLock_no_failure_witness : do_move (Call 0 LWLockRelease) (after contended) <> Failed.
Proof.
  apply (LWLock_no_failure (after contended) (Call 0 LWLockRelease)).
  apply after_reachable. exact (bool_decide_unpack (is_Some (do_moves contended (start 2))) I).
Defined.

(** The sleeper really sleeps, and is woken. *)
Example contended_sleeps : do_move (Run 1) (after contended) = Asleep.
Proof. vm_compute. reflexivity. Qed.

Example handed_over_wakes : exists st, do_move (Run 1) (after handed_over) = Done st.
Proof. eexists. vm_compute. reflexivity. Qed.

Example value_changed_returns :
  option_map returned (procs (after value_changed) !! 1%nat) = Some (Some (Changed 6)).
Proof. vm_compute. reflexivity. Qed.

Example finished_returns :
  option_map returned (procs (after finished) !! 1%nat) = Some (Some Got).
Proof. vm_compute. reflexivity. Qed.

End LwlockRuns.
