(* ===== verification/Bufhdr.v ===== *)
(** * Buffer headers

    Models the state word of a shared buffer, [src/include/storage/buf_internals.h]
    and the parts of [src/backend/storage/buffer/bufmgr.c] that read and change
    it: 18 bits of reference count, 4 bits of usage count, 10 flags.  The lemmas
    say what each update does to each field, as long as no count overflows. *)

From S2P Require Import Prelude.
From S2P Require Import Words.

Import Words.

Open Scope Z_scope.

Module Bufhdr.

(** ** The fields *)

Definition BUF_REFCOUNT_ONE : Z := 1.
Definition BUF_REFCOUNT_MASK : Z := Z.shiftl 1 18 - 1.
Definition BUF_USAGECOUNT_MASK : Z := 0x003C0000.
Definition BUF_USAGECOUNT_ONE : Z := Z.shiftl 1 18.
Definition BUF_USAGECOUNT_SHIFT : Z := 18.
Definition BUF_FLAG_MASK : Z := 0xFFC00000.

Definition BUF_STATE_GET_REFCOUNT (state : Z) : Z := Z.land state BUF_REFCOUNT_MASK.
Definition BUF_STATE_GET_USAGECOUNT (state : Z) : Z :=
  Z.shiftr (Z.land state BUF_USAGECOUNT_MASK) BUF_USAGECOUNT_SHIFT.

Definition BM_LOCKED : Z := Z.shiftl 1 22.
Definition BM_DIRTY : Z := Z.shiftl 1 23.
Definition BM_VALID : Z := Z.shiftl 1 24.
Definition BM_TAG_VALID : Z := Z.shiftl 1 25.
Definition BM_IO_IN_PROGRESS : Z := Z.shiftl 1 26.
Definition BM_IO_ERROR : Z := Z.shiftl 1 27.
Definition BM_JUST_DIRTIED : Z := Z.shiftl 1 28.
Definition BM_PIN_COUNT_WAITER : Z := Z.shiftl 1 29.
Definition BM_CHECKPOINT_NEEDED : Z := Z.shiftl 1 30.
Definition BM_PERMANENT : Z := Z.shiftl 1 31.

Definition BM_MAX_USAGE_COUNT : Z := 5.

(** ** The updates *)

(** The header spinlock: [LockBufHdr] when it is free, and [UnlockBufHdr]. *)
Definition LockBufHdr (state : Z) : Z := Z.lor state BM_LOCKED.
Definition UnlockBufHdr (state : Z) : Z := Z.land state (not32 BM_LOCKED).

(** The new state in the loop of [PinBuffer] with the default strategy. *)
Definition pin_state (state : Z) : Z :=
  let s := u32 (state + BUF_REFCOUNT_ONE) in
  if BUF_STATE_GET_USAGECOUNT s <? BM_MAX_USAGE_COUNT then u32 (s + BUF_USAGECOUNT_ONE) else s.

(** [PinBuffer_Locked]. *)
Definition pin_locked_state (state : Z) : Z := u32 (state + BUF_REFCOUNT_ONE).

(** The loop of [UnpinBuffer]. *)
Definition unpin_state (state : Z) : Z := u32 (state - BUF_REFCOUNT_ONE).

(** [StrategyGetBuffer] passes over a buffer. *)
Definition sweep_state (state : Z) : Z := u32 (state - BUF_USAGECOUNT_ONE).

(** The loop of [MarkBufferDirty], and [MarkBufferDirtyHint]. *)
Definition dirty_state (state : Z) : Z := Z.lor state (Z.lor BM_DIRTY BM_JUST_DIRTIED).

Definition start_io_state (state : Z) : Z := Z.lor state BM_IO_IN_PROGRESS.

(** [FlushBuffer] before it writes. *)
Definition clear_just_dirtied (state : Z) : Z := Z.land state (not32 BM_JUST_DIRTIED).

(** [TerminateBufferIO]. *)
Definition terminate_state (clear_dirty : bool) (set_flag_bits : Z) (state : Z) : Z :=
  let s := Z.land state (not32 (Z.lor BM_IO_IN_PROGRESS BM_IO_ERROR)) in
  let s := if clear_dirty && negb (is_set s BM_JUST_DIRTIED)
           then Z.land s (not32 (Z.lor BM_DIRTY BM_CHECKPOINT_NEEDED)) else s in
  Z.lor s set_flag_bits.

(** [LockBufferForCleanup] announces itself, and is done waiting. *)
Definition wait_state (state : Z) : Z := Z.lor state BM_PIN_COUNT_WAITER.
Definition unwait_state (state : Z) : Z := Z.land state (not32 BM_PIN_COUNT_WAITER).

(** [BufferAlloc] gives the buffer to another page. *)
Definition rename_state (permanent : bool) (state : Z) : Z :=
  let s := Z.land state (not32 (Z.lor BM_VALID (Z.lor BM_DIRTY (Z.lor BM_JUST_DIRTIED
             (Z.lor BM_CHECKPOINT_NEEDED (Z.lor BM_IO_ERROR (Z.lor BM_PERMANENT BUF_USAGECOUNT_MASK))))))) in
  if permanent then Z.lor s (Z.lor BM_TAG_VALID (Z.lor BM_PERMANENT BUF_USAGECOUNT_ONE))
  else Z.lor s (Z.lor BM_TAG_VALID BUF_USAGECOUNT_ONE).

(** [InvalidateBuffer] takes the page away. *)
Definition invalidate_state (state : Z) : Z := Z.land state (not32 (Z.lor BUF_FLAG_MASK BUF_USAGECOUNT_MASK)).

(** ** Fields of updated words *)

Notation refs := BUF_STATE_GET_REFCOUNT.
Notation usage := BUF_STATE_GET_USAGECOUNT.

Lemma refs_mod z : refs z = z mod 2 ^ 18.
Proof. unfold refs, BUF_REFCOUNT_MASK. rewrite Z.shiftl_1_l. change (2 ^ 18 - 1) with (Z.ones 18). by apply Z.land_ones. Qed.

Lemma refs_bound z : 0 <= refs z < 2 ^ 18.
Proof. rewrite refs_mod. apply Z.mod_pos_bound. lia. Qed.

Lemma usage_mod z : usage z = (z / 2 ^ 18) mod 2 ^ 4.
Proof.
  unfold usage, BUF_USAGECOUNT_SHIFT. rewrite Z.shiftr_land. change (Z.shiftr BUF_USAGECOUNT_MASK 18) with (Z.ones 4).
  rewrite Z.land_ones by lia. by rewrite Z.shiftr_div_pow2.
Qed.

Lemma usage_bound z : 0 <= usage z < 16.
Proof. rewrite usage_mod. apply Z.mod_pos_bound. lia. Qed.

(** A word by its three parts. *)
Lemma state_parts z : z = refs z + 2 ^ 18 * (usage z + 2 ^ 4 * (z / 2 ^ 22)).
Proof.
  rewrite refs_mod, usage_mod. replace (z / 2 ^ 22) with (z / 2 ^ 18 / 2 ^ 4) by (by rewrite Z.div_div).
  rewrite (Z.add_comm (_ mod 2 ^ 4)), <- Z.div_mod, Z.add_comm, <- Z.div_mod by lia. done.
Qed.

Lemma parts_fields r u f : 0 <= r < 2 ^ 18 -> 0 <= u < 2 ^ 4 ->
  let z := r + 2 ^ 18 * (u + 2 ^ 4 * f) in refs z = r /\ usage z = u /\ z / 2 ^ 22 = f.
Proof.
  intros Hr Hu z. assert (Hd : z / 2 ^ 18 = u + 2 ^ 4 * f).
  { unfold z. rewrite Z.mul_comm, Z.div_add, Z.div_small by lia. lia. }
  split; [|split].
  - rewrite refs_mod. unfold z. by rewrite Z.mul_comm, Z.mod_add, Z.mod_small by lia.
  - by rewrite usage_mod, Hd, Z.mul_comm, Z.mod_add, Z.mod_small by lia.
  - change (2 ^ 22) with (2 ^ 18 * 2 ^ 4). rewrite <- Z.div_div, Hd by lia.
    rewrite Z.mul_comm, Z.div_add, Z.div_small by lia. lia.
Qed.

Lemma flag_part z k : 22 <= k -> is_set z (Z.shiftl 1 k) = Z.testbit (z / 2 ^ 22) (k - 22).
Proof. intros Hk. rewrite is_set_testbit, Z.div_pow2_bits by lia. f_equal. lia. Qed.

Definition is_state (z : Z) : Prop := 0 <= z < 2 ^ 32.

(** Two words with the same flags. *)
Definition same_flags (z z' : Z) : Prop := forall k, 22 <= k -> is_set z' (Z.shiftl 1 k) = is_set z (Z.shiftl 1 k).

Lemma counts_change z r u :
  is_state z -> 0 <= r < 2 ^ 18 -> 0 <= u < 2 ^ 4 ->
  let z' := z + (r - refs z) + 2 ^ 18 * (u - usage z) in
  is_state z' /\ refs z' = r /\ usage z' = u /\ same_flags z z'.
Proof.
  intros Hz Hr Hu z'. pose proof (state_parts z) as E.
  assert (E' : z' = r + 2 ^ 18 * (u + 2 ^ 4 * (z / 2 ^ 22))) by (unfold z'; lia).
  pose proof (Z.div_pos z (2 ^ 22) (proj1 Hz) ltac:(lia)).
  assert (z / 2 ^ 22 < 2 ^ 10) by (apply Z.div_lt_upper_bound; unfold is_state in Hz; lia).
  destruct (parts_fields r u (z / 2 ^ 22) Hr Hu) as (F1 & F2 & F3). rewrite <- E' in F1, F2, F3.
  split; [unfold is_state; rewrite E'; lia|]. split; [done|]. split; [done|]. intros k Hk. rewrite !flag_part by lia. by rewrite F3.
Qed.

Lemma u32_state z : is_state z -> u32 z = z.
Proof. apply u32_id. Qed.

Lemma add_ref z : is_state z -> refs z + 1 < 2 ^ 18 ->
  let z' := u32 (z + BUF_REFCOUNT_ONE) in is_state z' /\ refs z' = refs z + 1 /\ usage z' = usage z /\ same_flags z z'.
Proof.
  intros Hz Hr z'. pose proof (refs_bound z). pose proof (usage_bound z).
  destruct (counts_change z (refs z + 1) (usage z) Hz ltac:(lia) ltac:(lia)) as (C1 & C).
  replace (z + (refs z + 1 - refs z) + 2 ^ 18 * (usage z - usage z)) with (z + BUF_REFCOUNT_ONE) in C, C1 by (unfold BUF_REFCOUNT_ONE; lia).
  unfold z'. rewrite u32_state by done. done.
Qed.

Lemma sub_ref z : is_state z -> 0 < refs z ->
  is_state (unpin_state z) /\ refs (unpin_state z) = refs z - 1 /\ usage (unpin_state z) = usage z /\ same_flags z (unpin_state z).
Proof.
  intros Hz Hr. pose proof (refs_bound z). pose proof (usage_bound z).
  destruct (counts_change z (refs z - 1) (usage z) Hz ltac:(lia) ltac:(lia)) as (C1 & C).
  replace (z + (refs z - 1 - refs z) + 2 ^ 18 * (usage z - usage z)) with (z - BUF_REFCOUNT_ONE) in C, C1 by (unfold BUF_REFCOUNT_ONE; lia).
  unfold unpin_state. rewrite u32_state by done. done.
Qed.

Lemma sub_usage z : is_state z -> usage z <> 0 ->
  is_state (sweep_state z) /\ refs (sweep_state z) = refs z /\ usage (sweep_state z) = usage z - 1 /\ same_flags z (sweep_state z).
Proof.
  intros Hz Hr. pose proof (refs_bound z). pose proof (usage_bound z).
  destruct (counts_change z (refs z) (usage z - 1) Hz ltac:(lia) ltac:(lia)) as (C1 & C).
  replace (z + (refs z - refs z) + 2 ^ 18 * (usage z - 1 - usage z)) with (z - BUF_USAGECOUNT_ONE) in C, C1 by (change BUF_USAGECOUNT_ONE with (2 ^ 18); lia).
  unfold sweep_state. rewrite u32_state by done. done.
Qed.

Lemma same_flags_trans z1 z2 z3 : same_flags z1 z2 -> same_flags z2 z3 -> same_flags z1 z3.
Proof. intros H1 H2 k Hk. by rewrite H2, H1. Qed.

(** The usage count stays in its bound. *)
Lemma pin_spec z : is_state z -> refs z + 1 < 2 ^ 18 -> usage z <= BM_MAX_USAGE_COUNT ->
  is_state (pin_state z) /\ refs (pin_state z) = refs z + 1 /\ usage (pin_state z) <= BM_MAX_USAGE_COUNT /\ same_flags z (pin_state z).
Proof.
  intros Hz Hr Hu. destruct (add_ref z Hz Hr) as (A1 & A2 & A3 & A4). unfold pin_state. cbn zeta.
  set (s := u32 (z + BUF_REFCOUNT_ONE)) in *. rewrite A3. unfold BM_MAX_USAGE_COUNT in *.
  destruct (Z.ltb_spec (usage z) 5); [|by rewrite A3].
  pose proof (usage_bound s). pose proof (refs_bound s).
  destruct (counts_change s (refs s) (usage s + 1) A1 ltac:(lia) ltac:(lia)) as (C1 & C2 & C3 & C4).
  replace (s + (refs s - refs s) + 2 ^ 18 * (usage s + 1 - usage s)) with (s + BUF_USAGECOUNT_ONE) in * by (change BUF_USAGECOUNT_ONE with (2 ^ 18); lia).
  rewrite u32_state by done. split; [done|]. split; [lia|]. split; [lia|]. by eapply same_flags_trans.
Qed.

(** ** Masks *)

Lemma not32_bit m k : is_state m -> 0 <= k < 32 -> Z.testbit (not32 m) k = negb (Z.testbit m k).
Proof.
  intros Hm Hk. unfold not32. replace (2 ^ 32 - 1 - m) with (Z.ldiff (Z.ones 32) m).
  - rewrite Z.ldiff_spec, Z.ones_spec_low by lia. done.
  - symmetry. change (2 ^ 32 - 1) with (Z.ones 32). apply Z.sub_nocarry_ldiff. apply Z.bits_inj'. intros i Hi.
    rewrite Z.ldiff_spec, Z.bits_0. destruct (decide (i < 32)); [by rewrite Z.ones_spec_low, andb_false_r by lia|].
    rewrite (bits_high 32 ltac:(lia) m i Hm) by lia. done.
Qed.

Lemma lor_state z m : is_state z -> is_state m -> is_state (Z.lor z m).
Proof.
  intros Hz Hm. split; [apply Z.lor_nonneg; split; [apply Hz|apply Hm]|].
  apply Z.log2_lt_cancel. change (Z.log2 (2 ^ 32)) with 32. rewrite Z.log2_lor by (first [apply Hz|apply Hm]).
  assert (Hl : forall y, is_state y -> Z.log2 y < 32).
  { intros y [H0 H1]. destruct (decide (y = 0)) as [->|]; [done|]. apply Z.log2_lt_pow2; lia. }
  pose proof (Hl z Hz). pose proof (Hl m Hm). lia.
Qed.

Lemma land_state z m : is_state z -> is_state m -> is_state (Z.land z m).
Proof.
  intros Hz Hm. split; [apply Z.land_nonneg; left; apply Hz|].
  destruct (decide (Z.land z m = 0)) as [->|H0]; [lia|].
  apply Z.log2_lt_cancel. change (Z.log2 (2 ^ 32)) with 32.
  eapply Z.le_lt_trans; [apply Z.log2_land; [apply Hz|apply Hm]|].
  destruct (decide (z = 0)) as [->|]; [done|]. apply Z.min_lt_iff. left. unfold is_state in Hz. apply Z.log2_lt_pow2; lia.
Qed.

Lemma not32_state m : is_state m -> is_state (not32 m).
Proof. unfold is_state, not32. lia. Qed.

Lemma field_lor z m f : Z.land m f = 0 -> Z.land (Z.lor z m) f = Z.land z f.
Proof. intros H. by rewrite Z.land_lor_distr_l, H, Z.lor_0_r. Qed.

Lemma field_land z m f : is_state m -> is_state f -> Z.land m f = 0 -> Z.land (Z.land z (not32 m)) f = Z.land z f.
Proof.
  intros Hm Hf H. apply Z.bits_inj'. intros i Hi. rewrite !Z.land_spec.
  destruct (decide (i < 32)) as [Hlt|Hge].
  - rewrite not32_bit by (first [done|lia]). assert (Hi0 : Z.testbit (Z.land m f) i = false) by (by rewrite H, Z.bits_0).
    rewrite Z.land_spec in Hi0. destruct (Z.testbit m i), (Z.testbit f i), (Z.testbit z i); done.
  - rewrite (bits_high 32 ltac:(lia) f i Hf) by lia. by rewrite !andb_false_r.
Qed.

Lemma flag_lor z m k : 0 <= k -> is_set (Z.lor z m) (Z.shiftl 1 k) = is_set z (Z.shiftl 1 k) || is_set m (Z.shiftl 1 k).
Proof. intros Hk. by rewrite !is_set_testbit, Z.lor_spec by lia. Qed.

Lemma flag_land z m k : is_state m -> 0 <= k < 32 ->
  is_set (Z.land z (not32 m)) (Z.shiftl 1 k) = is_set z (Z.shiftl 1 k) && negb (is_set m (Z.shiftl 1 k)).
Proof. intros Hm Hk. by rewrite !is_set_testbit, Z.land_spec, not32_bit by (first [done|lia]). Qed.


(** ** The view of a header *)

(** What the correctness of the pool depends on. *)
Record hview := MkView {
  v_refs : Z; v_dirty : bool; v_valid : bool; v_tagged : bool; v_io : bool; v_just : bool; v_perm : bool }.

Definition view (z : Z) : hview :=
  MkView (refs z) (is_set z BM_DIRTY) (is_set z BM_VALID) (is_set z BM_TAG_VALID)
    (is_set z BM_IO_IN_PROGRESS) (is_set z BM_JUST_DIRTIED) (is_set z BM_PERMANENT).

(** A word of 32 bits with the usage count in its bound. *)
Definition hdr_ok (z : Z) : Prop := is_state z /\ usage z <= BM_MAX_USAGE_COUNT.

Definition with_refs (n : Z) (v : hview) : hview :=
  MkView n (v_dirty v) (v_valid v) (v_tagged v) (v_io v) (v_just v) (v_perm v).

(** An update of a header, and what it does to the view. *)
Definition updates (f : Z -> Z) (g : hview -> hview) (z : Z) : Prop := hdr_ok (f z) /\ view (f z) = g (view z).

(** The flags of an updated word, by computation. *)
Ltac flag_bits :=
  unfold BM_LOCKED, BM_DIRTY, BM_VALID, BM_TAG_VALID, BM_IO_IN_PROGRESS, BM_IO_ERROR, BM_JUST_DIRTIED,
    BM_PIN_COUNT_WAITER, BM_CHECKPOINT_NEEDED, BM_PERMANENT in *;
  repeat first [rewrite flag_lor by lia | rewrite flag_land by (first [by vm_compute | lia])];
  repeat match goal with
  | |- context [is_set ?m ?f] =>
      assert_fails (is_var m);
      let r := eval vm_compute in (is_set m f) in
      match r with true => change (is_set m f) with true | false => change (is_set m f) with false end
  end;
  cbn [negb]; rewrite ?orb_true_r, ?orb_false_r, ?andb_true_r, ?andb_false_r.

Lemma view_counts z z' : same_flags z z' -> view z' = with_refs (refs z') (view z).
Proof.
  intros H. unfold view, with_refs, BM_DIRTY, BM_VALID, BM_TAG_VALID, BM_IO_IN_PROGRESS, BM_JUST_DIRTIED, BM_PERMANENT.
  by rewrite !H by lia.
Qed.

Lemma refs_lor z m : Z.land m BUF_REFCOUNT_MASK = 0 -> refs (Z.lor z m) = refs z.
Proof. apply field_lor. Qed.
Lemma usage_lor z m : Z.land m BUF_USAGECOUNT_MASK = 0 -> usage (Z.lor z m) = usage z.
Proof. intros H. unfold usage. by rewrite field_lor. Qed.
Lemma refs_land z m : is_state m -> Z.land m BUF_REFCOUNT_MASK = 0 -> refs (Z.land z (not32 m)) = refs z.
Proof. intros Hm. apply field_land; [done|by vm_compute]. Qed.
Lemma usage_land z m : is_state m -> Z.land m BUF_USAGECOUNT_MASK = 0 -> usage (Z.land z (not32 m)) = usage z.
Proof. intros Hm H. unfold usage. by rewrite field_land by (first [done|by vm_compute]). Qed.

(** The view of a word with other flags, by computation. *)
Ltac view_bits :=
  unfold view; repeat first [rewrite refs_lor by by vm_compute | rewrite refs_land by by vm_compute];
  flag_bits; cbn [v_refs v_dirty v_valid v_tagged v_io v_just v_perm with_refs]; try f_equal.

(** It is in range. *)
Ltac in_range Hz := repeat first [apply lor_state | apply land_state | apply not32_state | exact Hz | by vm_compute].

(** An update of flags only. *)
Ltac flags_only :=
  let Hz := fresh "Hz" in let Hu := fresh "Hu" in intros (Hz & Hu); split;
  [split; [in_range Hz|repeat first [rewrite usage_lor by by vm_compute | rewrite usage_land by by vm_compute]; exact Hu]
  |view_bits].

Section Views.
Context (z : Z).

Lemma lock_view : hdr_ok z -> updates LockBufHdr (fun v => v) z.
Proof. unfold updates, LockBufHdr. flags_only. Qed.

Lemma unlock_view : hdr_ok z -> updates UnlockBufHdr (fun v => v) z.
Proof. unfold updates, UnlockBufHdr. flags_only. Qed.

Lemma unlock_unlocked : is_set (UnlockBufHdr z) BM_LOCKED = false.
Proof. unfold UnlockBufHdr. flag_bits. done. Qed.

Lemma pin_view : hdr_ok z -> refs z + 1 < 2 ^ 18 -> updates pin_state (with_refs (refs z + 1)) z.
Proof.
  intros Hz Hr. destruct (pin_spec z) as (P1 & P2 & P3 & P4); [apply Hz|done|apply Hz|].
  split; [done|]. rewrite (view_counts z) by done. by rewrite P2.
Qed.

Lemma add_ref_view : hdr_ok z -> refs z + 1 < 2 ^ 18 ->
  updates pin_locked_state (with_refs (refs z + 1)) z.
Proof.
  intros Hz Hr. destruct (add_ref z) as (P1 & P2 & P3 & P4); [apply Hz|done|].
  unfold updates, pin_locked_state.
  split; [split; [done|rewrite P3; apply Hz]|]. rewrite (view_counts z) by done. by rewrite P2.
Qed.

Lemma unpin_view : hdr_ok z -> 0 < refs z -> updates unpin_state (with_refs (refs z - 1)) z.
Proof.
  intros Hz Hr. destruct (sub_ref z) as (P1 & P2 & P3 & P4); [apply Hz|done|].
  split; [split; [done|rewrite P3; apply Hz]|]. rewrite (view_counts z) by done. by rewrite P2.
Qed.

Lemma sweep_view : hdr_ok z -> usage z <> 0 -> updates sweep_state (fun v => v) z.
Proof.
  intros Hz Hr. destruct (sub_usage z) as (P1 & P2 & P3 & P4); [apply Hz|done|].
  split; [split; [done|rewrite P3; destruct Hz; lia]|]. rewrite (view_counts z) by done. by rewrite P2.
Qed.

Lemma dirty_view : hdr_ok z -> updates dirty_state
  (fun v => MkView (v_refs v) true (v_valid v) (v_tagged v) (v_io v) true (v_perm v)) z.
Proof. unfold updates, dirty_state. flags_only. Qed.

Lemma start_io_view : hdr_ok z -> updates start_io_state
  (fun v => MkView (v_refs v) (v_dirty v) (v_valid v) (v_tagged v) true (v_just v) (v_perm v)) z.
Proof. unfold updates, start_io_state. flags_only. Qed.

Lemma clear_just_view : hdr_ok z -> updates clear_just_dirtied
  (fun v => MkView (v_refs v) (v_dirty v) (v_valid v) (v_tagged v) (v_io v) false (v_perm v)) z.
Proof. unfold updates, clear_just_dirtied. flags_only. Qed.

(** After a write: clean, unless it was dirtied meanwhile. *)
Lemma terminate_write_view : hdr_ok z -> updates (terminate_state true 0)
  (fun v => MkView (v_refs v) (v_dirty v && v_just v) (v_valid v) (v_tagged v) false (v_just v) (v_perm v)) z.
Proof.
  intros Hz. unfold updates, terminate_state. cbn [andb].
  assert (Hj : is_set (Z.land z (not32 (Z.lor BM_IO_IN_PROGRESS BM_IO_ERROR))) BM_JUST_DIRTIED = is_set z BM_JUST_DIRTIED)
    by (flag_bits; done).
  rewrite Hj. unfold BM_JUST_DIRTIED. destruct (is_set z (Z.shiftl 1 28)) eqn:E; cbn [negb]; revert Hz; flags_only;
    by rewrite ?E, ?andb_true_r, ?andb_false_r.
Qed.

(** After a read. *)
Lemma terminate_read_view : hdr_ok z -> updates (terminate_state false BM_VALID)
  (fun v => MkView (v_refs v) (v_dirty v) true (v_tagged v) false (v_just v) (v_perm v)) z.
Proof. unfold updates, terminate_state. cbn [andb]. flags_only. Qed.

(** After an error. *)
Lemma terminate_error_view : hdr_ok z -> updates (terminate_state false BM_IO_ERROR)
  (fun v => MkView (v_refs v) (v_dirty v) (v_valid v) (v_tagged v) false (v_just v) (v_perm v)) z.
Proof. unfold updates, terminate_state. cbn [andb]. flags_only. Qed.

Lemma set_wait_view : hdr_ok z -> updates wait_state (fun v => v) z.
Proof. unfold updates, wait_state. flags_only. Qed.

Lemma clear_wait_view : hdr_ok z -> updates unwait_state (fun v => v) z.
Proof. unfold updates, unwait_state. flags_only. Qed.

(** For another page: the pins stay, the usage count starts at one. *)
Lemma usage_rename p : usage (rename_state p z) = 1.
Proof.
  unfold rename_state, usage, BUF_USAGECOUNT_SHIFT. set (m := Z.lor BM_VALID _).
  assert (H0 : Z.land (Z.land z (not32 m)) BUF_USAGECOUNT_MASK = 0).
  { rewrite <- Z.land_assoc. assert (E : Z.land (not32 m) BUF_USAGECOUNT_MASK = 0) by by vm_compute. by rewrite E, Z.land_0_r. }
  destruct p; rewrite Z.land_lor_distr_l, H0; by vm_compute.
Qed.

Lemma rename_view p : hdr_ok z -> updates (rename_state p)
  (fun v => MkView (v_refs v) false false true (v_io v) false p) z.
Proof.
  intros [Hz Hu]. pose proof (usage_rename p) as Hus. split; [split; [|rewrite Hus; by vm_compute]|].
  - unfold rename_state. destruct p; in_range Hz.
  - unfold rename_state. destruct p; view_bits.
Qed.

Lemma invalidate_view : hdr_ok z -> updates invalidate_state
  (fun v => MkView (v_refs v) false false false false false false) z.
Proof.
  unfold updates, invalidate_state. intros (Hz & Hu). split; [split; [in_range Hz|]|view_bits].
  unfold usage, BUF_USAGECOUNT_SHIFT. rewrite <- Z.land_assoc.
  assert (E : Z.land (not32 (Z.lor BUF_FLAG_MASK BUF_USAGECOUNT_MASK)) BUF_USAGECOUNT_MASK = 0) by by vm_compute.
  by rewrite E, Z.land_0_r.
Qed.
End Views.

(** A section under the header lock. *)
Lemma section_view f g z :
  hdr_ok z ->
  (hdr_ok (LockBufHdr z) -> refs (LockBufHdr z) = refs z -> usage (LockBufHdr z) = usage z -> updates f g (LockBufHdr z)) ->
  updates (fun z => UnlockBufHdr (f (LockBufHdr z))) g z /\ is_set (UnlockBufHdr (f (LockBufHdr z))) BM_LOCKED = false.
Proof.
  intros Hz Hf. destruct (lock_view z Hz) as [L1 L2].
  assert (Hr : refs (LockBufHdr z) = refs z) by (exact (f_equal v_refs L2)).
  assert (Hu : usage (LockBufHdr z) = usage z) by (unfold LockBufHdr; by rewrite usage_lor by by vm_compute).
  destruct (Hf L1 Hr Hu) as [F1 F2]. destruct (unlock_view _ F1) as [U1 U2].
  split; [|apply unlock_unlocked]. split; [done|]. by rewrite U2, F2, L2.
Qed.

(** The loops that compare and swap leave the spinlock free. *)
Lemma pin_unlocked z : hdr_ok z -> refs z + 1 < 2 ^ 18 -> is_set (pin_state z) BM_LOCKED = is_set z BM_LOCKED.
Proof. intros Hz Hr. destruct (pin_spec z) as (_ & _ & _ & P); [apply Hz|done|apply Hz|]. unfold BM_LOCKED. by apply P. Qed.

Lemma unpin_unlocked z : hdr_ok z -> 0 < refs z -> is_set (unpin_state z) BM_LOCKED = is_set z BM_LOCKED.
Proof. intros Hz Hr. destruct (sub_ref z) as (_ & _ & _ & P); [apply Hz|done|]. unfold BM_LOCKED. by apply P. Qed.

Lemma dirty_unlocked z : is_set (dirty_state z) BM_LOCKED = is_set z BM_LOCKED.
Proof. unfold dirty_state. flag_bits. done. Qed.

(** A new header. *)
Lemma hdr_ok_0 : hdr_ok 0.
Proof. by vm_compute. Qed.

End Bufhdr.
