(* ===== verification/Bufmgr.v ===== *)
(** * The shared buffer pool

    Models [src/backend/storage/buffer/bufmgr.c], [buf_table.c] and
    [freelist.c]: the buffer descriptors, the mapping table, the clock sweep and
    the processes that read, lock, change, flush and drop pages.  A step is a
    section under a header spinlock or the strategy spinlock, a loop that
    compares and swaps a header, an operation on the mapping table, or one
    acquisition of a lightweight lock; a release of a lightweight lock is part
    of the step before it.  Processes interleave in any order.

    Which lightweight locks a process holds follows from its control point and
    from the content locks it has taken as a client; [Lwlock] shows what these
    locks promise.  The disk is a page for each tag, the log three positions;
    reads and writes may fail, and then the process goes through the clean-up of
    an aborted transaction.  Pages are read in the mode [RBM_NORMAL] with the
    default strategy: buffer rings, local buffers, the zeroing modes and the
    extension of relations are left out. *)

From S2P Require Import Prelude.
From S2P Require Import Words.
From S2P Require Import Bufhdr.
From S2P Require Lwlock.
From stdpp Require Import functions.

Import Words Bufhdr.

Open Scope Z_scope.

Module Bufmgr.

Notation LWLockMode := Lwlock.Lwlock.LWLockMode.
Notation LW_EXCLUSIVE := Lwlock.Lwlock.LW_EXCLUSIVE.
Notation LW_SHARED := Lwlock.Lwlock.LW_SHARED.

#[export] Instance LWLockMode_dec : EqDecision LWLockMode := Lwlock.Lwlock.LWLockMode_eq.

(** ** Tags and pages *)

Record RelFileNode := MkRelFileNode { spcNode : Z; dbNode : Z; relNode : Z }.
Record BufferTag := MkTag { rnode : RelFileNode; forkNum : Z; blockNum : Z }.

#[export] Instance RelFileNode_eq : EqDecision RelFileNode.
Proof. solve_decision. Defined.
#[export] Instance BufferTag_eq : EqDecision BufferTag.
Proof. solve_decision. Defined.
#[export] Program Instance BufferTag_countable : Countable BufferTag :=
  inj_countable' (fun t => (spcNode (rnode t), dbNode (rnode t), relNode (rnode t), forkNum t, blockNum t))
    (fun t => let '(s, d, r, f, b) := t in MkTag (MkRelFileNode s d r) f b) _.
Next Obligation. by intros [[] ? ?]. Qed.

(** [CLEAR_BUFFERTAG]. *)
Definition InvalidTag : BufferTag := MkTag (MkRelFileNode 0 0 0) (-1) (2 ^ 32 - 1).

(** The part of a page that counts here: its LSN and the rest. *)
Record page := MkPage { pd_lsn : Z; pd_data : Z }.
Definition zero_page : page := MkPage 0 0.

Definition P_NEW : Z := 2 ^ 32 - 1.

(** The hash function of the mapping table; which pages are logged, and whether
    hints are. *)
Class BufEnv := {
  BufTableHashCode : BufferTag -> Z;
  permanent : BufferTag -> bool;
  XLogHintBitIsNeeded : bool }.

Definition NUM_BUFFER_PARTITIONS : Z := 128.
Definition BufMappingPartition `{BufEnv} (t : BufferTag) : Z := BufTableHashCode t mod NUM_BUFFER_PARTITIONS.

(** ** Buffers *)

Definition FREENEXT_END_OF_LIST : Z := -1.
Definition FREENEXT_NOT_IN_LIST : Z := -2.

Record BufferDesc := MkBuf {
  tag : BufferTag;
  state : Z;
  wait_backend : nat;    (* wait_backend_pid *)
  freeNext : Z;
  content : page }.

Definition set_tag (t : BufferTag) (d : BufferDesc) : BufferDesc :=
  MkBuf t (state d) (wait_backend d) (freeNext d) (content d).
Definition set_hdr (z : Z) (d : BufferDesc) : BufferDesc :=
  MkBuf (tag d) z (wait_backend d) (freeNext d) (content d).
Definition set_waiter (p : nat) (d : BufferDesc) : BufferDesc :=
  MkBuf (tag d) (state d) p (freeNext d) (content d).
Definition set_next (n : Z) (d : BufferDesc) : BufferDesc :=
  MkBuf (tag d) (state d) (wait_backend d) n (content d).
Definition set_content (c : page) (d : BufferDesc) : BufferDesc :=
  MkBuf (tag d) (state d) (wait_backend d) (freeNext d) c.

(** ** Processes *)

Inductive lockid := PartLock (n : Z) | ContentLock (b : nat) | IOLock (b : nat).

#[export] Instance lockid_eq : EqDecision lockid.
Proof. solve_decision. Defined.

(** What [FlushBuffer] and [UnpinBuffer] return to. *)
Inductive after_flush := ToReuse (t : BufferTag) (tagged : bool) | ToSynced.
Inductive after_unpin :=
  | ToIdle
  | ToVictim (t : BufferTag)
  | ToFound (t : BufferTag) (old : option BufferTag) (found : nat)
  | ToAbort.

(** The arguments of [DropRelFileNodeBuffers]. *)
Record droprel := MkDrop { drop_rnode : RelFileNode; drop_fork : Z; firstDelBlock : Z }.

Inductive pc :=
  | Idle
  (* BufferAlloc: the lookup *)
  | LookupLock (t : BufferTag)
  | Lookup (t : BufferTag)
  | PinFound (t : BufferTag) (b : nat) (m : LWLockMode)
  (* StrategyGetBuffer, ClockSweepTick *)
  | FreeTest (t : BufferTag)
  | FreePop (t : BufferTag)
  | FreeCheck (t : BufferTag) (b : nat)
  | Sweep (t : BufferTag) (trycounter : Z)
  | SweepWrap (t : BufferTag) (trycounter : Z) (expected : Z)
  | SweepCheck (t : BufferTag) (trycounter : Z) (b : nat)
  (* BufferAlloc: the victim *)
  | VictimDirty (t : BufferTag) (b : nat) (tagged : bool)
  | VictimTag (t : BufferTag) (b : nat) (tagged : bool)
  | LockFirst (t : BufferTag) (b : nat) (old : option BufferTag)
  | LockSecond (t : BufferTag) (b : nat) (old : BufferTag)
  | Insert (t : BufferTag) (b : nat) (old : option BufferTag)
  | Rename (t : BufferTag) (b : nat) (old : option BufferTag)
  | DeleteOld (t : BufferTag) (b : nat) (old : option BufferTag)
  | UndoInsert (t : BufferTag) (b : nat) (old : option BufferTag)
  (* FlushBuffer *)
  | FlushLock (k : after_flush) (b : nat)
  | FlushStart (k : after_flush) (b : nat)
  | FlushWait (k : after_flush) (b : nat)
  | FlushWaitLock (k : after_flush) (b : nat)
  | FlushClear (k : after_flush) (b : nat)
  | FlushXLog (k : after_flush) (b : nat) (recptr : Z) (perm : bool)
  | FlushWrite (k : after_flush) (b : nat)
  | FlushEnd (k : after_flush) (b : nat)
  (* ReadBuffer_common *)
  | ReadLock (t : BufferTag) (b : nat)
  | ReadStart (t : BufferTag) (b : nat)
  | ReadWait (t : BufferTag) (b : nat)
  | ReadWaitLock (t : BufferTag) (b : nat)
  | ReadPage (t : BufferTag) (b : nat)
  | ReadEnd (t : BufferTag) (b : nat)
  (* UnpinBuffer *)
  | Unpin (b : nat) (k : after_unpin)
  | UnpinSignal (b : nat) (k : after_unpin)
  | SendSignal (q : nat) (k : after_unpin)
  (* SyncOneBuffer *)
  | SyncCheck (b : nat) (skip_recently_used : bool)
  | SyncLock (b : nat)
  (* DropRelFileNodeBuffers, InvalidateBuffer *)
  | DropScan (r : droprel) (i : nat)
  | DropCheck (r : droprel) (i : nat)
  | InvLock (r : droprel) (b : nat) (old : BufferTag)
  | InvCheck (r : droprel) (b : nat) (old : BufferTag)
  | InvWait (r : droprel) (b : nat) (old : BufferTag)
  | InvWaitLock (r : droprel) (b : nat) (old : BufferTag)
  | InvDelete (r : droprel) (b : nat) (old : BufferTag) (tagged : bool)
  | InvFree (r : droprel) (b : nat)
  (* LockBuffer, and what happens to a page between *)
  | LockContent (b : nat) (m : LWLockMode)
  | TryLock (b : nat)
  | Modified (b : nat)
  | Logged (b : nat)
  | Hinted (b : nat)
  | HintLog (b : nat)
  | HintMark (b : nat) (lsn : Z)
  (* LockBufferForCleanup *)
  | CleanLock (b : nat)
  | CleanCheck (b : nat)
  | CleanWait (b : nat)
  | CleanClear (b : nat)
  (* the abort of a transaction *)
  | AbortIO
  | AbortCheck (b : nat) (IsForInput : bool)
  | AbortEnd (b : nat)
  | AbortUnlock
  | AbortPins.

Record proc := MkProc {
  at_pc : pc;
  pins : nat -> nat;                        (* the private reference counts *)
  clocks : nat -> option LWLockMode;        (* content locks taken as a client *)
  InProgressBuf : option (nat * bool);      (* with IsForInput *)
  PinCountWaitBuf : option nat;
  returned : option nat }.

Definition set_pc (c : pc) (x : proc) : proc :=
  MkProc c (pins x) (clocks x) (InProgressBuf x) (PinCountWaitBuf x) (returned x).
Definition set_pins (b n : nat) (x : proc) : proc :=
  MkProc (at_pc x) (<[b := n]> (pins x)) (clocks x) (InProgressBuf x) (PinCountWaitBuf x) (returned x).
Definition set_clocks (f : nat -> option LWLockMode) (x : proc) : proc :=
  MkProc (at_pc x) (pins x) f (InProgressBuf x) (PinCountWaitBuf x) (returned x).
Definition set_io (i : option (nat * bool)) (x : proc) : proc :=
  MkProc (at_pc x) (pins x) (clocks x) i (PinCountWaitBuf x) (returned x).
Definition set_wait (w : option nat) (x : proc) : proc :=
  MkProc (at_pc x) (pins x) (clocks x) (InProgressBuf x) w (returned x).
Definition set_returned (r : option nat) (x : proc) : proc :=
  MkProc (at_pc x) (pins x) (clocks x) (InProgressBuf x) (PinCountWaitBuf x) r.

Definition new_proc : proc := MkProc Idle (fun _ => 0%nat) (fun _ => None) None None None.

(** ** The system *)

Record BufferStrategyControl := MkStrategy {
  firstFreeBuffer : Z;
  lastFreeBuffer : Z;
  nextVictimBuffer : Z;
  completePasses : Z;
  numBufferAllocs : Z }.

(** Positions of the log: what is inserted, what is flushed, and the redo point
    of the last checkpoint. *)
Record xlog := MkXLog { insert_pos : Z; flush_pos : Z; RedoRecPtr : Z }.

Record system := MkSys {
  bufs : list BufferDesc;
  table : gmap BufferTag nat;
  disk : BufferTag -> page;
  strategy : BufferStrategyControl;
  wal : xlog;
  latches : nat -> bool;
  procs : list proc }.

Definition NBuffers (st : system) : Z := Z.of_nat (length (bufs st)).

Definition put_buf (b : nat) (d : BufferDesc) (st : system) : system :=
  MkSys (<[b := d]> (bufs st)) (table st) (disk st) (strategy st) (wal st) (latches st) (procs st).
Definition put_proc (p : nat) (x : proc) (st : system) : system :=
  MkSys (bufs st) (table st) (disk st) (strategy st) (wal st) (latches st) (<[p := x]> (procs st)).
Definition set_table (t : gmap BufferTag nat) (st : system) : system :=
  MkSys (bufs st) t (disk st) (strategy st) (wal st) (latches st) (procs st).
Definition put_disk (t : BufferTag) (c : page) (st : system) : system :=
  MkSys (bufs st) (table st) (<[t := c]> (disk st)) (strategy st) (wal st) (latches st) (procs st).
Definition set_strategy (c : BufferStrategyControl) (st : system) : system :=
  MkSys (bufs st) (table st) (disk st) c (wal st) (latches st) (procs st).
Definition set_wal (w : xlog) (st : system) : system :=
  MkSys (bufs st) (table st) (disk st) (strategy st) w (latches st) (procs st).
Definition set_latch (q : nat) (l : bool) (st : system) : system :=
  MkSys (bufs st) (table st) (disk st) (strategy st) (wal st) (<[q := l]> (latches st)) (procs st).

(** A step fails when an assertion does, or a sanity check of the mapping table. *)
Inductive result := Failed | Asleep | Done (st : system).

(** ** Lightweight locks *)

Section Pool.
Context `{BufEnv}.

Definition part (t : BufferTag) : lockid := PartLock (BufMappingPartition t).

(** Both partitions are locked; the lower-numbered one first. *)
Definition both_parts (t : BufferTag) (old : option BufferTag) : list (lockid * LWLockMode) :=
  (part t, LW_EXCLUSIVE) :: match old with Some o => [(part o, LW_EXCLUSIVE)] | None => [] end.
Definition first_part (t old : BufferTag) : lockid :=
  if BufMappingPartition old <? BufMappingPartition t then part old else part t.
Definition second_part (t old : BufferTag) : lockid :=
  if BufMappingPartition old <? BufMappingPartition t then part t else part old.

Definition unpin_locks (k : after_unpin) : list (lockid * LWLockMode) :=
  match k with ToFound t old _ => both_parts t old | _ => [] end.

(** The locks that the routine at a control point has taken. *)
Definition pc_locks (c : pc) : list (lockid * LWLockMode) :=
  match c with
  | Lookup t => [(part t, LW_SHARED)]
  | PinFound t _ m => [(part t, m)]
  | LockSecond t _ old => [(first_part t old, LW_EXCLUSIVE)]
  | Insert t _ old | Rename t _ old | DeleteOld t _ old | UndoInsert t _ old => both_parts t old
  | FlushLock _ b | FlushWait _ b | FlushWaitLock _ b => [(ContentLock b, LW_SHARED)]
  | FlushStart _ b | FlushClear _ b | FlushXLog _ b _ _ | FlushWrite _ b | FlushEnd _ b =>
      [(IOLock b, LW_EXCLUSIVE); (ContentLock b, LW_SHARED)]
  | ReadStart _ b | ReadPage _ b | ReadEnd _ b => [(IOLock b, LW_EXCLUSIVE)]
  | Unpin _ k | UnpinSignal _ k | SendSignal _ k => unpin_locks k
  | InvCheck _ _ old | InvDelete _ _ old _ => [(part old, LW_EXCLUSIVE)]
  | AbortCheck b _ | AbortEnd b => [(IOLock b, LW_EXCLUSIVE)]
  | _ => []
  end.

Fixpoint locked_as (l : lockid) (ls : list (lockid * LWLockMode)) : option LWLockMode :=
  match ls with
  | [] => None
  | (l', m) :: ls' => if bool_decide (l = l') then Some m else locked_as l ls'
  end.

Definition holds (x : proc) (l : lockid) : option LWLockMode :=
  match locked_as l (pc_locks (at_pc x)) with
  | Some m => Some m
  | None => match l with ContentLock b => clocks x b | _ => None end
  end.

Definition conflicts (m1 : option LWLockMode) (m2 : LWLockMode) : bool :=
  match m1 with
  | None => false
  | Some m1 => negb (bool_decide (m1 = LW_SHARED) && bool_decide (m2 = LW_SHARED))
  end.

(** Nobody holds the lock in a mode that conflicts. *)
Definition available (st : system) (l : lockid) (m : LWLockMode) : bool :=
  forallb (fun y => negb (conflicts (holds y l) m)) (procs st).


(** ** The code of each step *)

Section Step.
Context (p : nat) (x : proc) (st : system).

Definition goto (c : pc) : result := Done (put_proc p (set_pc c x) st).

(** [LWLockAcquire], when the lock is free for the mode. *)
Definition acquire (l : lockid) (m : LWLockMode) (c : pc) : result :=
  if available st l m then goto c else Asleep.

(** [LockBufHdr], or the loop that compares and swaps, waits for the spinlock. *)
Definition with_hdr (b : nat) (k : BufferDesc -> result) : result :=
  match bufs st !! b with
  | Some d => if is_set (state d) BM_LOCKED then Asleep else k d
  | None => Failed
  end.

(** The header after a section under its lock. *)
Definition in_section (f : Z -> Z) (d : BufferDesc) : BufferDesc :=
  set_hdr (UnlockBufHdr (f (LockBufHdr (state d)))) d.

(** [elog(ERROR)]: [LWLockReleaseAll] comes first in the abort. *)
Definition raise : result := Done (put_proc p (set_clocks (fun _ => None) (set_pc AbortIO x)) st).

(** *** Pins *)

(** The end of [BufferAlloc] for a page that is in the pool. *)
Definition found (t : BufferTag) (b : nat) (valid : bool) (y : proc) : proc :=
  if valid then set_returned (Some b) (set_pc Idle y) else set_pc (ReadLock t b) y.

Definition PinBuffer (t : BufferTag) (b : nat) : result :=
  match pins x b with
  | O => with_hdr b (fun d =>
      let z := pin_state (state d) in
      Done (put_proc p (found t b (is_set z BM_VALID) (set_pins b 1 x)) (put_buf b (set_hdr z d) st)))
  | S n => Done (put_proc p (found t b true (set_pins b (S (S n)) x)) st)
  end.

Definition PinBuffer_Locked (b : nat) (d : BufferDesc) (c : pc) : result :=
  match pins x b with
  | O => Done (put_proc p (set_pc c (set_pins b 1 x)) (put_buf b (in_section pin_locked_state d) st))
  | S _ => Failed
  end.

Definition unpinned (k : after_unpin) : pc :=
  match k with
  | ToIdle => Idle
  | ToVictim t => FreeTest t
  | ToFound t _ b => PinFound t b LW_EXCLUSIVE
  | ToAbort => AbortPins
  end.

Definition UnpinBuffer (b : nat) (k : after_unpin) : result :=
  match pins x b with
  | O => Failed
  | S O =>
      if bool_decide (holds x (ContentLock b) = None) && bool_decide (holds x (IOLock b) = None) then
        with_hdr b (fun d =>
          let z := unpin_state (state d) in
          Done (put_proc p (set_pc (if is_set z BM_PIN_COUNT_WAITER then UnpinSignal b k else unpinned k) (set_pins b 0 x))
                 (put_buf b (set_hdr z d) st)))
      else Failed
  | S n => Done (put_proc p (set_pc (unpinned k) (set_pins b n x)) st)
  end.

Definition UnpinBuffer_signal (b : nat) (k : after_unpin) : result :=
  with_hdr b (fun d =>
    if is_set (state d) BM_PIN_COUNT_WAITER && (BUF_STATE_GET_REFCOUNT (state d) =? 1)
    then Done (put_proc p (set_pc (SendSignal (wait_backend d) k) x) (put_buf b (in_section unwait_state d) st))
    else goto (unpinned k)).

Definition ProcSendSignal (q : nat) (c : pc) : result := Done (put_proc p (set_pc c x) (set_latch q true st)).

(** *** I/O *)

Definition StartBufferIO_lock (b : nat) (c : pc) : result :=
  match InProgressBuf x with None => acquire (IOLock b) LW_EXCLUSIVE c | Some _ => Failed end.

Definition StartBufferIO (b : nat) (forInput : bool) (waiting started : pc) (already : proc) : result :=
  with_hdr b (fun d =>
    if is_set (state d) BM_IO_IN_PROGRESS then goto waiting
    else if (if forInput then is_set (state d) BM_VALID else negb (is_set (state d) BM_DIRTY))
    then Done (put_proc p already st)
    else Done (put_proc p (set_pc started (set_io (Some (b, forInput)) x)) (put_buf b (in_section start_io_state d) st))).

Definition WaitIO (b : nat) (waiting over : pc) : result :=
  with_hdr b (fun d => goto (if is_set (state d) BM_IO_IN_PROGRESS then waiting else over)).

(** Taken, and released at once. *)
Definition WaitIO_lock (b : nat) (c : pc) : result := acquire (IOLock b) LW_SHARED c.

Definition TerminateBufferIO (b : nat) (clear_dirty : bool) (set_flag_bits : Z) (y : proc) : result :=
  if bool_decide (fst <$> InProgressBuf x = Some b) then
    with_hdr b (fun d =>
      if is_set (state d) BM_IO_IN_PROGRESS
      then Done (put_proc p (set_io None y) (put_buf b (in_section (terminate_state clear_dirty set_flag_bits) d) st))
      else Failed)
  else Failed.

(** *** [FlushBuffer] *)

Definition flushed (k : after_flush) (b : nat) : pc :=
  match k with ToReuse t tagged => VictimTag t b tagged | ToSynced => Unpin b ToIdle end.

Definition FlushBuffer_start (k : after_flush) (b : nat) : result :=
  StartBufferIO b false (FlushWait k b) (FlushClear k b) (set_pc (flushed k b) x).

Definition FlushBuffer_clear (k : after_flush) (b : nat) : result :=
  with_hdr b (fun d =>
    Done (put_proc p (set_pc (FlushXLog k b (pd_lsn (content d)) (is_set (state d) BM_PERMANENT)) x)
           (put_buf b (in_section clear_just_dirtied d) st))).

Definition XLogFlush (recptr : Z) (w : xlog) : xlog := MkXLog (insert_pos w) (Z.max (flush_pos w) recptr) (RedoRecPtr w).

Definition FlushBuffer_xlog (k : after_flush) (b : nat) (recptr : Z) (perm : bool) : result :=
  Done (put_proc p (set_pc (FlushWrite k b) x) (if perm then set_wal (XLogFlush recptr (wal st)) st else st)).

Definition FlushBuffer_write (k : after_flush) (b : nat) : result :=
  match bufs st !! b with
  | Some d => Done (put_proc p (set_pc (FlushEnd k b) x) (put_disk (tag d) (content d) st))
  | None => Failed
  end.

Definition FlushBuffer_end (k : after_flush) (b : nat) : result :=
  TerminateBufferIO b true 0 (set_pc (flushed k b) x).

(** *** [StrategyGetBuffer] *)

Definition have_free_buffer : bool := 0 <=? firstFreeBuffer (strategy st).

Definition StrategyGetBuffer_start (t : BufferTag) : result :=
  let c := strategy st in
  Done (put_proc p (set_pc (if have_free_buffer then FreePop t else Sweep t (NBuffers st)) x)
    (set_strategy (MkStrategy (firstFreeBuffer c) (lastFreeBuffer c) (nextVictimBuffer c) (completePasses c)
       (u32 (numBufferAllocs c + 1))) st)).

Definition StrategyGetBuffer_pop (t : BufferTag) : result :=
  let c := strategy st in
  if firstFreeBuffer c <? 0 then goto (Sweep t (NBuffers st)) else
  let b := Z.to_nat (firstFreeBuffer c) in
  match bufs st !! b with
  | Some d =>
      if freeNext d =? FREENEXT_NOT_IN_LIST then Failed else
      Done (put_proc p (set_pc (FreeCheck t b) x) (put_buf b (set_next FREENEXT_NOT_IN_LIST d)
        (set_strategy (MkStrategy (freeNext d) (lastFreeBuffer c) (nextVictimBuffer c) (completePasses c)
           (numBufferAllocs c)) st)))
  | None => Failed
  end.

(** The buffer is taken, with the flags it had. *)
Definition victim (t : BufferTag) (b : nat) (d : BufferDesc) : result :=
  let tagged := is_set (state d) BM_TAG_VALID in
  PinBuffer_Locked b d (if is_set (state d) BM_DIRTY then VictimDirty t b tagged else VictimTag t b tagged).

Definition StrategyGetBuffer_check (t : BufferTag) (b : nat) : result :=
  with_hdr b (fun d =>
    if (BUF_STATE_GET_REFCOUNT (state d) =? 0) && (BUF_STATE_GET_USAGECOUNT (state d) =? 0)
    then victim t b d else goto (FreePop t)).

Definition ClockSweepTick (t : BufferTag) (trycounter : Z) : result :=
  let c := strategy st in
  let v := nextVictimBuffer c in
  let hand := v mod NBuffers st in
  Done (put_proc p (set_pc (if (NBuffers st <=? v) && (hand =? 0) then SweepWrap t trycounter (u32 (v + 1))
                            else SweepCheck t trycounter (Z.to_nat hand)) x)
    (set_strategy (MkStrategy (firstFreeBuffer c) (lastFreeBuffer c) (u32 (v + 1)) (completePasses c)
       (numBufferAllocs c)) st)).

Definition ClockSweepTick_wrap (t : BufferTag) (trycounter expected : Z) : result :=
  let c := strategy st in
  if nextVictimBuffer c =? expected then
    Done (put_proc p (set_pc (SweepCheck t trycounter 0) x)
      (set_strategy (MkStrategy (firstFreeBuffer c) (lastFreeBuffer c) (expected mod NBuffers st)
         (u32 (completePasses c + 1)) (numBufferAllocs c)) st))
  else goto (SweepWrap t trycounter (nextVictimBuffer c)).

Definition StrategyGetBuffer_sweep (t : BufferTag) (trycounter : Z) (b : nat) : result :=
  with_hdr b (fun d =>
    if BUF_STATE_GET_REFCOUNT (state d) =? 0 then
      if BUF_STATE_GET_USAGECOUNT (state d) =? 0 then victim t b d
      else Done (put_proc p (set_pc (Sweep t (NBuffers st)) x) (put_buf b (in_section sweep_state d) st))
    else if trycounter - 1 =? 0 then raise
    else goto (Sweep t (trycounter - 1))).

Definition StrategyFreeBuffer (b : nat) (d : BufferDesc) : system :=
  let c := strategy st in
  if freeNext d =? FREENEXT_NOT_IN_LIST then
    put_buf b (set_next (firstFreeBuffer c) d)
      (set_strategy (MkStrategy (Z.of_nat b) (if firstFreeBuffer c <? 0 then Z.of_nat b else lastFreeBuffer c)
         (nextVictimBuffer c) (completePasses c) (numBufferAllocs c)) st)
  else st.

(** *** [BufferAlloc] *)

Definition BufferAlloc_lookup (t : BufferTag) : result :=
  goto (match table st !! t with Some b => PinFound t b LW_SHARED | None => FreeTest t end).

Definition BufferAlloc_dirty (t : BufferTag) (b : nat) (tagged : bool) : result :=
  goto (if available st (ContentLock b) LW_SHARED then FlushLock (ToReuse t tagged) b else Unpin b (ToVictim t)).

Definition BufferAlloc_tag (t : BufferTag) (b : nat) (tagged : bool) : result :=
  match bufs st !! b with
  | Some d => goto (LockFirst t b (if tagged then Some (tag d) else None))
  | None => Failed
  end.

Definition BufferAlloc_lock (t : BufferTag) (b : nat) (old : option BufferTag) : result :=
  match old with
  | None => acquire (part t) LW_EXCLUSIVE (Insert t b None)
  | Some o =>
      if BufMappingPartition o =? BufMappingPartition t then acquire (part t) LW_EXCLUSIVE (Insert t b (Some o))
      else acquire (first_part t o) LW_EXCLUSIVE (LockSecond t b o)
  end.

Definition BufferAlloc_insert (t : BufferTag) (b : nat) (old : option BufferTag) : result :=
  if blockNum t =? P_NEW then Failed else
  match table st !! t with
  | Some b' => goto (Unpin b (ToFound t old b'))
  | None => Done (put_proc p (set_pc (Rename t b old) x) (set_table (<[t := b]> (table st)) st))
  end.

Definition BufferAlloc_rename (t : BufferTag) (b : nat) (old : option BufferTag) : result :=
  with_hdr b (fun d =>
    if (BUF_STATE_GET_REFCOUNT (state d) =? 1) && negb (is_set (state d) BM_DIRTY)
    then Done (put_proc p (set_pc (DeleteOld t b old) x) (put_buf b (set_tag t (in_section (rename_state (permanent t)) d)) st))
    else goto (UndoInsert t b old)).

Definition BufTableDelete (t : BufferTag) (c : pc) : result :=
  match table st !! t with
  | Some _ => Done (put_proc p (set_pc c x) (set_table (delete t (table st)) st))
  | None => Failed
  end.

Definition BufferAlloc_delete (t : BufferTag) (b : nat) (old : option BufferTag) : result :=
  match old with Some o => BufTableDelete o (ReadLock t b) | None => goto (ReadLock t b) end.

(** *** [ReadBuffer_common] *)

Definition ReadBuffer_start (t : BufferTag) (b : nat) : result :=
  StartBufferIO b true (ReadWait t b) (ReadPage t b) (found t b true x).

Definition ReadBuffer_page (t : BufferTag) (b : nat) : result :=
  match bufs st !! b with
  | Some d =>
      if is_set (state d) BM_VALID then Failed
      else Done (put_proc p (set_pc (ReadEnd t b) x) (put_buf b (set_content (disk st t) d) st))
  | None => Failed
  end.

Definition ReadBuffer_end (t : BufferTag) (b : nat) : result := TerminateBufferIO b false BM_VALID (found t b true x).


(** *** [SyncOneBuffer] *)

Definition SyncOneBuffer_check (b : nat) (skip_recently_used : bool) : result :=
  with_hdr b (fun d =>
    let reusable := (BUF_STATE_GET_REFCOUNT (state d) =? 0) && (BUF_STATE_GET_USAGECOUNT (state d) =? 0) in
    if negb reusable && skip_recently_used then goto Idle
    else if negb (is_set (state d) BM_VALID) || negb (is_set (state d) BM_DIRTY) then goto Idle
    else PinBuffer_Locked b d (SyncLock b)).

Definition SyncOneBuffer_lock (b : nat) : result := acquire (ContentLock b) LW_SHARED (FlushLock ToSynced b).

(** *** [DropRelFileNodeBuffers], [InvalidateBuffer] *)

(** The test without the header lock. *)
Definition DropRelFileNodeBuffers_scan (r : droprel) (i : nat) : result :=
  match bufs st !! i with
  | None => goto Idle
  | Some d => goto (if bool_decide (rnode (tag d) = drop_rnode r) then DropCheck r i else DropScan r (S i))
  end.

Definition DropRelFileNodeBuffers_check (r : droprel) (i : nat) : result :=
  with_hdr i (fun d =>
    goto (if bool_decide (rnode (tag d) = drop_rnode r) && (forkNum (tag d) =? drop_fork r) &&
             (firstDelBlock r <=? blockNum (tag d))
          then InvLock r i (tag d) else DropScan r (S i))).

Definition InvalidateBuffer_check (r : droprel) (b : nat) (old : BufferTag) : result :=
  with_hdr b (fun d =>
    if negb (bool_decide (tag d = old)) then goto (DropScan r (S b))
    else if negb (BUF_STATE_GET_REFCOUNT (state d) =? 0) then
      match pins x b with O => goto (InvWait r b old) | S _ => raise end
    else Done (put_proc p (set_pc (InvDelete r b old (is_set (state d) BM_TAG_VALID)) x)
                (put_buf b (set_tag InvalidTag (in_section invalidate_state d)) st))).

Definition InvalidateBuffer_delete (r : droprel) (b : nat) (old : BufferTag) (tagged : bool) : result :=
  if tagged then BufTableDelete old (InvFree r b) else goto (InvFree r b).

Definition InvalidateBuffer_free (r : droprel) (b : nat) : result :=
  match bufs st !! b with
  | Some d => Done (put_proc p (set_pc (DropScan r (S b)) x) (StrategyFreeBuffer b d))
  | None => Failed
  end.

(** *** Content locks and changes of a page *)

Definition LockBuffer (b : nat) (m : LWLockMode) (c : pc) : result :=
  if available st (ContentLock b) m then Done (put_proc p (set_clocks (<[b := Some m]> (clocks x)) (set_pc c x)) st)
  else Asleep.
Definition ConditionalLockBuffer (b : nat) : result :=
  if available st (ContentLock b) LW_EXCLUSIVE then LockBuffer b LW_EXCLUSIVE Idle else goto Idle.

Definition MarkBufferDirty (b : nat) : result :=
  with_hdr b (fun d =>
    if (0 <? pins x b)%nat && bool_decide (clocks x b = Some LW_EXCLUSIVE) && (0 <? BUF_STATE_GET_REFCOUNT (state d))
    then Done (put_proc p (set_pc (Logged b) x) (put_buf b (set_hdr (dirty_state (state d)) d) st))
    else Failed).

Definition XLogInsert (w : xlog) : xlog := MkXLog (insert_pos w + 1) (flush_pos w) (RedoRecPtr w).
Definition PageSetLSN (lsn : Z) (d : BufferDesc) : BufferDesc := set_content (MkPage lsn (pd_data (content d))) d.

(** The change is logged, when the relation is. *)
Definition log_change (b : nat) : result :=
  match bufs st !! b with
  | Some d =>
      if permanent (tag d)
      then Done (put_proc p (set_pc Idle x)
                  (put_buf b (PageSetLSN (insert_pos (XLogInsert (wal st))) d) (set_wal (XLogInsert (wal st)) st)))
      else goto Idle
  | None => Failed
  end.

Definition MarkBufferDirtyHint_test (b : nat) : result :=
  match bufs st !! b with
  | Some d =>
      if (0 <? pins x b)%nat && negb (bool_decide (clocks x b = None))
      then goto (if is_set (state d) BM_DIRTY && is_set (state d) BM_JUST_DIRTIED then Idle else HintLog b)
      else Failed
  | None => Failed
  end.

(** [XLogSaveBufferForHint], where it is called; 0 is the invalid position. *)
Definition MarkBufferDirtyHint_log (b : nat) : result :=
  with_hdr b (fun d =>
    if XLogHintBitIsNeeded && is_set (state d) BM_PERMANENT && (pd_lsn (content d) <=? RedoRecPtr (wal st))
    then Done (put_proc p (set_pc (HintMark b (insert_pos (XLogInsert (wal st)))) x) (set_wal (XLogInsert (wal st)) st))
    else goto (HintMark b 0)).

Definition MarkBufferDirtyHint_mark (b : nat) (lsn : Z) : result :=
  with_hdr b (fun d =>
    if 0 <? BUF_STATE_GET_REFCOUNT (state d)
    then Done (put_proc p (set_pc Idle x)
                (put_buf b (if negb (is_set (state d) BM_DIRTY) && negb (lsn =? 0)
                            then PageSetLSN lsn (in_section dirty_state d) else in_section dirty_state d) st))
    else Failed).

(** *** [LockBufferForCleanup] *)

Definition LockBufferForCleanup_check (b : nat) : result :=
  with_hdr b (fun d =>
    if BUF_STATE_GET_REFCOUNT (state d) =? 0 then Failed
    else if BUF_STATE_GET_REFCOUNT (state d) =? 1 then goto Idle
    else if is_set (state d) BM_PIN_COUNT_WAITER then raise
    else Done (put_proc p (set_clocks (<[b := None]> (clocks x)) (set_wait (Some b) (set_pc (CleanWait b) x)))
                (put_buf b (set_waiter p (in_section wait_state d)) st))).

Definition ProcWaitForSignal (c : pc) : result :=
  if latches st p then Done (put_proc p (set_pc c x) (set_latch p false st)) else Asleep.

(** The flag goes, when it is mine. *)
Definition unwait (d : BufferDesc) : BufferDesc :=
  if is_set (state d) BM_PIN_COUNT_WAITER && (wait_backend d =? p)%nat then in_section unwait_state d else d.

Definition clear_waiter (b : nat) (c : pc) : result :=
  with_hdr b (fun d => Done (put_proc p (set_wait None (set_pc c x)) (put_buf b (unwait d) st))).

(** *** The abort of a transaction *)

Definition AbortBufferIO_lock : result :=
  match InProgressBuf x with
  | Some (b, i) => acquire (IOLock b) LW_EXCLUSIVE (AbortCheck b i)
  | None => goto AbortUnlock
  end.

Definition AbortBufferIO_check (b : nat) (IsForInput : bool) : result :=
  with_hdr b (fun d =>
    if is_set (state d) BM_IO_IN_PROGRESS &&
       (if IsForInput then negb (is_set (state d) BM_DIRTY) && negb (is_set (state d) BM_VALID) else is_set (state d) BM_DIRTY)
    then goto (AbortEnd b) else Failed).

Definition UnlockBuffers : result :=
  match PinCountWaitBuf x with Some b => clear_waiter b AbortPins | None => goto AbortPins end.

(** [ResourceOwnerRelease] drops the pins. *)
Definition ReleasePins : result :=
  match list_find (fun b => (0 < pins x b)%nat) (seq 0 (length (bufs st))) with
  | Some (_, b) => goto (Unpin b ToAbort)
  | None => goto Idle
  end.

(** ** Steps *)

Definition step_proc : result :=
  match at_pc x with
  | Idle => Asleep
  | LookupLock t => acquire (part t) LW_SHARED (Lookup t)
  | Lookup t => BufferAlloc_lookup t
  | PinFound t b _ => PinBuffer t b
  | FreeTest t => StrategyGetBuffer_start t
  | FreePop t => StrategyGetBuffer_pop t
  | FreeCheck t b => StrategyGetBuffer_check t b
  | Sweep t n => ClockSweepTick t n
  | SweepWrap t n e => ClockSweepTick_wrap t n e
  | SweepCheck t n b => StrategyGetBuffer_sweep t n b
  | VictimDirty t b tagged => BufferAlloc_dirty t b tagged
  | VictimTag t b tagged => BufferAlloc_tag t b tagged
  | LockFirst t b old => BufferAlloc_lock t b old
  | LockSecond t b o => acquire (second_part t o) LW_EXCLUSIVE (Insert t b (Some o))
  | Insert t b old => BufferAlloc_insert t b old
  | Rename t b old => BufferAlloc_rename t b old
  | DeleteOld t b old => BufferAlloc_delete t b old
  | UndoInsert t b old => BufTableDelete t (Unpin b (ToVictim t))
  | FlushLock k b => StartBufferIO_lock b (FlushStart k b)
  | FlushStart k b => FlushBuffer_start k b
  | FlushWait k b => WaitIO b (FlushWaitLock k b) (FlushLock k b)
  | FlushWaitLock k b => WaitIO_lock b (FlushWait k b)
  | FlushClear k b => FlushBuffer_clear k b
  | FlushXLog k b recptr perm => FlushBuffer_xlog k b recptr perm
  | FlushWrite k b => FlushBuffer_write k b
  | FlushEnd k b => FlushBuffer_end k b
  | ReadLock t b => StartBufferIO_lock b (ReadStart t b)
  | ReadStart t b => ReadBuffer_start t b
  | ReadWait t b => WaitIO b (ReadWaitLock t b) (ReadLock t b)
  | ReadWaitLock t b => WaitIO_lock b (ReadWait t b)
  | ReadPage t b => ReadBuffer_page t b
  | ReadEnd t b => ReadBuffer_end t b
  | Unpin b k => UnpinBuffer b k
  | UnpinSignal b k => UnpinBuffer_signal b k
  | SendSignal q k => ProcSendSignal q (unpinned k)
  | SyncCheck b skip => SyncOneBuffer_check b skip
  | SyncLock b => SyncOneBuffer_lock b
  | DropScan r i => DropRelFileNodeBuffers_scan r i
  | DropCheck r i => DropRelFileNodeBuffers_check r i
  | InvLock r b old => acquire (part old) LW_EXCLUSIVE (InvCheck r b old)
  | InvCheck r b old => InvalidateBuffer_check r b old
  | InvWait r b old => WaitIO b (InvWaitLock r b old) (InvLock r b old)
  | InvWaitLock r b old => WaitIO_lock b (InvWait r b old)
  | InvDelete r b old tagged => InvalidateBuffer_delete r b old tagged
  | InvFree r b => InvalidateBuffer_free r b
  | LockContent b m => LockBuffer b m Idle
  | TryLock b => ConditionalLockBuffer b
  | Modified b => MarkBufferDirty b
  | Logged b => log_change b
  | Hinted b => MarkBufferDirtyHint_test b
  | HintLog b => MarkBufferDirtyHint_log b
  | HintMark b lsn => MarkBufferDirtyHint_mark b lsn
  | CleanLock b => LockBuffer b LW_EXCLUSIVE (CleanCheck b)
  | CleanCheck b => LockBufferForCleanup_check b
  | CleanWait b => ProcWaitForSignal (CleanClear b)
  | CleanClear b => clear_waiter b (CleanLock b)
  | AbortIO => AbortBufferIO_lock
  | AbortCheck b i => AbortBufferIO_check b i
  | AbortEnd b => TerminateBufferIO b false BM_IO_ERROR (set_pc AbortUnlock x)
  | AbortUnlock => UnlockBuffers
  | AbortPins => ReleasePins
  end.

(** ** Calls *)

Inductive routine :=
  | ReadBuffer (t : BufferTag)
  | LockBuffer_ (b : nat) (m : LWLockMode)
  | ConditionalLockBuffer_ (b : nat)
  | UnlockBuffer (b : nat)
  | ReleaseBuffer (b : nat)
  | IncrBufferRefCount (b : nat)
  | ModifyPage (b : nat) (data : Z)
  | SetHint (b : nat) (data : Z)
  | SyncOneBuffer (b : nat) (skip_recently_used : bool)
  | DropRelFileNodeBuffers (r : droprel)
  | LockBufferForCleanup (b : nat).

(** A change of the data of a page, before the buffer is marked. *)
Definition write_data (b : nat) (data : Z) (c : pc) : result :=
  match bufs st !! b with
  | Some d => Done (put_proc p (set_pc c x) (put_buf b (set_content (MkPage (pd_lsn (content d)) data) d) st))
  | None => Asleep
  end.

Definition when (test : bool) (r : result) : result := if test then r else Asleep.

(** The entry of a routine, under the rules for its callers: a page is locked,
    read and changed by a process that has it pinned, and changed under the
    lock; a lock is not taken twice, and the last pin is not dropped under it. *)
Definition enter (r : routine) : result :=
  match r with
  | ReadBuffer t => when (negb (blockNum t =? P_NEW)) (Done (put_proc p (set_returned None (set_pc (LookupLock t) x)) st))
  | LockBuffer_ b m =>
      when ((0 <? pins x b)%nat && bool_decide (clocks x b = None) && (bool_decide (m = LW_SHARED) || bool_decide (m = LW_EXCLUSIVE)))
        (goto (LockContent b m))
  | ConditionalLockBuffer_ b => when ((0 <? pins x b)%nat && bool_decide (clocks x b = None)) (goto (TryLock b))
  | UnlockBuffer b =>
      when (negb (bool_decide (clocks x b = None))) (Done (put_proc p (set_clocks (<[b := None]> (clocks x)) x) st))
  | ReleaseBuffer b =>
      when ((0 <? pins x b)%nat && (negb (pins x b =? 1)%nat || bool_decide (clocks x b = None))) (goto (Unpin b ToIdle))
  | IncrBufferRefCount b => when (0 <? pins x b)%nat (Done (put_proc p (set_pins b (S (pins x b)) x) st))
  | ModifyPage b v => when ((0 <? pins x b)%nat && bool_decide (clocks x b = Some LW_EXCLUSIVE)) (write_data b v (Modified b))
  | SetHint b v => when ((0 <? pins x b)%nat && negb (bool_decide (clocks x b = None))) (write_data b v (Hinted b))
  | SyncOneBuffer b skip => when ((pins x b =? 0)%nat && (b <? length (bufs st))%nat) (goto (SyncCheck b skip))
  | DropRelFileNodeBuffers r => goto (DropScan r 0)
  | LockBufferForCleanup b =>
      when ((0 <? pins x b)%nat && bool_decide (clocks x b = None))
        (match PinCountWaitBuf x with
         | Some _ => Failed
         | None => if (pins x b =? 1)%nat then goto (CleanLock b) else raise
         end)
  end.

(** Where an error may come from outside: between calls, in a read, in a flush
    of the log, in a write, and in a wait. *)
Definition may_fail (c : pc) : bool :=
  match c with Idle | ReadPage _ _ | FlushXLog _ _ _ _ | FlushWrite _ _ | CleanWait _ => true | _ => false end.

End Step.

(** ** Runs *)

Inductive move := Call (p : nat) (r : routine) | Run (p : nat) | Error (p : nat) | Post (p : nat) | Checkpoint.

(** A routine is called by a process that is in none; a process runs; an error
    is thrown in one; somebody sets its latch; a checkpoint begins. *)
Definition do_move (mv : move) (st : system) : result :=
  match mv with
  | Call p r =>
      match procs st !! p with
      | Some x => match at_pc x with Idle => enter p x st r | _ => Asleep end
      | None => Asleep
      end
  | Run p => match procs st !! p with Some x => step_proc p x st | None => Asleep end
  | Error p =>
      match procs st !! p with
      | Some x => if may_fail (at_pc x) then raise p x st else Asleep
      | None => Asleep
      end
  | Post p => Done (set_latch p true st)
  | Checkpoint => Done (set_wal (MkXLog (insert_pos (wal st)) (flush_pos (wal st)) (insert_pos (wal st))) st)
  end.

(** [InitBufferPool], [StrategyInitialize]. *)
Definition new_buffer (n i : nat) : BufferDesc :=
  MkBuf InvalidTag 0 0 (if (S i =? n)%nat then FREENEXT_END_OF_LIST else Z.of_nat (S i)) zero_page.
Definition InitBufferPool (n : nat) : list BufferDesc := map (new_buffer n) (seq 0 n).
Definition StrategyInitialize (n : nat) : BufferStrategyControl := MkStrategy 0 (Z.of_nat n - 1) 0 0 0.

(** The pool holds at least one buffer, and a number of a buffer is an [int];
    what is on the disk was logged before. *)
Definition init_ok (n nprocs : nat) (dk : BufferTag -> page) (w : xlog) : Prop :=
  (0 < n)%nat /\ Z.of_nat n < 2 ^ 31 /\ Z.of_nat nprocs <= Varsup.Varsup.MAX_BACKENDS /\
  0 <= insert_pos w /\ forall t, permanent t = true -> pd_lsn (dk t) <= flush_pos w.

Definition init (n nprocs : nat) (dk : BufferTag -> page) (w : xlog) : system :=
  MkSys (InitBufferPool n) ∅ dk (StrategyInitialize n) w (fun _ => false) (replicate nprocs new_proc).

Inductive reachable : system -> Prop :=
  | reach_init n nprocs dk w : init_ok n nprocs dk w -> reachable (init n nprocs dk w)
  | reach_move st mv st' : reachable st -> do_move mv st = Done st' -> reachable st'.

(** A sequence of moves, each of which is possible. *)
Fixpoint run (ms : list move) (st : system) : result :=
  match ms with
  | [] => Done st
  | m :: ms' => match do_move m st with Done st' => run ms' st' | r => r end
  end.

End Pool.

(** The code of a step. *)
Ltac unfold_step Hs :=
  unfold step_proc, BufferAlloc_lookup, PinBuffer, StrategyGetBuffer_start, StrategyGetBuffer_pop,
    StrategyGetBuffer_check, ClockSweepTick, ClockSweepTick_wrap, StrategyGetBuffer_sweep, victim, BufferAlloc_dirty,
    BufferAlloc_tag, BufferAlloc_lock, BufferAlloc_insert, BufferAlloc_rename, BufferAlloc_delete,
    FlushBuffer_start, FlushBuffer_clear, FlushBuffer_xlog, FlushBuffer_write, FlushBuffer_end, ReadBuffer_start,
    ReadBuffer_page, ReadBuffer_end, StartBufferIO_lock, StartBufferIO, WaitIO, WaitIO_lock, TerminateBufferIO,
    UnpinBuffer, UnpinBuffer_signal, ProcSendSignal, SyncOneBuffer_check, SyncOneBuffer_lock,
    DropRelFileNodeBuffers_scan, DropRelFileNodeBuffers_check, InvalidateBuffer_check, InvalidateBuffer_delete,
    InvalidateBuffer_free, StrategyFreeBuffer, ConditionalLockBuffer, LockBuffer, MarkBufferDirty, log_change, MarkBufferDirtyHint_test,
    MarkBufferDirtyHint_log, MarkBufferDirtyHint_mark, LockBufferForCleanup_check, ProcWaitForSignal,
    AbortBufferIO_lock, AbortBufferIO_check, UnlockBuffers, ReleasePins, BufTableDelete, clear_waiter, PinBuffer_Locked, raise, acquire, goto,
    with_hdr, found in Hs.

End Bufmgr.
