(* ===== verification/BufInv.v ===== *)
(** * Shared buffers: the invariant

    What holds between the steps of [Bufmgr]: the headers count the pins and the
    I/O of the processes, lightweight locks exclude each other, the mapping
    table agrees with the tags, and each process relies on facts about buffers
    and table entries that follow from its control point.  A step of one process
    is a [change] of the shared state; the facts that another one relies on are
    protected by its pins, locks or I/O. *)

From S2P Require Import Prelude.
From S2P Require Import Words.
From S2P Require Import Bufhdr.
From S2P Require Import Bufmgr.
From stdpp Require Import functions.

Import Words Bufhdr Bufmgr.

Open Scope Z_scope.

Module BufInv.

Section Invariant.
Context `{BufEnv}.
Implicit Types (st : system) (x y : proc) (b : nat) (t : BufferTag).

(** ** What matters of a buffer *)

Record core := MkCore { c_tag : BufferTag; c_view : hview; c_page : page }.
Definition core_of (d : BufferDesc) : core := MkCore (tag d) (view (state d)) (content d).
Definition look st b : option core := core_of <$> bufs st !! b.
Definition on st b (P : core -> Prop) : Prop := exists c, look st b = Some c /\ P c.

Definition has_pin b y : bool := (0 <? pins y b)%nat.
Definition has_io b y : bool := bool_decide (fst <$> InProgressBuf y = Some b).

(** A process changed the page, and has yet to mark the buffer. *)
Definition dirtying y b : bool :=
  match at_pc y with
  | Modified b' | Hinted b' | HintLog b' | HintMark b' _ => (b' =? b)%nat
  | _ => false
  end.
Definition being_dirtied st b : Prop := exists q y, procs st !! q = Some y /\ dirtying y b = true.

(** An entry of the table whose buffer does not have the tag, or not yet. *)
Definition pending y t b : Prop :=
  match at_pc y with
  | Rename t' b' _ | UndoInsert t' b' _ => t' = t /\ b' = b
  | DeleteOld _ b' (Some o) => o = t /\ b' = b
  | InvDelete _ b' old true => old = t /\ b' = b
  | _ => False
  end.

(** ** What a process relies on *)

Inductive fact :=
  | Tagged b t
  | HasTag b (tagged : bool)
  | NotTag b t
  | Entry t b
  | Lsn b (recptr : Z) (perm : bool)
  | Flushable b
  | Written b
  | Loaded b t
  | Redirtied b.

Definition holds_in st (f : fact) : Prop :=
  match f with
  | Tagged b t => on st b (fun c => v_tagged (c_view c) = true /\ c_tag c = t)
  | HasTag b tagged => on st b (fun c => v_tagged (c_view c) = tagged)
  | NotTag b t => on st b (fun c => ~ (v_tagged (c_view c) = true /\ c_tag c = t))
  | Entry t b => table st !! t = Some b
  | Lsn b recptr perm => on st b (fun c => pd_lsn (c_page c) = recptr /\ v_perm (c_view c) = perm)
  | Flushable b => on st b (fun c => permanent (c_tag c) = true -> pd_lsn (c_page c) <= flush_pos (wal st))
  | Written b => on st b (fun c => c_page c = disk st (c_tag c) \/ v_just (c_view c) = true \/ being_dirtied st b)
  | Loaded b t => on st b (fun c => c_page c = disk st t)
  | Redirtied b => on st b (fun c => v_dirty (c_view c) = true /\ v_just (c_view c) = true)
  end.

Definition old_facts b (old : option BufferTag) : list fact :=
  match old with Some o => [Tagged b o] | None => [HasTag b false] end.
Definition flush_facts (k : after_flush) b : list fact :=
  match k with ToReuse _ tagged => [HasTag b tagged] | ToSynced => [] end.
Definition unpin_facts (k : after_unpin) : list fact :=
  match k with ToFound t _ b => [Tagged b t; Entry t b] | _ => [] end.

Definition facts_of (c : pc) : list fact :=
  match c with
  | PinFound t b _ => [Tagged b t; Entry t b]
  | VictimDirty _ b tagged | VictimTag _ b tagged => [HasTag b tagged]
  | LockFirst _ b old | Insert _ b old => old_facts b old
  | LockSecond _ b o => [Tagged b o]
  | Rename t b old | UndoInsert t b old => Entry t b :: NotTag b t :: old_facts b old
  | DeleteOld t b old => Tagged b t :: match old with Some o => [Entry o b; NotTag b o] | None => [] end
  | FlushLock k b | FlushStart k b | FlushWait k b | FlushWaitLock k b | FlushClear k b => flush_facts k b
  | FlushXLog k b recptr perm => Lsn b recptr perm :: flush_facts k b
  | FlushWrite k b => Flushable b :: flush_facts k b
  | FlushEnd k b => Written b :: flush_facts k b
  | ReadLock t b | ReadStart t b | ReadWait t b | ReadWaitLock t b | ReadPage t b => [Tagged b t]
  | ReadEnd t b => [Loaded b t; Tagged b t]
  | Unpin _ k | UnpinSignal _ k | SendSignal _ k => unpin_facts k
  | InvDelete _ b old true => [Entry old b; NotTag b old]
  | Logged b => [Redirtied b]
  | _ => []
  end.

(** The buffer that a routine has pinned for itself. *)
Definition focus (c : pc) : option nat :=
  match c with
  | VictimDirty _ b _ | VictimTag _ b _ | LockFirst _ b _ | LockSecond _ b _ | Insert _ b _ | Rename _ b _
  | DeleteOld _ b _ | UndoInsert _ b _ | FlushLock _ b | FlushStart _ b | FlushWait _ b | FlushWaitLock _ b
  | FlushClear _ b | FlushXLog _ b _ _ | FlushWrite _ b | FlushEnd _ b | ReadLock _ b | ReadStart _ b | ReadWait _ b
  | ReadWaitLock _ b | ReadPage _ b | ReadEnd _ b | SyncLock b | Unpin b (ToVictim _) | Unpin b (ToFound _ _ _) => Some b
  | _ => None
  end.

Definition aborting (c : pc) : bool :=
  match c with
  | AbortIO | AbortCheck _ _ | AbortEnd _ | AbortUnlock | AbortPins
  | Unpin _ ToAbort | UnpinSignal _ ToAbort | SendSignal _ ToAbort => true
  | _ => false
  end.

(** A pinned buffer that need not be valid. *)
Definition busy x b : bool :=
  bool_decide (focus (at_pc x) = Some b) || aborting (at_pc x) ||
  match at_pc x with Unpin b' _ => (b' =? b)%nat && (pins x b =? 1)%nat | _ => false end.

Definition io_ok (c : pc) (io : option (nat * bool)) : Prop :=
  match c with
  | FlushClear _ b | FlushXLog _ b _ _ | FlushWrite _ b | FlushEnd _ b => io = Some (b, false)
  | ReadPage _ b | ReadEnd _ b => io = Some (b, true)
  | AbortCheck b i => io = Some (b, i)
  | AbortEnd b => fst <$> io = Some b
  | AbortIO => True
  | _ => io = None
  end.

Definition wait_ok (c : pc) (w : option nat) : Prop :=
  match c with
  | CleanWait b | CleanClear b => w = Some b
  | AbortIO | AbortCheck _ _ | AbortEnd _ | AbortUnlock => True
  | _ => w = None
  end.

(** The page that the routine looks for. *)
Definition wanted (c : pc) : option BufferTag :=
  match c with
  | LookupLock t | Lookup t | FreeTest t | FreePop t | FreeCheck t _ | Sweep t _ | SweepWrap t _ _ | SweepCheck t _ _
  | VictimDirty t _ _ | VictimTag t _ _ | LockFirst t _ _ | LockSecond t _ _ | Insert t _ _ | UndoInsert t _ _
  | Rename t _ _ => Some t
  | FlushLock (ToReuse t _) _ | FlushStart (ToReuse t _) _ | FlushWait (ToReuse t _) _ | FlushWaitLock (ToReuse t _) _
  | FlushClear (ToReuse t _) _ | FlushXLog (ToReuse t _) _ _ _ | FlushWrite (ToReuse t _) _ | FlushEnd (ToReuse t _) _ => Some t
  | Unpin _ (ToVictim t) | UnpinSignal _ (ToVictim t) | SendSignal _ (ToVictim t) => Some t
  | _ => None
  end.

Definition pc_ok x : Prop :=
  match at_pc x with
  | Unpin b _ => (0 < pins x b)%nat /\ (pins x b = 1%nat -> clocks x b = None)
  | LockContent b m => (0 < pins x b)%nat /\ clocks x b = None /\ (m = LW_SHARED \/ m = LW_EXCLUSIVE)
  | TryLock b | CleanLock b | CleanWait b | CleanClear b => (0 < pins x b)%nat /\ clocks x b = None
  | CleanCheck b | Modified b | Logged b => clocks x b = Some LW_EXCLUSIVE
  | Hinted b | HintLog b | HintMark b _ => clocks x b <> None
  | SyncCheck b _ => pins x b = 0%nat
  | LockSecond t _ o => BufMappingPartition o <> BufMappingPartition t
  | Rename t _ old | DeleteOld t _ old | UndoInsert t _ old => old <> Some t
  | _ => True
  end.

Record wf x : Prop := Wf {
  wf_focus b : focus (at_pc x) = Some b -> pins x b = 1%nat /\ clocks x b = None;
  wf_clocks b : clocks x b <> None -> (0 < pins x b)%nat;
  wf_abort b : aborting (at_pc x) = true -> clocks x b = None;
  wf_io : io_ok (at_pc x) (InProgressBuf x);
  wf_wait : wait_ok (at_pc x) (PinCountWaitBuf x);
  wf_waiting b : PinCountWaitBuf x = Some b -> (0 < pins x b)%nat;
  wf_pc : pc_ok x;
  wf_wanted t : wanted (at_pc x) = Some t -> blockNum t <> P_NEW }.

(** Buffers that are looked at without a pin exist. *)
Definition in_range st (c : pc) : Prop :=
  match c with
  | FreeCheck _ b | SweepCheck _ _ b | SyncCheck b _ | UnpinSignal b _ | DropCheck _ b | InvLock _ b _ | InvCheck _ b _
  | InvWait _ b _ | InvWaitLock _ b _ | InvDelete _ b _ _ | InvFree _ b => is_Some (look st b)
  | _ => True
  end.

Definition io_facts st x : Prop := forall b i, InProgressBuf x = Some (b, i) ->
  (0 < pins x b)%nat /\
  on st b (fun c => v_io (c_view c) = true /\ if i : bool then v_valid (c_view c) = false else v_dirty (c_view c) = true).

Definition pin_facts st x : Prop := forall b, (0 < pins x b)%nat ->
  is_Some (look st b) /\ (busy x b = false -> on st b (fun c => v_valid (c_view c) = true)).

Record relies st x : Prop := Relies {
  r_wf : wf x;
  r_range : in_range st (at_pc x);
  r_facts : Forall (holds_in st) (facts_of (at_pc x));
  r_io : io_facts st x;
  r_pins : pin_facts st x }.

(** ** The invariant *)

Definition headers_ok st : Prop := forall b d, bufs st !! b = Some d -> hdr_ok (state d) /\ is_set (state d) BM_LOCKED = false.

Record core_ok st b (c : core) : Prop := CoreOk {
  co_dirty : v_dirty (c_view c) = true -> v_valid (c_view c) = true;
  co_valid : v_valid (c_view c) = true -> v_tagged (c_view c) = true;
  co_perm : v_tagged (c_view c) = true -> v_perm (c_view c) = permanent (c_tag c);
  co_refs : v_refs (c_view c) = countb (has_pin b) (procs st);
  co_io : Z.b2z (v_io (c_view c)) = countb (has_io b) (procs st);
  co_page : v_valid (c_view c) = true -> c_page c = disk st (c_tag c) \/ v_dirty (c_view c) = true \/ being_dirtied st b;
  co_table : v_tagged (c_view c) = true -> table st !! c_tag c = Some b }.

Definition exclusive st : Prop := forall p q x y l m,
  p <> q -> procs st !! p = Some x -> procs st !! q = Some y -> holds x l = Some m -> conflicts (holds y l) m = false.

Definition table_ok st : Prop := forall t b, table st !! t = Some b ->
  on st b (fun c => v_tagged (c_view c) = true /\ c_tag c = t) \/
  (exists q y, procs st !! q = Some y /\ pending y t b).

Definition wal_ok st : Prop := forall t, permanent t = true -> pd_lsn (disk st t) <= flush_pos (wal st).

(** The list of free buffers. *)
Fixpoint free_list st (first : Z) (l : list nat) : Prop :=
  match l with
  | [] => first < 0 /\ first <> FREENEXT_NOT_IN_LIST
  | b :: l' => first = Z.of_nat b /\ exists d, bufs st !! b = Some d /\ free_list st (freeNext d) l'
  end.
Definition free_ok st : Prop := exists l,
  free_list st (firstFreeBuffer (strategy st)) l /\ NoDup l /\
  forall b d, bufs st !! b = Some d -> (freeNext d <> FREENEXT_NOT_IN_LIST <-> b ∈ l).

Record inv st : Prop := Inv {
  i_size : (0 < length (bufs st))%nat /\ Z.of_nat (length (procs st)) <= Varsup.Varsup.MAX_BACKENDS;
  i_headers : headers_ok st;
  i_cores b c : look st b = Some c -> core_ok st b c;
  i_excl : exclusive st;
  i_table : table_ok st;
  i_wal : wal_ok st;
  i_free : free_ok st;
  i_relies p x : procs st !! p = Some x -> relies st x }.

End Invariant.
End BufInv.
