(* ===== verification/BufSteps.v ===== *)
(** * Shared buffers: what a step changes

    Each step of a process of [Bufmgr] changes the shared state in one of a few
    ways, under conditions that follow from the invariant of [BufInv]. *)

From S2P Require Import Prelude.
From S2P Require Import Words.
From S2P Require Import Bufhdr.
From S2P Require Import Bufmgr.
From S2P Require Import BufInv.
From stdpp Require Import functions.

Import Words Bufhdr Bufmgr BufInv.

Open Scope Z_scope.

Module BufSteps.

Section Steps.
Context `{BufEnv}.
Implicit Types (st : system) (x y : proc) (b : nat) (t : BufferTag) (c : core) (v : hview).

(** ** Changes of a header *)

Definition set_dirty v : hview := MkView (v_refs v) true (v_valid v) (v_tagged v) (v_io v) true (v_perm v).
Definition set_busy v : hview := MkView (v_refs v) (v_dirty v) (v_valid v) (v_tagged v) true (v_just v) (v_perm v).
Definition clear_just v : hview := MkView (v_refs v) (v_dirty v) (v_valid v) (v_tagged v) (v_io v) false (v_perm v).
Definition end_write v : hview :=
  MkView (v_refs v) (v_dirty v && v_just v) (v_valid v) (v_tagged v) false (v_just v) (v_perm v).
Definition end_read v : hview := MkView (v_refs v) (v_dirty v) true (v_tagged v) false (v_just v) (v_perm v).
Definition end_error v : hview := MkView (v_refs v) (v_dirty v) (v_valid v) (v_tagged v) false (v_just v) (v_perm v).
Definition renamed (perm : bool) v : hview := MkView (v_refs v) false false true (v_io v) false perm.
Definition invalidated v : hview := MkView (v_refs v) false false false false false false.

(** A descriptor in order, and what matters of it. *)
Definition good (d : BufferDesc) (c : core) : Prop :=
  core_of d = c /\ hdr_ok (state d) /\ is_set (state d) BM_LOCKED = false.

Definition with_view (g : hview -> hview) c : core := MkCore (c_tag c) (g (c_view c)) (c_page c).
Definition with_page (pg : page) c : core := MkCore (c_tag c) (c_view c) pg.
Definition with_tag t c : core := MkCore t (c_view c) (c_page c).

Section Good.
Context (d : BufferDesc) (Hd : hdr_ok (state d)).
Let c := core_of d.

Lemma good_section f g :
  (forall z, hdr_ok z -> BUF_STATE_GET_REFCOUNT z = BUF_STATE_GET_REFCOUNT (state d) ->
     BUF_STATE_GET_USAGECOUNT z = BUF_STATE_GET_USAGECOUNT (state d) -> updates f g z) ->
  good (in_section f d) (with_view g c).
Proof.
  intros Hf. destruct (section_view f g (state d) Hd) as [[S1 S2] S3]; [intros; by apply Hf|].
  split; [|split; [exact S1|exact S3]]. unfold core_of, in_section, with_view, c. cbn. by rewrite S2.
Qed.

Lemma good_pin_locked : v_refs (c_view c) + 1 < 2 ^ 18 ->
  good (in_section pin_locked_state d) (with_view (with_refs (v_refs (c_view c) + 1)) c).
Proof.
  intros Hr. apply good_section. intros z Hz Er _. cbn in Hr |- *. rewrite <- Er in Hr |- *. by apply add_ref_view.
Qed.

Lemma good_sweep : BUF_STATE_GET_USAGECOUNT (state d) <> 0 -> good (in_section sweep_state d) c.
Proof.
  intros Hu. replace c with (with_view (fun v => v) c) by (by destruct c). apply good_section.
  intros z Hz _ Eu. apply sweep_view; [done|by rewrite Eu].
Qed.

Lemma good_dirty : good (in_section dirty_state d) (with_view set_dirty c).
Proof. apply good_section. intros. by apply dirty_view. Qed.
Lemma good_start_io : good (in_section start_io_state d) (with_view set_busy c).
Proof. apply good_section. intros. by apply start_io_view. Qed.
Lemma good_clear_just : good (in_section clear_just_dirtied d) (with_view clear_just c).
Proof. apply good_section. intros. by apply clear_just_view. Qed.
Lemma good_end_write : good (in_section (terminate_state true 0) d) (with_view end_write c).
Proof. apply good_section. intros. by apply terminate_write_view. Qed.
Lemma good_end_read : good (in_section (terminate_state false BM_VALID) d) (with_view end_read c).
Proof. apply good_section. intros. by apply terminate_read_view. Qed.
Lemma good_end_error : good (in_section (terminate_state false BM_IO_ERROR) d) (with_view end_error c).
Proof. apply good_section. intros. by apply terminate_error_view. Qed.
Lemma good_rename p : good (in_section (rename_state p) d) (with_view (renamed p) c).
Proof. apply good_section. intros. by apply rename_view. Qed.
Lemma good_invalidate : good (in_section invalidate_state d) (with_view invalidated c).
Proof. apply good_section. intros. by apply invalidate_view. Qed.
Lemma good_wait : good (in_section wait_state d) c.
Proof. replace c with (with_view (fun v => v) c) by (by destruct c). apply good_section. intros. by apply set_wait_view. Qed.
Lemma good_unwait : good (in_section unwait_state d) c.
Proof. replace c with (with_view (fun v => v) c) by (by destruct c). apply good_section. intros. by apply clear_wait_view. Qed.

Context (Hl : is_set (state d) BM_LOCKED = false).

Lemma good_id : good d c.
Proof. done. Qed.

Lemma good_pin : v_refs (c_view c) + 1 < 2 ^ 18 ->
  good (set_hdr (pin_state (state d)) d) (with_view (with_refs (v_refs (c_view c) + 1)) c).
Proof.
  intros Hr. cbn in Hr |- *. destruct (pin_view (state d) Hd Hr) as [P1 P2]. split; [|split; [done|]].
  - unfold core_of, with_view, c. cbn. by rewrite P2.
  - cbn. by rewrite pin_unlocked.
Qed.

Lemma good_unpin : 0 < v_refs (c_view c) ->
  good (set_hdr (unpin_state (state d)) d) (with_view (with_refs (v_refs (c_view c) - 1)) c).
Proof.
  intros Hr. cbn in Hr |- *. destruct (unpin_view (state d) Hd Hr) as [P1 P2]. split; [|split; [done|]].
  - unfold core_of, with_view, c. cbn. by rewrite P2.
  - cbn. by rewrite unpin_unlocked.
Qed.

Lemma good_mark : good (set_hdr (dirty_state (state d)) d) (with_view set_dirty c).
Proof.
  destruct (dirty_view (state d) Hd) as [P1 P2]. split; [|split; [done|]].
  - unfold core_of, with_view, c. cbn. by rewrite P2.
  - cbn. by rewrite dirty_unlocked.
Qed.
End Good.

Lemma good_page d c pg : good d c -> good (set_content pg d) (with_page pg c).
Proof. intros (<- & ? & ?). done. Qed.
Lemma good_tag d c t : good d c -> good (set_tag t d) (with_tag t c).
Proof. intros (<- & ? & ?). done. Qed.
Lemma good_waiter d c q : good d c -> good (set_waiter q d) c.
Proof. intros (<- & ? & ?). done. Qed.
Lemma good_next d c n : good d c -> good (set_next n d) c.
Proof. intros (<- & ? & ?). done. Qed.

(** ** Changes of the state *)

Inductive bstep x x' b c : core -> Prop :=
  | B_refs n : bstep x x' b c (with_view (with_refs n) c)
  | B_start : bstep x x' b c (with_view set_busy c)
  | B_just : InProgressBuf x = Some (b, false) -> holds x (ContentLock b) = Some LW_SHARED ->
      bstep x x' b c (with_view clear_just c)
  | B_endwrite : InProgressBuf x = Some (b, false) -> holds x (ContentLock b) = Some LW_SHARED ->
      Written b ∈ facts_of (at_pc x) ->
      bstep x x' b c (with_view end_write c)
  | B_endread t : InProgressBuf x = Some (b, true) -> Loaded b t ∈ facts_of (at_pc x) -> Tagged b t ∈ facts_of (at_pc x) ->
      bstep x x' b c (with_view end_read c)
  | B_enderr : has_io b x = true -> bstep x x' b c (with_view end_error c)
  | B_dirty lsn : has_pin b x = true -> v_valid (c_view c) = true ->
      (v_dirty (c_view c) = true -> lsn = pd_lsn (c_page c)) ->
      bstep x x' b c (with_page (MkPage lsn (pd_data (c_page c))) (with_view set_dirty c))
  | B_rename t : has_pin b x = true -> v_refs (c_view c) = 1 -> v_dirty (c_view c) = false ->
      Entry t b ∈ facts_of (at_pc x) -> holds x (part t) = Some LW_EXCLUSIVE -> focus (at_pc x') = Some b ->
      (v_tagged (c_view c) = true -> holds x (part (c_tag c)) = Some LW_EXCLUSIVE /\ pending x' (c_tag c) b) ->
      bstep x x' b c (with_tag t (with_view (renamed (permanent t)) c))
  | B_inval r : v_refs (c_view c) = 0 -> holds x (part (c_tag c)) = Some LW_EXCLUSIVE ->
      (v_tagged (c_view c) = true -> pending x' (c_tag c) b) -> at_pc x = InvCheck r b (c_tag c) ->
      bstep x x' b c (with_tag InvalidTag (with_view invalidated c))
  | B_read pg : InProgressBuf x = Some (b, true) -> bstep x x' b c (with_page pg c)
  | B_write data : clocks x b <> None -> dirtying x' b = true -> bstep x x' b c (with_page (MkPage (pd_lsn (c_page c)) data) c)
  | B_log lsn : clocks x b = Some LW_EXCLUSIVE -> v_dirty (c_view c) = true -> v_just (c_view c) = true ->
      bstep x x' b c (with_page (MkPage lsn (pd_data (c_page c))) c).

Inductive effect x x' st st' : Prop :=
  | E_quiet : (forall b, look st' b = look st b) -> table st' = table st -> disk st' = disk st ->
      flush_pos (wal st) <= flush_pos (wal st') -> effect x x' st st'
  | E_buf b c c' : look st b = Some c -> (forall b', look st' b' = if decide (b' = b) then Some c' else look st b') ->
      table st' = table st -> disk st' = disk st -> flush_pos (wal st) <= flush_pos (wal st') ->
      bstep x x' b c c' -> effect x x' st st'
  | E_insert t b : (forall b, look st' b = look st b) -> table st' = <[t := b]> (table st) -> disk st' = disk st ->
      flush_pos (wal st) <= flush_pos (wal st') ->
      table st !! t = None -> holds x (part t) = Some LW_EXCLUSIVE -> pending x' t b -> effect x x' st st'
  | E_delete t b : (forall b, look st' b = look st b) -> table st' = delete t (table st) -> disk st' = disk st ->
      flush_pos (wal st) <= flush_pos (wal st') ->
      Entry t b ∈ facts_of (at_pc x) -> NotTag b t ∈ facts_of (at_pc x) -> holds x (part t) = Some LW_EXCLUSIVE ->
      effect x x' st st'
  | E_write b c : look st b = Some c -> (forall b, look st' b = look st b) -> table st' = table st ->
      disk st' = <[c_tag c := c_page c]> (disk st) -> flush_pos (wal st) <= flush_pos (wal st') ->
      InProgressBuf x = Some (b, false) -> Flushable b ∈ facts_of (at_pc x) -> effect x x' st st'.
End Steps.
(** A step of a process: it runs, it calls a routine, or an error is thrown in it. *)
Definition acts `{BufEnv} (p : nat) (x : proc) (st st' : system) : Prop :=
  step_proc p x st = Done st' \/ (at_pc x = Idle /\ exists r, enter p x st r = Done st') \/
  (may_fail (at_pc x) = true /\ raise p x st = Done st').

Ltac split_result Hs :=
  repeat match type of Hs with
  | context [match ?e with _ => _ end] => let Eq := fresh "Eq" in destruct e eqn:Eq; try discriminate Hs
  end;
  injection Hs as <-.

Ltac step_cases Epc Hs :=
  unfold_step Hs; match type of Hs with context [match at_pc ?x with _ => _ end] => destruct (at_pc x) eqn:Epc end;
  try discriminate Hs; cbv zeta in Hs; split_result Hs.

(** The cases of a step. *)
Ltac act_cases Epc Hs :=
  let r := fresh "r" in let Hm := fresh "Hm" in destruct Hs as [Hs|[(Epc & r & Hs)|(Hm & Hs)]];
  [step_cases Epc Hs
  |destruct r; unfold enter, when, write_data, goto, raise in Hs; rewrite ?Epc in *; split_result Hs
  |match type of Hm with may_fail (at_pc ?x) = true => destruct (at_pc x) eqn:Epc end; try discriminate Hm;
   unfold raise in Hs; injection Hs as <-].

(** The process after the step. *)
Ltac the_proc Hx Hx' :=
  cbn [procs put_proc put_buf set_table put_disk set_strategy set_wal set_latch] in Hx';
  rewrite (list_lookup_insert_eq _ _ _ (lookup_lt_Some _ _ _ Hx)) in Hx'; injection Hx' as <-.

Section Effects.
Context `{BufEnv}.
Implicit Types (st : system) (x y : proc) (b : nat) (t : BufferTag) (c : core) (v : hview).

Lemma look_put_buf st b d d' b' : bufs st !! b = Some d ->
  look (put_buf b d' st) b' = if decide (b' = b) then Some (core_of d') else look st b'.
Proof.
  intros Hd. unfold look. cbn. destruct (decide (b' = b)) as [->|].
  - by rewrite list_lookup_insert_eq by (by eapply lookup_lt_Some).
  - by rewrite list_lookup_insert_ne by done.
Qed.

Lemma look_same st b d d' b' : bufs st !! b = Some d -> core_of d' = core_of d -> look (put_buf b d' st) b' = look st b'.
Proof.
  intros Hd E. rewrite (look_put_buf _ _ d) by done. destruct (decide (b' = b)) as [->|]; [|done].
  unfold look. by rewrite Hd, E.
Qed.

Lemma look_buf st b d : bufs st !! b = Some d -> look st b = Some (core_of d).
Proof. unfold look. by intros ->. Qed.

Lemma look_desc st b c : look st b = Some c -> exists d, bufs st !! b = Some d /\ c = core_of d.
Proof. unfold look. intros (d & Hd & ->)%fmap_Some. by exists d. Qed.

Lemma on_buf st b d P : bufs st !! b = Some d -> on st b P <-> P (core_of d).
Proof.
  intros Hd. unfold on. rewrite (look_buf _ _ _ Hd). split.
  - intros (c & [= <-] & HP). done.
  - intros HP. by eexists.
Qed.

Lemma act_procs p x st st' : acts p x st st' -> exists x', procs st' = <[p := x']> (procs st).
Proof. intros Hs. act_cases Epc Hs; eexists; reflexivity. Qed.

Lemma look_good p x'' st st0 b b' d d' c' :
  bufs st !! b = Some d -> good d' c' -> bufs st0 = bufs st ->
  look (put_proc p x'' (put_buf b d' st0)) b' = if decide (b' = b) then Some c' else look st b'.
Proof.
  intros Hd (G & _ & _) Eb. transitivity (look (put_buf b d' st0) b'); [reflexivity|].
  rewrite (look_put_buf _ _ d) by (by rewrite Eb). rewrite G. unfold look. by rewrite Eb.
Qed.

(** A descriptor is replaced by one that is in order. *)
Lemma effect_good p x x' x'' st st0 b d d' c' :
  bufs st !! b = Some d -> good d' c' ->
  bufs st0 = bufs st -> table st0 = table st -> disk st0 = disk st -> flush_pos (wal st) <= flush_pos (wal st0) ->
  (core_of d = c' \/ bstep x x' b (core_of d) c') ->
  effect x x' st (put_proc p x'' (put_buf b d' st0)).
Proof.
  intros Hd G Eb Et Ed Ew Hc. pose proof (fun b' => look_good p x'' st st0 b b' d d' c' Hd G Eb) as L.
  destruct Hc as [E|Hc].
  - apply E_quiet; [|done..]. intros b'. rewrite L. destruct (decide (b' = b)) as [->|]; [|done]. by rewrite <- E, (look_buf _ _ d).
  - eapply E_buf; [by apply look_buf|exact L|done..].
Qed.

Lemma headers_good p x'' st st0 b d d' c' :
  headers_ok st -> bufs st !! b = Some d -> good d' c' -> bufs st0 = bufs st ->
  headers_ok (put_proc p x'' (put_buf b d' st0)).
Proof.
  intros Ho Hd (_ & G) Eb b' e. cbn. rewrite Eb. destruct (decide (b' = b)) as [->|].
  - rewrite list_lookup_insert_eq by (by eapply lookup_lt_Some). intros [= <-]. exact G.
  - rewrite list_lookup_insert_ne by done. apply Ho.
Qed.

Lemma count_room (f : proc -> bool) st p x :
  procs st !! p = Some x -> f x = false -> countb f (procs st) + 1 <= Z.of_nat (length (procs st)).
Proof.
  intros Hx Hf. revert p Hx. generalize (procs st). intros l. induction l as [|y l IH]; intros [|p] Hp; cbn in *; try done.
  - injection Hp as ->. rewrite Hf. pose proof (countb_le f l). cbn. lia.
  - specialize (IH p Hp). destruct (f y); cbn; lia.
Qed.


Lemma pin_room st p x b d : inv st -> procs st !! p = Some x -> pins x b = 0%nat -> bufs st !! b = Some d ->
  v_refs (c_view (core_of d)) + 1 < 2 ^ 18.
Proof.
  intros I Hx Hp Hd. rewrite (co_refs _ _ _ (i_cores _ I _ _ (look_buf _ _ _ Hd))).
  pose proof (count_room (has_pin b) st p x Hx ltac:(unfold has_pin; by rewrite Hp)). pose proof (i_size _ I) as [_ Hm].
  unfold Varsup.Varsup.MAX_BACKENDS in Hm. lia.
Qed.

Lemma pin_counted st p x b d : inv st -> procs st !! p = Some x -> (0 < pins x b)%nat -> bufs st !! b = Some d ->
  0 < v_refs (c_view (core_of d)).
Proof.
  intros I Hx Hp Hd. rewrite (co_refs _ _ _ (i_cores _ I _ _ (look_buf _ _ _ Hd))). apply countb_lookup.
  exists p, x. split; [done|]. unfold has_pin. by apply Nat.ltb_lt.
Qed.

(** Somebody else has it pinned too. *)
Lemma pin_shared st p q x y b d : inv st -> procs st !! p = Some x -> procs st !! q = Some y -> p <> q ->
  (0 < pins x b)%nat -> (0 < pins y b)%nat -> bufs st !! b = Some d -> 2 <= v_refs (c_view (core_of d)).
Proof.
  intros I Hx Hy Hpq Px Py Hd. rewrite (co_refs _ _ _ (i_cores _ I _ _ (look_buf _ _ _ Hd))).
  eapply (countb_two _ _ p q); [done|done|done|by apply Nat.ltb_lt..].
Qed.

(** The descriptor that a step leaves is in order. *)
Ltac good_step :=
  match goal with
  | |- good (set_content _ _) _ => apply good_page; good_step
  | |- good (PageSetLSN _ _) _ => apply good_page; good_step
  | |- good (set_tag _ _) _ => apply good_tag; good_step
  | |- good (set_waiter _ _) _ => apply good_waiter; good_step
  | |- good (set_next _ _) _ => apply good_next; good_step
  | |- good (in_section pin_locked_state _) _ => apply good_pin_locked; [assumption|by eapply pin_room]
  | |- good (in_section sweep_state _) _ => apply good_sweep; [assumption|by apply Z.eqb_neq]
  | |- good (in_section dirty_state _) _ => by apply good_dirty
  | |- good (in_section start_io_state _) _ => by apply good_start_io
  | |- good (in_section clear_just_dirtied _) _ => by apply good_clear_just
  | |- good (in_section (terminate_state true 0) _) _ => by apply good_end_write
  | |- good (in_section (terminate_state false BM_VALID) _) _ => by apply good_end_read
  | |- good (in_section (terminate_state false BM_IO_ERROR) _) _ => by apply good_end_error
  | |- good (in_section (rename_state _) _) _ => by apply good_rename
  | |- good (in_section invalidate_state _) _ => by apply good_invalidate
  | |- good (in_section wait_state _) _ => by apply good_wait
  | |- good (in_section unwait_state _) _ => by apply good_unwait
  | |- good (unwait _ _) _ => unfold unwait; case_match; good_step
  | |- good (set_hdr (pin_state _) _) _ => apply good_pin; [assumption..|by eapply pin_room]
  | |- good (set_hdr (unpin_state _) _) _ => apply good_unpin; [assumption..|
      match goal with I : inv _, Hx : procs _ !! _ = Some ?x, Hd : bufs _ !! ?b = Some _ |- _ =>
        exact (pin_counted _ _ x b _ I Hx ltac:(lia) Hd) end]
  | |- good (set_hdr (dirty_state _) _) _ => by apply good_mark
  | |- good _ _ => by apply good_id
  end.

Lemma act_headers p x st st' : inv st -> procs st !! p = Some x -> acts p x st st' -> headers_ok st'.
Proof.
  intros I Hx Hs. pose proof (i_headers _ I) as Ho.
  act_cases Epc Hs; try exact Ho.
  all: match goal with Hd : bufs ?s !! _ = Some ?d |- _ =>
    destruct (Ho _ _ Hd) as [Hok Hul]; eapply headers_good; [exact Ho|exact Hd| |reflexivity] end.
  all: good_step.
Qed.

Lemma fact_in st x f : relies st x -> f ∈ facts_of (at_pc x) -> holds_in st f.
Proof. intros R Hf. pose proof (r_facts _ _ R) as F. rewrite List.Forall_forall in F. apply F. by apply list_elem_of_In. Qed.

Lemma locked_new t old : locked_as (part t) (both_parts t old) = Some LW_EXCLUSIVE.
Proof. unfold both_parts. cbn [locked_as]. by rewrite bool_decide_true. Qed.
Lemma locked_old t o : locked_as (part o) (both_parts t (Some o)) = Some LW_EXCLUSIVE.
Proof. unfold both_parts. cbn [locked_as]. case_bool_decide; [done|]. by rewrite bool_decide_true. Qed.

(** A lock of the routine. *)
Lemma holds_pc x l m : locked_as l (pc_locks (at_pc x)) = Some m -> holds x l = Some m.
Proof. unfold holds. by intros ->. Qed.

Ltac pc_lock E := apply holds_pc; rewrite E; cbn [pc_locks]; first
  [apply locked_new | apply locked_old
  | cbn [locked_as]; rewrite bool_decide_true by done; reflexivity
  | cbn [locked_as]; rewrite bool_decide_false by done; rewrite bool_decide_true by done; reflexivity].

(** A client's buffer is valid. *)
Lemma client_valid st x b d : relies st x -> (0 < pins x b)%nat -> busy x b = false -> bufs st !! b = Some d ->
  v_valid (c_view (core_of d)) = true.
Proof. intros R Hp Hb Hd. by apply (on_buf st b d (fun c => v_valid (c_view c) = true) Hd), (r_pins _ _ R). Qed.

Lemma dirty_page (d : BufferDesc) : with_view set_dirty (core_of d) =
  with_page (MkPage (pd_lsn (content d)) (pd_data (content d))) (with_view set_dirty (core_of d)).
Proof. unfold with_page, with_view, core_of. cbn. by destruct (content d). Qed.

Ltac in_facts E := rewrite E; cbn; set_solver.

Lemma act_effect p x x' st st' :
  inv st -> procs st !! p = Some x -> acts p x st st' -> procs st' !! p = Some x' -> effect x x' st st'.
Proof.
  intros I Hx Hs Hx'. pose proof (i_relies _ I _ _ Hx) as R. pose proof (i_headers _ I) as Ho.
  pose proof (wf_io _ (r_wf _ _ R)) as Wio. pose proof (wf_pc _ (r_wf _ _ R)) as Wpc. unfold pc_ok in Wpc.
  act_cases Epc Hs; the_proc Hx Hx'; cbn [io_ok] in Wio.
  all: try (apply E_quiet; [intros ?; reflexivity|reflexivity|reflexivity|cbn; lia]).
  all: try (match goal with Hd : bufs ?s !! _ = Some ?d |- effect _ _ _ (put_proc _ _ (put_buf _ _ _)) =>
    destruct (Ho _ _ Hd) as [Hok Hul]; eapply effect_good; [exact Hd|good_step|reflexivity|reflexivity|reflexivity|cbn; lia|] end).
  all: try (left; reflexivity).
  all: try (right; first [apply B_refs|apply B_start]).
  - apply (E_insert _ _ _ _ t b); [done..|cbn; lia|done|pc_lock Epc|done].
  - right. apply andb_true_iff in Eq1 as [Er%Z.eqb_eq Ed%negb_true_iff].
    destruct (wf_focus _ (r_wf _ _ R) b ltac:(by rewrite Epc)) as [Hp _].
    apply B_rename; [unfold has_pin; by rewrite Hp|done|done|in_facts Epc|pc_lock Epc|done|].
    intros Ht. destruct old as [o|].
    + assert (T : holds_in st (Tagged b o)) by (apply (fact_in _ _ _ R); in_facts Epc).
      apply (on_buf _ _ _ _ Eq) in T as [_ T]. rewrite T. split; [pc_lock Epc|]. done.
    + assert (T : holds_in st (HasTag b false)) by (apply (fact_in _ _ _ R); in_facts Epc).
      apply (on_buf _ _ _ _ Eq) in T. congruence.
  - apply (E_delete _ _ _ _ b0 b); [done..|cbn; lia|in_facts Epc|in_facts Epc|pc_lock Epc].
  - apply (E_delete _ _ _ _ t b); [done..|cbn; lia|in_facts Epc|in_facts Epc|pc_lock Epc].
  - right. apply B_just; [done|]. pc_lock Epc.
  - eapply (E_write _ _ _ _ b); [by apply look_buf|done|done|done|cbn; lia|done|in_facts Epc].
  - right. apply B_endwrite; [done|pc_lock Epc|in_facts Epc].
  - right. by apply B_read.
  - right. apply (B_endread _ _ _ _ t); [done|in_facts Epc|in_facts Epc].
  - right. apply negb_false_iff, bool_decide_eq_true in Eq1. apply negb_false_iff, Z.eqb_eq in Eq2.
    apply (B_inval _ _ _ _ r); [done|cbn; rewrite Eq1; pc_lock Epc| |cbn; by rewrite Eq1]. cbn. intros ->. unfold pending. cbn. done.
  - apply (E_delete _ _ _ _ old b); [done..|cbn; lia|in_facts Epc|in_facts Epc|pc_lock Epc].
  - right. rewrite dirty_page.
    assert (Hp : (0 < pins x b)%nat) by (apply (wf_clocks _ (r_wf _ _ R)); by rewrite Wpc).
    apply B_dirty; [by apply Nat.ltb_lt| |done]. eapply client_valid; [done|done| |done]. unfold busy. by rewrite Epc.
  - right.
    assert (T : holds_in st (Redirtied b)) by (apply (fact_in _ _ _ R); in_facts Epc).
    apply (on_buf _ _ _ _ Eq) in T as [T1 T2]. by apply B_log.
  - right.
    assert (Hp : (0 < pins x b)%nat) by (by apply (wf_clocks _ (r_wf _ _ R))).
    apply B_dirty; [by apply Nat.ltb_lt| |].
    + eapply client_valid; [done|done| |done]. unfold busy. by rewrite Epc.
    + cbn. intros Hd. by rewrite Hd in Eq2.
  - right. rewrite dirty_page.
    assert (Hp : (0 < pins x b)%nat) by (by apply (wf_clocks _ (r_wf _ _ R))).
    apply B_dirty; [by apply Nat.ltb_lt| |done]. eapply client_valid; [done|done| |done]. unfold busy. by rewrite Epc.
  - right. apply B_enderr. by apply bool_decide_eq_true.
  - right. apply andb_true_iff in Eq as [_ Hc%bool_decide_eq_true].
    apply B_write; [by rewrite Hc|]. unfold dirtying. cbn. by rewrite Nat.eqb_refl.
  - right. apply andb_true_iff in Eq as [_ Hc%negb_true_iff%bool_decide_eq_false].
    apply B_write; [done|]. unfold dirtying. cbn. by rewrite Nat.eqb_refl.
Qed.
End Effects.

(** The descriptor that a step leaves is in order. *)
Ltac good_step :=
  match goal with
  | |- good (set_content _ _) _ => apply good_page; good_step
  | |- good (PageSetLSN _ _) _ => apply good_page; good_step
  | |- good (set_tag _ _) _ => apply good_tag; good_step
  | |- good (set_waiter _ _) _ => apply good_waiter; good_step
  | |- good (set_next _ _) _ => apply good_next; good_step
  | |- good (in_section pin_locked_state _) _ => apply good_pin_locked; [assumption|by eapply pin_room]
  | |- good (in_section sweep_state _) _ => apply good_sweep; [assumption|by apply Z.eqb_neq]
  | |- good (in_section dirty_state _) _ => by apply good_dirty
  | |- good (in_section start_io_state _) _ => by apply good_start_io
  | |- good (in_section clear_just_dirtied _) _ => by apply good_clear_just
  | |- good (in_section (terminate_state true 0) _) _ => by apply good_end_write
  | |- good (in_section (terminate_state false BM_VALID) _) _ => by apply good_end_read
  | |- good (in_section (terminate_state false BM_IO_ERROR) _) _ => by apply good_end_error
  | |- good (in_section (rename_state _) _) _ => by apply good_rename
  | |- good (in_section invalidate_state _) _ => by apply good_invalidate
  | |- good (in_section wait_state _) _ => by apply good_wait
  | |- good (in_section unwait_state _) _ => by apply good_unwait
  | |- good (unwait _ _) _ => unfold unwait; case_match; good_step
  | |- good (set_hdr (pin_state _) _) _ => apply good_pin; [assumption..|by eapply pin_room]
  | |- good (set_hdr (unpin_state _) _) _ => apply good_unpin; [assumption..|
      match goal with I : inv _, Hx : procs _ !! _ = Some ?x, Hd : bufs _ !! ?b = Some _ |- _ =>
        exact (pin_counted _ _ x b _ I Hx ltac:(lia) Hd) end]
  | |- good (set_hdr (dirty_state _) _) _ => by apply good_mark
  | |- good _ _ => by apply good_id
  end.


(** What a buffer is after a step. *)
Ltac after_look Ho Hc' :=
  lazymatch type of Hc' with
  | look (put_proc _ _ (put_buf ?b1 _ _)) ?b = Some ?c' =>
      let Hok := fresh "Hok" in let Hul := fresh "Hul" in let G := fresh "G" in let Heq := fresh "Heq" in
      match goal with Hd : bufs _ !! b1 = Some _ |- _ =>
        destruct (Ho _ _ Hd) as [Hok Hul];
        erewrite (look_good _ _ _ _ _ _ _ _ _ Hd) in Hc'; [|good_step|reflexivity];
        destruct (decide (b = b1)) as [Heq|Heq];
        [subst b; injection Hc' as <-|]
      end
  | look (put_proc _ _ ?s) ?b = Some ?c' => lazymatch type of Ho with headers_ok ?st => change (look st b = Some c') in Hc' end
  end.

(** Private counts and locks after an update of one. *)
Ltac fn_cases :=
  repeat match goal with
  | |- context [<[?b := _]> _ ?b'] => destruct (decide (b = b')) as [->|];
      [rewrite !fn_lookup_insert|rewrite !fn_lookup_insert_ne by done]
  | Hl : context [<[?b := _]> _ ?b'] |- _ => destruct (decide (b = b')) as [->|];
      [rewrite !fn_lookup_insert in Hl|rewrite !fn_lookup_insert_ne in Hl by done]
  end.

(** Tests as propositions. *)
Ltac bools :=
  repeat match goal with
  | E : _ && _ = true |- _ => apply andb_true_iff in E as [? ?]
  | E : (_ <? _)%nat = true |- _ => apply Nat.ltb_lt in E
  | E : (_ =? _)%nat = true |- _ => apply Nat.eqb_eq in E
  | E : (_ =? _)%nat = false |- _ => apply Nat.eqb_neq in E
  | E : bool_decide _ = true |- _ => apply bool_decide_eq_true in E
  | E : bool_decide _ = false |- _ => apply bool_decide_eq_false in E
  | E : negb _ = true |- _ => apply negb_true_iff in E
  | E : negb _ = false |- _ => apply negb_false_iff in E
  | E : _ || _ = true |- _ => apply orb_true_iff in E as [?|?]
  end.

End BufSteps.
