(* ===== verification/BufLocal.v ===== *)
(** * Shared buffers: the process that makes a step

    What a step of [Bufmgr] does to the process that makes it: its pins and its
    I/O change as the headers do, it takes locks only when they are available,
    and at its next control point it still relies on what is true. *)

From S2P Require Import Prelude.
From S2P Require Import Words.
From S2P Require Import Bufhdr.
From S2P Require Import Bufmgr.
From S2P Require Import BufInv.
From S2P Require Import BufSteps.
From stdpp Require Import functions.

Import Words Bufhdr Bufmgr BufInv BufSteps.

Open Scope Z_scope.

Module BufLocal.

Section Local.
Context `{BufEnv}.
Implicit Types (st : system) (x y : proc) (b : nat) (t : BufferTag) (c : core) (v : hview).


(** ** Counts *)

Definition counted x x' b c c' : Prop :=
  v_refs (c_view c') = v_refs (c_view c) - Z.b2z (has_pin b x) + Z.b2z (has_pin b x') /\
  Z.b2z (v_io (c_view c')) = Z.b2z (v_io (c_view c)) - Z.b2z (has_io b x) + Z.b2z (has_io b x').

Lemma has_pin_pos b x : has_pin b x = true <-> (0 < pins x b)%nat.
Proof. apply Nat.ltb_lt. Qed.

Lemma counted_same x x' b c c' :
  (0 < pins x' b <-> 0 < pins x b)%nat -> InProgressBuf x' = InProgressBuf x ->
  v_refs (c_view c') = v_refs (c_view c) -> v_io (c_view c') = v_io (c_view c) -> counted x x' b c c'.
Proof.
  intros Hp Hi Er Ei. unfold counted. assert (E : has_pin b x' = has_pin b x).
  { apply eq_true_iff_eq. by rewrite !has_pin_pos. }
  rewrite Er, Ei, E. unfold has_io. rewrite Hi. lia.
Qed.

(** A buffer that nobody has pinned is not in I/O. *)
Lemma unpinned_idle st b c : inv st -> look st b = Some c -> v_refs (c_view c) = 0 -> v_io (c_view c) = false.
Proof.
  intros I Hc H0. pose proof (i_cores _ I _ _ Hc) as C. destruct (v_io (c_view c)) eqn:E; [|done].
  pose proof (co_io _ _ _ C) as Ei. rewrite E in Ei. assert (0 < countb (has_io b) (procs st)) as Hp by (rewrite <- Ei; done).
  apply countb_lookup in Hp as (q & y & Hy & Hio). apply bool_decide_eq_true in Hio.
  destruct (InProgressBuf y) as [[b' i]|] eqn:Eb; [|done]. injection Hio as ->.
  destruct (r_io _ _ (i_relies _ I _ _ Hy) b i Eb) as [Hpin _].
  destruct (look_desc _ _ _ Hc) as (d & Hd & ->). pose proof (pin_counted _ _ _ _ _ I Hy Hpin Hd). lia.
Qed.

Ltac counting :=
  unfold counted, has_pin, has_io; cbn -[Z.add Z.sub];
  rewrite ?fn_lookup_insert; rewrite ?fn_lookup_insert_ne by done;
  repeat match goal with
  | E : pins _ _ = _ |- _ => rewrite ?E; clear E
  | E : InProgressBuf _ = _ |- _ => rewrite ?E; clear E
  | E : is_set _ _ = _ |- _ => rewrite ?E; clear E
  end; cbn -[Z.add Z.sub];
  repeat case_bool_decide; try congruence; cbn -[Z.add Z.sub]; try lia.

Lemma act_counts p x x' st st' b c c' :
  inv st -> procs st !! p = Some x -> acts p x st st' -> procs st' !! p = Some x' ->
  look st b = Some c -> look st' b = Some c' -> counted x x' b c c'.
Proof.
  intros I Hx Hs Hx' Hc Hc'. pose proof (i_relies _ I _ _ Hx) as R. pose proof (i_headers _ I) as Ho.
  pose proof (wf_io _ (r_wf _ _ R)) as Wio. pose proof (wf_pc _ (r_wf _ _ R)) as Wpc. unfold pc_ok in Wpc.
  act_cases Epc Hs; the_proc Hx Hx'; cbn [io_ok] in Wio; after_look Ho Hc'.
  all: try (assert (c' = c) as -> by congruence; by apply counted_same).
  all: try match goal with Hd : bufs ?s !! ?b = Some ?d, Hc : look ?s ?b = Some _ |- _ =>
    rewrite (look_buf _ _ _ Hd) in Hc; injection Hc as <- end.
  all: try by apply counted_same.
  all: try (assert (c' = c) as -> by congruence).
  all: try (counting; fail).
  - apply counted_same; [|done..]. cbn. destruct (decide (b0 = b)) as [->|]; [rewrite fn_lookup_insert|by rewrite fn_lookup_insert_ne].
    lia.
  - apply counted_same; [|done..]. cbn. destruct (decide (b0 = b)) as [->|]; [rewrite fn_lookup_insert|by rewrite fn_lookup_insert_ne].
    lia.
  - match goal with Hd : bufs ?s !! _ = Some _ |- _ => pose proof (look_buf _ _ _ Hd) as L end.
    match goal with E : negb (_ =? 0) = false |- _ => apply negb_false_iff, Z.eqb_eq in E; pose proof (unpinned_idle _ _ _ I L E) as U end.
    apply counted_same; [done|done|done|by rewrite U].
  - apply Nat.ltb_lt in Eq. apply counted_same; [|done..]. cbn.
    destruct (decide (b0 = b)) as [->|]; [rewrite fn_lookup_insert|by rewrite fn_lookup_insert_ne]. lia.
Qed.


(** ** Locks *)

Lemma act_clocks p x x' st st' b m :
  procs st !! p = Some x -> acts p x st st' -> procs st' !! p = Some x' ->
  clocks x' b = Some m -> clocks x b = Some m \/ available st (ContentLock b) m = true.
Proof.
  intros Hx Hs Hx'. act_cases Epc Hs; the_proc Hx Hx'; cbn.
  all: try by left.
  all: intros Hl.
  all: try match type of Hl with <[?b0 := _]> _ _ = _ => destruct (decide (b0 = b)) as [->|];
    [rewrite fn_lookup_insert in Hl|rewrite fn_lookup_insert_ne in Hl by done; by left] end; try done.
  all: injection Hl as <-; by right.
Qed.

Lemma locked_cons l l' m m' ls : locked_as l ((l', m') :: ls) = Some m ->
  (l = l' /\ m = m') \/ (l <> l' /\ locked_as l ls = Some m).
Proof. cbn [locked_as]. case_bool_decide; [intros [= <-]; by left|by right]. Qed.

Lemma locked_unpinned l m k : locked_as l (pc_locks (unpinned k)) = Some m -> locked_as l (unpin_locks k) = Some m.
Proof.
  destruct k as [| |t old b|]; cbn [unpinned pc_locks unpin_locks]; try done.
  intros [[-> ->]|[_ Hl]]%locked_cons; [apply locked_new|done].
Qed.

Lemma act_pc_locks p x x' st st' l m :
  procs st !! p = Some x -> acts p x st st' -> procs st' !! p = Some x' ->
  locked_as l (pc_locks (at_pc x')) = Some m ->
  locked_as l (pc_locks (at_pc x)) = Some m \/ available st l m = true.
Proof.
  intros Hx Hs Hx'. act_cases Epc Hs; the_proc Hx Hx'; rewrite ?Epc;
    cbn [at_pc set_pc set_pins set_io set_wait set_clocks set_returned pc_locks].
  all: intros Hl; try (by left); try (by rewrite Epc in Hl); try (left; by apply locked_unpinned).
  all: try (apply locked_cons in Hl as [[-> ->]|[_ Hl]]; [by right|done]).
  - apply locked_cons in Hl as [[-> ->]|[Hn Hl]]; [by right|].
    apply locked_cons in Hl as [[-> ->]|[_ Hl]]; [|done]. apply Z.eqb_eq in Eq0. unfold part in *. rewrite Eq0 in Hn. done.
  - assert (E : l = first_part t old \/ l = second_part t old).
    { apply locked_cons in Hl as [[-> ->]|[_ Hl]]; [|apply locked_cons in Hl as [[-> ->]|[_ Hl]]; [|done]];
        unfold first_part, second_part; destruct (_ <? _); auto. }
    assert (m = LW_EXCLUSIVE) as ->.
    { apply locked_cons in Hl as [[_ ->]|[_ Hl]]; [done|]. by apply locked_cons in Hl as [[_ ->]|[_ Hl]]. }
    destruct E as [->| ->]; [|by right]. left. cbn [locked_as]. by rewrite bool_decide_true.
  - apply locked_cons in Hl as [[-> ->]|[_ Hl]]; [by right|by left].
  - left. apply locked_cons in Hl as [[-> ->]|[_ Hl]]; [|done]. cbn [locked_as]. rewrite bool_decide_false by done. by rewrite bool_decide_true.
  - by destruct k.
  - by destruct k.
Qed.

(** A client's content lock is not one of the routine. *)
Lemma client_lock x b m : wf x -> clocks x b = Some m -> holds x (ContentLock b) = Some m.
Proof.
  intros W Hc. unfold holds. assert (E : locked_as (ContentLock b) (pc_locks (at_pc x)) = None); [|by rewrite E].
  assert (Hf : focus (at_pc x) <> Some b) by (intros F; apply (wf_focus _ W) in F as [_ F]; congruence).
  destruct (locked_as _ _) eqn:Hl; [|done]. exfalso.
  destruct (at_pc x) eqn:Epc; cbn [pc_locks unpin_locks] in Hl; try done.
  all: repeat match type of Hl with
    | locked_as _ (both_parts _ ?o) = _ => unfold both_parts in Hl; destruct o
    | locked_as _ (unpin_locks ?k) = _ => destruct k; cbn [unpin_locks] in Hl
    | locked_as _ (_ :: _) = _ => apply locked_cons in Hl as [[E _]|[_ Hl]];
        [first [discriminate E | unfold first_part in E; by destruct (_ <? _) | injection E as ->; by cbn in Hf]|]
    | locked_as _ [] = _ => done
    end.
Qed.

Lemma holds_inv x l m : wf x -> holds x l = Some m ->
  locked_as l (pc_locks (at_pc x)) = Some m \/ exists b, l = ContentLock b /\ clocks x b = Some m.
Proof.
  intros W. unfold holds. destruct (locked_as l (pc_locks (at_pc x))) as [m'|]; [intros [= ->]; by left|].
  destruct l as [|b|]; try done. right. by exists b.
Qed.

(** A lock is taken when it is available. *)
Lemma act_holds p x x' st st' l m :
  wf x -> wf x' -> procs st !! p = Some x -> acts p x st st' -> procs st' !! p = Some x' ->
  holds x' l = Some m -> holds x l = Some m \/ available st l m = true.
Proof.
  intros W W' Hx Hs Hx' [Hl|(b & -> & Hc)]%holds_inv; [| |done].
  - destruct (act_pc_locks _ _ _ _ _ _ _ Hx Hs Hx' Hl) as [E|E]; [left; by apply holds_pc|by right].
  - destruct (act_clocks _ _ _ _ _ _ _ Hx Hs Hx' Hc) as [E|E]; [left; by apply client_lock|by right].
Qed.


(** ** Bookkeeping *)

Lemma unpinned_unlocked x b : wf x -> pins x b = 0%nat -> clocks x b = None.
Proof. intros W Hp. destruct (clocks x b) eqn:E; [|done]. pose proof (wf_clocks _ W b ltac:(by rewrite E)). lia. Qed.

Lemma act_wf p x x' st st' :
  inv st -> procs st !! p = Some x -> acts p x st st' -> procs st' !! p = Some x' -> wf x'.
Proof.
  intros I Hx Hs Hx'. pose proof (i_relies _ I _ _ Hx) as R. pose proof (fun b => unpinned_unlocked x b (r_wf _ _ R)) as W0.
  destruct (r_wf _ _ R) as [W1 W2 W3 W4 W5 W6 W7 W8]. unfold pc_ok in W7.
  act_cases Epc Hs; the_proc Hx Hx'; cbn in W1, W3, W4, W5, W8.
  all: try match goal with |- context [flushed ?k _] => destruct k end.
  all: try match goal with |- context [unpinned ?k] => destruct k end.
  all: constructor; cbn; try done.
  all: try (intros; by apply W2). all: try (intros; by apply W6). all: try (intros; by apply W8).
  all: try (intros; by apply W1).
  all: try (intros; by apply W3).
  all: rewrite ?Epc in *; cbn; try done.
  all: bools; cbn in *.
  all: try (intros; fn_cases; simplify_eq; first [done | lia | by apply W2 | by apply W6]).
  all: try (intros; fn_cases; simplify_eq; split; [first [lia|by apply W1]|auto]; fail).
  all: try (specialize (W1 _ eq_refl) as [W1 W1']; split; [lia|done]).
  all: try (intros; fn_cases; simplify_eq; first [tauto|congruence]).
  all: try (intros bb Hb0; fn_cases; [exfalso; apply Hb0; by apply W7|by apply W2]; fail).
  all: try (unfold pc_ok; cbn; by rewrite Epc).
  - intros ->. assert (T : holds_in st (Tagged b t)) by (apply (fact_in _ _ _ R); rewrite Epc; cbn; set_solver).
    destruct T as (c & Hc & T1 & T2). pose proof (co_table _ _ _ (i_cores _ I _ _ Hc) T1). congruence.
  - by rewrite fn_lookup_insert.
  - intros bb [= <-]. apply W2. by rewrite W7.
  - rewrite fn_lookup_insert. split; [|done]. apply W2. by rewrite W7.
  - by rewrite W4.
  - apply list_find_Some in Eq as (_ & Hn & _). auto.
Qed.


(** ** Facts after the step *)

Lemma look_lt st b : is_Some (look st b) <-> (b < length (bufs st))%nat.
Proof. unfold look. rewrite fmap_is_Some. apply lookup_lt_is_Some. Qed.

Lemma act_length p x st st' : acts p x st st' -> length (bufs st') = length (bufs st).
Proof. intros Hs. act_cases Epc Hs; cbn; by rewrite ?length_insert. Qed.

Lemma act_range p x x' st st' :
  inv st -> procs st !! p = Some x -> acts p x st st' -> procs st' !! p = Some x' -> in_range st' (at_pc x').
Proof.
  intros I Hx Hs Hx'. pose proof (r_range _ _ (i_relies _ I _ _ Hx)) as Rr. pose proof (act_length _ _ _ _ Hs) as L.
  pose proof (i_size _ I) as [N _].
  assert (D : forall b, is_Some (look st b) -> is_Some (look st' b)) by (intros b; rewrite !look_lt; by rewrite L).
  assert (D' : forall b d, bufs st !! b = Some d -> is_Some (look st' b)).
  { intros b d Hd. apply D. by rewrite (look_buf _ _ _ Hd). }
  act_cases Epc Hs; the_proc Hx Hx'; rewrite ?Epc; cbn; try done.
  all: try (eapply D'; eassumption).
  all: try (apply D; exact Rr).
  all: try match goal with |- context [flushed ?k _] => by destruct k end.
  all: try match goal with |- context [unpinned ?k] => by destruct k end.
  all: try (apply look_lt; rewrite L; unfold NBuffers; first [done|lia]).
  - apply look_lt. rewrite L. assert (0 < NBuffers st) by (unfold NBuffers; lia).
    pose proof (Z.mod_pos_bound (nextVictimBuffer (strategy st)) (NBuffers st) ltac:(done)). unfold NBuffers in *. lia.
  - by rewrite Epc.
  - by rewrite Epc.
  - bools. by apply look_lt.
Qed.

(** What is true of a buffer after the step. *)
Lemma on_good p x'' st st0 b d d' c' P :
  bufs st !! b = Some d -> good d' c' -> bufs st0 = bufs st -> P c' -> on (put_proc p x'' (put_buf b d' st0)) b P.
Proof. intros Hd G Eb HP. exists c'. rewrite (look_good _ _ st _ _ _ d _ c') by done. by rewrite decide_True. Qed.

Lemma on_other p x'' st st0 b b' d d' c' P :
  bufs st !! b = Some d -> good d' c' -> bufs st0 = bufs st -> b' <> b -> on st b' P ->
  on (put_proc p x'' (put_buf b d' st0)) b' P.
Proof.
  intros Hd G Eb Hn (c & Hc & HP). exists c. split; [|done]. rewrite (look_good _ _ st _ _ _ d _ c') by done. by rewrite decide_False.
Qed.

(** Facts about tags and entries, when neither changes. *)
Definition tag_fact (f : fact) : bool :=
  match f with Tagged _ _ | HasTag _ _ | NotTag _ _ | Entry _ _ => true | _ => false end.

Definition same_tags st st' : Prop :=
  (forall b c, look st b = Some c -> exists c', look st' b = Some c' /\ c_tag c' = c_tag c /\ v_tagged (c_view c') = v_tagged (c_view c)) /\
  (forall t b, table st !! t = Some b -> table st' !! t = Some b).

Lemma tag_facts st st' ls : same_tags st st' -> forallb tag_fact ls = true -> Forall (holds_in st) ls -> Forall (holds_in st') ls.
Proof.
  intros [Sb St] Ht F. induction F as [|f ls Hf F IH]; [done|]. cbn in Ht. apply andb_true_iff in Ht as [Hf' Ht].
  constructor; [|by apply IH].
  destruct f; try done; cbn in Hf |- *; try (by apply St);
    destruct Hf as (c & Hc & HP); destruct (Sb _ _ Hc) as (c' & Hc' & E1 & E2); exists c'; (split; [done|]); cbv beta in *; rewrite ?E1, ?E2; done.
Qed.

Lemma same_tags_good p x'' st st0 b d d' c' :
  bufs st !! b = Some d -> good d' c' -> bufs st0 = bufs st ->
  c_tag c' = tag d -> v_tagged (c_view c') = v_tagged (view (state d)) -> table st0 = table st ->
  same_tags st (put_proc p x'' (put_buf b d' st0)).
Proof.
  intros Hd G Eb E1 E2 Et. split; [|cbn; by rewrite Et]. intros b' c Hc. rewrite (look_good _ _ st _ _ _ d _ c') by done.
  destruct (decide (b' = b)) as [->|]; [|by exists c]. rewrite (look_buf _ _ _ Hd) in Hc. injection Hc as <-. by exists c'.
Qed.

Lemma same_tags_quiet p x'' st st0 :
  bufs st0 = bufs st -> (forall t b, table st !! t = Some b -> table st0 !! t = Some b) -> same_tags st (put_proc p x'' st0).
Proof. intros Eb Et. split; [|done]. intros b c Hc. exists c. split; [|done]. unfold look in *. cbn. by rewrite Eb. Qed.

Lemma old_tag_facts b old : forallb tag_fact (old_facts b old) = true.
Proof. by destruct old. Qed.
Lemma flush_tag_facts k b : forallb tag_fact (flush_facts k b) = true.
Proof. by destruct k. Qed.
Lemma unpin_tag_facts k : forallb tag_fact (unpin_facts k) = true.
Proof. by destruct k. Qed.

Lemma pending_holds y t b : pending y t b -> holds y (part t) = Some LW_EXCLUSIVE.
Proof.
  unfold pending. destruct (at_pc y) eqn:Epc; try done.
  - intros [-> ->]. apply holds_pc. rewrite Epc. apply locked_new.
  - destruct old as [o|]; [|done]. intros [-> ->]. apply holds_pc. rewrite Epc. apply locked_old.
  - intros [-> ->]. apply holds_pc. rewrite Epc. apply locked_new.
  - destruct tagged; [|done]. intros [-> ->]. apply holds_pc. rewrite Epc. cbn [pc_locks locked_as]. by rewrite bool_decide_true.
Qed.

(** Under the lock of its partition an entry is what the tag says. *)
Lemma lookup_settled st p x t b : inv st -> procs st !! p = Some x -> holds x (part t) <> None -> ~ pending x t b ->
  table st !! t = Some b -> holds_in st (Tagged b t).
Proof.
  intros I Hx Hl Hn Ht. destruct (i_table _ I _ _ Ht) as [E|(q & y & Hy & Hp)]; [done|]. exfalso.
  destruct (decide (q = p)) as [->|Hq]; [congruence|]. apply pending_holds in Hp.
  destruct (holds x (part t)) as [m|] eqn:E; [|done].
  pose proof (i_excl _ I q p y x (part t) _ Hq Hy Hx Hp) as Ex. rewrite E in Ex. by destruct m.
Qed.

Lemma act_facts p x x' st st' :
  inv st -> procs st !! p = Some x -> acts p x st st' -> procs st' !! p = Some x' ->
  Forall (holds_in st') (facts_of (at_pc x')).
Proof.
  intros I Hx Hs Hx'. pose proof (i_relies _ I _ _ Hx) as R. pose proof (r_facts _ _ R) as F.
  pose proof (i_headers _ I) as Ho. pose proof (wf_io _ (r_wf _ _ R)) as Wio. pose proof (r_io _ _ R) as Rio.
  act_cases Epc Hs; the_proc Hx Hx'; cbn [io_ok] in Wio; rewrite ?Epc; cbn [facts_of] in F.
  all: cbn [at_pc set_pc set_pins set_io set_wait set_clocks set_returned facts_of unpin_facts]; try exact F.
  all: try apply Forall_nil_2.
  all: rewrite ?Epc in *; try exact F.
  all: try match goal with |- context [flushed ?k _] => destruct k end; cbn [flushed facts_of unpin_facts flush_facts] in *; try apply Forall_nil_2; try exact F.
  all: try match goal with |- context [unpinned ?k] => destruct k end; cbn [unpinned facts_of unpin_facts] in *; try apply Forall_nil_2; try exact F.
  all: repeat match type of F with Forall _ (_ :: _) => let F1 := fresh "F" in apply Forall_cons_1 in F as [F1 F] end.
  all: repeat match goal with |- Forall _ (_ :: _) => apply Forall_cons_2 end; try apply Forall_nil_2; try assumption.
  all: try (eapply (tag_facts st); [by apply same_tags_quiet|first [apply old_tag_facts|apply flush_tag_facts|apply unpin_tag_facts]|exact F]).
  all: try (match goal with |- holds_in (put_proc ?p ?y ?s) ?f =>
    apply (Forall_singleton (holds_in (put_proc p y s)) f) end;
    eapply (tag_facts st); [by apply same_tags_quiet|done|by apply Forall_singleton]).
  all: try match goal with Hd : bufs ?s !! _ = Some _ |- _ => destruct (Ho _ _ Hd) as [Hok Hul] end.
  all: try (eapply (tag_facts st); [eapply same_tags_good; [eassumption|good_step|done..]
    |first [apply old_tag_facts|apply flush_tag_facts|apply unpin_tag_facts]|exact F]).
  all: try (match goal with |- holds_in (put_proc ?p ?y ?s) ?f =>
    apply (Forall_singleton (holds_in (put_proc p y s)) f) end;
    eapply (tag_facts st); [eapply same_tags_good; [eassumption|good_step|done..]|done|by apply Forall_singleton]).
  - eapply lookup_settled in Eq; [exact Eq|done|done| |].
    + unfold holds. rewrite Epc. cbn. by rewrite bool_decide_true.
    + unfold pending. rewrite Epc. tauto.
  - eapply on_good; [eassumption|good_step|done|]. done.
  - eapply on_good; [eassumption|good_step|done|]. done.
  - eapply on_good; [eassumption|good_step|done|]. done.
  - eapply on_good; [eassumption|good_step|done|]. done.
  - apply Forall_singleton. exists (core_of b0). split; [exact (look_buf _ _ _ Eq)|]. by apply (on_buf _ _ _ _ Eq) in F0.
  - apply Forall_singleton. assumption.
  - exact (proj1 (Forall_cons_1 _ _ _ F)).
  - apply Forall_singleton. assumption.
  - eapply lookup_settled in Eq0; [exact Eq0|done|done| |].
    + unfold holds. rewrite Epc. cbn [pc_locks]. by rewrite locked_new.
    + unfold pending. rewrite Epc. tauto.
  - cbn. by rewrite lookup_insert_eq.
  - assert (Hb : is_Some (look st b)) by (apply (r_pins _ _ R); destruct (wf_focus _ (r_wf _ _ R) b) as [-> _]; [by rewrite Epc|lia]).
    destruct Hb as [c Hc]. exists c. split; [done|]. intros [T1 T2].
    pose proof (co_table _ _ _ (i_cores _ I _ _ Hc) T1). congruence.
  - eapply (tag_facts st); [apply same_tags_quiet; [done|]|apply old_tag_facts|done].
    intros t' b' Ht. cbn. destruct (decide (t' = t)) as [->|]; [congruence|by rewrite lookup_insert_ne].
  - eapply on_good; [eassumption|good_step|done|]. done.
  - destruct old as [o|]; [|done]. cbn in F. apply Forall_cons_1 in F as [F _].
    pose proof (wf_pc _ (r_wf _ _ R)) as Wpc. unfold pc_ok in Wpc. rewrite Epc in Wpc.
    destruct F as (c & Hc & T1 & T2). pose proof (co_table _ _ _ (i_cores _ I _ _ Hc) T1) as Ht. rewrite T2 in Ht.
    constructor; [done|]. apply Forall_singleton. eapply on_good; [eassumption|good_step|done|]. cbn. intros [_ ->]. done.
  - eapply on_good; [eassumption|good_step|done|]. done.
  - destruct F0 as (c & Hc & <- & E2). exists c. split; [exact Hc|]. intros Hp. cbn.
    destruct (Rio b false Wio) as (_ & c2 & Hc2 & _ & Hd). assert (c2 = c) as -> by congruence. lia.
  - destruct F0 as (c & Hc & E1 & E2). exists c. split; [exact Hc|]. intros Hp. exfalso.
    destruct (Rio b false Wio) as (_ & c2 & Hc2 & _ & Hd). assert (c2 = c) as -> by congruence.
    pose proof (i_cores _ I _ _ Hc) as C. pose proof (co_perm _ _ _ C (co_valid _ _ _ C (co_dirty _ _ _ C Hd))). congruence.
  - exists (core_of b0). split; [exact (look_buf _ _ _ Eq)|]. left. cbn. by rewrite fn_lookup_insert.
  - eapply on_good; [eassumption|good_step|done|]. done.
  - destruct (is_set (state b0) BM_TAG_VALID) eqn:Et; [|done]. bools. subst old.
    constructor; [|apply Forall_singleton].
    + exact (co_table _ _ _ (i_cores _ I _ _ (look_buf _ _ _ Eq)) Et).
    + eapply on_good; [eassumption|good_step|done|]. cbn. by intros [? _].
  - eapply on_good; [eassumption|good_step|done|]. done.
Qed.

End Local.
End BufLocal.
