(* ===== verification/BufTurn.v ===== *)
(** * Shared buffers: what a step leaves behind

    The rest of what a step of [Bufmgr] does to the process that makes it: its
    pinned buffers and its I/O, the entries and the changes it still owes, and
    the list of free buffers. *)

From S2P Require Import Prelude.
From S2P Require Import Words.
From S2P Require Import Bufhdr.
From S2P Require Import Bufmgr.
From S2P Require Import BufInv.
From S2P Require Import BufSteps.
From S2P Require Import BufLocal.
From stdpp Require Import functions.

Import Words Bufhdr Bufmgr BufInv BufSteps BufLocal.

Open Scope Z_scope.

Module BufTurn.

Section Turn.
Context `{BufEnv}.
Implicit Types (st : system) (x y : proc) (b : nat) (t : BufferTag) (c : core) (v : hview).


(** ** Pins and I/O *)

Lemma act_io p x x' st st' :
  inv st -> procs st !! p = Some x -> acts p x st st' -> procs st' !! p = Some x' -> io_facts st' x'.
Proof.
  intros I Hx Hs Hx'. pose proof (i_relies _ I _ _ Hx) as R. pose proof (i_headers _ I) as Ho.
  pose proof (wf_io _ (r_wf _ _ R)) as Wio. pose proof (r_io _ _ R) as Rio.
  assert (Fp : forall b, focus (at_pc x) = Some b -> (0 < pins x b)%nat).
  { intros b F. destruct (wf_focus _ (r_wf _ _ R) b F) as [-> _]. lia. }
  act_cases Epc Hs; the_proc Hx Hx'; cbn [io_ok focus] in *; intros b' i'; cbn; intros Hio; rewrite ?Wio in Hio; try done.
  all: try exact (Rio _ _ Hio).
  all: simplify_eq; try exact (Rio _ _ Wio).
  all: match goal with Hd : bufs ?s !! _ = Some _ |- _ => destruct (Ho _ _ Hd) as [Hok Hul] end.
  all: split; [by apply Fp|eapply on_good; [eassumption|good_step|done|]]; bools; cbn.
  - done.
  - exact (proj1 (on_buf _ _ _ _ Eq) (proj2 (Rio _ _ Wio))).
  - done.
  - exact (proj1 (on_buf _ _ _ _ Eq) (proj2 (Rio _ _ Wio))).
Qed.

(** A valid buffer that the process has pinned stays valid, unless it takes it
    for another page. *)
Lemma valid_kept x x' st st' b : io_facts st x -> effect x x' st st' -> has_pin b x = true ->
  (forall c, look st b = Some c -> v_refs (c_view c) <> 0) -> focus (at_pc x') <> Some b ->
  on st b (fun c => v_valid (c_view c) = true) -> on st' b (fun c => v_valid (c_view c) = true).
Proof.
  intros Rio E Hp Hr Hf (c & Hc & Hv).
  destruct E as [L _ _ _|b0 c0 c' Hc0 L _ _ _ B|t0 b0 L _ _ _ _ _ _|t0 b0 L _ _ _ _ _ _|b0 c0 _ L _ _ _ _ _]; unfold on; rewrite L; try by exists c.
  destruct (decide (b = b0)) as [<-|]; [|by exists c]. assert (c0 = c) as -> by congruence. exists c'. split; [done|].
  destruct B; try done. by apply Hr in Hc.
Qed.

Lemma act_pins p x x' st st' :
  inv st -> procs st !! p = Some x -> acts p x st st' -> procs st' !! p = Some x' -> pin_facts st' x'.
Proof.
  intros I Hx Hs Hx' b Hb. pose proof (i_relies _ I _ _ Hx) as R. pose proof (i_headers _ I) as Ho.
  pose proof (act_effect _ _ _ _ _ I Hx Hs Hx') as E. pose proof (act_length _ _ _ _ Hs) as L.
  assert (D : is_Some (look st b) -> is_Some (look st' b)) by (rewrite !look_lt; by rewrite L).
  destruct (decide (0 < pins x b)%nat) as [Hp|Hp].
  - destruct (r_pins _ _ R b Hp) as [Hs1 Hv]. split; [by apply D|]. intros Hn.
    assert (Hold : busy x b = false -> on st' b (fun c => v_valid (c_view c) = true)).
    { intros Ho'. eapply valid_kept; [apply R|exact E|by apply has_pin_pos| | |by apply Hv].
      - intros c (d & Hd & ->)%look_desc. pose proof (pin_counted _ _ _ _ _ I Hx Hp Hd). lia.
      - intros F. unfold busy in Hn. by rewrite bool_decide_true in Hn. }
    assert (Fp : forall b, focus (at_pc x) = Some b -> pins x b = 1%nat) by (intros ? F; by apply (wf_focus _ (r_wf _ _ R))).
    revert Hb Hn Hold. clear Hv D. unfold busy.
    act_cases Epc Hs; the_proc Hx Hx'; cbn [focus] in Fp.
    all: cbn [at_pc set_pc set_pins set_io set_wait set_clocks set_returned focus aborting pins]; rewrite ?Epc; cbn [focus aborting].
    all: intros Hb Hn Hold; try by apply Hold. all: try done.
    all: try match goal with |- context [flushed ?k _] => destruct k end; try match goal with |- context [unpinned ?k] => destruct k end.
    all: cbn in Hb, Hn, Hold |- *; try done; try (by apply Hold).
    all: try match type of Hn with context [bool_decide (Some ?b1 = Some ?b2)] =>
      destruct (decide (b1 = b2)) as [->|Hne]; [by rewrite bool_decide_true in Hn|apply Hold; by rewrite bool_decide_false by congruence] end.
    all: try match goal with k : after_unpin |- _ => destruct k; cbn in Hb, Hn, Hold |- *; try done end.
    all: try match goal with E : at_pc _ = ?T |- on _ ?b' _ => match T with context [?b0] => match type of b0 with nat =>
      destruct (decide (b0 = b')) as [->|Hne];
      [|apply Hold; rewrite ?bool_decide_false by congruence; by rewrite ?(proj2 (Nat.eqb_neq _ _) Hne)] end end end.
    all: rewrite ?fn_lookup_insert in Hb; try lia.
    all: try (rewrite Nat.eqb_refl, (Fp _ eq_refl) in Hn; done).
    all: try (specialize (Fp _ eq_refl); congruence).
    + by eexists; split; [exact (look_buf _ _ _ Eq)|].
    + destruct (Ho _ _ Eq0) as [Hok Hul]. eapply on_good; [eassumption|good_step|done|done].
    + apply Hold. rewrite Eq. by destruct (b =? b)%nat.
    + exfalso. apply look_lt in Hs1. apply list_find_None in Eq. rewrite List.Forall_forall in Eq.
      apply (Eq b); [|done]. apply in_seq. lia.
  - assert (Hz : pins x b = 0%nat) by lia. clear Hp. revert Hb. unfold busy.
    act_cases Epc Hs; the_proc Hx Hx'; cbn; rewrite ?Hz; intros Hb; try lia.
    all: match type of Hb with context [<[?b0 := _]> _ _] => destruct (decide (b0 = b)) as [->|Hne];
      [clear Hb|rewrite fn_lookup_insert_ne, Hz in Hb by done; lia] end.
    all: try (split; [by (apply D; erewrite look_buf by eassumption)|]).
    all: try (exfalso; bools; lia). all: try (by rewrite bool_decide_true by done).
    intros _. eexists. split; [transitivity (look (put_buf b (set_hdr (pin_state (state b1)) b1) st) b); [reflexivity|]; rewrite (look_put_buf _ _ b1) by done; by rewrite decide_True|done].
Qed.

(** ** Debts *)

(** An entry that a process owes becomes right, or goes. *)
Lemma act_pending p x x' st st' t b :
  inv st -> procs st !! p = Some x -> acts p x st st' -> procs st' !! p = Some x' -> pending x t b ->
  pending x' t b \/ holds_in st' (Tagged b t) \/ table st' !! t <> Some b.
Proof.
  intros I Hx Hs Hx'. pose proof (i_headers _ I) as Ho. pose proof (i_relies _ I _ _ Hx) as R. pose proof (r_facts _ _ R) as F.
  unfold pending at 1. act_cases Epc Hs; the_proc Hx Hx'; rewrite ?Epc; try done.
  all: intros [-> ->] || (destruct old as [o|]; [intros [-> ->]|done]) || (destruct tagged; [intros [-> ->]|done]).
  - right. left. match goal with Hd : bufs ?s !! _ = Some _ |- _ => destruct (Ho _ _ Hd) as [Hok Hul] end.
    eapply on_good; [eassumption|good_step|done|done].
  - by left.
  - right. right. cbn. by rewrite lookup_delete_eq.
  - right. right. cbn. by rewrite lookup_delete_eq.
  - right. right. cbn. by rewrite lookup_delete_eq.
Qed.

(** A change that a process owes to the header is made. *)
Lemma act_dirtying p x x' st st' b :
  inv st -> procs st !! p = Some x -> acts p x st st' -> procs st' !! p = Some x' -> dirtying x b = true ->
  dirtying x' b = true \/ on st' b (fun c => v_dirty (c_view c) = true /\ v_just (c_view c) = true).
Proof.
  intros I Hx Hs Hx'. pose proof (i_headers _ I) as Ho.
  unfold dirtying at 1. act_cases Epc Hs; the_proc Hx Hx'; rewrite ?Epc; try done.
  all: intros <-%Nat.eqb_eq.
  all: try (left; cbn; unfold dirtying; cbn; by rewrite Nat.eqb_refl).
  all: right.
  2: { eexists. split; [exact (look_buf _ _ _ Eq)|]. by bools. }
  all: match goal with Hd : bufs ?s !! _ = Some _ |- _ => destruct (Ho _ _ Hd) as [Hok Hul] end.
  all: eapply on_good; [eassumption|good_step|done|done].
Qed.

(** ** The list of free buffers *)

Lemma free_list_same st st' first l :
  (forall b, freeNext <$> bufs st' !! b = freeNext <$> bufs st !! b) -> free_list st first l -> free_list st' first l.
Proof.
  intros E. revert first. induction l as [|b l IH]; intros first; [done|]. intros (-> & d & Hd & Hl). split; [done|].
  specialize (E b). rewrite Hd in E. destruct (bufs st' !! b) as [d'|]; [|done]. injection E as E. exists d'.
  split; [done|]. rewrite E. by apply IH.
Qed.

Lemma free_same st st' :
  (forall b, freeNext <$> bufs st' !! b = freeNext <$> bufs st !! b) ->
  firstFreeBuffer (strategy st') = firstFreeBuffer (strategy st) -> free_ok st -> free_ok st'.
Proof.
  intros E Ef (l & Hl & Hn & Hm). exists l. rewrite Ef. split; [by apply (free_list_same st)|]. split; [done|].
  intros b d Hd. specialize (E b). rewrite Hd in E. destruct (bufs st !! b) as [d0|] eqn:Hd0; [|done]. injection E as ->.
  by apply (Hm b).
Qed.

(** Another buffer's link changes. *)
Lemma free_list_other st first l b d d' st' :
  bufs st !! b = Some d -> b ∉ l -> bufs st' = <[b := d']> (bufs st) -> free_list st first l -> free_list st' first l.
Proof.
  intros Hd Hb E. revert first Hb. induction l as [|b0 l IH]; intros first Hb; [done|].
  apply not_elem_of_cons in Hb as [Hb0 Hb]. intros (-> & d0 & Hd0 & Hl). split; [done|]. exists d0. split; [|by apply IH].
  rewrite E, list_lookup_insert_ne by done. done.
Qed.

(** [StrategyFreeBuffer] puts a buffer in front. *)
Lemma free_push st p x' b d f :
  free_ok st -> bufs st !! b = Some d -> (freeNext d =? FREENEXT_NOT_IN_LIST) = true -> firstFreeBuffer f = Z.of_nat b ->
  free_ok (put_proc p x' (put_buf b (set_next (firstFreeBuffer (strategy st)) d) (set_strategy f st))).
Proof.
  intros (l & Hl & Hn & Hm) Hd Hf%Z.eqb_eq Ef.
  assert (Hb : b ∉ l) by (intros Hb; by apply (Hm b d Hd) in Hb).
  assert (Hfirst : firstFreeBuffer (strategy st) <> FREENEXT_NOT_IN_LIST).
  { destruct l; cbn in Hl; [by destruct Hl|]. unfold FREENEXT_NOT_IN_LIST. lia. }
  exists (b :: l). split; [|split; [by constructor|]].
  - cbn. split; [done|]. eexists. split; [by rewrite list_lookup_insert_eq by (by eapply lookup_lt_Some)|]. cbn.
    eapply (free_list_other st _ _ b); [exact Hd|exact Hb|reflexivity|exact Hl].
  - intros b' d'. cbn. destruct (decide (b' = b)) as [->|Hne].
    + rewrite list_lookup_insert_eq by (by eapply lookup_lt_Some). intros [= <-]. cbn. split; [by left|done].
    + rewrite list_lookup_insert_ne by done. intros Hd'. rewrite (Hm _ _ Hd'). set_solver.
Qed.

Lemma act_free p x st st' : free_ok st -> acts p x st st' -> free_ok st'.
Proof.
  intros F Hs. act_cases Epc Hs; try (by apply (free_same st)).
  all: try match goal with Hd : bufs ?s !! ?b = Some ?d |- free_ok (put_proc _ _ (put_buf ?b ?d' _)) =>
    assert_fails (assert (freeNext d' = freeNext d -> False) by (cbn; congruence));
    apply (free_same st); [|reflexivity|exact F]; intros b'; cbn; destruct (decide (b' = b)) as [->|];
    [rewrite list_lookup_insert_eq by (by eapply lookup_lt_Some); rewrite Hd; cbn; try reflexivity
    |by rewrite list_lookup_insert_ne] end.
  all: try (unfold unwait; by case_match).
  - destruct F as (l & Hl & Hn & Hm). apply Z.ltb_ge in Eq. destruct l as [|b1 l]; [destruct Hl as [? _]; lia|].
    destruct Hl as (Hb1 & d & Hd & Hl). assert (Z.to_nat (firstFreeBuffer (strategy st)) = b1) as E1 by lia. rewrite E1 in *.
    assert (d = b) as -> by congruence. pose proof (NoDup_cons_1_1 _ _ Hn) as Hn1; apply NoDup_cons_1_2 in Hn. exists l. split; [|split; [done|]].
    + cbn. eapply (free_list_other st _ _ b1); [exact Hd|exact Hn1|reflexivity|exact Hl].
    + intros b' d'. cbn. destruct (decide (b' = b1)) as [->|Hne].
      * rewrite list_lookup_insert_eq by (by eapply lookup_lt_Some). intros [= <-]. by cbn.
      * rewrite list_lookup_insert_ne by done. intros Hd'. rewrite (Hm _ _ Hd'). set_solver.
  - eapply free_push; done.
  - eapply free_push; done.
Qed.


(** ** Assertions *)

Lemma pool_step_safe p x st : inv st -> procs st !! p = Some x -> step_proc p x st <> Failed.
Proof.
  intros I Hx Hs. pose proof (i_relies _ I _ _ Hx) as R. pose proof (i_headers _ I) as Ho.
  destruct (r_wf _ _ R) as [W1 W2 W3 W4 W5 W6 W7 W8]. unfold pc_ok in W7. pose proof (r_range _ _ R) as Rr.
  pose proof (r_facts _ _ R) as F. pose proof (r_pins _ _ R) as P. pose proof (r_io _ _ R) as Rio.
  assert (N : forall b, is_Some (look st b) -> bufs st !! b <> None).
  { unfold look. intros b (c & (d & Hd & _)%fmap_Some) E. congruence. }
  assert (Np : forall b, (0 < pins x b)%nat -> bufs st !! b <> None) by (intros b Hp; by apply N, P).
  assert (Nf : forall b, focus (at_pc x) = Some b -> bufs st !! b <> None).
  { intros b Hf. apply Np. rewrite (proj1 (W1 _ Hf)). lia. }
  assert (Pos : forall b d, (0 < pins x b)%nat -> bufs st !! b = Some d -> 0 < BUF_STATE_GET_REFCOUNT (state d)).
  { intros b d Hp Hd. exact (pin_counted _ _ _ _ _ I Hx Hp Hd). }
  unfold_step Hs. destruct (at_pc x) eqn:Epc; try discriminate Hs; cbv zeta in Hs.
  all: repeat match type of Hs with
  | context [match ?e with _ => _ end] => let Eq := fresh "Eq" in destruct e eqn:Eq; try discriminate Hs
  end.
  all: cbn in W1, W4, Rr, Nf; try (by apply (Nf _ eq_refl)); try (by apply (N _ Rr)).
  all: try (by rewrite bool_decide_true in Eq by (by rewrite W4)).
  all: try (by apply (Np b ltac:(lia))).
  all: try (by apply (Np b (W2 b ltac:(by rewrite W7)))).
  all: try (by apply (Np b (W2 b W7))).
  all: try (by apply (Np b (proj1 W7))).
  all: try (specialize (Rio _ _ W4) as (Hp & c & Hc & Hio & Hv); try (by apply (Np b Hp));
    match goal with Hd : bufs ?s !! _ = Some _ |- _ => rewrite (look_buf _ _ _ Hd) in Hc; injection Hc as <-; cbn in Hio, Hv end).
  all: try congruence.
  all: try match goal with Hd : bufs ?s !! ?b = Some ?d |- _ => pose proof (Pos b d) as Posb end.
  - cbn in F. apply Forall_cons_1 in F as [(c & Hc & _) _]. by apply (N b).
  - destruct (i_free _ I) as (l & Hl & _ & Hm). apply Z.eqb_eq in Eq1. apply Z.ltb_ge in Eq.
    destruct l as [|b1 l]; [destruct Hl; lia|]. destruct Hl as (E1 & d & Hd & _).
    replace (Z.to_nat (firstFreeBuffer (strategy st))) with b1 in Eq0 by lia. apply (Hm _ _ Eq0); [by left|done].
  - destruct (i_free _ I) as (l & Hl & _ & Hm). apply Z.ltb_ge in Eq.
    destruct l as [|b1 l]; [destruct Hl; lia|]. destruct Hl as (E1 & d & Hd & _).
    replace (Z.to_nat (firstFreeBuffer (strategy st))) with b1 in Eq0 by lia. congruence.
  - bools. apply Z.eqb_eq in H0. specialize (Posb ltac:(lia) Eq). lia.
  - apply Z.eqb_eq in Eq1. specialize (Posb ltac:(lia) Eq). lia.
  - apply Z.eqb_eq in Eq. by apply (W8 t).
  - cbn in F. inversion F as [|? ? _ F1]; subst. inversion F1 as [|? ? F2 _]; subst. cbn in F2. congruence.
  - cbn in F. inversion F as [|? ? F1 _]; subst. cbn in F1. congruence.
  - destruct W7 as [W7 _]. lia.
  - apply andb_false_iff in Eq1 as [E|E]; apply bool_decide_eq_false in E; apply E; unfold holds; rewrite Epc;
      destruct k as [| |t [o|] b0|]; cbn; try done; by apply W7.
  - cbn in F. inversion F as [|? ? F1 _]; subst. cbn in F1. congruence.
  - assert (Hp := W2 b ltac:(by rewrite W7)). specialize (Posb Hp Eq).
    rewrite (proj2 (Nat.ltb_lt _ _) Hp), bool_decide_true, (proj2 (Z.ltb_lt _ _) Posb) in Eq1 by done. done.
  - assert (Hp := W2 b W7). rewrite (proj2 (Nat.ltb_lt _ _) Hp), bool_decide_false in Eq0 by done. done.
  - specialize (Posb (W2 b W7) Eq). by apply Z.ltb_ge in Eq1; lia.
  - specialize (Posb (W2 b ltac:(by rewrite W7)) Eq). apply Z.eqb_eq in Eq1. lia.
  - rewrite Hio in Eq1. destruct IsForInput; [|by rewrite Hv in Eq1]. rewrite Hv in Eq1.
    pose proof (co_dirty _ _ _ (i_cores _ I _ _ (look_buf _ _ _ Eq))) as Cd. cbn in Cd.
    destruct (is_set (state b0) BM_DIRTY); [|done]. rewrite Cd in Hv; done.
  - destruct (InProgressBuf x) as [[b' i']|] eqn:Eio; [|done]. injection W4 as ->.
    destruct (Rio _ _ Eio) as (_ & c & Hc & Hio & _). rewrite (look_buf _ _ _ Eq0) in Hc. injection Hc as <-. cbn in Hio. congruence.
  - destruct (InProgressBuf x) as [[b' i']|] eqn:Eio; [|done]. injection W4 as ->.
    by apply (Np b (proj1 (Rio _ _ Eio))).
  - by apply (Np n (W6 _ eq_refl)).
Qed.

Lemma enter_safe p x st r : wf x -> at_pc x = Idle -> enter p x st r <> Failed.
Proof.
  intros W Epc Hs. pose proof (wf_wait _ W) as Ww. rewrite Epc in Ww. cbn in Ww.
  destruct r; unfold enter, when, write_data, goto, raise in Hs; repeat case_match; congruence.
Qed.

End Turn.
End BufTurn.
