(* ===== verification/BufStable.v ===== *)
(** * Shared buffers: the invariant is kept

    A step of one process leaves what the others rely on: their pins keep a
    buffer from being renamed, their locks keep the entries of a partition and
    the contents of a page, and I/O on a buffer is done by one process.  With
    [BufTurn], every step keeps the invariant. *)

From S2P Require Import Prelude.
From S2P Require Import Words.
From S2P Require Import Bufhdr.
From S2P Require Import Bufmgr.
From S2P Require Import BufInv.
From S2P Require Import BufSteps.
From S2P Require Import BufLocal.
From S2P Require Import BufTurn.
From stdpp Require Import functions.

Import Words Bufhdr Bufmgr BufInv BufSteps BufLocal BufTurn.

Open Scope Z_scope.

Module BufStable.

Section Stable.
Context `{BufEnv}.
Implicit Types (st : system) (x y : proc) (b : nat) (t : BufferTag) (c : core) (v : hview).

(** What protects a fact of a process. *)
Definition shield y (f : fact) : Prop :=
  match f with
  | Tagged b t => has_pin b y = true \/ holds y (part t) <> None
  | HasTag b _ => has_pin b y = true
  | NotTag _ t | Entry t _ => holds y (part t) <> None
  | Lsn b _ _ | Flushable b => InProgressBuf y = Some (b, false) /\ holds y (ContentLock b) = Some LW_SHARED
  | Written b => InProgressBuf y = Some (b, false)
  | Loaded b t => InProgressBuf y = Some (b, true) /\ Tagged b t ∈ facts_of (at_pc y)
  | Redirtied b => clocks y b = Some LW_EXCLUSIVE
  end.

Lemma shielded st y f : relies st y -> f ∈ facts_of (at_pc y) -> shield y f.
Proof.
  intros R Hf. destruct (r_wf _ _ R) as [W1 W2 W3 W4 W5 W6 W7 W8]. unfold pc_ok in W7.
  assert (Hp : forall b, focus (at_pc y) = Some b -> has_pin b y = true).
  { intros b F. apply has_pin_pos. rewrite (proj1 (W1 b F)). lia. }
  assert (Hl : forall l m, locked_as l (pc_locks (at_pc y)) = Some m -> holds y l <> None).
  { intros l m E. rewrite (holds_pc _ _ _ E). done. }
  destruct (at_pc y) eqn:Epc; cbn [facts_of] in Hf; try (by apply elem_of_nil in Hf).
  all: repeat match type of Hf with
    | _ ∈ old_facts _ ?o => destruct o; cbn [old_facts] in Hf
    | _ ∈ flush_facts ?k _ => destruct k; cbn [flush_facts] in Hf
    | _ ∈ unpin_facts ?k => destruct k; cbn [unpin_facts] in Hf
    | _ ∈ (if ?tagged then _ else _) => destruct tagged
    | _ ∈ match ?o with _ => _ end => destruct o
    | _ ∈ _ :: _ => apply elem_of_cons in Hf as [->|Hf]
    | _ ∈ [] => by apply elem_of_nil in Hf
    end.
  all: cbn [shield focus pc_locks unpin_locks io_ok facts_of] in *.
  all: try (by apply Hp); try (left; by apply Hp); try done.
  all: try (first [eapply Hl|right; eapply Hl]; first [apply locked_new|apply locked_old|cbn [locked_as]; by rewrite bool_decide_true by done]).
  all: try (split; [done|apply holds_pc; rewrite Epc; cbn [pc_locks locked_as]; rewrite bool_decide_false by done; by rewrite bool_decide_true by done]).
  all: try (split; [done|rewrite Epc; apply elem_of_cons; right; by apply elem_of_cons; left]).
Qed.


(** A valid buffer under a client's lock. *)
Lemma locked_valid st x b : relies st x -> clocks x b <> None -> on st b (fun c => v_valid (c_view c) = true).
Proof.
  intros R Hc. pose proof (r_wf _ _ R) as W. apply (r_pins _ _ R); [by apply (wf_clocks _ W)|].
  unfold busy. rewrite bool_decide_false by (intros F; by apply (wf_focus _ W) in F as [_ F]). cbn.
  destruct (aborting (at_pc x)) eqn:Ea; [by rewrite (wf_abort _ W b Ea) in Hc|].
  pose proof (wf_pc _ W) as Wp. unfold pc_ok in Wp. destruct (at_pc x); try done. destruct Wp as [_ Wp].
  destruct (Nat.eqb_spec b0 b) as [->|]; [|done]. destruct (Nat.eqb_spec (pins x b) 1) as [E|]; [|done]. by rewrite Wp in Hc.
Qed.

(** A step of [p], and another process. *)
Section Other.
Context (st st' : system) (p q : nat) (x x' y : proc).
Context (I : inv st) (Hx : procs st !! p = Some x) (Hy : procs st !! q = Some y) (Hpq : p <> q).
Context (Hs : acts p x st st') (Hx' : procs st' !! p = Some x').

Let R : relies st x := i_relies _ I _ _ Hx.
Let S : relies st y := i_relies _ I _ _ Hy.

Lemma other_effect : effect x x' st st'.
Proof. exact (act_effect _ _ _ _ _ I Hx Hs Hx'). Qed.

Lemma other_lock l : holds y l <> None -> holds x l <> Some LW_EXCLUSIVE.
Proof.
  intros Hl E. pose proof (i_excl _ I _ _ _ _ _ _ Hpq Hx Hy E) as Ex. destruct (holds y l) as [m|]; [|done]. by destruct m.
Qed.

Lemma other_shared l : holds y l = Some LW_EXCLUSIVE -> holds x l = None.
Proof.
  intros Hl. destruct (holds x l) as [m|] eqn:E; [|done].
  pose proof (i_excl _ I _ _ _ _ _ _ (not_eq_sym Hpq) Hy Hx Hl) as Ex. rewrite E in Ex. by destruct m.
Qed.

Lemma other_pin b c : look st b = Some c -> has_pin b y = true -> 0 < v_refs (c_view c).
Proof. intros (d & Hd & ->)%look_desc Hp%has_pin_pos. exact (pin_counted _ _ _ _ _ I Hy Hp Hd). Qed.

Lemma other_pins b c : look st b = Some c -> has_pin b y = true -> has_pin b x = true -> 2 <= v_refs (c_view c).
Proof. intros (d & Hd & ->)%look_desc Py%has_pin_pos Px%has_pin_pos. exact (pin_shared _ _ _ _ _ _ _ I Hx Hy Hpq Px Py Hd). Qed.

Lemma other_io b i i' : InProgressBuf y = Some (b, i) -> InProgressBuf x = Some (b, i') -> False.
Proof.
  intros Ey Ex. destruct (r_io _ _ S _ _ Ey) as (_ & c & Hc & Hio & _).
  pose proof (co_io _ _ _ (i_cores _ I _ _ Hc)) as Hn. rewrite Hio in Hn. cbn in Hn.
  assert (2 <= countb (has_io b) (procs st)); [|lia].
  eapply (countb_two _ _ p q x y); [done|done|done|unfold has_io; rewrite Ex; by apply bool_decide_eq_true
    |unfold has_io; rewrite Ey; by apply bool_decide_eq_true].
Qed.

Lemma io_pin b i z : relies st z -> InProgressBuf z = Some (b, i) -> has_pin b z = true.
Proof. intros Rz Ez. apply has_pin_pos. by apply (r_io _ _ Rz b i). Qed.

Lemma io_other b i : InProgressBuf y = Some (b, i) -> has_io b x = false.
Proof.
  intros Ey. unfold has_io. apply bool_decide_eq_false. destruct (InProgressBuf x) as [[b' i']|] eqn:Ex; [|done].
  cbn. intros [= ->]. by eapply other_io.
Qed.

(** What a buffer is after the step. *)
Lemma after b c : look st b = Some c -> exists c', look st' b = Some c' /\ (c' = c \/ bstep x x' b c c').
Proof.
  intros Hc. destruct other_effect as [L _ _ _|b0 c0 c' Hc0 L _ _ _ B|t0 b0 L _ _ _ _ _ _|t0 b0 L _ _ _ _ _ _|b0 c0 _ L _ _ _ _ _];
    rewrite L; try (exists c; by auto).
  destruct (decide (b = b0)) as [<-|]; [|exists c; by auto]. exists c'. assert (c0 = c) as -> by congruence. auto.
Qed.

(** A buffer that [y] has pinned is not taken away. *)
Lemma kept b c c' : look st b = Some c -> bstep x x' b c c' -> has_pin b y = true ->
  c_tag c' = c_tag c /\ v_tagged (c_view c') = v_tagged (c_view c) /\
  (v_valid (c_view c) = true -> v_valid (c_view c') = true) /\ v_perm (c_view c') = v_perm (c_view c).
Proof.
  intros Hc B Hp. pose proof (other_pin _ _ Hc Hp). destruct B; cbn; try done.
  - pose proof (other_pins _ _ Hc Hp ltac:(assumption)). lia.
  - lia.
Qed.

(** *** Tags and entries *)

Lemma tagged_stable b t : has_pin b y = true \/ holds y (part t) <> None -> holds_in st (Tagged b t) -> holds_in st' (Tagged b t).
Proof.
  intros Hsh (c & Hc & T1 & T2). destruct (after b c Hc) as (c' & Hc' & [->|B]); [by exists c|]. exists c'. split; [done|].
  destruct Hsh as [Hp|Hl]; [by destruct (kept _ _ _ Hc B Hp) as (-> & -> & _)|].
  apply other_lock in Hl. destruct B as [| | | | | | |t1 ? ? ? ? ? ? HB|? ? HB| | |]; try done.
  - exfalso. destruct (HB T1) as [HB1 _]. rewrite T2 in HB1. done.
  - exfalso. by rewrite T2 in HB.
Qed.

Lemma hastag_stable b tagged : has_pin b y = true -> holds_in st (HasTag b tagged) -> holds_in st' (HasTag b tagged).
Proof.
  intros Hp (c & Hc & T). destruct (after b c Hc) as (c' & Hc' & [->|B]); [by exists c|]. exists c'. split; [done|].
  by destruct (kept _ _ _ Hc B Hp) as (_ & -> & _).
Qed.

Lemma nottag_stable b t : holds y (part t) <> None -> holds_in st (NotTag b t) -> holds_in st' (NotTag b t).
Proof.
  intros Hl%other_lock (c & Hc & T). destruct (after b c Hc) as (c' & Hc' & [->|B]); [by exists c|]. exists c'. split; [done|].
  destruct B as [| | | | | | |t1 ? ? ? ? HB ? ?|? ? HB| | |]; try done.
  - cbn. intros [_ ->]. done.
  - cbn. by intros [? _].
Qed.

Lemma entry_stable b t : holds y (part t) <> None -> table st !! t = Some b -> table st' !! t = Some b.
Proof.
  intros Hl%other_lock Ht. destruct other_effect as [_ E _ _|? ? ? _ _ E _ _ _|t0 b0 _ E _ _ Hn _ _|t0 b0 _ E _ _ _ _ Hx0|? ? _ _ E _ _ _ _];
    rewrite E; try done.
  - rewrite lookup_insert_ne; [done|congruence].
  - rewrite lookup_delete_ne; [done|congruence].
Qed.

(** *** Contents *)

Lemma flush_pos_grows : flush_pos (wal st) <= flush_pos (wal st').
Proof. by destruct other_effect. Qed.

(** The LSN of a page that [y] flushes. *)
Lemma lsn_kept b c c' : InProgressBuf y = Some (b, false) -> holds y (ContentLock b) = Some LW_SHARED ->
  look st b = Some c -> bstep x x' b c c' -> pd_lsn (c_page c') = pd_lsn (c_page c).
Proof.
  intros Hio Hl Hc B. destruct (r_io _ _ S _ _ Hio) as (_ & c1 & Hc1 & _ & Hd). assert (c1 = c) as -> by congruence.
  destruct B; try done.
  - cbn. auto.
  - exfalso. by eapply other_io.
  - exfalso. apply (other_lock (ContentLock b)); [by rewrite Hl|]. apply client_lock; [apply R|done].
Qed.

Lemma lsn_stable b r pm : shield y (Lsn b r pm) -> holds_in st (Lsn b r pm) -> holds_in st' (Lsn b r pm).
Proof.
  intros [Hio Hl] (c & Hc & E1 & E2). destruct (after b c Hc) as (c' & Hc' & [->|B]); [by exists c|]. exists c'. split; [done|].
  rewrite (lsn_kept _ _ _ Hio Hl Hc B). by destruct (kept _ _ _ Hc B (io_pin _ _ _ S Hio)) as (_ & _ & _ & ->).
Qed.

Lemma flushable_stable b : shield y (Flushable b) -> holds_in st (Flushable b) -> holds_in st' (Flushable b).
Proof.
  intros [Hio Hl] (c & Hc & E). pose proof flush_pos_grows.
  destruct (after b c Hc) as (c' & Hc' & [->|B]); [exists c; split; [done|]; intros Hp; specialize (E Hp); lia|].
  exists c'. split; [done|]. rewrite (lsn_kept _ _ _ Hio Hl Hc B). destruct (kept _ _ _ Hc B (io_pin _ _ _ S Hio)) as (-> & _).
  intros Hp. specialize (E Hp). lia.
Qed.

Lemma redirtied_stable b : clocks y b = Some LW_EXCLUSIVE -> holds_in st (Redirtied b) -> holds_in st' (Redirtied b).
Proof.
  intros Hcl (c & Hc & E1 & E2). destruct (after b c Hc) as (c' & Hc' & [->|B]); [by exists c|]. exists c'. split; [done|].
  assert (Hp : has_pin b y = true) by (apply has_pin_pos, (wf_clocks _ (r_wf _ _ S)); by rewrite Hcl).
  pose proof (other_shared (ContentLock b) ltac:(by apply client_lock; [apply S|])) as Hn. pose proof (other_pin _ _ Hc Hp).
  destruct B; cbn; try done; try congruence; try (rewrite E1, E2; done).
  lia.
Qed.

(** The page of a buffer in the pool is written by its I/O only. *)
Lemma disk_kept b t : holds_in st (Tagged b t) -> has_io b x = false -> disk st' t = disk st t.
Proof.
  intros (c & Hc & T1 & T2) Hio. destruct other_effect as [_ _ E _|? ? ? _ _ _ E _ _|? ? _ _ E _ _ _ _|? ? _ _ E _ _ _ _|b0 c0 Hc0 _ _ E _ Hio0 _];
    rewrite E; try done.
  destruct (decide (c_tag c0 = t)) as [Et|]; [|by rewrite fn_lookup_insert_ne]. exfalso.
  destruct (r_io _ _ R _ _ Hio0) as (_ & c1 & Hc1 & _ & Hd). assert (c1 = c0) as -> by congruence.
  pose proof (i_cores _ I _ _ Hc0) as C. pose proof (co_table _ _ _ C (co_valid _ _ _ C (co_dirty _ _ _ C Hd))) as E1.
  pose proof (co_table _ _ _ (i_cores _ I _ _ Hc) T1) as E2. rewrite Et, <- T2, E2 in E1. injection E1 as ->.
  unfold has_io in Hio. by rewrite Hio0, bool_decide_true in Hio.
Qed.

Lemma loaded_stable b t : shield y (Loaded b t) -> holds_in st (Loaded b t) -> holds_in st' (Loaded b t).
Proof.
  intros [Hio Hf] (c & Hc & E). pose proof (fact_in _ _ _ S Hf) as T. pose proof (disk_kept b t T (io_other _ _ Hio)) as Ed.
  destruct (r_io _ _ S _ _ Hio) as (_ & c1 & Hc1 & _ & Hv). assert (c1 = c) as -> by congruence.
  destruct (after b c Hc) as (c' & Hc' & [->|B]); exists c + exists c'; (split; [done|]); rewrite Ed; [done|].
  assert (Hcv : clocks x b <> None -> False).
  { intros Hcl. destruct (locked_valid _ _ _ R Hcl) as (c2 & Hc2 & Hv2). congruence. }
  destruct B as [| | | | | | | | |pg Hx1|data Hx1|lsn Hx1]; try done; try congruence; exfalso.
  - exact (other_io _ _ _ Hio Hx1).
  - apply Hcv. congruence.
Qed.

(** *** Changes that are owed *)

Lemma being_dirtied_stable b : procs st' = <[p := x']> (procs st) -> being_dirtied st b ->
  being_dirtied st' b \/ on st' b (fun c => v_dirty (c_view c) = true /\ v_just (c_view c) = true).
Proof.
  intros Ep (r & z & Hz & Hd). destruct (decide (r = p)) as [->|Hr].
  - assert (z = x) as -> by congruence. destruct (act_dirtying _ _ _ _ _ b I Hx Hs Hx' Hd) as [Hd'|Hd']; [left|by right].
    by exists p, x'.
  - left. exists r, z. split; [|done]. by rewrite Ep, list_lookup_insert_ne.
Qed.

Context (Ep : procs st' = <[p := x']> (procs st)).

Lemma written_stable b : InProgressBuf y = Some (b, false) -> holds_in st (Written b) -> holds_in st' (Written b).
Proof.
  intros Hio (c & Hc & Hw). destruct (after b c Hc) as (c' & Hc' & B). exists c'. split; [done|].
  destruct (r_io _ _ S _ _ Hio) as (_ & c1 & Hc1 & Hv & Hd). assert (c1 = c) as -> by congruence.
  pose proof (i_cores _ I _ _ Hc) as C. pose proof (co_valid _ _ _ C (co_dirty _ _ _ C Hd)) as Ht.
  assert (T : holds_in st (Tagged b (c_tag c))) by (by exists c).
  pose proof (disk_kept b _ T (io_other _ _ Hio)) as Ed.
  destruct Hw as [E|[E|E]].
  - destruct B as [->|B]; [left; by rewrite Ed|].
    destruct (kept _ _ _ Hc B (io_pin _ _ _ S Hio)) as (-> & _). rewrite Ed.
    destruct B as [| | | | | | | | |pg Hx1|data Hx1 Hx2|lsn Hx1]; try (by left); try (right; by left).
    + exfalso. exact (other_io _ _ _ Hio Hx1).
    + right. right. exists p, x'. done.
  - right. left. destruct B as [->|B]; [done|]. destruct B as [| |Hx1 _|Hx1 _ _| | | |? Hx1 Hx2|r Hx1| | |]; try done.
    + exfalso. exact (other_io _ _ _ Hio Hx1).
    + exfalso. pose proof (other_pins _ _ Hc (io_pin _ _ _ S Hio) Hx1). lia.
    + exfalso. pose proof (other_pin _ _ Hc (io_pin _ _ _ S Hio)). lia.
  - right. apply (being_dirtied_stable b Ep) in E as [E|(c2 & Hc2 & _ & E)]; [by right|left; congruence].
Qed.

(** *** What another process relies on *)

Lemma io_stable : io_facts st' y.
Proof.
  intros b i Hio. destruct (r_io _ _ S _ _ Hio) as (Hp & c & Hc & Hv & Hd). split; [done|].
  destruct (after b c Hc) as (c' & Hc' & B). exists c'. split; [done|]. destruct B as [->|B]; [done|].
  assert (N : forall i', InProgressBuf x <> Some (b, i')) by (intros i' E; exact (other_io _ _ _ Hio E)).
  apply has_pin_pos in Hp. pose proof (other_pin _ _ Hc Hp). pose proof (io_other _ _ Hio) as Hn.
  destruct B as [| | | | | | |? Hx1 Hx2|r Hx1| | |]; cbn; try done; try (by destruct (N _ ltac:(eassumption))); try congruence.
  - split; [done|]. by destruct i.
  - exfalso. pose proof (other_pins _ _ Hc Hp Hx1). lia.
  - lia.
Qed.

Lemma pins_stable : pin_facts st' y.
Proof.
  intros b Hp. destruct (r_pins _ _ S b Hp) as [[c Hc] Hv]. destruct (after b c Hc) as (c' & Hc' & B).
  split; [by rewrite Hc'|]. intros Hb. destruct (Hv Hb) as (c1 & Hc1 & Hv1). assert (c1 = c) as -> by congruence.
  exists c'. split; [done|]. destruct B as [->|B]; [done|]. apply has_pin_pos in Hp.
  by apply (kept _ _ _ Hc B Hp).
Qed.

Lemma range_stable : in_range st' (at_pc y).
Proof.
  pose proof (r_range _ _ S) as Rr. assert (D : forall b, is_Some (look st b) -> is_Some (look st' b)).
  { intros b [c Hc]. destruct (after b c Hc) as (c' & Hc' & _). by rewrite Hc'. }
  destruct (at_pc y); cbn in *; auto.
Qed.

Lemma relies_stable : relies st' y.
Proof.
  constructor; [apply S|apply range_stable| |apply io_stable|apply pins_stable].
  apply List.Forall_forall. intros f Hf%list_elem_of_In. pose proof (shielded _ _ _ S Hf) as Sh. pose proof (fact_in _ _ _ S Hf) as Hh.
  destruct f; [by apply tagged_stable|by apply hastag_stable|by apply nottag_stable|by apply entry_stable|by apply lsn_stable
    |by apply flushable_stable|by apply written_stable|by apply loaded_stable|by apply redirtied_stable].
Qed.
End Other.


(** ** The invariant is kept *)

Section Keep.
Context (st st' : system) (p : nat) (x x' : proc).
Context (I : inv st) (Hx : procs st !! p = Some x) (Hs : acts p x st st') (Hx' : procs st' !! p = Some x').
Context (Ep : procs st' = <[p := x']> (procs st)).

Let R : relies st x := i_relies _ I _ _ Hx.
Let E : effect x x' st st' := act_effect _ _ _ _ _ I Hx Hs Hx'.

(** What a buffer was: either it is the same, or it is all that changes. *)
Definition only_change b c c' : Prop := bstep x x' b c c' /\ table st' = table st /\ disk st' = disk st.

Lemma before b c' : look st' b = Some c' -> exists c, look st b = Some c /\ (c' = c \/ only_change b c c').
Proof.
  intros Hc'. destruct E as [L _ _ _|b0 c0 c2 Hc0 L Et Ed _ B|? ? L _ _ _ _ _ _|? ? L _ _ _ _ _ _|? ? _ L _ _ _ _ _];
    rewrite L in Hc'; try (exists c'; by auto).
  destruct (decide (b = b0)) as [->|]; [|exists c'; by auto]. injection Hc' as <-. exists c0. split; [done|]. by right.
Qed.

Lemma keep_page b c c' : look st b = Some c -> look st' b = Some c' -> c' = c \/ only_change b c c' ->
  v_valid (c_view c') = true -> c_page c' = disk st' (c_tag c') \/ v_dirty (c_view c') = true \/ being_dirtied st' b.
Proof.
  intros Hc Hc' B Hv. pose proof (i_cores _ I _ _ Hc) as C.
  assert (Owed : being_dirtied st b -> v_dirty (c_view c') = true \/ being_dirtied st' b).
  { intros O. destruct (being_dirtied_stable st st' p x x' I Hx Hs Hx' b Ep O) as [O'|(c2 & Hc2 & O' & _)]; [by right|].
    left. congruence. }
  assert (Same : c_page c' = c_page c -> c_tag c' = c_tag c -> v_valid (c_view c) = true ->
    (v_dirty (c_view c) = true -> v_dirty (c_view c') = true) ->
    c_page c' = disk st' (c_tag c') \/ v_dirty (c_view c') = true \/ being_dirtied st' b).
  { intros E1 E2 Hv0 Hd. destruct (co_page _ _ _ C Hv0) as [P|[P|P]]; [|by auto|by auto]. left. rewrite E1, E2, P.
    destruct E as [_ _ Ed _|? ? ? _ _ _ Ed _ _|? ? _ _ Ed _ _ _ _|? ? _ _ Ed _ _ _ _|b0 c0 Hc0 _ _ Ed _ Hio0 _]; rewrite Ed; try done.
    destruct (decide (c_tag c0 = c_tag c)) as [Et|]; [|by rewrite fn_lookup_insert_ne]. rewrite Et, fn_lookup_insert, <- P.
    destruct (r_io _ _ R _ _ Hio0) as (_ & c1 & Hc1 & _ & Hd0). assert (c1 = c0) as -> by congruence.
    pose proof (i_cores _ I _ _ Hc0) as C0. pose proof (co_table _ _ _ C0 (co_valid _ _ _ C0 (co_dirty _ _ _ C0 Hd0))) as T0.
    pose proof (co_table _ _ _ C (co_valid _ _ _ C Hv0)) as T1. rewrite Et, T1 in T0. injection T0 as ->. congruence. }
  destruct B as [->|(B & _ & Ed)]; [by apply Same|].
  destruct B as [| |? ?|Hx1 Hx2 Hx3|t Hx1 Hx2 Hx3|?|? ? ? ?|? ? ? ? ? ? ?|r ? ? ? ?|pg Hx1|data Hx1 Hx2|lsn Hx1 Hx2 Hx3];
    try (by apply Same); try (by right; left).
  - destruct (fact_in _ _ _ R Hx3) as (c1 & Hc1 & W). assert (c1 = c) as -> by congruence.
    destruct (r_io _ _ R _ _ Hx1) as (_ & c1 & Hc1' & _ & Hd). assert (c1 = c) as -> by congruence. cbn.
    rewrite Ed. destruct W as [W|[W|W]]; [by left|right; left; by rewrite Hd, W|right; by apply Owed].
  - destruct (fact_in _ _ _ R Hx2) as (c1 & Hc1 & W). assert (c1 = c) as -> by congruence.
    destruct (fact_in _ _ _ R Hx3) as (c1 & Hc1' & _ & T). assert (c1 = c) as -> by congruence.
    left. cbn. by rewrite Ed, T.
  - destruct (r_io _ _ R _ _ Hx1) as (_ & c1 & Hc1' & _ & Hd). assert (c1 = c) as -> by congruence. cbn in Hv. congruence.
  - right. right. by exists p, x'.
Qed.

Lemma keep_table b c c' : look st b = Some c -> c' = c \/ only_change b c c' ->
  v_tagged (c_view c') = true -> table st' !! c_tag c' = Some b.
Proof.
  intros Hc B Ht. pose proof (i_cores _ I _ _ Hc) as C.
  assert (Same : c_tag c' = c_tag c -> v_tagged (c_view c) = true -> table st' !! c_tag c' = Some b).
  { intros -> Ht0. pose proof (co_table _ _ _ C Ht0) as T0.
    destruct E as [_ Et _ _|? ? ? _ _ Et _ _ _|t0 b0 _ Et _ _ Hn _ _|t0 b0 _ Et _ _ Hf1 Hf2 _|? ? _ _ Et _ _ _ _]; rewrite Et; try done.
    - rewrite lookup_insert_ne; [done|congruence].
    - destruct (decide (t0 = c_tag c)) as [->|]; [|by rewrite lookup_delete_ne]. exfalso.
      pose proof (fact_in _ _ _ R Hf1) as E1. destruct (fact_in _ _ _ R Hf2) as (c1 & Hc1 & Hn). cbn in E1.
      assert (b0 = b) as -> by congruence. assert (c1 = c) as -> by congruence. by apply Hn. }
  destruct B as [->|(B & Et & _)]; [by apply Same|]. destruct B as [| |? ?|Hx1 Hx2 Hx3|t Hx1 Hx2 Hx3|?|? ? ? ?|t ? ? ? Hf ? ? ?|r ? ? ? ?|pg Hx1|data Hx1 Hx2|lsn Hx1 Hx2 Hx3];
    try (by apply Same); try done.
  rewrite Et. exact (fact_in _ _ _ R Hf).
Qed.

Lemma keep_counts (f : nat -> proc -> bool) b n n' : n = countb (f b) (procs st) ->
  n' = n - Z.b2z (f b x) + Z.b2z (f b x') -> n' = countb (f b) (procs st').
Proof. intros -> ->. by rewrite Ep, (countb_insert _ _ _ x). Qed.

Lemma keep_core b c' : look st' b = Some c' -> core_ok st' b c'.
Proof.
  intros Hc'. destruct (before _ _ Hc') as (c & Hc & B). pose proof (i_cores _ I _ _ Hc) as C.
  destruct (act_counts _ _ _ _ _ _ _ _ I Hx Hs Hx' Hc Hc') as [Nr Ni]. constructor.
  - destruct B as [->|(B & _ & _)]; [apply C|]. destruct B; cbn; try done; try apply C.
    intros [Hd _]%andb_true_iff. by apply C.
  - destruct B as [->|(B & _ & _)]; [apply C|]. destruct B as [| |? ?|? ? ?|t Hx1 Hx2 Hx3|?|? ? Hv ?|? ? ? ? ? ? ?|r ? ? ? ?|? ?|? ? ?|? ? ? ?]; cbn; try done; try apply C.
    intros _. destruct (fact_in _ _ _ R Hx3) as (c1 & Hc1' & T & _). congruence.
  - destruct B as [->|(B & _ & _)]; [apply C|]. destruct B; cbn; try done; apply C.
  - eapply keep_counts; [apply C|exact Nr].
  - eapply keep_counts; [apply C|exact Ni].
  - by eapply keep_page.
  - by eapply keep_table.
Qed.

Lemma keep_excl : exclusive st'.
Proof.
  assert (W : wf x') by (by eapply act_wf).
  assert (A : forall q y l m, q <> p -> procs st !! q = Some y -> holds x' l = Some m -> conflicts (holds y l) m = false).
  { intros q y l m Hq Hy Hl. destruct (act_holds _ _ _ _ _ _ _ (r_wf _ _ R) W Hx Hs Hx' Hl) as [Ho|Ho].
    - by eapply (i_excl _ I p q).
    - unfold available in Ho. rewrite forallb_forall in Ho. apply negb_true_iff, Ho. apply list_elem_of_In. by eapply list_elem_of_lookup_2. }
  intros p1 q1 y z l m Hpq Hy Hz Hl. rewrite Ep in Hy, Hz. destruct (decide (p1 = p)) as [->|Hp1].
  - rewrite list_lookup_insert_ne in Hz by done. rewrite list_lookup_insert_eq in Hy by (by eapply lookup_lt_Some).
    injection Hy as <-. by eapply A.
  - rewrite list_lookup_insert_ne in Hy by done. destruct (decide (q1 = p)) as [->|Hq1].
    + rewrite list_lookup_insert_eq in Hz by (by eapply lookup_lt_Some). injection Hz as <-.
      destruct (holds x' l) as [m'|] eqn:E'; [|done]. pose proof (A p1 y l m' Hp1 Hy E') as Ex. rewrite Hl in Ex. by destruct m, m'.
    + rewrite list_lookup_insert_ne in Hz by done. by eapply (i_excl _ I p1 q1).
Qed.

Lemma keep_entries : table_ok st'.
Proof.
  intros t b Ht.
  assert (Old : table st !! t = Some b -> holds_in st' (Tagged b t) \/ (exists q y, procs st' !! q = Some y /\ pending y t b)).
  { intros Ht0. destruct (i_table _ I _ _ Ht0) as [(c & Hc & T1 & T2)|(q & y & Hy & Hp)].
    - destruct (after st st' p x x' I Hx Hs Hx' b c Hc) as (c' & Hc' & [->|B]); [left; by exists c|].
      destruct B as [| |? ?|? ? ?|? ? ? ?|?|? ? ? ?|t1 ? ? ? ? ? ? HB|r ? ? HB ?|? ?|? ? ?|? ? ? ?]; try (left; eexists; split; [exact Hc'|by cbn]).
      + right. exists p, x'. split; [done|]. rewrite <- T2. by apply HB.
      + right. exists p, x'. split; [done|]. rewrite <- T2. by apply HB.
    - destruct (decide (q = p)) as [->|Hq].
      + assert (y = x) as -> by congruence. destruct (act_pending _ _ _ _ _ _ _ I Hx Hs Hx' Hp) as [Hp'|[T|N]]; [|by left|done].
        right. by exists p, x'.
      + right. exists q, y. split; [|done]. by rewrite Ep, list_lookup_insert_ne. }
  destruct E as [_ Et _ _|? ? ? _ _ Et _ _ _|t0 b0 _ Et _ _ Hn _ Hp|t0 b0 _ Et _ _ Hf1 Hf2 _|? ? _ _ Et _ _ _ _]; rewrite Et in Ht; try (by apply Old).
  - destruct (decide (t = t0)) as [->|]; [|rewrite lookup_insert_ne in Ht by done; by apply Old].
    rewrite lookup_insert_eq in Ht. injection Ht as ->. right. by exists p, x'.
  - apply lookup_delete_Some in Ht as [_ Ht]. by apply Old.
Qed.

Lemma keep_wal : wal_ok st'.
Proof.
  intros t Ht. pose proof (i_wal _ I t Ht) as W.
  destruct E as [_ _ Ed Ew|? ? ? _ _ _ Ed Ew _|? ? _ _ Ed Ew _ _ _|? ? _ _ Ed Ew _ _ _|b0 c0 Hc0 _ _ Ed Ew _ Hf]; rewrite Ed; try lia.
  destruct (decide (c_tag c0 = t)) as [<-|]; [rewrite fn_lookup_insert|rewrite fn_lookup_insert_ne by done; lia].
  destruct (fact_in _ _ _ R Hf) as (c1 & Hc1 & F). assert (c1 = c0) as -> by congruence. specialize (F Ht). lia.
Qed.

Lemma keep_relies q y : procs st' !! q = Some y -> relies st' y.
Proof.
  intros Hy. destruct (decide (q = p)) as [->|Hq].
  - assert (y = x') as -> by congruence. constructor; [by eapply act_wf|by eapply act_range|by eapply act_facts|by eapply act_io|by eapply act_pins].
  - rewrite Ep, list_lookup_insert_ne in Hy by done. by eapply (relies_stable st st' p q x x' y).
Qed.

Lemma keep : inv st'.
Proof.
  constructor.
  - rewrite (act_length _ _ _ _ Hs), Ep, length_insert. apply I.
  - by eapply act_headers.
  - apply keep_core.
  - apply keep_excl.
  - apply keep_entries.
  - apply keep_wal.
  - eapply act_free; [apply I|exact Hs].
  - apply keep_relies.
Qed.
End Keep.

Lemma inv_act st st' p x : inv st -> procs st !! p = Some x -> acts p x st st' -> inv st'.
Proof.
  intros I Hx Hs. destruct (act_procs _ _ _ _ Hs) as [x' Ep]. eapply keep; [exact I|exact Hx|exact Hs| |exact Ep].
  rewrite Ep. apply list_lookup_insert_eq. by eapply lookup_lt_Some.
Qed.

End Stable.
End BufStable.
