(* ===== verification/BufRuns.v ===== *)
(** * Shared buffers: reachable states

    The invariant holds in every reachable state of [Bufmgr], and what it means
    for the callers of the buffer manager. *)

From S2P Require Import Prelude.
From S2P Require Import Words.
From S2P Require Import Bufhdr.
From S2P Require Import Bufmgr.
From S2P Require Import BufInv.
From S2P Require Import BufSteps.
From S2P Require Import BufLocal.
From S2P Require Import BufTurn.
From S2P Require Import BufStable.
From stdpp Require Import functions.

Import Words Bufhdr Bufmgr BufInv BufSteps BufLocal BufTurn BufStable.

Open Scope Z_scope.

Module BufRuns.

Section Runs.
Context `{BufEnv}.
Implicit Types (st : system) (x y : proc) (b : nat) (t : BufferTag) (c : core) (v : hview).


(** ** Reachable states *)

(** What the invariant does not depend on: latches, the clock, and the positions
    of the log but the flushed one. *)
Lemma inv_ext st st' : bufs st' = bufs st -> table st' = table st -> disk st' = disk st -> procs st' = procs st ->
  firstFreeBuffer (strategy st') = firstFreeBuffer (strategy st) -> flush_pos (wal st') = flush_pos (wal st) ->
  inv st -> inv st'.
Proof.
  intros Eb Et Ed Ep Ef Ew I.
  assert (L : forall b, look st' b = look st b) by (intros b; unfold look; by rewrite Eb).
  assert (D : forall b, being_dirtied st b -> being_dirtied st' b) by (intros b; unfold being_dirtied; by rewrite Ep).
  assert (On : forall b (P P' : core -> Prop), (forall c, P c -> P' c) -> on st b P -> on st' b P').
  { intros b P P' HP (c & Hc & Hp). exists c. rewrite L. auto. }
  assert (Hh : forall f, holds_in st f -> holds_in st' f).
  { intros [] Hf; cbn in *; rewrite ?Et, ?Ed, ?Ew; try done; (eapply On; [|exact Hf]); try done.
    intros c [?|[?|?]]; auto. }
  destruct I as [I1 I2 I3 I4 I5 I6 I7 I8]. constructor.
  - by rewrite Eb, Ep.
  - unfold headers_ok. by rewrite Eb.
  - intros b c. rewrite L. intros Hc. destruct (I3 b c Hc) as [C1 C2 C3 C4 C5 C6 C7].
    constructor; rewrite ?Ep, ?Ed, ?Et; try done. intros Hv. destruct (C6 Hv) as [?|[?|?]]; auto.
  - unfold exclusive. by rewrite Ep.
  - intros t b. rewrite Et, Ep. intros Ht. destruct (I5 t b Ht) as [T|T]; [left|by right]. by eapply On; [|exact T].
  - intros t Ht. rewrite Ed, Ew. auto.
  - eapply (free_same st); [intros b; by rewrite Eb|done|done].
  - intros p x. rewrite Ep. intros Hx. destruct (I8 p x Hx) as [R1 R2 R3 R4 R5]. constructor; [done| | | |].
    + destruct (at_pc x); cbn in *; by rewrite ?L.
    + by eapply List.Forall_impl; [exact Hh|].
    + intros b i Hio. destruct (R4 b i Hio) as [Hp Ho]. split; [done|]. by eapply On; [|exact Ho].
    + intros b Hp. destruct (R5 b Hp) as [Hs Hv]. rewrite L. split; [done|]. intros Hb. by eapply On; [|exact (Hv Hb)].
Qed.

Lemma pool_lookup n b d : InitBufferPool n !! b = Some d -> d = new_buffer n b /\ (b < n)%nat.
Proof.
  unfold InitBufferPool. rewrite list_lookup_fmap. intros (i & (-> & Hi)%lookup_seq & ->)%fmap_Some. by split.
Qed.

Lemma pool_buffer n b : (b < n)%nat -> InitBufferPool n !! b = Some (new_buffer n b).
Proof. intros Hb. unfold InitBufferPool. rewrite list_lookup_fmap. by rewrite lookup_seq_lt. Qed.

Lemma new_free n nprocs dk w k l : l = seq k (n - k) -> (0 < n - k)%nat -> free_list (init n nprocs dk w) (Z.of_nat k) l.
Proof.
  revert k. induction l as [|b l IH]; intros k El Hk; [destruct (n - k)%nat eqn:E; [lia|done]|].
  destruct (n - k)%nat as [|m] eqn:E; [done|]. injection El as -> El. split; [done|].
  exists (new_buffer n k). split; [apply pool_buffer; lia|]. cbn [freeNext new_buffer].
  destruct (Nat.eqb_spec (Datatypes.S k) n) as [En|En].
  - assert (m = 0)%nat as -> by lia. rewrite El. cbn. unfold FREENEXT_END_OF_LIST, FREENEXT_NOT_IN_LIST. lia.
  - apply IH; [|lia]. rewrite El. f_equal. lia.
Qed.

Lemma new_relies st : relies st new_proc.
Proof.
  constructor; [constructor| | | |]; cbn; try done.
  intros b Hb. cbn in Hb. lia.
Qed.

Lemma countb_new (f : proc -> bool) n : f new_proc = false -> countb f (replicate n new_proc) = 0.
Proof. intros Hf. apply countb_0. intros x (-> & _)%elem_of_replicate. done. Qed.

Lemma pool_inv_init n nprocs dk w : init_ok n nprocs dk w -> inv (init n nprocs dk w).
Proof.
  intros (Hn & _ & Hm & _ & Hd). constructor.
  - cbn. unfold InitBufferPool. rewrite length_map, length_seq, length_replicate. done.
  - intros b d (-> & _)%pool_lookup. by vm_compute.
  - intros b c (d & (-> & Hb)%pool_lookup & ->)%look_desc. constructor; try by vm_compute.
    + cbn. rewrite countb_new; by vm_compute.
    + cbn. rewrite countb_new; by vm_compute.
  - intros p q x y l m _ (-> & _)%lookup_replicate (-> & _)%lookup_replicate. by destruct l.
  - intros t b Ht. cbn in Ht. by rewrite lookup_empty in Ht.
  - exact Hd.
  - exists (seq 0 n). split; [apply (new_free n nprocs dk w 0); [by rewrite Nat.sub_0_r|lia]|]. split; [apply NoDup_seq|].
    intros b d (-> & Hb)%pool_lookup. rewrite elem_of_seq. split; [lia|]. intros _. cbn [freeNext new_buffer].
    destruct (Nat.eqb_spec (Datatypes.S b) n); unfold FREENEXT_END_OF_LIST, FREENEXT_NOT_IN_LIST; lia.
  - intros p x (-> & _)%lookup_replicate. apply new_relies.
Qed.

(** The process that a move is of. *)
Definition mover (mv : move) : option nat :=
  match mv with Call p _ | Run p | Error p => Some p | Post _ | Checkpoint => None end.

(** A move that is not of a process, or the step of one. *)
Lemma move_cases mv st st' : do_move mv st = Done st' ->
  (exists p x, mover mv = Some p /\ procs st !! p = Some x /\ acts p x st st') \/
  (mover mv = None /\ bufs st' = bufs st /\ table st' = table st /\ disk st' = disk st /\ procs st' = procs st /\ strategy st' = strategy st /\
   flush_pos (wal st') = flush_pos (wal st)).
Proof.
  destruct mv as [p r|p|p|p|]; cbn; [| | |intros [= <-]; by right|intros [= <-]; by right].
  - destruct (procs st !! p) as [x|] eqn:Hx; [|done]. destruct (at_pc x) eqn:Epc; try done. intros Hm. left.
    exists p, x. split; [done|]. split; [done|]. right. left. split; [done|]. by exists r.
  - destruct (procs st !! p) as [x|] eqn:Hx; [|done]. intros Hm. left.
    exists p, x. split; [done|]. split; [done|]. by left.
  - destruct (procs st !! p) as [x|] eqn:Hx; [|done]. destruct (may_fail (at_pc x)) eqn:Ef; [|done]. intros Hm. left.
    exists p, x. split; [done|]. split; [done|]. by right; right.
Qed.

Lemma pool_inv_move mv st st' : inv st -> do_move mv st = Done st' -> inv st'.
Proof.
  intros I [(p & x & _ & Hx & Hs)|(_ & E1 & E2 & E3 & E4 & E5 & E6)]%move_cases; [by eapply inv_act|].
  by eapply inv_ext; [..|exact I]; rewrite ?E5.
Qed.

Lemma inv_reachable st : reachable st -> inv st.
Proof. induction 1; [by apply pool_inv_init|by eapply pool_inv_move]. Qed.

End Runs.
End BufRuns.
