(* ===== verification/BufMemory.v ===== *)
(** * Shared buffers: one memory of pages

    The pool and the disk together are a memory that holds one page for each
    tag.  Reading, evicting, flushing and failing leave it as it is; it changes
    when a client changes a page it has pinned and locked, and when a relation
    is dropped. *)

From S2P Require Import Prelude.
From S2P Require Import Words.
From S2P Require Import Bufhdr.
From S2P Require Import Bufmgr.
From S2P Require Import BufInv.
From S2P Require Import BufSteps.
From S2P Require Import BufLocal.
From S2P Require Import BufTurn.
From S2P Require Import BufStable.
From S2P Require Import BufRuns.
From stdpp Require Import functions.

Import Words Bufhdr Bufmgr BufInv BufSteps BufLocal BufTurn BufStable BufRuns.

Open Scope Z_scope.

Module BufMemory.

Section Memory.
Context `{BufEnv}.
Implicit Types (st : system) (x y : proc) (b : nat) (t : BufferTag) (c : core) (v : hview).

(** The page of a tag: the valid buffer's, or the one on the disk. *)
Definition current st t : page :=
  match table st !! t with
  | Some b =>
      match bufs st !! b with
      | Some d => if is_set (state d) BM_VALID && bool_decide (tag d = t) then content d else disk st t
      | None => disk st t
      end
  | None => disk st t
  end.

(** What a move does to the page of a buffer. *)
Inductive change := NewData (data : Z) | NewLSN (lsn : Z) | Dropped.

Definition call_event (r : routine) : option (nat * change) :=
  match r with ModifyPage b v | SetHint b v => Some (b, NewData v) | _ => None end.

Definition step_event x st : option (nat * change) :=
  match at_pc x with
  | Logged b =>
      match bufs st !! b with
      | Some d => if permanent (tag d) then Some (b, NewLSN (insert_pos (wal st) + 1)) else None
      | None => None
      end
  | HintMark b lsn =>
      match bufs st !! b with
      | Some d => if negb (is_set (state d) BM_DIRTY) && negb (lsn =? 0) then Some (b, NewLSN lsn) else None
      | None => None
      end
  | InvCheck _ b old =>
      match bufs st !! b with
      | Some d =>
          if bool_decide (tag d = old) && (BUF_STATE_GET_REFCOUNT (state d) =? 0) && is_set (state d) BM_VALID
          then Some (b, Dropped) else None
      | None => None
      end
  | _ => None
  end.

Definition event (mv : move) st : option (nat * change) :=
  match mv with
  | Call _ r => call_event r
  | Run p => match procs st !! p with Some x => step_event x st | None => None end
  | _ => None
  end.

Definition changed (ch : change) (stored pg : page) : page :=
  match ch with
  | NewData v => MkPage (pd_lsn pg) v
  | NewLSN lsn => MkPage lsn (pd_data pg)
  | Dropped => stored
  end.

(** The memory after an event. *)
Definition remember st (ev : option (nat * change)) t : page :=
  match ev with
  | Some (b, ch) =>
      match bufs st !! b with
      | Some d => if bool_decide (tag d = t) then changed ch (disk st t) (current st t) else current st t
      | None => current st t
      end
  | None => current st t
  end.

(** ** The page of a tag *)

Lemma current_in st b c : inv st -> look st b = Some c -> v_valid (c_view c) = true -> current st (c_tag c) = c_page c.
Proof.
  intros I Hc Hv. pose proof (i_cores _ I _ _ Hc) as C. unfold current. rewrite (co_table _ _ _ C (co_valid _ _ _ C Hv)).
  apply look_desc in Hc as (d & -> & ->). cbn in *. by rewrite Hv, bool_decide_true.
Qed.

Definition pooled st t : Prop := exists b c, look st b = Some c /\ v_valid (c_view c) = true /\ c_tag c = t.

Lemma current_out st t : ~ pooled st t -> current st t = disk st t.
Proof.
  intros N. unfold current. destruct (table st !! t) as [b|]; [|done]. destruct (bufs st !! b) as [d|] eqn:Hd; [|done].
  destruct (is_set (state d) BM_VALID) eqn:Hv; [|done]. case_bool_decide as Ht; [|done]. exfalso. apply N.
  exists b, (core_of d). split; [by apply look_buf|done].
Qed.

Lemma pooled_dec st t : inv st -> pooled st t \/ ~ pooled st t.
Proof.
  intros I. destruct (table st !! t) as [b|] eqn:Ht.
  - destruct (look st b) as [c|] eqn:Hc.
    + destruct (decide (v_valid (c_view c) = true /\ c_tag c = t)) as [[Hv E]|N]; [left; by exists b, c|right].
      intros (b1 & c1 & Hc1 & Hv1 & <-). pose proof (i_cores _ I _ _ Hc1) as C. pose proof (co_table _ _ _ C (co_valid _ _ _ C Hv1)) as E.
      assert (b1 = b) as -> by congruence. assert (c1 = c) as -> by congruence. by apply N.
    + right. intros (b1 & c1 & Hc1 & Hv1 & <-). pose proof (i_cores _ I _ _ Hc1) as C.
      pose proof (co_table _ _ _ C (co_valid _ _ _ C Hv1)). congruence.
  - right. intros (b1 & c1 & Hc1 & Hv1 & <-). pose proof (i_cores _ I _ _ Hc1) as C.
    pose proof (co_table _ _ _ C (co_valid _ _ _ C Hv1)). congruence.
Qed.

Lemma pooled_one st b1 b2 c1 c2 : inv st -> look st b1 = Some c1 -> look st b2 = Some c2 ->
  v_tagged (c_view c1) = true -> v_tagged (c_view c2) = true -> c_tag c1 = c_tag c2 -> b1 = b2.
Proof.
  intros I H1 H2 T1 T2 E. pose proof (co_table _ _ _ (i_cores _ I _ _ H1) T1). pose proof (co_table _ _ _ (i_cores _ I _ _ H2) T2). congruence.
Qed.

(** ** The pages that a move changes *)

Lemma move_written mv st st' b c c' :
  inv st -> do_move mv st = Done st' -> look st b = Some c -> look st' b = Some c' ->
  v_valid (c_view c) = true -> v_valid (c_view c') = true ->
  c_page c' = match event mv st with Some (b', ch) => if decide (b' = b) then changed ch (c_page c) (c_page c) else c_page c | None => c_page c end.
Proof.
  intros I Hm Hc Hc' Hv Hv'. pose proof (i_headers _ I) as Ho.
  destruct mv as [p r|p|p|p|]; cbn in Hm; cbn [event].
  4, 5: injection Hm as <-; change (look st b = Some c') in Hc'; congruence.
  - destruct (procs st !! p) as [x|] eqn:Hx; [|done]. destruct (at_pc x) eqn:Epc; try done.
    destruct r; unfold enter, when, write_data, goto, raise in Hm; split_result Hm; after_look Ho Hc'; cbn [call_event].
    all: try congruence.
    all: try (rewrite decide_True by done; cbn; by rewrite (look_buf _ _ _ ltac:(eassumption)) in Hc; injection Hc as <-).
    all: rewrite decide_False by congruence; congruence.
  - destruct (procs st !! p) as [x|] eqn:Hx; [|done]. unfold step_event.
    pose proof (i_relies _ I _ _ Hx) as R. pose proof (r_io _ _ R) as Rio. pose proof (wf_io _ (r_wf _ _ R)) as Wio.
    step_cases Epc Hm; after_look Ho Hc'.
    all: try congruence.
    all: try match goal with Hd : bufs ?s !! ?b = Some _, Hc : look ?s ?b = Some _ |- _ =>
      rewrite (look_buf _ _ _ Hd) in Hc; injection Hc as <- end.
    all: try done. all: try congruence.
    all: try (repeat case_match; simplify_eq; try done; congruence).
    cbn in Wio. destruct (Rio _ _ Wio) as (_ & c1 & Hc1 & _ & Hv1). cbn in Hv, Hv1.
    rewrite (look_buf _ _ _ ltac:(eassumption)) in Hc1. injection Hc1 as <-. cbn in Hv1. congruence.
  - destruct (procs st !! p) as [x|] eqn:Hx; [|done]. destruct (may_fail (at_pc x)); [|done].
    unfold raise in Hm. injection Hm as <-. change (look st b = Some c') in Hc'. congruence.
Qed.

(** An event is about a valid buffer. *)
Lemma event_valid mv st st' b ch : inv st -> do_move mv st = Done st' -> event mv st = Some (b, ch) ->
  on st b (fun c => v_valid (c_view c) = true).
Proof.
  intros I Hm He. destruct mv as [p r|p|p|p|]; cbn in Hm, He; try done.
  - destruct (procs st !! p) as [x|] eqn:Hx; [|done]. destruct (at_pc x) eqn:Epc; try done.
    pose proof (i_relies _ I _ _ Hx) as R.
    destruct r; cbn in He; try done; injection He as <- <-; unfold enter, when, write_data in Hm; split_result Hm; bools;
      (eapply locked_valid; [exact R|congruence]).
  - destruct (procs st !! p) as [x|] eqn:Hx; [|done]. pose proof (i_relies _ I _ _ Hx) as R.
    pose proof (wf_pc _ (r_wf _ _ R)) as Wp. unfold pc_ok in Wp. unfold step_event in He.
    destruct (at_pc x) eqn:Epc; try done; destruct (bufs st !! b0) as [d|] eqn:Hd; try done.
    + destruct (_ && _) eqn:Et; [|done]. injection He as <- <-. apply andb_true_iff in Et as [_ Hv].
      exists (core_of d). split; [by apply look_buf|done].
    + destruct (permanent (tag d)); [|done]. injection He as <- <-. eapply locked_valid; [exact R|congruence].
    + destruct (negb _ && _); [|done]. injection He as <- <-. by eapply locked_valid.
Qed.

Lemma event_dropped mv st st' b c' : inv st -> do_move mv st = Done st' -> event mv st = Some (b, Dropped) ->
  look st' b = Some c' -> v_valid (c_view c') = false.
Proof.
  intros I Hm He Hc'. pose proof (i_headers _ I) as Ho. destruct mv as [p r|p|p|p|]; cbn in Hm, He; try done.
  - by destruct r.
  - destruct (procs st !! p) as [x|] eqn:Hx; [|done]. unfold step_event in He.
    destruct (at_pc x) eqn:Epc; try done; destruct (bufs st !! b0) as [d|] eqn:Hd; try done.
    + destruct (_ && _) eqn:Et in He; [|done]. injection He as ->. apply andb_true_iff in Et as [Et _].
      apply andb_true_iff in Et as [E1 E2]. unfold step_proc in Hm. rewrite Epc in Hm.
      unfold InvalidateBuffer_check, with_hdr in Hm. rewrite Hd, E1, E2 in Hm. cbn [negb] in Hm. split_result Hm.
      destruct (Ho _ _ Hd) as [Hok Hul]. erewrite (look_good _ _ _ _ _ _ _ _ _ Hd) in Hc'; [|good_step|reflexivity].
      rewrite decide_True in Hc' by done. by injection Hc' as <-.
    + by destruct (permanent (tag d)).
    + by destruct (negb _ && _).
Qed.

(** ** Buffers that become valid, or stop to be *)

Section Act.
Context (st st' : system) (p : nat) (x x' : proc).
Context (I : inv st) (Hx : procs st !! p = Some x) (Hs : acts p x st st') (Hx' : procs st' !! p = Some x').

Let R : relies st x := i_relies _ I _ _ Hx.
Let Ef : effect x x' st st' := act_effect _ _ _ _ _ I Hx Hs Hx'.

Lemma valid_before b c' : look st' b = Some c' -> v_valid (c_view c') = true -> exists c, look st b = Some c /\
  c_tag c' = c_tag c /\ v_tagged (c_view c) = true /\
  (v_valid (c_view c) = true \/ c_page c' = disk st (c_tag c) /\ disk st' = disk st).
Proof.
  intros Hc' Hv. destruct (before st st' p x x' I Hx Hs Hx' b c' Hc') as (c & Hc & B). exists c. split; [done|].
  pose proof (i_cores _ I _ _ Hc) as C.
  assert (Same : c_tag c' = c_tag c -> v_valid (c_view c) = true -> c_tag c' = c_tag c /\ v_tagged (c_view c) = true /\
    (v_valid (c_view c) = true \/ c_page c' = disk st (c_tag c) /\ disk st' = disk st)).
  { intros E1 Hv0. split; [done|]. split; [by apply C|by left]. }
  destruct B as [->|(B & _ & Ed)]; [by apply Same|].
  destruct B as [| |? ?|? ? ?|t Hx1 Hx2 Hx3|?|? ? ? ?|? ? ? ? ? ? ?|r ? ? ? ?|pg Hx1|data Hx1 Hx2|lsn Hx1 Hx2 Hx3];
    try (by apply Same); try done.
  destruct (fact_in _ _ _ R Hx2) as (c1 & Hc1 & W). assert (c1 = c) as -> by congruence.
  destruct (fact_in _ _ _ R Hx3) as (c1 & Hc1' & T1 & T2). assert (c1 = c) as -> by congruence.
  split; [done|]. split; [done|]. right. split; [|done]. cbn. by rewrite W, T2.
Qed.

(** A buffer that is taken for another page holds what is on the disk. *)
Lemma lost b c c' : look st b = Some c -> look st' b = Some c' -> v_valid (c_view c) = true -> v_valid (c_view c') = false ->
  disk st' = disk st /\ (c_page c = disk st (c_tag c) \/ (v_refs (c_view c) = 0 /\ exists r, at_pc x = InvCheck r b (c_tag c))).
Proof.
  intros Hc Hc' Hv Hv'. destruct (before st st' p x x' I Hx Hs Hx' b c' Hc') as (c1 & Hc1 & B).
  assert (c1 = c) as -> by congruence. destruct B as [->|(B & _ & Ed)]; [congruence|]. split; [done|].
  pose proof (i_cores _ I _ _ Hc) as C.
  destruct B as [| |? ?|? ? ?|? ? ? ?|?|? ? ? ?|t Hp Hr Hd ? ? ? ?|r H0 ? ? Hpc|pg Hx1|data Hx1 Hx2|lsn Hx1 Hx2 Hx3];
    try (cbn in Hv'; congruence); [left|right; split; [done|by exists r]].
  destruct (co_page _ _ _ C Hv) as [P|[P|(q & y & Hy & Hdy)]]; [done|congruence|]. exfalso.
  pose proof (i_relies _ I _ _ Hy) as Ry.
  assert (Py : has_pin b y = true).
  { pose proof (wf_pc _ (r_wf _ _ Ry)) as Wp. unfold pc_ok in Wp. unfold dirtying in Hdy. apply has_pin_pos, (wf_clocks _ (r_wf _ _ Ry)).
    destruct (at_pc y); try done; apply Nat.eqb_eq in Hdy as ->; congruence. }
  destruct (decide (q = p)) as [->|Hq].
  - assert (y = x) as -> by congruence. unfold dirtying in Hdy.
    match goal with Hf : Entry _ _ ∈ facts_of (at_pc x) |- _ => destruct (at_pc x); try done; cbn in Hf; set_solver end.
  - pose proof (other_pins st p q x y I Hx Hy (not_eq_sym Hq) b c Hc Py Hp). lia.
Qed.

Lemma disk_after t : ~ pooled st t -> disk st' t = disk st t.
Proof.
  intros N. destruct Ef as [_ _ E _|? ? ? _ _ _ E _ _|? ? _ _ E _ _ _ _|? ? _ _ E _ _ _ _|b0 c0 Hc0 _ _ E _ Hio0 _]; rewrite E; try done.
  destruct (decide (c_tag c0 = t)) as [Et|]; [|by rewrite fn_lookup_insert_ne]. exfalso. apply N.
  destruct (r_io _ _ R _ _ Hio0) as (_ & c1 & Hc1 & _ & Hd). assert (c1 = c0) as -> by congruence.
  exists b0, c0. split; [done|]. split; [by apply (i_cores _ I _ _ Hc0)|done].
Qed.
End Act.

(** ** Refinement *)

Section Refine.
Context (mv : move) (st st' : system) (p : nat) (x x' : proc).
Context (I : inv st) (I' : inv st') (Hm : do_move mv st = Done st').
Context (Hmv : mover mv = Some p) (Hx : procs st !! p = Some x) (Hs : acts p x st st') (Hx' : procs st' !! p = Some x').

(** An event at another buffer is about another tag. *)
Lemma remember_other b c : look st b = Some c -> v_valid (c_view c) = true ->
  (forall ch, event mv st <> Some (b, ch)) -> remember st (event mv st) (c_tag c) = c_page c.
Proof.
  intros Hc Hv Hn. rewrite <- (current_in _ _ _ I Hc Hv). unfold remember.
  destruct (event mv st) as [[b' ch]|] eqn:He; [|done].
  destruct (event_valid _ _ _ _ _ I Hm He) as (c1 & Hc1 & Hv1). apply look_desc in Hc1 as (d & Hd & ->). rewrite Hd.
  case_bool_decide as Et; [|done]. exfalso. apply (Hn ch).
  pose proof (co_valid _ _ _ (i_cores _ I _ _ Hc) Hv) as T. pose proof (co_valid _ _ _ (i_cores _ I _ _ (look_buf _ _ _ Hd)) Hv1) as T1.
  by rewrite (pooled_one st b b' c (core_of d) I Hc (look_buf _ _ _ Hd) T T1).
Qed.

Lemma remember_out t : ~ pooled st t -> remember st (event mv st) t = disk st t.
Proof.
  intros N. rewrite <- (current_out st t N). unfold remember. destruct (event mv st) as [[b' ch]|] eqn:He; [|done].
  destruct (event_valid _ _ _ _ _ I Hm He) as (c1 & Hc1 & Hv1). apply look_desc in Hc1 as (d & Hd & ->). rewrite Hd.
  case_bool_decide as Et; [|done]. exfalso. apply N. exists b', (core_of d). split; [by apply look_buf|done].
Qed.

(** A buffer that stays valid. *)
Lemma refine_kept b c c' : look st b = Some c -> look st' b = Some c' -> v_valid (c_view c) = true -> v_valid (c_view c') = true ->
  c_page c' = remember st (event mv st) (c_tag c).
Proof.
  intros Hc Hc' Hv Hv'. rewrite (move_written _ _ _ _ _ _ I Hm Hc Hc' Hv Hv').
  destruct (event mv st) as [[b' ch]|] eqn:He; [|by rewrite <- He, (remember_other b c) by (by rewrite ?He)].
  destruct (decide (b' = b)) as [->|Hn]; [|rewrite <- He, (remember_other b c); rewrite ?He; [done..|congruence]].
  cbn [remember]. pose proof (look_desc _ _ _ Hc) as (d & Hd & ->). rewrite Hd, bool_decide_true by done.
  rewrite (current_in st b _ I Hc Hv). destruct ch; try done.
  pose proof (event_dropped _ _ _ _ _ I Hm He Hc'). congruence.
Qed.

(** Only a drop takes the page of an event away. *)
Lemma event_kept b ch c' : event mv st = Some (b, ch) -> ch <> Dropped -> look st' b = Some c' -> v_valid (c_view c') = true.
Proof.
  intros He Hch Hc'. destruct (event_valid _ _ _ _ _ I Hm He) as (c & Hc & Hv).
  destruct (v_valid (c_view c')) eqn:Hv'; [done|]. exfalso.
  destruct (before st st' p x x' I Hx Hs Hx' b c' Hc') as (c1 & Hc1 & B). assert (c1 = c) as -> by congruence.
  destruct B as [->|(B & _ & _)]; [congruence|].
  destruct B as [| |? ?|? ? ?|? ? ? ?|?|? ? ? ?|t Hp Hr Hd Hf ? ? ?|r H0 ? ? Hpc|pg Hx1|data Hx1 Hx2|lsn Hx1 Hx2 Hx3];
    try (cbn in Hv'; congruence).
  - destruct mv as [p' r|p'|p'|p'|]; cbn in Hm, He, Hmv; try done; injection Hmv as ->; rewrite Hx in Hm.
    + destruct (at_pc x); try done. cbn in Hf. by apply elem_of_nil in Hf.
    + rewrite Hx in He. unfold step_event in He. destruct (at_pc x); try done; cbn in Hf; try (by apply elem_of_nil in Hf).
      by apply list_elem_of_singleton in Hf.
  - destruct mv as [p' r'|p'|p'|p'|]; cbn in Hm, He, Hmv; try done; injection Hmv as ->; rewrite Hx in Hm; rewrite ?Hpc in Hm; try done.
    rewrite Hx in He. unfold step_event in He. rewrite Hpc in He. destruct (bufs st !! b); [|done]. destruct (_ && _); congruence.
Qed.

Lemma event_inval r b c : at_pc x = InvCheck r b (c_tag c) -> look st b = Some c -> v_valid (c_view c) = true ->
  v_refs (c_view c) = 0 -> event mv st = Some (b, Dropped).
Proof.
  intros Hpc Hc Hv H0. destruct mv as [p' r'|p'|p'|p'|]; cbn in Hm, Hmv; try done; injection Hmv as ->; rewrite Hx in Hm; rewrite ?Hpc in Hm; try done.
  cbn. rewrite Hx. unfold step_event. rewrite Hpc. apply look_desc in Hc as (d & Hd & ->). rewrite Hd.
  cbn in Hv, H0 |- *. by rewrite Hv, H0, bool_decide_true.
Qed.

Lemma refine_act t : current st' t = remember st (event mv st) t.
Proof.
  destruct (pooled_dec st t I) as [(b & c & Hc & Hv & <-)|N].
  - destruct (after st st' p x x' I Hx Hs Hx' b c Hc) as (c' & Hc' & _). destruct (v_valid (c_view c')) eqn:Hv'.
    + destruct (valid_before st st' p x x' I Hx Hs Hx' b c' Hc' Hv') as (c1 & Hc1 & Et & _ & _).
      assert (c1 = c) as -> by congruence. rewrite <- Et, (current_in _ _ _ I' Hc' Hv'), Et. by apply (refine_kept b).
    + destruct (lost st st' p x x' I Hx Hs Hx' b c c' Hc Hc' Hv Hv') as [Ed Hl].
      rewrite current_out.
      2: { intros (b2 & c2' & Hc2' & Hv2' & Et2).
        destruct (valid_before st st' p x x' I Hx Hs Hx' b2 c2' Hc2' Hv2') as (c2 & Hc2 & Et & T2 & _).
        pose proof (pooled_one st b2 b c2 c I Hc2 Hc T2 (co_valid _ _ _ (i_cores _ I _ _ Hc) Hv) ltac:(congruence)) as ->.
        congruence. }
      rewrite Ed. destruct Hl as [Hl|[Hr Hl]].
      * destruct (event mv st) as [[b' ch]|] eqn:He; [|by rewrite <- He, (remember_other b c) by (by rewrite ?He)].
        destruct (decide (b' = b)) as [->|Hn].
        -- assert (ch = Dropped) as -> by (destruct ch; [by rewrite (event_kept _ _ _ He ltac:(done) Hc') in Hv'..|done]).
           cbn [remember]. destruct (look_desc _ _ _ Hc) as (d & Hd & ->). by rewrite Hd, bool_decide_true.
        -- rewrite <- He, (remember_other b c); rewrite ?He; [done..|congruence].
      * destruct Hl as [r Hpc]. rewrite (event_inval r b c Hpc Hc Hv Hr). cbn [remember].
        destruct (look_desc _ _ _ Hc) as (d & Hd & ->). by rewrite Hd, bool_decide_true.
  - rewrite (remember_out t N). destruct (pooled_dec st' t I') as [(b & c' & Hc' & Hv' & <-)|N'].
    + destruct (valid_before st st' p x x' I Hx Hs Hx' b c' Hc' Hv') as (c & Hc & Et & _ & [Hv|[Hp _]]).
      * exfalso. apply N. exists b, c. by rewrite Et.
      * by rewrite (current_in _ _ _ I' Hc' Hv'), Hp, Et.
    + rewrite (current_out _ _ N'). by eapply disk_after.
Qed.
End Refine.

(** C32: The buffer pool refines a memory of pages.  In every reachable state and
    for every move, the page that the pool and the disk hold for a tag changes
    only when the move is a change by a client of a buffer with that tag (its
    data, or the LSN that goes with a change), or the drop of the buffer's
    relation, which leaves what is on the disk; lookups, reads, pins, evictions,
    flushes, waits and failures leave it as it is. *)
Theorem pool_refines mv st st' t :
  reachable st -> do_move mv st = Done st' -> current st' t = remember st (event mv st) t.
Proof.
  intros Hr Hm. pose proof (inv_reachable _ Hr) as I. pose proof (pool_inv_move _ _ _ I Hm) as I'.
  destruct (move_cases _ _ _ Hm) as [(p & x & Hp & Hx & Hs)|(E0 & E1 & E2 & E3 & E4 & _ & _)].
  - destruct (act_procs _ _ _ _ Hs) as [x' Ep]. eapply refine_act; [done|done|exact Hm|exact Hp|exact Hx|exact Hs|].
    rewrite Ep. apply list_lookup_insert_eq. by eapply lookup_lt_Some.
  - assert (Ec : current st' t = current st t) by (unfold current; by rewrite E1, E2, E3). rewrite Ec. by destruct mv.
Qed.

End Memory.
End BufMemory.
