(* ===== verification/BufSweep.v ===== *)
(** * Shared buffers: the clock sweep

    When nobody else moves, the sweep of [StrategyGetBuffer] finds a buffer that
    nobody has pinned, if there is one, before the hand has gone round
    [BM_MAX_USAGE_COUNT + 1] times, and gives up after one round otherwise.  When
    others move, the count of its rounds may go back. *)

From S2P Require Import Prelude.
From S2P Require Import Words.
From S2P Require Import Bufhdr.
From S2P Require Import Bufmgr.
From S2P Require Import BufInv.
From S2P Require Import BufSteps.
From S2P Require Import BufLocal.
From S2P Require Import BufRuns.
From stdpp Require Import functions.

Import Words Bufhdr Bufmgr BufInv BufSteps BufLocal BufRuns.

Open Scope Z_scope.

Module BufSweep.

Section Sweep.
Context `{BufEnv}.
Implicit Types (st : system) (x y : proc) (b : nat) (t : BufferTag).

(** Steps of one process. *)
Fixpoint steps (k : nat) (p : nat) (st : system) : result :=
  match k with
  | O => Done st
  | S k' => match do_move (Run p) st with Done st' => steps k' p st' | r => r end
  end.

Lemma steps_app k1 k2 p st st' : steps k1 p st = Done st' -> steps (k1 + k2) p st = steps k2 p st'.
Proof.
  revert st. induction k1 as [|k1 IH]; intros st; cbn [steps Nat.add]; [by intros [= ->]|].
  destruct (do_move (Run p) st) as [| |s]; [done..|]. apply IH.
Qed.

Lemma run_step p x st : procs st !! p = Some x -> do_move (Run p) st = step_proc p x st.
Proof. intros Hx. cbn. by rewrite Hx. Qed.

Lemma inv_steps k p st st' : inv st -> steps k p st = Done st' -> inv st'.
Proof.
  revert st. induction k as [|k IH]; intros st I; cbn [steps]; [by intros [= <-]|].
  destruct (do_move (Run p) st) as [| |s] eqn:E; [done..|]. apply IH. by eapply pool_inv_move.
Qed.

(** ** The hand *)

(** What is left to go for the hand until a buffer. *)
Definition distance st b : Z := (Z.of_nat b - nextVictimBuffer (strategy st)) mod NBuffers st.

(** A tick, with the wraparound: the hand moves on by one. *)
Lemma tick p x st t n v : procs st !! p = Some x -> at_pc x = Bufmgr.Sweep t n -> nextVictimBuffer (strategy st) = v ->
  0 <= v -> v + 1 < 2 ^ 32 -> 0 < NBuffers st ->
  exists k st' x', (k <= 2)%nat /\ steps k p st = Done st' /\ procs st' = <[p := x']> (procs st) /\
    x' = set_pc (SweepCheck t n (Z.to_nat (v mod NBuffers st))) x /\ bufs st' = bufs st /\
    0 <= nextVictimBuffer (strategy st') <= v + 1 /\
    nextVictimBuffer (strategy st') mod NBuffers st = (v + 1) mod NBuffers st.
Proof.
  intros Hx Epc Ev Hv Hm HN. pose proof (run_step p x st Hx) as E1. unfold step_proc in E1. rewrite Epc in E1.
  unfold ClockSweepTick in E1. rewrite Ev in E1. cbv zeta in E1.
  assert (Hu : u32 (v + 1) = v + 1) by (unfold u32; apply Z.mod_small; lia). rewrite Hu in E1.
  destruct ((NBuffers st <=? v) && (v mod NBuffers st =? 0)) eqn:Ew.
  - apply andb_true_iff in Ew as [Ew1%Z.leb_le Ew2%Z.eqb_eq].
    set (s1 := put_proc p (set_pc (SweepWrap t n (v + 1)) x) _) in E1.
    assert (Hx1 : procs s1 !! p = Some (set_pc (SweepWrap t n (v + 1)) x)) by (apply list_lookup_insert_eq; by eapply lookup_lt_Some).
    pose proof (run_step p _ s1 Hx1) as E2. unfold step_proc in E2. cbn [at_pc set_pc] in E2. unfold ClockSweepTick_wrap in E2.
    cbn [strategy s1 put_proc set_strategy nextVictimBuffer] in E2. rewrite Z.eqb_refl in E2.
    eexists 2%nat, _, _. split; [done|]. split; [cbn [steps]; rewrite E1, E2; reflexivity|].
    cbn. rewrite list_insert_insert_eq. split; [reflexivity|]. rewrite Ew2. split; [done|]. split; [done|].
    change (NBuffers s1) with (NBuffers st). pose proof (Z.mod_pos_bound (v + 1) (NBuffers st) HN).
    pose proof (Z.mod_le (v + 1) (NBuffers st) ltac:(lia) HN). split; [lia|]. by rewrite Z.mod_mod by lia.
  - eexists 1%nat, _, _. split; [lia|]. split; [cbn [steps]; rewrite E1; reflexivity|]. cbn. split; [reflexivity|].
    split; [done|]. split; [done|]. split; [lia|done].
Qed.

(** The distance shrinks by one, unless the hand is there. *)
Lemma distance_next st st' b v : 0 < NBuffers st -> NBuffers st' = NBuffers st -> Z.of_nat b < NBuffers st ->
  nextVictimBuffer (strategy st) = v -> nextVictimBuffer (strategy st') mod NBuffers st = (v + 1) mod NBuffers st ->
  (Z.of_nat b = v mod NBuffers st /\ distance st b = 0 /\ distance st' b = NBuffers st - 1) \/
  (Z.of_nat b <> v mod NBuffers st /\ 0 < distance st b /\ distance st' b = distance st b - 1).
Proof.
  intros HN E Hb Ev Ev'. unfold distance. rewrite E, Ev. set (N := NBuffers st) in *.
  assert (D : (Z.of_nat b - nextVictimBuffer (strategy st')) mod N = (Z.of_nat b - v - 1) mod N).
  { rewrite Zminus_mod, Ev', <- Zminus_mod. f_equal. lia. }
  rewrite D. pose proof (Z.mod_pos_bound (Z.of_nat b - v) N HN) as M. pose proof (Z.mod_pos_bound v N HN) as Mv.
  assert (D0 : (Z.of_nat b - v) mod N = (Z.of_nat b - v mod N) mod N) by (by rewrite Zminus_mod_idemp_r).
  destruct (decide (Z.of_nat b = v mod N)) as [E0|Hne]; [left|right].
  - split; [done|]. assert (Z0 : (Z.of_nat b - v) mod N = 0) by (rewrite D0, E0, Z.sub_diag; by apply Z.mod_0_l; lia).
    split; [done|]. rewrite <- (Zminus_mod_idemp_l (Z.of_nat b - v)), Z0.
    symmetry. apply (Z.mod_unique_pos _ _ (-1)); lia.
  - split; [done|]. assert (Hd : 0 < (Z.of_nat b - v) mod N).
    { destruct (decide ((Z.of_nat b - v) mod N = 0)) as [Z0|]; [|lia]. exfalso. apply Hne. rewrite D0 in Z0.
      destruct (decide (v mod N <= Z.of_nat b)); [rewrite Z.mod_small in Z0 by lia; lia|].
      rewrite <- (Z.mod_unique_pos (Z.of_nat b - v mod N) N (-1) (Z.of_nat b - v mod N + N)) in Z0 by lia. lia. }
    split; [done|]. rewrite <- (Zminus_mod_idemp_l (Z.of_nat b - v)). apply Z.mod_small. lia.
Qed.

(** ** The buffer under the hand *)

Lemma sweep_usage (d : BufferDesc) : hdr_ok (state d) -> BUF_STATE_GET_USAGECOUNT (state d) <> 0 ->
  BUF_STATE_GET_USAGECOUNT (state (in_section sweep_state d)) = BUF_STATE_GET_USAGECOUNT (state d) - 1.
Proof.
  intros Hd Hu. destruct (lock_view _ Hd) as [L1 L2].
  assert (Eu : BUF_STATE_GET_USAGECOUNT (LockBufHdr (state d)) = BUF_STATE_GET_USAGECOUNT (state d))
    by (unfold LockBufHdr; by rewrite usage_lor by by vm_compute).
  destruct (sub_usage _ (proj1 L1) ltac:(by rewrite Eu)) as (_ & _ & U & _). cbn. unfold UnlockBufHdr.
  rewrite usage_land by by vm_compute. by rewrite U, Eu.
Qed.

Lemma sweep_refs (d : BufferDesc) : hdr_ok (state d) -> BUF_STATE_GET_USAGECOUNT (state d) <> 0 ->
  BUF_STATE_GET_REFCOUNT (state (in_section sweep_state d)) = BUF_STATE_GET_REFCOUNT (state d).
Proof. intros Hd Hu. destruct (good_sweep d Hd Hu) as (G & _). exact (f_equal (fun c => v_refs (c_view c)) G). Qed.

(** The process has the buffer [b], and nobody else has. *)
Definition has_victim p t st : Prop := exists x b d tagged, procs st !! p = Some x /\
  (at_pc x = VictimDirty t b tagged \/ at_pc x = VictimTag t b tagged) /\ pins x b = 1%nat /\
  bufs st !! b = Some d /\ BUF_STATE_GET_REFCOUNT (state d) = 1.

(** The process was told that there is none. *)
Definition gave_up p st : Prop := exists x, procs st !! p = Some x /\ at_pc x = AbortIO.

Lemma take_victim p x st t n b d : inv st -> procs st !! p = Some x -> at_pc x = SweepCheck t n b -> bufs st !! b = Some d ->
  BUF_STATE_GET_REFCOUNT (state d) = 0 -> BUF_STATE_GET_USAGECOUNT (state d) = 0 ->
  exists st', do_move (Run p) st = Done st' /\ has_victim p t st'.
Proof.
  intros I Hx Epc Hd Hr Hu. rewrite (run_step p x) by done. unfold step_proc. rewrite Epc.
  destruct (i_headers _ I _ _ Hd) as [Hok Hul].
  assert (Hp : pins x b = 0%nat).
  { destruct (pins x b) eqn:E; [done|]. pose proof (pin_counted _ _ _ _ _ I Hx ltac:(by rewrite E; lia) Hd). cbn in *. lia. }
  unfold StrategyGetBuffer_sweep, with_hdr, victim, PinBuffer_Locked. rewrite Hd, Hul, Hr, Hu, Hp. cbn [Z.eqb].
  eexists. split; [reflexivity|].
  destruct (good_pin_locked d Hok ltac:(by eapply pin_room)) as (G & _).
  eexists _, b, (in_section pin_locked_state d), (is_set (state d) BM_TAG_VALID).
  split; [apply list_lookup_insert_eq; by eapply lookup_lt_Some|].
  split; [cbn; destruct (is_set (state d) BM_DIRTY); auto|]. split; [cbn; by rewrite fn_lookup_insert|].
  split; [cbn; by apply list_lookup_insert_eq; eapply lookup_lt_Some|].
  pose proof (f_equal (fun c => v_refs (c_view c)) G) as E. cbn in E |- *. rewrite E. by rewrite Hr.
Qed.

(** Some buffer is not pinned: what is left to do shrinks, and the sweep does
    not give up. *)
(** One round of the loop: a victim, or less is left. *)
Lemma sweep_round p x st t n b0 d0 : inv st -> procs st !! p = Some x -> at_pc x = Bufmgr.Sweep t n ->
  bufs st !! b0 = Some d0 -> BUF_STATE_GET_REFCOUNT (state d0) = 0 ->
  0 <= nextVictimBuffer (strategy st) -> nextVictimBuffer (strategy st) + 1 < 2 ^ 32 -> distance st b0 < n ->
  exists k st', (k <= 3)%nat /\ steps k p st = Done st' /\ (has_victim p t st' \/
    exists x' n' d', procs st' !! p = Some x' /\ at_pc x' = Bufmgr.Sweep t n' /\ NBuffers st' = NBuffers st /\
      bufs st' !! b0 = Some d' /\ BUF_STATE_GET_REFCOUNT (state d') = 0 /\
      0 <= nextVictimBuffer (strategy st') <= nextVictimBuffer (strategy st) + 1 /\ distance st' b0 < n' /\
      BUF_STATE_GET_USAGECOUNT (state d') * NBuffers st + distance st' b0 <
        BUF_STATE_GET_USAGECOUNT (state d0) * NBuffers st + distance st b0).
Proof.
  intros I Hx Epc Hd0 Hr0 Hv Hm Hn.
  assert (HN : 0 < NBuffers st) by (unfold NBuffers; pose proof (proj1 (i_size _ I)); lia).
  assert (Hb0 : Z.of_nat b0 < NBuffers st) by (unfold NBuffers; apply lookup_lt_Some in Hd0; lia).
  destruct (tick p x st t n _ Hx Epc eq_refl Hv Hm HN) as (k1 & s1 & x1 & Hk1 & Hs1 & Ep1 & -> & Eb1 & Hv1 & Ev1).
  set (v := nextVictimBuffer (strategy st)) in *. set (b := Z.to_nat (v mod NBuffers st)) in *.
  pose proof (Z.mod_pos_bound v (NBuffers st) HN) as Hmod.
  assert (Hx1 : procs s1 !! p = Some (set_pc (SweepCheck t n b) x)) by (rewrite Ep1; apply list_lookup_insert_eq; by eapply lookup_lt_Some).
  pose proof (inv_steps _ _ _ _ I Hs1) as I1.
  destruct (lookup_lt_is_Some_2 (bufs s1) b) as [d Hd]; [rewrite Eb1; unfold b, NBuffers in *; lia|].
  destruct (i_headers _ I1 _ _ Hd) as [Hok Hul]. pose proof (usage_bound (state d)) as Hu.
  assert (EN : NBuffers s1 = NBuffers st) by (unfold NBuffers; by rewrite Eb1).
  pose proof (distance_next st s1 b0 v HN EN Hb0 eq_refl Ev1) as D.
  assert (Hlt : (p < length (procs s1))%nat) by (by eapply lookup_lt_Some).
  assert (Step : forall s2, do_move (Run p) s1 = Done s2 -> steps (k1 + 1) p st = Done s2).
  { intros s2 E2. rewrite (steps_app _ _ _ _ _ Hs1). cbn [steps]. by rewrite E2. }
  destruct (decide (BUF_STATE_GET_REFCOUNT (state d) = 0)) as [Hr|Hr].
  - destruct (decide (BUF_STATE_GET_USAGECOUNT (state d) = 0)) as [Hu0|Hu0].
    + destruct (take_victim p _ s1 t n b d I1 Hx1 eq_refl Hd Hr Hu0) as (s2 & E2 & V).
      exists (k1 + 1)%nat, s2. split; [lia|]. split; [by apply Step|by left].
    + pose proof (run_step p _ s1 Hx1) as E2. unfold step_proc in E2. cbn [at_pc set_pc] in E2.
      unfold StrategyGetBuffer_sweep, with_hdr in E2. rewrite Hd, Hul, Hr, (proj2 (Z.eqb_neq _ _) Hu0) in E2. cbn [Z.eqb] in E2.
      eexists (k1 + 1)%nat, _. split; [lia|]. split; [apply Step; exact E2|]. right.
      eexists _, (NBuffers s1), (if decide (b0 = b) then in_section sweep_state d else d0).
      split; [by apply list_lookup_insert_eq|]. split; [done|].
      match goal with |- NBuffers ?s = _ /\ _ => assert (Es : NBuffers s = NBuffers st) by (rewrite <- EN; unfold NBuffers; cbn; by rewrite length_insert);
        assert (Ed : distance s b0 = distance s1 b0) by (unfold distance; rewrite Es, EN; done) end.
      split; [exact Es|]. rewrite Ed, EN. cbn [bufs put_proc put_buf strategy].
      destruct (decide (b0 = b)) as [->|Hne].
      * assert (d0 = d) as -> by congruence. rewrite list_lookup_insert_eq by (by eapply lookup_lt_Some).
        rewrite sweep_refs, sweep_usage by done. destruct D as [(D1 & D2 & D3)|(D1 & _)]; [|unfold b in D1; lia]. repeat split; lia.
      * rewrite list_lookup_insert_ne by done. rewrite Eb1. destruct D as [(D1 & _)|(D1 & D2 & D3)]; [unfold b in Hne; lia|].
        pose proof (Z.mod_pos_bound (Z.of_nat b0 - v) (NBuffers st) HN). unfold distance in *. fold v in D2, D3 |- *. repeat split; try done; lia.
  - assert (Hne : b0 <> b) by (intros ->; congruence). destruct D as [(D1 & _)|(D1 & D2 & D3)]; [unfold b in Hne; lia|].
    pose proof (run_step p _ s1 Hx1) as E2. unfold step_proc in E2. cbn [at_pc set_pc] in E2.
    unfold StrategyGetBuffer_sweep, with_hdr in E2. rewrite Hd, Hul, (proj2 (Z.eqb_neq _ _) Hr), (proj2 (Z.eqb_neq (n - 1) 0)) in E2 by lia.
    eexists (k1 + 1)%nat, _. split; [lia|]. split; [apply Step; exact E2|]. right. eexists _, (n - 1), d0.
    split; [by apply list_lookup_insert_eq|]. split; [done|]. split; [exact EN|]. split; [cbn; by rewrite Eb1|]. split; [done|].
    match goal with |- context [distance ?s b0] => change (distance s b0) with (distance s1 b0) end. cbn [strategy put_proc]. lia.
Qed.

(** Some buffer is not pinned: the sweep finds one. *)
Lemma sweep_find m p x st t n b0 d0 : inv st -> procs st !! p = Some x -> at_pc x = Bufmgr.Sweep t n ->
  bufs st !! b0 = Some d0 -> BUF_STATE_GET_REFCOUNT (state d0) = 0 ->
  0 <= nextVictimBuffer (strategy st) -> nextVictimBuffer (strategy st) + Z.of_nat m < 2 ^ 32 ->
  BUF_STATE_GET_USAGECOUNT (state d0) * NBuffers st + distance st b0 < Z.of_nat m -> distance st b0 < n ->
  exists k st', (k <= 3 * m)%nat /\ steps k p st = Done st' /\ has_victim p t st'.
Proof.
  revert x st n d0. induction m as [|m IH]; intros x st n d0 I Hx Epc Hd0 Hr0 Hv Hm Hmeas Hn.
  { exfalso. assert (HN : 0 < NBuffers st) by (unfold NBuffers; pose proof (proj1 (i_size _ I)); lia).
    pose proof (Z.mod_pos_bound (Z.of_nat b0 - nextVictimBuffer (strategy st)) (NBuffers st) HN).
    pose proof (usage_bound (state d0)). unfold distance in Hmeas. nia. }
  destruct (sweep_round p x st t n b0 d0 I Hx Epc Hd0 Hr0 Hv ltac:(lia) Hn) as (k & s & Hk & Hs & [V|(x' & n' & d' & Hx' & Epc' & EN & Hd' & Hr' & Hv' & Hn' & Hmeas')]).
  - exists k, s. split; [lia|]. done.
  - destruct (IH x' s n' d') as (k2 & s2 & Hk2 & Hs2 & V); [by eapply inv_steps|done..|lia|lia|rewrite EN; lia|done|].
    exists (k + k2)%nat, s2. split; [lia|]. split; [by rewrite (steps_app _ _ _ _ _ Hs)|done].
Qed.


(** Every buffer is pinned: the sweep gives up when its counter is down. *)
Lemma sweep_none m p x st t n : inv st -> procs st !! p = Some x -> at_pc x = Bufmgr.Sweep t n ->
  (forall b d, bufs st !! b = Some d -> BUF_STATE_GET_REFCOUNT (state d) <> 0) ->
  0 <= nextVictimBuffer (strategy st) -> nextVictimBuffer (strategy st) + Z.of_nat m < 2 ^ 32 -> n = Z.of_nat m -> (0 < m)%nat ->
  exists k st', (k <= 3 * m)%nat /\ steps k p st = Done st' /\ gave_up p st'.
Proof.
  revert x st n. induction m as [|m IH]; intros x st n I Hx Epc Hall Hv Hm -> Hm0; [lia|].
  assert (HN : 0 < NBuffers st) by (unfold NBuffers; pose proof (proj1 (i_size _ I)); lia).
  destruct (tick p x st t _ _ Hx Epc eq_refl Hv ltac:(lia) HN) as (k1 & s1 & x1 & Hk1 & Hs1 & Ep1 & -> & Eb1 & Hv1 & Ev1).
  set (v := nextVictimBuffer (strategy st)) in *. set (b := Z.to_nat (v mod NBuffers st)) in *.
  pose proof (Z.mod_pos_bound v (NBuffers st) HN) as Hmod.
  set (y := set_pc (SweepCheck t (Z.of_nat (Datatypes.S m)) b) x) in *.
  assert (Hx1 : procs s1 !! p = Some y) by (rewrite Ep1; apply list_lookup_insert_eq; by eapply lookup_lt_Some).
  pose proof (inv_steps _ _ _ _ I Hs1) as I1.
  destruct (lookup_lt_is_Some_2 (bufs s1) b) as [d Hd]; [rewrite Eb1; unfold b, NBuffers in *; lia|].
  destruct (i_headers _ I1 _ _ Hd) as [Hok Hul].
  assert (Hr : BUF_STATE_GET_REFCOUNT (state d) <> 0) by (rewrite Eb1 in Hd; by eapply Hall).
  assert (Hlt : (p < length (procs s1))%nat) by (by eapply lookup_lt_Some).
  pose proof (run_step p _ s1 Hx1) as E2. unfold step_proc in E2. cbn [at_pc set_pc y] in E2.
  unfold StrategyGetBuffer_sweep, with_hdr in E2. rewrite Hd, Hul, (proj2 (Z.eqb_neq _ _) Hr) in E2.
  destruct m as [|m].
  - exists (k1 + 1)%nat. cbn [Z.of_nat Pos.of_succ_nat Z.sub Z.eqb Z.add Z.opp Z.pos_sub] in E2.
    eexists. split; [lia|]. split; [rewrite (steps_app _ _ _ _ _ Hs1); cbn [steps]; by rewrite E2|].
    eexists. split; [by apply list_lookup_insert_eq|done].
  - rewrite (proj2 (Z.eqb_neq _ 0)) in E2 by lia.
    match type of E2 with _ = goto p ?z s1 ?c => set (s2 := put_proc p (set_pc c z) s1) end.
    destruct (IH (set_pc (Bufmgr.Sweep t (Z.of_nat (Datatypes.S (Datatypes.S m)) - 1)) y) s2 (Z.of_nat (Datatypes.S (Datatypes.S m)) - 1)) as (k2 & s3 & Hk2 & Hs3 & V).
    + eapply (pool_inv_move (Run p)); [exact I1|exact E2].
    + by apply list_lookup_insert_eq.
    + done.
    + cbn. rewrite Eb1. exact Hall.
    + cbn. lia.
    + cbn [strategy put_proc s2]. lia.
    + lia.
    + lia.
    + exists (k1 + (1 + k2))%nat, s3. split; [lia|]. split; [|done]. rewrite (steps_app _ _ _ _ _ Hs1). cbn [steps Nat.add]. rewrite E2. exact Hs3.
Qed.

(** The hand is a number. *)
Lemma clock_nonneg st : reachable st -> 0 <= nextVictimBuffer (strategy st).
Proof.
  induction 1 as [|st mv st' Hr IH Hm]; [done|]. pose proof (inv_reachable _ Hr) as I.
  destruct (move_cases _ _ _ Hm) as [(p & x & _ & Hx & Hs)|(_ & _ & _ & _ & _ & E & _)]; [|by rewrite E].
  act_cases Epc Hs; cbn; try done; try apply u32_range.
  assert (0 < NBuffers st) by (unfold NBuffers; pose proof (proj1 (i_size _ I)); lia). by apply Z.mod_pos_bound.
Qed.

(** C37: The clock sweep ends.  A process that is about to run the sweep, while the
    others stand still, is done in at most 18 steps for each buffer: when some
    buffer is not pinned it ends with a buffer that it alone has pinned, before
    the hand has gone round [BM_MAX_USAGE_COUNT + 1] times, and when every buffer
    is pinned it throws the error that there is none.  The counter must have room
    before it overflows. *)
Theorem StrategyGetBuffer_terminates p x st t :
  reachable st -> procs st !! p = Some x -> at_pc x = Bufmgr.Sweep t (NBuffers st) ->
  nextVictimBuffer (strategy st) + 6 * NBuffers st < 2 ^ 32 ->
  exists k st', (k <= 18 * length (bufs st))%nat /\ steps k p st = Done st' /\
    if forallb (fun d => negb (BUF_STATE_GET_REFCOUNT (state d) =? 0)) (bufs st) then gave_up p st' else has_victim p t st'.
Proof.
  intros Hr Hx Epc Hm. pose proof (inv_reachable _ Hr) as I. pose proof (clock_nonneg _ Hr) as Hv.
  assert (HN : 0 < NBuffers st) by (unfold NBuffers; pose proof (proj1 (i_size _ I)); lia).
  destruct (forallb _ _) eqn:Ef.
  - rewrite forallb_forall in Ef.
    destruct (sweep_none (length (bufs st)) p x st t (NBuffers st)) as (k & st' & Hk & Hs & G); try done; try (unfold NBuffers in *; lia).
    + intros b d Hd. assert (Hin : In d (bufs st)) by (apply list_elem_of_In; by eapply list_elem_of_lookup_2).
      specialize (Ef d Hin). by apply negb_true_iff, Z.eqb_neq in Ef.
    + exists k, st'. split; [lia|]. done.
  - assert (Hex : exists b d, bufs st !! b = Some d /\ BUF_STATE_GET_REFCOUNT (state d) = 0).
    { clear - Ef. induction (bufs st) as [|d l IH]; [done|]. cbn in Ef. destruct (negb _) eqn:E; cbn in Ef.
      - destruct (IH Ef) as (b & d1 & Hb & Hd1). by exists (Datatypes.S b), d1.
      - exists 0%nat, d. split; [done|]. by apply negb_false_iff, Z.eqb_eq in E. }
    destruct Hex as (b & d & Hd & Hr0). destruct (i_headers _ I _ _ Hd) as [[_ Hu] _]. unfold BM_MAX_USAGE_COUNT in Hu.
    pose proof (Z.mod_pos_bound (Z.of_nat b - nextVictimBuffer (strategy st)) (NBuffers st) HN).
    pose proof (usage_bound (state d)).
    destruct (sweep_find (6 * length (bufs st)) p x st t (NBuffers st) b d) as (k & st' & Hk & Hs & V); try done.
    + unfold NBuffers in *. lia.
    + unfold distance. unfold NBuffers in *. nia.
    + unfold distance. lia.
    + exists k, st'. split; [lia|]. done.
Qed.


(** ** The position of the hand *)

(** [StrategySyncStart]: the buffer under the hand, the rounds with those that are
    not counted yet, and the allocations since the last call. *)
Definition StrategySyncStart st : (Z * Z * Z) * system :=
  let c := strategy st in
  ((nextVictimBuffer c mod NBuffers st, u32 (completePasses c + nextVictimBuffer c / NBuffers st), numBufferAllocs c),
   set_strategy (MkStrategy (firstFreeBuffer c) (lastFreeBuffer c) (nextVictimBuffer c) (completePasses c) 0) st).

(** Buffers that the hand has passed since the start, as [BgBufferSync] counts. *)
Definition scanned st : Z := let '((result, complete_passes, _), _) := StrategySyncStart st in complete_passes * NBuffers st + result.

Definition hand_ok st : Prop :=
  0 < NBuffers st /\ 0 <= completePasses (strategy st) /\ 0 <= nextVictimBuffer (strategy st) /\
  completePasses (strategy st) + 1 + nextVictimBuffer (strategy st) / NBuffers st < 2 ^ 32.

Lemma scanned_eq st : hand_ok st ->
  scanned st = completePasses (strategy st) * NBuffers st + nextVictimBuffer (strategy st).
Proof.
  intros (HN & H1 & H2 & H3). unfold scanned, StrategySyncStart. cbn beta iota zeta.
  pose proof (Z.div_pos _ _ H2 HN). rewrite u32_id by (unfold is_u32; lia).
  pose proof (Z.div_mod (nextVictimBuffer (strategy st)) (NBuffers st) ltac:(lia)). lia.
Qed.

(** The hand goes on by one, and a wraparound is counted without moving it, unless
    the counter has gone round twice in between: then all rounds but one are lost
    until the processes that caused them have counted theirs. *)
Lemma scanned_tick p x st t n st' :
  hand_ok st -> nextVictimBuffer (strategy st) + 1 < 2 ^ 32 ->
  ClockSweepTick p x st t n = Done st' -> hand_ok st' -> scanned st' = scanned st + 1.
Proof.
  intros H1 Hv Hs H2. rewrite (scanned_eq _ H1), (scanned_eq _ H2). unfold ClockSweepTick in Hs. injection Hs as <-.
  destruct H1 as (_ & _ & Hv0 & _). unfold NBuffers. cbn. rewrite u32_id by (unfold is_u32; lia). lia.
Qed.

Lemma scanned_wrap p x st t n e st' :
  hand_ok st -> ClockSweepTick_wrap p x st t n e = Done st' -> hand_ok st' ->
  scanned st' = if nextVictimBuffer (strategy st) =? e then scanned st - (e / NBuffers st - 1) * NBuffers st else scanned st.
Proof.
  intros H1 Hs H2. rewrite (scanned_eq _ H1), (scanned_eq _ H2). unfold ClockSweepTick_wrap, goto in Hs.
  destruct H1 as (HN & H11 & H12 & H13). pose proof (Z.div_pos _ _ H12 HN).
  destruct (Z.eqb_spec (nextVictimBuffer (strategy st)) e) as [->|]; injection Hs as <-; [|done].
  cbn. rewrite u32_id by (unfold is_u32; lia). change (NBuffers (put_proc _ _ _)) with (NBuffers st).
  pose proof (Z.div_mod e (NBuffers st) ltac:(lia)). lia.
Qed.

End Sweep.
End BufSweep.
