(* ===== verification/BufWait.v ===== *)
(** * Shared buffers: waiting for a cleanup lock

    The flag [BM_PIN_COUNT_WAITER] and the name of the waiter at a buffer, through
    every update of a header; a cleanup lock is had alone, and who waits for one
    is woken up. *)

From S2P Require Import Prelude.
From S2P Require Import Words.
From S2P Require Import Bufhdr.
From S2P Require Import Bufmgr.
From S2P Require Import BufInv.
From S2P Require Import BufSteps.
From S2P Require Import BufLocal.
From S2P Require Import BufTurn.
From S2P Require Import BufRuns.
From stdpp Require Import functions.

Import Words Bufhdr Bufmgr BufInv BufSteps BufLocal BufTurn BufRuns.

Open Scope Z_scope.

Module BufWait.

(** ** The flag *)

Definition waits (z : Z) : bool := is_set z BM_PIN_COUNT_WAITER.

Ltac waits_bits := intros; unfold waits, in_section, wait_state, unwait_state, dirty_state, start_io_state, clear_just_dirtied,
  LockBufHdr, UnlockBufHdr; flag_bits; try done.

Section Flag.
Context (z : Z).

Lemma waits_lockhdr : waits (LockBufHdr z) = waits z.
Proof. waits_bits. Qed.
Lemma waits_unlock : waits (UnlockBufHdr z) = waits z.
Proof. waits_bits. Qed.
Lemma waits_wait : waits (wait_state z) = true.
Proof. waits_bits. Qed.
Lemma waits_unwait : waits (unwait_state z) = false.
Proof. waits_bits. Qed.
Lemma waits_dirty : waits (dirty_state z) = waits z.
Proof. waits_bits. Qed.
Lemma waits_start_io : waits (start_io_state z) = waits z.
Proof. waits_bits. Qed.
Lemma waits_clear_just : waits (clear_just_dirtied z) = waits z.
Proof. waits_bits. Qed.
Lemma waits_terminate clear flags : waits flags = false -> waits (terminate_state clear flags z) = waits z.
Proof.
  intros Hf. unfold waits, terminate_state in *. cbv zeta.
  set (m := Z.land z _). assert (E : is_set m BM_PIN_COUNT_WAITER = is_set z BM_PIN_COUNT_WAITER) by (unfold m; flag_bits; done).
  unfold BM_PIN_COUNT_WAITER in *. rewrite flag_lor, Hf, orb_false_r by lia. destruct (_ && _); [|done].
  rewrite flag_land by (first [by vm_compute|lia]). by rewrite E, andb_true_r.
Qed.
Lemma waits_rename p : waits (rename_state p z) = waits z.
Proof. unfold waits, rename_state. destruct p; flag_bits; done. Qed.

Lemma waits_same z' : same_flags z z' -> waits z' = waits z.
Proof. intros F. apply F. lia. Qed.
End Flag.


Lemma waits_section f z : (forall z, waits (f z) = waits z) -> waits (UnlockBufHdr (f (LockBufHdr z))) = waits z.
Proof. intros Hf. by rewrite waits_unlock, Hf, waits_lockhdr. Qed.

Lemma waits_pin_locked d : hdr_ok (state d) -> BUF_STATE_GET_REFCOUNT (state d) + 1 < 2 ^ 18 ->
  waits (UnlockBufHdr (pin_locked_state (LockBufHdr (state d)))) = waits (state d).
Proof.
  intros Hok Hr. rewrite waits_unlock, <- (waits_lockhdr (state d)). destruct (lock_view _ Hok) as [[Hl _] L].
  apply waits_same. apply add_ref; [done|]. by rewrite (f_equal v_refs L : BUF_STATE_GET_REFCOUNT (LockBufHdr (state d)) = _).
Qed.

Lemma waits_sweep d : hdr_ok (state d) -> BUF_STATE_GET_USAGECOUNT (state d) <> 0 ->
  waits (UnlockBufHdr (sweep_state (LockBufHdr (state d)))) = waits (state d).
Proof.
  intros Hok Hu. rewrite waits_unlock, <- (waits_lockhdr (state d)). destruct (lock_view _ Hok) as [[Hl _] L].
  apply waits_same. apply sub_usage; [done|]. unfold LockBufHdr. by rewrite usage_lor by by vm_compute.
Qed.

Section Waiting.
Context `{BufEnv}.
Implicit Types (st : system) (x y : proc) (b : nat) (t : BufferTag).

(** What a step of [q] does to the flag and the name at a buffer. *)
Definition wait_step (q : nat) x x' b (d d' : BufferDesc) : Prop :=
  (waits (state d') = waits (state d) /\ wait_backend d' = wait_backend d) \/
  waits (state d) = false \/
  BUF_STATE_GET_REFCOUNT (state d) = 0 \/
  (exists k, at_pc x = UnpinSignal b k /\ at_pc x' = SendSignal (wait_backend d) k) \/
  wait_backend d = q.

Lemma act_waits q x x' st st' b d d' :
  inv st -> procs st !! q = Some x -> acts q x st st' -> procs st' !! q = Some x' ->
  bufs st !! b = Some d -> bufs st' !! b = Some d' -> wait_step q x x' b d d'.
Proof.
  intros I Hx Hs Hx' Hd Hd'. destruct (i_headers _ I _ _ Hd) as [Hok Hul]. unfold wait_step.
  act_cases Epc Hs; the_proc Hx Hx'; cbn in Hd'.
  all: try (left; by assert (d' = d) as -> by congruence).
  all: match type of Hd' with <[?b1 := _]> _ !! _ = _ => destruct (decide (b = b1)) as [->|Hn];
    [rewrite list_lookup_insert_eq in Hd' by (by eapply lookup_lt_Some); injection Hd' as <-
    |rewrite list_lookup_insert_ne in Hd' by done; left; by assert (d' = d) as -> by congruence] end.
  all: repeat match goal with Hd2 : bufs ?s !! ?b1 = Some ?d1 |- _ => match goal with Hd3 : bufs s !! b1 = Some ?d2 |- _ =>
    assert_fails (constr_eq d1 d2); assert (d1 = d2) as -> by congruence end end.
  all: cbn.
  all: try (left; split; [|done]; first
    [done
    |apply waits_section; first [intros; apply waits_rename|apply waits_start_io|apply waits_clear_just|apply waits_dirty
      |intros; by apply waits_terminate]
    |apply waits_pin_locked; [done|by eapply pin_room]
    |apply waits_sweep; [done|by apply Z.eqb_neq]
    |apply waits_same, pin_spec; [apply Hok|by eapply pin_room|apply Hok]
    |apply waits_same, sub_ref; [apply Hok|refine (pin_counted _ _ x _ _ I Hx _ Hd); lia]
    |apply waits_dirty]; fail).
  - right. right. right. left. by exists k.
  - right. right. left. apply Z.eqb_eq. by apply negb_false_iff.
  - right. by left.
  - unfold unwait. destruct (_ && _) eqn:E; [|by left]. apply andb_true_iff in E as [_ E%Nat.eqb_eq]. by do 4 right.
  - unfold unwait. destruct (_ && _) eqn:E; [|by left]. apply andb_true_iff in E as [_ E%Nat.eqb_eq]. by do 4 right.
Qed.

(** The last unpinning step, and what a step does to signals. *)
Lemma act_unpins q x x' st st' b d :
  inv st -> procs st !! q = Some x -> acts q x st st' -> procs st' !! q = Some x' -> bufs st !! b = Some d ->
  waits (state d) = true -> (0 < pins x b)%nat -> pins x' b = 0%nat -> exists k, at_pc x' = UnpinSignal b k.
Proof.
  intros I Hx Hs Hx' Hd Hw Hp Hz. destruct (i_headers _ I _ _ Hd) as [Hok Hul].
  act_cases Epc Hs; the_proc Hx Hx'; cbn in Hz |- *; try lia.
  all: fn_cases; try lia.
  - by exists k.
  - exfalso. assert (b1 = d) as -> by congruence.
    assert (E : waits (unpin_state (state d)) = waits (state d)); [|unfold waits in *; congruence].
    apply waits_same, sub_ref; [apply Hok|]. refine (pin_counted _ _ x _ _ I Hx _ Hd); lia.
Qed.

Lemma act_signals q x x' st st' b d k :
  procs st !! q = Some x -> acts q x st st' -> procs st' !! q = Some x' -> bufs st !! b = Some d ->
  at_pc x = UnpinSignal b k -> waits (state d) = true ->
  at_pc x' = SendSignal (wait_backend d) k \/ BUF_STATE_GET_REFCOUNT (state d) <> 1.
Proof.
  intros Hx Hs Hx' Hd E Hw. unfold waits in Hw.
  destruct Hs as [Hs|[(E' & _)|(Hm & _)]]; [|congruence|by rewrite E in Hm].
  unfold step_proc in Hs. rewrite E in Hs. unfold UnpinBuffer_signal, with_hdr, goto in Hs. rewrite Hd, Hw in Hs.
  destruct (is_set _ BM_LOCKED); [done|]. cbn [andb] in Hs.
  destruct (Z.eqb_spec (BUF_STATE_GET_REFCOUNT (state d)) 1); [left|by right]. injection Hs as <-. by the_proc Hx Hx'.
Qed.

Lemma act_latches q x x' st st' p :
  procs st !! q = Some x -> acts q x st st' -> procs st' !! q = Some x' -> q <> p ->
  (latches st p = true -> latches st' p = true) /\
  (forall k, at_pc x = SendSignal p k -> latches st' p = true).
Proof.
  intros Hx Hs Hx' Hq. act_cases Epc Hs; the_proc Hx Hx'; cbn; (split; [|try done]); try done.
  all: try (intros Hl; by rewrite fn_lookup_insert_ne).
  - intros Hl. destruct (decide (q0 = p)) as [->|]; [by rewrite fn_lookup_insert|by rewrite fn_lookup_insert_ne].
  - intros k0 [= -> _]. by rewrite fn_lookup_insert.
Qed.

(** ** Waiting *)

(** What will wake up a process that waits for a buffer. *)
Definition rouses st p b (q : nat) y : Prop :=
  q <> p /\ procs st !! q = Some y /\
  ((exists k, at_pc y = SendSignal p k) \/
   exists d, bufs st !! b = Some d /\ waits (state d) = true /\ wait_backend d = p /\
     ((0 < pins y b)%nat \/ exists k, at_pc y = UnpinSignal b k)).

Definition awaited st p b : Prop := latches st p = true \/ exists q y, rouses st p b q y.

Lemma another_pin st p x b d : inv st -> procs st !! p = Some x -> (0 < pins x b)%nat -> bufs st !! b = Some d ->
  BUF_STATE_GET_REFCOUNT (state d) <> 1 -> exists q y, q <> p /\ procs st !! q = Some y /\ (0 < pins y b)%nat.
Proof.
  intros I Hx Hp Hd Hr. pose proof (pin_counted _ _ _ _ _ I Hx Hp Hd) as H0.
  assert (E := co_refs _ _ _ (i_cores _ I _ _ (look_buf _ _ _ Hd))). cbn in H0, E.
  assert (Hc : 0 < countb (has_pin b) (<[p := new_proc]> (procs st))).
  { rewrite (countb_insert _ _ _ x) by done. assert (Ex : has_pin b x = true) by (unfold has_pin; by apply Nat.ltb_lt).
    rewrite Ex. cbn. lia. }
  apply countb_lookup in Hc as (q & y & Hy & Py). destruct (decide (q = p)) as [->|Hq].
  - rewrite list_lookup_insert_eq in Hy by (by eapply lookup_lt_Some). by injection Hy as <-.
  - rewrite list_lookup_insert_ne in Hy by done. exists q, y. split; [done|]. split; [done|]. by apply Nat.ltb_lt.
Qed.

Lemma awaited_other p q x x' y st st' b :
  inv st -> procs st !! p = Some y -> (0 < pins y b)%nat -> procs st !! q = Some x -> q <> p -> acts q x st st' ->
  procs st' !! q = Some x' -> procs st' = <[q := x']> (procs st) -> awaited st p b -> awaited st' p b.
Proof.
  intros I Hy Hp Hx Hq Hs Hx' Ep W. destruct (act_latches q x x' st st' p Hx Hs Hx' Hq) as [L1 L2].
  destruct W as [W|(r & z & Hr & Hz & W)]; [left; auto|].
  assert (Keep : r <> q -> procs st' !! r = Some z) by (intros Hn; by rewrite Ep, list_lookup_insert_ne).
  destruct W as [[k Hk]|(d & Hd & Hw & Hb & W)].
  { destruct (decide (r = q)) as [->|Hn]; [left; apply (L2 k); congruence|].
    right. exists r, z. split; [done|]. split; [auto|]. left. by exists k. }
  destruct (lookup_lt_is_Some_2 (bufs st') b) as [d' Hd'].
  { rewrite (act_length _ _ _ _ Hs). by eapply lookup_lt_Some. }
  pose proof (pin_counted _ _ _ _ _ I Hy Hp Hd) as H0. cbn in H0. right.
  destruct (act_waits q x x' st st' b d d' I Hx Hs Hx' Hd Hd') as [(E1 & E2)|[E|[E|[(k & Ex & Ex')|E]]]]; [|congruence|lia| |congruence].
  2: { exists q, x'. split; [done|]. split; [done|]. left. exists k. by rewrite <- Hb. }
  assert (Some_pin : forall r z, r <> p -> procs st' !! r = Some z -> (0 < pins z b)%nat \/ (exists k, at_pc z = UnpinSignal b k) ->
    exists q y, rouses st' p b q y).
  { intros r1 z1 H1 H2 H3. exists r1, z1. split; [done|]. split; [done|]. right. exists d'. by rewrite E1, E2. }
  destruct (decide (r = q)) as [->|Hn]; [|by apply (Some_pin r z); auto]. assert (z = x) as -> by congruence.
  destruct (decide (pins x' b = 0%nat)) as [Hz0|Hz0]; [|apply (Some_pin q x'); [done|done|left; lia]].
  destruct (decide (pins x b = 0%nat)) as [Hx0|Hx0].
  - destruct W as [W|[k Hk]]; [lia|]. destruct (act_signals q x x' st st' b d k Hx Hs Hx' Hd Hk Hw) as [E|E].
    + exists q, x'. split; [done|]. split; [done|]. left. exists k. by rewrite <- Hb.
    + destruct (another_pin st p y b d I Hy Hp Hd E) as (r & w & Hr1 & Hw1 & Pw). apply (Some_pin r w); [done| |by left].
      rewrite Ep, list_lookup_insert_ne; [done|]. intros ->. assert (w = x) as -> by congruence. lia.
  - destruct (act_unpins q x x' st st' b d I Hx Hs Hx' Hd Hw ltac:(lia) Hz0) as [k Hk].
    apply (Some_pin q x'); [done|done|right; by exists k].
Qed.

(** A process starts to wait. *)
Lemma act_starts p x x' st st' b :
  inv st -> procs st !! p = Some x -> acts p x st st' -> procs st' !! p = Some x' -> at_pc x' = CleanWait b -> awaited st' p b.
Proof.
  intros I Hx Hs Hx' E. pose proof (i_relies _ I _ _ Hx) as R. right. revert E.
  act_cases Epc Hs; the_proc Hx Hx'; cbn; intros E; rewrite ?Epc in *; try done.
  all: try match type of E with context [flushed ?k _] => by destruct k end.
  all: try match type of E with context [unpinned ?k] => by destruct k end.
  injection E as ->. pose proof (wf_pc _ (r_wf _ _ R)) as Wp. unfold pc_ok in Wp. rewrite Epc in Wp.
  pose proof (wf_clocks _ (r_wf _ _ R) b ltac:(by rewrite Wp)) as Hp.
  edestruct (another_pin st p x b) as (q & y & Hq & Hy & Py); [exact I|exact Hx|exact Hp|eassumption|by apply Z.eqb_neq|].
  exists q, y. split; [done|]. split; [cbn; by rewrite list_lookup_insert_ne|]. right. eexists.
  split; [apply list_lookup_insert_eq; by eapply lookup_lt_Some|]. split; [|split; [done|by left]].
  cbn. by rewrite waits_unlock, waits_wait.
Qed.

Lemma others_latches mv st st' p : mover mv = None -> do_move mv st = Done st' -> latches st p = true -> latches st' p = true.
Proof.
  destruct mv as [| | |q|]; cbn; try done; intros _ [= <-] Hl; cbn; [|done].
  destruct (decide (q = p)) as [->|]; [by rewrite fn_lookup_insert|by rewrite fn_lookup_insert_ne].
Qed.

Lemma awaited_reachable st p x b : reachable st -> procs st !! p = Some x -> at_pc x = CleanWait b -> awaited st p b.
Proof.
  intros Hr. revert p x b. induction Hr as [n nprocs dk w|st mv st' Hr IH Hm]; intros p x b Hx E.
  - by apply lookup_replicate in Hx as [-> _].
  - pose proof (inv_reachable _ Hr) as I.
    destruct (move_cases _ _ _ Hm) as [(q & z & _ & Hz & Hs)|(E0 & E1 & _ & _ & E4 & _)].
    + destruct (act_procs _ _ _ _ Hs) as [z' Ep].
      assert (Hz' : procs st' !! q = Some z') by (rewrite Ep; apply list_lookup_insert_eq; by eapply lookup_lt_Some).
      destruct (decide (q = p)) as [->|Hq]; [exact (act_starts p z x st st' b I Hz Hs Hx E)|].
      rewrite Ep, list_lookup_insert_ne in Hx by done. refine (awaited_other p q z z' x st st' b I Hx _ Hz Hq Hs Hz' Ep (IH p x b Hx E)).
      pose proof (wf_pc _ (r_wf _ _ (i_relies _ I _ _ Hx))) as Wp. unfold pc_ok in Wp. rewrite E in Wp. apply Wp.
    + rewrite E4 in Hx. unfold awaited, rouses. rewrite E1, E4. destruct (IH p x b Hx E) as [W|W]; [left|by right].
      by apply (others_latches mv st st').
Qed.
(** ** [LockBufferForCleanup] *)

(** C39: A cleanup lock is had alone.  When [LockBufferForCleanup] returns, its caller
    holds the content lock exclusively and no other process has the buffer
    pinned, locked, or does I/O on it; when it has to wait, it has let the lock
    go and left its name at the buffer; the only other way out is an error. *)
Theorem LockBufferForCleanup_sole p b x x' st st' :
  reachable st -> procs st !! p = Some x -> at_pc x = CleanCheck b ->
  do_move (Run p) st = Done st' -> procs st' !! p = Some x' ->
  (at_pc x' = Idle /\ clocks x' b = Some LW_EXCLUSIVE /\ (0 < pins x' b)%nat /\
   forall q y, q <> p -> procs st' !! q = Some y -> pins y b = 0%nat /\ holds y (ContentLock b) = None /\ has_io b y = false) \/
  (at_pc x' = CleanWait b /\ PinCountWaitBuf x' = Some b /\ clocks x' b = None /\
   exists d, bufs st' !! b = Some d /\ is_set (state d) BM_PIN_COUNT_WAITER = true /\ wait_backend d = p) \/
  at_pc x' = AbortIO.
Proof.
  intros Hr Hx Epc Hm Hx'. pose proof (pool_inv_move _ _ _ (inv_reachable _ Hr) Hm) as I'. pose proof (inv_reachable _ Hr) as I.
  cbn in Hm. rewrite Hx in Hm. unfold step_proc in Hm. rewrite Epc in Hm.
  unfold LockBufferForCleanup_check, with_hdr, goto, raise in Hm.
  pose proof (wf_pc _ (r_wf _ _ (i_relies _ I _ _ Hx))) as Wp. unfold pc_ok in Wp. rewrite Epc in Wp.
  pose proof (wf_clocks _ (r_wf _ _ (i_relies _ I _ _ Hx)) b ltac:(by rewrite Wp)) as Hp.
  destruct (bufs st !! b) as [d|] eqn:Hd; [|done]. destruct (is_set _ BM_LOCKED) eqn:Hl; [done|].
  destruct (_ =? 0) eqn:E0; [done|]. destruct (_ =? 1) eqn:E1.
  - left. injection Hm as <-. pose proof Hx' as Hx1. the_proc Hx Hx'. cbn. do 3 (split; [done|]).
    intros q y Hq Hy. pose proof (i_relies _ I' _ _ Hy) as Ry.
    assert (Py : pins y b = 0%nat).
    { destruct (pins y b) as [|n] eqn:Ey; [done|exfalso]. apply Z.eqb_eq in E1.
      assert (2 <= v_refs (c_view (core_of d))); [|cbn in *; lia].
      eapply (pin_shared _ p q _ y b d I' Hx1 Hy); [done|done|lia|done]. }
    split; [done|]. split.
    + destruct (holds y (ContentLock b)) as [m|] eqn:Eh; [|done]. exfalso.
      pose proof (i_excl _ I' p q _ y (ContentLock b) LW_EXCLUSIVE (not_eq_sym Hq) Hx1 Hy) as Ex.
      rewrite Eh in Ex. cbn in Ex. rewrite Wp in Ex. specialize (Ex eq_refl). by destruct m.
    + unfold has_io. apply bool_decide_eq_false. destruct (InProgressBuf y) as [[b' i]|] eqn:Ei; [|done]. cbn. intros [= ->].
      destruct (r_io _ _ Ry b i Ei) as [Hy0 _]. lia.
  - destruct (is_set _ BM_PIN_COUNT_WAITER) eqn:Ew; injection Hm as <-; the_proc Hx Hx'; [by right; right|right; left].
    cbn. rewrite fn_lookup_insert. do 3 (split; [done|]). eexists.
    split; [apply list_lookup_insert_eq; by eapply lookup_lt_Some|]. split; [|done]. cbn.
    change (waits (UnlockBufHdr (wait_state (LockBufHdr (state d)))) = true). by rewrite waits_unlock, waits_wait.
Qed.

(** C38: A process that waits for a cleanup lock is woken up.  In every reachable
    state a process that sleeps in [LockBufferForCleanup] can go on, or another
    process still has the buffer pinned while the buffer names the sleeper as the
    one to be woken up, or another process is just about to do that: once the
    last of the others has let the buffer go, its signal has been sent. *)
Theorem LockBufferForCleanup_wakeup st p x b :
  reachable st -> procs st !! p = Some x -> at_pc x = CleanWait b ->
  (exists st', do_move (Run p) st = Done st') \/
  (exists q y k, q <> p /\ procs st !! q = Some y /\ at_pc y = SendSignal p k) \/
  (exists d q y, bufs st !! b = Some d /\ is_set (state d) BM_PIN_COUNT_WAITER = true /\ wait_backend d = p /\
     q <> p /\ procs st !! q = Some y /\ ((0 < pins y b)%nat \/ exists k, at_pc y = UnpinSignal b k)).
Proof.
  intros Hr Hx E. destruct (awaited_reachable st p x b Hr Hx E) as [Hl|(q & y & Hq & Hy & [[k Hk]|(d & Hd & Hw & Hb & W)])].
  - left. eexists. cbn. rewrite Hx. unfold step_proc. rewrite E. unfold ProcWaitForSignal. by rewrite Hl.
  - right. left. by exists q, y, k.
  - right. right. exists d, q, y. by repeat split.
Qed.

End Waiting.
End BufWait.
