(* ===== verification/BufClaims.v ===== *)
(** * Shared buffers: what callers may rely on

    The properties of the pool that follow from the invariant of [BufInv] in the
    states that [Bufmgr] reaches, and concrete runs of the pool. *)

From S2P Require Import Prelude.
From S2P Require Import Words.
From S2P Require Import Bufhdr.
From S2P Require Import Bufmgr.
From S2P Require Import BufInv.
From S2P Require Import BufSteps.
From S2P Require Import BufLocal.
From S2P Require Import BufTurn.
From S2P Require Import BufStable.
From S2P Require Import BufRuns.
From S2P Require Import BufMemory.
From S2P Require Import BufSweep.
From S2P Require Import BufWait.
From stdpp Require Import functions.

Import Words Bufhdr Bufmgr BufInv BufSteps BufLocal BufTurn BufStable BufRuns BufMemory BufSweep BufWait.

Open Scope Z_scope.

Module BufClaims.

Section Claims.
Context `{BufEnv}.
Implicit Types (st : system) (x y : proc) (b : nat) (t : BufferTag) (c : core) (v : hview).

Lemma run_app ms1 ms2 st st' : run ms1 st = Done st' -> run (ms1 ++ ms2) st = run ms2 st'.
Proof.
  revert st. induction ms1 as [|m ms1 IH]; intros st; cbn; [by intros [= ->]|]. destruct (do_move m st); [done..|]. apply IH.
Qed.

Lemma reachable_run ms st st' : run ms st = Done st' -> reachable st -> reachable st'.
Proof.
  revert st. induction ms as [|m ms IH]; intros st; cbn; [by intros [= ->]|].
  destruct (do_move m st) as [| |s] eqn:E; [done..|]. intros Hr Hst. eapply IH; [done|]. by eapply reach_move.
Qed.

(** ** No failure *)

(** C35: No assertion of the buffer manager fails, and no sanity check of the mapping
    table, in any reachable state, whatever is done next: the private and shared
    pin counts agree when a buffer is unpinned, I/O in progress belongs to the
    process that ends it, the free list holds only buffers that are in it, an
    entry that is deleted exists, a page that is read in was not valid, and
    nobody waits for two cleanup locks. *)
Theorem pool_no_failure mv st : reachable st -> do_move mv st <> Failed.
Proof.
  intros Hr. pose proof (inv_reachable _ Hr) as I. destruct mv as [p r|p|p|p|]; cbn; try done.
  - destruct (procs st !! p) as [x|] eqn:Hx; [|done]. destruct (at_pc x) eqn:Epc; try done.
    apply enter_safe; [|done]. by apply (r_wf _ _ (i_relies _ I _ _ Hx)).
  - destruct (procs st !! p) as [x|] eqn:Hx; [|done]. by apply pool_step_safe.
  - destruct (procs st !! p) as [x|]; [|done]. by destruct (may_fail _).
Qed.

(** ** The state between steps *)

(** The states of a buffer that the code allows. *)
Definition consistent st b (d : BufferDesc) : Prop :=
  let z := state d in
  BUF_STATE_GET_REFCOUNT z = countb (has_pin b) (procs st) /\
  0 <= BUF_STATE_GET_USAGECOUNT z <= BM_MAX_USAGE_COUNT /\
  Z.b2z (is_set z BM_IO_IN_PROGRESS) = countb (has_io b) (procs st) /\
  (is_set z BM_DIRTY = true -> is_set z BM_VALID = true) /\
  (is_set z BM_VALID = true -> is_set z BM_TAG_VALID = true) /\
  (is_set z BM_TAG_VALID = true -> table st !! tag d = Some b /\ is_set z BM_PERMANENT = permanent (tag d)).

(** C36: In every reachable state each buffer's header counts the processes that
    have it pinned and the process that does I/O on it, its usage count is at
    most 5, a dirty buffer is valid and a valid one has a tag, and the mapping
    table leads from the tag of a buffer back to it, so that no page is in the
    pool twice. *)
Theorem pool_consistent st b d :
  reachable st -> bufs st !! b = Some d ->
  consistent st b d /\
  forall b' d', bufs st !! b' = Some d' -> is_set (state d) BM_TAG_VALID = true -> is_set (state d') BM_TAG_VALID = true ->
    tag d' = tag d -> b' = b.
Proof.
  intros Hr Hd. pose proof (inv_reachable _ Hr) as I.
  pose proof (i_cores _ I _ _ (look_buf _ _ _ Hd)) as C. destruct (i_headers _ I _ _ Hd) as [[_ Hu] _].
  split.
  - split; [apply C|]. split; [by split; [apply usage_bound|]|]. split; [apply C|]. split; [apply C|]. split; [apply C|].
    intros Ht. split; [by apply (co_table _ _ _ C)|by apply (co_perm _ _ _ C)].
  - intros b' d' Hd' Ht Ht' E. pose proof (i_cores _ I _ _ (look_buf _ _ _ Hd')) as C'.
    pose proof (co_table _ _ _ C Ht) as T. pose proof (co_table _ _ _ C' Ht') as T'. cbn in T, T'. congruence.
Qed.

(** ** Logging comes first *)

(** C34: A page of a logged relation is on the disk only after the log is flushed up
    to its LSN, and a valid buffer whose page differs from the disk is dirty, or
    a process that has it pinned and locked is about to mark it. *)
Theorem pool_wal_rule st t :
  reachable st ->
  (permanent t = true -> pd_lsn (disk st t) <= flush_pos (wal st)) /\
  (current st t <> disk st t -> exists b d, table st !! t = Some b /\ bufs st !! b = Some d /\ tag d = t /\
     (is_set (state d) BM_DIRTY = true \/
      exists q y, procs st !! q = Some y /\ dirtying y b = true /\ clocks y b <> None /\ (0 < pins y b)%nat)).
Proof.
  intros Hr. pose proof (inv_reachable _ Hr) as I. split; [apply I|]. unfold current.
  destruct (table st !! t) as [b|] eqn:Ht; [|done]. destruct (bufs st !! b) as [d|] eqn:Hd; [|done].
  destruct (is_set (state d) BM_VALID) eqn:Hv; [|done]. case_bool_decide as Et; [|done]. intros Hn.
  exists b, d. repeat split; [done..|]. pose proof (i_cores _ I _ _ (look_buf _ _ _ Hd)) as C.
  destruct (co_page _ _ _ C Hv) as [E|[E|(q & y & Hy & E)]]; [by rewrite <- Et in Hn|by left|right].
  exists q, y. split; [done|]. split; [done|]. pose proof (r_wf _ _ (i_relies _ I _ _ Hy)) as W.
  assert (Hc : clocks y b <> None).
  { pose proof (wf_pc _ W) as Wp. unfold dirtying in E. unfold pc_ok in Wp.
    destruct (at_pc y); try done; apply Nat.eqb_eq in E as ->; [by rewrite Wp|done..]. }
  split; [done|]. by apply (wf_clocks _ W).
Qed.

(** ** [ReadBuffer] *)

(** The page that a process in [ReadBuffer] is to return. *)
Definition reading (pc0 : pc) : option BufferTag :=
  match pc0 with
  | PinFound t _ _ | DeleteOld t _ _ | ReadLock t _ | ReadStart t _ | ReadWait t _ | ReadWaitLock t _ | ReadPage t _
  | ReadEnd t _ | Unpin _ (ToFound t _ _) | UnpinSignal _ (ToFound t _ _) | SendSignal _ (ToFound t _ _) => Some t
  | _ => wanted pc0
  end.

(** What it gets. *)
Definition handed st x t : Prop := exists b, returned x = Some b /\ (0 < pins x b)%nat /\ holds_in st (Tagged b t).

Definition serving st x t : Prop :=
  reading (at_pc x) = Some t \/ aborting (at_pc x) = true \/
  (at_pc x = Idle /\ (handed st x t \/ forall b, pins x b = 0%nat)).

(** A move that is not a call by [p]. *)
Definition no_call (p : nat) (mv : move) : bool := match mv with Call q _ => negb (q =? p)%nat | _ => true end.

(** A step of the process itself. *)
Lemma serving_act p x x' st st' t :
  inv st -> procs st !! p = Some x -> acts p x st st' -> procs st' !! p = Some x' ->
  (at_pc x = Idle -> aborting (at_pc x') = true) -> serving st x t -> serving st' x' t.
Proof.
  intros I Hx Hs Hx' Hidle [Hr|[Ha|[E _]]]; [| |right; left; auto].
  - pose proof (r_facts _ _ (i_relies _ I _ _ Hx)) as F. revert Hr F. clear Hidle.
    pose proof (r_wf _ _ (i_relies _ I _ _ Hx)) as W. unfold serving, handed.
    act_cases Epc Hs; the_proc Hx Hx'; cbn; intros Hr F; rewrite ?Epc in *; try done; try (by left); try (by right; left).
    all: cbn in Hr.
    all: try match goal with |- context [flushed ?k _] => destruct k; cbn in Hr |- *; by left end.
    all: try match goal with |- context [unpinned ?k] => destruct k; cbn in Hr |- *; try done; by left end.
    all: injection Hr as ->; right; right; split; [done|left]; exists b; rewrite ?fn_lookup_insert; split; [done|].
    all: assert (T : holds_in st (Tagged b t)) by (rewrite List.Forall_forall in F; apply F; cbn; auto).
    all: split; [first [lia|rewrite (proj1 (wf_focus _ W b ltac:(by rewrite Epc))); lia]|].
    all: try exact T.
    all: match goal with Hd : bufs _ !! _ = Some ?d |- _ => apply (on_buf _ _ _ _ Hd) in T; destruct (i_headers _ I _ _ Hd) as [Hok Hul] end.
    all: eapply on_good; [eassumption|good_step|done|done].
  - pose proof (r_range _ _ (i_relies _ I _ _ Hx)) as Rr. revert Ha. clear Hidle. unfold serving.
    act_cases Epc Hs; the_proc Hx Hx'; cbn; intros Ha; rewrite ?Epc in *; try done; try (by right; left).
    all: try match goal with |- context [unpinned ?k] => destruct k; cbn in Ha |- *; try done; by right; left end.
    right. right. split; [done|right]. intros b. destruct (pins x b) as [|n] eqn:Eb; [done|exfalso].
    assert (Hp : (0 < pins x b)%nat) by lia. destruct (r_pins _ _ (i_relies _ I _ _ Hx) b Hp) as [Hb%look_lt _].
    apply list_find_None in Eq. rewrite List.Forall_forall in Eq. apply (Eq b); [apply in_seq; lia|done].
Qed.

(** A step of another one. *)
Lemma serving_other p q x x' y st st' t :
  inv st -> procs st !! p = Some x -> procs st !! q = Some y -> p <> q -> acts p x st st' -> procs st' !! p = Some x' ->
  serving st y t -> serving st' y t.
Proof.
  intros I Hx Hy Hpq Hs Hx' [Hr|[Ha|[E [(b & Hb & Hp & T)|Z0]]]]; [by left|by right; left| |by right; right; auto].
  right. right. split; [done|]. left. exists b. split; [done|]. split; [done|].
  apply (tagged_stable st st' p q x x' y I Hx Hy Hpq Hs Hx'); [left; by apply has_pin_pos|done].
Qed.

Lemma serving_move q y mv st st' t :
  inv st -> procs st !! q = Some y -> no_call q mv = true -> do_move mv st = Done st' -> serving st y t ->
  exists y', procs st' !! q = Some y' /\ serving st' y' t.
Proof.
  intros I Hy Hn Hm V. destruct (move_cases _ _ _ Hm) as [(p & x & Hp & Hx & Hs)|(_ & E1 & _ & _ & E4 & _)].
  - destruct (act_procs _ _ _ _ Hs) as [x' Ep].
    assert (Hx' : procs st' !! p = Some x') by (rewrite Ep; apply list_lookup_insert_eq; by eapply lookup_lt_Some).
    destruct (decide (p = q)) as [->|Hpq].
    + assert (y = x) as -> by congruence. exists x'. split; [done|]. eapply serving_act; [done|exact Hx|done|done| |done].
      intros Epc. destruct mv as [p r|p|p|p|]; cbn in Hp, Hn; try done; injection Hp as ->.
      * by rewrite Nat.eqb_refl in Hn.
      * cbn in Hm. rewrite Hx in Hm. unfold step_proc in Hm. by rewrite Epc in Hm.
      * cbn in Hm. rewrite Hx, Epc in Hm. injection Hm as <-. the_proc Hx Hx'. done.
    + exists y. split; [by rewrite Ep, list_lookup_insert_ne|]. by eapply serving_other.
  - exists y. rewrite E4. split; [done|]. destruct V as [V|[V|[V [(b & Hb & Hp & c & Hc & T)|Z0]]]];
      [by left|by right; left| |by right; right; auto].
    right. right. split; [done|]. left. exists b. split; [done|]. split; [done|]. exists c. unfold look. by rewrite E1.
Qed.

Lemma serving_run q ms st st' y t :
  reachable st -> procs st !! q = Some y -> forallb (no_call q) ms = true -> run ms st = Done st' -> serving st y t ->
  reachable st' /\ exists y', procs st' !! q = Some y' /\ serving st' y' t.
Proof.
  revert st y. induction ms as [|m ms IH]; intros st y Hr Hy Hn Hm V; cbn in Hn, Hm; [injection Hm as <-; by eauto|].
  apply andb_true_iff in Hn as [Hn1 Hn2]. destruct (do_move m st) as [| |s] eqn:E; [done..|].
  destruct (serving_move q y m st s t (inv_reachable _ Hr) Hy Hn1 E V) as (y' & Hy' & V').
  eapply IH; [by eapply reach_move|exact Hy'|done|done|done].
Qed.

(** C33: What [ReadBuffer] returns is the page that was asked for.  From a call of
    [ReadBuffer], whatever the other processes do and whatever errors come in
    between, the process is again outside of the buffer manager only with a
    buffer that it has pinned, that is valid, has the tag it asked for, and holds
    the current page of that tag; or after an error, with nothing pinned and no
    content lock. *)
Theorem ReadBuffer_returns p t ms st st1 st' x :
  reachable st -> do_move (Call p (ReadBuffer t)) st = Done st1 -> run ms st1 = Done st' -> forallb (no_call p) ms = true ->
  procs st' !! p = Some x -> at_pc x = Idle ->
  (exists b d, returned x = Some b /\ (0 < pins x b)%nat /\ bufs st' !! b = Some d /\ is_set (state d) BM_VALID = true /\ tag d = t /\ content d = current st' t) \/
  (forall b, pins x b = 0%nat /\ clocks x b = None).
Proof.
  intros Hr Hc Hm Hn Hx Epc.
  assert (Hy : exists y, procs st1 !! p = Some y /\ serving st1 y t).
  { cbn in Hc. destruct (procs st !! p) as [y|] eqn:Hy; [|done]. destruct (at_pc y) eqn:E; try done. unfold enter, when in Hc.
    destruct (negb _); [|done]. injection Hc as <-. eexists. split; [apply list_lookup_insert_eq; by eapply lookup_lt_Some|]. by left. }
  destruct Hy as (y & Hy & V). assert (Hr1 : reachable st1) by (by eapply reach_move).
  destruct (serving_run p ms st1 st' y t Hr1 Hy Hn Hm V) as (Hr' & x1 & Hx1 & V'). assert (x1 = x) as -> by congruence.
  pose proof (inv_reachable _ Hr') as I. pose proof (i_relies _ I _ _ Hx) as R.
  destruct V' as [V'|[V'|(_ & [(b & Hb & Hp & c & Hcb & T1 & T2)|Z0])]]; [by rewrite Epc in V'..| |].
  - left. destruct (r_pins _ _ R b Hp) as [_ Hv]. destruct Hv as (c1 & Hc1 & Hv); [unfold busy; by rewrite Epc|].
    assert (c1 = c) as -> by congruence. pose proof (current_in _ _ _ I Hcb Hv) as Ec. destruct (look_desc _ _ _ Hcb) as (d & Hd & ->).
    exists b, d. rewrite <- T2. by rewrite Ec.
  - right. intros b. split; [done|]. by apply (unpinned_unlocked _ _ (r_wf _ _ R)).
Qed.

(** ** The size of the mapping table *)

(** An entry is counted at its buffer, or at the partition that is locked by the
    process that is about to change it. *)
Definition entry_slot st (e : BufferTag * nat) : nat + Z :=
  match bufs st !! e.2 with
  | Some d => if is_set (state d) BM_TAG_VALID && bool_decide (tag d = e.1) then inl e.2 else inr (BufMappingPartition e.1)
  | None => inr (BufMappingPartition e.1)
  end.

Lemma pending_one y t1 t2 b1 b2 : pending y t1 b1 -> pending y t2 b2 -> t1 = t2.
Proof. unfold pending. destruct (at_pc y); try done; try (by intros [-> _] [-> _]). all: case_match; try done; by intros [-> _] [-> _]. Qed.

Lemma entry_unsettled st t b :
  inv st -> table st !! t = Some b -> entry_slot st (t, b) = inr (BufMappingPartition t) ->
  exists q y, procs st !! q = Some y /\ pending y t b.
Proof.
  intros I Ht E. destruct (i_table _ I _ _ Ht) as [(c & Hc & T1 & T2)|W]; [|done]. exfalso.
  destruct (look_desc _ _ _ Hc) as (d & Hd & ->). unfold entry_slot in E. cbn [fst snd] in E. rewrite Hd in E.
  cbn in T1, T2. by rewrite T1, T2, bool_decide_true in E.
Qed.

Lemma entry_slot_inj st e1 e2 :
  inv st -> table st !! e1.1 = Some e1.2 -> table st !! e2.1 = Some e2.2 -> entry_slot st e1 = entry_slot st e2 -> e1 = e2.
Proof.
  destruct e1 as [t1 b1], e2 as [t2 b2]. cbn [fst snd]. intros I H1 H2 E. assert (t1 = t2) as ->; [|congruence].
  assert (Shape : forall t b, (exists d, bufs st !! b = Some d /\ tag d = t /\ entry_slot st (t, b) = inl b) \/
    entry_slot st (t, b) = inr (BufMappingPartition t)).
  { intros t b. unfold entry_slot. cbn [fst snd]. destruct (bufs st !! b) as [d|]; [|by right]. destruct (_ && _) eqn:Eb; [left|by right].
    apply andb_true_iff in Eb as [_ Eb%bool_decide_eq_true]. by exists d. }
  destruct (Shape t1 b1) as [(d1 & Hd1 & T1 & S1)|S1], (Shape t2 b2) as [(d2 & Hd2 & T2 & S2)|S2]; rewrite S1, S2 in E; try done.
  - injection E as ->. congruence.
  - injection E as E. destruct (entry_unsettled _ _ _ I H1 S1) as (q1 & y1 & Hy1 & P1).
    destruct (entry_unsettled _ _ _ I H2 S2) as (q2 & y2 & Hy2 & P2).
    destruct (decide (q1 = q2)) as [->|Hq].
    + assert (y2 = y1) as -> by congruence. by eapply pending_one.
    + pose proof (i_excl _ I _ _ _ _ _ _ Hq Hy1 Hy2 (pending_holds _ _ _ P1)) as Ex.
      apply pending_holds in P2. unfold part in Ex, P2. by rewrite E, P2 in Ex.
Qed.

(** C40: The mapping table never outgrows the space that [StrategyInitialize] asks
    [InitBufTable] for: it has at most one entry for each buffer and one for each
    partition, so that [BufTableInsert] does not run out of shared memory.
    Entries whose buffer has another tag, or none yet, belong to processes that
    hold the lock of their partition exclusively. *)
Theorem BufTable_capacity st :
  reachable st -> Z.of_nat (size (table st)) <= NBuffers st + NUM_BUFFER_PARTITIONS.
Proof.
  intros Hr. pose proof (inv_reachable _ Hr) as I.
  set (l := entry_slot st <$> map_to_list (table st)).
  set (slots := (inl <$> seq 0 (length (bufs st))) ++ (inr <$> seqZ 0 NUM_BUFFER_PARTITIONS) : list (nat + Z)).
  assert (Hn : NoDup l).
  { apply NoDup_fmap_2_strong; [|apply NoDup_map_to_list].
    intros [t1 b1] [t2 b2] H1%elem_of_map_to_list H2%elem_of_map_to_list. by apply entry_slot_inj. }
  assert (Hs : l ⊆ slots).
  { intros s (e & -> & He)%list_elem_of_fmap. unfold entry_slot.
    assert (Hin : inr (BufMappingPartition e.1) ∈ slots).
    { apply elem_of_app. right. apply list_elem_of_fmap_2, elem_of_seqZ. unfold BufMappingPartition.
      pose proof (Z.mod_pos_bound (BufTableHashCode e.1) NUM_BUFFER_PARTITIONS eq_refl). lia. }
    destruct (bufs st !! e.2) as [d|] eqn:Hd; [|done]. destruct (_ && _); [|done].
    apply elem_of_app. left. apply list_elem_of_fmap_2, elem_of_seq. apply lookup_lt_Some in Hd. lia. }
  pose proof (submseteq_length _ _ (NoDup_submseteq _ _ Hn Hs)) as Hl.
  unfold l, slots in Hl. rewrite length_app, !length_fmap, length_seq, length_seqZ in Hl.
  unfold NBuffers. rewrite <- length_map_to_list. unfold NUM_BUFFER_PARTITIONS in *. lia.
Qed.


End Claims.

(** ** Concrete runs *)

Module Example.

Definition rel : RelFileNode := MkRelFileNode 1663 5 16384.
Definition blk (n : Z) : BufferTag := MkTag rel 0 n.

#[local] Instance env : BufEnv := {|
  BufTableHashCode := blockNum;
  permanent _ := true;
  XLogHintBitIsNeeded := true |}.

(** Pages with LSN 5, a log flushed up to 10, three processes. *)
Definition start (n : nat) : system := init n 3 (fun t => MkPage 5 (100 + blockNum t)) (MkXLog 10 10 7).

Lemma reachable_start n : (0 < n)%nat -> Z.of_nat n < 2 ^ 31 -> reachable (start n).
Proof. intros H1 H2. apply reach_init. split; [done|]. split; [done|]. split; [by vm_compute|]. split; [done|]. by intros t _. Qed.

Definition state_of (st : system) (r : result) : system := match r with Done st' => st' | _ => st end.
Definition is_done (r : result) : bool := match r with Done _ => true | _ => false end.

Lemma done_state st r : is_done r = true -> r = Done (state_of st r).
Proof. by destruct r. Qed.

Lemma reachable_next mv st : reachable st -> reachable (state_of st (do_move mv st)).
Proof. intros Hr. destruct (do_move mv st) eqn:E; try done. by eapply reach_move. Qed.

Lemma reachable_runs ms st : reachable st -> reachable (state_of st (run ms st)).
Proof. intros Hr. destruct (run ms st) eqn:E; try done. by eapply reachable_run. Qed.

(** A process runs until it is outside of the buffer manager, or has to wait. *)
Fixpoint drive (n p : nat) (st : system) : system :=
  match n with
  | O => st
  | S n' => match do_move (Run p) st with Done st' => drive n' p st' | _ => st end
  end.

Lemma reachable_drive n p st : reachable st -> reachable (drive n p st).
Proof.
  revert st. induction n as [|n IH]; intros st Hr; cbn [drive]; [done|].
  destruct (do_move (Run p) st) eqn:E; try done. apply IH. by eapply reach_move.
Qed.

Definition call (p : nat) (r : routine) (st : system) : system := drive 100 p (state_of st (do_move (Call p r) st)).

Lemma reachable_call p r st : reachable st -> reachable (call p r st).
Proof. intros Hr. by apply reachable_drive, reachable_next. Qed.

Definition proc_of (p : nat) (st : system) : proc := default new_proc (procs st !! p).
Definition buf_of (b : nat) (st : system) : BufferDesc := default (new_buffer 1 0) (bufs st !! b).

(** Process 0 reads block 3 and locks it. *)
Definition s1 : system := call 0 (ReadBuffer (blk 3)) (start 2).
Definition s2 : system := call 0 (LockBuffer_ 0 LW_EXCLUSIVE) s1.
(** It changes the page, and the change is logged. *)
Definition m3 : move := Call 0 (ModifyPage 0 77).
Definition s3 : system := state_of s2 (do_move m3 s2).
Definition s4 : system := drive 100 0 s3.

Lemma reachable_s1 : reachable s1.
Proof. apply reachable_call, reachable_start; [lia|done]. Qed.
Lemma reachable_s2 : reachable s2.
Proof. apply reachable_call, reachable_s1. Qed.
Lemma reachable_s4 : reachable s4.
Proof. apply reachable_drive, reachable_next, reachable_s2. Qed.

Lemma pool_refines_witness :
  current s3 (blk 3) = remember s2 (event m3 s2) (blk 3) /\ current s3 (blk 3) = MkPage 5 77 /\ disk s3 (blk 3) = MkPage 5 103.
Proof.
  split; [apply (pool_refines m3 s2 s3 (blk 3) reachable_s2); apply done_state; by vm_compute|].
  split; by vm_compute.
Defined.

Lemma pool_no_failure_witness : do_move (Call 0 (UnlockBuffer 0)) s2 <> Failed.
Proof. apply (pool_no_failure (Call 0 (UnlockBuffer 0)) s2 reachable_s2). Defined.

Lemma pool_consistent_witness :
  consistent s4 0 (buf_of 0 s4) /\
  forall b' d', bufs s4 !! b' = Some d' -> is_set (state (buf_of 0 s4)) BM_TAG_VALID = true ->
    is_set (state d') BM_TAG_VALID = true -> tag d' = tag (buf_of 0 s4) -> b' = 0%nat.
Proof. apply (pool_consistent s4 0 (buf_of 0 s4) reachable_s4). by vm_compute. Defined.

Lemma pool_wal_rule_witness :
  (permanent (blk 3) = true -> pd_lsn (disk s4 (blk 3)) <= flush_pos (wal s4)) /\
  (current s4 (blk 3) <> disk s4 (blk 3) ->
   exists b d, table s4 !! blk 3 = Some b /\ bufs s4 !! b = Some d /\ tag d = blk 3 /\
     (is_set (state d) BM_DIRTY = true \/
      exists q y, procs s4 !! q = Some y /\ dirtying y b = true /\ clocks y b <> None /\ (0 < pins y b)%nat)).
Proof. apply (pool_wal_rule s4 (blk 3) reachable_s4). Defined.

Lemma BufTable_capacity_witness : Z.of_nat (size (table s4)) <= NBuffers s4 + NUM_BUFFER_PARTITIONS.
Proof. apply (BufTable_capacity s4 reachable_s4). Defined.

(** Process 1 reads block 4 while process 0 has the other buffer locked. *)
Definition s5 : system := state_of s4 (do_move (Call 1 (ReadBuffer (blk 4))) s4).
Definition m6 : list move := replicate 7 (Run 1) ++ [Call 0 (UnlockBuffer 0); Checkpoint] ++ replicate 7 (Run 1).
Definition s6 : system := state_of s5 (run m6 s5).

Lemma ReadBuffer_returns_witness :
  (exists b d, returned (proc_of 1 s6) = Some b /\ (0 < pins (proc_of 1 s6) b)%nat /\ bufs s6 !! b = Some d /\
     is_set (state d) BM_VALID = true /\ tag d = blk 4 /\ content d = current s6 (blk 4)) \/
  (forall b, pins (proc_of 1 s6) b = 0%nat /\ clocks (proc_of 1 s6) b = None).
Proof.
  apply (ReadBuffer_returns 1 (blk 4) m6 s4 s5 s6 (proc_of 1 s6) reachable_s4).
  - apply done_state. by vm_compute.
  - apply done_state. by vm_compute.
  - by vm_compute.
  - by vm_compute.
  - by vm_compute.
Defined.

(** Process 1 reads block 3 too; process 0 asks for a cleanup lock. *)
Definition c1 : system := call 1 (ReadBuffer (blk 3)) s1.
Definition c2 : system := state_of c1 (run [Call 0 (LockBufferForCleanup 0); Run 0] c1).
Definition c3 : system := state_of c2 (do_move (Run 0) c2).

Lemma reachable_c2 : reachable c2.
Proof. apply reachable_runs, reachable_call, reachable_s1. Qed.

Lemma LockBufferForCleanup_sole_witness :
  (at_pc (proc_of 0 c3) = Idle /\ clocks (proc_of 0 c3) 0%nat = Some LW_EXCLUSIVE /\ (0 < pins (proc_of 0 c3) 0)%nat /\
   forall q y, q <> 0%nat -> procs c3 !! q = Some y ->
     pins y 0%nat = 0%nat /\ holds y (ContentLock 0) = None /\ has_io 0 y = false) \/
  (at_pc (proc_of 0 c3) = CleanWait 0 /\ PinCountWaitBuf (proc_of 0 c3) = Some 0%nat /\ clocks (proc_of 0 c3) 0%nat = None /\
   exists d, bufs c3 !! 0%nat = Some d /\ is_set (state d) BM_PIN_COUNT_WAITER = true /\ wait_backend d = 0%nat) \/
  at_pc (proc_of 0 c3) = AbortIO.
Proof.
  apply (LockBufferForCleanup_sole 0 0 (proc_of 0 c2) (proc_of 0 c3) c2 c3 reachable_c2).
  - by vm_compute.
  - by vm_compute.
  - apply done_state. by vm_compute.
  - by vm_compute.
Defined.

Lemma LockBufferForCleanup_wakeup_witness :
  (exists st', do_move (Run 0) c3 = Done st') \/
  (exists q y k, q <> 0%nat /\ procs c3 !! q = Some y /\ at_pc y = SendSignal 0 k) \/
  (exists d q y, bufs c3 !! 0%nat = Some d /\ is_set (state d) BM_PIN_COUNT_WAITER = true /\ wait_backend d = 0%nat /\
     q <> 0%nat /\ procs c3 !! q = Some y /\ ((0 < pins y 0)%nat \/ exists k, at_pc y = UnpinSignal 0 k)).
Proof.
  apply (LockBufferForCleanup_wakeup c3 0 (proc_of 0 c3) 0).
  - apply reachable_next, reachable_c2.
  - by vm_compute.
  - by vm_compute.
Defined.

(** Process 1 reads block 4 and releases it, and process 2 looks for a buffer. *)
Definition w1 : system := call 1 (ReleaseBuffer 1) (call 1 (ReadBuffer (blk 4)) s1).
Definition w2 : system := state_of w1 (run [Call 2 (ReadBuffer (blk 5)); Run 2; Run 2; Run 2] w1).

Lemma StrategyGetBuffer_terminates_witness :
  exists k st', (k <= 18 * length (bufs w2))%nat /\ steps k 2 w2 = Done st' /\
    if forallb (fun d => negb (BUF_STATE_GET_REFCOUNT (state d) =? 0)) (bufs w2) then gave_up 2 st' else has_victim 2 (blk 5) st'.
Proof.
  apply (StrategyGetBuffer_terminates 2 (proc_of 2 w2) w2 (blk 5)).
  - apply reachable_runs, reachable_call, reachable_call, reachable_s1.
  - by vm_compute.
  - by vm_compute.
  - by vm_compute.
Defined.

(** Three processes on a pool of 16 buffers, all of them pinned by process 0:
    process 1 wraps the hand around, and stops before it counts the round; process
    2 goes round once more.  When process 1 then counts one round, the position
    that [StrategySyncStart] gives is 16 buffers behind the one it gave before. *)
Definition filled : system := fold_left (fun st i => call 0 (ReadBuffer (blk (Z.of_nat i))) st) (seq 0 16) (start 16).
Definition h1 : system := call 1 (ReadBuffer (blk 50)) filled.
Definition h2 : system := state_of h1 (run (Call 1 (ReadBuffer (blk 50)) :: replicate 4 (Run 1)) h1).
Definition h3 : system := state_of h2 (run (Call 2 (ReadBuffer (blk 60)) :: replicate 34 (Run 2)) h2).
Definition h4 : system := state_of h3 (run [Run 1; Run 1] h3).

Example sync_start_goes_back :
  at_pc (proc_of 1 h2) = SweepWrap (blk 50) 16 17 /\ scanned h2 = 17 /\ scanned h3 = 33 /\ scanned h4 = 17.
Proof. repeat split; vm_compute; reflexivity. Qed.

End Example.
End BufClaims.
