(* ===== verification/Lock.v ===== *)
(** * The shared lock table

    Models the part of [src/backend/storage/lmgr/lock.c] and
    [src/backend/storage/lmgr/proc.c] that works on the shared lock table:
    lock modes and their conflicts, LOCK and PROCLOCK objects, granting,
    releasing, the wait queue and the wakeup of waiters.

    The two shared hash tables are finite maps; a pointer to a LOCK is its
    LOCKTAG, a pointer to a PROCLOCK its PROCLOCKTAG, a pointer to a PGPROC its
    number.  Shared-memory queues are lists.  A routine returns [None] where
    the C code fails an Assert, calls [elog(PANIC)] or follows a pointer to an
    object that is no longer in its table; that no run gets there is proved in
    [LockRuns].  Every routine here runs with the partition lock held, so it
    is one step of the shared state. *)

From S2P Require Import Prelude.
From stdpp Require Export functions.

Open Scope Z_scope.

Module Lock.

(** ** Lock modes *)

Definition NoLock : Z := 0.
Definition AccessShareLock : Z := 1.
Definition RowShareLock : Z := 2.
Definition RowExclusiveLock : Z := 3.
Definition ShareUpdateExclusiveLock : Z := 4.
Definition ShareLock : Z := 5.
Definition ShareRowExclusiveLock : Z := 6.
Definition ExclusiveLock : Z := 7.
Definition AccessExclusiveLock : Z := 8.

Definition MAX_LOCKMODES : nat := 10.

Definition LOCKBIT_ON (lockmode : Z) : Z := Z.shiftl 1 lockmode.
Definition LOCKBIT_OFF (lockmode : Z) : Z := Z.lnot (Z.shiftl 1 lockmode).

Definition masks (ms : list Z) : Z := foldr (fun m => Z.lor (LOCKBIT_ON m)) 0 ms.

Definition LockConflicts : list Z :=
  [ 0;
    (* AccessShareLock *)
    LOCKBIT_ON AccessExclusiveLock;
    (* RowShareLock *)
    masks [ExclusiveLock; AccessExclusiveLock];
    (* RowExclusiveLock *)
    masks [ShareLock; ShareRowExclusiveLock; ExclusiveLock; AccessExclusiveLock];
    (* ShareUpdateExclusiveLock *)
    masks [ShareUpdateExclusiveLock; ShareLock; ShareRowExclusiveLock; ExclusiveLock;
           AccessExclusiveLock];
    (* ShareLock *)
    masks [RowExclusiveLock; ShareUpdateExclusiveLock; ShareRowExclusiveLock; ExclusiveLock;
           AccessExclusiveLock];
    (* ShareRowExclusiveLock *)
    masks [RowExclusiveLock; ShareUpdateExclusiveLock; ShareLock; ShareRowExclusiveLock;
           ExclusiveLock; AccessExclusiveLock];
    (* ExclusiveLock *)
    masks [RowShareLock; RowExclusiveLock; ShareUpdateExclusiveLock; ShareLock;
           ShareRowExclusiveLock; ExclusiveLock; AccessExclusiveLock];
    (* AccessExclusiveLock *)
    masks [AccessShareLock; RowShareLock; RowExclusiveLock; ShareUpdateExclusiveLock; ShareLock;
           ShareRowExclusiveLock; ExclusiveLock; AccessExclusiveLock] ].

(** Both lock methods ([default_lockmethod] and [user_lockmethod]) have this
    table and this highest mode. *)
Definition numLockModes : Z := AccessExclusiveLock.
Definition conflictTab (lockmode : Z) : Z := nth (Z.to_nat lockmode) LockConflicts 0.

(** [for (i = 1; i <= numLockModes; i++)] *)
Definition lockmodes : list Z := [1; 2; 3; 4; 5; 6; 7; 8].

Definition DoLockModesConflict (mode1 mode2 : Z) : bool :=
  negb (Z.land (conflictTab mode1) (LOCKBIT_ON mode2) =? 0).

Definition holds (mask lockmode : Z) : bool := negb (Z.land mask (LOCKBIT_ON lockmode) =? 0).

(** ** Objects *)

Definition DEFAULT_LOCKMETHOD : Z := 1.
Definition USER_LOCKMETHOD : Z := 2.

Record LOCKTAG := MkTag {
  locktag_field1 : Z; locktag_field2 : Z; locktag_field3 : Z; locktag_field4 : Z;
  locktag_type : Z; locktag_lockmethodid : Z }.

#[export] Instance LOCKTAG_eq : EqDecision LOCKTAG.
Proof. solve_decision. Defined.

#[export] Instance LOCKTAG_countable : Countable LOCKTAG.
Proof.
  refine (inj_countable'
    (fun t => (locktag_field1 t, locktag_field2 t, locktag_field3 t, locktag_field4 t,
               locktag_type t, locktag_lockmethodid t))
    (fun '(a, b, c, d, e, f) => MkTag a b c d e f) _).
  by intros [].
Defined.

(** [get_hash_value] of a tag: any function of the tag will do. *)
Class LockHash := LockTagHashCode : LOCKTAG -> Z.

Definition NUM_LOCK_PARTITIONS : Z := 16.
Definition LockHashPartition (hashcode : Z) : Z := hashcode mod NUM_LOCK_PARTITIONS.

Notation procno := nat (only parsing).
Notation PROCLOCKTAG := (LOCKTAG * nat)%type (only parsing).

Record LOCK := MkLOCK {
  grantMask : Z;
  waitMask : Z;
  procLocks : list procno;         (* PROCLOCKs of this lock, by their owner *)
  waitProcs : list procno;         (* waiting processes, first to last *)
  requested : list Z;
  nRequested : Z;
  granted : list Z;
  nGranted : Z }.

Record PROCLOCK := MkPROCLOCK {
  groupLeader : procno;
  holdMask : Z;
  releaseMask : Z }.

Inductive status := STATUS_OK | STATUS_ERROR | STATUS_FOUND | STATUS_WAITING.

#[export] Instance status_eq : EqDecision status.
Proof. solve_decision. Defined.

(** The fields of PGPROC (and of its PGXACT) that locking works on; [links] is
    [links.next != NULL]: the process is linked into a wait queue. *)
Record PGPROC := MkPGPROC {
  links : bool;
  waitStatus : status;
  waitLock : option LOCKTAG;
  waitProcLock : option PROCLOCKTAG;
  waitLockMode : Z;
  heldLocks : Z;
  pid : Z;
  databaseId : Z;
  vacuumFlags : Z;
  lockGroupLeader : option procno;
  lockGroupMembers : list procno;
  myProcLocks : Z -> list LOCKTAG; (* one list for each partition *)
  fpLockBits : Z;
  fpRelId : list Z }.

Record shared := MkShared {
  locks : gmap LOCKTAG LOCK;               (* LockMethodLockHash *)
  proclocks : gmap PROCLOCKTAG PROCLOCK;   (* LockMethodProcLockHash *)
  procs : procno -> PGPROC }.              (* ProcGlobal->allProcs *)

Notation eta_LOCK s := (MkLOCK (grantMask s) (waitMask s) (procLocks s) (waitProcs s)
  (requested s) (nRequested s) (granted s) (nGranted s)).
Notation eta_PROCLOCK s := (MkPROCLOCK (groupLeader s) (holdMask s) (releaseMask s)).
Notation eta_PGPROC s := (MkPGPROC (links s) (waitStatus s) (waitLock s) (waitProcLock s)
  (waitLockMode s) (heldLocks s) (pid s) (databaseId s) (vacuumFlags s) (lockGroupLeader s)
  (lockGroupMembers s) (myProcLocks s) (fpLockBits s) (fpRelId s)).

Definition set_waitMask v s := ltac:(setter (eta_LOCK s) (waitMask s) v).
Definition set_procLocks v s := ltac:(setter (eta_LOCK s) (procLocks s) v).
Definition set_waitProcs v s := ltac:(setter (eta_LOCK s) (waitProcs s) v).
Definition set_holdMask v s := ltac:(setter (eta_PROCLOCK s) (holdMask s) v).
Definition set_releaseMask v s := ltac:(setter (eta_PROCLOCK s) (releaseMask s) v).
Definition set_heldLocks v s := ltac:(setter (eta_PGPROC s) (heldLocks s) v).
Definition set_lockGroupLeader v s := ltac:(setter (eta_PGPROC s) (lockGroupLeader s) v).
Definition set_lockGroupMembers v s := ltac:(setter (eta_PGPROC s) (lockGroupMembers s) v).
Definition set_myProcLocks v s := ltac:(setter (eta_PGPROC s) (myProcLocks s) v).
Definition set_fpLockBits v s := ltac:(setter (eta_PGPROC s) (fpLockBits s) v).
Definition set_fpRelId v s := ltac:(setter (eta_PGPROC s) (fpRelId s) v).

(** [links], [waitStatus], [waitLock], [waitProcLock] and [waitLockMode], the
    fields that say what a process waits for. *)
Definition set_wait (l : bool) (st : status) (w : option LOCKTAG) (wp : option PROCLOCKTAG)
    (m : Z) (s : PGPROC) : PGPROC :=
  MkPGPROC l st w wp m (heldLocks s) (pid s) (databaseId s) (vacuumFlags s) (lockGroupLeader s)
    (lockGroupMembers s) (myProcLocks s) (fpLockBits s) (fpRelId s).

Definition put_lock (tag : LOCKTAG) (l : LOCK) (s : shared) : shared :=
  MkShared (<[tag := l]> (locks s)) (proclocks s) (procs s).
Definition del_lock (tag : LOCKTAG) (s : shared) : shared :=
  MkShared (delete tag (locks s)) (proclocks s) (procs s).
Definition put_proclock (k : PROCLOCKTAG) (pl : PROCLOCK) (s : shared) : shared :=
  MkShared (locks s) (<[k := pl]> (proclocks s)) (procs s).
Definition put_proc (p : procno) (x : PGPROC) (s : shared) : shared :=
  MkShared (locks s) (proclocks s) (<[p := x]> (procs s)).

(** [proc->lockGroupLeader == NULL ? proc : proc->lockGroupLeader] *)
Definition leader_of (s : shared) (p : procno) : procno := default p (lockGroupLeader (procs s p)).

(** Element [lockmode] of [requested] or [granted], and [+= d] on it. *)
Definition count (a : list Z) (lockmode : Z) : Z := nth (Z.to_nat lockmode) a 0.
Definition bump (lockmode d : Z) (a : list Z) : list Z :=
  alter (fun x => x + d) (Z.to_nat lockmode) a.

(** [SHMQueueDelete] of one element, wherever it is. *)
Definition unlink {A} `{EqDecision A} (x : A) (l : list A) : list A :=
  filter (fun y => y <> x) l.

Notation "'assert' b ;; k" := (if b%Z then k else None)
  (at level 100, b at level 99, k at level 200, right associativity).

(** ** Conflicts *)

(** [lock->granted[i]] less one when the requester holds mode [i] itself, for
    the modes that conflict with the request.  Elements 0 and 9 of the array
    are never read. *)
Definition conflictsRemaining_init (conflictMask myLocks : Z) (g : list Z) : list Z :=
  0 :: map (fun i => if Z.land conflictMask (LOCKBIT_ON i) =? 0 then 0
                     else if holds myLocks i then count g i - 1 else count g i) lockmodes ++ [0].

Definition total (a : list Z) : Z := foldr (fun i => Z.add (count a i)) 0 lockmodes.

(** Taking the locks of one other member of the group out of the counts. *)
Fixpoint subtract_held (intersectMask : Z) (ms : list Z) (remaining : list Z) : option (list Z) :=
  match ms with
  | [] => Some remaining
  | i :: ms' =>
      if holds intersectMask i then
        assert 0 <? count remaining i;;   (* PANIC: proclocks held do not match lock *)
        subtract_held intersectMask ms' (bump i (-1) remaining)
      else subtract_held intersectMask ms' remaining
  end.

Fixpoint LockCheckConflicts_group (conflictMask : Z) (me : procno) (leader : procno)
    (tag : LOCKTAG) (others : list procno) (remaining : list Z) (s : shared) : option status :=
  match others with
  | [] => Some STATUS_FOUND
  | p :: others' =>
      o ← proclocks s !! (tag, p);
      if bool_decide (p <> me) && bool_decide (leader = groupLeader o) &&
         negb (Z.land (holdMask o) conflictMask =? 0)
      then remaining' ← subtract_held (Z.land (holdMask o) conflictMask) lockmodes remaining;
           if total remaining' =? 0 then Some STATUS_OK
           else LockCheckConflicts_group conflictMask me leader tag others' remaining' s
      else LockCheckConflicts_group conflictMask me leader tag others' remaining s
  end.

Definition LockCheckConflicts (MyProc : procno) (lockmode : Z) (tag : LOCKTAG)
    (proclock : PROCLOCKTAG) (s : shared) : option status :=
  l ← locks s !! tag;
  pl ← proclocks s !! proclock;
  let conflictMask := conflictTab lockmode in
  if Z.land conflictMask (grantMask l) =? 0 then Some STATUS_OK
  else
    let remaining := conflictsRemaining_init conflictMask (holdMask pl) (granted l) in
    if total remaining =? 0 then Some STATUS_OK
    else if bool_decide (groupLeader pl = MyProc) &&
            bool_decide (lockGroupLeader (procs s MyProc) = None)
    then assert bool_decide (proclock.2 = MyProc);; Some STATUS_FOUND
    else LockCheckConflicts_group conflictMask proclock.2 (groupLeader pl) tag (procLocks l)
           remaining s.

(** ** Granting and releasing *)

Definition GrantLock (tag : LOCKTAG) (proclock : PROCLOCKTAG) (lockmode : Z) (s : shared)
  : option shared :=
  l ← locks s !! tag;
  pl ← proclocks s !! proclock;
  let g := bump lockmode 1 (granted l) in
  let l' :=
    MkLOCK (Z.lor (grantMask l) (LOCKBIT_ON lockmode))
      (if count g lockmode =? count (requested l) lockmode
       then Z.land (waitMask l) (LOCKBIT_OFF lockmode) else waitMask l)
      (procLocks l) (waitProcs l) (requested l) (nRequested l) g (nGranted l + 1) in
  assert (0 <? nGranted l') && (0 <? count (granted l') lockmode);;
  assert nGranted l' <=? nRequested l';;
  Some (put_proclock proclock (set_holdMask (Z.lor (holdMask pl) (LOCKBIT_ON lockmode)) pl)
          (put_lock tag l' s)).

(** The boolean says whether waiters should be woken up. *)
Definition UnGrantLock (tag : LOCKTAG) (lockmode : Z) (proclock : PROCLOCKTAG) (s : shared)
  : option (bool * shared) :=
  l ← locks s !! tag;
  pl ← proclocks s !! proclock;
  assert (0 <? nRequested l) && (0 <? count (requested l) lockmode);;
  assert (0 <? nGranted l) && (0 <? count (granted l) lockmode);;
  assert nGranted l <=? nRequested l;;
  let g := bump lockmode (-1) (granted l) in
  let l' :=
    MkLOCK (if count g lockmode =? 0 then Z.land (grantMask l) (LOCKBIT_OFF lockmode)
            else grantMask l)
      (waitMask l) (procLocks l) (waitProcs l)
      (bump lockmode (-1) (requested l)) (nRequested l - 1) g (nGranted l - 1) in
  let wakeupNeeded := negb (Z.land (conflictTab lockmode) (waitMask l) =? 0) in
  Some (wakeupNeeded,
        put_proclock proclock (set_holdMask (Z.land (holdMask pl) (LOCKBIT_OFF lockmode)) pl)
          (put_lock tag l' s)).

(** [waitStatus] becomes [st] and the process leaves the wait queue; [None]
    when it is not linked into one ([ProcWakeup] then returns no next process
    to go on with). *)
Definition ProcWakeup (p : procno) (st : status) (s : shared) : option shared :=
  let x := procs s p in
  assert links x && bool_decide (waitStatus x = STATUS_WAITING);;
  w ← waitLock x;
  l ← locks s !! w;
  Some (put_proc p (set_wait false st None None (waitLockMode x) x)
          (put_lock w (set_waitProcs (unlink p (waitProcs l)) l) s)).

Fixpoint ProcLockWakeup_loop (MyProc : procno) (tag : LOCKTAG) (queue : list procno)
    (aheadRequests : Z) (s : shared) : option shared :=
  match queue with
  | [] => Some s
  | p :: queue' =>
      let lockmode := waitLockMode (procs s p) in
      wp ← waitProcLock (procs s p);
      st ← (if Z.land (conflictTab lockmode) aheadRequests =? 0
            then LockCheckConflicts MyProc lockmode tag wp s else Some STATUS_FOUND);
      if bool_decide (st = STATUS_OK) then
        s1 ← GrantLock tag wp lockmode s;
        s2 ← ProcWakeup p STATUS_OK s1;
        ProcLockWakeup_loop MyProc tag queue' aheadRequests s2
      else ProcLockWakeup_loop MyProc tag queue' (Z.lor aheadRequests (LOCKBIT_ON lockmode)) s
  end.

Definition ProcLockWakeup (MyProc : procno) (tag : LOCKTAG) (s : shared) : option shared :=
  l ← locks s !! tag;
  ProcLockWakeup_loop MyProc tag (waitProcs l) 0 s.

Section Hash.
Context {lockhash : LockHash}.

Definition partition_of (tag : LOCKTAG) : Z := LockHashPartition (LockTagHashCode tag).

(** Taking a PROCLOCK out of its two lists and out of the hash table; it is a
    PANIC when it is not there. *)
Definition remove_proclock (proclock : PROCLOCKTAG) (s : shared) : option shared :=
  _ ← proclocks s !! proclock;
  l ← locks s !! proclock.1;
  let x := procs s proclock.2 in
  let part := partition_of proclock.1 in
  Some (MkShared
          (<[proclock.1 := set_procLocks (unlink proclock.2 (procLocks l)) l]> (locks s))
          (delete proclock (proclocks s))
          (<[proclock.2 :=
              set_myProcLocks (<[part := unlink proclock.1 (myProcLocks x part)]> (myProcLocks x)) x]>
             (procs s))).

Definition CleanUpLock (MyProc : procno) (tag : LOCKTAG) (proclock : PROCLOCKTAG)
    (wakeupNeeded : bool) (s : shared) : option shared :=
  pl ← proclocks s !! proclock;
  s ← (if holdMask pl =? 0 then remove_proclock proclock s else Some s);
  l ← locks s !! tag;
  if nRequested l =? 0 then
    assert bool_decide (procLocks l = []);; Some (del_lock tag s)
  else if wakeupNeeded then ProcLockWakeup MyProc tag s
  else Some s.

Definition RemoveFromWaitQueue (MyProc : procno) (p : procno) (s : shared) : option shared :=
  let x := procs s p in
  assert bool_decide (waitStatus x = STATUS_WAITING) && links x;;
  w ← waitLock x;
  wp ← waitProcLock x;
  l ← locks s !! w;
  let m := waitLockMode x in
  assert negb (bool_decide (waitProcs l = [])) && (0 <? locktag_lockmethodid w) &&
         (locktag_lockmethodid w <? 3);;
  assert (0 <? nRequested l) && (nGranted l <? nRequested l) && (0 <? count (requested l) m);;
  let r := bump m (-1) (requested l) in
  let l' :=
    MkLOCK (grantMask l)
      (if count (granted l) m =? count r m then Z.land (waitMask l) (LOCKBIT_OFF m)
       else waitMask l)
      (procLocks l) (unlink p (waitProcs l)) r (nRequested l - 1) (granted l) (nGranted l) in
  CleanUpLock MyProc w wp true
    (put_proc p (set_wait false STATUS_ERROR None None m x) (put_lock w l' s)).

(** ** Requesting *)

Definition new_lock : LOCK :=
  MkLOCK 0 0 [] [] (repeat 0 MAX_LOCKMODES) 0 (repeat 0 MAX_LOCKMODES) 0.

(** [hash_search] with [HASH_ENTER_NULL]: the entry and whether it was found;
    [None] when it is missing and there is no shared memory for it. *)
Definition hash_enter {K V} `{Countable K} (room : bool) (k : K) (new : V) (t : gmap K V)
  : option (V * bool) :=
  match t !! k with
  | Some v => Some (v, true)
  | None => if room then Some (new, false) else None
  end.

Inductive setup := SetupOK | SetupNoMemory | SetupAlreadyHeld.

(** [room] says whether there is memory for a LOCK and for a PROCLOCK. *)
Definition SetupLockInTable (room : bool * bool) (p : procno) (tag : LOCKTAG) (lockmode : Z)
    (s : shared) : option (setup * shared) :=
  match hash_enter room.1 tag new_lock (locks s) with
  | None => Some (SetupNoMemory, s)
  | Some (l, found) =>
      assert negb found ||
        ((0 <=? nRequested l) && (0 <=? count (requested l) lockmode) && (0 <=? nGranted l) &&
         (0 <=? count (granted l) lockmode) && (nGranted l <=? nRequested l));;
      match hash_enter room.2 (tag, p) (MkPROCLOCK (leader_of s p) 0 0) (proclocks s) with
      | None =>
          if nRequested l =? 0 then
            assert bool_decide (procLocks l = []);; Some (SetupNoMemory, del_lock tag s)
          else Some (SetupNoMemory, put_lock tag l s)
      | Some (pl, pfound) =>
          assert negb pfound || (Z.land (holdMask pl) (Z.lnot (grantMask l)) =? 0);;
          let l1 := if pfound then l else set_procLocks (procLocks l ++ [p]) l in
          let x := procs s p in
          let part := partition_of tag in
          let x1 := if pfound then x
                    else set_myProcLocks (<[part := myProcLocks x part ++ [tag]]> (myProcLocks x)) x in
          let l2 := MkLOCK (grantMask l1) (waitMask l1) (procLocks l1) (waitProcs l1)
                      (bump lockmode 1 (requested l1)) (nRequested l1 + 1) (granted l1)
                      (nGranted l1) in
          assert (0 <? nRequested l2) && (0 <? count (requested l2) lockmode);;
          let s' := put_proc p x1 (put_proclock (tag, p) pl (put_lock tag l2 s)) in
          Some (if holds (holdMask pl) lockmode then SetupAlreadyHeld else SetupOK, s')
      end
  end.

(** ** Joining the wait queue *)

(** The locks of the other members of the group, or-ed into [myHeldLocks]. *)
Fixpoint group_held (tag : LOCKTAG) (leader : procno) (ps : list procno) (held : Z) (s : shared)
  : option Z :=
  match ps with
  | [] => Some held
  | p :: ps' =>
      o ← proclocks s !! (tag, p);
      group_held tag leader ps'
        (if bool_decide (groupLeader o = leader) then Z.lor held (holdMask o) else held) s
  end.

(** Where the scan of the wait queue stops. *)
Inductive scan :=
  | ScanEnd                   (* fell out of the loop *)
  | ScanDeadlock (p : procno) (* [p] waits for me and I would wait for [p] *)
  | ScanGrant                 (* no need to wait *)
  | ScanBefore (p : procno).  (* go before [p] *)

Fixpoint ProcSleep_scan (MyProc : procno) (lockmode : Z) (tag : LOCKTAG) (proclock : PROCLOCKTAG)
    (myHeldLocks : Z) (queue : list procno) (aheadRequests : Z) (s : shared) : option scan :=
  match queue with
  | [] => Some ScanEnd
  | p :: queue' =>
      let x := procs s p in
      if bool_decide (lockGroupLeader (procs s MyProc) <> None) &&
         bool_decide (lockGroupLeader (procs s MyProc) = lockGroupLeader x)
      then ProcSleep_scan MyProc lockmode tag proclock myHeldLocks queue' aheadRequests s
      else if negb (Z.land (conflictTab (waitLockMode x)) myHeldLocks =? 0) then
        if negb (Z.land (conflictTab lockmode) (heldLocks x) =? 0) then Some (ScanDeadlock p)
        else
          st ← (if Z.land (conflictTab lockmode) aheadRequests =? 0
                then LockCheckConflicts MyProc lockmode tag proclock s else Some STATUS_FOUND);
          Some (if bool_decide (st = STATUS_OK) then ScanGrant else ScanBefore p)
      else ProcSleep_scan MyProc lockmode tag proclock myHeldLocks queue'
             (Z.lor aheadRequests (LOCKBIT_ON (waitLockMode x))) s
  end.

(** [SHMQueueInsertBefore] the element [q] of a queue. *)
Fixpoint insert_before (q p : procno) (l : list procno) : list procno :=
  match l with
  | [] => [p]
  | k :: l' => if bool_decide (k = q) then p :: l else k :: insert_before q p l'
  end.

Definition enqueue (r : scan) (p : procno) (l : list procno) : list procno :=
  match r with ScanDeadlock q | ScanBefore q => insert_before q p l | _ => l ++ [p] end.

(** What is known when [ProcSleep] releases the partition lock to sleep, or
    returns before that; [SleepDeadlock p] is the failure that
    [RememberSimpleDeadLock] remembers. *)
Inductive sleep := SleepGranted | SleepWaiting | SleepDeadlock (p : procno).

Definition ProcSleep (MyProc : procno) (lockmode : Z) (tag : LOCKTAG) (proclock : PROCLOCKTAG)
    (s : shared) : option (sleep * shared) :=
  l ← locks s !! tag;
  let x := procs s MyProc in
  myHeldLocks ← (match lockGroupLeader x with
                 | None => Some (heldLocks x)
                 | Some leader => group_held tag leader (procLocks l) (heldLocks x) s
                 end);
  r ← (if myHeldLocks =? 0 then Some ScanEnd
       else ProcSleep_scan MyProc lockmode tag proclock myHeldLocks (waitProcs l) 0 s);
  match r with
  | ScanGrant => s' ← GrantLock tag proclock lockmode s; Some (SleepGranted, s')
  | _ =>
      let l' := set_waitMask (Z.lor (waitMask l) (LOCKBIT_ON lockmode))
                  (set_waitProcs (enqueue r MyProc (waitProcs l)) l) in
      let s' := put_proc MyProc
                  (set_wait true STATUS_WAITING (Some tag) (Some proclock) lockmode x)
                  (put_lock tag l' s) in
      match r with
      | ScanDeadlock p => s'' ← RemoveFromWaitQueue MyProc MyProc s'; Some (SleepDeadlock p, s'')
      | _ => Some (SleepWaiting, s')
      end
  end.

(** The part of [LockAcquireExtended] that runs with the partition lock held,
    up to the point where the process has the lock, has failed or sleeps. *)
Inductive acquire :=
  | AcquireGranted | AcquireNotAvail | AcquireNoMemory | AcquireWaiting
  | AcquireDeadlock (p : procno) | AcquireError.

Definition LockAcquire_locked (room : bool * bool) (MyProc : procno) (tag : LOCKTAG) (lockmode : Z)
    (dontWait : bool) (s : shared) : option (acquire * shared) :=
  '(r, s) ← SetupLockInTable room MyProc tag lockmode s;
  match r with
  | SetupNoMemory => Some (AcquireNoMemory, s)
  | SetupAlreadyHeld => Some (AcquireError, s)
  | SetupOK =>
      let proclock := (tag, MyProc) in
      l ← locks s !! tag;
      st ← (if negb (Z.land (conflictTab lockmode) (waitMask l) =? 0) then Some STATUS_FOUND
            else LockCheckConflicts MyProc lockmode tag proclock s);
      if bool_decide (st = STATUS_OK) then
        s ← GrantLock tag proclock lockmode s; Some (AcquireGranted, s)
      else
        assert bool_decide (st = STATUS_FOUND);;
        pl ← proclocks s !! proclock;
        if dontWait then
          s ← (if holdMask pl =? 0 then remove_proclock proclock s else Some s);
          l ← locks s !! tag;
          let l' := MkLOCK (grantMask l) (waitMask l) (procLocks l) (waitProcs l)
                      (bump lockmode (-1) (requested l)) (nRequested l - 1) (granted l)
                      (nGranted l) in
          assert (0 <? nRequested l') && (0 <=? count (requested l') lockmode) &&
                 (nGranted l' <=? nRequested l');;
          Some (AcquireNotAvail, put_lock tag l' s)
        else
          '(r, s) ← ProcSleep MyProc lockmode tag proclock
                      (put_proc MyProc (set_heldLocks (holdMask pl) (procs s MyProc)) s);
          match r with
          | SleepWaiting => Some (AcquireWaiting, s)
          | SleepDeadlock p => Some (AcquireDeadlock p, s)
          | SleepGranted =>
              pl ← proclocks s !! proclock;
              Some (if holds (holdMask pl) lockmode then AcquireGranted else AcquireError, s)
          end
  end.

(** ** Releasing *)

(** The part of [LockRelease] that runs with the partition lock held, from the
    lookup of the shared objects on; [false] is the case in which the lock is
    not held in that mode, with a WARNING. *)
Definition LockRelease_locked (MyProc : procno) (tag : LOCKTAG) (lockmode : Z) (s : shared)
  : option (bool * shared) :=
  _ ← locks s !! tag;
  pl ← proclocks s !! (tag, MyProc);
  if negb (holds (holdMask pl) lockmode) then Some (false, s)
  else
    '(wakeupNeeded, s) ← UnGrantLock tag lockmode (tag, MyProc) s;
    s ← CleanUpLock MyProc tag (tag, MyProc) wakeupNeeded s;
    Some (true, s).

(** The same for a lock of another process, and without a LOCALLOCK. *)
Definition LockRefindAndRelease (MyProc proc : procno) (tag : LOCKTAG) (lockmode : Z) (s : shared)
  : option shared :=
  _ ← locks s !! tag;
  pl ← proclocks s !! (tag, proc);
  if negb (holds (holdMask pl) lockmode) then Some s
  else
    '(wakeupNeeded, s) ← UnGrantLock tag lockmode (tag, proc) s;
    CleanUpLock MyProc tag (tag, proc) wakeupNeeded s.

(** The loop over the modes of [releaseMask]. *)
Fixpoint release_modes (MyProc : procno) (tag : LOCKTAG) (mask : Z) (ms : list Z)
    (wakeupNeeded : bool) (s : shared) : option (bool * shared) :=
  match ms with
  | [] => Some (wakeupNeeded, s)
  | i :: ms' =>
      if holds mask i then
        '(w, s) ← UnGrantLock tag i (tag, MyProc) s;
        release_modes MyProc tag mask ms' (w || wakeupNeeded) s
      else release_modes MyProc tag mask ms' wakeupNeeded s
  end.

(** [lock->nRequested >= 0 && lock->nGranted >= 0 && lock->nGranted <= lock->nRequested] *)
Definition counts_ok (l : LOCK) : bool :=
  (0 <=? nRequested l) && (0 <=? nGranted l) && (nGranted l <=? nRequested l).

(** One PROCLOCK in [LockReleaseAll]. *)
Definition release_proclock (MyProc : procno) (lockmethodid : Z) (allLocks : bool) (tag : LOCKTAG)
    (s : shared) : option shared :=
  pl ← proclocks s !! (tag, MyProc);
  l ← locks s !! tag;
  if negb (locktag_lockmethodid tag =? lockmethodid) then Some s
  else
    assert allLocks || (Z.land (releaseMask pl) (Z.lnot (holdMask pl)) =? 0);;
    let mask := if allLocks then holdMask pl else releaseMask pl in
    let s := put_proclock (tag, MyProc) (set_releaseMask mask pl) s in
    if (mask =? 0) && negb (holdMask pl =? 0) then Some s
    else
      assert counts_ok l && (Z.land (holdMask pl) (Z.lnot (grantMask l)) =? 0);;
      '(w, s) ← release_modes MyProc tag mask lockmodes false s;
      l ← locks s !! tag;
      assert counts_ok l;;
      pl ← proclocks s !! (tag, MyProc);
      CleanUpLock MyProc tag (tag, MyProc) w
        (put_proclock (tag, MyProc) (set_releaseMask 0 pl) s).

(** The PROCLOCKs of the caller in one partition; the list is read with the
    partition lock held and [nextplock] is fetched before an element goes. *)
Fixpoint release_list (MyProc : procno) (lockmethodid : Z) (allLocks : bool) (tags : list LOCKTAG)
    (s : shared) : option shared :=
  match tags with
  | [] => Some s
  | tag :: tags' =>
      s ← release_proclock MyProc lockmethodid allLocks tag s;
      release_list MyProc lockmethodid allLocks tags' s
  end.

Definition LockReleaseAll_partition (MyProc : procno) (lockmethodid : Z) (allLocks : bool)
    (partition : Z) (s : shared) : option shared :=
  release_list MyProc lockmethodid allLocks (myProcLocks (procs s MyProc) partition) s.

(** The shared part of [LockErrorCleanup] for a process that was waiting:
    [true] when the lock had been granted meanwhile. *)
Definition LockErrorCleanup_locked (MyProc : procno) (s : shared) : option (bool * shared) :=
  if links (procs s MyProc) then
    s ← RemoveFromWaitQueue MyProc MyProc s; Some (false, s)
  else Some (bool_decide (waitStatus (procs s MyProc) = STATUS_OK), s).

End Hash.

(** ** Lock groups *)

Definition BecomeLockGroupLeader (MyProc : procno) (s : shared) : option shared :=
  let x := procs s MyProc in
  if bool_decide (lockGroupLeader x = Some MyProc) then Some s
  else
    assert bool_decide (lockGroupLeader x = None);;
    Some (put_proc MyProc
            (set_lockGroupMembers (MyProc :: lockGroupMembers x)
               (set_lockGroupLeader (Some MyProc) x)) s).

Definition BecomeLockGroupMember (MyProc leader : procno) (pid' : Z) (s : shared)
  : option (bool * shared) :=
  let x := procs s MyProc in
  assert bool_decide (MyProc <> leader);;
  assert bool_decide (lockGroupLeader x = None);;
  assert negb (pid' =? 0);;
  if (pid (procs s leader) =? pid') && bool_decide (lockGroupLeader (procs s leader) = Some leader)
  then
    let s := put_proc MyProc (set_lockGroupLeader (Some leader) x) s in
    let y := procs s leader in
    Some (true, put_proc leader (set_lockGroupMembers (lockGroupMembers y ++ [MyProc]) y) s)
  else Some (false, s).

(** ** Processes that come and go *)

(** [for (i = 0; i < NUM_LOCK_PARTITIONS; i++)] *)
Definition partitions : list Z := seqZ 0 NUM_LOCK_PARTITIONS.

Definition no_proclocks (x : PGPROC) : bool :=
  forallb (fun part => bool_decide (myProcLocks x part = [])) partitions.

(** What [InitProcess] does to the fields modelled; [MyProc] comes from a free
    list, and [flags] is [PROC_IS_AUTOVACUUM] in an autovacuum worker. *)
Definition InitProcess (MyProc : procno) (MyProcPid flags : Z) (s : shared) : option shared :=
  let x := procs s MyProc in
  assert no_proclocks x;;
  assert bool_decide (lockGroupLeader x = None);;
  assert bool_decide (lockGroupMembers x = []);;
  Some (put_proc MyProc
          (MkPGPROC false STATUS_OK None None (waitLockMode x) (heldLocks x) MyProcPid 0 flags
             (lockGroupLeader x) (lockGroupMembers x) (myProcLocks x) (fpLockBits x) (fpRelId x)) s).

(** [ProcKill]: the process leaves its lock group; the list tells which PGPROCs
    are returned to their free lists, in that order. *)
Definition ProcKill (MyProc : procno) (s : shared) : option (list procno * shared) :=
  let x := procs s MyProc in
  assert no_proclocks x;;
  '(freed, s) ←
    match lockGroupLeader x with
    | None => Some ([], s)
    | Some leader =>
        assert negb (bool_decide (lockGroupMembers (procs s leader) = []));;
        let y := procs s leader in
        let y' := set_lockGroupMembers (unlink MyProc (lockGroupMembers y)) y in
        let s1 := put_proc leader y' s in
        if bool_decide (lockGroupMembers y' = []) then
          Some (if bool_decide (leader <> MyProc) then [leader] else [],
                put_proc leader (set_lockGroupLeader None y') s1)
        else
          Some ([], if bool_decide (leader <> MyProc)
                    then put_proc MyProc (set_lockGroupLeader None (procs s1 MyProc)) s1 else s1)
    end;
  if bool_decide (lockGroupLeader (procs s MyProc) = None) then
    assert bool_decide (lockGroupMembers (procs s MyProc) = []);;
    Some (freed ++ [MyProc], s)
  else Some (freed, s).

End Lock.
