(* ===== verification/LockInv.v ===== *)
(** * The invariant of the shared lock table

    What every routine of [Lock] relies on and keeps: the counters and masks of
    a LOCK agree with the PROCLOCKs and the wait queue, lists and hash tables
    agree, no two processes of different lock groups hold conflicting locks,
    nothing unused is left in the tables, and every waiter is really blocked. *)

From S2P Require Import Prelude.
From S2P Require Import Lock.
From stdpp Require Import list.

Import Lock.

Open Scope Z_scope.

Module LockInv.

(** ** Bits of lock masks *)

Lemma holds_testbit mask m : 0 <= m -> holds mask m = Z.testbit mask m.
Proof.
  intros Hm. unfold holds, LOCKBIT_ON. rewrite Z.shiftl_1_l.
  destruct (Z.testbit mask m) eqn:E; symmetry.
  - symmetry. apply negb_true_iff, Z.eqb_neq. intros H.
    assert (Ht : Z.testbit (Z.land mask (2 ^ m)) m = false) by (rewrite H; apply Z.bits_0).
    rewrite Z.land_spec, E, Z.pow2_bits_true in Ht; [done|lia].
  - symmetry. apply negb_false_iff, Z.eqb_eq, Z.bits_inj_iff. intros i.
    rewrite Z.land_spec, Z.bits_0, Z.pow2_bits_eqb by lia.
    destruct (Z.eqb_spec m i) as [<-|]; [by rewrite E|apply andb_false_r].
Qed.

Lemma testbit_on m i : 0 <= m -> Z.testbit (LOCKBIT_ON m) i = (m =? i).
Proof. intros. unfold LOCKBIT_ON. rewrite Z.shiftl_1_l. by apply Z.pow2_bits_eqb. Qed.

Lemma testbit_off m i : 0 <= m -> 0 <= i -> Z.testbit (LOCKBIT_OFF m) i = negb (m =? i).
Proof.
  intros. unfold LOCKBIT_OFF. rewrite Z.lnot_spec by done. f_equal. by apply testbit_on.
Qed.

Lemma land_zero a b :
  Z.land a b = 0 <-> forall i, 0 <= i -> Z.testbit a i = true -> Z.testbit b i = false.
Proof.
  split.
  - intros H i Hi Ha. assert (Ht : Z.testbit (Z.land a b) i = false) by (rewrite H; apply Z.bits_0).
    by rewrite Z.land_spec, Ha in Ht.
  - intros H. apply Z.bits_inj_iff. intros i. rewrite Z.land_spec, Z.bits_0.
    destruct (Z.ltb_spec i 0); [by rewrite Z.testbit_neg_r|].
    destruct (Z.testbit a i) eqn:Ha; [|done]. by rewrite (H i).
Qed.

Lemma lockmodes_range m : m ∈ lockmodes <-> 1 <= m <= 8.
Proof.
  unfold lockmodes. rewrite !elem_of_cons, elem_of_nil. lia.
Qed.

Ltac each_mode H :=
  unfold lockmodes in H; rewrite !elem_of_cons, elem_of_nil in H;
  repeat (destruct H as [->|H]); [..|done].

Lemma conflictTab_bits m i : m ∈ lockmodes -> Z.testbit (conflictTab m) i = true -> i ∈ lockmodes.
Proof.
  intros Hm Hi. apply lockmodes_range.
  destruct (Z.ltb_spec i 0); [by rewrite Z.testbit_neg_r in Hi|].
  destruct (decide (i = 0)) as [->|]; [each_mode Hm; vm_compute in Hi; done|].
  destruct (Z.ltb_spec i 9); [lia|]. exfalso.
  rewrite Z.bits_above_log2 in Hi; [done|each_mode Hm; vm_compute; done|].
  assert (Z.log2 (conflictTab m) <= 8) by (each_mode Hm; vm_compute; done). lia.
Qed.

Lemma DoLockModesConflict_testbit m m' :
  m' ∈ lockmodes -> DoLockModesConflict m m' = Z.testbit (conflictTab m) m'.
Proof.
  intros H%lockmodes_range. unfold DoLockModesConflict.
  change (holds (conflictTab m) m' = Z.testbit (conflictTab m) m'). apply holds_testbit. lia.
Qed.

Lemma DoLockModesConflict_sym m m' :
  m ∈ lockmodes -> m' ∈ lockmodes -> DoLockModesConflict m m' = DoLockModesConflict m' m.
Proof. intros H H'. each_mode H; each_mode H'; reflexivity. Qed.

Lemma land_conflict m x :
  m ∈ lockmodes ->
  Z.land (conflictTab m) x = 0 <->
  forall m', m' ∈ lockmodes -> DoLockModesConflict m m' = true -> Z.testbit x m' = false.
Proof.
  intros Hm. rewrite land_zero. split; intros H i.
  - intros Hi. rewrite DoLockModesConflict_testbit by done. apply H.
    apply lockmodes_range in Hi. lia.
  - intros Hi Ht. pose proof (conflictTab_bits _ _ Hm Ht). apply H; [done|].
    by rewrite DoLockModesConflict_testbit.
Qed.

(** Masks of lock modes only. *)
Definition modes_only (mask : Z) : Prop := forall i, Z.testbit mask i = true -> i ∈ lockmodes.

Lemma modes_only_0 : modes_only 0.
Proof. intros i. by rewrite Z.bits_0. Qed.

Lemma modes_only_on mask m : m ∈ lockmodes -> modes_only mask -> modes_only (Z.lor mask (LOCKBIT_ON m)).
Proof.
  intros Hm H i. rewrite Z.lor_spec, testbit_on by (apply lockmodes_range in Hm; lia).
  intros [Hi|Hi%Z.eqb_eq]%orb_true_iff; [by apply H|by subst].
Qed.

Lemma modes_only_land mask x : modes_only mask -> modes_only (Z.land mask x).
Proof. intros H i. rewrite Z.land_spec. intros [Hi _]%andb_true_iff. by apply H. Qed.

Lemma modes_only_lor a b : modes_only a -> modes_only b -> modes_only (Z.lor a b).
Proof. intros Ha Hb i. rewrite Z.lor_spec. intros [H|H]%orb_true_iff; auto. Qed.

Lemma modes_only_eq0 mask :
  modes_only mask -> (forall m, m ∈ lockmodes -> Z.testbit mask m = false) -> mask = 0.
Proof.
  intros H H0. apply Z.bits_inj_iff. intros i. rewrite Z.bits_0.
  destruct (Z.testbit mask i) eqn:E; [|done]. by rewrite (H0 i (H i E)) in E.
Qed.

Lemma modes_only_sub a b :
  modes_only a -> (forall m, m ∈ lockmodes -> Z.testbit a m = true -> Z.testbit b m = true) ->
  Z.land a (Z.lnot b) = 0.
Proof.
  intros Ha H. apply land_zero. intros i Hi Ht. rewrite Z.lnot_spec by done.
  by rewrite (H i (Ha i Ht) Ht).
Qed.

Lemma testbit_lor_on mask m i :
  m ∈ lockmodes -> Z.testbit (Z.lor mask (LOCKBIT_ON m)) i = Z.testbit mask i || (m =? i).
Proof. intros Hm%lockmodes_range. rewrite Z.lor_spec, testbit_on; [done|lia]. Qed.

Lemma testbit_land_off mask m i :
  m ∈ lockmodes -> i ∈ lockmodes ->
  Z.testbit (Z.land mask (LOCKBIT_OFF m)) i = Z.testbit mask i && negb (m =? i).
Proof.
  intros Hm%lockmodes_range Hi%lockmodes_range. rewrite Z.land_spec, testbit_off; [done|lia..].
Qed.

(** ** Counters *)

Lemma count_lookup a m : count a m = default 0 (a !! Z.to_nat m).
Proof. apply nth_lookup. Qed.

Lemma length_bump m d a : length (bump m d a) = length a.
Proof. apply length_alter. Qed.

Lemma count_bump a m d i :
  length a = MAX_LOCKMODES -> m ∈ lockmodes -> i ∈ lockmodes ->
  count (bump m d a) i = count a i + (if m =? i then d else 0).
Proof.
  intros Hl Hm%lockmodes_range Hi%lockmodes_range. rewrite !count_lookup. unfold bump.
  destruct (Z.eqb_spec m i) as [->|Hne].
  - rewrite list_lookup_alter_eq. destruct (lookup_lt_is_Some_2 a (Z.to_nat i)) as [x ->].
    + rewrite Hl. unfold MAX_LOCKMODES. lia.
    + done.
  - rewrite list_lookup_alter_ne by lia. lia.
Qed.

Lemma total_bump a m d :
  length a = MAX_LOCKMODES -> m ∈ lockmodes -> total (bump m d a) = total a + d.
Proof.
  intros Hl Hm. unfold total, lockmodes, foldr.
  rewrite !count_bump by (first [done|apply lockmodes_range; lia]).
  each_mode Hm; simpl; lia.
Qed.

Lemma total_nonneg a : (forall m, m ∈ lockmodes -> 0 <= count a m) -> 0 <= total a.
Proof.
  intros H. unfold total. revert H. induction lockmodes as [|m ms IH]; intros H; simpl; [lia|].
  pose proof (H m ltac:(constructor)). specialize (IH (fun m' Hm' => H m' ltac:(by constructor))). lia.
Qed.

Lemma total_zero a :
  (forall m, m ∈ lockmodes -> 0 <= count a m) ->
  total a = 0 <-> forall m, m ∈ lockmodes -> count a m = 0.
Proof.
  intros H. unfold total. revert H. induction lockmodes as [|m ms IH]; intros H; simpl.
  - split; [|done]. intros _ m Hm. by apply elem_of_nil in Hm.
  - assert (Hms : forall m', m' ∈ ms -> 0 <= count a m') by (intros; apply H; by constructor).
    pose proof (H m ltac:(constructor)). specialize (IH Hms).
    assert (0 <= foldr (fun i => Z.add (count a i)) 0 ms).
    { clear -Hms. induction ms as [|k ms IH]; simpl; [lia|].
      pose proof (Hms k ltac:(constructor)).
      specialize (IH (fun m' Hm' => Hms m' ltac:(by constructor))). lia. }
    split.
    + intros Ht m' [->|Hm']%elem_of_cons; [lia|]. apply IH; [lia|done].
    + intros Hall. rewrite (Hall m) by constructor. apply Z.add_0_l || idtac.
      apply IH. intros; apply Hall; by constructor.
Qed.

Lemma total_ext a b : (forall m, m ∈ lockmodes -> count a m = count b m) -> total a = total b.
Proof.
  intros H. unfold total. revert H. induction lockmodes as [|m ms IH]; intros H; simpl; [done|].
  rewrite (H m) by constructor. rewrite IH; [done|]. intros; apply H; by constructor.
Qed.

Lemma total_le a b : (forall m, m ∈ lockmodes -> count a m <= count b m) -> total a <= total b.
Proof.
  intros H. unfold total. revert H. induction lockmodes as [|m ms IH]; intros H; simpl; [lia|].
  pose proof (H m ltac:(constructor)). specialize (IH (fun m' Hm' => H m' ltac:(by constructor))). lia.
Qed.

#[global] Arguments count : simpl never.
#[global] Arguments bump : simpl never.
#[global] Arguments total : simpl never.
#[global] Arguments conflictTab : simpl never.
#[global] Arguments LOCKBIT_ON : simpl never.
#[global] Arguments LOCKBIT_OFF : simpl never.

(** ** Counting the members of a list *)

Section Countb.
Context {A : Type}.
Implicit Types (f g : A -> bool) (l : list A).

Context `{EqDecision A}.

Lemma countb_upd f g p l :
  NoDup l -> p ∈ l -> (forall q, q ∈ l -> q <> p -> g q = f q) ->
  countb g l = countb f l - Z.b2z (f p) + Z.b2z (g p).
Proof.
  induction l as [|x l IH]; intros Hnd Hp H; [by apply elem_of_nil in Hp|].
  apply NoDup_cons in Hnd as [Hx Hnd]. simpl.
  destruct (decide (x = p)) as [->|Hne].
  - rewrite (countb_ext g f l); [lia|]. intros q Hq. apply H; [by constructor|by intros ->].
  - apply elem_of_cons in Hp as [->|Hp]; [done|].
    rewrite (H x) by (done || constructor). rewrite IH; [lia|done..|]. intros; apply H; [by constructor|done].
Qed.

Lemma unlink_notin x l : x ∉ l -> unlink x l = l.
Proof.
  unfold unlink. induction l as [|y l IH]; intros H; [done|].
  apply not_elem_of_cons in H as [Hxy H].
  rewrite filter_cons_True by done. by rewrite IH.
Qed.

Lemma unlink_perm x l : NoDup l -> x ∈ l -> l ≡ₚ x :: unlink x l.
Proof.
  induction l as [|y l IH]; intros Hnd Hx; [by apply elem_of_nil in Hx|].
  apply NoDup_cons in Hnd as [Hy Hnd]. unfold unlink in *. rewrite filter_cons.
  destruct (decide (y <> x)) as [Hne|Heq].
  - apply elem_of_cons in Hx as [->|Hx]; [done|]. rewrite (IH Hnd Hx) at 1. constructor.
  - assert (y = x) as -> by (destruct (decide (y = x)); tauto).
    fold (unlink x l). by rewrite unlink_notin.
Qed.

Lemma countb_unlink f x l :
  NoDup l -> x ∈ l -> countb f (unlink x l) = countb f l - Z.b2z (f x).
Proof. intros H1 H2. rewrite (unlink_perm x l H1 H2) at 2. simpl. lia. Qed.

Lemma elem_of_unlink x y l : y ∈ unlink x l <-> y <> x /\ y ∈ l.
Proof. unfold unlink. by rewrite list_elem_of_filter. Qed.

Lemma NoDup_unlink x l : NoDup l -> NoDup (unlink x l).
Proof. unfold unlink. by apply list.NoDup_filter. Qed.

End Countb.

Lemma insert_before_perm q p l : insert_before q p l ≡ₚ p :: l.
Proof.
  induction l as [|k l IH]; simpl; [done|]. case_bool_decide; [done|]. rewrite IH. constructor.
Qed.

Lemma enqueue_perm r p l : enqueue r p l ≡ₚ p :: l.
Proof.
  destruct r; simpl; try apply insert_before_perm;
    (rewrite Permutation_app_comm; done).
Qed.

(** ** The invariant *)

Definition hold (s : shared) (tag : LOCKTAG) (p : nat) : option Z :=
  holdMask <$> proclocks s !! (tag, p).

Definition holdb (h : option Z) (m : Z) : bool :=
  match h with Some mask => Z.testbit mask m | None => false end.

(** One LOCK, the masks its PROCLOCKs hold, the modes processes wait for, and
    the requests that are counted but neither granted nor queued yet. *)
Record lock_ok (l : LOCK) (h : nat -> option Z) (wmode : nat -> Z) (extra : Z -> Z) : Prop := {
  lo_len_r : length (requested l) = MAX_LOCKMODES;
  lo_len_g : length (granted l) = MAX_LOCKMODES;
  lo_nodup_p : NoDup (procLocks l);
  lo_nodup_w : NoDup (waitProcs l);
  lo_dom : forall p, p ∈ procLocks l <-> is_Some (h p);
  lo_granted : forall m, m ∈ lockmodes ->
    count (granted l) m = countb (fun p => holdb (h p) m) (procLocks l);
  lo_requested : forall m, m ∈ lockmodes ->
    count (requested l) m =
    count (granted l) m + countb (fun p => wmode p =? m) (waitProcs l) + extra m;
  lo_nGranted : nGranted l = total (granted l);
  lo_nRequested : nRequested l = total (requested l);
  lo_gmask : modes_only (grantMask l);
  lo_gmask_eq : forall m, m ∈ lockmodes ->
    Z.testbit (grantMask l) m = (0 <? count (granted l) m);
  lo_wmask : modes_only (waitMask l);
  lo_wmask_eq : forall m, m ∈ lockmodes ->
    Z.testbit (waitMask l) m = (0 <? countb (fun p => wmode p =? m) (waitProcs l));
  lo_bits : forall p mask, h p = Some mask -> modes_only mask;
  lo_wait : forall p, p ∈ waitProcs l ->
    is_Some (h p) /\ wmode p ∈ lockmodes /\ holdb (h p) (wmode p) = false }.

Record waits (x : PGPROC) (tag : LOCKTAG) (p : nat) : Prop := {
  wt_links : links x = true;
  wt_status : waitStatus x = STATUS_WAITING;
  wt_lock : waitLock x = Some tag;
  wt_proclock : waitProcLock x = Some (tag, p) }.

(** A request between [SetupLockInTable] and the grant or the wait. *)
Definition pending := option (LOCKTAG * nat * Z).

Definition extra_of (pend : pending) (tag : LOCKTAG) (m : Z) : Z :=
  match pend with
  | Some (tag', _, m') => if bool_decide (tag' = tag) && (m' =? m) then 1 else 0
  | None => 0
  end.

Section Hash.
Context {lockhash : LockHash}.

Record wf (pend : pending) (s : shared) : Prop := {
  wf_lock : forall tag l, locks s !! tag = Some l ->
    lock_ok l (hold s tag) (fun p => waitLockMode (procs s p)) (extra_of pend tag);
  wf_orphan : forall tag p, is_Some (proclocks s !! (tag, p)) -> is_Some (locks s !! tag);
  wf_queue : forall tag l p, locks s !! tag = Some l -> p ∈ waitProcs l -> waits (procs s p) tag p;
  wf_links : forall p, links (procs s p) = true ->
    exists tag l, locks s !! tag = Some l /\ p ∈ waitProcs l;
  wf_mine : forall p part tag, tag ∈ myProcLocks (procs s p) part <->
    part = partition_of tag /\ is_Some (proclocks s !! (tag, p));
  wf_mine_nodup : forall p part, NoDup (myProcLocks (procs s p) part);
  wf_leader : forall tag p pl, proclocks s !! (tag, p) = Some pl -> groupLeader pl = leader_of s p;
  wf_group : forall p g, lockGroupLeader (procs s p) = Some g ->
    lockGroupLeader (procs s g) = Some g /\ p ∈ lockGroupMembers (procs s g);
  wf_members : forall g p, p ∈ lockGroupMembers (procs s g) ->
    lockGroupLeader (procs s p) = Some g;
  wf_method : forall tag, is_Some (locks s !! tag) -> 0 < locktag_lockmethodid tag < 3;
  wf_pend : forall tag p m, pend = Some (tag, p, m) ->
    m ∈ lockmodes /\ holdb (hold s tag p) m = false /\
    forall l, locks s !! tag = Some l -> p ∈ waitProcs l -> waitLockMode (procs s p) <> m }.

(** Processes of different lock groups do not hold conflicting locks. *)
Definition excl (s : shared) : Prop :=
  forall tag p q m m', leader_of s p <> leader_of s q ->
    m ∈ lockmodes -> m' ∈ lockmodes ->
    holdb (hold s tag p) m = true -> holdb (hold s tag q) m' = true ->
    DoLockModesConflict m m' = false.

(** Nothing unused stays in the tables; [ex] is exempt. *)
Definition tidy (ex : option (LOCKTAG * nat)) (s : shared) : Prop :=
  (forall tag p pl, proclocks s !! (tag, p) = Some pl -> ex <> Some (tag, p) ->
     holdMask pl <> 0 \/ exists l, locks s !! tag = Some l /\ p ∈ waitProcs l) /\
  (forall tag l, locks s !! tag = Some l -> (forall p, ex <> Some (tag, p)) -> procLocks l <> []).

(** A process of another lock group holds a lock that conflicts with mode [m]. *)
Definition conflicting (s : shared) (tag : LOCKTAG) (p : nat) (m : Z) : Prop :=
  exists q m', leader_of s q <> leader_of s p /\ m' ∈ lockmodes /\
    DoLockModesConflict m m' = true /\ holdb (hold s tag q) m' = true.

(** The request of [p] conflicts with that of a process ahead of it. *)
Definition behind (s : shared) (ahead : list nat) (m : Z) : Prop :=
  exists q, q ∈ ahead /\ DoLockModesConflict m (waitLockMode (procs s q)) = true.

(** Every waiter, except of the lock [ex], has a reason to wait. *)
Definition blocked (ex : option LOCKTAG) (s : shared) : Prop :=
  forall tag l ahead p rest, locks s !! tag = Some l -> ex <> Some tag ->
    waitProcs l = ahead ++ p :: rest ->
    behind s ahead (waitLockMode (procs s p)) \/
    conflicting s tag p (waitLockMode (procs s p)).

Record good (s : shared) : Prop := {
  good_wf : wf None s;
  good_excl : excl s;
  good_tidy : tidy None s;
  good_blocked : blocked None s }.

(** ** The conflict check *)

Lemma lo_count_nonneg l h w e m :
  lock_ok l h w e -> m ∈ lockmodes -> 0 <= count (granted l) m.
Proof. intros H Hm. rewrite (lo_granted _ _ _ _ H) by done. apply countb_nonneg. Qed.

Lemma subtract_held_spec x r ms :
  length r = MAX_LOCKMODES -> NoDup ms -> (forall i, i ∈ ms -> i ∈ lockmodes) ->
  (forall i, i ∈ ms -> Z.testbit x i = true -> 0 < count r i) ->
  exists r', subtract_held x ms r = Some r' /\ length r' = MAX_LOCKMODES /\
    forall i, i ∈ lockmodes ->
      count r' i = count r i - (if bool_decide (i ∈ ms) then Z.b2z (Z.testbit x i) else 0).
Proof.
  revert r. induction ms as [|m ms IH]; intros r Hl Hnd Hms Hpos; cbn [subtract_held].
  - exists r. split; [done|]. split; [done|]. intros i Hi. rewrite bool_decide_eq_false_2; [lia|].
    apply not_elem_of_nil.
  - apply NoDup_cons in Hnd as [Hnin Hnd]. assert (Hm : m ∈ lockmodes) by (apply Hms; constructor).
    assert (Hm0 : 0 <= m) by (apply lockmodes_range in Hm; lia).
    rewrite holds_testbit by done. destruct (Z.testbit x m) eqn:E.
    + assert (Hp : 0 < count r m) by (apply Hpos; [constructor|done]).
      apply Z.ltb_lt in Hp as ->.
      destruct (IH (bump m (-1) r)) as (r' & Hr' & Hl' & Hc); [by rewrite length_bump|done|..].
      * intros; apply Hms; by constructor.
      * intros i Hi Ht. assert (i <> m) by (by intros ->).
        rewrite count_bump; [|done|done|by apply Hms; constructor].
        destruct (Z.eqb_spec m i); [done|]. rewrite Z.add_0_r. apply Hpos; [by constructor|done].
      * exists r'. split; [done|]. split; [done|]. intros i Hi. rewrite (Hc i Hi).
        rewrite count_bump by done. destruct (Z.eqb_spec m i) as [<-|Hne].
        -- rewrite (bool_decide_eq_false_2 (m ∈ ms)) by done.
           rewrite (bool_decide_eq_true_2 (m ∈ m :: ms)) by constructor. rewrite E. simpl. lia.
        -- rewrite (bool_decide_ext (i ∈ m :: ms) (i ∈ ms)); [lia|].
           rewrite elem_of_cons. naive_solver.
    + destruct (IH r) as (r' & Hr' & Hl' & Hc); [done|done|..].
      * intros; apply Hms; by constructor.
      * intros; apply Hpos; [by constructor|done].
      * exists r'. split; [done|]. split; [done|]. intros i Hi. rewrite (Hc i Hi).
        destruct (decide (m = i)) as [<-|Hne].
        -- rewrite (bool_decide_eq_false_2 (m ∈ ms)) by done.
           rewrite (bool_decide_eq_true_2 (m ∈ m :: ms)) by constructor. rewrite E. simpl. lia.
        -- rewrite (bool_decide_ext (i ∈ m :: ms) (i ∈ ms)); [lia|].
           rewrite elem_of_cons. naive_solver.
Qed.

Lemma count_conflictsRemaining_init cm my g i :
  i ∈ lockmodes ->
  count (conflictsRemaining_init cm my g) i =
  if Z.testbit cm i then count g i - Z.b2z (Z.testbit my i) else 0.
Proof.
  intros Hi. assert (H0 : 0 <= i) by (apply lockmodes_range in Hi; lia).
  assert (Hc : count (conflictsRemaining_init cm my g) i =
    if Z.land cm (LOCKBIT_ON i) =? 0 then 0
    else if holds my i then count g i - 1 else count g i).
  { each_mode Hi; reflexivity. }
  rewrite Hc. rewrite <- (holds_testbit cm i), <- (holds_testbit my i) by done. unfold holds at 2.
  destruct (Z.land cm (LOCKBIT_ON i) =? 0); simpl; [done|]. destruct (holds my i); simpl; lia.
Qed.

Lemma total_nonzero a : total a <> 0 -> exists i, i ∈ lockmodes /\ count a i <> 0.
Proof.
  unfold total. induction lockmodes as [|m ms IH]; simpl; [done|].
  destruct (Z.eq_dec (count a m) 0) as [->|Hne]; intros H.
  - destruct IH as (i & Hi & Hc); [lia|]. exists i. split; [by constructor|done].
  - exists m. split; [constructor|done].
Qed.

Lemma hold_Some s tag p pl : proclocks s !! (tag, p) = Some pl -> hold s tag p = Some (holdMask pl).
Proof. unfold hold. by intros ->. Qed.

Lemma hold_is_Some s tag p : is_Some (hold s tag p) <-> is_Some (proclocks s !! (tag, p)).
Proof. apply fmap_is_Some. Qed.

Section CheckConflicts.
Context (pend : pending) (s : shared) (tag : LOCKTAG) (l : LOCK) (p : nat) (m : Z).
Context (Hwf : wf pend s) (Hl : locks s !! tag = Some l) (Hm : m ∈ lockmodes).
Context (Hp : is_Some (proclocks s !! (tag, p))).

Let Hlo := wf_lock _ _ Hwf _ _ Hl.

(** Who still counts when the processes in [seen] have been looked at. *)
Definition still (seen : list nat) (q : nat) : bool :=
  bool_decide (q <> p) &&
  negb (bool_decide (q ∈ seen) && bool_decide (leader_of s q = leader_of s p)).

Definition remaining_ok (seen : list nat) (r : list Z) : Prop :=
  length r = MAX_LOCKMODES /\
  forall i, i ∈ lockmodes ->
    count r i = if Z.testbit (conflictTab m) i
                then countb (fun q => still seen q && holdb (hold s tag q) i) (procLocks l) else 0.

Lemma remaining_nonneg seen r i : remaining_ok seen r -> i ∈ lockmodes -> 0 <= count r i.
Proof.
  intros [_ Hr] Hi. rewrite Hr by done. destruct (Z.testbit _ i); [|done]. apply countb_nonneg.
Qed.

Lemma hold_in_procLocks q i : holdb (hold s tag q) i = true -> q ∈ procLocks l.
Proof.
  intros H. apply (lo_dom _ _ _ _ Hlo). destruct (hold s tag q) as [x|]; [done|]. by simpl in H.
Qed.

(** The counts are zero when nobody who still counts conflicts. *)
Lemma remaining_total seen r :
  remaining_ok seen r ->
  total r <> 0 <-> exists q i, still seen q = true /\ i ∈ lockmodes /\
    DoLockModesConflict m i = true /\ holdb (hold s tag q) i = true.
Proof.
  intros Hr. split.
  - intros (i & Hi & Hc)%total_nonzero. pose proof (remaining_nonneg _ _ _ Hr Hi).
    destruct Hr as [_ Hr]. rewrite (Hr i Hi) in *. destruct (Z.testbit _ i) eqn:E; [|done].
    assert (Hpos : 0 < countb (fun q => still seen q && holdb (hold s tag q) i) (procLocks l)) by lia.
    apply countb_pos in Hpos as (q & Hq & [E2 E3]%andb_true_iff). exists q, i.
    by rewrite DoLockModesConflict_testbit.
  - intros (q & i & Hq & Hi & Hc & Hh) Ht.
    rewrite total_zero in Ht by eauto using remaining_nonneg. specialize (Ht i Hi).
    destruct Hr as [_ Hr]. rewrite Hr in Ht by done.
    rewrite DoLockModesConflict_testbit in Hc by done. rewrite Hc in Ht.
    assert (0 < countb (fun q => still seen q && holdb (hold s tag q) i) (procLocks l)); [|lia].
    apply countb_pos. exists q. split; [by eapply hold_in_procLocks|]. by rewrite Hq, Hh.
Qed.

Lemma remaining_init pl :
  proclocks s !! (tag, p) = Some pl ->
  remaining_ok [] (conflictsRemaining_init (conflictTab m) (holdMask pl) (granted l)).
Proof.
  intros Hpl. split; [done|]. intros i Hi. rewrite count_conflictsRemaining_init by done.
  destruct (Z.testbit (conflictTab m) i); [|done]. rewrite (lo_granted _ _ _ _ Hlo) by done.
  rewrite (countb_upd (fun q => holdb (hold s tag q) i)
             (fun q => still [] q && holdb (hold s tag q) i) p).
  - unfold still. rewrite (bool_decide_eq_false_2 (p <> p)) by tauto. simpl.
    rewrite (hold_Some _ _ _ _ Hpl). simpl. lia.
  - apply (lo_nodup_p _ _ _ _ Hlo).
  - apply (lo_dom _ _ _ _ Hlo). rewrite hold_is_Some, Hpl. by eexists.
  - intros q _ Hne. unfold still. by rewrite bool_decide_eq_true_2.
Qed.

Lemma remaining_step seen r q o :
  remaining_ok seen r -> q ∉ seen -> proclocks s !! (tag, q) = Some o -> q <> p ->
  leader_of s q = leader_of s p ->
  exists r', subtract_held (Z.land (holdMask o) (conflictTab m)) lockmodes r = Some r' /\
    remaining_ok (q :: seen) r'.
Proof.
  intros [Hlen Hr] Hns Ho Hne Hld.
  assert (Hq : q ∈ procLocks l).
  { apply (lo_dom _ _ _ _ Hlo). rewrite hold_is_Some, Ho. by eexists. }
  assert (Hcnt : forall i, countb (fun x => still (q :: seen) x && holdb (hold s tag x) i) (procLocks l)
    = countb (fun x => still seen x && holdb (hold s tag x) i) (procLocks l)
      - Z.b2z (Z.testbit (holdMask o) i)).
  { intros i. rewrite (countb_upd (fun x => still seen x && holdb (hold s tag x) i)
      (fun x => still (q :: seen) x && holdb (hold s tag x) i) q).
    - unfold still. rewrite (bool_decide_eq_true_2 (q <> p)) by done.
      rewrite (bool_decide_eq_false_2 (q ∈ seen)) by done.
      rewrite (bool_decide_eq_true_2 (q ∈ q :: seen)) by constructor.
      rewrite (bool_decide_eq_true_2 (leader_of s q = leader_of s p)) by done.
      rewrite (hold_Some _ _ _ _ Ho). simpl. lia.
    - apply (lo_nodup_p _ _ _ _ Hlo).
    - done.
    - intros x _ Hx. unfold still. f_equal. f_equal. f_equal. f_equal. apply bool_decide_ext.
      rewrite elem_of_cons. naive_solver. }
  destruct (subtract_held_spec (Z.land (holdMask o) (conflictTab m)) r lockmodes)
    as (r' & Hs & Hlen' & Hc); [done| |done| |].
  - by apply (bool_decide_unpack _); vm_compute.
  - intros i Hi. rewrite Z.land_spec. intros [H1 H2]%andb_true_iff. rewrite Hr, H2 by done.
    apply countb_pos. exists q. split; [done|]. unfold still.
    rewrite (bool_decide_eq_true_2 (q <> p)) by done.
    rewrite (bool_decide_eq_false_2 (q ∈ seen)) by done. by rewrite (hold_Some _ _ _ _ Ho).
  - exists r'. split; [done|]. split; [done|]. intros i Hi. rewrite (Hc i Hi).
    rewrite (bool_decide_eq_true_2 (i ∈ lockmodes)) by done. rewrite Hr, Z.land_spec by done.
    destruct (Z.testbit (conflictTab m) i); [|by rewrite andb_false_r]. rewrite andb_true_r.
    rewrite Hcnt. lia.
Qed.

Lemma remaining_skip seen r q :
  remaining_ok seen r ->
  (q = p \/ leader_of s q <> leader_of s p \/
   (forall i, i ∈ lockmodes -> Z.testbit (conflictTab m) i = true ->
      holdb (hold s tag q) i = false)) ->
  remaining_ok (q :: seen) r.
Proof.
  intros [Hlen Hr] Hq. split; [done|]. intros i Hi. rewrite Hr by done.
  destruct (Z.testbit (conflictTab m) i) eqn:Ec; [|done]. apply countb_ext. intros x _.
  unfold still. destruct (decide (x = q)) as [->|Hx].
  - destruct Hq as [->|[Hq|Hq]].
    + by rewrite (bool_decide_eq_false_2 (p <> p)) by tauto.
    + rewrite (bool_decide_eq_false_2 (leader_of s q = leader_of s p)) by done.
      by rewrite !andb_false_r.
    + rewrite (Hq i) by done. by rewrite !andb_false_r.
  - f_equal. f_equal. f_equal. f_equal. apply bool_decide_ext. rewrite elem_of_cons. naive_solver.
Qed.

Lemma LockCheckConflicts_group_spec seen others r :
  NoDup (seen ++ others) -> (forall q, q ∈ procLocks l <-> q ∈ seen ++ others) ->
  remaining_ok seen r -> total r <> 0 ->
  exists st, LockCheckConflicts_group (conflictTab m) p (leader_of s p) tag others r s = Some st /\
    (st = STATUS_OK /\ ~ conflicting s tag p m \/ st = STATUS_FOUND /\ conflicting s tag p m).
Proof.
  revert seen r. induction others as [|q others IH]; intros seen r Hnd Hall Hr Ht; cbn [LockCheckConflicts_group].
  - exists STATUS_FOUND. split; [done|]. right. split; [done|].
    apply (remaining_total _ _ Hr) in Ht as (q & i & Hst & Hi & Hc & Hh).
    exists q, i. split_and!; try done. intros Hld. unfold still in Hst.
    rewrite (bool_decide_eq_true_2 _ Hld), (bool_decide_eq_true_2 (q ∈ seen)) in Hst.
    + by rewrite andb_false_r in Hst.
    + rewrite <- (app_nil_r seen). by eapply Hall, hold_in_procLocks.
  - assert (Hq : is_Some (hold s tag q)).
    { apply (lo_dom _ _ _ _ Hlo), Hall. apply elem_of_app. right. constructor. }
    apply hold_is_Some in Hq as [o Ho]. rewrite Ho. cbn [mbind option_bind].
    rewrite (wf_leader _ _ Hwf _ _ _ Ho).
    assert (Hnd' : NoDup ((q :: seen) ++ others)).
    { revert Hnd. apply NoDup_Permutation_proper || idtac.
      by rewrite <- Permutation_middle. }
    assert (Hall' : forall x, x ∈ procLocks l <-> x ∈ (q :: seen) ++ others).
    { intros x. rewrite Hall. by rewrite <- Permutation_middle. }
    assert (Hns : q ∉ seen).
    { apply NoDup_cons in Hnd' as [H _]. intros ?. apply H, elem_of_app. by left. }
    destruct (bool_decide (q <> p) && bool_decide (leader_of s p = leader_of s q) &&
              negb (Z.land (holdMask o) (conflictTab m) =? 0)) eqn:E.
    + apply andb_true_iff in E as [E E3]. apply andb_true_iff in E as [E1 E2].
      apply bool_decide_eq_true in E1, E2.
      destruct (remaining_step seen r q o Hr Hns Ho E1 ltac:(done)) as (r' & -> & Hr').
      cbn [mbind option_bind].
      destruct (Z.eqb_spec (total r') 0) as [E0|E0]; [|by apply (IH (q :: seen))].
      exists STATUS_OK. split; [done|]. left. split; [done|].
      intros (x & i & Hld & Hi & Hc & Hh).
      enough (total r' <> 0) by done. apply (remaining_total _ _ Hr'). exists x, i.
      split_and!; try done. unfold still.
      rewrite (bool_decide_eq_false_2 (leader_of s x = leader_of s p)) by done.
      rewrite andb_false_r. rewrite bool_decide_eq_true_2; [done|]. by intros ->.
    + apply (IH (q :: seen)); [done|done| |done]. apply remaining_skip; [done|].
      apply andb_false_iff in E as [[E|E]%andb_false_iff|E].
      * apply bool_decide_eq_false in E. left. by destruct (decide (q = p)).
      * apply bool_decide_eq_false in E. right; left. congruence.
      * right; right. apply negb_false_iff, Z.eqb_eq in E. rewrite Z.land_comm in E.
        intros i Hi Hti. rewrite (hold_Some _ _ _ _ Ho). cbn.
        rewrite land_zero in E. apply E; [|done]. apply lockmodes_range in Hi. lia.
Qed.

(** The conflict check says whether a process of another lock group holds a
    conflicting lock, whoever calls it. *)
Lemma LockCheckConflicts_spec me :
  exists st, LockCheckConflicts me m tag (tag, p) s = Some st /\
    (st = STATUS_OK /\ ~ conflicting s tag p m \/ st = STATUS_FOUND /\ conflicting s tag p m).
Proof.
  destruct Hp as [pl Hpl]. unfold LockCheckConflicts. rewrite Hl, Hpl. cbn [mbind option_bind].
  destruct (Z.eqb_spec (Z.land (conflictTab m) (grantMask l)) 0) as [E|E].
  { exists STATUS_OK. split; [done|]. left. split; [done|]. intros (q & i & _ & Hi & Hc & Hh).
    rewrite land_conflict in E by done. specialize (E i Hi Hc).
    rewrite (lo_gmask_eq _ _ _ _ Hlo), (lo_granted _ _ _ _ Hlo) in E by done.
    apply Z.ltb_ge in E.
    assert (0 < countb (fun q => holdb (hold s tag q) i) (procLocks l)); [|lia].
    apply countb_pos. exists q. split; [by eapply hold_in_procLocks|done]. }
  pose proof (remaining_init pl Hpl) as Hr.
  destruct (Z.eqb_spec (total (conflictsRemaining_init (conflictTab m) (holdMask pl) (granted l))) 0)
    as [E0|E0].
  { exists STATUS_OK. split; [done|]. left. split; [done|]. intros (q & i & Hld & Hi & Hc & Hh).
    enough (total (conflictsRemaining_init (conflictTab m) (holdMask pl) (granted l)) <> 0) by done.
    apply (remaining_total _ _ Hr). exists q, i. split_and!; try done. unfold still.
    rewrite bool_decide_eq_true_2 by (by intros ->). by rewrite bool_decide_eq_false_2 by apply not_elem_of_nil. }
  rewrite (wf_leader _ _ Hwf _ _ _ Hpl).
  destruct (bool_decide (leader_of s p = me) && bool_decide (lockGroupLeader (procs s me) = None))
    eqn:Eme.
  - apply andb_true_iff in Eme as [Eld%bool_decide_eq_true Enone%bool_decide_eq_true].
    assert (Hsolo : forall q, leader_of s q = me -> q = me).
    { intros q. unfold leader_of. destruct (lockGroupLeader (procs s q)) as [g|] eqn:Eg; [|done].
      cbn. intros ->. apply (wf_group _ _ Hwf) in Eg as [Eg _]. by rewrite Enone in Eg. }
    pose proof (Hsolo p Eld) as <-. rewrite bool_decide_eq_true_2 by done.
    exists STATUS_FOUND. split; [done|]. right. split; [done|].
    apply (remaining_total _ _ Hr) in E0 as (q & i & Hst & Hi & Hc & Hh).
    exists q, i. split_and!; try done. rewrite Eld. intros Hq%Hsolo. unfold still in Hst.
    by rewrite bool_decide_eq_false_2 in Hst by tauto.
  - apply (LockCheckConflicts_group_spec []); [apply (lo_nodup_p _ _ _ _ Hlo)|done|done|done].
Qed.
End CheckConflicts.

(** ** How the counters of one LOCK change *)

Definition granted_lock (m : Z) (l : LOCK) : LOCK :=
  let g := bump m 1 (granted l) in
  MkLOCK (Z.lor (grantMask l) (LOCKBIT_ON m))
    (if count g m =? count (requested l) m then Z.land (waitMask l) (LOCKBIT_OFF m)
     else waitMask l)
    (procLocks l) (waitProcs l) (requested l) (nRequested l) g (nGranted l + 1).

Definition ungranted_lock (m : Z) (l : LOCK) : LOCK :=
  let g := bump m (-1) (granted l) in
  MkLOCK (if count g m =? 0 then Z.land (grantMask l) (LOCKBIT_OFF m) else grantMask l)
    (waitMask l) (procLocks l) (waitProcs l)
    (bump m (-1) (requested l)) (nRequested l - 1) g (nGranted l - 1).

Definition requested_lock (m d : Z) (l : LOCK) : LOCK :=
  MkLOCK (grantMask l) (waitMask l) (procLocks l) (waitProcs l)
    (bump m d (requested l)) (nRequested l + d) (granted l) (nGranted l).

Lemma lock_ok_ext l h h' w w' e e' :
  (forall q, h q = h' q) -> (forall q, q ∈ waitProcs l -> w q = w' q) -> (forall m, e m = e' m) ->
  lock_ok l h w e -> lock_ok l h' w' e'.
Proof.
  intros Hh Hw He H.
  assert (Hc : forall m, countb (fun p => w p =? m) (waitProcs l) =
                         countb (fun p => w' p =? m) (waitProcs l)).
  { intros m. apply countb_ext. intros q Hq. by rewrite (Hw q Hq). }
  split; try apply H.
  - intros p. rewrite (lo_dom _ _ _ _ H). by rewrite Hh.
  - intros m Hm. rewrite (lo_granted _ _ _ _ H) by done. apply countb_ext. intros q _. by rewrite Hh.
  - intros m Hm. rewrite (lo_requested _ _ _ _ H) by done. by rewrite Hc, He.
  - intros m Hm. rewrite (lo_wmask_eq _ _ _ _ H) by done. by rewrite Hc.
  - intros p mask. rewrite <- Hh. apply (lo_bits _ _ _ _ H).
  - intros p Hp. rewrite <- Hh, <- (Hw p Hp). by apply (lo_wait _ _ _ _ H).
Qed.

Lemma total_ge a i : (forall m, m ∈ lockmodes -> 0 <= count a m) -> i ∈ lockmodes -> count a i <= total a.
Proof.
  unfold total. induction lockmodes as [|k ks IH]; intros Hn Hi; [by apply elem_of_nil in Hi|].
  simpl. assert (Hn' : forall m, m ∈ ks -> 0 <= count a m) by (intros; apply Hn; by constructor).
  assert (Hk : 0 <= count a k) by (apply Hn; constructor).
  assert (0 <= foldr (fun i => Z.add (count a i)) 0 ks).
  { clear -Hn'. induction ks as [|j ks IH]; simpl; [lia|].
    pose proof (Hn' j ltac:(constructor)).
    specialize (IH (fun m' Hm' => Hn' m' ltac:(by constructor))). lia. }
  apply elem_of_cons in Hi as [->|Hi]; [lia|]. specialize (IH Hn' Hi). lia.
Qed.

Section LockOk.
Context (l : LOCK) (h : nat -> option Z) (w : nat -> Z) (e : Z -> Z) (p : nat) (m : Z).
Context (H : lock_ok l h w e) (Hm : m ∈ lockmodes).

Lemma lo_requested_ge i : i ∈ lockmodes -> 0 <= e i -> count (granted l) i <= count (requested l) i.
Proof.
  intros Hi He. rewrite (lo_requested _ _ _ _ H) by done.
  pose proof (countb_nonneg (fun q => w q =? i) (waitProcs l)). lia.
Qed.

(** Granting a request that was counted ([e]) or queued. *)
Lemma lock_ok_grant_counts x :
  h p = Some x -> Z.testbit x m = false ->
  let h' := <[p := Some (Z.lor x (LOCKBIT_ON m))]> h in
  (forall i, i ∈ lockmodes -> count (granted (granted_lock m l)) i =
     countb (fun q => holdb (h' q) i) (procLocks l)) /\
  (forall i, i ∈ lockmodes -> Z.testbit (grantMask (granted_lock m l)) i =
     (0 <? count (granted (granted_lock m l)) i)) /\
  (forall q, q ∈ procLocks l <-> is_Some (h' q)) /\
  (forall q mask, h' q = Some mask -> modes_only mask).
Proof.
  intros Hx Hb h'.
  assert (Hp : p ∈ procLocks l) by (apply (lo_dom _ _ _ _ H); by rewrite Hx; eexists).
  assert (Hh' : forall q, q <> p -> h' q = h q) by (intros; by apply fn_lookup_insert_ne).
  assert (Hhp : h' p = Some (Z.lor x (LOCKBIT_ON m))) by apply fn_lookup_insert.
  split_and!.
  - intros i Hi. cbn. rewrite count_bump by (done || apply H).
    rewrite (countb_upd (fun q => holdb (h q) i) (fun q => holdb (h' q) i) p);
      [|apply H|done|by intros q _ Hq; rewrite Hh'].
    rewrite (lo_granted _ _ _ _ H) by done. rewrite Hhp, Hx. cbn [holdb].
    rewrite testbit_lor_on by done. destruct (Z.eqb_spec m i) as [<-|].
    + rewrite Hb. simpl. lia.
    + rewrite orb_false_r. lia.
  - intros i Hi. cbn. rewrite testbit_lor_on, count_bump by (done || apply H).
    rewrite (lo_gmask_eq _ _ _ _ H) by done. pose proof (lo_count_nonneg _ _ _ _ i H Hi).
    destruct (Z.eqb_spec m i) as [<-|].
    + rewrite orb_true_r. symmetry. apply Z.ltb_lt. lia.
    + by rewrite orb_false_r, Z.add_0_r.
  - intros q. rewrite (lo_dom _ _ _ _ H). destruct (decide (q = p)) as [->|]; [|by rewrite Hh'].
    rewrite Hhp, Hx. split; by eexists.
  - intros q mask. destruct (decide (q = p)) as [->|]; [|rewrite Hh' by done; apply H].
    rewrite Hhp. intros [= <-]. apply modes_only_on; [done|]. by apply (lo_bits _ _ _ _ H p).
Qed.

Lemma lock_ok_grant x e' :
  h p = Some x -> Z.testbit x m = false -> (p ∈ waitProcs l -> w p <> m) ->
  e m = 1 -> (forall i, e' i = if m =? i then 0 else e i) ->
  lock_ok (granted_lock m l) (<[p := Some (Z.lor x (LOCKBIT_ON m))]> h) w e'.
Proof.
  intros Hx Hb Hw He He'. destruct (lock_ok_grant_counts x Hx Hb) as (G1 & G2 & G3 & G4).
  assert (Hreq : count (requested l) m = count (granted l) m +
    countb (fun q => w q =? m) (waitProcs l) + 1) by (rewrite (lo_requested _ _ _ _ H) by done; lia).
  split; try done; cbn; try apply H.
  - rewrite length_bump. apply H.
  - intros i Hi. rewrite count_bump by (done || apply H). rewrite (lo_requested _ _ _ _ H), He' by done.
    destruct (Z.eqb_spec m i) as [<-|]; lia.
  - rewrite total_bump by (done || apply H). by rewrite (lo_nGranted _ _ _ _ H).
  - apply modes_only_on; [done|apply H].
  - destruct (_ =? _); [apply modes_only_land|]; apply H.
  - intros i Hi. rewrite count_bump by (done || apply H). rewrite Z.eqb_refl.
    destruct (Z.eqb_spec (count (granted l) m + 1) (count (requested l) m)) as [E|E].
    + rewrite testbit_land_off by done. destruct (Z.eqb_spec m i) as [<-|].
      * rewrite andb_false_r. symmetry. apply Z.ltb_ge. lia.
      * rewrite andb_true_r. by apply H.
    + by apply H.
  - intros q Hq. destruct (lo_wait _ _ _ _ H q Hq) as (W1 & W2 & W3).
    destruct (decide (q = p)) as [->|]; [|by rewrite fn_lookup_insert_ne].
    rewrite fn_lookup_insert. split_and!; [by eexists|done|]. cbn.
    rewrite testbit_lor_on by done. rewrite Hx in W3. cbn in W3. rewrite W3.
    destruct (Z.eqb_spec m (w p)) as [->|]; [|done]. by destruct (Hw Hq).
Qed.

Lemma lock_ok_wakeup x :
  h p = Some x -> p ∈ waitProcs l -> w p = m -> (forall i, e i = 0) ->
  lock_ok (set_waitProcs (unlink p (waitProcs l)) (granted_lock m l))
    (<[p := Some (Z.lor x (LOCKBIT_ON m))]> h) w e.
Proof.
  intros Hx Hp Hw He.
  assert (Hb : Z.testbit x m = false).
  { destruct (lo_wait _ _ _ _ H p Hp) as (_ & _ & W3). by rewrite Hx, Hw in W3. }
  destruct (lock_ok_grant_counts x Hx Hb) as (G1 & G2 & G3 & G4).
  assert (Hu : forall i, countb (fun q => w q =? i) (unlink p (waitProcs l)) =
    countb (fun q => w q =? i) (waitProcs l) - (if m =? i then 1 else 0)).
  { intros i. rewrite countb_unlink by (done || apply H). rewrite Hw. destruct (m =? i); simpl; lia. }
  assert (Hreq := lo_requested _ _ _ _ H m Hm). rewrite He in Hreq.
  split; try done; cbn; try apply H.
  - rewrite length_bump. apply H.
  - apply NoDup_unlink, H.
  - intros i Hi. rewrite count_bump by (done || apply H). rewrite (lo_requested _ _ _ _ H), Hu by done.
    destruct (Z.eqb_spec m i) as [<-|]; lia.
  - rewrite total_bump by (done || apply H). by rewrite (lo_nGranted _ _ _ _ H).
  - apply modes_only_on; [done|apply H].
  - destruct (_ =? _); [apply modes_only_land|]; apply H.
  - intros i Hi. rewrite Hu, count_bump by (done || apply H). rewrite Z.eqb_refl.
    destruct (Z.eqb_spec (count (granted l) m + 1) (count (requested l) m)) as [E|E].
    + rewrite testbit_land_off by done. destruct (Z.eqb_spec m i) as [<-|].
      * rewrite andb_false_r. symmetry. apply Z.ltb_ge. lia.
      * rewrite andb_true_r, Z.sub_0_r. by apply H.
    + destruct (Z.eqb_spec m i) as [<-|].
      * rewrite (lo_wmask_eq _ _ _ _ H) by done.
        pose proof (countb_nonneg (fun q => w q =? m) (unlink p (waitProcs l))) as Hn.
        rewrite Hu, Z.eqb_refl in Hn.
        destruct (Z.ltb_spec 0 (countb (fun q => w q =? m) (waitProcs l))),
          (Z.ltb_spec 0 (countb (fun q => w q =? m) (waitProcs l) - 1)); lia.
      * rewrite Z.sub_0_r. by apply H.
  - intros q [Hq Hin]%elem_of_unlink. rewrite fn_lookup_insert_ne by done. by apply H.
Qed.

(** Releasing a lock that is held. *)
Lemma lock_ok_ungrant x :
  h p = Some x -> Z.testbit x m = true ->
  lock_ok (ungranted_lock m l) (<[p := Some (Z.land x (LOCKBIT_OFF m))]> h) w e.
Proof.
  intros Hx Hb. set (h' := <[p := _]> h).
  assert (Hp : p ∈ procLocks l) by (apply (lo_dom _ _ _ _ H); by rewrite Hx; eexists).
  assert (Hh' : forall q, q <> p -> h' q = h q) by (intros; by apply fn_lookup_insert_ne).
  assert (Hhp : h' p = Some (Z.land x (LOCKBIT_OFF m))) by apply fn_lookup_insert.
  assert (Hcnt : forall i, i ∈ lockmodes ->
    countb (fun q => holdb (h' q) i) (procLocks l) =
    countb (fun q => holdb (h q) i) (procLocks l) + (if m =? i then -1 else 0)).
  { intros i Hi. rewrite (countb_upd (fun q => holdb (h q) i) (fun q => holdb (h' q) i) p);
      [|apply H|done|by intros q _ Hq; rewrite Hh'].
    rewrite Hhp, Hx. cbn [holdb]. rewrite testbit_land_off by done.
    destruct (Z.eqb_spec m i) as [<-|]; [rewrite Hb; simpl; lia|].
    rewrite andb_true_r. lia. }
  split; cbn; try apply H.
  - rewrite length_bump. apply H.
  - rewrite length_bump. apply H.
  - intros q. rewrite (lo_dom _ _ _ _ H). destruct (decide (q = p)) as [->|]; [|by rewrite Hh'].
    rewrite Hhp, Hx. split; by eexists.
  - intros i Hi. rewrite count_bump, Hcnt by (done || apply H). by rewrite (lo_granted _ _ _ _ H).
  - intros i Hi. rewrite !count_bump by (done || apply H). rewrite (lo_requested _ _ _ _ H) by done. lia.
  - rewrite total_bump by (done || apply H). rewrite (lo_nGranted _ _ _ _ H). lia.
  - rewrite total_bump by (done || apply H). rewrite (lo_nRequested _ _ _ _ H). lia.
  - destruct (_ =? _); [apply modes_only_land|]; apply H.
  - intros i Hi. rewrite !count_bump by (done || apply H). rewrite Z.eqb_refl.
    destruct (Z.eqb_spec (count (granted l) m + -1) 0) as [E|E].
    + rewrite testbit_land_off by done. rewrite (lo_gmask_eq _ _ _ _ H) by done.
      destruct (Z.eqb_spec m i) as [<-|].
      * rewrite andb_false_r, E. done.
      * by rewrite andb_true_r, Z.add_0_r.
    + rewrite (lo_gmask_eq _ _ _ _ H) by done. destruct (Z.eqb_spec m i) as [<-|].
      * assert (0 <= count (granted l) m + -1).
        { rewrite (lo_granted _ _ _ _ H) by done. pose proof (Hcnt m Hm) as Hc.
          rewrite Z.eqb_refl in Hc. rewrite <- Hc. apply countb_nonneg. }
        destruct (Z.ltb_spec 0 (count (granted l) m)),
          (Z.ltb_spec 0 (count (granted l) m + -1)); lia.
      * by rewrite Z.add_0_r.
  - intros q mask. destruct (decide (q = p)) as [->|]; [|rewrite Hh' by done; apply H].
    rewrite Hhp. intros [= <-]. apply modes_only_land. by apply (lo_bits _ _ _ _ H p).
  - intros q Hq. destruct (lo_wait _ _ _ _ H q Hq) as (W1 & W2 & W3).
    destruct (decide (q = p)) as [->|]; [|by rewrite Hh'].
    rewrite Hhp. split_and!; [by eexists|done|]. cbn. rewrite Z.land_spec.
    rewrite Hx in W3. cbn in W3. by rewrite W3.
Qed.

(** A request more, or one less. *)
Lemma lock_ok_request d e' :
  (forall i, i ∈ lockmodes -> e' i = e i + if m =? i then d else 0) ->
  lock_ok (requested_lock m d l) h w e'.
Proof.
  intros He. split; cbn; try apply H.
  - rewrite length_bump. apply H.
  - intros i Hi. rewrite count_bump by (done || apply H). rewrite (lo_requested _ _ _ _ H) by done.
    rewrite (He i Hi). lia.
  - rewrite total_bump by (done || apply H). rewrite (lo_nRequested _ _ _ _ H). lia.
Qed.

Lemma lock_ok_add_proclock :
  h p = None -> lock_ok (set_procLocks (procLocks l ++ [p]) l) (<[p := Some 0]> h) w e.
Proof.
  intros Hx. assert (Hp : p ∉ procLocks l).
  { intros Hin%(lo_dom _ _ _ _ H). rewrite Hx in Hin. by destruct Hin. }
  assert (Hh' : forall q, q ∈ procLocks l -> (<[p := Some 0]> h : nat -> option Z) q = h q).
  { intros q Hq. apply fn_lookup_insert_ne. by intros ->. }
  split; cbn; try apply H.
  - apply NoDup_app. split; [apply H|]. split; [|apply NoDup_singleton].
    intros q Hq ->%list_elem_of_singleton. done.
  - intros q. rewrite elem_of_app, list_elem_of_singleton.
    destruct (decide (q = p)) as [->|Hne].
    + rewrite fn_lookup_insert. split; [by eexists|by right].
    + rewrite fn_lookup_insert_ne by done. rewrite <- (lo_dom _ _ _ _ H). tauto.
  - intros i Hi. rewrite countb_app. cbn. rewrite fn_lookup_insert. cbn. rewrite Z.bits_0. cbn.
    rewrite (lo_granted _ _ _ _ H), Z.add_0_r by done. apply countb_ext. intros q Hq. by rewrite Hh'.
  - intros q mask. destruct (decide (q = p)) as [->|Hne].
    + rewrite fn_lookup_insert. intros [= <-]. apply modes_only_0.
    + rewrite fn_lookup_insert_ne by done. apply H.
  - intros q Hq. destruct (lo_wait _ _ _ _ H q Hq) as (W1 & W2 & W3).
    rewrite Hh'; [done|]. by apply (lo_dom _ _ _ _ H).
Qed.

Lemma lock_ok_remove_proclock :
  h p = Some 0 -> p ∉ waitProcs l ->
  lock_ok (set_procLocks (unlink p (procLocks l)) l) (<[p := None]> h) w e.
Proof.
  intros Hx Hw. assert (Hp : p ∈ procLocks l) by (apply (lo_dom _ _ _ _ H); by rewrite Hx; eexists).
  assert (Hh' : forall q, q <> p -> (<[p := None]> h : nat -> option Z) q = h q).
  { intros q Hq. by apply fn_lookup_insert_ne. }
  split; cbn; try apply H.
  - apply NoDup_unlink, H.
  - intros q. rewrite elem_of_unlink, (lo_dom _ _ _ _ H).
    destruct (decide (q = p)) as [->|Hne]; [|rewrite Hh' by done; tauto].
    rewrite fn_lookup_insert. split; [tauto|]. by intros [].
  - intros i Hi. rewrite (lo_granted _ _ _ _ H) by done.
    rewrite (countb_ext _ (fun q => holdb (h q) i) (unlink p (procLocks l))).
    + rewrite countb_unlink by (done || apply H). rewrite Hx. cbn. rewrite Z.bits_0. cbn. lia.
    + intros q [Hq _]%elem_of_unlink. by rewrite Hh'.
  - intros q mask. destruct (decide (q = p)) as [->|Hne]; [by rewrite fn_lookup_insert|].
    rewrite Hh' by done. apply H.
  - intros q Hq. rewrite Hh' by (by intros ->). by apply H.
Qed.

Lemma lock_ok_enqueue wq w' e' :
  is_Some (h p) -> holdb (h p) m = false -> p ∉ waitProcs l -> wq ≡ₚ p :: waitProcs l ->
  w' p = m -> (forall q, q <> p -> w' q = w q) ->
  (forall i, e' i = e i - if m =? i then 1 else 0) ->
  lock_ok (set_waitMask (Z.lor (waitMask l) (LOCKBIT_ON m)) (set_waitProcs wq l)) h w' e'.
Proof.
  intros Hs Hb Hp Hwq Hwp Hw' He.
  assert (Hc : forall i, countb (fun q => w' q =? i) wq =
    countb (fun q => w q =? i) (waitProcs l) + if m =? i then 1 else 0).
  { intros i. rewrite Hwq. cbn. rewrite Hwp.
    rewrite (countb_ext _ (fun q => w q =? i) (waitProcs l)); [destruct (m =? i); simpl; lia|].
    intros q Hq. by rewrite Hw' by (by intros ->). }
  split; cbn; try apply H.
  - rewrite Hwq. constructor; [done|apply H].
  - intros i Hi. rewrite (lo_requested _ _ _ _ H), Hc, He by done. lia.
  - apply modes_only_on; [done|apply H].
  - intros i Hi. rewrite testbit_lor_on, Hc, (lo_wmask_eq _ _ _ _ H) by done.
    pose proof (countb_nonneg (fun q => w q =? i) (waitProcs l)).
    destruct (m =? i); [|by rewrite orb_false_r, Z.add_0_r].
    rewrite orb_true_r. symmetry. apply Z.ltb_lt. lia.
  - intros q. rewrite Hwq. intros [->|Hq]%elem_of_cons; [by rewrite Hwp|].
    rewrite Hw' by (by intros ->). by apply H.
Qed.

Definition dequeued_lock : LOCK :=
  let r := bump m (-1) (requested l) in
  MkLOCK (grantMask l)
    (if count (granted l) m =? count r m then Z.land (waitMask l) (LOCKBIT_OFF m)
     else waitMask l)
    (procLocks l) (unlink p (waitProcs l)) r (nRequested l - 1) (granted l) (nGranted l).

Lemma lock_ok_dequeue :
  p ∈ waitProcs l -> w p = m -> (forall i, e i = 0) -> lock_ok dequeued_lock h w e.
Proof.
  intros Hp Hw He.
  assert (Hu : forall i, countb (fun q => w q =? i) (unlink p (waitProcs l)) =
    countb (fun q => w q =? i) (waitProcs l) - (if m =? i then 1 else 0)).
  { intros i. rewrite countb_unlink by (done || apply H). rewrite Hw. destruct (m =? i); simpl; lia. }
  assert (Hreq := lo_requested _ _ _ _ H m Hm). rewrite He in Hreq.
  split; cbn; try apply H.
  - rewrite length_bump. apply H.
  - apply NoDup_unlink, H.
  - intros i Hi. rewrite count_bump by (done || apply H). rewrite (lo_requested _ _ _ _ H), Hu by done.
    destruct (Z.eqb_spec m i) as [<-|]; lia.
  - rewrite total_bump by (done || apply H). by rewrite (lo_nRequested _ _ _ _ H).
  - destruct (_ =? _); [apply modes_only_land|]; apply H.
  - intros i Hi. rewrite Hu, count_bump by (done || apply H). rewrite Z.eqb_refl.
    destruct (Z.eqb_spec (count (granted l) m) (count (requested l) m + -1)) as [E|E].
    + rewrite testbit_land_off by done. destruct (Z.eqb_spec m i) as [<-|].
      * rewrite andb_false_r. symmetry. apply Z.ltb_ge. lia.
      * rewrite andb_true_r, Z.sub_0_r. by apply H.
    + destruct (Z.eqb_spec m i) as [<-|].
      * rewrite (lo_wmask_eq _ _ _ _ H) by done.
        pose proof (countb_nonneg (fun q => w q =? m) (unlink p (waitProcs l))) as Hn.
        rewrite Hu, Z.eqb_refl in Hn.
        destruct (Z.ltb_spec 0 (countb (fun q => w q =? m) (waitProcs l))),
          (Z.ltb_spec 0 (countb (fun q => w q =? m) (waitProcs l) - 1)); lia.
      * rewrite Z.sub_0_r. by apply H.
  - intros q [_ Hq]%elem_of_unlink. by apply H.
Qed.

(** The wait queue in another order. *)
Lemma lock_ok_reorder wq : wq ≡ₚ waitProcs l -> lock_ok (set_waitProcs wq l) h w e.
Proof.
  intros Hwq. split; cbn; try apply H.
  - rewrite Hwq. apply H.
  - intros i Hi. rewrite Hwq. by apply H.
  - intros i Hi. rewrite Hwq. by apply H.
  - intros q. rewrite Hwq. apply H.
Qed.
End LockOk.

(** ** Changing one LOCK, its PROCLOCKs and one process *)

(** The wait queue of a tag, empty when there is no LOCK. *)
Definition queue_of (s : shared) (tag : LOCKTAG) : list nat :=
  match locks s !! tag with Some l => waitProcs l | None => [] end.

(** The ways in which the wait of [p] may change together with the queue. *)
Inductive wait_change (s s' : shared) (tag : LOCKTAG) (wq : list nat) (p : nat) : Prop :=
  | wait_same :
      links (procs s' p) = links (procs s p) -> waitStatus (procs s' p) = waitStatus (procs s p) ->
      waitLock (procs s' p) = waitLock (procs s p) ->
      waitProcLock (procs s' p) = waitProcLock (procs s p) ->
      waitLockMode (procs s' p) = waitLockMode (procs s p) ->
      (p ∈ wq <-> p ∈ queue_of s tag) -> wait_change s s' tag wq p
  | wait_joins :
      links (procs s p) = false -> waits (procs s' p) tag p -> p ∈ wq -> wait_change s s' tag wq p
  | wait_leaves :
      p ∈ queue_of s tag -> links (procs s' p) = false -> p ∉ wq -> wait_change s s' tag wq p.

Lemma wf_frame pend pend' s s' tag l' p :
  wf pend s ->
  locks s' = <[tag := l']> (locks s) ->
  (forall t q, (t, q) <> (tag, p) -> proclocks s' !! (t, q) = proclocks s !! (t, q)) ->
  (forall q, q <> p -> procs s' q = procs s q) ->
  lockGroupLeader (procs s' p) = lockGroupLeader (procs s p) ->
  lockGroupMembers (procs s' p) = lockGroupMembers (procs s p) ->
  lock_ok l' (hold s' tag) (fun q => waitLockMode (procs s' q)) (extra_of pend' tag) ->
  (forall t, t <> tag -> extra_of pend' t = extra_of pend t) ->
  (forall q, q <> p -> q ∈ waitProcs l' <-> q ∈ queue_of s tag) ->
  wait_change s s' tag (waitProcs l') p ->
  (forall part t, t ∈ myProcLocks (procs s' p) part <->
     part = partition_of t /\ is_Some (proclocks s' !! (t, p))) ->
  (forall part, NoDup (myProcLocks (procs s' p) part)) ->
  (forall pl, proclocks s' !! (tag, p) = Some pl -> groupLeader pl = leader_of s p) ->
  0 < locktag_lockmethodid tag < 3 ->
  (forall t q m, pend' = Some (t, q, m) ->
     t = tag /\ m ∈ lockmodes /\ holdb (hold s' t q) m = false /\
     (q ∈ waitProcs l' -> waitLockMode (procs s' q) <> m)) ->
  wf pend' s'.
Proof.
  intros H Hlocks Hpls Hprocs Hgl Hgm Hok Hext Hq Hw Hmine Hnd Hld Hmet Hpend.
  assert (Htag : locks s' !! tag = Some l') by (rewrite Hlocks; apply lookup_insert_eq).
  assert (Hother : forall t, t <> tag -> locks s' !! t = locks s !! t).
  { intros t Ht. rewrite Hlocks. by apply lookup_insert_ne. }
  assert (Hhold : forall t q, (t, q) <> (tag, p) -> hold s' t q = hold s t q).
  { intros t q Hne. unfold hold. by rewrite Hpls. }
  assert (Hqs : forall t l q, t <> tag -> locks s !! t = Some l -> q ∈ waitProcs l ->
            waits (procs s' q) t q /\ waitLockMode (procs s' q) = waitLockMode (procs s q)).
  { intros t l q Ht Hl Hin. pose proof (wf_queue _ _ H _ _ _ Hl Hin) as Wq.
    destruct (decide (q = p)) as [->|Hne]; [|by rewrite Hprocs].
    destruct Hw as [W1 W2 W3 W4 W5 _|W1 _ _|W1 _ _].
    - destruct Wq. split; [|done]. split; congruence.
    - destruct Wq. congruence.
    - unfold queue_of in W1. destruct (locks s !! tag) as [l0|] eqn:E0; [|by apply elem_of_nil in W1].
      pose proof (wf_queue _ _ H _ _ _ E0 W1) as W0. destruct Wq, W0. congruence. }
  assert (Hlead : forall q, leader_of s' q = leader_of s q).
  { intros q. unfold leader_of. destruct (decide (q = p)) as [->|]; [by rewrite Hgl|by rewrite Hprocs]. }
  split.
  - intros t l. destruct (decide (t = tag)) as [->|Ht]; [rewrite Htag; by intros [= <-]|].
    rewrite Hother by done. intros Hl. pose proof (wf_lock _ _ H _ _ Hl) as Hl0.
    eapply lock_ok_ext; [..|apply Hl0].
    + intros q. by rewrite Hhold by congruence.
    + intros q Hin. cbn. by destruct (Hqs t l q Ht Hl Hin) as [_ ->].
    + intros m. by rewrite Hext.
  - intros t q. destruct (decide (t = tag)) as [->|Ht]; [rewrite Htag; by eexists|].
    rewrite Hother by done. rewrite Hpls by congruence. apply (wf_orphan _ _ H).
  - intros t l q. destruct (decide (t = tag)) as [->|Ht].
    + rewrite Htag. intros [= <-] Hin. destruct (decide (q = p)) as [->|Hne].
      * destruct Hw as [W1 W2 W3 W4 W5 W6|_ W2 _|_ _ W3]; [|done|done].
        apply W6 in Hin. unfold queue_of in Hin.
        destruct (locks s !! tag) as [l0|] eqn:E0; [|by apply elem_of_nil in Hin].
        destruct (wf_queue _ _ H _ _ _ E0 Hin). split; congruence.
      * rewrite Hprocs by done. apply Hq in Hin; [|done]. unfold queue_of in Hin.
        destruct (locks s !! tag) as [l0|] eqn:E0; [|by apply elem_of_nil in Hin].
        by apply (wf_queue _ _ H _ _ _ E0).
    + rewrite Hother by done. intros Hl Hin. by apply (Hqs t l q).
  - intros q Hlk. destruct (decide (q = p)) as [->|Hne].
    + destruct Hw as [W1 _ _ _ _ W6|_ _ W3|_ W2 _]; [|by exists tag, l'|congruence].
      rewrite W1 in Hlk. destruct (wf_links _ _ H p Hlk) as (t & l & Hl & Hin).
      destruct (decide (t = tag)) as [->|Ht].
      * exists tag, l'. split; [done|]. apply W6. unfold queue_of. by rewrite Hl.
      * exists t, l. by rewrite Hother.
    + rewrite Hprocs in Hlk by done. destruct (wf_links _ _ H q Hlk) as (t & l & Hl & Hin).
      destruct (decide (t = tag)) as [->|Ht].
      * exists tag, l'. split; [done|]. apply Hq; [done|]. unfold queue_of. by rewrite Hl.
      * exists t, l. by rewrite Hother.
  - intros q part t. destruct (decide (q = p)) as [->|Hne]; [apply Hmine|].
    rewrite Hprocs by done. rewrite Hpls by congruence. apply (wf_mine _ _ H).
  - intros q part. destruct (decide (q = p)) as [->|Hne]; [apply Hnd|].
    rewrite Hprocs by done. apply (wf_mine_nodup _ _ H).
  - intros t q pl. rewrite Hlead. destruct (decide ((t, q) = (tag, p))) as [[= -> ->]|Hne].
    + apply Hld.
    + rewrite Hpls by done. apply (wf_leader _ _ H).
  - intros q g. assert (Hg : forall q, lockGroupLeader (procs s' q) = lockGroupLeader (procs s q)).
    { intros x. destruct (decide (x = p)) as [->|]; [done|by rewrite Hprocs]. }
    assert (Hm : forall q, lockGroupMembers (procs s' q) = lockGroupMembers (procs s q)).
    { intros x. destruct (decide (x = p)) as [->|]; [done|by rewrite Hprocs]. }
    rewrite !Hg, Hm. apply (wf_group _ _ H).
  - intros g q. assert (Hg : forall q, lockGroupLeader (procs s' q) = lockGroupLeader (procs s q)).
    { intros x. destruct (decide (x = p)) as [->|]; [done|by rewrite Hprocs]. }
    assert (Hm : forall q, lockGroupMembers (procs s' q) = lockGroupMembers (procs s q)).
    { intros x. destruct (decide (x = p)) as [->|]; [done|by rewrite Hprocs]. }
    rewrite Hg, Hm. apply (wf_members _ _ H).
  - intros t. destruct (decide (t = tag)) as [->|Ht]; [done|]. rewrite Hother by done.
    apply (wf_method _ _ H).
  - intros t q m Hp. destruct (Hpend t q m Hp) as (-> & P1 & P2 & P3). split_and!; [done..|].
    intros l. rewrite Htag. by intros [= <-].
Qed.

End Hash.

End LockInv.
