(* ===== verification/LockOps.v ===== *)
(** * The routines of the shared lock table keep its invariant

    For every routine of [Lock]: it does not fail an Assert or follow a
    dangling pointer, what it changes, and that the invariant [good] of
    [LockInv] holds again when the partition lock is released. *)

From S2P Require Import Prelude.
From S2P Require Import Lock.
From S2P Require Import LockInv.
From stdpp Require Import list.

Import Lock LockInv.

Open Scope Z_scope.

Module LockOps.

Section Hash.
Context {lockhash : LockHash}.

(** ** Small facts *)

Lemma queue_of_Some s tag l : locks s !! tag = Some l -> queue_of s tag = waitProcs l.
Proof. unfold queue_of. by intros ->. Qed.

Lemma hold_insert s tag p pl t q :
  hold (put_proclock (tag, p) pl s) t q =
  if bool_decide ((t, q) = (tag, p)) then Some (holdMask pl) else hold s t q.
Proof.
  unfold hold. cbn. case_bool_decide as E.
  - rewrite E. by rewrite lookup_insert_eq.
  - by rewrite lookup_insert_ne.
Qed.

(** What a grant does to the table. *)
Definition grant_state (tag : LOCKTAG) (p : nat) (m : Z) (l : LOCK) (pl : PROCLOCK) (s : shared)
  : shared :=
  put_proclock (tag, p) (set_holdMask (Z.lor (holdMask pl) (LOCKBIT_ON m)) pl)
    (put_lock tag (granted_lock m l) s).

Lemma GrantLock_eq tag p m l pl s :
  locks s !! tag = Some l -> proclocks s !! (tag, p) = Some pl ->
  0 < nGranted l + 1 -> 0 < count (granted (granted_lock m l)) m -> nGranted l + 1 <= nRequested l ->
  GrantLock tag (tag, p) m s = Some (grant_state tag p m l pl s).
Proof.
  intros Hl Hpl H1 H2 H3. unfold GrantLock. rewrite Hl, Hpl. cbn [mbind option_bind].
  change (MkLOCK _ _ _ _ _ _ _ _) with (granted_lock m l).
  apply Z.ltb_lt in H1, H2. apply Z.leb_le in H3. cbn [nGranted nRequested granted_lock] in *.
  by rewrite H1, H2, H3.
Qed.

(** The asserts of [GrantLock]: there is a request that is not granted. *)
Lemma GrantLock_asserts l h w e m :
  lock_ok l h w e -> m ∈ lockmodes -> (forall i, i ∈ lockmodes -> 0 <= e i) ->
  0 < countb (fun q => w q =? m) (waitProcs l) + e m ->
  0 < nGranted l + 1 /\ 0 < count (granted (granted_lock m l)) m /\ nGranted l + 1 <= nRequested l.
Proof.
  intros H Hm He Hpos. pose proof (fun i Hi => lo_count_nonneg _ _ _ _ i H Hi) as Hn.
  rewrite (lo_nGranted _ _ _ _ H), (lo_nRequested _ _ _ _ H).
  pose proof (total_nonneg _ Hn). cbn. rewrite count_bump, Z.eqb_refl by (done || apply H).
  pose proof (Hn m Hm). split_and!; [lia..|].
  rewrite <- (total_bump (granted l) m 1) by (done || apply H). apply total_le. intros i Hi.
  rewrite count_bump by (done || apply H). rewrite (lo_requested _ _ _ _ H) by done.
  pose proof (countb_nonneg (fun q => w q =? i) (waitProcs l)). pose proof (He i Hi).
  destruct (Z.eqb_spec m i) as [<-|]; lia.
Qed.

Lemma extra_of_nonneg pend tag i : 0 <= extra_of pend tag i.
Proof. unfold extra_of. destruct pend as [[[? ?] ?]|]; [|lia]. by destruct (_ && _). Qed.

Lemma extra_of_self tag p m i : extra_of (Some (tag, p, m)) tag i = if m =? i then 1 else 0.
Proof. unfold extra_of. by rewrite bool_decide_eq_true_2. Qed.

Lemma extra_of_other tag p m t : t <> tag -> extra_of (Some (tag, p, m)) t = extra_of None t.
Proof. intros H. unfold extra_of. by rewrite bool_decide_eq_false_2 by done. Qed.

(** How an operation on [tag] for process [p] shows from outside. *)
Record grows (s s' : shared) : Prop := {
  gr_leader : forall q, leader_of s' q = leader_of s q;
  gr_hold : forall t q m, holdb (hold s t q) m = true -> holdb (hold s' t q) m = true }.

Lemma conflicting_grows s s' tag p m : grows s s' -> conflicting s tag p m -> conflicting s' tag p m.
Proof.
  intros G (q & i & Hld & Hi & Hc & Hh). exists q, i. rewrite !(gr_leader _ _ G).
  split_and!; try done. by apply (gr_hold _ _ G).
Qed.

Lemma grows_trans s1 s2 s3 : grows s1 s2 -> grows s2 s3 -> grows s1 s3.
Proof.
  intros [L1 H1] [L2 H2]. split; [intros; by rewrite L2, L1|auto].
Qed.

(** Waiters stay blocked when the locks held only grow and the queues stay. *)
Lemma blocked_grows ex s s' :
  grows s s' ->
  (forall t l', locks s' !! t = Some l' -> ex <> Some t ->
     exists l, locks s !! t = Some l /\ waitProcs l' = waitProcs l /\
       forall q, q ∈ waitProcs l -> waitLockMode (procs s' q) = waitLockMode (procs s q)) ->
  blocked ex s -> blocked ex s'.
Proof.
  intros G Hq B tag l' ahead p rest Hl' Hex Hw.
  destruct (Hq tag l' Hl' Hex) as (l & Hl & Hwl & Hm). rewrite Hwl in Hw.
  assert (Hp : p ∈ waitProcs l) by (rewrite Hw; apply elem_of_app; right; constructor).
  rewrite (Hm p Hp). destruct (B tag l ahead p rest Hl Hex Hw) as [(q & Hin & Hc)|Hc].
  - left. exists q. split; [done|]. rewrite Hm; [done|]. rewrite Hw. apply elem_of_app. by left.
  - right. by eapply conflicting_grows.
Qed.

(** Granting a mode that conflicts with nobody else's locks. *)
Lemma excl_grant s s' tag p m :
  excl s -> ~ conflicting s tag p m -> m ∈ lockmodes ->
  (forall q, leader_of s' q = leader_of s q) ->
  (forall t q i, holdb (hold s' t q) i = true ->
     holdb (hold s t q) i = true \/ t = tag /\ q = p /\ i = m) ->
  excl s'.
Proof.
  intros E Hc Hm Hld Hh t q1 q2 i1 i2 Hne Hi1 Hi2 H1 H2. rewrite !Hld in Hne.
  apply Hh in H1, H2.
  destruct H1 as [H1|(-> & -> & ->)], H2 as [H2|(H2t & H2q & H2i)].
  - by apply (E t q1 q2).
  - subst. rewrite DoLockModesConflict_sym by done.
    destruct (DoLockModesConflict m i1) eqn:Ec; [|done]. destruct Hc. by exists q1, i1.
  - destruct (DoLockModesConflict m i2) eqn:Ec; [|done]. destruct Hc. exists q2, i2.
    split_and!; done.
  - subst. done.
Qed.

Lemma hold_grant s tag p m l pl t q i :
  proclocks s !! (tag, p) = Some pl -> m ∈ lockmodes ->
  holdb (hold (grant_state tag p m l pl s) t q) i =
  holdb (hold s t q) i || bool_decide ((t, q) = (tag, p)) && (m =? i).
Proof.
  intros Hpl Hm. unfold grant_state. rewrite hold_insert. case_bool_decide as E.
  - simplify_eq. rewrite (hold_Some _ _ _ _ Hpl). cbn. by apply testbit_lor_on.
  - by rewrite orb_false_r.
Qed.

Lemma grows_grant s tag p m l pl :
  proclocks s !! (tag, p) = Some pl -> m ∈ lockmodes -> grows s (grant_state tag p m l pl s).
Proof.
  intros Hpl Hm. split; [done|]. intros t q i H. rewrite hold_grant by done. by rewrite H.
Qed.

(** ** Granting *)

Lemma hold_put tag p pl s q :
  (<[p := Some (holdMask pl)]> (hold s tag) : nat -> option Z) q =
  hold (put_proclock (tag, p) pl s) tag q.
Proof.
  rewrite hold_insert. destruct (decide (q = p)) as [->|Hne].
  - by rewrite fn_lookup_insert, bool_decide_eq_true_2.
  - rewrite fn_lookup_insert_ne by done. rewrite bool_decide_eq_false_2; [done|]. congruence.
Qed.

(** Changing the counters of a LOCK and the mask of one of its PROCLOCKs. *)
Lemma wf_frame_hold pend pend' s tag l l' p pl pl' :
  wf pend s -> locks s !! tag = Some l -> proclocks s !! (tag, p) = Some pl ->
  groupLeader pl' = groupLeader pl -> waitProcs l' = waitProcs l ->
  lock_ok l' (<[p := Some (holdMask pl')]> (hold s tag)) (fun q => waitLockMode (procs s q))
    (extra_of pend' tag) ->
  (forall t, t <> tag -> extra_of pend' t = extra_of pend t) ->
  (forall t q m, pend' = Some (t, q, m) ->
     t = tag /\ m ∈ lockmodes /\
     holdb (hold (put_proclock (tag, p) pl' (put_lock tag l' s)) t q) m = false /\
     (q ∈ waitProcs l' -> waitLockMode (procs s q) <> m)) ->
  wf pend' (put_proclock (tag, p) pl' (put_lock tag l' s)).
Proof.
  intros H Hl Hpl Hg Hw Hok Hext Hpend.
  apply (wf_frame pend pend' s _ tag l' p); try done.
  - intros t q Hne. cbn. by rewrite lookup_insert_ne.
  - eapply lock_ok_ext; [..|apply Hok]; [|done..]. intros q. exact (hold_put tag p pl' (put_lock tag l' s) q).
  - intros q _. by rewrite Hw, (queue_of_Some _ _ _ Hl).
  - apply wait_same; try done. by rewrite Hw, (queue_of_Some _ _ _ Hl).
  - intros part t. cbn. rewrite (wf_mine _ _ H). destruct (decide (t = tag)) as [->|Hne].
    + rewrite lookup_insert_eq, Hpl. split; intros [? _]; (split; [done|by eexists]).
    + by rewrite lookup_insert_ne by congruence.
  - apply (wf_mine_nodup _ _ H).
  - intros x. cbn. rewrite lookup_insert_eq. intros [= <-]. rewrite Hg.
    by apply (wf_leader _ _ H) in Hpl.
  - apply (wf_method _ _ H). by rewrite Hl.
Qed.

Lemma GrantLock_pending s tag p m l pl :
  wf (Some (tag, p, m)) s -> locks s !! tag = Some l -> proclocks s !! (tag, p) = Some pl ->
  GrantLock tag (tag, p) m s = Some (grant_state tag p m l pl s) /\
  wf None (grant_state tag p m l pl s).
Proof.
  intros H Hl Hpl. destruct (wf_pend _ _ H _ _ _ eq_refl) as (Hm & Hh & Hw).
  pose proof (wf_lock _ _ H _ _ Hl) as Hok.
  destruct (GrantLock_asserts _ _ _ _ m Hok Hm) as (A1 & A2 & A3).
  { intros. apply extra_of_nonneg. }
  { rewrite extra_of_self, Z.eqb_refl.
    pose proof (countb_nonneg (fun q => waitLockMode (procs s q) =? m) (waitProcs l)). lia. }
  split; [by apply GrantLock_eq|]. rewrite (hold_Some _ _ _ _ Hpl) in Hh. cbn in Hh.
  eapply wf_frame_hold; [done..| |by intros; symmetry; apply extra_of_other|done].
  eapply lock_ok_grant; [done|done|by apply hold_Some|done|..].
  - intros Hin. by apply (Hw l).
  - by rewrite extra_of_self, Z.eqb_refl.
  - intros i. rewrite extra_of_self. by destruct (m =? i).
Qed.

(** ** Waking up one waiter *)

Definition woken (x : PGPROC) : PGPROC := set_wait false STATUS_OK None None (waitLockMode x) x.

Definition wakeup_state (tag : LOCKTAG) (p : nat) (l : LOCK) (pl : PROCLOCK) (s : shared) : shared :=
  let m := waitLockMode (procs s p) in
  let s1 := grant_state tag p m l pl s in
  put_proc p (woken (procs s p))
    (put_lock tag (set_waitProcs (unlink p (waitProcs l)) (granted_lock m l)) s1).

Lemma wakeup_one s tag p l pl :
  wf None s -> locks s !! tag = Some l -> p ∈ waitProcs l -> proclocks s !! (tag, p) = Some pl ->
  let m := waitLockMode (procs s p) in
  (s1 ← GrantLock tag (tag, p) m s; ProcWakeup p STATUS_OK s1) = Some (wakeup_state tag p l pl s) /\
  wf None (wakeup_state tag p l pl s).
Proof.
  intros H Hl Hp Hpl m. pose proof (wf_lock _ _ H _ _ Hl) as Hok.
  destruct (lo_wait _ _ _ _ Hok p Hp) as (_ & Hm & Hh). fold m in Hm, Hh.
  destruct (wf_queue _ _ H _ _ _ Hl Hp) as [W1 W2 W3 W4].
  destruct (GrantLock_asserts _ _ _ _ m Hok Hm) as (A1 & A2 & A3); [done| |].
  { rewrite Z.add_0_r. apply countb_pos. exists p. split; [done|apply Z.eqb_refl]. }
  split.
  - rewrite (GrantLock_eq tag p m l pl s) by done. cbn [mbind option_bind].
    unfold ProcWakeup. cbn [procs grant_state put_proclock put_lock].
    rewrite W1, W2, W3. cbn [andb mbind option_bind bool_decide status_eq].
    rewrite bool_decide_eq_true_2 by done. cbn [locks grant_state put_proclock put_lock].
    rewrite lookup_insert_eq. cbn [mbind option_bind]. done.
  - apply (wf_frame None None s _ tag (set_waitProcs (unlink p (waitProcs l)) (granted_lock m l)) p);
      try done.
    + cbn. by rewrite insert_insert_eq.
    + intros t q Hne. cbn. by rewrite lookup_insert_ne.
    + intros q Hne. cbn. by rewrite fn_lookup_insert_ne.
    + cbn. by rewrite fn_lookup_insert.
    + cbn. by rewrite fn_lookup_insert.
    + eapply lock_ok_ext; [..|eapply (lock_ok_wakeup l _ _ _ p m Hok Hm)];
        [| | |by apply hold_Some|done|done|done].
      * intros q. apply (hold_put tag p (set_holdMask (Z.lor (holdMask pl) (LOCKBIT_ON m)) pl) s).
      * intros q _. cbn. destruct (decide (q = p)) as [->|Hne];
          [by rewrite fn_lookup_insert|by rewrite fn_lookup_insert_ne].
      * done.
    + intros q Hne. cbn. rewrite elem_of_unlink, (queue_of_Some _ _ _ Hl). tauto.
    + apply wait_leaves; [by rewrite (queue_of_Some _ _ _ Hl)|cbn; by rewrite fn_lookup_insert|].
      cbn. rewrite elem_of_unlink. tauto.
    + intros part t. cbn. rewrite fn_lookup_insert. cbn. rewrite (wf_mine _ _ H).
      destruct (decide (t = tag)) as [->|Hne].
      * rewrite lookup_insert_eq, Hpl. split; intros [? _]; (split; [done|by eexists]).
      * by rewrite lookup_insert_ne by congruence.
    + intros part. cbn. rewrite fn_lookup_insert. apply (wf_mine_nodup _ _ H).
    + intros x. cbn. rewrite lookup_insert_eq. intros [= <-]. by apply (wf_leader _ _ H) in Hpl.
    + apply (wf_method _ _ H). by rewrite Hl.
Qed.

(** ** Waking up every waiter that can go on *)

(** What a wakeup of the waiters of [tag] may do. *)
Record wakes (tag : LOCKTAG) (s s' : shared) : Prop := {
  wk_locks : forall t, t <> tag -> locks s' !! t = locks s !! t;
  wk_lock : forall l, locks s !! tag = Some l ->
    exists l', locks s' !! tag = Some l' /\ procLocks l' = procLocks l /\
      sublist (waitProcs l') (waitProcs l);
  wk_proc : forall q, procs s' q = procs s q \/
    q ∈ queue_of s tag /\ q ∉ queue_of s' tag /\ procs s' q = woken (procs s q);
  wk_hold : forall t q i, holdb (hold s' t q) i = true -> holdb (hold s t q) i = true \/
    t = tag /\ q ∈ queue_of s tag /\ q ∉ queue_of s' tag /\ i = waitLockMode (procs s q);
  wk_woken : forall q, q ∈ queue_of s tag -> q ∉ queue_of s' tag ->
    holdb (hold s' tag q) (waitLockMode (procs s q)) = true /\ procs s' q = woken (procs s q);
  wk_grows : grows s s';
  wk_other : forall t q, t <> tag -> proclocks s' !! (t, q) = proclocks s !! (t, q);
  wk_dom : forall t q, is_Some (proclocks s' !! (t, q)) <-> is_Some (proclocks s !! (t, q)) }.

Lemma wakes_refl tag s : wakes tag s s.
Proof.
  split.
  - done.
  - intros l Hl. by exists l.
  - by left.
  - by left.
  - done.
  - by split.
  - done.
  - done.
Qed.

Lemma wakes_queue tag s s' q :
  is_Some (locks s !! tag) -> wakes tag s s' -> q ∈ queue_of s' tag -> q ∈ queue_of s tag.
Proof.
  intros [l Hl] W Hq. destruct (wk_lock _ _ _ W l Hl) as (l' & Hl' & _ & Hs).
  rewrite (queue_of_Some _ _ _ Hl') in Hq. rewrite (queue_of_Some _ _ _ Hl).
  eapply elem_of_submseteq; [done|by apply sublist_submseteq].
Qed.

Lemma wakes_trans tag s1 s2 s3 :
  is_Some (locks s1 !! tag) -> wakes tag s1 s2 -> wakes tag s2 s3 -> wakes tag s1 s3.
Proof.
  intros H1 W1 W2. pose proof H1 as [l1 Hl1].
  destruct (wk_lock _ _ _ W1 l1 Hl1) as (l2 & Hl2 & Hp2 & Hs2).
  destruct (wk_lock _ _ _ W2 l2 Hl2) as (l3 & Hl3 & Hp3 & Hs3).
  assert (H2 : is_Some (locks s2 !! tag)) by (rewrite Hl2; by eexists).
  split.
  - intros t Ht. rewrite (wk_locks _ _ _ W2), (wk_locks _ _ _ W1); done.
  - intros l. rewrite Hl1. intros [= <-]. exists l3. split; [done|]. split; [congruence|].
    by transitivity (waitProcs l2).
  - intros q. destruct (wk_proc _ _ _ W2 q) as [E2|(Q1 & Q2 & Q3)].
    + rewrite E2. destruct (wk_proc _ _ _ W1 q) as [E1|(R1 & R2 & R3)]; [by left|right].
      split_and!; [done| |done]. intros Hq. by apply R2, (wakes_queue tag s2 s3).
    + right. split_and!; [by apply (wakes_queue tag s1 s2)|done|]. rewrite Q3.
      destruct (wk_proc _ _ _ W1 q) as [->|(R1 & R2 & R3)]; done.
  - intros t q i Hi. apply (wk_hold _ _ _ W2) in Hi as [Hi|(-> & Q1 & Q2 & Q3)].
    + apply (wk_hold _ _ _ W1) in Hi as [Hi|(-> & R1 & R2 & R3)]; [by left|right].
      split_and!; [done..| |done]. intros Hq. by apply R2, (wakes_queue tag s2 s3).
    + right. split_and!; [done|by apply (wakes_queue tag s1 s2)|done|].
      destruct (wk_proc _ _ _ W1 q) as [<-|(R1 & R2 & R3)]; done.
  - intros q Q1 Q3. destruct (decide (q ∈ queue_of s2 tag)) as [Q2|Q2].
    + destruct (wk_proc _ _ _ W1 q) as [Ep|(_ & ? & _)]; [|done].
      rewrite <- Ep. by apply (wk_woken _ _ _ W2).
    + destruct (wk_woken _ _ _ W1 q Q1 Q2) as [Hh Ep]. split; [by apply (wk_grows _ _ _ W2)|].
      rewrite <- Ep. destruct (wk_proc _ _ _ W2 q) as [?|(? & _)]; done.
  - exact (grows_trans _ _ _ (wk_grows _ _ _ W1) (wk_grows _ _ _ W2)).
  - intros t q Ht. by rewrite (wk_other _ _ _ W2), (wk_other _ _ _ W1).
  - intros t q. by rewrite (wk_dom _ _ _ W2), (wk_dom _ _ _ W1).
Qed.

Lemma hold_wakeup s tag p l pl t q i :
  proclocks s !! (tag, p) = Some pl -> waitLockMode (procs s p) ∈ lockmodes ->
  holdb (hold (wakeup_state tag p l pl s) t q) i =
  holdb (hold s t q) i || bool_decide ((t, q) = (tag, p)) && (waitLockMode (procs s p) =? i).
Proof. apply hold_grant. Qed.

Lemma wakeup_wakes s tag p l pl :
  wf None s -> locks s !! tag = Some l -> p ∈ waitProcs l -> proclocks s !! (tag, p) = Some pl ->
  wakes tag s (wakeup_state tag p l pl s).
Proof.
  intros H Hl Hp Hpl. pose proof (wf_lock _ _ H _ _ Hl) as Hok.
  destruct (lo_wait _ _ _ _ Hok p Hp) as (_ & Hm & _).
  assert (Hnew : locks (wakeup_state tag p l pl s) !! tag =
    Some (set_waitProcs (unlink p (waitProcs l)) (granted_lock (waitLockMode (procs s p)) l))).
  { cbn. by rewrite lookup_insert_eq. }
  assert (Hout : p ∉ queue_of (wakeup_state tag p l pl s) tag).
  { rewrite (queue_of_Some _ _ _ Hnew). cbn. rewrite elem_of_unlink. tauto. }
  split.
  - intros t Ht. cbn. by rewrite !lookup_insert_ne.
  - intros l0. rewrite Hl. intros [= <-]. eexists. split; [apply Hnew|]. split; [done|].
    cbn. unfold unlink. clear. induction (waitProcs l) as [|x xs IH]; [constructor|].
    rewrite filter_cons. case_decide; by constructor.
  - intros q. cbn. destruct (decide (q = p)) as [->|Hne]; [right|left].
    + split_and!; [by rewrite (queue_of_Some _ _ _ Hl)|done|]. by rewrite fn_lookup_insert.
    + by rewrite fn_lookup_insert_ne.
  - intros t q i. rewrite hold_wakeup by done. intros [?|[E1 E2]%andb_true_iff]%orb_true_iff; [by left|].
    apply bool_decide_eq_true in E1. apply Z.eqb_eq in E2. simplify_eq. right.
    split_and!; [done|by rewrite (queue_of_Some _ _ _ Hl)|done|done].
  - intros q. rewrite (queue_of_Some _ _ _ Hl), (queue_of_Some _ _ _ Hnew). cbn.
    rewrite elem_of_unlink. intros Q1 Q2. assert (q = p) as ->.
    { destruct (decide (q = p)) as [|Hne]; [done|]. by destruct Q2. }
    rewrite fn_lookup_insert. split; [|done].
    rewrite hold_wakeup by done. by rewrite Z.eqb_refl, bool_decide_eq_true_2, orb_true_r.
  - split.
    + intros q. unfold leader_of. cbn. destruct (decide (q = p)) as [->|Hne];
        [by rewrite fn_lookup_insert|by rewrite fn_lookup_insert_ne].
    + intros t q i Hi. rewrite hold_wakeup by done. by rewrite Hi.
  - intros t q Ht. cbn. rewrite lookup_insert_ne; [done|congruence].
  - intros t q. cbn. destruct (decide ((t, q) = (tag, p))) as [[= -> ->]|Hne].
    + rewrite lookup_insert_eq, Hpl. split; by eexists.
    + by rewrite lookup_insert_ne.
Qed.

(** A member of the queue [q] after [pre] has a reason to wait. *)
Definition reason (s : shared) (tag : LOCKTAG) (pre : list nat) (q : nat) : Prop :=
  behind s pre (waitLockMode (procs s q)) \/ conflicting s tag q (waitLockMode (procs s q)).

Definition reasons (s : shared) (tag : LOCKTAG) (wq : list nat) : Prop :=
  forall pre q post, wq = pre ++ q :: post -> reason s tag pre q.

Lemma reasons_grows s s' tag wq :
  grows s s' -> (forall q, q ∈ wq -> waitLockMode (procs s' q) = waitLockMode (procs s q)) ->
  reasons s tag wq -> reasons s' tag wq.
Proof.
  intros G Hm R pre q post ->. unfold reason.
  assert (Hq : q ∈ pre ++ q :: post) by (apply elem_of_app; right; constructor).
  rewrite (Hm q Hq). destruct (R pre q post eq_refl) as [(x & Hx & Hc)|Hc].
  - left. exists x. split; [done|]. rewrite Hm; [done|]. apply elem_of_app. by left.
  - right. by eapply conflicting_grows.
Qed.

Lemma reasons_snoc s tag wq q : reasons s tag wq -> reason s tag wq q -> reasons s tag (wq ++ [q]).
Proof.
  intros R Hq pre x post E. destruct (decide (post = [])) as [->|Hne].
  - apply app_inj_tail in E as [<- <-]. done.
  - destruct (exists_last Hne) as (post' & y & ->). rewrite app_comm_cons, app_assoc in E.
    apply app_inj_tail in E as [-> _]. by eapply R.
Qed.

(** [aheadRequests] holds the modes the processes in [ahead] wait for. *)
Definition mask_of (s : shared) (ahead : list nat) (mask : Z) : Prop :=
  forall m, m ∈ lockmodes ->
    Z.testbit mask m = true <-> exists q, q ∈ ahead /\ waitLockMode (procs s q) = m.

Lemma mask_behind s ahead mask m :
  mask_of s ahead mask -> m ∈ lockmodes -> (forall q, q ∈ ahead -> waitLockMode (procs s q) ∈ lockmodes) ->
  Z.land (conflictTab m) mask = 0 <-> ~ behind s ahead m.
Proof.
  intros Hmask Hm Hall. rewrite land_conflict by done. split.
  - intros H (q & Hq & Hc). specialize (H _ (Hall q Hq) Hc).
    enough (Z.testbit mask (waitLockMode (procs s q)) = true) by congruence.
    apply Hmask; [by apply Hall|]. by exists q.
  - intros H i Hi Hc. destruct (Z.testbit mask i) eqn:E; [|done].
    apply Hmask in E as (q & Hq & <-); [|done]. destruct H. by exists q.
Qed.

Lemma mask_of_snoc s ahead mask q :
  mask_of s ahead mask -> waitLockMode (procs s q) ∈ lockmodes ->
  mask_of s (ahead ++ [q]) (Z.lor mask (LOCKBIT_ON (waitLockMode (procs s q)))).
Proof.
  intros H Hq m Hm. rewrite testbit_lor_on, orb_true_iff, (H m Hm), Z.eqb_eq by done. split.
  - intros [(x & Hx & <-)|<-].
    + exists x. split; [|done]. apply elem_of_app. by left.
    + exists q. split; [|done]. apply elem_of_app. right. constructor.
  - intros (x & [Hx| ->%list_elem_of_singleton]%elem_of_app & <-); [left; by exists x|by right].
Qed.

Lemma tidy_wakeup ex s tag p l pl :
  wf None s -> locks s !! tag = Some l -> p ∈ waitProcs l -> proclocks s !! (tag, p) = Some pl ->
  tidy ex s -> tidy ex (wakeup_state tag p l pl s).
Proof.
  intros H Hl Hp Hpl [T1 T2]. pose proof (wf_lock _ _ H _ _ Hl) as Hok.
  destruct (lo_wait _ _ _ _ Hok p Hp) as (_ & Hm & _).
  split.
  - intros t q x Hx Hex. cbn in Hx. destruct (decide ((t, q) = (tag, p))) as [[= -> ->]|Hne].
    + left. rewrite lookup_insert_eq in Hx. injection Hx as <-. cbn. intros H0.
      pose proof (testbit_lor_on (holdMask pl) _ (waitLockMode (procs s p)) Hm) as Hb.
      by rewrite H0, Z.bits_0, Z.eqb_refl, orb_true_r in Hb.
    + rewrite lookup_insert_ne in Hx by done. destruct (T1 t q x Hx Hex) as [?|(l0 & Hl0 & Hq)]; [by left|].
      right. cbn. destruct (decide (t = tag)) as [->|Ht].
      * eexists. split; [apply lookup_insert_eq|]. cbn. apply elem_of_unlink. simplify_eq.
        split; [congruence|done].
      * exists l0. by rewrite !lookup_insert_ne.
  - intros t l0. cbn. destruct (decide (t = tag)) as [->|Ht].
    + rewrite lookup_insert_eq. intros [= <-] Hex. by apply (T2 tag l).
    + rewrite !lookup_insert_ne by done. apply T2.
Qed.

Lemma unlink_mid (ahead queue : list nat) p :
  NoDup (ahead ++ p :: queue) -> unlink p (ahead ++ p :: queue) = ahead ++ queue.
Proof.
  intros (_ & Hd & [Hq _]%NoDup_cons)%NoDup_app. unfold unlink. rewrite filter_app, filter_cons_False by tauto.
  f_equal; [|by apply (unlink_notin p queue)].
  apply (unlink_notin p ahead). intros Ha. apply (Hd p Ha). constructor.
Qed.

(** One waiter of [ProcLockWakeup_loop]: its test is exact. *)
Lemma wakeup_test me tag l ahead p queue mask s :
  wf None s -> locks s !! tag = Some l -> waitProcs l = ahead ++ p :: queue ->
  mask_of s ahead mask ->
  let m := waitLockMode (procs s p) in
  exists st, (if Z.land (conflictTab m) mask =? 0 then LockCheckConflicts me m tag (tag, p) s
              else Some STATUS_FOUND) = Some st /\
    (st = STATUS_OK /\ ~ conflicting s tag p m /\ ~ behind s ahead m \/
     st = STATUS_FOUND /\ reason s tag ahead p).
Proof.
  intros H Hl Hq Hmask m. pose proof (wf_lock _ _ H _ _ Hl) as Hok.
  assert (Hp : p ∈ waitProcs l) by (rewrite Hq; apply elem_of_app; right; constructor).
  destruct (lo_wait _ _ _ _ Hok p Hp) as (Hs%hold_is_Some & Hm & _).
  assert (Hall : forall q, q ∈ ahead -> waitLockMode (procs s q) ∈ lockmodes).
  { intros q Hin. apply (lo_wait _ _ _ _ Hok). rewrite Hq. apply elem_of_app. by left. }
  pose proof (mask_behind s ahead mask m Hmask Hm Hall) as Hb.
  destruct (Z.eqb_spec (Z.land (conflictTab m) mask) 0) as [E|E].
  - destruct (LockCheckConflicts_spec None s tag l p m H Hl Hm Hs me) as (st & Hst & [[-> Hc]|[-> Hc]]);
      eexists; (split; [done|]); [left; split_and!; [done..|by apply Hb]|]. right. split; [done|]. by right.
  - exists STATUS_FOUND. split; [done|]. right. split; [done|]. left.
    destruct (decide (Exists (fun q => DoLockModesConflict m (waitLockMode (procs s q)) = true) ahead))
      as [Hx|Hx].
    + apply list.Exists_exists in Hx as (q & Hx'). by exists q.
    + destruct E. apply Hb. intros (q & Hx'). by apply Hx, list.Exists_exists; exists q.
Qed.

(** Nobody is woken up past a waiter that his request conflicts with. *)
Definition fair (tag : LOCKTAG) (s s' : shared) : Prop :=
  forall pre q post p, queue_of s tag = pre ++ q :: post -> q ∉ queue_of s' tag ->
    p ∈ pre -> p ∈ queue_of s' tag ->
    DoLockModesConflict (waitLockMode (procs s q)) (waitLockMode (procs s p)) = false.

Lemma unlink_app (x : nat) (a b : list nat) : unlink x (a ++ b) = unlink x a ++ unlink x b.
Proof. unfold unlink. apply filter_app. Qed.

Lemma unlink_cons_ne (x y : nat) (a : list nat) : y <> x -> unlink x (y :: a) = y :: unlink x a.
Proof. intros Hne. unfold unlink. by rewrite filter_cons_True. Qed.

Lemma split_unique (x : nat) (l1 l2 k1 k2 : list nat) :
  NoDup (l1 ++ x :: l2) -> l1 ++ x :: l2 = k1 ++ x :: k2 -> l1 = k1 /\ l2 = k2.
Proof.
  revert k1. induction l1 as [|y l1 IH]; intros [|z k1] Hnd E; cbn in *.
  - by injection E as ->.
  - injection E as -> ->. apply NoDup_cons in Hnd as [Hx _]. destruct Hx. apply elem_of_app. right. constructor.
  - injection E as -> <-. apply NoDup_cons in Hnd as [Hx _]. destruct Hx. apply elem_of_app. right. constructor.
  - injection E as -> E. apply NoDup_cons in Hnd as [_ Hnd]. by destruct (IH k1 Hnd E) as [-> ->].
Qed.

Lemma fair_wakeup tag s s2 s' ahead p queue :
  queue_of s tag = ahead ++ p :: queue -> NoDup (ahead ++ p :: queue) ->
  queue_of s2 tag = ahead ++ queue -> p ∉ queue_of s' tag ->
  (forall q, waitLockMode (procs s2 q) = waitLockMode (procs s q)) ->
  ~ behind s ahead (waitLockMode (procs s p)) -> fair tag s2 s' -> fair tag s s'.
Proof.
  intros Hq Hnd Hq2 Hp Hmode Hb Hf pre q post r E Hqn Hr Hrin. rewrite Hq in E.
  destruct (decide (q = p)) as [->|Hne].
  - destruct (split_unique p ahead queue pre post Hnd E) as [<- _].
    destruct (DoLockModesConflict _ _) eqn:Ec; [|done]. destruct Hb. by exists r.
  - rewrite <- !Hmode. apply (Hf (unlink p pre) q (unlink p post) r); [|done| |done].
    + rewrite Hq2, <- (unlink_mid ahead queue p Hnd), E, unlink_app, unlink_cons_ne by done. done.
    + apply elem_of_unlink. split; [|done]. by intros ->.
Qed.

Lemma ProcLockWakeup_loop_spec me tag ex queue : forall ahead mask s l,
  wf None s -> excl s -> tidy ex s -> locks s !! tag = Some l -> waitProcs l = ahead ++ queue ->
  mask_of s ahead mask -> reasons s tag ahead ->
  exists s', ProcLockWakeup_loop me tag queue mask s = Some s' /\
    wf None s' /\ excl s' /\ tidy ex s' /\ wakes tag s s' /\ reasons s' tag (queue_of s' tag) /\
    fair tag s s'.
Proof.
  induction queue as [|p queue IH]; intros ahead mask s l H E T Hl Hq Hmask HR;
    cbn [ProcLockWakeup_loop].
  - exists s. split_and!; try done; [apply wakes_refl| |].
    + rewrite (queue_of_Some _ _ _ Hl), Hq, app_nil_r. done.
    + intros pre q post r E' Hn. destruct Hn. rewrite E'. apply elem_of_app. right. constructor.
  - assert (Hp : p ∈ waitProcs l) by (rewrite Hq; apply elem_of_app; right; constructor).
    pose proof (wf_lock _ _ H _ _ Hl) as Hok.
    destruct (lo_wait _ _ _ _ Hok p Hp) as ([pl Hpl]%hold_is_Some & Hm & _).
    destruct (wf_queue _ _ H _ _ _ Hl Hp) as [_ _ _ W4]. rewrite W4. cbn [mbind option_bind].
    destruct (wakeup_test me tag l ahead p queue mask s H Hl Hq Hmask) as (st & -> & Hst).
    cbn [mbind option_bind]. destruct Hst as [(-> & Hc & Hbeh)|[-> Hr]].
    + rewrite bool_decide_eq_true_2 by done.
      destruct (wakeup_one s tag p l pl H Hl Hp Hpl) as [Hw H2].
      set (s2 := wakeup_state tag p l pl s) in *.
      assert (Hstep : forall k : shared -> option shared,
        (s1 ← GrantLock tag (tag, p) (waitLockMode (procs s p)) s;
         s2 ← ProcWakeup p STATUS_OK s1; k s2) = k s2).
      { intros k. destruct (GrantLock _ _ _ _) as [s1|]; [|done].
        cbn [mbind option_bind] in Hw |- *. by rewrite Hw. }
      rewrite Hstep.
      pose proof (wakeup_wakes s tag p l pl H Hl Hp Hpl) as W. fold s2 in W.
      set (l2 := set_waitProcs (unlink p (waitProcs l)) (granted_lock (waitLockMode (procs s p)) l)).
      assert (Hl2 : locks s2 !! tag = Some l2) by (cbn; by rewrite lookup_insert_eq).
      assert (Hq2 : waitProcs l2 = ahead ++ queue).
      { cbn. rewrite Hq. apply unlink_mid. rewrite <- Hq. apply Hok. }
      assert (Hmode : forall q, waitLockMode (procs s2 q) = waitLockMode (procs s q)).
      { intros q. cbn. destruct (decide (q = p)) as [->|Hne];
          [by rewrite fn_lookup_insert|by rewrite fn_lookup_insert_ne]. }
      destruct (IH ahead mask s2 l2) as (s' & Hs' & R1 & R2 & R3 & R4 & R5 & R6); [done| | |done|done|..].
      * eapply (excl_grant s s2 tag p (waitLockMode (procs s p))); [done..|apply W|].
        intros t q i. unfold s2. rewrite hold_wakeup by done.
        intros [?|[E1 E2]%andb_true_iff]%orb_true_iff; [by left|right].
        apply bool_decide_eq_true in E1. apply Z.eqb_eq in E2. by simplify_eq.
      * by apply tidy_wakeup.
      * intros i Hi. rewrite (Hmask i Hi). by setoid_rewrite Hmode.
      * eapply reasons_grows; [apply W|by intros; apply Hmode|done].
      * exists s'. split_and!; try done; [eapply wakes_trans; [by eexists|done|done]|].
        assert (Hnd : NoDup (ahead ++ p :: queue)) by (rewrite <- Hq; apply Hok).
        eapply (fair_wakeup tag s s2 s' ahead p queue); try done.
        -- by rewrite (queue_of_Some _ _ _ Hl).
        -- by rewrite (queue_of_Some _ _ _ Hl2).
        -- intros Hin%(wakes_queue tag s2 s'); [|by eexists|done].
           rewrite (queue_of_Some _ _ _ Hl2), Hq2, <- (unlink_mid ahead queue p Hnd) in Hin.
           by apply elem_of_unlink in Hin as [? _].
    + rewrite bool_decide_eq_false_2 by done. eapply (IH (ahead ++ [p]) _ s l); try done.
      * by rewrite <- app_assoc.
      * by apply mask_of_snoc.
      * by apply reasons_snoc.
Qed.

(** [ProcLockWakeup] leaves no waiter that could go on. *)
Lemma ProcLockWakeup_spec me tag s :
  wf None s -> excl s -> tidy None s -> blocked (Some tag) s -> is_Some (locks s !! tag) ->
  exists s', ProcLockWakeup me tag s = Some s' /\ good s' /\ wakes tag s s' /\ fair tag s s'.
Proof.
  intros H E T B [l Hl]. unfold ProcLockWakeup. rewrite Hl. cbn [mbind option_bind].
  destruct (ProcLockWakeup_loop_spec me tag None (waitProcs l) [] 0 s l)
    as (s' & Hs' & R1 & R2 & R3 & R4 & R5 & R6); try done.
  - intros m Hm. rewrite Z.bits_0. split; [done|]. intros (q & Hq & _). by apply elem_of_nil in Hq.
  - intros pre q post Hx. by destruct pre.
  - exists s'. split; [done|]. split; [|done]. split; [done..|].
    intros t l' ahead p rest Hl' _ Hwq. destruct (decide (t = tag)) as [->|Ht].
    + apply (R5 ahead p rest). by rewrite (queue_of_Some _ _ _ Hl').
    + eapply (blocked_grows (Some tag) s s'); [apply R4| |done|done|congruence|done].
      intros t0 l0 Hl0 Hne. exists l0. rewrite <- (wk_locks _ _ _ R4) by congruence.
      split; [done|]. split; [done|]. intros q Hq.
      destruct (wk_proc _ _ _ R4 q) as [->|(_ & _ & ->)]; done.
Qed.

(** ** Releasing *)

Definition ungrant_state (tag : LOCKTAG) (p : nat) (m : Z) (l : LOCK) (pl : PROCLOCK) (s : shared)
  : shared :=
  put_proclock (tag, p) (set_holdMask (Z.land (holdMask pl) (LOCKBIT_OFF m)) pl)
    (put_lock tag (ungranted_lock m l) s).

(** The lock whose waiters have to be looked at. *)
Definition wake_ex (wakeupNeeded : bool) (tag : LOCKTAG) : option LOCKTAG :=
  if wakeupNeeded then Some tag else None.

Lemma hold_ungrant s tag p m l pl t q i :
  proclocks s !! (tag, p) = Some pl -> m ∈ lockmodes -> i ∈ lockmodes ->
  holdb (hold (ungrant_state tag p m l pl s) t q) i =
  holdb (hold s t q) i && negb (bool_decide ((t, q) = (tag, p)) && (m =? i)).
Proof.
  intros Hpl Hm Hi. unfold ungrant_state. rewrite hold_insert. case_bool_decide as E.
  - simplify_eq. rewrite (hold_Some _ _ _ _ Hpl). cbn. by apply testbit_land_off.
  - by rewrite andb_true_r.
Qed.

Lemma UnGrantLock_spec s tag p m l pl :
  wf None s -> locks s !! tag = Some l -> proclocks s !! (tag, p) = Some pl ->
  m ∈ lockmodes -> Z.testbit (holdMask pl) m = true ->
  exists w, UnGrantLock tag m (tag, p) s = Some (w, ungrant_state tag p m l pl s) /\
    wf None (ungrant_state tag p m l pl s) /\
    (w = false -> forall q, q ∈ waitProcs l ->
       DoLockModesConflict m (waitLockMode (procs s q)) = false).
Proof.
  intros H Hl Hpl Hm Hb. pose proof (wf_lock _ _ H _ _ Hl) as Hok.
  assert (Hhold := hold_Some _ _ _ _ Hpl).
  assert (Hg : 0 < count (granted l) m).
  { rewrite (lo_granted _ _ _ _ Hok) by done. apply countb_pos. exists p. rewrite Hhold.
    split; [|done]. apply (lo_dom _ _ _ _ Hok). rewrite Hhold. by eexists. }
  assert (Hr : forall i, i ∈ lockmodes -> count (granted l) i <= count (requested l) i).
  { intros i Hi. by apply (lo_requested_ge l _ _ _ Hok). }
  pose proof (fun i Hi => lo_count_nonneg _ _ _ _ i Hok Hi) as Hn.
  pose proof (total_ge (granted l) m Hn Hm). pose proof (total_le _ _ Hr). pose proof (Hr m Hm).
  eexists. split; [|split].
  - unfold UnGrantLock. rewrite Hl, Hpl. cbn [mbind option_bind].
    rewrite (lo_nGranted _ _ _ _ Hok), (lo_nRequested _ _ _ _ Hok).
    rewrite (proj2 (Z.ltb_lt 0 (total (requested l)))), (proj2 (Z.ltb_lt 0 (count (requested l) m))),
      (proj2 (Z.ltb_lt 0 (total (granted l)))), (proj2 (Z.ltb_lt 0 (count (granted l) m))),
      (proj2 (Z.leb_le _ _)) by lia. cbn [andb].
    rewrite <- (lo_nGranted _ _ _ _ Hok), <- (lo_nRequested _ _ _ _ Hok). reflexivity.
  - eapply wf_frame_hold; [done..| |done|done].
    eapply lock_ok_ext; [..|eapply (lock_ok_ungrant l _ _ _ p m Hok Hm); done]; [|done..].
    done.
  - intros Hw q Hq. apply negb_false_iff, Z.eqb_eq in Hw. rewrite land_conflict in Hw by done.
    destruct (lo_wait _ _ _ _ Hok q Hq) as (_ & Hqm & _).
    destruct (DoLockModesConflict m _) eqn:E; [|done]. specialize (Hw _ Hqm E).
    rewrite (lo_wmask_eq _ _ _ _ Hok) in Hw by done. apply Z.ltb_ge in Hw.
    enough (0 < countb (fun x => waitLockMode (procs s x) =? waitLockMode (procs s q)) (waitProcs l))
      by lia.
    apply countb_pos. exists q. split; [done|apply Z.eqb_refl].
Qed.

Lemma excl_ungrant s tag p m l pl :
  proclocks s !! (tag, p) = Some pl -> m ∈ lockmodes -> excl s -> excl (ungrant_state tag p m l pl s).
Proof.
  intros Hpl Hm E t p1 p2 m1 m2 Hne H1 H2. rewrite !hold_ungrant by done.
  intros [X1 _]%andb_true_iff [X2 _]%andb_true_iff. by apply (E t p1 p2).
Qed.

Lemma tidy_ungrant s tag p m l pl :
  locks s !! tag = Some l ->
  tidy (Some (tag, p)) s -> tidy (Some (tag, p)) (ungrant_state tag p m l pl s).
Proof.
  intros Hl [T1 T2]. split.
  - intros t q x Hx Hex. cbn in Hx. rewrite lookup_insert_ne in Hx by congruence.
    destruct (T1 t q x Hx Hex) as [?|(l0 & Hl0 & Hq)]; [by left|right].
    destruct (decide (t = tag)) as [->|Ht].
    + exists (ungranted_lock m l). simplify_eq. split; [apply lookup_insert_eq|done].
    + exists l0. split; [by cbn; rewrite lookup_insert_ne|done].
  - intros t l0 Hl0 Hex. destruct (decide (t = tag)) as [->|Ht]; [by destruct (Hex p)|].
    cbn in Hl0. rewrite lookup_insert_ne in Hl0 by done. by apply (T2 t).
Qed.

Lemma tidy_weaken k s : tidy None s -> tidy (Some k) s.
Proof.
  intros [T1 T2]. split; [|by intros; apply (T2 tag)]. intros t q x Hx _. by apply (T1 t q x).
Qed.

Lemma blocked_weaken tag s : blocked None s -> blocked (Some tag) s.
Proof. intros B t l ahead p rest Hl _. by apply (B t l). Qed.

Lemma blocked_ungrant s tag p m l pl w0 w :
  wf None s -> locks s !! tag = Some l -> proclocks s !! (tag, p) = Some pl -> m ∈ lockmodes ->
  (w = false -> forall q, q ∈ waitProcs l -> DoLockModesConflict m (waitLockMode (procs s q)) = false) ->
  blocked (wake_ex w0 tag) s -> blocked (wake_ex (w || w0) tag) (ungrant_state tag p m l pl s).
Proof.
  intros H Hl Hpl Hm Hw B t l' ahead q rest Hl' Hex Hwq.
  assert (Hold : exists l0, locks s !! t = Some l0 /\ waitProcs l0 = waitProcs l').
  { cbn in Hl'. destruct (decide (t = tag)) as [->|Ht].
    - rewrite lookup_insert_eq in Hl'. injection Hl' as <-. by exists l.
    - rewrite lookup_insert_ne in Hl' by done. by exists l'. }
  destruct Hold as (l0 & Hl0 & Hwl). rewrite <- Hwl in Hwq.
  assert (Hex0 : wake_ex w0 tag <> Some t).
  { destruct w0; [|done]. rewrite orb_true_r in Hex. done. }
  destruct (B t l0 ahead q rest Hl0 Hex0 Hwq) as [Hb|(x & i & Hld & Hi & Hc & Hh)]; [by left|right].
  exists x, i. split_and!; try done. rewrite hold_ungrant, Hh by done. apply negb_true_iff.
  destruct (decide ((t, x) = (tag, p) /\ m = i)) as [[[= -> ->] <-]|Hne].
  - exfalso. destruct w; [by destruct Hex|]. assert (l0 = l) as -> by congruence.
    assert (Hq : q ∈ waitProcs l) by (rewrite Hwq; apply elem_of_app; right; constructor).
    specialize (Hw eq_refl q Hq). pose proof (wf_lock _ _ H _ _ Hl) as Hok.
    destruct (lo_wait _ _ _ _ Hok q Hq) as (_ & Hqm & _).
    rewrite DoLockModesConflict_sym in Hw by done. cbn in Hc. congruence.
  - destruct (Z.eqb_spec m i); [|by rewrite andb_false_r]. rewrite bool_decide_eq_false_2; [done|tauto].
Qed.

(** Taking an empty PROCLOCK out. *)
Lemma remove_proclock_spec s tag p l pl :
  wf None s -> locks s !! tag = Some l -> proclocks s !! (tag, p) = Some pl -> holdMask pl = 0 ->
  p ∉ waitProcs l ->
  exists s', remove_proclock (tag, p) s = Some s' /\ wf None s' /\
    locks s' = <[tag := set_procLocks (unlink p (procLocks l)) l]> (locks s) /\
    proclocks s' = delete (tag, p) (proclocks s) /\
    (forall q, q <> p -> procs s' q = procs s q) /\
    procs s' p = set_myProcLocks (myProcLocks (procs s' p)) (procs s p).
Proof.
  intros H Hl Hpl H0 Hnw. unfold remove_proclock. rewrite Hpl. cbn [fst snd]. rewrite Hl.
  cbn [mbind option_bind]. eexists. split; [reflexivity|].
  pose proof (wf_lock _ _ H _ _ Hl) as Hok.
  split; [|split; [done|split; [done|split]]].
  - apply (wf_frame None None s _ tag (set_procLocks (unlink p (procLocks l)) l) p); try done.
    + intros t q Hne. cbn. by rewrite lookup_delete_ne.
    + intros q Hne. cbn. by rewrite fn_lookup_insert_ne.
    + cbn. by rewrite fn_lookup_insert.
    + cbn. by rewrite fn_lookup_insert.
    + eapply lock_ok_ext; [..|eapply (lock_ok_remove_proclock l (hold s tag) _ _ p Hok)].
      * intros q. unfold hold. cbn. destruct (decide (q = p)) as [->|Hne].
        -- by rewrite fn_lookup_insert, lookup_delete_eq.
        -- rewrite fn_lookup_insert_ne by done. by rewrite lookup_delete_ne by congruence.
      * intros q Hq. cbn in *. rewrite fn_lookup_insert_ne; [done|]. by intros ->.
      * done.
      * by rewrite (hold_Some _ _ _ _ Hpl), H0.
      * done.
    + intros q _. by rewrite (queue_of_Some _ _ _ Hl).
    + apply wait_same; cbn; try by rewrite fn_lookup_insert. by rewrite (queue_of_Some _ _ _ Hl).
    + intros part t. cbn. rewrite fn_lookup_insert. cbn.
      destruct (decide (part = partition_of tag)) as [->|Hpart].
      * rewrite fn_lookup_insert, elem_of_unlink, (wf_mine _ _ H).
        destruct (decide (t = tag)) as [->|Hne].
        -- rewrite lookup_delete_eq. split; [tauto|]. by intros [_ []].
        -- rewrite lookup_delete_ne by congruence. tauto.
      * rewrite fn_lookup_insert_ne by done. rewrite (wf_mine _ _ H).
        destruct (decide (t = tag)) as [->|Hne]; [tauto|]. by rewrite lookup_delete_ne by congruence.
    + intros part. cbn. rewrite fn_lookup_insert. cbn.
      destruct (decide (part = partition_of tag)) as [->|Hpart].
      * rewrite fn_lookup_insert. apply NoDup_unlink, (wf_mine_nodup _ _ H).
      * rewrite fn_lookup_insert_ne by done. apply (wf_mine_nodup _ _ H).
    + intros x. cbn. by rewrite lookup_delete_eq.
    + apply (wf_method _ _ H). by rewrite Hl.
  - intros q Hne. cbn. by rewrite fn_lookup_insert_ne.
  - cbn. by rewrite fn_lookup_insert.
Qed.

(** ** Cleaning up after a release *)

(** What an operation on [tag] may do to the table, its own process [ex] apart:
    it wakes up waiters. *)
Record effect (tag : LOCKTAG) (ex : option nat) (s s' : shared) : Prop := {
  ef_leader : forall q, leader_of s' q = leader_of s q;
  ef_locks : forall t, t <> tag -> locks s' !! t = locks s !! t;
  ef_hold : forall t q i, ~ (t = tag /\ ex = Some q) ->
    holdb (hold s' t q) i = true <-> holdb (hold s t q) i = true \/
      t = tag /\ q ∈ queue_of s tag /\ q ∉ queue_of s' tag /\ i = waitLockMode (procs s q);
  ef_proc : forall q, ex <> Some q ->
    procs s' q = procs s q /\ (q ∈ queue_of s' tag <-> q ∈ queue_of s tag) \/
    q ∈ queue_of s tag /\ q ∉ queue_of s' tag /\ procs s' q = woken (procs s q);
  ef_other : forall t q, t <> tag -> proclocks s' !! (t, q) = proclocks s !! (t, q);
  ef_dom : forall t q, ~ (t = tag /\ ex = Some q) ->
    is_Some (proclocks s' !! (t, q)) <-> is_Some (proclocks s !! (t, q)) }.

Lemma queue_links s t q pend : wf pend s -> q ∈ queue_of s t -> links (procs s q) = true.
Proof.
  intros H Hq. unfold queue_of in Hq. destruct (locks s !! t) as [l|] eqn:El; [|by apply elem_of_nil in Hq].
  apply (wf_queue _ _ H _ _ _ El Hq).
Qed.

Lemma wakes_effect tag s s' :
  wf None s -> wf None s' -> is_Some (locks s !! tag) -> wakes tag s s' -> effect tag None s s'.
Proof.
  intros H H' Htag W. split; try apply W.
  - intros t q i _. split; [apply W|]. intros [Hh|(-> & Q1 & Q2 & ->)].
    + by apply (wk_grows _ _ _ W).
    + by apply (wk_woken _ _ _ W).
  - intros q _. destruct (decide (q ∈ queue_of s tag)) as [Q|Q].
    + destruct (decide (q ∈ queue_of s' tag)) as [Q'|Q'].
      * left. destruct (wk_proc _ _ _ W q) as [->|(_ & ? & _)]; [|done]. done.
      * right. by split_and!; [..|apply (wk_woken _ _ _ W)].
    + left. destruct (wk_proc _ _ _ W q) as [->|(? & _)]; [|done]. split; [done|].
      split; [|done]. by apply wakes_queue.
  - intros t q _. apply W.
Qed.

Lemma wf_del_lock s tag l :
  wf None s -> locks s !! tag = Some l -> procLocks l = [] -> wf None (del_lock tag s).
Proof.
  intros H Hl Hp. pose proof (wf_lock _ _ H _ _ Hl) as Hok.
  assert (Hno : forall q, ~ is_Some (proclocks s !! (tag, q))).
  { intros q. rewrite <- hold_is_Some, <- (lo_dom _ _ _ _ Hok), Hp. apply not_elem_of_nil. }
  assert (Hw : forall q, q ∉ waitProcs l).
  { intros q Hq. destruct (lo_wait _ _ _ _ Hok q Hq) as (Hs & _). by rewrite hold_is_Some in Hs; destruct (Hno q). }
  split; cbn; try apply H.
  - intros t l0 Hl0. apply lookup_delete_Some in Hl0 as [_ Hl0]. by apply (wf_lock _ _ H).
  - intros t q Hs. destruct (decide (t = tag)) as [->|Ht]; [by destruct (Hno q)|].
    rewrite lookup_delete_ne by done. by apply (wf_orphan _ _ H t q).
  - intros t l0 q Hl0. apply lookup_delete_Some in Hl0 as [_ Hl0]. by apply (wf_queue _ _ H).
  - intros q Hq. destruct (wf_links _ _ H q Hq) as (t & l0 & Hl0 & Hin). exists t, l0.
    destruct (decide (t = tag)) as [->|Ht]; [simplify_eq; by destruct (Hw q)|].
    by rewrite lookup_delete_ne.
  - intros t [l0 Hl0]. apply lookup_delete_Some in Hl0 as [_ Hl0]. apply (wf_method _ _ H). by eexists.
  - done.
Qed.

(** A lock without requests has no holder and no waiter. *)
Lemma no_requests l h w e :
  lock_ok l h w e -> (forall i, i ∈ lockmodes -> 0 <= e i) -> nRequested l = 0 ->
  forall q, (forall mask, h q = Some mask -> mask = 0) /\ q ∉ waitProcs l.
Proof.
  intros H He Hn q. rewrite (lo_nRequested _ _ _ _ H) in Hn.
  assert (Hr : forall i, i ∈ lockmodes -> 0 <= count (granted l) i /\
    0 <= countb (fun x => w x =? i) (waitProcs l) /\
    count (requested l) i = count (granted l) i + countb (fun x => w x =? i) (waitProcs l) + e i).
  { intros i Hi. split_and!; [by eapply lo_count_nonneg|apply countb_nonneg|by apply H]. }
  assert (Hz : forall i, i ∈ lockmodes -> count (requested l) i = 0).
  { apply total_zero; [|done]. intros i Hi. destruct (Hr i Hi) as (? & ? & ?). pose proof (He i Hi). lia. }
  assert (Hboth : forall i, i ∈ lockmodes -> count (granted l) i = 0 /\
     countb (fun x => w x =? i) (waitProcs l) = 0).
  { intros i Hi. destruct (Hr i Hi) as (? & ? & ?). pose proof (He i Hi). pose proof (Hz i Hi). lia. }
  split.
  - intros mask Hm. apply modes_only_eq0; [by apply (lo_bits _ _ _ _ H q)|]. intros i Hi.
    destruct (Z.testbit mask i) eqn:E; [|done]. destruct (Hboth i Hi) as [Hg _].
    rewrite (lo_granted _ _ _ _ H) in Hg by done.
    assert (0 < countb (fun p => holdb (h p) i) (procLocks l)); [|lia].
    apply countb_pos. exists q. rewrite Hm. split; [|done]. apply (lo_dom _ _ _ _ H). rewrite Hm. by eexists.
  - intros Hq. destruct (lo_wait _ _ _ _ H q Hq) as (_ & Hqm & _). destruct (Hboth _ Hqm) as [_ Hg].
    assert (0 < countb (fun x => w x =? w q) (waitProcs l)); [|lia].
    apply countb_pos. exists q. split; [done|apply Z.eqb_refl].
Qed.

(** A lock with requests has a PROCLOCK. *)
Lemma some_request l h w :
  lock_ok l h w (fun _ => 0) -> procLocks l = [] -> nRequested l = 0.
Proof.
  intros H Hp. rewrite (lo_nRequested _ _ _ _ H).
  assert (Hw : waitProcs l = []).
  { destruct (waitProcs l) as [|q qs] eqn:E; [done|].
    destruct (lo_wait _ _ _ _ H q ltac:(rewrite E; constructor)) as (Hq & _).
    apply (lo_dom _ _ _ _ H) in Hq. rewrite Hp in Hq. by apply elem_of_nil in Hq. }
  assert (Hz : forall i, i ∈ lockmodes -> count (requested l) i = 0).
  { intros i Hi. rewrite (lo_requested _ _ _ _ H), (lo_granted _ _ _ _ H) by done. by rewrite Hp, Hw. }
  apply total_zero; [|done]. intros i Hi. by rewrite Hz.
Qed.

(** The last part of [CleanUpLock], when the table is tidy but for the LOCK. *)
Lemma CleanUpLock_tail me tag w s l :
  wf None s -> excl s -> blocked (wake_ex w tag) s -> locks s !! tag = Some l ->
  (forall t q pl, proclocks s !! (t, q) = Some pl -> holdMask pl <> 0 \/ q ∈ queue_of s t) ->
  (forall t l, t <> tag -> locks s !! t = Some l -> procLocks l <> []) ->
  exists s', (if nRequested l =? 0
              then assert bool_decide (procLocks l = []);; Some (del_lock tag s)
              else if w then ProcLockWakeup me tag s else Some s) = Some s' /\
    good s' /\ effect tag None s s'.
Proof.
  intros H E B Hl T1 T2. pose proof (wf_lock _ _ H _ _ Hl) as Hok.
  assert (T1' : forall ex t q pl, proclocks s !! (t, q) = Some pl -> ex <> Some (t, q) ->
    holdMask pl <> 0 \/ exists l, locks s !! t = Some l /\ q ∈ waitProcs l).
  { intros ex t q pl Hpl _. destruct (T1 t q pl Hpl) as [?|Hq]; [by left|right].
    unfold queue_of in Hq. destruct (locks s !! t) as [l0|]; [by exists l0|by apply elem_of_nil in Hq]. }
  destruct (Z.eqb_spec (nRequested l) 0) as [E0|E0].
  - pose proof (no_requests _ _ _ _ Hok (fun i _ => extra_of_nonneg None tag i) E0) as Hno.
    assert (Hnil : procLocks l = []).
    { destruct (procLocks l) as [|q qs] eqn:Eq; [done|].
      assert (Hq : is_Some (hold s tag q)) by (apply (lo_dom _ _ _ _ Hok); rewrite Eq; constructor).
      apply hold_is_Some in Hq as [pl Hpl]. destruct (Hno q) as [Hh Hw].
      rewrite (hold_Some _ _ _ _ Hpl) in Hh. specialize (Hh _ eq_refl).
      destruct (T1 tag q pl Hpl) as [?|Hq]; [done|]. by rewrite (queue_of_Some _ _ _ Hl) in Hq. }
    rewrite bool_decide_eq_true_2 by done. eexists. split; [done|].
    assert (Hq0 : forall q, q ∉ waitProcs l) by (intros q; apply Hno).
    assert (Hqs : forall q, q ∉ queue_of (del_lock tag s) tag).
    { intros q. unfold queue_of. cbn. rewrite lookup_delete_eq. apply not_elem_of_nil. }
    split; [split|split].
    + by eapply wf_del_lock.
    + exact E.
    + split.
      * intros t q pl Hpl Hex. destruct (T1' _ t q pl Hpl Hex) as [?|(l0 & Hl0 & Hq)]; [by left|right].
        exists l0. split; [|done]. cbn. apply lookup_delete_Some. split; [|done].
        intros <-. simplify_eq. by destruct (Hq0 q).
      * intros t l0 Hl0 _. cbn in Hl0. apply lookup_delete_Some in Hl0 as [Ht Hl0]. by apply (T2 t).
    + intros t l0 ahead q rest Hl0 _. cbn in Hl0. apply lookup_delete_Some in Hl0 as [Ht Hl0].
      apply (B t l0 ahead q rest Hl0). destruct w; cbn; congruence.
    + done.
    + intros t Ht. cbn. by rewrite lookup_delete_ne.
    + intros t q i _. change (hold (del_lock tag s) t q) with (hold s t q).
      split; [by left|]. intros [?|(_ & Hq & _)]; [done|].
      rewrite (queue_of_Some _ _ _ Hl) in Hq. by destruct (Hq0 q).
    + intros q _. left. split; [done|]. rewrite (queue_of_Some _ _ _ Hl).
      split; intros Hq; [by destruct (Hqs q)|by destruct (Hq0 q)].
    + done.
    + done.
  - assert (T : tidy None s).
    { split; [apply T1'|]. intros t l0 Hl0 _. destruct (decide (t = tag)) as [->|Ht]; [|by apply (T2 t)].
      simplify_eq. intros Hnil. by apply E0, (some_request _ _ _ Hok). }
    destruct w.
    + destruct (ProcLockWakeup_spec me tag s H E T B) as (s' & Hs' & G & W & _); [by eexists|].
      exists s'. split; [done|]. split; [done|]. apply wakes_effect; [done|apply G|by eexists|done].
    + exists s. split; [done|]. split; [done|]. apply wakes_effect; [done..|by eexists|apply wakes_refl].
Qed.

(** Changes of [p]'s own part before an effect. *)
Lemma effect_before tag p ex s1 s2 s3 :
  (ex = None \/ ex = Some p) -> effect tag ex s2 s3 ->
  (forall q, leader_of s2 q = leader_of s1 q) ->
  (forall t, t <> tag -> locks s2 !! t = locks s1 !! t) ->
  (forall t q i, (t, q) <> (tag, p) -> holdb (hold s2 t q) i = holdb (hold s1 t q) i) ->
  (forall q, q <> p -> procs s2 q = procs s1 q) ->
  (forall q, q <> p -> q ∈ queue_of s2 tag <-> q ∈ queue_of s1 tag) ->
  (forall t q, (t, q) <> (tag, p) -> proclocks s2 !! (t, q) = proclocks s1 !! (t, q)) ->
  effect tag (Some p) s1 s3.
Proof.
  intros Hex [E1 E2 E3 E4 E5 E6] H1 H2 H3 H4 H5 H6.
  assert (Hx : forall t q, ~ (t = tag /\ Some p = Some q) -> (t, q) <> (tag, p) /\ ~ (t = tag /\ ex = Some q)).
  { intros t q Hne. split; [naive_solver|]. intros [-> Hq]. apply Hne. split; [done|].
    destruct Hex; congruence. }
  split.
  - intros q. by rewrite E1.
  - intros t Ht. rewrite E2; auto.
  - intros t q i [Hne Hne']%Hx. rewrite (E3 t q i Hne'), (H3 t q i Hne).
    destruct (decide (t = tag)) as [->|Ht]; [|naive_solver].
    assert (q <> p) by congruence. rewrite H4, H5 by done. done.
  - intros q Hne. assert (q <> p) by congruence. rewrite <- (H4 q), <- (H5 q) by done. apply E4.
    destruct Hex; congruence.
  - intros t q Ht. rewrite E5 by done. apply H6. congruence.
  - intros t q [Hne Hne']%Hx. by rewrite (E6 t q Hne'), H6.
Qed.

Lemma CleanUpLock_eq me tag p w s l pl :
  locks s !! tag = Some l -> proclocks s !! (tag, p) = Some pl ->
  forall s1, (if holdMask pl =? 0 then remove_proclock (tag, p) s else Some s) = Some s1 ->
  forall l1, locks s1 !! tag = Some l1 ->
  CleanUpLock me tag (tag, p) w s =
    if nRequested l1 =? 0
    then assert bool_decide (procLocks l1 = []);; Some (del_lock tag s1)
    else if w then ProcLockWakeup me tag s1 else Some s1.
Proof.
  intros Hl Hpl s1 H1 l1 Hl1. unfold CleanUpLock. rewrite Hpl. cbn [mbind option_bind].
  rewrite H1. cbn [mbind option_bind]. rewrite Hl1. done.
Qed.

(** What is left of [p] after an effect of others. *)
Lemma effect_self tag p s s' :
  effect tag None s s' -> p ∉ queue_of s tag ->
  procs s' p = procs s p /\ forall t i, holdb (hold s' t p) i = holdb (hold s t p) i.
Proof.
  intros Ef Hp. split.
  - destruct (ef_proc _ _ _ _ Ef p) as [[? _]|(? & _)]; done.
  - intros t i. apply eq_true_iff_eq. rewrite (ef_hold _ _ _ _ Ef) by naive_solver. naive_solver.
Qed.

(** [p] is not waiting; its PROCLOCK may be empty, and the waiters of [tag]
    may have to be looked at. *)
Lemma CleanUpLock_spec me tag p w s l pl :
  wf None s -> excl s -> tidy (Some (tag, p)) s -> blocked (wake_ex w tag) s ->
  locks s !! tag = Some l -> proclocks s !! (tag, p) = Some pl -> p ∉ waitProcs l ->
  exists s', CleanUpLock me tag (tag, p) w s = Some s' /\ good s' /\ effect tag (Some p) s s' /\
    (forall t i, holdb (hold s' t p) i = holdb (hold s t p) i) /\
    exists mine, procs s' p = set_myProcLocks mine (procs s p).
Proof.
  intros H E [T1 T2] B Hl Hpl Hnw. pose proof (wf_lock _ _ H _ _ Hl) as Hok.
  assert (T2' : forall t l, t <> tag -> locks s !! t = Some l -> procLocks l <> []).
  { intros t l0 Ht Hl0. apply (T2 t l0 Hl0). congruence. }
  destruct (Z.eqb_spec (holdMask pl) 0) as [E0|E0].
  - destruct (remove_proclock_spec s tag p l pl H Hl Hpl E0 Hnw)
      as (s1 & Hs1 & H1 & Hlocks & Hpls & Hprocs & Hself).
    set (l1 := set_procLocks (unlink p (procLocks l)) l) in *.
    assert (Hl1 : locks s1 !! tag = Some l1) by (rewrite Hlocks; apply lookup_insert_eq).
    rewrite (CleanUpLock_eq me tag p w s l pl Hl Hpl s1 ltac:(by rewrite E0) l1 Hl1).
    assert (Hq : forall t, queue_of s1 t = queue_of s t).
    { intros t. unfold queue_of. rewrite Hlocks. destruct (decide (t = tag)) as [->|Ht].
      - by rewrite lookup_insert_eq, Hl.
      - by rewrite lookup_insert_ne. }
    assert (Hh : forall t q i, holdb (hold s1 t q) i = holdb (hold s t q) i).
    { intros t q i. unfold hold. rewrite Hpls. destruct (decide ((t, q) = (tag, p))) as [[= -> ->]|Hne].
      - rewrite lookup_delete_eq, Hpl. cbn. by rewrite E0, Z.bits_0.
      - by rewrite lookup_delete_ne. }
    assert (Hld : forall q, leader_of s1 q = leader_of s q).
    { intros q. unfold leader_of. destruct (decide (q = p)) as [->|]; [by rewrite Hself|by rewrite Hprocs]. }
    assert (Hm : forall q, waitLockMode (procs s1 q) = waitLockMode (procs s q)).
    { intros q. destruct (decide (q = p)) as [->|]; [by rewrite Hself|by rewrite Hprocs]. }
    destruct (CleanUpLock_tail me tag w s1 l1) as (s' & Hs' & G & Ef); try done.
    + intros t p1 p2 m1 m2. rewrite !Hld, !Hh. apply E.
    + eapply (blocked_grows _ s s1); [split; [done|by intros; rewrite Hh]| |done].
      intros t l' Hl' _. rewrite Hlocks in Hl'. destruct (decide (t = tag)) as [->|Ht].
      * rewrite lookup_insert_eq in Hl'. injection Hl' as <-. exists l. by split_and!.
      * rewrite lookup_insert_ne in Hl' by done. exists l'. by split_and!.
    + intros t q x Hx. rewrite Hpls in Hx. apply lookup_delete_Some in Hx as [Hne Hx].
      destruct (T1 t q x Hx) as [?|(l0 & Hl0 & Hin)]; [congruence|by left|right].
      by rewrite Hq, (queue_of_Some _ _ _ Hl0).
    + intros t l0 Ht. rewrite Hlocks, lookup_insert_ne by done. by apply T2'.
    + exists s'. split; [done|]. split; [done|].
      destruct (effect_self tag p s1 s' Ef) as [Ep Eh].
      { by rewrite Hq, (queue_of_Some _ _ _ Hl). }
      split; [|split].
      * eapply effect_before; [by left|apply Ef|done|..].
        -- intros t Ht. by rewrite Hlocks, lookup_insert_ne.
        -- intros; apply Hh.
        -- done.
        -- intros q _. by rewrite Hq.
        -- intros t q Hne. by rewrite Hpls, lookup_delete_ne.
      * intros t i. by rewrite Eh, Hh.
      * exists (myProcLocks (procs s1 p)). by rewrite Ep.
  - rewrite (CleanUpLock_eq me tag p w s l pl Hl Hpl s ltac:(by rewrite (proj2 (Z.eqb_neq _ _) E0)) l Hl).
    destruct (CleanUpLock_tail me tag w s l) as (s' & Hs' & G & Ef); try done.
    + intros t q x Hx. destruct (decide ((t, q) = (tag, p))) as [[= -> ->]|Hne].
      * left. congruence.
      * destruct (T1 t q x Hx) as [?|(l0 & Hl0 & Hin)]; [congruence|by left|right].
        by rewrite (queue_of_Some _ _ _ Hl0).
    + exists s'. split; [done|]. split; [done|].
      destruct (effect_self tag p s s' Ef) as [Ep Eh]; [by rewrite (queue_of_Some _ _ _ Hl)|].
      split; [|split].
      * by eapply effect_before; [by left|apply Ef|..].
      * done.
      * exists (myProcLocks (procs s p)). rewrite Ep. by destruct (procs s p).
Qed.

(** ** Leaving the wait queue without the lock *)

Definition dequeue_state (p : nat) (tag : LOCKTAG) (l : LOCK) (s : shared) : shared :=
  let m := waitLockMode (procs s p) in
  put_proc p (set_wait false STATUS_ERROR None None m (procs s p))
    (put_lock tag (dequeued_lock l p m) s).

Lemma wf_dequeue s tag p l :
  wf None s -> locks s !! tag = Some l -> p ∈ waitProcs l -> wf None (dequeue_state p tag l s).
Proof.
  intros H Hl Hp. pose proof (wf_lock _ _ H _ _ Hl) as Hok.
  destruct (lo_wait _ _ _ _ Hok p Hp) as (_ & Hm & _).
  apply (wf_frame None None s _ tag (dequeued_lock l p (waitLockMode (procs s p))) p); try done.
  - intros q Hne. cbn. by rewrite fn_lookup_insert_ne.
  - cbn. by rewrite fn_lookup_insert.
  - cbn. by rewrite fn_lookup_insert.
  - eapply lock_ok_ext; [..|eapply (lock_ok_dequeue l _ _ _ p _ Hok Hm Hp); done]; [done| |done].
    intros q _. cbn. destruct (decide (q = p)) as [->|Hne];
      [by rewrite fn_lookup_insert|by rewrite fn_lookup_insert_ne].
  - intros q Hne. cbn. rewrite elem_of_unlink, (queue_of_Some _ _ _ Hl). tauto.
  - apply wait_leaves; [by rewrite (queue_of_Some _ _ _ Hl)|cbn; by rewrite fn_lookup_insert|].
    cbn. rewrite elem_of_unlink. tauto.
  - intros part t. cbn. rewrite fn_lookup_insert. cbn. apply (wf_mine _ _ H).
  - intros part. cbn. rewrite fn_lookup_insert. apply (wf_mine_nodup _ _ H).
  - intros x. apply (wf_leader _ _ H).
  - apply (wf_method _ _ H). by rewrite Hl.
Qed.

Lemma RemoveFromWaitQueue_spec me p tag l s :
  wf None s -> excl s -> tidy None s -> blocked (Some tag) s ->
  locks s !! tag = Some l -> p ∈ waitProcs l ->
  exists s', RemoveFromWaitQueue me p s = Some s' /\ good s' /\ effect tag (Some p) s s' /\
    (forall t i, holdb (hold s' t p) i = holdb (hold s t p) i) /\
    exists mine, procs s' p = set_myProcLocks mine
      (set_wait false STATUS_ERROR None None (waitLockMode (procs s p)) (procs s p)).
Proof.
  intros H E T B Hl Hp. pose proof (wf_lock _ _ H _ _ Hl) as Hok.
  destruct (lo_wait _ _ _ _ Hok p Hp) as ([pl Hpl]%hold_is_Some & Hm & _).
  destruct (wf_queue _ _ H _ _ _ Hl Hp) as [W1 W2 W3 W4].
  set (m := waitLockMode (procs s p)) in *.
  assert (Hwait : 0 < countb (fun q => waitLockMode (procs s q) =? m) (waitProcs l)).
  { apply countb_pos. exists p. split; [done|apply Z.eqb_refl]. }
  destruct (GrantLock_asserts _ _ _ _ m Hok Hm) as (A1 & _ & A3).
  { intros. apply extra_of_nonneg. }
  { cbn. lia. }
  assert (A4 : 0 < count (requested l) m).
  { rewrite (lo_requested _ _ _ _ Hok) by done. pose proof (lo_count_nonneg _ _ _ _ m Hok Hm). cbn. lia. }
  pose proof (wf_method _ _ H tag ltac:(rewrite Hl; by eexists)) as Hmet.
  set (s1 := dequeue_state p tag l s). pose proof (wf_dequeue s tag p l H Hl Hp) as H1. fold s1 in H1.
  assert (Heq : RemoveFromWaitQueue me p s = CleanUpLock me tag (tag, p) true s1).
  { unfold RemoveFromWaitQueue. rewrite W1, W2, W3, W4. rewrite bool_decide_eq_true_2 by done.
    cbn [andb mbind option_bind]. rewrite Hl. cbn [mbind option_bind].
    rewrite (bool_decide_eq_false_2 (waitProcs l = [])) by (intros Hn; rewrite Hn in Hp; by apply elem_of_nil in Hp).
    fold m. rewrite (proj2 (Z.ltb_lt 0 (locktag_lockmethodid tag))),
      (proj2 (Z.ltb_lt (locktag_lockmethodid tag) 3)), (proj2 (Z.ltb_lt 0 (nRequested l))),
      (proj2 (Z.ltb_lt (nGranted l) (nRequested l))), (proj2 (Z.ltb_lt 0 (count (requested l) m))) by lia.
    done. }
  rewrite Heq.
  assert (Hl1 : locks s1 !! tag = Some (dequeued_lock l p m)) by (cbn; apply lookup_insert_eq).
  assert (Hq : forall q, q <> p -> q ∈ queue_of s1 tag <-> q ∈ queue_of s tag).
  { intros q Hne. rewrite (queue_of_Some _ _ _ Hl1), (queue_of_Some _ _ _ Hl). cbn.
    rewrite elem_of_unlink. tauto. }
  assert (Hm1 : forall q, waitLockMode (procs s1 q) = waitLockMode (procs s q)).
  { intros q. cbn. destruct (decide (q = p)) as [->|Hne];
      [by rewrite fn_lookup_insert|by rewrite fn_lookup_insert_ne]. }
  assert (Hld : forall q, leader_of s1 q = leader_of s q).
  { intros q. unfold leader_of. cbn. destruct (decide (q = p)) as [->|Hne];
      [by rewrite fn_lookup_insert|by rewrite fn_lookup_insert_ne]. }
  destruct (CleanUpLock_spec me tag p true s1 (dequeued_lock l p m) pl H1) as (s' & Hs' & G & Ef & Eh & mine & Ep);
    [| | |exact Hl1|exact Hpl| |].
  - intros t p1 p2 m1 m2. rewrite !Hld. apply E.
  - destruct T as [T1 T2]. split.
    + intros t q x Hx Hex. destruct (T1 t q x Hx) as [?|(l0 & Hl0 & Hin)]; [done|by left|right].
      destruct (decide (t = tag)) as [->|Ht].
      * exists (dequeued_lock l p m). split; [done|]. simplify_eq. cbn. apply elem_of_unlink.
        split; [congruence|done].
      * exists l0. split; [|done]. cbn. by rewrite lookup_insert_ne.
    + intros t l0 Hl0 Hex. destruct (decide (t = tag)) as [->|Ht]; [by destruct (Hex p)|].
      cbn in Hl0. rewrite lookup_insert_ne in Hl0 by done. by apply (T2 t).
  - eapply (blocked_grows _ s s1); [by split| |done]. intros t l0 Hl0 Hex.
    destruct (decide (t = tag)) as [->|Ht]; [by destruct Hex|].
    cbn in Hl0. rewrite lookup_insert_ne in Hl0 by done. exists l0. by split_and!.
  - cbn. rewrite elem_of_unlink. tauto.
  - exists s'. split; [done|]. split; [done|]. split; [|split].
    + eapply effect_before; [by right|apply Ef|done| |done| |done|done].
      * intros t Ht. cbn. by rewrite lookup_insert_ne.
      * intros q Hne. cbn. by rewrite fn_lookup_insert_ne.
    + done.
    + exists mine. rewrite Ep. cbn. by rewrite fn_lookup_insert.
Qed.

(** ** Setting up a request *)

(** Fields of its own that a process changes besides its wait. *)
Definition touched (x y : PGPROC) : Prop :=
  exists mine held, y = set_heldLocks held (set_myProcLocks mine x).

Lemma touched_refl x : touched x x.
Proof. exists (myProcLocks x), (heldLocks x). by destruct x. Qed.

Lemma touched_mine mine x : touched x (set_myProcLocks mine x).
Proof. exists mine, (heldLocks x). by destruct x. Qed.

Lemma touched_held held x : touched x (set_heldLocks held x).
Proof. exists (myProcLocks x), held. by destruct x. Qed.

Lemma touched_trans x y z : touched x y -> touched y z -> touched x z.
Proof. intros (m1 & h1 & ->) (m2 & h2 & ->). exists m2, h2. by destruct x. Qed.

(** Nothing changed that another process could see. *)
Record quiet (tag : LOCKTAG) (p : nat) (s s' : shared) : Prop := {
  qt_leader : forall q, leader_of s' q = leader_of s q;
  qt_locks : forall t, t <> tag -> locks s' !! t = locks s !! t;
  qt_hold : forall t q i, holdb (hold s' t q) i = holdb (hold s t q) i;
  qt_procs : forall q, q <> p -> procs s' q = procs s q;
  qt_self : touched (procs s p) (procs s' p);
  qt_queue : forall t, queue_of s' t = queue_of s t;
  qt_dom : forall t q, (t, q) <> (tag, p) -> proclocks s' !! (t, q) = proclocks s !! (t, q) }.

Lemma lock_ok_new h w : (forall q, h q = None) -> lock_ok new_lock h w (fun _ => 0).
Proof.
  intros Hh. assert (Hc : forall i, i ∈ lockmodes -> count (repeat 0 MAX_LOCKMODES) i = 0).
  { intros i Hi. each_mode Hi; reflexivity. }
  cbn in Hc. split; cbn; try done.
  - constructor.
  - constructor.
  - intros p. rewrite Hh. split; [by intros ?%elem_of_nil|by intros []].
  - intros i Hi. rewrite !Z.add_0_r. done.
  - intros i. by rewrite Z.bits_0.
  - intros i Hi. rewrite Hc by done. by rewrite Z.bits_0.
  - intros i. by rewrite Z.bits_0.
  - intros i Hi. by rewrite Z.bits_0.
  - intros p mask. by rewrite Hh.
  - intros p Hp. by apply elem_of_nil in Hp.
Qed.

Lemma wf_counts pend s tag l : wf pend s -> locks s !! tag = Some l -> counts_ok l = true.
Proof.
  intros H Hl. pose proof (wf_lock _ _ H _ _ Hl) as Hok.
  assert (Hreq : forall i, i ∈ lockmodes -> 0 <= count (granted l) i <= count (requested l) i).
  { intros i Hi. pose proof (lo_count_nonneg _ _ _ _ i Hok Hi).
    pose proof (lo_requested_ge l _ _ _ Hok i Hi (extra_of_nonneg pend tag i)). lia. }
  pose proof (total_nonneg (granted l) (fun i Hi => proj1 (Hreq i Hi))).
  pose proof (total_le _ _ (fun i Hi => proj2 (Hreq i Hi))).
  unfold counts_ok. rewrite (lo_nGranted _ _ _ _ Hok), (lo_nRequested _ _ _ _ Hok).
  by rewrite !(proj2 (Z.leb_le _ _)) by lia.
Qed.

Lemma wf_held_granted pend s tag p l pl :
  wf pend s -> locks s !! tag = Some l -> proclocks s !! (tag, p) = Some pl ->
  Z.land (holdMask pl) (Z.lnot (grantMask l)) = 0.
Proof.
  intros H Hl Hpl. pose proof (wf_lock _ _ H _ _ Hl) as Hok. pose proof (hold_Some _ _ _ _ Hpl) as Hp.
  apply modes_only_sub; [by apply (lo_bits _ _ _ _ Hok p)|]. intros i Hi Ht.
  rewrite (lo_gmask_eq _ _ _ _ Hok), (lo_granted _ _ _ _ Hok) by done. apply Z.ltb_lt, countb_pos.
  exists p. rewrite Hp. split; [apply (lo_dom _ _ _ _ Hok); rewrite Hp; by eexists|done].
Qed.

(** The LOCK that [SetupLockInTable] finds or creates. *)
Lemma lock_found s tag :
  wf None s ->
  let l := default new_lock (locks s !! tag) in
  lock_ok l (hold s tag) (fun q => waitLockMode (procs s q)) (fun _ => 0) /\
  waitProcs l = queue_of s tag.
Proof.
  intros H. unfold queue_of. destruct (locks s !! tag) as [l|] eqn:El; cbn.
  - split; [|done]. apply (wf_lock _ _ H _ _ El).
  - split; [|done]. apply lock_ok_new. intros q. unfold hold.
    destruct (proclocks s !! (tag, q)) as [pl|] eqn:Epl; [|done].
    destruct (wf_orphan _ _ H tag q) as [l Hl]; [by eexists|congruence].
Qed.

Lemma hash_enter_lock room s tag :
  hash_enter room tag new_lock (locks s) =
  if room || bool_decide (is_Some (locks s !! tag))
  then Some (default new_lock (locks s !! tag), bool_decide (is_Some (locks s !! tag))) else None.
Proof.
  unfold hash_enter. destruct (locks s !! tag) as [l|]; cbn.
  - by rewrite orb_true_r.
  - by destruct room.
Qed.

(** The state in which the request of [p] is counted. *)
Definition setup_state (tag : LOCKTAG) (p : nat) (m : Z) (s : shared) : shared :=
  let l := default new_lock (locks s !! tag) in
  let x := procs s p in
  match proclocks s !! (tag, p) with
  | Some pl => put_proc p x (put_proclock (tag, p) pl (put_lock tag (requested_lock m 1 l) s))
  | None =>
      let part := partition_of tag in
      put_proc p (set_myProcLocks (<[part := myProcLocks x part ++ [tag]]> (myProcLocks x)) x)
        (put_proclock (tag, p) (MkPROCLOCK (leader_of s p) 0 0)
          (put_lock tag (requested_lock m 1 (set_procLocks (procLocks l ++ [p]) l)) s))
  end.

Section Setup.
Context (s : shared) (tag : LOCKTAG) (p : nat) (m : Z).
Context (H : wf None s) (Hm : m ∈ lockmodes) (Hmet : 0 < locktag_lockmethodid tag < 3).

Let l := default new_lock (locks s !! tag).
Let s' := setup_state tag p m s.

Lemma setup_lookup :
  (exists pl, proclocks s' !! (tag, p) = Some pl /\
     holdMask pl = default 0 (hold s tag p) /\ groupLeader pl = leader_of s p) /\
  exists l', locks s' = <[tag := l']> (locks s) /\ waitProcs l' = waitProcs l /\
    p ∈ procLocks l' /\ 0 < nRequested l' /\ waitMask l' = waitMask l /\
    lock_ok l' (hold s' tag) (fun q => waitLockMode (procs s q)) (extra_of (Some (tag, p, m)) tag).
Proof.
  destruct (lock_found s tag H) as [Hok Hq]. fold l in Hok, Hq.
  assert (Hreq : forall l0, lock_ok l0 (hold s' tag) (fun q => waitLockMode (procs s q)) (fun _ => 0) ->
    lock_ok (requested_lock m 1 l0) (hold s' tag) (fun q => waitLockMode (procs s q))
      (extra_of (Some (tag, p, m)) tag) /\ 0 < nRequested (requested_lock m 1 l0)).
  { intros l0 H0. split.
    - eapply lock_ok_request; [done|done|]. intros i Hi. by rewrite extra_of_self.
    - cbn. rewrite (lo_nRequested _ _ _ _ H0). assert (0 <= total (requested l0)); [|lia].
      apply total_nonneg. intros i Hi. rewrite (lo_requested _ _ _ _ H0) by done.
      pose proof (lo_count_nonneg _ _ _ _ i H0 Hi).
      pose proof (countb_nonneg (fun q => waitLockMode (procs s q) =? i) (waitProcs l0)). lia. }
  unfold s', setup_state. destruct (proclocks s !! (tag, p)) as [pl|] eqn:Epl; fold l.
  - split.
    + exists pl. cbn. rewrite lookup_insert_eq. rewrite (hold_Some _ _ _ _ Epl). split_and!; [done..|].
      by apply (wf_leader _ _ H) in Epl.
    + eexists. split; [reflexivity|]. split; [done|]. cbn [locks put_proc put_proclock put_lock].
      assert (Hs : forall q, hold s' tag q = hold s tag q).
      { intros q. unfold s', setup_state. rewrite Epl. unfold hold. cbn.
        destruct (decide (q = p)) as [->|Hne]; [by rewrite lookup_insert_eq, Epl|].
        by rewrite lookup_insert_ne by congruence. }
      destruct (Hreq l) as [R1 R2]; [eapply lock_ok_ext; [..|apply Hok]; done|].
      split; [cbn; apply (lo_dom _ _ _ _ Hok); rewrite (hold_Some _ _ _ _ Epl); by eexists|].
      split; [done|]. split; [done|]. revert R1. unfold s', setup_state. rewrite Epl. done.
  - assert (Hnone : hold s tag p = None) by (unfold hold; by rewrite Epl).
    split.
    + eexists. cbn. rewrite lookup_insert_eq, Hnone. done.
    + eexists. split; [reflexivity|]. split; [done|].
      assert (Hs : forall q, (<[p := Some 0]> (hold s tag) : nat -> option Z) q = hold s' tag q).
      { intros q. unfold s', setup_state. rewrite Epl. unfold hold. cbn.
        destruct (decide (q = p)) as [->|Hne]; [by rewrite lookup_insert_eq, fn_lookup_insert|].
        rewrite fn_lookup_insert_ne by done. by rewrite lookup_insert_ne by congruence. }
      destruct (Hreq (set_procLocks (procLocks l ++ [p]) l)) as [R1 R2].
      { eapply lock_ok_ext; [..|eapply (lock_ok_add_proclock l _ _ _ p Hok Hnone)]; done. }
      split; [cbn; apply elem_of_app; right; constructor|].
      split; [done|]. split; [done|]. revert R1. unfold s', setup_state. rewrite Epl. done.
Qed.

Lemma setup_quiet : quiet tag p s s'.
Proof.
  unfold s', setup_state. fold l. split.
  - intros q. unfold leader_of. destruct (proclocks s !! (tag, p)); cbn;
      (destruct (decide (q = p)) as [->|]; [by rewrite fn_lookup_insert|by rewrite fn_lookup_insert_ne]).
  - intros t Ht. destruct (proclocks s !! (tag, p)); cbn; by rewrite lookup_insert_ne.
  - intros t q i. unfold hold. destruct (proclocks s !! (tag, p)) as [pl|] eqn:Epl; cbn;
      (destruct (decide ((t, q) = (tag, p))) as [[= -> ->]|Hne];
       [rewrite lookup_insert_eq, Epl|by rewrite lookup_insert_ne]); [done|]. cbn. by rewrite Z.bits_0.
  - intros q Hne. destruct (proclocks s !! (tag, p)); cbn; by rewrite fn_lookup_insert_ne.
  - destruct (proclocks s !! (tag, p)); cbn; rewrite fn_lookup_insert;
      [apply touched_refl|apply touched_mine].
  - intros t. unfold queue_of. destruct (lock_found s tag H) as [_ Hq]. fold l in Hq. unfold queue_of in Hq.
    destruct (decide (t = tag)) as [->|Ht].
    + destruct (proclocks s !! (tag, p)); cbn; by rewrite lookup_insert_eq.
    + destruct (proclocks s !! (tag, p)); cbn; by rewrite lookup_insert_ne.
  - intros t q Hne. destruct (proclocks s !! (tag, p)); cbn; by rewrite lookup_insert_ne.
Qed.

Lemma setup_wf :
  holdb (hold s tag p) m = false -> (p ∈ queue_of s tag -> waitLockMode (procs s p) <> m) ->
  wf (Some (tag, p, m)) s'.
Proof.
  intros Hh Hw. destruct setup_lookup as [(pl & Hpl & Hmask & Hgl) (l' & Hlocks & Hwq & Hin & Hn & _ & Hok)].
  destruct (lock_found s tag H) as [_ Hq]. fold l in Hq.
  pose proof setup_quiet as Q. destruct (qt_self _ _ _ _ Q) as (mine & held & Hself).
  assert (Hm1 : forall q, waitLockMode (procs s' q) = waitLockMode (procs s q)).
  { intros q. destruct (decide (q = p)) as [->|Hne]; [by rewrite Hself|].
    by rewrite (qt_procs _ _ _ _ Q). }
  apply (wf_frame None (Some (tag, p, m)) s s' tag l' p); try done.
  - apply (qt_dom _ _ _ _ Q).
  - apply (qt_procs _ _ _ _ Q).
  - by rewrite Hself.
  - by rewrite Hself.
  - eapply lock_ok_ext; [..|apply Hok]; [done| |done]. intros q _. by rewrite Hm1.
  - intros t Ht. by apply extra_of_other.
  - intros q _. by rewrite Hwq, Hq.
  - apply wait_same; rewrite ?Hself; try done. by rewrite Hwq, Hq.
  - intros part t. unfold s', setup_state. destruct (proclocks s !! (tag, p)) as [x|] eqn:Ex; cbn;
      rewrite fn_lookup_insert; cbn.
    + rewrite (wf_mine _ _ H). destruct (decide (t = tag)) as [->|Hne].
      * rewrite lookup_insert_eq, Ex. split; intros [? _]; (split; [done|by eexists]).
      * by rewrite lookup_insert_ne by congruence.
    + destruct (decide (part = partition_of tag)) as [->|Hpart].
      * rewrite fn_lookup_insert, elem_of_app, list_elem_of_singleton, (wf_mine _ _ H).
        destruct (decide (t = tag)) as [->|Hne].
        -- rewrite lookup_insert_eq. split; [intros _; split; [done|by eexists]|by right].
        -- rewrite lookup_insert_ne by congruence. tauto.
      * rewrite fn_lookup_insert_ne by done. rewrite (wf_mine _ _ H).
        destruct (decide (t = tag)) as [->|Hne]; [tauto|]. by rewrite lookup_insert_ne by congruence.
  - intros part. unfold s', setup_state. destruct (proclocks s !! (tag, p)) as [x|] eqn:Ex; cbn;
      rewrite fn_lookup_insert; cbn; [apply (wf_mine_nodup _ _ H)|].
    destruct (decide (part = partition_of tag)) as [->|Hpart].
    + rewrite fn_lookup_insert. apply NoDup_app. split; [apply (wf_mine_nodup _ _ H)|].
      split; [|apply NoDup_singleton]. intros t Ht ->%list_elem_of_singleton.
      apply (wf_mine _ _ H) in Ht as [_ Ht]. rewrite Ex in Ht. by destruct Ht.
    + rewrite fn_lookup_insert_ne by done. apply (wf_mine_nodup _ _ H).
  - intros x. rewrite Hpl. by intros [= <-].
  - intros t q i [= <- <- <-]. split; [done|]. split; [done|]. rewrite (qt_hold _ _ _ _ Q).
    split; [done|]. rewrite Hwq, Hq, Hm1. done.
Qed.

Lemma quiet_excl s0 s1 t0 p0 : quiet t0 p0 s0 s1 -> excl s0 -> excl s1.
Proof.
  intros Q E t p1 p2 m1 m2. rewrite !(qt_leader _ _ _ _ Q), !(qt_hold _ _ _ _ Q). apply E.
Qed.

Lemma quiet_grows s0 s1 t0 p0 : quiet t0 p0 s0 s1 -> grows s0 s1.
Proof. intros Q. split; [apply Q|]. intros t q i. by rewrite (qt_hold _ _ _ _ Q). Qed.

Lemma quiet_mode s0 s1 t0 p0 q :
  quiet t0 p0 s0 s1 -> waitLockMode (procs s1 q) = waitLockMode (procs s0 q).
Proof.
  intros Q. destruct (decide (q = p0)) as [->|Hne]; [|by rewrite (qt_procs _ _ _ _ Q)].
  destruct (qt_self _ _ _ _ Q) as (mine & held & ->). done.
Qed.

(** The queues and the reasons to wait stay. *)
Lemma quiet_reasons s0 s1 t0 p0 :
  quiet t0 p0 s0 s1 -> (forall t, reasons s0 t (queue_of s0 t)) -> blocked None s1.
Proof.
  intros Q R t l1 ahead q rest Hl1 _ Hwq.
  eapply (reasons_grows s0 s1); [by eapply quiet_grows|by intros; eapply quiet_mode|apply R|].
  rewrite <- (qt_queue _ _ _ _ Q), (queue_of_Some _ _ _ Hl1). apply Hwq.
Qed.

Lemma blocked_reasons s0 : blocked None s0 <-> forall t, reasons s0 t (queue_of s0 t).
Proof.
  split.
  - intros B t pre q post E. unfold queue_of in E. destruct (locks s0 !! t) as [l0|] eqn:El.
    + by apply (B t l0 pre q post).
    + by destruct pre.
  - intros R t l0 ahead q rest Hl _ E. apply (R t ahead q rest). by rewrite (queue_of_Some _ _ _ Hl).
Qed.

Lemma setup_tidy : tidy None s -> tidy (Some (tag, p)) s'.
Proof.
  intros [T1 T2]. pose proof setup_quiet as Q. split.
  - intros t q x Hx Hex. rewrite (qt_dom _ _ _ _ Q) in Hx by congruence.
    destruct (T1 t q x Hx) as [?|(l0 & Hl0 & Hin)]; [done|by left|right].
    rewrite <- (queue_of_Some _ _ _ Hl0), <- (qt_queue _ _ _ _ Q) in Hin.
    unfold queue_of in Hin. destruct (locks s' !! t) as [l1|]; [by exists l1|by apply elem_of_nil in Hin].
  - intros t l0 Hl0 Hex. rewrite (qt_locks _ _ _ _ Q) in Hl0; [by apply (T2 t)|].
    intros ->. by destruct (Hex p).
Qed.

(** [SetupLockInTable] counts the request, or finds no memory and changes
    nothing. *)
Lemma SetupLockInTable_spec room :
  good s -> holdb (hold s tag p) m = false ->
  (p ∈ queue_of s tag -> waitLockMode (procs s p) <> m) ->
  SetupLockInTable room p tag m s = Some (SetupNoMemory, s) \/
  SetupLockInTable room p tag m s = Some (SetupOK, s') /\
    wf (Some (tag, p, m)) s' /\ excl s' /\ tidy (Some (tag, p)) s' /\ blocked None s'.
Proof.
  intros G Hh Hw. unfold SetupLockInTable. rewrite hash_enter_lock. fold l.
  destruct (room.1 || bool_decide (is_Some (locks s !! tag))) eqn:Eroom; [|by left].
  destruct (lock_found s tag H) as [Hok Hq]. fold l in Hok, Hq.
  assert (Hreq : forall i, i ∈ lockmodes -> 0 <= count (granted l) i <= count (requested l) i).
  { intros i Hi. pose proof (lo_count_nonneg _ _ _ _ i Hok Hi).
    pose proof (lo_requested_ge l _ _ _ Hok i Hi). lia. }
  pose proof (Hreq m Hm). pose proof (total_nonneg (granted l) (fun i Hi => proj1 (Hreq i Hi))).
  pose proof (total_le _ _ (fun i Hi => proj2 (Hreq i Hi))).
  assert (0 <= nRequested l) by (rewrite (lo_nRequested _ _ _ _ Hok); lia).
  rewrite (lo_nGranted _ _ _ _ Hok), (lo_nRequested _ _ _ _ Hok).
  rewrite !(proj2 (Z.leb_le _ _)) by lia. rewrite orb_true_r. unfold hash_enter.
  assert (Htail : forall x : option shared, x = Some s' ->
    (s0 ← x; Some (SetupOK, s0)) = Some (SetupOK, s') /\
    wf (Some (tag, p, m)) s' /\ excl s' /\ tidy (Some (tag, p)) s' /\ blocked None s').
  { intros x ->. split; [done|]. split; [by apply setup_wf|].
    split; [eapply quiet_excl; [apply setup_quiet|apply G]|].
    split; [apply setup_tidy, G|]. eapply quiet_reasons; [apply setup_quiet|].
    apply blocked_reasons, G. }
  destruct (proclocks s !! (tag, p)) as [pl|] eqn:Epl.
  - right. pose proof (hold_Some _ _ _ _ Epl) as Hp. rewrite Hp in Hh. cbn in Hh.
    assert (Hsub : Z.land (holdMask pl) (Z.lnot (grantMask l)) = 0).
    { destruct (wf_orphan _ _ H tag p) as [l0 Hl0]; [by rewrite Epl|].
      apply (wf_held_granted None s tag p); [done| |done]. unfold l. by rewrite Hl0. }
    rewrite Hsub. cbn [negb orb Z.eqb]. cbn [nRequested requested].
    rewrite count_bump, Z.eqb_refl by (done || apply Hok).
    rewrite !(proj2 (Z.ltb_lt _ _)) by lia. cbn [andb].
    rewrite holds_testbit, Hh by (apply lockmodes_range in Hm; lia).
    destruct (Htail (Some s') eq_refl) as [_ Ht]. split; [|done].
    unfold s', setup_state. fold l. by rewrite Epl.
  - cbn [negb orb]. destruct room.2.
    + right. cbn [negb orb nRequested requested set_procLocks holdMask].
      rewrite count_bump, Z.eqb_refl by (done || apply Hok).
      rewrite !(proj2 (Z.ltb_lt _ _)) by lia. cbn [andb].
      rewrite holds_testbit, Z.bits_0 by (apply lockmodes_range in Hm; lia).
      destruct (Htail (Some s') eq_refl) as [_ Ht]. split; [|done].
      unfold s', setup_state. fold l. by rewrite Epl.
    + left. destruct (locks s !! tag) as [l0|] eqn:El; cbn in l; subst l.
      * assert (Hn : total (requested l0) <> 0).
        { rewrite <- (lo_nRequested _ _ _ _ Hok). intros E0.
          pose proof (no_requests _ _ _ _ Hok (fun i _ => Z.le_refl 0) E0) as Hno.
          destruct (procLocks l0) as [|q qs] eqn:Eps.
          - destruct (good_tidy _ G) as [_ T2]. by apply (T2 tag l0).
          - assert (Hqq : is_Some (hold s tag q)) by (apply (lo_dom _ _ _ _ Hok); rewrite Eps; constructor).
            apply hold_is_Some in Hqq as [x Hx]. destruct (Hno q) as [Z0 Zw].
            rewrite (hold_Some _ _ _ _ Hx) in Z0. specialize (Z0 _ eq_refl).
            destruct (good_tidy _ G) as [T1 _].
            destruct (T1 tag q x Hx ltac:(done)) as [?|(l1 & Hl1 & Hin)]; [done|].
            assert (l1 = l0) as -> by congruence. by apply Zw. }
        rewrite (proj2 (Z.eqb_neq _ _) Hn). unfold put_lock. rewrite insert_id by done.
        by destruct s.
      * cbn. unfold del_lock. rewrite delete_id by done. by destruct s.
Qed.
End Setup.

(** ** Granting or dropping a request *)

(** A counted request that conflicts with nobody's locks is granted. *)
Lemma grant_good s tag p m l pl :
  wf (Some (tag, p, m)) s -> excl s -> tidy (Some (tag, p)) s -> blocked None s ->
  locks s !! tag = Some l -> proclocks s !! (tag, p) = Some pl -> ~ conflicting s tag p m ->
  GrantLock tag (tag, p) m s = Some (grant_state tag p m l pl s) /\
  good (grant_state tag p m l pl s).
Proof.
  intros H E [T1 T2] B Hl Hpl Hc. destruct (wf_pend _ _ H _ _ _ eq_refl) as (Hm & _ & _).
  destruct (GrantLock_pending s tag p m l pl H Hl Hpl) as [Hg H'].
  pose proof (wf_lock _ _ H _ _ Hl) as Hok.
  split; [done|]. split; [done|..].
  - eapply (excl_grant s _ tag p m); try done. intros t q i. rewrite hold_grant by done.
    intros [?|[E1 E2]%andb_true_iff]%orb_true_iff; [by left|right].
    apply bool_decide_eq_true in E1. apply Z.eqb_eq in E2. by simplify_eq.
  - split.
    + intros t q x Hx _. cbn in Hx. destruct (decide ((t, q) = (tag, p))) as [[= -> ->]|Hne].
      * left. rewrite lookup_insert_eq in Hx. injection Hx as <-. cbn. intros H0.
        pose proof (testbit_lor_on (holdMask pl) m m Hm) as Hb.
        by rewrite H0, Z.bits_0, Z.eqb_refl, orb_true_r in Hb.
      * rewrite lookup_insert_ne in Hx by done.
        destruct (T1 t q x Hx) as [?|(l0 & Hl0 & Hq)]; [congruence|by left|right]. cbn.
        destruct (decide (t = tag)) as [->|Ht].
        -- eexists. split; [apply lookup_insert_eq|]. by simplify_eq.
        -- exists l0. by rewrite lookup_insert_ne.
    + intros t l0 Hl0 _. cbn in Hl0. destruct (decide (t = tag)) as [->|Ht].
      * rewrite lookup_insert_eq in Hl0. injection Hl0 as <-. cbn. intros Hn.
        assert (Hp : p ∈ procLocks l).
        { apply (lo_dom _ _ _ _ Hok). rewrite (hold_Some _ _ _ _ Hpl). by eexists. }
        rewrite Hn in Hp. by apply elem_of_nil in Hp.
      * rewrite lookup_insert_ne in Hl0 by done. apply (T2 t l0 Hl0). congruence.
  - eapply (blocked_grows None s); [by apply grows_grant| |done].
    intros t l0 Hl0 _. cbn in Hl0. destruct (decide (t = tag)) as [->|Ht].
    + rewrite lookup_insert_eq in Hl0. injection Hl0 as <-. by exists l.
    + rewrite lookup_insert_ne in Hl0 by done. by exists l0.
Qed.

(** Withdrawing the request of [p], as for [dontWait]. *)
Definition withdraw_state (tag : LOCKTAG) (m : Z) (l : LOCK) (s : shared) : shared :=
  put_lock tag (requested_lock m (-1) l) s.

Lemma withdraw_wf s tag p m l :
  wf (Some (tag, p, m)) s -> locks s !! tag = Some l -> wf None (withdraw_state tag m l s).
Proof.
  intros H Hl. destruct (wf_pend _ _ H _ _ _ eq_refl) as (Hm & _ & _).
  pose proof (wf_lock _ _ H _ _ Hl) as Hok.
  apply (wf_frame (Some (tag, p, m)) None s _ tag (requested_lock m (-1) l) p); try done.
  - eapply lock_ok_request; [done|done|]. intros i Hi. rewrite extra_of_self. cbn. by destruct (m =? i).
  - intros t Ht. symmetry. by apply extra_of_other.
  - intros q _. by rewrite (queue_of_Some _ _ _ Hl).
  - apply wait_same; try done. by rewrite (queue_of_Some _ _ _ Hl).
  - apply (wf_mine _ _ H).
  - apply (wf_mine_nodup _ _ H).
  - apply (wf_leader _ _ H).
  - apply (wf_method _ _ H). by rewrite Hl.
Qed.

(** Somebody else has a lock or waits for one. *)
Definition busy (s : shared) (tag : LOCKTAG) (p : nat) (m : Z) : Prop :=
  behind s (queue_of s tag) m \/ conflicting s tag p m.

Lemma busy_requests s tag p m l :
  wf (Some (tag, p, m)) s -> locks s !! tag = Some l -> busy s tag p m -> 1 < nRequested l.
Proof.
  intros H Hl Hb. destruct (wf_pend _ _ H _ _ _ eq_refl) as (Hm & _ & _).
  pose proof (wf_lock _ _ H _ _ Hl) as Hok.
  pose proof (lock_ok_request l _ _ _ m Hok Hm (-1) (fun _ => 0)) as Hok'.
  assert (He : forall i, i ∈ lockmodes -> 0 = extra_of (Some (tag, p, m)) tag i + (if m =? i then -1 else 0)).
  { intros i _. rewrite extra_of_self. by destruct (m =? i). }
  specialize (Hok' He).
  assert (Hn : nRequested (requested_lock m (-1) l) <> 0).
  { intros E0. pose proof (no_requests _ _ _ _ Hok' (fun i _ => Z.le_refl 0) E0) as Hno.
    destruct Hb as [(q & Hq & _)|(q & i & _ & _ & _ & Hh)].
    - rewrite (queue_of_Some _ _ _ Hl) in Hq. by apply (Hno q).
    - destruct (hold s tag q) as [x|] eqn:Ex; [|done]. cbn in Hh.
      destruct (Hno q) as [Z0 _]. by rewrite (Z0 x Ex), Z.bits_0 in Hh. }
  cbn in Hn. assert (0 <= nRequested l + -1); [|lia].
  pose proof (lo_nRequested _ _ _ _ Hok') as Ht. cbn in Ht. rewrite Ht. apply total_nonneg. intros i Hi.
  rewrite (lo_requested _ _ _ _ Hok') by done. pose proof (lo_count_nonneg _ _ _ _ i Hok' Hi).
  pose proof (countb_nonneg (fun q => waitLockMode (procs s q) =? i) (waitProcs l)). cbn in *. lia.
Qed.

(** The state after [dontWait] gave up: as before the request. *)
Lemma dontWait_good s tag p m l pl :
  wf (Some (tag, p, m)) s -> excl s -> tidy (Some (tag, p)) s -> blocked None s ->
  locks s !! tag = Some l -> proclocks s !! (tag, p) = Some pl -> p ∉ waitProcs l ->
  1 < nRequested l ->
  exists s1, (if holdMask pl =? 0 then remove_proclock (tag, p) s else Some s) = Some s1 /\
  exists l1, locks s1 !! tag = Some l1 /\ nRequested l1 = nRequested l /\
    requested l1 = requested l /\ nGranted l1 = nGranted l /\
    exists s2, withdraw_state tag m l1 s1 = s2 /\ good s2 /\ quiet tag p s s2.
Proof.
  intros H E [T1 T2] B Hl Hpl Hnw Hn. pose proof (withdraw_wf s tag p m l H Hl) as Hwd.
  set (sA := withdraw_state tag m l s) in *.
  assert (HlA : locks sA !! tag = Some (requested_lock m (-1) l)) by (cbn; apply lookup_insert_eq).
  destruct (Z.eqb_spec (holdMask pl) 0) as [E0|E0].
  - destruct (remove_proclock_spec sA tag p (requested_lock m (-1) l) pl Hwd HlA Hpl E0 Hnw)
      as (s2 & Hs2 & H2 & Hlocks & Hpls & Hprocs & Hself).
    unfold remove_proclock in Hs2. cbn [proclocks sA withdraw_state put_lock fst snd] in Hs2.
    rewrite Hpl in Hs2. cbn [mbind option_bind] in Hs2. rewrite HlA in Hs2. cbn [mbind option_bind] in Hs2.
    injection Hs2 as Hs2.
    unfold remove_proclock. cbn [fst snd]. rewrite Hpl. cbn [mbind option_bind]. rewrite Hl.
    cbn [mbind option_bind]. eexists. split; [reflexivity|].
    eexists. split; [cbn; apply lookup_insert_eq|]. split; [done|]. split; [done|]. split; [done|].
    exists s2. split.
    { rewrite <- Hs2. unfold withdraw_state, put_lock. cbn. by rewrite !insert_insert_eq. }
    set (l2 := set_procLocks (unlink p (procLocks (requested_lock m (-1) l))) (requested_lock m (-1) l)) in *.
    assert (Hl2 : locks s2 !! tag = Some l2) by (rewrite Hlocks; apply lookup_insert_eq).
    assert (Q : quiet tag p s s2).
    { split.
      - intros q. unfold leader_of. destruct (decide (q = p)) as [->|]; [by rewrite Hself|by rewrite Hprocs].
      - intros t Ht. rewrite Hlocks, lookup_insert_ne by done. cbn. by rewrite lookup_insert_ne.
      - intros t q i. unfold hold. rewrite Hpls. destruct (decide ((t, q) = (tag, p))) as [[= -> ->]|Hne].
        + rewrite lookup_delete_eq, Hpl. cbn. by rewrite E0, Z.bits_0.
        + by rewrite lookup_delete_ne.
      - intros q Hne. by rewrite Hprocs.
      - rewrite Hself. apply touched_mine.
      - intros t. unfold queue_of. rewrite Hlocks. destruct (decide (t = tag)) as [->|Ht].
        + by rewrite lookup_insert_eq, Hl.
        + rewrite lookup_insert_ne by done. cbn. by rewrite lookup_insert_ne.
      - intros t q Hne. rewrite Hpls. by rewrite lookup_delete_ne. }
    split; [|done]. split; [done|by eapply quiet_excl| |eapply quiet_reasons; [done|by apply blocked_reasons]].
    split.
    + intros t q x Hx _. rewrite Hpls in Hx. apply lookup_delete_Some in Hx as [Hne Hx].
      destruct (T1 t q x Hx) as [?|(l0 & Hl0 & Hin)]; [congruence|by left|right].
      rewrite <- (queue_of_Some _ _ _ Hl0), <- (qt_queue _ _ _ _ Q) in Hin.
      unfold queue_of in Hin. destruct (locks s2 !! t) as [l1|]; [by exists l1|by apply elem_of_nil in Hin].
    + intros t l0 Hl0 _. destruct (decide (t = tag)) as [->|Ht].
      * rewrite Hl2 in Hl0. injection Hl0 as <-. intros Hnil.
        pose proof (some_request _ _ _ (wf_lock _ _ H2 _ _ Hl2) Hnil) as Hz. cbn in Hz. lia.
      * rewrite (qt_locks _ _ _ _ Q) in Hl0 by done. apply (T2 t l0 Hl0). congruence.
  - exists s. split; [done|]. exists l. split; [done|]. split; [done|]. split; [done|]. split; [done|].
    exists sA. split; [done|]. assert (Q : quiet tag p s sA).
    { split; try done.
      - intros t Ht. cbn. by rewrite lookup_insert_ne.
      - apply touched_refl.
      - intros t. unfold queue_of. cbn. destruct (decide (t = tag)) as [->|Ht].
        + by rewrite lookup_insert_eq, Hl.
        + by rewrite lookup_insert_ne. }
    split; [|done]. split; [done|by eapply quiet_excl| |eapply quiet_reasons; [done|by apply blocked_reasons]].
    split.
    + intros t q x Hx _. destruct (decide ((t, q) = (tag, p))) as [[= -> ->]|Hne].
      { left. cbn in Hx. congruence. }
      destruct (T1 t q x Hx) as [?|(l0 & Hl0 & Hin)]; [congruence|by left|right].
      rewrite <- (queue_of_Some _ _ _ Hl0), <- (qt_queue _ _ _ _ Q) in Hin.
      unfold queue_of in Hin. destruct (locks sA !! t) as [l1|]; [by exists l1|by apply elem_of_nil in Hin].
    + intros t l0 Hl0 _. destruct (decide (t = tag)) as [->|Ht].
      * rewrite HlA in Hl0. injection Hl0 as <-. cbn.
        intros Hnil. assert (Hp : p ∈ procLocks l).
        { apply (lo_dom _ _ _ _ (wf_lock _ _ H _ _ Hl)). rewrite (hold_Some _ _ _ _ Hpl). by eexists. }
        rewrite Hnil in Hp. by apply elem_of_nil in Hp.
      * rewrite (qt_locks _ _ _ _ Q) in Hl0 by done. apply (T2 t l0 Hl0). congruence.
Qed.

(** ** Joining the wait queue *)

Lemma behind_mono s pre pre' m :
  (forall q, q ∈ pre -> q ∈ pre') -> behind s pre m -> behind s pre' m.
Proof. intros Hs (q & Hq & Hc). exists q. split; [by apply Hs|done]. Qed.

Lemma group_held_total s tag ldr ps held :
  (forall q, q ∈ ps -> is_Some (proclocks s !! (tag, q))) ->
  exists mask, group_held tag ldr ps held s = Some mask.
Proof.
  revert held. induction ps as [|q ps IH]; intros held Hps; cbn [group_held]; [by eexists|].
  destruct (Hps q ltac:(constructor)) as [pl ->]. cbn [mbind option_bind].
  apply IH. intros x Hx. apply Hps. by constructor.
Qed.

(** [aheadRequests] of [ProcSleep] leaves out the waiters of the own group. *)
Definition mask_sub (s : shared) (ahead : list nat) (mask : Z) : Prop :=
  forall m, m ∈ lockmodes -> Z.testbit mask m = true ->
    exists q, q ∈ ahead /\ waitLockMode (procs s q) = m.

Section Sleep.
Context (s : shared) (tag : LOCKTAG) (p : nat) (m : Z) (l : LOCK) (pl : PROCLOCK).
Context (H : wf (Some (tag, p, m)) s) (Hl : locks s !! tag = Some l).
Context (Hpl : proclocks s !! (tag, p) = Some pl) (Hfree : links (procs s p) = false).

Let Hok := wf_lock _ _ H _ _ Hl.
Let Hm : m ∈ lockmodes := proj1 (wf_pend _ _ H _ _ _ eq_refl).

Lemma not_waiting : p ∉ waitProcs l.
Proof. intros Hp. pose proof (wf_queue _ _ H _ _ _ Hl Hp) as [W _ _ _]. congruence. Qed.

(** What the scan of the wait queue finds. *)
Definition scan_ok (wq : list nat) (r : scan) : Prop :=
  match r with
  | ScanEnd => True
  | ScanDeadlock q => q ∈ wq
  | ScanGrant => ~ conflicting s tag p m
  | ScanBefore q => exists pre post, wq = pre ++ q :: post /\
      (behind s pre m \/ conflicting s tag p m)
  end.

Lemma ProcSleep_scan_spec me held queue : forall pre mask,
  waitProcs l = pre ++ queue -> mask_sub s pre mask ->
  exists r, ProcSleep_scan me m tag (tag, p) held queue mask s = Some r /\ scan_ok (waitProcs l) r.
Proof.
  induction queue as [|q queue IH]; intros pre mask Hq Hmask; cbn [ProcSleep_scan]; [by eexists|].
  assert (Hin : q ∈ waitProcs l) by (rewrite Hq; apply elem_of_app; right; constructor).
  destruct (lo_wait _ _ _ _ Hok q Hin) as (_ & Hqm & _).
  assert (Hq' : waitProcs l = (pre ++ [q]) ++ queue) by (by rewrite <- app_assoc).
  assert (Hgrow : mask_sub s (pre ++ [q]) mask).
  { intros i Hi Ht. destruct (Hmask i Hi Ht) as (x & Hx & Hxm). exists x.
    split; [apply elem_of_app; by left|done]. }
  destruct (_ && _); [by apply (IH (pre ++ [q]))|].
  destruct (negb _).
  - destruct (negb _); [by exists (ScanDeadlock q)|].
    destruct (Z.eqb_spec (Z.land (conflictTab m) mask) 0) as [E|E].
    + destruct (LockCheckConflicts_spec _ s tag l p m H Hl Hm ltac:(rewrite Hpl; by eexists) me)
        as (st & -> & [[-> Hc]|[-> Hc]]); cbn [mbind option_bind].
      * rewrite bool_decide_eq_true_2 by done. by exists ScanGrant.
      * rewrite bool_decide_eq_false_2 by done. exists (ScanBefore q). split; [done|].
        exists pre, queue. split; [done|by right].
    + cbn [mbind option_bind]. rewrite bool_decide_eq_false_2 by done.
      exists (ScanBefore q). split; [done|]. exists pre, queue. split; [done|]. left.
      destruct (decide (Exists (fun x => DoLockModesConflict m (waitLockMode (procs s x)) = true) pre))
        as [Hx|Hx].
      * apply list.Exists_exists in Hx as (x & Hx'). by exists x.
      * destruct E. rewrite land_conflict by done. intros i Hi Hc.
        destruct (Z.testbit mask i) eqn:Ei; [|done].
        destruct (Hmask i Hi Ei) as (x & Hx' & <-). destruct Hx. apply list.Exists_exists. by exists x.
  - apply (IH (pre ++ [q])); [done|]. intros i Hi. rewrite testbit_lor_on by done.
    intros [Ht|Ht%Z.eqb_eq]%orb_true_iff; [by apply Hgrow|].
    exists q. split; [apply elem_of_app; right; constructor|done].
Qed.

(** The state in which [p] waits. *)
Definition sleep_state (r : scan) : shared :=
  put_proc p (set_wait true STATUS_WAITING (Some tag) (Some (tag, p)) m (procs s p))
    (put_lock tag (set_waitMask (Z.lor (waitMask l) (LOCKBIT_ON m))
                     (set_waitProcs (enqueue r p (waitProcs l)) l)) s).

Lemma sleep_wf r : wf None (sleep_state r).
Proof.
  pose proof not_waiting as Hnw. pose proof (proj1 (proj2 (wf_pend _ _ H _ _ _ eq_refl))) as Hh.
  apply (wf_frame (Some (tag, p, m)) None s _ tag
    (set_waitMask (Z.lor (waitMask l) (LOCKBIT_ON m)) (set_waitProcs (enqueue r p (waitProcs l)) l)) p);
    try done.
  - intros q Hne. cbn. by rewrite fn_lookup_insert_ne.
  - cbn. by rewrite fn_lookup_insert.
  - cbn. by rewrite fn_lookup_insert.
  - eapply (lock_ok_enqueue l _ _ _ p m Hok Hm); try done.
    + rewrite hold_is_Some. change (is_Some (proclocks s !! (tag, p))). rewrite Hpl. by eexists.
    + apply enqueue_perm.
    + cbn. by rewrite fn_lookup_insert.
    + intros q Hne. cbn. by rewrite fn_lookup_insert_ne.
    + intros i. rewrite extra_of_self. cbn. by destruct (m =? i).
  - intros t Ht. symmetry. by apply extra_of_other.
  - intros q Hne. cbn. rewrite enqueue_perm, elem_of_cons, (queue_of_Some _ _ _ Hl). tauto.
  - apply wait_joins; [done| |cbn; rewrite enqueue_perm; constructor].
    cbn. rewrite fn_lookup_insert. done.
  - intros part t. cbn. rewrite fn_lookup_insert. apply (wf_mine _ _ H).
  - intros part. cbn. rewrite fn_lookup_insert. apply (wf_mine_nodup _ _ H).
  - intros x. apply (wf_leader _ _ H).
  - apply (wf_method _ _ H). by rewrite Hl.
Qed.

Lemma sleep_mode r q : q <> p -> waitLockMode (procs (sleep_state r) q) = waitLockMode (procs s q).
Proof. intros Hne. cbn. by rewrite fn_lookup_insert_ne. Qed.

Lemma sleep_mode_self r : waitLockMode (procs (sleep_state r) p) = m.
Proof. cbn. by rewrite fn_lookup_insert. Qed.

Lemma sleep_leader r q : leader_of (sleep_state r) q = leader_of s q.
Proof.
  unfold leader_of. cbn. destruct (decide (q = p)) as [->|Hne];
    [by rewrite fn_lookup_insert|by rewrite fn_lookup_insert_ne].
Qed.

Lemma sleep_tidy r : tidy (Some (tag, p)) s -> tidy None (sleep_state r).
Proof.
  intros [T1 T2]. split.
  - intros t q x Hx _. destruct (decide ((t, q) = (tag, p))) as [[= -> ->]|Hne].
    + right. eexists. split; [cbn; apply lookup_insert_eq|]. cbn. rewrite enqueue_perm. constructor.
    + destruct (T1 t q x Hx) as [?|(l0 & Hl0 & Hin)]; [congruence|by left|right].
      destruct (decide (t = tag)) as [->|Ht].
      * eexists. split; [cbn; apply lookup_insert_eq|]. cbn. rewrite enqueue_perm.
        apply elem_of_cons. right. by simplify_eq.
      * exists l0. split; [|done]. cbn. by rewrite lookup_insert_ne.
  - intros t l0 Hl0 _. cbn in Hl0. destruct (decide (t = tag)) as [->|Ht].
    + rewrite lookup_insert_eq in Hl0. injection Hl0 as <-. cbn. intros Hn.
      assert (Hp : p ∈ procLocks l).
      { apply (lo_dom _ _ _ _ Hok). rewrite (hold_Some _ _ _ _ Hpl). by eexists. }
      rewrite Hn in Hp. by apply elem_of_nil in Hp.
    + rewrite lookup_insert_ne in Hl0 by done. apply (T2 t l0 Hl0). congruence.
Qed.

Lemma sleep_grows r : grows s (sleep_state r).
Proof. split; [apply sleep_leader|done]. Qed.

Lemma sleep_blocked_other r : blocked None s -> blocked (Some tag) (sleep_state r).
Proof.
  intros B. eapply (blocked_grows _ s); [apply sleep_grows| |by apply blocked_weaken].
  intros t l0 Hl0 Ht. assert (t <> tag) by congruence. cbn in Hl0. rewrite lookup_insert_ne in Hl0 by done.
  exists l0. split; [done|]. split; [done|]. intros q Hq. apply sleep_mode. intros ->.
  pose proof (wf_queue _ _ H _ _ _ Hl0 Hq) as [W _ _ _]. congruence.
Qed.

Lemma insert_before_mid pre q post :
  q ∉ pre -> insert_before q p (pre ++ q :: post) = pre ++ p :: q :: post.
Proof.
  induction pre as [|x pre IH]; cbn; intros Hq.
  - by rewrite bool_decide_eq_true_2.
  - apply not_elem_of_cons in Hq as [Hne Hq]. rewrite bool_decide_eq_false_2 by congruence. by rewrite IH.
Qed.

(** Putting [p] into a queue whose members have a reason to wait. *)
Lemma reasons_insert r pre post :
  reasons s tag (waitProcs l) -> waitProcs l = pre ++ post ->
  behind s pre m \/ conflicting s tag p m ->
  reasons (sleep_state r) tag (pre ++ p :: post).
Proof.
  intros R Hwq Hp pre0 q post0 E. pose proof not_waiting as Hnw.
  assert (Hne : forall x, x ∈ waitProcs l -> x <> p) by (by intros x Hx ->).
  assert (Hold : forall a x, (forall y, y ∈ a -> y ∈ waitProcs l) -> x ∈ waitProcs l ->
    reason s tag a x -> forall b, (forall y, y ∈ a -> y ∈ b) -> reason (sleep_state r) tag b x).
  { intros a x Ha Hx [(y & Hy & Hc)|Hc] b Hb; unfold reason; rewrite sleep_mode by auto.
    - left. exists y. split; [auto|]. rewrite sleep_mode; [done|]. auto.
    - right. eapply conflicting_grows; [apply sleep_grows|done]. }
  assert (Hsplit : forall x, x ∈ pre \/ x ∈ post -> x ∈ waitProcs l).
  { intros x Hx. rewrite Hwq. by apply elem_of_app. }
  apply app_eq_inv in E as [(k & Hk1 & Hk2)|(k & Hk1 & Hk2)].
  - destruct k as [|k0 k].
    + cbn in Hk2. assert (q = p) as -> by congruence. rewrite app_nil_r in Hk1. subst pre.
      unfold reason. rewrite sleep_mode_self. destruct Hp as [(y & Hy & Hc)|Hc].
      * left. exists y. split; [done|]. rewrite sleep_mode; [done|]. apply Hne, Hsplit. by left.
      * right. eapply conflicting_grows; [apply sleep_grows|done].
    + cbn in Hk2. injection Hk2 as <- Hk2. subst pre.
      apply (Hold pre0 q); [|apply Hsplit; left; apply elem_of_app; right; constructor| |done].
      * intros y Hy. apply Hsplit. left. apply elem_of_app. by left.
      * apply (R pre0 q (k ++ post)). by rewrite Hwq, <- app_assoc.
  - destruct k as [|k0 k].
    + cbn in Hk2. assert (q = p) as -> by congruence. rewrite app_nil_r in Hk1. subst pre0.
      unfold reason. rewrite sleep_mode_self. destruct Hp as [(y & Hy & Hc)|Hc].
      * left. exists y. split; [done|]. rewrite sleep_mode; [done|]. apply Hne, Hsplit. by left.
      * right. eapply conflicting_grows; [apply sleep_grows|done].
    + cbn in Hk2. injection Hk2 as <- Hk2. subst pre0 post.
      apply (Hold (pre ++ k) q); [| | |].
      * intros y [Hy|Hy]%elem_of_app; apply Hsplit; [by left|right; apply elem_of_app; by left].
      * apply Hsplit. right. apply elem_of_app. right. constructor.
      * apply (R (pre ++ k) q post0). by rewrite Hwq, <- app_assoc.
      * intros y [Hy|Hy]%elem_of_app; apply elem_of_app; [by left|right; by constructor].
Qed.

(** [p] sleeps for a reason, and nobody else lost his. *)
Lemma sleep_good r :
  excl s -> tidy (Some (tag, p)) s -> blocked None s -> busy s tag p m ->
  scan_ok (waitProcs l) r -> (forall q, r <> ScanDeadlock q) -> r <> ScanGrant ->
  good (sleep_state r).
Proof.
  intros E T B Hb Hr Hd Hg. pose proof (proj1 (blocked_reasons s) B tag) as R.
  rewrite (queue_of_Some _ _ _ Hl) in R.
  assert (Hnew : reasons (sleep_state r) tag (enqueue r p (waitProcs l))).
  { destruct r as [|q| |q]; [|by destruct (Hd q)|done|].
    - apply (reasons_insert _ (waitProcs l) []); [done|by rewrite app_nil_r|].
      unfold busy in Hb. by rewrite (queue_of_Some _ _ _ Hl) in Hb.
    - destruct Hr as (pre & post & Hwq & Hp). cbn [enqueue]. rewrite Hwq, insert_before_mid.
      + by apply reasons_insert.
      + pose proof (lo_nodup_w _ _ _ _ Hok) as Hnd. rewrite Hwq in Hnd.
        apply NoDup_app in Hnd as (_ & Hd' & _). intros Hx. apply (Hd' q Hx). constructor. }
  split; [apply sleep_wf| |by apply sleep_tidy|].
  - intros t p1 p2 m1 m2. rewrite !sleep_leader. apply E.
  - intros t l0 ahead q rest Hl0 _ Hwq. destruct (decide (t = tag)) as [->|Ht].
    + cbn in Hl0. rewrite lookup_insert_eq in Hl0. injection Hl0 as <-. cbn in Hwq.
      by apply (Hnew ahead q rest).
    + apply (sleep_blocked_other r B t l0 ahead q rest Hl0); congruence.
Qed.
End Sleep.

Lemma effect_refl_but tag p s s' :
  (forall q, leader_of s' q = leader_of s q) ->
  (forall t, t <> tag -> locks s' !! t = locks s !! t) ->
  (forall t q i, (t, q) <> (tag, p) -> holdb (hold s' t q) i = holdb (hold s t q) i) ->
  (forall q, q <> p -> procs s' q = procs s q) ->
  (forall q, q <> p -> q ∈ queue_of s' tag <-> q ∈ queue_of s tag) ->
  (forall t q, (t, q) <> (tag, p) -> proclocks s' !! (t, q) = proclocks s !! (t, q)) ->
  effect tag (Some p) s s'.
Proof.
  intros H1 H2 H3 H4 H5 H6.
  assert (Hx : forall t q, ~ (t = tag /\ Some p = Some q) -> (t, q) <> (tag, p)) by naive_solver.
  split; auto.
  - intros t q i Hne%Hx. rewrite H3 by done. split; [by left|]. intros [?|(-> & Q1 & Q2 & _)]; [done|].
    destruct Q2. by apply H5; [congruence|].
  - intros q Hne. left. split; [apply H4|apply H5]; congruence.
  - intros t q Ht. apply H6. congruence.
  - intros t q Hne%Hx. by rewrite H6.
Qed.

Lemma quiet_effect tag p s s' : quiet tag p s s' -> effect tag (Some p) s s'.
Proof.
  intros Q. apply effect_refl_but; try apply Q.
  - intros t q i _. apply Q.
  - intros q _. by rewrite (qt_queue _ _ _ _ Q).
Qed.

Lemma effect_quiet tag p s1 s2 s3 :
  quiet tag p s1 s2 -> effect tag (Some p) s2 s3 -> effect tag (Some p) s1 s3.
Proof.
  intros Q Ef. eapply effect_before; [by right|apply Ef|apply Q|apply Q| |apply Q| |].
  - intros t q i _. apply Q.
  - intros q _. by rewrite (qt_queue _ _ _ _ Q).
  - intros t q Hne. by rewrite (qt_dom _ _ _ _ Q).
Qed.

Lemma grant_effect s tag p m l pl :
  locks s !! tag = Some l -> proclocks s !! (tag, p) = Some pl ->
  effect tag (Some p) s (grant_state tag p m l pl s).
Proof.
  intros Hl Hpl. apply effect_refl_but; try done.
  - intros t Ht. cbn. by rewrite lookup_insert_ne.
  - intros t q i Hne. unfold grant_state. rewrite hold_insert. by rewrite bool_decide_eq_false_2.
  - intros q _. rewrite (queue_of_Some s _ _ Hl). unfold queue_of. cbn. by rewrite lookup_insert_eq.
  - intros t q Hne. cbn. by rewrite lookup_insert_ne.
Qed.

Lemma sleep_effect s tag p m l r :
  locks s !! tag = Some l -> effect tag (Some p) s (sleep_state s tag p m l r).
Proof.
  intros Hl. apply effect_refl_but; try done.
  - intros q. apply sleep_leader.
  - intros t Ht. cbn. by rewrite lookup_insert_ne.
  - intros q Hne. cbn. by rewrite fn_lookup_insert_ne.
  - intros q Hne. rewrite (queue_of_Some s _ _ Hl). unfold queue_of. cbn. rewrite lookup_insert_eq. cbn.
    rewrite enqueue_perm, elem_of_cons. tauto.
Qed.

Lemma ProcSleep_spec s tag p m l pl :
  wf (Some (tag, p, m)) s -> excl s -> tidy (Some (tag, p)) s -> blocked None s ->
  locks s !! tag = Some l -> proclocks s !! (tag, p) = Some pl -> links (procs s p) = false ->
  busy s tag p m ->
  exists r s', ProcSleep p m tag (tag, p) s = Some (r, s') /\ good s' /\ effect tag (Some p) s s' /\
    match r with
    | SleepGranted => procs s' p = procs s p /\ ~ conflicting s tag p m /\
        (forall t i, holdb (hold s' t p) i =
           holdb (hold s t p) i || bool_decide ((t, p) = (tag, p)) && (m =? i))
    | SleepWaiting => p ∈ queue_of s' tag /\
        procs s' p = set_wait true STATUS_WAITING (Some tag) (Some (tag, p)) m (procs s p) /\
        forall t i, holdb (hold s' t p) i = holdb (hold s t p) i
    | SleepDeadlock q => q ∈ queue_of s tag /\
        touched (set_wait false STATUS_ERROR None None m (procs s p)) (procs s' p) /\
        forall t i, holdb (hold s' t p) i = holdb (hold s t p) i
    end.
Proof.
  intros H E T B Hl Hpl Hfree Hb. pose proof (wf_lock _ _ H _ _ Hl) as Hok.
  unfold ProcSleep. rewrite Hl. cbn [mbind option_bind].
  assert (Hheld : exists held, match lockGroupLeader (procs s p) with
    | None => Some (heldLocks (procs s p))
    | Some leader => group_held tag leader (procLocks l) (heldLocks (procs s p)) s end = Some held).
  { destruct (lockGroupLeader (procs s p)); [|by eexists]. apply group_held_total.
    intros q Hq. by apply hold_is_Some, (lo_dom _ _ _ _ Hok). }
  destruct Hheld as [held ->]. cbn [mbind option_bind].
  assert (Hr : exists r, (if held =? 0 then Some ScanEnd
    else ProcSleep_scan p m tag (tag, p) held (waitProcs l) 0 s) = Some r /\
    scan_ok s tag p m (waitProcs l) r).
  { destruct (held =? 0); [by exists ScanEnd|].
    apply (ProcSleep_scan_spec s tag p m l pl H Hl Hpl p held (waitProcs l) [] 0); [done|].
    intros i Hi. by rewrite Z.bits_0. }
  destruct Hr as (r & -> & Hr). cbn [mbind option_bind].
  assert (Hwait : match r with ScanDeadlock _ | ScanGrant => False | _ => True end ->
    exists s', Some (SleepWaiting, sleep_state s tag p m l r) = Some (SleepWaiting, s') /\ good s' /\
      effect tag (Some p) s s' /\ p ∈ queue_of s' tag /\
      procs s' p = set_wait true STATUS_WAITING (Some tag) (Some (tag, p)) m (procs s p) /\
      forall t i, holdb (hold s' t p) i = holdb (hold s t p) i).
  { intros Hk. eexists. split; [done|]. split.
    - apply (sleep_good s tag p m l pl H Hl Hpl Hfree r E T B Hb Hr); [by intros q ->|by intros ->].
    - split; [by apply sleep_effect|]. split; [|split; [|done]].
      + unfold queue_of. cbn. rewrite lookup_insert_eq. cbn. rewrite enqueue_perm. constructor.
      + cbn. by rewrite fn_lookup_insert. }
  destruct r as [|q| |q].
  - destruct (Hwait I) as (s' & [= Hs'] & Hrest). exists SleepWaiting, s'. split; [|done].
    by rewrite <- Hs'.
  - assert (H1 : wf None (sleep_state s tag p m l (ScanDeadlock q))) by (by eapply sleep_wf).
    destruct (RemoveFromWaitQueue_spec p p tag
      (set_waitMask (Z.lor (waitMask l) (LOCKBIT_ON m))
         (set_waitProcs (enqueue (ScanDeadlock q) p (waitProcs l)) l))
      (sleep_state s tag p m l (ScanDeadlock q)) H1) as (s' & Hs' & G & Ef & Eh & mine & Ep).
    + intros t p1 p2 m1 m2. rewrite !sleep_leader. apply E.
    + by eapply sleep_tidy.
    + by eapply sleep_blocked_other.
    + cbn. apply lookup_insert_eq.
    + cbn [waitProcs set_waitMask set_waitProcs]. rewrite enqueue_perm. constructor.
    + exists (SleepDeadlock q), s'. split; [|split; [done|split]].
      * change (put_proc p _ _) with (sleep_state s tag p m l (ScanDeadlock q)). by rewrite Hs'.
      * eapply effect_before; [by right|apply Ef|apply sleep_leader|..].
        -- intros t Ht. cbn. by rewrite lookup_insert_ne.
        -- done.
        -- intros x Hne. cbn. by rewrite fn_lookup_insert_ne.
        -- intros x Hne. rewrite (queue_of_Some s _ _ Hl). unfold queue_of. cbn [locks sleep_state put_proc put_lock].
           rewrite lookup_insert_eq. cbn [waitProcs set_waitMask set_waitProcs].
           rewrite enqueue_perm, elem_of_cons. tauto.
        -- done.
      * split; [by rewrite (queue_of_Some _ _ _ Hl)|]. split; [|done].
        rewrite Ep. cbn. rewrite fn_lookup_insert. apply touched_mine.
  - destruct (grant_good s tag p m l pl H E T B Hl Hpl Hr) as [Hg G]. rewrite Hg. cbn [mbind option_bind].
    eexists SleepGranted, _. split; [done|]. split; [done|]. split; [by apply grant_effect|].
    split; [done|]. split; [done|]. intros t i. apply hold_grant; [done|].
    apply (proj1 (wf_pend _ _ H _ _ _ eq_refl)).
  - destruct (Hwait I) as (s' & [= Hs'] & Hrest). exists SleepWaiting, s'. split; [|done].
    by rewrite <- Hs'.
Qed.

Definition held_state (p : nat) (v : Z) (s : shared) : shared :=
  put_proc p (set_heldLocks v (procs s p)) s.

Lemma held_quiet tag p v s : quiet tag p s (held_state p v s).
Proof.
  split; try done.
  - intros q. unfold leader_of. cbn. destruct (decide (q = p)) as [->|Hne];
      [by rewrite fn_lookup_insert|by rewrite fn_lookup_insert_ne].
  - intros q Hne. cbn. by rewrite fn_lookup_insert_ne.
  - cbn. rewrite fn_lookup_insert. apply touched_held.
Qed.

Lemma held_wf pend tag p v l s :
  (forall t q m, pend = Some (t, q, m) -> t = tag) ->
  wf pend s -> locks s !! tag = Some l -> wf pend (held_state p v s).
Proof.
  intros Hpe H Hl.
  assert (Hm1 : forall q, waitLockMode (procs (held_state p v s) q) = waitLockMode (procs s q)).
  { intros q. by eapply quiet_mode, (held_quiet tag). }
  apply (wf_frame pend pend s _ tag l p); try done.
  - cbn. by rewrite insert_id.
  - intros q Hne. cbn. by rewrite fn_lookup_insert_ne.
  - cbn. by rewrite fn_lookup_insert.
  - cbn. by rewrite fn_lookup_insert.
  - eapply lock_ok_ext; [..|apply (wf_lock _ _ H _ _ Hl)]; [done| |done]. intros q _. by rewrite Hm1.
  - intros q _. by rewrite (queue_of_Some _ _ _ Hl).
  - apply wait_same; cbn; try by rewrite fn_lookup_insert. by rewrite (queue_of_Some _ _ _ Hl).
  - intros part t. cbn. rewrite fn_lookup_insert. apply (wf_mine _ _ H).
  - intros part. cbn. rewrite fn_lookup_insert. apply (wf_mine_nodup _ _ H).
  - intros x. apply (wf_leader _ _ H).
  - apply (wf_method _ _ H). by rewrite Hl.
  - intros t q m Hp. pose proof (Hpe _ _ _ Hp) as ->. destruct (wf_pend _ _ H _ _ _ Hp) as (P1 & P2 & P3).
    split_and!; try done. intros Hq. rewrite Hm1. by apply (P3 l).
Qed.

Lemma busy_quiet s s' tag p m : quiet tag p s s' -> busy s tag p m -> busy s' tag p m.
Proof.
  intros Q [(q & Hq & Hc)|Hc].
  - left. exists q. split; [by rewrite (qt_queue _ _ _ _ Q)|]. by rewrite (quiet_mode _ _ _ _ _ Q).
  - right. eapply conflicting_grows; [by eapply quiet_grows|done].
Qed.

Lemma touched_wait x y l st w wp m :
  touched x y -> touched (set_wait l st w wp m x) (set_wait l st w wp m y).
Proof. intros (mine & held & ->). exists mine, held. by destruct x. Qed.

(** The immediate test of [LockAcquireExtended]. *)
Lemma acquire_test s tag p m l pl :
  wf (Some (tag, p, m)) s -> locks s !! tag = Some l -> proclocks s !! (tag, p) = Some pl ->
  exists st, (if negb (Z.land (conflictTab m) (waitMask l) =? 0) then Some STATUS_FOUND
              else LockCheckConflicts p m tag (tag, p) s) = Some st /\
    (st = STATUS_OK /\ ~ conflicting s tag p m \/ st = STATUS_FOUND /\ busy s tag p m).
Proof.
  intros H Hl Hpl. destruct (wf_pend _ _ H _ _ _ eq_refl) as (Hm & _ & _).
  pose proof (wf_lock _ _ H _ _ Hl) as Hok.
  destruct (Z.eqb_spec (Z.land (conflictTab m) (waitMask l)) 0) as [E|E]; cbn [negb].
  - destruct (LockCheckConflicts_spec _ s tag l p m H Hl Hm ltac:(rewrite Hpl; by eexists) p)
      as (st & Hst & [[-> Hc]|[-> Hc]]); eexists; (split; [done|]); [by left|].
    right. split; [done|by right].
  - eexists. split; [done|]. right. split; [done|]. left. rewrite (queue_of_Some _ _ _ Hl).
    destruct (decide (Exists (fun x => DoLockModesConflict m (waitLockMode (procs s x)) = true) (waitProcs l)))
      as [Hx|Hx].
    + apply list.Exists_exists in Hx as (x & Hx'). by exists x.
    + destruct E. rewrite land_conflict by done. intros i Hi Hc.
      rewrite (lo_wmask_eq _ _ _ _ Hok) by done. apply Z.ltb_ge.
      rewrite countb_0; [done|]. intros x Hx'. apply Z.eqb_neq. intros <-.
      destruct Hx. apply list.Exists_exists. by exists x.
Qed.

(** What the critical section of [LockAcquireExtended] does: [r] says what
    became of the request of [p]. *)
Definition acquired (tag : LOCKTAG) (p : nat) (m : Z) (s s' : shared) (r : acquire) : Prop :=
  let x := procs s p in
  let same := forall t i, holdb (hold s' t p) i = holdb (hold s t p) i in
  match r with
  | AcquireGranted => touched x (procs s' p) /\ ~ conflicting s tag p m /\
      forall t i, holdb (hold s' t p) i =
        holdb (hold s t p) i || bool_decide ((t, p) = (tag, p)) && (m =? i)
  | AcquireNotAvail => touched x (procs s' p) /\ same /\ busy s tag p m
  | AcquireNoMemory => s' = s
  | AcquireWaiting => p ∈ queue_of s' tag /\ same /\
      touched (set_wait true STATUS_WAITING (Some tag) (Some (tag, p)) m x) (procs s' p)
  | AcquireDeadlock q => q ∈ queue_of s tag /\ same /\
      touched (set_wait false STATUS_ERROR None None m x) (procs s' p)
  | AcquireError => False
  end.

Lemma LockAcquire_locked_spec room s tag p m dontWait :
  good s -> m ∈ lockmodes -> 0 < locktag_lockmethodid tag < 3 -> links (procs s p) = false ->
  holdb (hold s tag p) m = false ->
  exists r s', LockAcquire_locked room p tag m dontWait s = Some (r, s') /\
    good s' /\ effect tag (Some p) s s' /\ acquired tag p m s s' r.
Proof.
  intros G Hm Hmet Hfree Hh. pose proof (good_wf _ G) as H. unfold LockAcquire_locked.
  assert (Hnq : forall t, p ∉ queue_of s t).
  { intros t Hq. pose proof (queue_links _ _ _ _ H Hq). congruence. }
  destruct (SetupLockInTable_spec s tag p m H Hm Hmet room G Hh) as [Hs|(Hs & H1 & E1 & T1 & B1)];
    [by intros ?%Hnq| |]; rewrite Hs; cbn [mbind option_bind].
  { exists AcquireNoMemory, s. split; [done|]. split; [done|]. split; [|done].
    by apply effect_refl_but. }
  set (s1 := setup_state tag p m s) in *.
  pose proof (setup_quiet s tag p m H) as Q. fold s1 in Q.
  destruct (setup_lookup s tag p m H Hm) as [(pl & Hpl & _) (l & Hlocks & Hwq & _)]. fold s1 in Hpl, Hlocks.
  assert (Hl : locks s1 !! tag = Some l) by (rewrite Hlocks; apply lookup_insert_eq).
  rewrite Hl. cbn [mbind option_bind].
  destruct (acquire_test s1 tag p m l pl H1 Hl Hpl) as (st & -> & Hst). cbn [mbind option_bind].
  assert (Hbq : forall st, busy st tag p m -> quiet tag p s st -> busy s tag p m).
  { intros st0 [(q & Hq & Hc)|(q & i & Hld & Hi & Hc & Hhq)] Q0.
    - left. exists q. split; [by rewrite <- (qt_queue _ _ _ _ Q0)|]. by rewrite <- (quiet_mode _ _ _ _ _ Q0).
    - right. exists q, i. rewrite <- !(qt_leader _ _ _ _ Q0), <- (qt_hold _ _ _ _ Q0). done. }
  assert (Hcq : forall s2, quiet tag p s s2 -> ~ conflicting s2 tag p m -> ~ conflicting s tag p m).
  { intros s2 Q0 Hc Hc'. apply Hc. eapply conflicting_grows; [by eapply quiet_grows|done]. }
  destruct Hst as [[-> Hc]|[-> Hb]].
  - rewrite bool_decide_eq_true_2 by done.
    destruct (grant_good s1 tag p m l pl H1 E1 T1 B1 Hl Hpl Hc) as [-> G']. cbn [mbind option_bind].
    eexists AcquireGranted, _. split; [done|]. split; [done|].
    split; [eapply effect_quiet; [done|by apply grant_effect]|].
    split; [apply Q|]. split; [by eapply Hcq|]. intros t i. rewrite hold_grant by done.
    by rewrite (qt_hold _ _ _ _ Q).
  - rewrite bool_decide_eq_false_2, bool_decide_eq_true_2, Hpl by done. cbn [mbind option_bind].
    assert (Hnw : p ∉ waitProcs l).
    { rewrite <- (queue_of_Some _ _ _ Hl), (qt_queue _ _ _ _ Q). apply Hnq. }
    assert (Hn := busy_requests s1 tag p m l H1 Hl Hb).
    destruct dontWait.
    + destruct (dontWait_good s1 tag p m l pl H1 E1 T1 B1 Hl Hpl Hnw Hn)
        as (s2 & -> & l2 & Hl2 & N1 & N2 & N3 & s3 & Hs3 & G3 & Q3). cbn [mbind option_bind].
      rewrite Hl2. cbn [mbind option_bind].
      assert (Q' : quiet tag p s s3).
      { split.
        - intros q. by rewrite (qt_leader _ _ _ _ Q3), (qt_leader _ _ _ _ Q).
        - intros t Ht. by rewrite (qt_locks _ _ _ _ Q3), (qt_locks _ _ _ _ Q).
        - intros t q i. by rewrite (qt_hold _ _ _ _ Q3), (qt_hold _ _ _ _ Q).
        - intros q Hne. by rewrite (qt_procs _ _ _ _ Q3), (qt_procs _ _ _ _ Q).
        - eapply touched_trans; [apply Q|apply Q3].
        - intros t. by rewrite (qt_queue _ _ _ _ Q3), (qt_queue _ _ _ _ Q).
        - intros t q Hne. by rewrite (qt_dom _ _ _ _ Q3), (qt_dom _ _ _ _ Q). }
      pose proof (wf_lock _ _ H1 _ _ Hl) as Hok.
      assert (A1 : 0 <= count (bump m (-1) (requested l)) m).
      { rewrite count_bump, Z.eqb_refl by (done || apply Hok).
        rewrite (lo_requested _ _ _ _ Hok), extra_of_self, Z.eqb_refl by done.
        pose proof (lo_count_nonneg _ _ _ _ m Hok Hm).
        pose proof (countb_nonneg (fun q => waitLockMode (procs s1 q) =? m) (waitProcs l)). lia. }
      assert (A2 : nGranted l <= nRequested l - 1).
      { rewrite (lo_nGranted _ _ _ _ Hok), (lo_nRequested _ _ _ _ Hok).
        pose proof (total_bump (requested l) m (-1) (lo_len_r _ _ _ _ Hok) Hm) as Ht.
        enough (total (granted l) <= total (bump m (-1) (requested l))) by lia.
        apply total_le. intros i Hi. rewrite count_bump by (done || apply Hok).
        rewrite (lo_requested _ _ _ _ Hok), extra_of_self by done.
        pose proof (countb_nonneg (fun q => waitLockMode (procs s1 q) =? i) (waitProcs l)).
        destruct (m =? i); lia. }
      cbn [nRequested requested nGranted]. rewrite N1, N2, N3.
      rewrite (proj2 (Z.ltb_lt _ _)), !(proj2 (Z.leb_le _ _)) by lia. cbn [andb].
      exists AcquireNotAvail, s3. split.
      * rewrite <- Hs3. unfold withdraw_state, requested_lock. by rewrite N1, N2, N3.
      * split; [done|]. split; [by apply quiet_effect|]. split; [apply Q'|].
        split; [intros; apply Q'|]. by apply (Hbq s1).
    + set (s2 := held_state p (holdMask pl) s1).
      change (put_proc p (set_heldLocks (holdMask pl) (procs s1 p)) s1) with s2.
      pose proof (held_quiet tag p (holdMask pl) s1) as Q2. fold s2 in Q2.
      assert (H2 : wf (Some (tag, p, m)) s2) by (eapply held_wf; [by intros ? ? ? [= -> ]|done|done]).
      destruct (qt_self _ _ _ _ Q) as (mine & held & Hself).
      destruct (ProcSleep_spec s2 tag p m l pl H2) as (r & s' & -> & G' & Ef & Hr); try done.
      * by eapply quiet_excl.
      * eapply quiet_reasons; [done|by apply blocked_reasons].
      * cbn. rewrite fn_lookup_insert. cbn. by rewrite Hself.
      * by eapply busy_quiet.
      * cbn [mbind option_bind].
        assert (Ht : touched (procs s p) (procs s2 p)).
        { eapply touched_trans; [apply Q|apply Q2]. }
        assert (Hh2 : forall t q i, holdb (hold s2 t q) i = holdb (hold s t q) i).
        { intros t q i. by rewrite (qt_hold _ _ _ _ Q2), (qt_hold _ _ _ _ Q). }
        assert (Hq2 : forall t, queue_of s2 t = queue_of s t).
        { intros t. by rewrite (qt_queue _ _ _ _ Q2), (qt_queue _ _ _ _ Q). }
        assert (Ef' : effect tag (Some p) s s').
        { eapply effect_quiet; [done|]. by eapply effect_quiet. }
        destruct r as [| |q].
        -- destruct Hr as (Hp' & Hc & Hr).
           assert (Hnew : holdb (hold s' tag p) m = true).
           { rewrite Hr, Z.eqb_refl, bool_decide_eq_true_2 by done. by rewrite orb_true_r. }
           unfold hold in Hnew. destruct (proclocks s' !! (tag, p)) as [pl'|]; [|done]. cbn in Hnew.
           cbn [mbind option_bind]. rewrite holds_testbit, Hnew by (apply lockmodes_range in Hm; lia).
           exists AcquireGranted, s'. split; [done|]. split; [done|]. split; [done|].
           split; [by rewrite Hp'|]. split.
           ++ apply (Hcq s1 Q). intros Hc1. apply Hc.
              eapply conflicting_grows; [by eapply quiet_grows|done].
           ++ intros t i. by rewrite Hr, Hh2.
        -- destruct Hr as (Hin & Hp' & Hr). exists AcquireWaiting, s'. split; [done|].
           split; [done|]. split; [done|]. split; [done|]. split; [intros; by rewrite Hr, Hh2|].
           rewrite Hp'. by apply touched_wait.
        -- destruct Hr as (Hin & Hp' & Hr). exists (AcquireDeadlock q), s'. split; [done|].
           split; [done|]. split; [done|]. split; [by rewrite <- Hq2|].
           split; [intros; by rewrite Hr, Hh2|]. eapply touched_trans; [|apply Hp']. by apply touched_wait.
Qed.

(** ** Releasing as a whole *)

(** Changing only the [releaseMask] of a PROCLOCK. *)
Lemma release_mask_wf pend s tag p l pl v :
  (forall t q m, pend = Some (t, q, m) -> False) ->
  wf pend s -> locks s !! tag = Some l -> proclocks s !! (tag, p) = Some pl ->
  wf pend (put_proclock (tag, p) (set_releaseMask v pl) s).
Proof.
  intros Hpe H Hl Hpl.
  assert (Heq : put_proclock (tag, p) (set_releaseMask v pl) s =
    put_proclock (tag, p) (set_releaseMask v pl) (put_lock tag l s)).
  { unfold put_lock, put_proclock. cbn. by rewrite (insert_id (locks s)). }
  rewrite Heq. eapply wf_frame_hold; [done..| |done|].
  - eapply lock_ok_ext; [..|apply (wf_lock _ _ H _ _ Hl)]; [|done..]. intros q. cbn.
    destruct (decide (q = p)) as [->|Hne].
    + rewrite fn_lookup_insert. by apply hold_Some.
    + by rewrite fn_lookup_insert_ne.
  - intros t q m Hp. by destruct (Hpe t q m).
Qed.

Lemma release_mask_quiet s tag p pl v :
  proclocks s !! (tag, p) = Some pl ->
  quiet tag p s (put_proclock (tag, p) (set_releaseMask v pl) s).
Proof.
  intros Hpl. split; try done.
  - intros t q i. rewrite hold_insert. case_bool_decide as E; [|done]. simplify_eq.
    by rewrite (hold_Some _ _ _ _ Hpl).
  - apply touched_refl.
  - intros t q Hne. cbn. by rewrite lookup_insert_ne.
Qed.

(** The loop over the modes to release keeps everything but the locks that go. *)
Record releasing (tag : LOCKTAG) (p : nat) (w : bool) (s : shared) : Prop := {
  rl_wf : wf None s;
  rl_excl : excl s;
  rl_tidy : tidy (Some (tag, p)) s;
  rl_blocked : blocked (wake_ex w tag) s }.

Record released (tag : LOCKTAG) (p : nat) (gone : Z -> bool) (s s' : shared) : Prop := {
  rd_leader : forall q, leader_of s' q = leader_of s q;
  rd_locks : forall t, t <> tag -> locks s' !! t = locks s !! t;
  rd_procs : procs s' = procs s;
  rd_queue : forall t, queue_of s' t = queue_of s t;
  rd_dom : forall t q, (t, q) <> (tag, p) -> proclocks s' !! (t, q) = proclocks s !! (t, q);
  rd_self : forall i, i ∈ lockmodes ->
    holdb (hold s' tag p) i = holdb (hold s tag p) i && negb (gone i);
  rd_lock : forall l, locks s !! tag = Some l -> exists l', locks s' !! tag = Some l' /\ waitProcs l' = waitProcs l;
  rd_proclock : is_Some (proclocks s !! (tag, p)) -> is_Some (proclocks s' !! (tag, p)) }.

Lemma release_modes_spec me tag p mask ms : forall w s l pl,
  me = p -> NoDup ms -> (forall i, i ∈ ms -> i ∈ lockmodes) ->
  releasing tag p w s -> locks s !! tag = Some l -> proclocks s !! (tag, p) = Some pl ->
  (forall i, i ∈ ms -> Z.testbit mask i = true -> Z.testbit (holdMask pl) i = true) ->
  exists w' s', release_modes me tag mask ms w s = Some (w', s') /\ releasing tag p w' s' /\
    released tag p (fun i => bool_decide (i ∈ ms) && Z.testbit mask i) s s'.
Proof.
  intros w s l pl ->. revert w s l pl.
  induction ms as [|m ms IH]; intros w s l pl Hnd Hms [H E T B] Hl Hpl Hmask; cbn [release_modes].
  - exists w, s. split; [done|]. split; [done|]. split; try done; [|by eexists].
    intros i Hi. rewrite bool_decide_eq_false_2 by apply not_elem_of_nil. by rewrite andb_true_r.
  - apply NoDup_cons in Hnd as [Hnin Hnd]. assert (Hm : m ∈ lockmodes) by (apply Hms; constructor).
    assert (Hms' : forall i, i ∈ ms -> i ∈ lockmodes) by (intros; apply Hms; by constructor).
    rewrite holds_testbit by (apply lockmodes_range in Hm; lia).
    assert (Hskip : forall i, i <> m -> bool_decide (i ∈ m :: ms) = bool_decide (i ∈ ms)).
    { intros i Hi. apply bool_decide_ext. rewrite elem_of_cons. tauto. }
    destruct (Z.testbit mask m) eqn:Em.
    + destruct (UnGrantLock_spec s tag p m l pl H Hl Hpl Hm) as (w1 & -> & H1 & Hw1).
      { apply Hmask; [constructor|done]. }
      cbn [mbind option_bind]. set (s1 := ungrant_state tag p m l pl s) in *.
      assert (Hpl1 : proclocks s1 !! (tag, p) =
        Some (set_holdMask (Z.land (holdMask pl) (LOCKBIT_OFF m)) pl)) by (cbn; apply lookup_insert_eq).
      destruct (IH (w1 || w) s1 (ungranted_lock m l)
        (set_holdMask (Z.land (holdMask pl) (LOCKBIT_OFF m)) pl) Hnd Hms') as (w' & s' & -> & R' & D'); [| |exact Hpl1| |].
      * split; [done|by apply excl_ungrant|by apply tidy_ungrant|by apply blocked_ungrant].
      * cbn. apply lookup_insert_eq.
      * intros i Hi Ht. cbn. rewrite testbit_land_off by auto. apply andb_true_iff. split.
        -- apply Hmask; [by constructor|done].
        -- apply negb_true_iff, Z.eqb_neq. by intros ->.
      * exists w', s'. split; [done|]. split; [done|]. split.
        -- intros q. by rewrite (rd_leader _ _ _ _ _ D').
        -- intros t Ht. rewrite (rd_locks _ _ _ _ _ D') by done. cbn. by rewrite lookup_insert_ne.
        -- by rewrite (rd_procs _ _ _ _ _ D').
        -- intros t. rewrite (rd_queue _ _ _ _ _ D'). unfold queue_of. cbn.
           destruct (decide (t = tag)) as [->|Ht]; [by rewrite lookup_insert_eq, Hl|by rewrite lookup_insert_ne].
        -- intros t q Hne. rewrite (rd_dom _ _ _ _ _ D') by done. cbn. by rewrite lookup_insert_ne.
        -- intros i Hi. rewrite (rd_self _ _ _ _ _ D') by done. unfold s1. rewrite hold_ungrant by done.
           rewrite bool_decide_eq_true_2 by done. destruct (Z.eqb_spec m i) as [<-|Hne].
           ++ rewrite bool_decide_eq_false_2 by done.
              rewrite (bool_decide_eq_true_2 (m ∈ m :: ms)) by constructor. rewrite Em.
              by rewrite !andb_false_r.
           ++ rewrite Hskip by done. by rewrite andb_true_r.
        -- intros l0. rewrite Hl. intros [= <-].
           destruct (rd_lock _ _ _ _ _ D' (ungranted_lock m l)) as (l' & ? & Hw'); [cbn; apply lookup_insert_eq|].
           by exists l'.
        -- intros _. apply D'. by eexists.
    + destruct (IH w s l pl Hnd Hms' (Build_releasing tag p w s H E T B) Hl Hpl) as (w' & s' & -> & R' & D').
      { intros i Hi. apply Hmask. by constructor. }
      exists w', s'. split; [done|]. split; [done|]. split; try apply D'.
      intros i Hi. rewrite (rd_self _ _ _ _ _ D') by done.
      destruct (decide (i = m)) as [->|Hne]; [|by rewrite Hskip].
      rewrite Em. by rewrite !andb_false_r.
Qed.

Lemma released_effect tag p gone s s1 s2 :
  released tag p gone s s1 -> effect tag (Some p) s1 s2 -> effect tag (Some p) s s2.
Proof.
  intros D Ef. eapply effect_before; [by right|apply Ef|apply D|apply D|..].
  - intros t q i Hne. unfold hold. by rewrite (rd_dom _ _ _ _ _ D).
  - intros q _. by rewrite (rd_procs _ _ _ _ _ D).
  - intros q _. by rewrite (rd_queue _ _ _ _ _ D).
  - intros t q Hne. by rewrite (rd_dom _ _ _ _ _ D).
Qed.

Lemma good_releasing tag p s : good s -> releasing tag p false s.
Proof. intros [H E T B]. split; [done..|by apply tidy_weaken|done]. Qed.

(** [CleanUpLock] after the modes are gone. *)
Lemma CleanUpLock_released me tag p w gone s s1 l pl :
  wf None s -> locks s !! tag = Some l -> proclocks s !! (tag, p) = Some pl ->
  links (procs s p) = false -> releasing tag p w s1 -> released tag p gone s s1 ->
  exists s', CleanUpLock me tag (tag, p) w s1 = Some s' /\ good s' /\ effect tag (Some p) s s' /\
    touched (procs s p) (procs s' p) /\
    (forall i, i ∈ lockmodes -> holdb (hold s' tag p) i = holdb (hold s tag p) i && negb (gone i)) /\
    (forall t i, t <> tag -> holdb (hold s' t p) i = holdb (hold s t p) i).
Proof.
  intros H Hl Hpl Hfree [H1 E1 T1 B1] D.
  destruct (rd_lock _ _ _ _ _ D l Hl) as (l1 & Hl1 & Hw1).
  destruct (rd_proclock _ _ _ _ _ D ltac:(by eexists)) as [pl1 Hpl1].
  destruct (CleanUpLock_spec me tag p w s1 l1 pl1 H1 E1 T1 B1 Hl1 Hpl1)
    as (s' & Hs' & G & Ef & Eh & mine & Ep).
  { rewrite Hw1. intros Hq. pose proof (wf_queue _ _ H _ _ _ Hl Hq) as [W _ _ _]. congruence. }
  exists s'. split; [done|]. split; [done|]. split; [by eapply released_effect|].
  split; [rewrite Ep, (rd_procs _ _ _ _ _ D); apply touched_mine|]. split.
  - intros i Hi. rewrite Eh. by apply D.
  - intros t i Ht. rewrite Eh. unfold hold. rewrite (rd_dom _ _ _ _ _ D); [done|congruence].
Qed.

Lemma UnGrant_released tag p m w l pl s :
  releasing tag p w s -> locks s !! tag = Some l -> proclocks s !! (tag, p) = Some pl ->
  m ∈ lockmodes -> Z.testbit (holdMask pl) m = true ->
  exists w' s', UnGrantLock tag m (tag, p) s = Some (w', s') /\
    releasing tag p (w' || w) s' /\ released tag p (fun i => m =? i) s s'.
Proof.
  intros R Hl Hpl Hm Hb.
  destruct (release_modes_spec p tag p (LOCKBIT_ON m) [m] w s l pl eq_refl) as (w1 & s1 & Hs & R' & D);
    [by apply NoDup_singleton|by intros i ->%list_elem_of_singleton|done..| |].
  { intros i ->%list_elem_of_singleton. done. }
  cbn [release_modes] in Hs.
  rewrite holds_testbit, testbit_on, Z.eqb_refl in Hs by (apply lockmodes_range in Hm; lia).
  destruct (UnGrantLock tag m (tag, p) s) as [[w' s']|]; [|done]. cbn [mbind option_bind] in Hs.
  injection Hs as <- <-. exists w', s'. split; [done|]. split; [done|].
  split; try apply D. intros i Hi. rewrite (rd_self _ _ _ _ _ D) by done. f_equal. f_equal.
  rewrite testbit_on by (apply lockmodes_range in Hm; lia).
  destruct (Z.eqb_spec m i) as [->|Hne]; [|by rewrite andb_false_r].
  by rewrite bool_decide_eq_true_2 by constructor.
Qed.

(** The lock that goes away when [p] releases the modes in [gone]. *)
Definition releases (tag : LOCKTAG) (p : nat) (gone : Z -> bool) (s s' : shared) : Prop :=
  effect tag (Some p) s s' /\ touched (procs s p) (procs s' p) /\
  (forall i, i ∈ lockmodes -> holdb (hold s' tag p) i = holdb (hold s tag p) i && negb (gone i)) /\
  forall t i, t <> tag -> holdb (hold s' t p) i = holdb (hold s t p) i.

Lemma release_one me s tag p m pl :
  good s -> m ∈ lockmodes -> links (procs s p) = false ->
  proclocks s !! (tag, p) = Some pl -> Z.testbit (holdMask pl) m = true ->
  exists s', ('(w, s) ← UnGrantLock tag m (tag, p) s; CleanUpLock me tag (tag, p) w s) = Some s' /\
    good s' /\ releases tag p (fun i => m =? i) s s'.
Proof.
  intros G Hm Hfree Hpl Hb. pose proof (good_wf _ G) as H.
  destruct (wf_orphan _ _ H tag p) as [l Hl]; [by eexists|].
  destruct (UnGrant_released tag p m false l pl s) as (w & s1 & -> & R & D); [by apply good_releasing|done..|].
  cbn [mbind option_bind]. rewrite orb_false_r in R.
  destruct (CleanUpLock_released me tag p w _ s s1 l pl H Hl Hpl Hfree R D) as (s' & -> & G' & Hr).
  by exists s'.
Qed.

Lemma LockRelease_locked_spec s tag p m :
  good s -> m ∈ lockmodes -> links (procs s p) = false -> is_Some (proclocks s !! (tag, p)) ->
  exists b s', LockRelease_locked p tag m s = Some (b, s') /\ good s' /\
    b = holdb (hold s tag p) m /\
    if b then releases tag p (fun i => m =? i) s s' else s' = s.
Proof.
  intros G Hm Hfree [pl Hpl]. pose proof (good_wf _ G) as H.
  destruct (wf_orphan _ _ H tag p) as [l Hl]; [by eexists|].
  unfold LockRelease_locked. rewrite Hl, Hpl. cbn [mbind option_bind].
  rewrite holds_testbit by (apply lockmodes_range in Hm; lia). rewrite (hold_Some _ _ _ _ Hpl). cbn [holdb].
  destruct (Z.testbit (holdMask pl) m) eqn:Eb; cbn [negb]; [|by exists false, s].
  destruct (release_one p s tag p m pl G Hm Hfree Hpl Eb) as (s' & Hs & G' & Hr).
  destruct (UnGrantLock tag m (tag, p) s) as [[w s1]|]; [|done]. cbn [mbind option_bind] in Hs |- *.
  rewrite Hs. cbn [mbind option_bind]. by exists true, s'.
Qed.

Lemma LockRefindAndRelease_spec me s tag p m :
  good s -> m ∈ lockmodes -> links (procs s p) = false -> is_Some (proclocks s !! (tag, p)) ->
  exists s', LockRefindAndRelease me p tag m s = Some s' /\ good s' /\
    if holdb (hold s tag p) m then releases tag p (fun i => m =? i) s s' else s' = s.
Proof.
  intros G Hm Hfree [pl Hpl]. pose proof (good_wf _ G) as H.
  destruct (wf_orphan _ _ H tag p) as [l Hl]; [by eexists|].
  unfold LockRefindAndRelease. rewrite Hl, Hpl. cbn [mbind option_bind].
  rewrite holds_testbit by (apply lockmodes_range in Hm; lia). rewrite (hold_Some _ _ _ _ Hpl). cbn [holdb].
  destruct (Z.testbit (holdMask pl) m) eqn:Eb; cbn [negb]; [|by exists s].
  apply (release_one me s tag p m pl); done.
Qed.

(** The modes [release_proclock] releases. *)
Definition gone_modes (lockmethodid : Z) (allLocks : bool) (tag : LOCKTAG) (pl : PROCLOCK) (i : Z) : bool :=
  (locktag_lockmethodid tag =? lockmethodid) && (allLocks || Z.testbit (releaseMask pl) i).

Lemma good_release_mask s tag p l pl v :
  good s -> locks s !! tag = Some l -> proclocks s !! (tag, p) = Some pl ->
  good (put_proclock (tag, p) (set_releaseMask v pl) s).
Proof.
  intros [H E T B] Hl Hpl. pose proof (release_mask_quiet s tag p pl v Hpl) as Q.
  split; [by eapply release_mask_wf; [..|done|done]|by eapply quiet_excl| |
    by eapply quiet_reasons; [done|apply blocked_reasons]].
  destruct T as [T1 T2]. split; [|apply T2]. intros t q x Hx Hex. cbn in Hx.
  destruct (decide ((t, q) = (tag, p))) as [[= -> ->]|Hne].
  - rewrite lookup_insert_eq in Hx. injection Hx as <-. by apply (T1 tag p pl).
  - rewrite lookup_insert_ne in Hx by done. by apply (T1 t q x).
Qed.

Lemma releases_quiet tag p gone s1 s2 s3 :
  quiet tag p s1 s2 -> releases tag p gone s2 s3 -> releases tag p gone s1 s3.
Proof.
  intros Q (Ef & Ht & Hg & Ho). split; [by eapply effect_quiet|].
  split; [eapply touched_trans; [apply Q|done]|]. split.
  - intros i Hi. rewrite Hg by done. by rewrite (qt_hold _ _ _ _ Q).
  - intros t i Hne. rewrite Ho by done. by rewrite (qt_hold _ _ _ _ Q).
Qed.

Lemma quiet_releases tag p gone s s' :
  quiet tag p s s' ->
  (forall i, i ∈ lockmodes -> holdb (hold s tag p) i = true -> gone i = false) ->
  releases tag p gone s s'.
Proof.
  intros Q Hg. split; [by apply quiet_effect|]. split; [apply Q|]. split.
  - intros i Hi. rewrite (qt_hold _ _ _ _ Q). destruct (holdb (hold s tag p) i) eqn:E; [|done].
    by rewrite (Hg i Hi E).
  - intros t i _. apply Q.
Qed.

Lemma quiet_refl tag p s : quiet tag p s s.
Proof. split; try done. apply touched_refl. Qed.

Lemma release_proclock_spec s tag p method allLocks pl :
  good s -> links (procs s p) = false -> proclocks s !! (tag, p) = Some pl ->
  (forall i, i ∈ lockmodes -> Z.testbit (releaseMask pl) i = true -> Z.testbit (holdMask pl) i = true) ->
  modes_only (releaseMask pl) ->
  exists s', release_proclock p method allLocks tag s = Some s' /\ good s' /\
    releases tag p (gone_modes method allLocks tag pl) s s'.
Proof.
  intros G Hfree Hpl Hsub Honly. pose proof (good_wf _ G) as H.
  destruct (wf_orphan _ _ H tag p) as [l Hl]; [by eexists|].
  assert (Hbits : modes_only (holdMask pl)).
  { apply (lo_bits _ _ _ _ (wf_lock _ _ H _ _ Hl) p). by apply hold_Some. }
  unfold release_proclock. rewrite Hpl. cbn [mbind option_bind]. rewrite Hl. cbn [mbind option_bind].
  unfold gone_modes. destruct (locktag_lockmethodid tag =? method); cbn [negb andb].
  2: { exists s. split; [done|]. split; [done|]. apply quiet_releases; [apply quiet_refl|done]. }
  rewrite (modes_only_sub (releaseMask pl) (holdMask pl)) by done. rewrite orb_true_r.
  set (mask := if allLocks then holdMask pl else releaseMask pl).
  assert (Hmask : forall i, i ∈ lockmodes -> Z.testbit mask i = true -> Z.testbit (holdMask pl) i = true).
  { intros i Hi. unfold mask. destruct allLocks; auto. }
  assert (Hgone : forall i, i ∈ lockmodes -> holdb (hold s tag p) i = true ->
    allLocks || Z.testbit (releaseMask pl) i = Z.testbit mask i).
  { intros i Hi. rewrite (hold_Some _ _ _ _ Hpl). cbn. intros Hb. unfold mask. by destruct allLocks; cbn. }
  pose proof (release_mask_quiet s tag p pl mask Hpl) as Q1.
  pose proof (good_release_mask s tag p l pl mask G Hl Hpl) as G1.
  set (s1 := put_proclock (tag, p) (set_releaseMask mask pl) s) in *.
  destruct ((mask =? 0) && negb (holdMask pl =? 0)) eqn:Eskip.
  { exists s1. split; [done|]. split; [done|]. apply quiet_releases; [done|].
    apply andb_true_iff in Eskip as [E0%Z.eqb_eq _]. intros i Hi Hb. rewrite (Hgone i Hi Hb), E0.
    apply Z.bits_0. }
  assert (Hpl1 : proclocks s1 !! (tag, p) = Some (set_releaseMask mask pl)) by (cbn; apply lookup_insert_eq).
  rewrite (wf_counts None s tag l), (wf_held_granted None s tag p l pl) by done. cbn [andb Z.eqb].
  destruct (release_modes_spec p tag p mask lockmodes false s1 l (set_releaseMask mask pl) eq_refl)
    as (w & s2 & -> & R & D); [by apply (bool_decide_unpack _); vm_compute|done|by apply good_releasing|done..|].
  cbn [mbind option_bind].
  destruct (rd_proclock _ _ _ _ _ D ltac:(by eexists)) as [pl2 Hpl2].
  destruct (rd_lock _ _ _ _ _ D l Hl) as (l2 & Hl2 & Hw2).
  destruct R as [R1 R2 R3 R4]. rewrite Hl2. cbn [mbind option_bind].
  rewrite (wf_counts None s2 tag l2), Hpl2 by done. cbn [mbind option_bind].
  pose proof (release_mask_quiet s2 tag p pl2 0 Hpl2) as Q3.
  destruct (CleanUpLock_released p tag p w (fun i => bool_decide (i ∈ lockmodes) && Z.testbit mask i) s1
    (put_proclock (tag, p) (set_releaseMask 0 pl2) s2) l (set_releaseMask mask pl))
    as (s' & -> & G' & Ef & Ht & Hg & Ho); [apply G1|done|done|done| | |].
  - split; [by eapply release_mask_wf; [..|done|done]|by eapply quiet_excl| |].
    + destruct R3 as [T1 T2]. split; [|apply T2]. intros t q x Hx Hex. cbn in Hx.
      rewrite lookup_insert_ne in Hx by congruence. by apply (T1 t q x).
    + eapply blocked_grows; [by eapply quiet_grows| |done]. intros t l0 Hl0 _. by exists l0.
  - split; try apply D.
    + intros t q Hne. cbn. rewrite lookup_insert_ne by done. by apply D.
    + intros i Hi. rewrite (qt_hold _ _ _ _ Q3). by apply D.
    + intros _. cbn. rewrite lookup_insert_eq. by eexists.
  - exists s'. split; [done|]. split; [done|]. eapply releases_quiet; [done|].
    split; [done|]. split; [done|]. split; [|done]. intros i Hi. rewrite Hg by done.
    destruct (holdb (hold s1 tag p) i) eqn:Eb; [|done]. cbn.
    rewrite bool_decide_eq_true_2 by done. cbn.
    rewrite (qt_hold _ _ _ _ Q1) in Eb. by rewrite (Hgone i Hi Eb).
Qed.

(** The locks of [p] on the tags of a list. *)
Definition gone_of (s : shared) (p : nat) (method : Z) (allLocks : bool) (tags : list LOCKTAG)
    (t : LOCKTAG) (i : Z) : bool :=
  bool_decide (t ∈ tags) &&
  match proclocks s !! (t, p) with Some pl => gone_modes method allLocks t pl i | None => false end.

Definition release_ok (pl : PROCLOCK) : Prop :=
  modes_only (releaseMask pl) /\
  forall i, i ∈ lockmodes -> Z.testbit (releaseMask pl) i = true -> Z.testbit (holdMask pl) i = true.

Lemma release_list_spec p method allLocks tags : forall s,
  good s -> links (procs s p) = false -> NoDup tags ->
  (forall t, t ∈ tags -> exists pl, proclocks s !! (t, p) = Some pl /\ release_ok pl) ->
  exists s', release_list p method allLocks tags s = Some s' /\ good s' /\
    touched (procs s p) (procs s' p) /\
    (forall q, leader_of s' q = leader_of s q) /\
    (forall t i, i ∈ lockmodes -> holdb (hold s' t p) i =
       holdb (hold s t p) i && negb (gone_of s p method allLocks tags t i)) /\
    (forall q t i, q <> p -> holdb (hold s t q) i = true -> holdb (hold s' t q) i = true).
Proof.
  induction tags as [|tag tags IH]; intros s G Hfree Hnd Hpls; cbn [release_list].
  - exists s. split; [done|]. split; [done|]. split; [apply touched_refl|]. split; [done|].
    split; [|done]. intros t i Hi. unfold gone_of. rewrite bool_decide_eq_false_2 by apply not_elem_of_nil.
    by rewrite andb_true_r.
  - apply NoDup_cons in Hnd as [Hnin Hnd].
    destruct (Hpls tag ltac:(constructor)) as (pl & Hpl & Hro1 & Hro2).
    destruct (release_proclock_spec s tag p method allLocks pl G Hfree Hpl Hro2 Hro1)
      as (s1 & -> & G1 & Ef & Ht & Hg & Ho). cbn [mbind option_bind].
    assert (Hsame : forall t, t <> tag -> proclocks s1 !! (t, p) = proclocks s !! (t, p)).
    { intros t Ht'. by apply (ef_other _ _ _ _ Ef). }
    destruct (IH s1) as (s' & -> & G' & Ht' & Hld & Hg' & Ho'); [done| |done| |].
    + destruct Ht as (mine & held & ->). done.
    + intros t Hin. assert (t <> tag) by (by intros ->). rewrite Hsame by done.
      apply Hpls. by constructor.
    + exists s'. split; [done|]. split; [done|]. split; [by eapply touched_trans|].
      split; [intros q; by rewrite Hld, (ef_leader _ _ _ _ Ef)|]. split.
      * intros t i Hi. rewrite Hg' by done. unfold gone_of.
        destruct (decide (t = tag)) as [->|Hne].
        -- rewrite Hg by done. rewrite (bool_decide_eq_false_2 (tag ∈ tags)) by done.
           rewrite (bool_decide_eq_true_2 (tag ∈ tag :: tags)) by constructor. rewrite Hpl. cbn.
           by rewrite andb_true_r.
        -- rewrite Ho by done. rewrite Hsame by done.
           rewrite (bool_decide_ext (t ∈ tag :: tags) (t ∈ tags)); [done|].
           rewrite elem_of_cons. naive_solver.
      * intros q t i Hq Hh. apply Ho'; [done|]. rewrite (ef_hold _ _ _ _ Ef) by naive_solver. by left.
Qed.

(** [LockReleaseAll] in one partition releases what it is asked to, and
    nothing else. *)
Lemma LockReleaseAll_partition_spec p method allLocks part s :
  good s -> links (procs s p) = false ->
  (forall t pl, proclocks s !! (t, p) = Some pl -> release_ok pl) ->
  exists s', LockReleaseAll_partition p method allLocks part s = Some s' /\ good s' /\
    touched (procs s p) (procs s' p) /\
    (forall q, leader_of s' q = leader_of s q) /\
    (forall t i, i ∈ lockmodes -> holdb (hold s' t p) i =
       holdb (hold s t p) i && negb (gone_of s p method allLocks (myProcLocks (procs s p) part) t i)) /\
    (forall q t i, q <> p -> holdb (hold s t q) i = true -> holdb (hold s' t q) i = true).
Proof.
  intros G Hfree Hro. apply release_list_spec; [done|done| |].
  - apply (wf_mine_nodup _ _ (good_wf _ G)).
  - intros t Ht. apply (wf_mine _ _ (good_wf _ G)) in Ht as [_ [pl Hpl]]. exists pl.
    split; [done|by apply (Hro t)].
Qed.

Lemma LockErrorCleanup_locked_spec p s :
  good s ->
  exists b s', LockErrorCleanup_locked p s = Some (b, s') /\ good s' /\
    links (procs s' p) = false /\
    (forall t i, holdb (hold s' t p) i = holdb (hold s t p) i) /\
    (b = true <-> links (procs s p) = false /\ waitStatus (procs s p) = STATUS_OK) /\
    (links (procs s p) = false -> s' = s).
Proof.
  intros G. unfold LockErrorCleanup_locked. destruct (links (procs s p)) eqn:El.
  - destruct (wf_links _ _ (good_wf _ G) p El) as (tag & l & Hl & Hin).
    destruct (RemoveFromWaitQueue_spec p p tag l s (good_wf _ G) (good_excl _ G) (good_tidy _ G)
      (blocked_weaken tag s (good_blocked _ G)) Hl Hin) as (s' & -> & G' & Ef & Eh & mine & Ep).
    cbn [mbind option_bind]. exists false, s'. split; [done|]. split; [done|].
    split; [by rewrite Ep|]. split; [done|]. split; [|done]. split; [done|]. by intros [? _].
  - eexists _, s. split; [done|]. split; [done|]. split; [done|]. split; [done|]. split; [|done].
    rewrite bool_decide_eq_true. tauto.
Qed.

(** ** Lock groups *)

Lemma wf_procs pend s s' :
  wf pend s -> locks s' = locks s -> proclocks s' = proclocks s ->
  (forall q, links (procs s' q) = links (procs s q) /\ waitStatus (procs s' q) = waitStatus (procs s q) /\
     waitLock (procs s' q) = waitLock (procs s q) /\ waitProcLock (procs s' q) = waitProcLock (procs s q) /\
     waitLockMode (procs s' q) = waitLockMode (procs s q) /\
     myProcLocks (procs s' q) = myProcLocks (procs s q)) ->
  (forall t p pl, proclocks s !! (t, p) = Some pl -> leader_of s' p = leader_of s p) ->
  (forall p g, lockGroupLeader (procs s' p) = Some g ->
    lockGroupLeader (procs s' g) = Some g /\ p ∈ lockGroupMembers (procs s' g)) ->
  (forall g p, p ∈ lockGroupMembers (procs s' g) -> lockGroupLeader (procs s' p) = Some g) ->
  wf pend s'.
Proof.
  intros H E1 E2 E3 E4 E5 E6.
  assert (Eh : forall t, hold s' t = hold s t) by (intros t; unfold hold; by rewrite E2).
  split; rewrite ?E1, ?E2; try done.
  - intros t l Hl. rewrite Eh. eapply lock_ok_ext; [..|apply (wf_lock _ _ H _ _ Hl)]; [done| |done].
    intros q _. by destruct (E3 q) as (_ & _ & _ & _ & -> & _).
  - apply (wf_orphan _ _ H).
  - intros t l p Hl Hp. destruct (wf_queue _ _ H _ _ _ Hl Hp). destruct (E3 p) as (? & ? & ? & ? & _).
    split; congruence.
  - intros p. destruct (E3 p) as (-> & _). apply (wf_links _ _ H).
  - intros p part t. destruct (E3 p) as (_ & _ & _ & _ & _ & ->). apply (wf_mine _ _ H).
  - intros p part. destruct (E3 p) as (_ & _ & _ & _ & _ & ->). apply (wf_mine_nodup _ _ H).
  - intros t p pl Hpl. rewrite (E4 t p pl Hpl). by apply (wf_leader _ _ H t).
  - apply (wf_method _ _ H).
  - intros t p m Hp. destruct (wf_pend _ _ H _ _ _ Hp) as (P1 & P2 & P3). rewrite Eh.
    split_and!; try done. intros l Hl Hin. destruct (E3 p) as (_ & _ & _ & _ & -> & _). by apply (P3 l).
Qed.

(** A change of groups that concerns nobody with locks. *)
Lemma good_procs s s' :
  good s -> locks s' = locks s -> proclocks s' = proclocks s -> wf None s' ->
  (forall q, waitLockMode (procs s' q) = waitLockMode (procs s q)) ->
  (forall t p, is_Some (proclocks s !! (t, p)) -> leader_of s' p = leader_of s p) ->
  good s'.
Proof.
  intros [H E T B] E1 E2 H' E3 E4.
  assert (Eh : forall t, hold s' t = hold s t) by (intros t; unfold hold; by rewrite E2).
  assert (Hs : forall t q i, holdb (hold s t q) i = true -> is_Some (proclocks s !! (t, q))).
  { intros t q i Hi. apply hold_is_Some. destruct (hold s t q); [by eexists|done]. }
  split; [done|..].
  - intros t p q i j Hne Hi Hj. rewrite !Eh. intros Hp Hq. revert Hne.
    rewrite (E4 t p), (E4 t q) by eauto. intros Hne. by apply (E t p q i j).
  - unfold tidy. by rewrite E1, E2.
  - intros t l ahead q rest Hl Hex Hwq. rewrite E1 in Hl. unfold behind. rewrite E3.
    destruct (B t l ahead q rest Hl Hex Hwq) as [(x & Hx & Hc)|(x & i & Hld & Hi & Hc & Hh)].
    + left. exists x. by rewrite E3.
    + right. exists x, i. rewrite Eh, (E4 t x), (E4 t q); [done| |eauto].
      assert (Hq : q ∈ waitProcs l) by (rewrite Hwq; apply elem_of_app; right; constructor).
      apply hold_is_Some. by apply (lo_wait _ _ _ _ (wf_lock _ _ H _ _ Hl)).
Qed.

Lemma BecomeLockGroupLeader_spec p s :
  good s -> lockGroupLeader (procs s p) = None \/ lockGroupLeader (procs s p) = Some p ->
  exists s', BecomeLockGroupLeader p s = Some s' /\ good s' /\
    lockGroupLeader (procs s' p) = Some p /\ (forall q, q <> p -> procs s' q = procs s q) /\
    locks s' = locks s /\ proclocks s' = proclocks s.
Proof.
  intros G Hp. unfold BecomeLockGroupLeader.
  destruct Hp as [Hp|Hp]; rewrite Hp; [|by rewrite bool_decide_eq_true_2; [exists s|]].
  rewrite bool_decide_eq_false_2, bool_decide_eq_true_2 by done.
  pose proof (good_wf _ G) as H.
  assert (Hnil : lockGroupMembers (procs s p) = []).
  { destruct (lockGroupMembers (procs s p)) as [|q qs] eqn:E; [done|].
    assert (Hq : q ∈ lockGroupMembers (procs s p)) by (rewrite E; constructor).
    apply (wf_members _ _ H) in Hq. apply (wf_group _ _ H) in Hq as [Hq _]. congruence. }
  rewrite Hnil. eexists. split; [done|].
  set (s' := put_proc p _ s).
  assert (Hpp : procs s' p = set_lockGroupMembers [p] (set_lockGroupLeader (Some p) (procs s p)))
    by apply fn_lookup_insert.
  assert (Hpq : forall q, q <> p -> procs s' q = procs s q) by (intros; by apply fn_lookup_insert_ne).
  assert (Hld : forall q, leader_of s' q = leader_of s q).
  { intros q. unfold leader_of. destruct (decide (q = p)) as [->|Hne]; [by rewrite Hpp, Hp|by rewrite Hpq]. }
  split; [|split; [by rewrite Hpp|split_and!; done]].
  apply (good_procs s); try done.
  - apply (wf_procs None s); try done.
    + intros q. destruct (decide (q = p)) as [->|Hne]; [by rewrite Hpp|by rewrite Hpq].
    + intros q g. destruct (decide (q = p)) as [->|Hne].
      * rewrite Hpp. intros [= <-]. rewrite Hpp. split; [done|]. constructor.
      * rewrite Hpq by done. intros Hg. destruct (wf_group _ _ H q g Hg) as [G1 G2].
        rewrite Hpq by congruence. done.
    + intros g q. destruct (decide (g = p)) as [->|Hne].
      * rewrite Hpp. cbn [lockGroupMembers set_lockGroupMembers]. intros Hq%list_elem_of_singleton. by rewrite Hq, Hpp.
      * rewrite Hpq by done. intros Hq%(wf_members _ _ H).
        destruct (decide (q = p)) as [->|]; [congruence|by rewrite Hpq].
  - intros q. destruct (decide (q = p)) as [->|Hne]; [by rewrite Hpp|by rewrite Hpq].
Qed.

(** A process joins a group before it takes any lock. *)
Lemma BecomeLockGroupMember_spec p ldr pid' s :
  good s -> p <> ldr -> lockGroupLeader (procs s p) = None -> pid' <> 0 ->
  (forall t, proclocks s !! (t, p) = None) ->
  exists b s', BecomeLockGroupMember p ldr pid' s = Some (b, s') /\ good s' /\
    locks s' = locks s /\ proclocks s' = proclocks s /\
    if b then lockGroupLeader (procs s' p) = Some ldr else s' = s.
Proof.
  intros G Hne Hp Hpid Hno. unfold BecomeLockGroupMember. pose proof (good_wf _ G) as H.
  rewrite (bool_decide_eq_true_2 (p <> ldr)), (bool_decide_eq_true_2 (_ = None)) by done.
  rewrite (proj2 (Z.eqb_neq _ _) Hpid). cbn [negb].
  destruct (_ && _) eqn:Eb; [|by exists false, s].
  apply andb_true_iff in Eb as [_ Eb%bool_decide_eq_true].
  eexists true, _. split; [done|]. set (s1 := put_proc p _ s). set (s' := put_proc ldr _ s1).
  assert (Hpp : procs s' p = set_lockGroupLeader (Some ldr) (procs s p)).
  { cbn. rewrite fn_lookup_insert_ne by congruence. apply fn_lookup_insert. }
  assert (Hpl : procs s' ldr = set_lockGroupMembers (lockGroupMembers (procs s ldr) ++ [p]) (procs s ldr)).
  { cbn. rewrite fn_lookup_insert. by rewrite fn_lookup_insert_ne by done. }
  assert (Hpq : forall q, q <> p -> q <> ldr -> procs s' q = procs s q).
  { intros q H1 H2. cbn. by rewrite !fn_lookup_insert_ne by congruence. }
  assert (Hgl : forall q, q <> p -> lockGroupLeader (procs s' q) = lockGroupLeader (procs s q)).
  { intros q Hq. destruct (decide (q = ldr)) as [->|]; [by rewrite Hpl|by rewrite Hpq]. }
  assert (Hld : forall q, q <> p -> leader_of s' q = leader_of s q).
  { intros q Hq. unfold leader_of. by rewrite Hgl. }
  assert (Hmem : forall g q, q ∈ lockGroupMembers (procs s' g) <->
    q ∈ lockGroupMembers (procs s g) \/ g = ldr /\ q = p).
  { intros g q. destruct (decide (g = ldr)) as [->|Hg].
    - rewrite Hpl. cbn [lockGroupMembers set_lockGroupMembers]. rewrite elem_of_app, list_elem_of_singleton. tauto.
    - assert (lockGroupMembers (procs s' g) = lockGroupMembers (procs s g)) as ->; [|tauto].
      destruct (decide (g = p)) as [->|]; [by rewrite Hpp|by rewrite Hpq]. }
  assert (Hnop : forall t, ~ is_Some (proclocks s !! (t, p))) by (intros t; rewrite Hno; by intros []).
  assert (Hw : forall q, links (procs s' q) = links (procs s q) /\ waitStatus (procs s' q) = waitStatus (procs s q) /\
     waitLock (procs s' q) = waitLock (procs s q) /\ waitProcLock (procs s' q) = waitProcLock (procs s q) /\
     waitLockMode (procs s' q) = waitLockMode (procs s q) /\
     myProcLocks (procs s' q) = myProcLocks (procs s q)).
  { intros q. destruct (decide (q = p)) as [->|]; [by rewrite Hpp|].
    destruct (decide (q = ldr)) as [->|]; [by rewrite Hpl|by rewrite Hpq]. }
  split; [|split_and!; [done..|by rewrite Hpp]].
  apply (good_procs s); try done.
  - apply (wf_procs None s); try done.
    + intros t q pl Hq. apply Hld. intros ->. by rewrite Hno in Hq.
    + intros q g. destruct (decide (q = p)) as [->|Hq].
      * rewrite Hpp. cbn [lockGroupLeader set_lockGroupLeader]. intros [= <-]. rewrite Hgl by congruence. split; [done|].
        apply Hmem. by right.
      * rewrite Hgl by done. intros Hg. destruct (wf_group _ _ H q g Hg) as [G1 G2].
        assert (g <> p) by congruence. rewrite Hgl by done. split; [done|]. apply Hmem. by left.
    + intros g q [Hq|[-> ->]]%Hmem; [|by rewrite Hpp].
      apply (wf_members _ _ H) in Hq. destruct (decide (q = p)) as [->|]; [congruence|]. by rewrite Hgl.
  - intros q. by destruct (Hw q) as (_ & _ & _ & _ & -> & _).
  - intros t q Hq. apply Hld. intros ->. by destruct (Hnop t).
Qed.

End Hash.

End LockOps.
