(* ===== verification/Deadlock.v ===== *)
(** * The deadlock detector

    Models [src/backend/storage/lmgr/deadlock.c] and its caller [CheckDeadLock]
    of [proc.c]: the search for cycles in the waits-for graph, the topological
    sort of wait queues, the search for a rearrangement of wait queues that has
    no deadlock, and its application.

    The detector runs with all partition locks held, so the shared lock table
    does not change while it looks.  Its static work areas are the fields of
    [dstate] and [work]; an array that is filled from the front is a list.
    [None] is a failed Assert, a FATAL error, or the end of the fuel;
    [DeadlockProofs] shows that none of them happens as long as no
    more than [MaxBackends] lock groups hold or await locks. *)

From S2P Require Import Prelude.
From S2P Require Import Lock.
From stdpp Require Import list numbers.

Import Lock.

Open Scope Z_scope.

Module Deadlock.

(** ** Data *)

Record EDGE := MkEDGE { waiter : nat; blocker : nat; lock : LOCKTAG }.

Record WAIT_ORDER := MkWO { wo_lock : LOCKTAG; wo_procs : list nat }.

Record DEADLOCK_INFO := MkINFO { info_locktag : LOCKTAG; info_lockmode : Z; info_pid : Z }.

(** [DS_NOT_YET_CHECKED] is the value of [deadlock_state] before a check. *)
Inductive DeadLockState :=
  | DS_NOT_YET_CHECKED | DS_NO_DEADLOCK | DS_SOFT_DEADLOCK | DS_HARD_DEADLOCK
  | DS_BLOCKED_BY_AUTOVACUUM.

#[export] Instance DeadLockState_eq : EqDecision DeadLockState.
Proof. solve_decision. Defined.

(** [PROC_IS_AUTOVACUUM] of [vacuumFlags]. *)
Definition PROC_IS_AUTOVACUUM : Z := 0x01.

(** The work area of one [FindLockCycle]: [visitedProcs], the [softEdges] found
    so far, [deadlockDetails] and the autovacuum worker seen. *)
Record dstate := MkD {
  visitedProcs : list nat;
  softEdges : list EDGE;
  nDeadlockDetails : nat;
  deadlockDetails : nat -> DEADLOCK_INFO;
  blocking_autovacuum_proc : option nat }.

Definition visit (p : nat) (d : dstate) : dstate :=
  MkD (visitedProcs d ++ [p]) (softEdges d) (nDeadlockDetails d) (deadlockDetails d)
    (blocking_autovacuum_proc d).
Definition add_edge (e : EDGE) (d : dstate) : dstate :=
  MkD (visitedProcs d) (softEdges d ++ [e]) (nDeadlockDetails d) (deadlockDetails d)
    (blocking_autovacuum_proc d).
Definition set_nDeadlockDetails (n : nat) (d : dstate) : dstate :=
  MkD (visitedProcs d) (softEdges d) n (deadlockDetails d) (blocking_autovacuum_proc d).
Definition set_details (depth : nat) (i : DEADLOCK_INFO) (d : dstate) : dstate :=
  MkD (visitedProcs d) (softEdges d) (nDeadlockDetails d) (<[depth := i]> (deadlockDetails d))
    (blocking_autovacuum_proc d).
Definition set_autovac (p : nat) (d : dstate) : dstate :=
  MkD (visitedProcs d) (softEdges d) (nDeadlockDetails d) (deadlockDetails d) (Some p).

(** A loop that stops at the first element for which [f] says true. *)
Fixpoint scan_until {A} (f : A -> dstate -> option (bool * dstate)) (xs : list A) (d : dstate)
  : option (bool * dstate) :=
  match xs with
  | [] => Some (false, d)
  | x :: xs' => '(r, d) ← f x d; if (r : bool) then Some (true, d) else scan_until f xs' d
  end.

(** The entry of [waitOrders] for a lock. *)
Fixpoint find_order (wo : list WAIT_ORDER) (tag : LOCKTAG) : option (list nat) :=
  match wo with
  | [] => None
  | w :: wo' => if bool_decide (wo_lock w = tag) then Some (wo_procs w) else find_order wo' tag
  end.

(** The processes of a queue up to the first of a lock group. *)
Fixpoint before_group (s : shared) (leader : nat) (procs : list nat) : list nat :=
  match procs with
  | [] => []
  | p :: ps => if bool_decide (leader_of s p = leader) then [] else p :: before_group s leader ps
  end.

(** The processes of a queue up to a given one. *)
Fixpoint before_proc (last : nat) (procs : list nat) : list nat :=
  match procs with
  | [] => []
  | p :: ps => if bool_decide (p = last) then [] else p :: before_proc last ps
  end.

(** [lastGroupMember]: the last process of the queue that is in the group. *)
Definition last_member (s : shared) (leader : nat) (procs : list nat) : option nat :=
  foldl (fun acc p => if bool_decide (lockGroupLeader (Lock.procs s p) = Some leader)
                      then Some p else acc) None procs.

(** [holdMask] and the conflicts of the awaited mode have a mode in common. *)
Definition hard_conflict (conflictMask holdMask : Z) : bool :=
  existsb (fun lm => holds holdMask lm && holds conflictMask lm) lockmodes.

Section Detector.
Context (MaxBackends : nat) (MyProc : nat).

(** ** The search for a cycle *)

Section FindLockCycle.
Context (s : shared) (waitOrders : list WAIT_ORDER).

Section Member.
Context (rec : nat -> nat -> dstate -> option (bool * dstate)).  (* FindLockCycleRecurse *)
Context (checkProc checkProcLeader depth : nat).

(** Filling [deadlockDetails[depth]]. *)
Definition note_details (tag : LOCKTAG) (d : dstate) : dstate :=
  set_details depth (MkINFO tag (waitLockMode (procs s checkProc)) (pid (procs s checkProc))) d.

Definition check_holder (tag : LOCKTAG) (p : nat) (d : dstate) : option (bool * dstate) :=
  pl ← proclocks s !! (tag, p);
  let conflictMask := conflictTab (waitLockMode (procs s checkProc)) in
  if bool_decide (leader_of s p <> checkProcLeader) && hard_conflict conflictMask (holdMask pl) then
    '(r, d) ← rec p (S depth) d;
    if (r : bool) then Some (true, note_details tag d)
    else Some (false, if bool_decide (checkProc = MyProc) &&
                         negb (Z.land (vacuumFlags (procs s p)) PROC_IS_AUTOVACUUM =? 0)
                      then set_autovac p d else d)
  else Some (false, d).

Definition check_ahead (tag : LOCKTAG) (p : nat) (d : dstate) : option (bool * dstate) :=
  let conflictMask := conflictTab (waitLockMode (procs s checkProc)) in
  if negb (Z.land (LOCKBIT_ON (waitLockMode (procs s p))) conflictMask =? 0) &&
     bool_decide (leader_of s p <> checkProcLeader) then
    '(r, d) ← rec p (S depth) d;
    if (r : bool) then
      let d := note_details tag d in
      assert (length (softEdges d) <? MaxBackends)%nat;;
      Some (true, add_edge (MkEDGE checkProcLeader (leader_of s p) tag) d)
    else Some (false, d)
  else Some (false, d).

(** The processes ahead in the proposed or the true order of the wait queue. *)
Definition procs_ahead (tag : LOCKTAG) (l : LOCK) : option (list nat) :=
  match find_order waitOrders tag with
  | Some procs => Some (before_group s checkProcLeader procs)
  | None =>
      last ← (match lockGroupLeader (procs s checkProc) with
              | None => Some checkProc
              | Some _ => last_member s checkProcLeader (waitProcs l)
              end);
      Some (before_proc last (waitProcs l))
  end.

Definition FindLockCycleRecurseMember (d : dstate) : option (bool * dstate) :=
  tag ← waitLock (procs s checkProc);
  l ← locks s !! tag;
  '(r, d) ← scan_until (check_holder tag) (procLocks l) d;
  if (r : bool) then Some (true, d)
  else
    ahead ← procs_ahead tag l;
    scan_until (check_ahead tag) ahead d.
End Member.

(** [proc->links.next != NULL && proc->waitLock != NULL] *)
Definition is_waiting (p : nat) : bool :=
  links (procs s p) && bool_decide (waitLock (procs s p) <> None).

Fixpoint FindLockCycleRecurse (fuel : nat) (checkProc depth : nat) (d : dstate)
  : option (bool * dstate) :=
  match fuel with
  | O => None
  | S fuel' =>
      let checkProc := leader_of s checkProc in
      if bool_decide (head (visitedProcs d) = Some checkProc) then
        assert (depth <=? MaxBackends)%nat;; Some (true, set_nDeadlockDetails depth d)
      else if bool_decide (checkProc ∈ visitedProcs d) then Some (false, d)
      else
        assert (length (visitedProcs d) <? MaxBackends)%nat;;
        let d := visit checkProc d in
        let member p := FindLockCycleRecurseMember (FindLockCycleRecurse fuel') p checkProc depth in
        '(r, d) ← (if is_waiting checkProc then member checkProc d else Some (false, d));
        if (r : bool) then Some (true, d)
        else
          scan_until
            (fun p d => if is_waiting p && bool_decide (p <> checkProc) then member p d
                        else Some (false, d))
            (lockGroupMembers (procs s checkProc)) d
  end.

(** Each level of the recursion adds a process to [visitedProcs]. *)
Definition FindLockCycle (checkProc : nat) (d : dstate) : option (bool * dstate) :=
  FindLockCycleRecurse (S (S MaxBackends)) checkProc 0
    (MkD [] [] 0 (deadlockDetails d) (blocking_autovacuum_proc d)).
End FindLockCycle.

(** ** Sorting a wait queue *)

(** The work area of [TopoSort]: [topoProcs] with [NULL] for a process that was
    output, [beforeConstraints], [afterConstraints], and the [pred] and [link]
    fields of the constraints; arrays are functions of the index. *)
Record topo := MkTopo {
  topoProcs : nat -> option nat;
  beforeConstraints : nat -> Z;
  afterConstraints : nat -> nat;
  c_pred : nat -> nat;
  c_link : nat -> nat }.

(** The indexes [n - 1] down to [0]. *)
Definition down (n : nat) : list nat := rev (seq 0 n).

(** [waiter == proc || waiter->lockGroupLeader == proc] *)
Definition in_group (s : shared) (proc p : nat) : bool :=
  bool_decide (p = proc) || bool_decide (lockGroupLeader (procs s p) = Some proc).

(** One search for the representative of a lock group in the queue: the last
    member, the others get the mark [-1]. *)
Fixpoint find_representative (s : shared) (tag : LOCKTAG) (proc : nat) (queue : list nat)
    (js : list nat) (jj : option nat) (before : nat -> Z) : option (option nat * (nat -> Z)) :=
  match js with
  | [] => Some (jj, before)
  | j :: js' =>
      p ← queue !! j;
      if in_group s proc p then
        assert bool_decide (waitLock (procs s p) = Some tag);;
        match jj with
        | None => find_representative s tag proc queue js' (Some j) before
        | Some _ =>
            assert before j <=? 0;;
            find_representative s tag proc queue js' jj (<[j := -1]> before)
        end
      else find_representative s tag proc queue js' jj before
  end.

(** One constraint, the one with index [i]. *)
Definition count_constraint (s : shared) (tag : LOCKTAG) (queue : list nat) (c : EDGE) (i : nat)
    (t : topo) : option topo :=
  let n := length queue in
  '(jj, before) ← find_representative s tag (waiter c) queue (down n) None (beforeConstraints t);
  match jj with
  | None => Some (MkTopo (topoProcs t) before (afterConstraints t) (c_pred t) (c_link t))
  | Some j =>
      '(kk, before) ← find_representative s tag (blocker c) queue (down n) None before;
      match kk with
      | None => Some (MkTopo (topoProcs t) before (afterConstraints t) (c_pred t) (c_link t))
      | Some k =>
          assert 0 <=? before j;;
          Some (MkTopo (topoProcs t) (<[j := before j + 1]> before)
                  (<[k := S i]> (afterConstraints t)) (<[i := j]> (c_pred t))
                  (<[i := afterConstraints t k]> (c_link t)))
      end
  end.

(** The loop over the constraints, the first with index [i]. *)
Fixpoint count_constraints (s : shared) (tag : LOCKTAG) (queue : list nat) (cs : list EDGE) (i : nat)
    (t : topo) : option topo :=
  match cs with
  | [] => Some t
  | c :: cs' =>
      t ← count_constraint s tag queue c i t; count_constraints s tag queue cs' (S i) t
  end.

(** [while (topoProcs[last] == NULL) last--;] *)
Fixpoint skip_null (ps : nat -> option nat) (last : nat) : option nat :=
  match ps last with
  | Some _ => Some last
  | None => match last with O => None | S k => skip_null ps k end
  end.

(** The last process that nothing in the array has to follow. *)
Definition candidate (t : topo) (last : nat) : option nat :=
  find (fun j => negb (bool_decide (topoProcs t j = None)) && (beforeConstraints t j =? 0))
    (down (S last)).

(** Moving a group from [topoProcs] to the output, whose last free place is
    filled first. *)
Fixpoint output_group (s : shared) (proc : nat) (cs : list nat) (ps : nat -> option nat)
    (out : list nat) : (nat -> option nat) * list nat :=
  match cs with
  | [] => (ps, out)
  | c :: cs' =>
      match ps c with
      | Some p =>
          if in_group s proc p then output_group s proc cs' (<[c := None]> ps) (p :: out)
          else output_group s proc cs' ps out
      | None => output_group s proc cs' ps out
      end
  end.

(** [for (k = afterConstraints[j]; k > 0; k = constraints[k - 1].link)]; the
    list of constraints is no longer than [fuel]. *)
Fixpoint release_preds (fuel : nat) (k : nat) (t : topo) (before : nat -> Z) : option (nat -> Z) :=
  match k with
  | O => Some before
  | S i =>
      match fuel with
      | O => None
      | S fuel' =>
          let j := c_pred t i in
          release_preds fuel' (c_link t i) t (<[j := before j - 1]> before)
      end
  end.

(** The output loop; [Some None] is the result [false].  Each round puts out a
    process at least. *)
Fixpoint topo_loop (s : shared) (nConstraints queue_size fuel : nat) (last : nat) (t : topo)
    (out : list nat) : option (option (list nat)) :=
  if bool_decide (length out = queue_size) then Some (Some out)
  else
    match fuel with
    | O => None
    | S fuel' =>
        last ← skip_null (topoProcs t) last;
        match candidate t last with
        | None => Some None
        | Some j =>
            p ← topoProcs t j;
            let proc := leader_of s p in
            let '(ps, out') := output_group s proc (seq 0 (S last)) (topoProcs t) out in
            assert (length out <? length out')%nat;;
            before ← release_preds nConstraints (afterConstraints t j) t (beforeConstraints t);
            topo_loop s nConstraints queue_size fuel' last
              (MkTopo ps before (afterConstraints t) (c_pred t) (c_link t)) out'
        end
    end.

Definition TopoSort (s : shared) (tag : LOCKTAG) (constraints : list EDGE)
  : option (option (list nat)) :=
  l ← locks s !! tag;
  let queue := waitProcs l in
  let n := length queue in
  t ← count_constraints s tag queue constraints 0
        (MkTopo (fun j => queue !! j) (fun _ => 0) (fun _ => 0%nat) (fun _ => 0%nat) (fun _ => 0%nat));
  topo_loop s (length constraints) n n (pred n) t [].

(** The processes in the wait orders made so far ([nWaitOrderProcs]). *)
Definition order_procs (wo : list WAIT_ORDER) : nat := sum_list (length ∘ wo_procs <$> wo).

(** [ExpandConstraints] scans the constraints backwards: [done] is the list of
    wait orders made so far, [n] the number of constraints left. *)
Fixpoint ExpandConstraints_loop (s : shared) (constraints : list EDGE) (n : nat)
    (done : list WAIT_ORDER) : option (bool * list WAIT_ORDER) :=
  match n with
  | O => Some (true, done)
  | S i =>
      c ← constraints !! i;
      match find_order done (lock c) with
      | Some _ => ExpandConstraints_loop s constraints i done
      | None =>
          l ← locks s !! lock c;
          assert (length done <? MaxBackends / 2)%nat;;   (* room in waitOrders[] *)
          assert (order_procs done + length (waitProcs l) <=? MaxBackends)%nat;;
          r ← TopoSort s (lock c) (take (S i) constraints);
          match r with
          | None => Some (false, done)
          | Some order =>
              ExpandConstraints_loop s constraints i (done ++ [MkWO (lock c) order])
          end
      end
  end.

Definition ExpandConstraints (s : shared) (constraints : list EDGE)
  : option (bool * list WAIT_ORDER) :=
  ExpandConstraints_loop s constraints (length constraints) [].

(** ** The search for a configuration without deadlock *)

(** The static variables of the detector: [found] has the [deadlockDetails]
    and the [blocking_autovacuum_proc] of the last [FindLockCycle]. *)
Record work := MkWork {
  waitOrders : list WAIT_ORDER;
  possibleConstraints : nat -> EDGE;
  nPossibleConstraints : nat;
  found : dstate }.

Definition set_waitOrders (wo : list WAIT_ORDER) (w : work) : work :=
  MkWork wo (possibleConstraints w) (nPossibleConstraints w) (found w).
Definition set_nPossible (n : nat) (w : work) : work :=
  MkWork (waitOrders w) (possibleConstraints w) n (found w).

(** [softEdges[0..]] written at the end of the used part of the array. *)
Fixpoint write_edges (base : nat) (es : list EDGE) (a : nat -> EDGE) : nat -> EDGE :=
  match es with [] => a | e :: es' => write_edges (S base) es' (<[base := e]> a) end.

Definition maxCurConstraints : nat := MaxBackends.
Definition maxPossibleConstraints : nat := MaxBackends * 4.

(** The calls of [FindLockCycle] in [TestConfiguration], with the value that
    it returns. *)
Fixpoint test_procs (s : shared) (ps : list nat) (softFound : Z) (w : work) : option (Z * work) :=
  match ps with
  | [] => Some (softFound, w)
  | p :: ps' =>
      '(r, d) ← FindLockCycle s (waitOrders w) p (found w);
      let w := MkWork (waitOrders w)
                 (write_edges (nPossibleConstraints w) (softEdges d) (possibleConstraints w))
                 (nPossibleConstraints w) d in
      if (r : bool) then
        if bool_decide (softEdges d = []) then Some (-1, w)
        else test_procs s ps' (Z.of_nat (length (softEdges d))) w
      else test_procs s ps' softFound w
  end.

(** The processes whose cycles matter: the ends of the constraints, then the
    start. *)
Definition procs_to_test (cur : list EDGE) (startProc : nat) : list nat :=
  concat ((fun c => [waiter c; blocker c]) <$> cur) ++ [startProc].

Definition TestConfiguration (s : shared) (startProc : nat) (cur : list EDGE) (w : work)
  : option (Z * work) :=
  if bool_decide (maxPossibleConstraints < nPossibleConstraints w + MaxBackends)%nat
  then Some (-1, w)
  else
    '(r, wo) ← ExpandConstraints s cur;
    let w := set_waitOrders wo w in
    if (r : bool) then test_procs s (procs_to_test cur startProc) 0 w else Some (-1, w).

(** The loop over the soft edges [i] of the list saved at [old]. *)
Fixpoint try_edges (rec : list EDGE -> work -> option (bool * work)) (s : shared) (proc : nat)
    (cur : list EDGE) (nEdges : Z) (old : nat) (savedList : bool) (ixs : list nat) (w : work)
  : option (bool * work) :=
  match ixs with
  | [] => Some (true, set_nPossible old w)
  | i :: ixs' =>
      w ← (if negb savedList && bool_decide (0 < i)%nat then
             '(n, w) ← TestConfiguration s proc cur w;
             assert n =? nEdges;; Some w   (* inconsistent results during deadlock check *)
           else Some w);
      '(r, w) ← rec (cur ++ [possibleConstraints w (old + i)%nat]) w;
      if (r : bool) then try_edges rec s proc cur nEdges old savedList ixs' w else Some (false, w)
  end.

(** [cur] is [curConstraints[0..nCurConstraints]]; [true] when no solution
    exists. *)
Fixpoint DeadLockCheckRecurse (fuel : nat) (s : shared) (proc : nat) (cur : list EDGE) (w : work)
  : option (bool * work) :=
  match fuel with
  | O => None
  | S fuel' =>
      '(nEdges, w) ← TestConfiguration s proc cur w;
      if nEdges <? 0 then Some (true, w)
      else if nEdges =? 0 then Some (false, w)
      else if bool_decide (maxCurConstraints <= length cur)%nat then Some (true, w)
      else
        let old := nPossibleConstraints w in
        let n := Z.to_nat nEdges in
        let savedList := bool_decide (old + n + MaxBackends <= maxPossibleConstraints)%nat in
        let w := if savedList then set_nPossible (old + n) w else w in
        try_edges (DeadLockCheckRecurse fuel' s proc) s proc cur nEdges old savedList (seq 0 n) w
  end.

(** Applying the rearrangements, and waking up whoever can go on. *)
Fixpoint apply_orders (wo : list WAIT_ORDER) (s : shared) : option shared :=
  match wo with
  | [] => Some s
  | w :: wo' =>
      l ← locks s !! wo_lock w;
      assert bool_decide (length (wo_procs w) = length (waitProcs l));;
      s ← ProcLockWakeup MyProc (wo_lock w) (put_lock (wo_lock w) (set_waitProcs (wo_procs w) l) s);
      apply_orders wo' s
  end.

(** Each level of the recursion has one more constraint, up to
    [maxCurConstraints]. *)
Definition DeadLockCheck (proc : nat) (s : shared) (w : work)
  : option (DeadLockState * shared * work) :=
  let d := found w in
  let w := MkWork [] (possibleConstraints w) 0
             (MkD (visitedProcs d) (softEdges d) (nDeadlockDetails d) (deadlockDetails d) None) in
  '(hard, w) ← DeadLockCheckRecurse (S (S MaxBackends)) s proc [] w;
  if (hard : bool) then
    '(r, d) ← FindLockCycle s [] proc (found w);
    if (r : bool) then
      Some (DS_HARD_DEADLOCK, s,
            MkWork [] (write_edges 0 (softEdges d) (possibleConstraints w)) (nPossibleConstraints w) d)
    else None   (* FATAL: deadlock seems to have disappeared *)
  else
    s ← apply_orders (waitOrders w) s;
    Some (if bool_decide (waitOrders w <> []) then DS_SOFT_DEADLOCK
          else if bool_decide (blocking_autovacuum_proc (found w) <> None)
               then DS_BLOCKED_BY_AUTOVACUUM else DS_NO_DEADLOCK, s, w).

(** [CheckDeadLock] of [proc.c], with all partition locks held;
    [deadlock_state] is left alone when the process is not waiting any more. *)
Definition CheckDeadLock {lockhash : LockHash} (deadlock_state : DeadLockState) (s : shared) (w : work)
  : option (DeadLockState * shared * work) :=
  if links (procs s MyProc) then
    '(st, s, w) ← DeadLockCheck MyProc s w;
    if bool_decide (st = DS_HARD_DEADLOCK) then
      assert bool_decide (waitLock (procs s MyProc) <> None);;
      s ← RemoveFromWaitQueue MyProc MyProc s; Some (st, s, w)
    else Some (st, s, w)
  else Some (deadlock_state, s, w).

(** [GetBlockingAutoVacuumPgproc] resets the pointer that it returns. *)
Definition GetBlockingAutoVacuumPgproc (d : dstate) : option nat * dstate :=
  (blocking_autovacuum_proc d,
   MkD (visitedProcs d) (softEdges d) (nDeadlockDetails d) (deadlockDetails d) None).

(** ** Reporting *)

(** [ProcSleep] found that [proc1] asks for the lock that [proc2] waits for,
    and each has to wait for the other. *)
Definition RememberSimpleDeadLock (proc1 : nat) (lockmode : Z) (tag : LOCKTAG) (proc2 : nat)
    (s : shared) (d : dstate) : option dstate :=
  tag2 ← waitLock (procs s proc2);
  let details := <[0%nat := MkINFO tag lockmode (pid (procs s proc1))]> (deadlockDetails d) in
  let details := <[1%nat := MkINFO tag2 (waitLockMode (procs s proc2)) (pid (procs s proc2))]> details in
  Some (MkD (visitedProcs d) (softEdges d) 2 details (blocking_autovacuum_proc d)).

(** The lines of [DeadLockReport]: a process, the lock and mode it waits for
    and the process said to block it. *)
Definition DeadLockReport (d : dstate) : list (Z * Z * LOCKTAG * Z) :=
  map (fun i =>
         let info := deadlockDetails d i in
         let nextpid := if (i <? nDeadlockDetails d - 1)%nat then info_pid (deadlockDetails d (S i))
                        else info_pid (deadlockDetails d 0%nat) in
         (info_pid info, info_lockmode info, info_locktag info, nextpid))
    (seq 0 (nDeadlockDetails d)).
End Detector.

End Deadlock.
