(* ===== verification/DeadlockGraph.v ===== *)
(** * The waits-for graph and the search for a cycle

    The graph whose nodes are lock groups, with an edge for every group that
    has a member waiting for a lock that another group holds in a conflicting
    mode (hard) or asks for in a conflicting mode from a place further ahead in
    the wait queue (soft).  [FindLockCycle] finds a cycle through its argument
    exactly when there is one, and its outputs describe that cycle. *)

From S2P Require Import Prelude.
From S2P Require Import Lock.
From S2P Require Import LockInv.
From S2P Require Import LockOps.
From S2P Require Import Deadlock.
From stdpp Require Import list.

Import Lock LockInv LockOps Deadlock.

Open Scope Z_scope.

Module DeadlockGraph.

(** ** The graph *)

(** The wait queue of a lock in the configuration that is looked at. *)
Definition order_of (s : shared) (wo : list WAIT_ORDER) (tag : LOCKTAG) : list nat :=
  default (queue_of s tag) (find_order wo tag).

(** What keeps the waiting process [p] waiting: the blocking group, the soft
    edge if it is one, and what is said about it in a report. *)
Inductive blocked_by (s : shared) (wo : list WAIT_ORDER) (p b : nat)
  : option EDGE -> DEADLOCK_INFO -> Prop :=
  | hard_edge tag q m :
      waits (procs s p) tag p -> leader_of s q = b -> leader_of s p <> b -> m ∈ lockmodes ->
      holdb (hold s tag q) m = true -> DoLockModesConflict (waitLockMode (procs s p)) m = true ->
      blocked_by s wo p b None (MkINFO tag (waitLockMode (procs s p)) (pid (procs s p)))
  | soft_edge tag q pre m post :
      waits (procs s p) tag p -> leader_of s q = b -> leader_of s p <> b ->
      order_of s wo tag = pre ++ m :: post -> leader_of s m = leader_of s p -> q ∈ pre ->
      DoLockModesConflict (waitLockMode (procs s p)) (waitLockMode (procs s q)) = true ->
      blocked_by s wo p b (Some (MkEDGE (leader_of s p) b tag))
        (MkINFO tag (waitLockMode (procs s p)) (pid (procs s p))).

Definition edge (s : shared) (wo : list WAIT_ORDER) (a b : nat) (e : option EDGE) (i : DEADLOCK_INFO)
  : Prop := exists p, leader_of s p = a /\ blocked_by s wo p b e i.

(** A path, its soft edges from the last to the first, and the report lines
    from the first to the last. *)
Inductive path (s : shared) (wo : list WAIT_ORDER) : nat -> nat -> list EDGE -> list DEADLOCK_INFO -> Prop :=
  | path_one a b e i : edge s wo a b e i -> path s wo a b (option_list e) [i]
  | path_cons a b c e i es ls :
      edge s wo a b e i -> path s wo b c es ls -> path s wo a c (es ++ option_list e) (i :: ls).

Definition deadlocked (s : shared) (wo : list WAIT_ORDER) (p : nat) : Prop :=
  exists es ls, path s wo (leader_of s p) (leader_of s p) es ls.

(** Members of one group stand together. *)
Definition grouped (s : shared) (q : list nat) : Prop :=
  forall i j k x y z, (i < j < k)%nat -> q !! i = Some x -> q !! j = Some y -> q !! k = Some z ->
    leader_of s x = leader_of s z -> leader_of s y = leader_of s x.

Definition orders_ok (s : shared) (wo : list WAIT_ORDER) : Prop :=
  forall tag q, find_order wo tag = Some q -> q ≡ₚ queue_of s tag /\ grouped s q.

(** The lock groups that have anything to do with locks. *)
Definition groups_in (s : shared) (L : list nat) : Prop :=
  forall tag p, is_Some (proclocks s !! (tag, p)) -> leader_of s p ∈ L.

(** ** Lists and loops *)

Lemma path_soft_le s wo a b es ls : path s wo a b es ls -> (length es <= length ls)%nat.
Proof.
  assert (Ho : forall e : option EDGE, (length (option_list e) <= 1)%nat) by (intros [?|]; simpl; lia).
  induction 1 as [a b e i _|a b c e i es ls _ _ IH]; simpl; [apply Ho|].
  rewrite length_app. specialize (Ho e). lia.
Qed.

(** The search only ever adds to the visited groups. *)
Definition ext (d d' : dstate) : Prop := visitedProcs d `prefix_of` visitedProcs d'.

#[export] Instance ext_preorder : PreOrder ext.
Proof. split; [intros d; unfold ext; reflexivity|intros d1 d2 d3; unfold ext; apply transitivity]. Qed.

Section Scan.
Context {A : Type} (f : A -> dstate -> option (bool * dstate)).
Context (I R : dstate -> Prop) (Q : A -> dstate -> Prop).
Context (HQ : forall x d d', Q x d -> ext d d' -> Q x d').

(** A loop that stops at the first success, with an invariant, a fact for each
    element that was passed, and a result. *)
Lemma scan_until_spec xs : forall d,
  (forall x d, x ∈ xs -> I d ->
     exists r d', f x d = Some (r, d') /\ if r then R d' else I d' /\ ext d d' /\ Q x d') ->
  I d ->
  exists r d', scan_until f xs d = Some (r, d') /\
    if r then R d' else I d' /\ ext d d' /\ forall x, x ∈ xs -> Q x d'.
Proof.
  induction xs as [|x xs IH]; intros d Hf Hd; cbn [scan_until].
  - exists false, d. split; [done|]. split; [done|]. split; [reflexivity|].
    intros x Hx. by apply elem_of_nil in Hx.
  - destruct (Hf x d) as (r & d1 & E & H1); [constructor|done|]. rewrite E. cbn [mbind option_bind].
    destruct r; [by exists true, d1|]. destruct H1 as (H1 & He & Hx).
    destruct (IH d1) as (r & d2 & E2 & H2); [intros y e Hy; apply Hf; by constructor|done|].
    exists r, d2. split; [done|]. destruct r; [done|]. destruct H2 as (H2 & He2 & Hall). split; [done|].
    split; [by etransitivity|]. intros y [->|Hy]%elem_of_cons; [by eapply HQ|by apply Hall].
Qed.
End Scan.

Lemma before_proc_spec last q x :
  NoDup q -> last ∈ q -> x ∈ before_proc last q <-> exists pre post, q = pre ++ last :: post /\ x ∈ pre.
Proof.
  intros Hnd Hin. induction q as [|y q IH]; [by apply elem_of_nil in Hin|].
  apply NoDup_cons in Hnd as [Hy Hnd]. cbn [before_proc]. case_bool_decide as Hyl.
  - subst y. split; [intros Hx; by apply elem_of_nil in Hx|]. intros (pre & post & E & Hx).
    destruct pre as [|z pre]; [done|]. injection E as -> E. exfalso. apply Hy. rewrite E.
    apply elem_of_app. right. constructor.
  - apply elem_of_cons in Hin as [?|Hin]; [done|]. rewrite elem_of_cons, IH by done. split.
    + intros [->|(pre & post & -> & Hx)].
      * apply list_elem_of_split in Hin as (pre & post & ->). exists (y :: pre), post. split; [done|constructor].
      * exists (y :: pre), post. split; [done|by constructor].
    + intros ([|z pre] & post & E & Hx); [by apply elem_of_nil in Hx|]. injection E as -> E.
      apply elem_of_cons in Hx as [->|Hx]; [by left|]. right. by exists pre, post.
Qed.

Lemma before_group_spec s v q x :
  x ∈ before_group s v q ->
  (forall m, m ∈ q -> leader_of s m = v -> exists pre m' post, q = pre ++ m' :: post /\ leader_of s m' = v /\ x ∈ pre).
Proof.
  induction q as [|y q IH]; cbn [before_group]; intros Hx m Hm Hv; [by apply elem_of_nil in Hx|].
  case_bool_decide as Hy; [by apply elem_of_nil in Hx|].
  apply elem_of_cons in Hm as [->|Hm]; [done|]. apply elem_of_cons in Hx as [->|Hx].
  - apply list_elem_of_split in Hm as (pre & post & ->). exists (y :: pre), m, post. split_and!; [done..|constructor].
  - destruct (IH Hx m Hm Hv) as (pre & m' & post & -> & Hm' & Hin).
    exists (y :: pre), m', post. split_and!; [done..|by constructor].
Qed.

Lemma before_group_elem s v q x : x ∈ before_group s v q -> x ∈ q /\ leader_of s x <> v.
Proof.
  induction q as [|y q IH]; cbn [before_group]; [by intros Hx%elem_of_nil|].
  case_bool_decide; [by intros Hx%elem_of_nil|]. intros [->|Hx]%elem_of_cons.
  - split; [constructor|done].
  - destruct (IH Hx). split; [by constructor|done].
Qed.

(** With groups standing together nothing of another group is between the
    first member and a later one. *)
Lemma before_group_complete s v q pre m post x :
  grouped s q -> q = pre ++ m :: post -> leader_of s m = v -> x ∈ pre -> leader_of s x <> v ->
  x ∈ before_group s v q.
Proof.
  intros Hg -> Hm Hx Hxv.
  assert (Hgen : forall pre' q', q' = pre' ++ m :: post -> (forall z, z ∈ pre' -> leader_of s z = v -> False) ->
    forall y, y ∈ pre' -> y ∈ before_group s v q').
  { intros pre' q' -> Hno. induction pre' as [|z pre' IH]; intros y Hy; [by apply elem_of_nil in Hy|].
    cbn [app before_group]. rewrite bool_decide_eq_false_2 by (intros E; apply (Hno z); [constructor|done]).
    apply elem_of_cons in Hy as [->|Hy]; [constructor|]. constructor. apply IH; [|done].
    intros u Hu. apply Hno. by constructor. }
  apply list_elem_of_split in Hx as (p1 & p2 & ->).
  rewrite <- app_assoc. cbn [app].
  assert (Hno : forall z, z ∈ p1 -> leader_of s z = v -> False).
  { intros z Hz Hzv. apply list_elem_of_split in Hz as (z1 & z2 & ->).
    apply Hxv. rewrite <- Hzv.
    set (i := length z1). set (j := (i + S (length z2))%nat). set (k := (j + S (length p2))%nat).
    apply (Hg i j k z x m); [lia| | | |congruence].
    - rewrite <- !app_assoc. by apply list_lookup_middle.
    - rewrite <- !app_assoc. cbn [app]. rewrite lookup_app_r, lookup_cons by lia.
      replace (j - length z1)%nat with (S (length z2)) by lia. by apply list_lookup_middle.
    - apply list_lookup_middle. rewrite !length_app. cbn [length]. rewrite ?length_app. cbn [length]. lia. }
  clear -Hno Hxv. induction p1 as [|z p1 IH]; cbn [app before_group].
  - rewrite bool_decide_eq_false_2 by done. constructor.
  - rewrite bool_decide_eq_false_2 by (intros E; apply (Hno z); [constructor|done]). constructor.
    apply IH. intros u Hu. apply Hno. by constructor.
Qed.

Lemma hard_conflict_spec m mask :
  m ∈ lockmodes ->
  hard_conflict (conflictTab m) mask = true <->
  exists m', m' ∈ lockmodes /\ Z.testbit mask m' = true /\ DoLockModesConflict m m' = true.
Proof.
  intros Hm. unfold hard_conflict. rewrite existsb_exists. split.
  - intros (i & Hi%list_elem_of_In & [H1 H2]%andb_true_iff). exists i. split; [done|].
    rewrite holds_testbit in H1 by (apply lockmodes_range in Hi; lia). done.
  - intros (i & Hi & H1 & H2). exists i. split; [by apply list_elem_of_In|].
    rewrite holds_testbit by (apply lockmodes_range in Hi; lia). rewrite H1. done.
Qed.

Lemma last_member_spec s v q :
  (exists m, m ∈ q /\ lockGroupLeader (procs s m) = Some v) ->
  exists m pre post, last_member s v q = Some m /\ q = pre ++ m :: post /\
    lockGroupLeader (procs s m) = Some v /\ forall x, x ∈ post -> lockGroupLeader (procs s x) <> Some v.
Proof.
  unfold last_member. intros Hex.
  assert (Hgen : forall q acc,
    (forall m, m ∈ q -> lockGroupLeader (procs s m) <> Some v) /\
    foldl (fun acc p => if bool_decide (lockGroupLeader (procs s p) = Some v) then Some p else acc) acc q = acc \/
    exists m pre post, foldl (fun acc p => if bool_decide (lockGroupLeader (procs s p) = Some v) then Some p else acc) acc q = Some m
      /\ q = pre ++ m :: post /\ lockGroupLeader (procs s m) = Some v /\
      forall x, x ∈ post -> lockGroupLeader (procs s x) <> Some v).
  { clear. induction q as [|y q IH]; intros acc; cbn [foldl].
    - left. split; [|done]. intros m Hm. by apply elem_of_nil in Hm.
    - destruct (IH (if bool_decide (lockGroupLeader (procs s y) = Some v) then Some y else acc))
        as [[Hno E]|(m & pre & post & E & -> & Hm & Hpost)].
      + rewrite E. case_bool_decide as Hy.
        * right. exists y, [], q. done.
        * left. split; [|done]. intros m [->|Hm]%elem_of_cons; [done|by apply Hno].
      + right. exists m, (y :: pre), post. rewrite E. done. }
  destruct (Hgen q None) as [[Hno _]|Hm]; [|done].
  destruct Hex as (m & Hm & Hv). by destruct (Hno m Hm).
Qed.

(** ** The search *)

Section Hash.
Context {lockhash : LockHash} (MaxBackends MyProc : nat).

Section Search.
Context (s : shared) (wo : list WAIT_ORDER) (L : list nat) (a : nat).
Context (H : wf None s) (Hwo : orders_ok s wo).
Context (Hfit : groups_in s L) (Hlen : (length L <= MaxBackends)%nat).

Lemma waiting_waits p : is_waiting s p = true -> exists tag l, locks s !! tag = Some l /\
  p ∈ waitProcs l /\ waits (procs s p) tag p.
Proof.
  unfold is_waiting. intros [Hl _]%andb_true_iff.
  destruct (wf_links _ _ H p Hl) as (tag & l & Hl' & Hp). exists tag, l. split; [done|]. split; [done|].
  by apply (wf_queue _ _ H tag l).
Qed.

Lemma waits_waiting p tag : waits (procs s p) tag p -> is_waiting s p = true.
Proof.
  intros [W1 _ W3 _]. unfold is_waiting. rewrite W1, W3. by rewrite bool_decide_eq_true_2.
Qed.

Lemma waits_lock p tag : waits (procs s p) tag p -> exists l, locks s !! tag = Some l /\ p ∈ waitProcs l.
Proof.
  intros W. destruct (wf_links _ _ H p (wt_links _ _ _ W)) as (tag' & l & Hl & Hp).
  pose proof (wt_lock _ _ _ (wf_queue _ _ H tag' l p Hl Hp)) as E. rewrite (wt_lock _ _ _ W) in E.
  injection E as <-. by exists l.
Qed.

Lemma waits_in_groups p tag : waits (procs s p) tag p -> leader_of s p ∈ L.
Proof.
  intros W. destruct (waits_lock p tag W) as (l & Hl & Hp). apply (Hfit tag). apply hold_is_Some.
  by apply (lo_wait _ _ _ _ (wf_lock _ _ H _ _ Hl)).
Qed.

Lemma leader_idem p : leader_of s (leader_of s p) = leader_of s p.
Proof.
  unfold leader_of at 2 3. destruct (lockGroupLeader (procs s p)) as [g|] eqn:E; cbn.
  - destruct (wf_group _ _ H p g E) as [Hg _]. unfold leader_of. by rewrite Hg.
  - unfold leader_of. by rewrite E.
Qed.

(** A configuration in the middle of the search: of the groups visited since
    [V] all edges have been followed without coming back to the start. *)
Record ok (V : list nat) (d : dstate) : Prop := {
  ok_prefix : V `prefix_of` visitedProcs d;
  ok_nodup : NoDup (visitedProcs d);
  ok_in : forall x, x ∈ visitedProcs d -> x ∈ L;
  ok_soft : softEdges d = [];
  ok_head : head (visitedProcs d) = Some a;
  ok_closed : forall x, x ∈ visitedProcs d -> x ∉ V ->
    forall b e i, edge s wo x b e i -> b ∈ visitedProcs d /\ b <> a }.

Definition seen (b : nat) (d : dstate) : Prop := b ∈ visitedProcs d /\ b <> a.

(** The search came back to the start over a path from [b]. *)
Definition won (b depth : nat) (d : dstate) : Prop :=
  exists es ls, path s wo b a es ls /\ softEdges d = es /\
    nDeadlockDetails d = (depth + length ls)%nat /\ (nDeadlockDetails d <= MaxBackends)%nat /\
    deadlockDetails d <$> seq depth (length ls) = ls.

Definition back (b depth : nat) (d : dstate) : Prop :=
  b = a /\ softEdges d = [] /\ nDeadlockDetails d = depth /\ (depth <= MaxBackends)%nat \/ won b depth d.

Definition rec_spec (fuel : nat) (rec : nat -> nat -> dstate -> option (bool * dstate)) : Prop :=
  forall q depth V d, ok V d -> leader_of s q ∈ L -> (depth <= length (visitedProcs d))%nat ->
    (MaxBackends + 1 <= fuel + length (visitedProcs d))%nat ->
    exists r d', rec q depth d = Some (r, d') /\
      if r then back (leader_of s q) depth d' else ok V d' /\ ext d d' /\ seen (leader_of s q) d'.

Lemma ok_room V d x : ok V d -> x ∈ L -> x ∉ visitedProcs d -> (length (visitedProcs d) < length L)%nat.
Proof.
  intros O Hx Hn.
  assert (length (x :: visitedProcs d) <= length L)%nat; [|simpl in *; lia].
  apply submseteq_length, NoDup_submseteq; [constructor; [done|apply O]|].
  intros y [->|Hy]%elem_of_cons; [done|by apply O].
Qed.

Lemma seen_ext b d d' : ext d d' -> seen b d -> seen b d'.
Proof. intros [k E] [H1 H2]. split; [|done]. rewrite E. apply elem_of_app. by left. Qed.

(** An edge from [v] to [b], the search from [b] having come back. *)
Lemma won_edge p depth tag b e d :
  blocked_by s wo p b e (MkINFO tag (waitLockMode (procs s p)) (pid (procs s p))) ->
  back b (S depth) d ->
  (length (softEdges d) < MaxBackends)%nat /\
  won (leader_of s p) depth (let d := note_details s p depth tag d in
    match e with Some e => add_edge e d | None => d end).
Proof.
  intros He Hb. set (i := MkINFO _ _ _) in *.
  assert (Hedge : edge s wo (leader_of s p) b e i) by (exists p; done).
  assert (Hd : deadlockDetails (note_details s p depth tag d) = <[depth := i]> (deadlockDetails d)) by done.
  destruct Hb as [(-> & Es & En & Hle)|(es & ls & P & Es & En & Hle & Ed)].
  - rewrite Es. split; [simpl; lia|]. exists (option_list e), [i]. split; [by apply path_one|].
    destruct e as [e|]; cbn [softEdges add_edge note_details set_details nDeadlockDetails deadlockDetails option_list];
      rewrite Es; (split; [done|]); (split; [simpl; lia|]); (split; [lia|]); cbn; by rewrite fn_lookup_insert.
  - pose proof (path_soft_le _ _ _ _ _ _ P). subst es. split; [lia|].
    exists (softEdges d ++ option_list e), (i :: ls). split; [by eapply path_cons|].
    assert (Hmap : forall f, f = <[depth := i]> (deadlockDetails d) ->
      f <$> seq depth (length (i :: ls)) = i :: ls).
    { intros f ->. cbn [length seq fmap list_fmap]. rewrite fn_lookup_insert. f_equal. rewrite <- Ed at 2.
      apply list_fmap_ext. intros k x Hx. apply lookup_seq in Hx as [-> _]. apply fn_lookup_insert_ne. lia. }
    destruct e as [e|]; cbn [softEdges add_edge note_details set_details nDeadlockDetails deadlockDetails option_list];
      (split; [by rewrite ?app_nil_r|]); (split; [simpl; lia|]); (split; [lia|]); by apply Hmap.
Qed.

Section Member.
Context (fuel : nat) (rec : nat -> nat -> dstate -> option (bool * dstate)) (Hrec : rec_spec fuel rec).
Context (p depth : nat) (tag : LOCKTAG) (l : LOCK) (V : list nat).
Context (Hl : locks s !! tag = Some l) (Hp : p ∈ waitProcs l) (Hw : waits (procs s p) tag p).

Notation v := (leader_of s p).
Notation mode := (waitLockMode (procs s p)).

Lemma mode_ok q : q ∈ waitProcs l -> waitLockMode (procs s q) ∈ lockmodes.
Proof. intros Hq. by apply (lo_wait _ _ _ _ (wf_lock _ _ H _ _ Hl)). Qed.

(** The invariant of the two loops. *)
Definition going (d : dstate) : Prop :=
  ok V d /\ (S depth <= length (visitedProcs d))%nat /\ (MaxBackends + 1 <= fuel + length (visitedProcs d))%nat.

Lemma going_rec q d :
  going d -> leader_of s q ∈ L ->
  exists r d', rec q (S depth) d = Some (r, d') /\
    if r then back (leader_of s q) (S depth) d'
    else going d' /\ ext d d' /\ seen (leader_of s q) d'.
Proof.
  intros (O & Hd & Hf) Hq. destruct (Hrec q (S depth) V d O Hq Hd Hf) as (r & d' & E & Hr).
  exists r, d'. split; [done|]. destruct r; [done|]. destruct Hr as (O' & Hpre & Hs).
  apply prefix_length in Hpre as Hlen'. split; [split; [done|split; lia]|done].
Qed.

Definition hard_target (q : nat) : Prop :=
  leader_of s q <> v /\ exists m, m ∈ lockmodes /\ holdb (hold s tag q) m = true /\
    DoLockModesConflict mode m = true.

Lemma check_holder_spec q d :
  q ∈ procLocks l -> going d ->
  exists r d', check_holder MyProc s rec p v depth tag q d = Some (r, d') /\
    if r then won v depth d'
    else going d' /\ ext d d' /\ (hard_target q -> seen (leader_of s q) d').
Proof.
  intros Hq Hgo. unfold check_holder.
  pose proof (lo_dom _ _ _ _ (wf_lock _ _ H _ _ Hl) q) as Hdom.
  destruct (proj1 Hdom Hq) as [mask Hmask]. unfold hold in Hmask.
  destruct (proclocks s !! (tag, q)) as [pl|] eqn:Epl; [|done]. cbn [mbind option_bind].
  pose proof (hold_Some _ _ _ _ Epl) as Eh. pose proof (mode_ok p Hp) as Hm.
  destruct (bool_decide (leader_of s q <> v)) eqn:Eld; cbn [andb].
  2: { exists false, d. split; [done|]. split; [done|]. split; [done|].
       intros [Hne _]. by apply bool_decide_eq_false in Eld. }
  apply bool_decide_eq_true in Eld.
  destruct (hard_conflict _ _) eqn:Ec.
  2: { exists false, d. split; [done|]. split; [done|]. split; [done|].
       intros [_ (m & Hm' & Hh & Hx)]. assert (hard_conflict (conflictTab mode) (holdMask pl) = true); [|congruence].
       apply hard_conflict_spec; [done|]. exists m. split; [done|]. rewrite Eh in Hh. done. }
  destruct (going_rec q d Hgo) as (r & d' & E & Hr).
  { apply (Hfit tag). by rewrite Epl. }
  rewrite E. cbn [mbind option_bind]. destruct r.
  - apply hard_conflict_spec in Ec as (m & Hm' & Hh & Hx); [|done].
    eexists true, _. split; [done|]. eapply (won_edge p depth tag (leader_of s q) None); [|done].
    apply (hard_edge s wo p _ tag q m); try done. rewrite Eh. done.
  - destruct Hr as (Hgo' & Hpre & Hs). eexists false, _. split; [done|].
    destruct (_ && _); [|by split_and!]. split; [|by split_and!].
    destruct Hgo' as ([O1 O2 O3 O4 O5 O6] & G1 & G2). by split.
Qed.

(** A process ahead of some member of the group. *)
Definition soft_target (q : nat) : Prop :=
  leader_of s q <> v /\ DoLockModesConflict mode (waitLockMode (procs s q)) = true.

Lemma soft_conflict q : q ∈ waitProcs l ->
  negb (Z.land (LOCKBIT_ON (waitLockMode (procs s q))) (conflictTab mode) =? 0) =
  DoLockModesConflict mode (waitLockMode (procs s q)).
Proof. intros _. unfold DoLockModesConflict. by rewrite Z.land_comm. Qed.

Lemma check_ahead_spec q pre m post d :
  q ∈ waitProcs l -> order_of s wo tag = pre ++ m :: post -> leader_of s m = v -> q ∈ pre -> going d ->
  exists r d', check_ahead MaxBackends s rec p v depth tag q d = Some (r, d') /\
    if r then won v depth d'
    else going d' /\ ext d d' /\ (soft_target q -> seen (leader_of s q) d').
Proof.
  intros Hq Ho Hm Hpre' Hgo. unfold check_ahead. rewrite soft_conflict by done.
  destruct (DoLockModesConflict _ _) eqn:Ec; cbn [andb].
  2: { exists false, d. split; [done|]. split; [done|]. split; [done|]. intros [_ Hx]. congruence. }
  destruct (bool_decide (leader_of s q <> v)) eqn:Eld.
  2: { exists false, d. split; [done|]. split; [done|]. split; [done|].
       intros [Hne _]. by apply bool_decide_eq_false in Eld. }
  apply bool_decide_eq_true in Eld.
  destruct (going_rec q d Hgo) as (r & d' & E & Hr).
  { eapply waits_in_groups, (wf_queue _ _ H tag l q Hl Hq). }
  rewrite E. cbn [mbind option_bind]. destruct r.
  - assert (He : blocked_by s wo p (leader_of s q) (Some (MkEDGE v (leader_of s q) tag))
      (MkINFO tag mode (pid (procs s p)))) by (by apply (soft_edge s wo p _ tag q pre m post)).
    destruct (won_edge p depth tag _ _ d' He Hr) as [Hroom Hwon].
    change (softEdges (note_details s p depth tag d')) with (softEdges d').
    rewrite (proj2 (Nat.ltb_lt _ _) Hroom). eexists true, _. split; [done|]. exact Hwon.
  - destruct Hr as (Hgo' & Hpre & Hs). by exists false, d'.
Qed.
End Member.

Lemma procs_ahead_spec p tag l :
  locks s !! tag = Some l -> p ∈ waitProcs l ->
  exists ahead, procs_ahead s wo p (leader_of s p) tag l = Some ahead /\
    (forall q, q ∈ ahead -> q ∈ waitProcs l /\ exists pre m post, order_of s wo tag = pre ++ m :: post /\
       leader_of s m = leader_of s p /\ q ∈ pre) /\
    (forall q pre m post, order_of s wo tag = pre ++ m :: post -> leader_of s m = leader_of s p ->
       q ∈ pre -> leader_of s q <> leader_of s p -> q ∈ ahead).
Proof.
  intros Hl Hp. unfold procs_ahead, order_of.
  pose proof (lo_nodup_w _ _ _ _ (wf_lock _ _ H _ _ Hl)) as Hnd.
  destruct (find_order wo tag) as [ps|] eqn:Eo; cbn [default from_option id].
  - destruct (Hwo tag ps Eo) as [Hperm Hg]. rewrite (queue_of_Some _ _ _ Hl) in Hperm.
    eexists. split; [done|]. split.
    + intros q Hq. pose proof (before_group_elem _ _ _ _ Hq) as [Hin _].
      split; [by rewrite <- Hperm|]. eapply (before_group_spec s _ ps q Hq p); [by rewrite Hperm|done].
    + intros q pre m post E Hm Hq Hne. by eapply before_group_complete.
  - rewrite (queue_of_Some _ _ _ Hl).
    destruct (lockGroupLeader (procs s p)) as [g|] eqn:Eg.
    + assert (Ev : leader_of s p = g) by (unfold leader_of; by rewrite Eg).
      destruct (last_member_spec s (leader_of s p) (waitProcs l)) as (m0 & pre0 & post0 & -> & E0 & Hm0 & Hpost).
      { exists p. split; [done|]. by rewrite Eg, Ev. }
      cbn [mbind option_bind]. eexists. split; [done|].
      assert (Hin0 : m0 ∈ waitProcs l) by (rewrite E0; apply elem_of_app; right; constructor).
      split.
      * intros q Hq. apply before_proc_spec in Hq as (pre & post & E & Hq); [|done..]. split.
        -- rewrite E. apply elem_of_app. by left.
        -- exists pre, m0, post. split; [done|]. split; [|done]. unfold leader_of at 1. by rewrite Hm0.
      * intros q pre m post E Hm Hq Hne. apply before_proc_spec; [done..|]. exists pre0, post0. split; [done|].
        assert (Hgm : lockGroupLeader (procs s m) = Some (leader_of s p)).
        { rewrite Ev in Hm |- *. unfold leader_of in Hm.
          destruct (lockGroupLeader (procs s m)) as [g'|] eqn:Eg'; cbn in Hm; [congruence|].
          destruct (wf_group _ _ H p g Eg) as [Hgg _]. congruence. }
        assert (Hmp : m ∈ pre0 \/ m = m0).
        { assert (Hin : m ∈ pre0 ++ m0 :: post0) by (rewrite <- E0, E; apply elem_of_app; right; constructor).
          apply elem_of_app in Hin as [?|[?|Hin]%elem_of_cons]; [by left|by right|]. by destruct (Hpost m Hin). }
        destruct Hmp as [Hmp| ->].
        -- apply list_elem_of_split in Hmp as (x & y & ->). rewrite <- app_assoc in E0. cbn in E0.
           destruct (split_unique m pre post x (y ++ m0 :: post0)) as [-> _]; [by rewrite <- E|by rewrite <- E|].
           apply elem_of_app. by left.
        -- destruct (split_unique m0 pre post pre0 post0) as [-> _]; [by rewrite <- E|by rewrite <- E|done].
    + assert (Ev : leader_of s p = p) by (unfold leader_of; by rewrite Eg). cbn [mbind option_bind].
      eexists. split; [done|]. split.
      * intros q Hq. apply before_proc_spec in Hq as (pre & post & E & Hq); [|done..]. split.
        -- rewrite E. apply elem_of_app. by left.
        -- by exists pre, p, post.
      * intros q pre m post E Hm Hq Hne. apply before_proc_spec; [done..|].
        assert (m = p) as ->; [|by exists pre, post].
        unfold leader_of in Hm. rewrite Eg in Hm. cbn in Hm.
        destruct (lockGroupLeader (procs s m)) as [g'|] eqn:Eg'; cbn in Hm; [|done]. subst g'.
        destruct (wf_group _ _ H m p Eg') as [Hgg _]. congruence.
Qed.

Lemma member_spec fuel rec p depth V d :
  rec_spec fuel rec -> is_waiting s p = true -> going fuel depth V d ->
  exists r d', FindLockCycleRecurseMember MaxBackends MyProc s wo rec p (leader_of s p) depth d = Some (r, d') /\
    if r then won (leader_of s p) depth d'
    else going fuel depth V d' /\ ext d d' /\ forall b e i, blocked_by s wo p b e i -> seen b d'.
Proof.
  intros Hrec Hw0 Hgo. destruct (waiting_waits p Hw0) as (tag & l & Hl & Hp & Hw).
  unfold FindLockCycleRecurseMember.
  rewrite (wt_lock _ _ _ Hw). cbn [mbind option_bind]. rewrite Hl. cbn [mbind option_bind].
  destruct (scan_until_spec (check_holder MyProc s rec p (leader_of s p) depth tag)
    (going fuel depth V) (won (leader_of s p) depth)
    (fun q d1 => hard_target p tag q -> seen (leader_of s q) d1)) with (xs := procLocks l) (d := d)
    as (r & d1 & -> & Hr); [|by intros; eapply check_holder_spec|done|].
  { intros x d1 d2 Hx He Ht. eapply seen_ext; [done|by apply Hx]. }
  cbn [mbind option_bind]. destruct r; [by exists true, d1|]. destruct Hr as (Hgo1 & He1 & Hhard).
  destruct (procs_ahead_spec p tag l Hl Hp) as (ahead & -> & Hin & Hall). cbn [mbind option_bind].
  destruct (scan_until_spec (check_ahead MaxBackends s rec p (leader_of s p) depth tag)
    (going fuel depth V) (won (leader_of s p) depth)
    (fun q d1 => soft_target p q -> seen (leader_of s q) d1)) with (xs := ahead) (d := d1)
    as (r & d2 & -> & Hr); [| |done|].
  { intros x d2 d3 Hx He Ht. eapply seen_ext; [done|by apply Hx]. }
  { intros q d2 Hq Hg. destruct (Hin q Hq) as (Hql & pre & m & post & Ho & Hm & Hpre).
    by eapply check_ahead_spec. }
  exists r, d2. split; [done|]. destruct r; [done|]. destruct Hr as (Hgo2 & He2 & Hsoft).
  split; [done|]. split; [by etransitivity|].
  assert (Htag : forall t, waits (procs s p) t p -> t = tag).
  { intros t W. pose proof (wt_lock _ _ _ W). pose proof (wt_lock _ _ _ Hw). congruence. }
  intros b e i [t q m W <- Hne Hm Hh Hc|t q pre m post W <- Hne Ho Hm Hq Hc];
    rewrite (Htag t W) in *.
  - eapply seen_ext; [exact He2|]. apply Hhard; [|by split; [|by exists m]].
    apply (lo_dom _ _ _ _ (wf_lock _ _ H _ _ Hl)). destruct (hold s tag q); [done|by cbn in Hh].
  - apply Hsoft; [by eapply Hall|done].
Qed.

(** The groups that [v] waits for, [v] itself being visited last. *)
Lemma ok_visit V d v :
  ok V d -> v ∈ L -> v ∉ visitedProcs d -> ok (visitedProcs d ++ [v]) (visit v d).
Proof.
  intros [O1 O2 O3 O4 O5 O6] Hv Hn. split; cbn [visitedProcs softEdges visit]; try done.
  - apply NoDup_app. split; [done|]. split; [|apply NoDup_singleton].
    intros x Hx Hx'%list_elem_of_singleton. by subst.
  - intros x [Hx|Hx%list_elem_of_singleton]%elem_of_app; [by apply O3|by subst].
  - destruct (visitedProcs d); [done|]. done.
Qed.

(** The body of [FindLockCycleRecurse] once [v] is visited. *)
Definition search_from (rec : nat -> nat -> dstate -> option (bool * dstate)) (v depth : nat) (d : dstate)
  : option (bool * dstate) :=
  let member p := FindLockCycleRecurseMember MaxBackends MyProc s wo rec p v depth in
  '(r, d) ← (if is_waiting s v then member v d else Some (false, d));
  if (r : bool) then Some (true, d)
  else
    scan_until
      (fun p d => if is_waiting s p && bool_decide (p <> v) then member p d else Some (false, d))
      (lockGroupMembers (procs s v)) d.

Lemma search_from_spec fuel rec v depth V d :
  rec_spec fuel rec -> leader_of s v = v -> going fuel depth V d ->
  exists r d', search_from rec v depth d = Some (r, d') /\
    if r then won v depth d'
    else ok V d' /\ ext d d' /\ forall b e i, edge s wo v b e i -> seen b d'.
Proof.
  intros Hrec Hv Hgo. unfold search_from.
  assert (Hmem : forall p d1, is_waiting s p = true -> leader_of s p = v -> going fuel depth V d1 ->
    exists r d', FindLockCycleRecurseMember MaxBackends MyProc s wo rec p v depth d1 = Some (r, d') /\
      if r then won v depth d'
      else going fuel depth V d' /\ ext d1 d' /\ forall b e i, blocked_by s wo p b e i -> seen b d').
  { intros p d1 Hp <- Hg. by apply member_spec. }
  assert (Hself : exists r d1, (if is_waiting s v
      then FindLockCycleRecurseMember MaxBackends MyProc s wo rec v v depth d else Some (false, d)) = Some (r, d1) /\
    if r then won v depth d1
    else going fuel depth V d1 /\ ext d d1 /\ (is_waiting s v = true -> forall b e i, blocked_by s wo v b e i -> seen b d1)).
  { destruct (is_waiting s v) eqn:Ew; [|by exists false, d].
    destruct (Hmem v d Ew Hv Hgo) as (r & d1 & E & Hr). exists r, d1. split; [done|].
    destruct r; [done|]. destruct Hr as (? & ? & ?). done. }
  destruct Hself as (r & d1 & -> & Hr). cbn [mbind option_bind].
  destruct r; [by exists true, d1|]. destruct Hr as (Hgo1 & He1 & Hv1).
  destruct (scan_until_spec (fun p d => if is_waiting s p && bool_decide (p <> v)
      then FindLockCycleRecurseMember MaxBackends MyProc s wo rec p v depth d else Some (false, d))
    (going fuel depth V) (won v depth)
    (fun p d1 => is_waiting s p = true -> p <> v -> forall b e i, blocked_by s wo p b e i -> seen b d1))
    with (xs := lockGroupMembers (procs s v)) (d := d1) as (r & d2 & -> & Hr); [| |done|].
  { intros x e1 e2 Hx He Hw Hne b e i Hb. eapply seen_ext; [done|by eapply Hx]. }
  { intros p d2 Hp%(wf_members _ _ H) Hg. destruct (is_waiting s p) eqn:Ew; cbn [andb].
    2: { exists false, d2. split; [done|]. split; [done|]. split; [reflexivity|done]. }
    case_bool_decide as Hne.
    2: { exists false, d2. split; [done|]. split; [done|]. split; [reflexivity|done]. }
    destruct (Hmem p d2 Ew) as (r & d3 & E & Hr); [by unfold leader_of; rewrite Hp|done|].
    exists r, d3. split; [done|]. destruct r; [done|]. destruct Hr as (? & ? & ?). done. }
  exists r, d2. split; [done|]. destruct r; [done|]. destruct Hr as (Hgo2 & He2 & Hall).
  split; [apply Hgo2|]. split; [by etransitivity|].
  intros b e i (p & Hp & Hb).
  assert (Hw : is_waiting s p = true) by (destruct Hb as [t q m W|t q pre m post W]; by eapply waits_waiting).
  destruct (decide (p = v)) as [->|Hne].
  - eapply seen_ext; [exact He2|]. by eapply Hv1.
  - eapply (Hall p); [|done..]. unfold leader_of in Hp.
    destruct (lockGroupLeader (procs s p)) as [g|] eqn:Eg; cbn in Hp; [|congruence].
    subst g. by apply (wf_group _ _ H).
Qed.

Lemma FindLockCycleRecurse_S fuel q depth d :
  FindLockCycleRecurse MaxBackends MyProc s wo (S fuel) q depth d =
  if bool_decide (head (visitedProcs d) = Some (leader_of s q)) then
    assert (depth <=? MaxBackends)%nat;; Some (true, set_nDeadlockDetails depth d)
  else if bool_decide (leader_of s q ∈ visitedProcs d) then Some (false, d)
  else
    assert (length (visitedProcs d) <? MaxBackends)%nat;;
    search_from (FindLockCycleRecurse MaxBackends MyProc s wo fuel) (leader_of s q) depth
      (visit (leader_of s q) d).
Proof. reflexivity. Qed.

Lemma FindLockCycleRecurse_spec fuel : rec_spec fuel (FindLockCycleRecurse MaxBackends MyProc s wo fuel).
Proof.
  induction fuel as [|fuel IH]; intros q depth V d O Hq Hd Hf.
  { exfalso. assert (length (visitedProcs d) <= length L)%nat; [|lia].
    apply submseteq_length, NoDup_submseteq; [apply O|]. intros x. apply O. }
  rewrite FindLockCycleRecurse_S.
  assert (Hle : (length (visitedProcs d) <= length L)%nat).
  { apply submseteq_length, NoDup_submseteq; [apply O|]. intros x. apply O. }
  case_bool_decide as Hhd.
  - rewrite (ok_head _ _ O) in Hhd. injection Hhd as Hhd.
    rewrite (proj2 (Nat.leb_le _ _)) by lia. eexists true, _. split; [done|].
    left. split; [done|]. split; [apply O|]. split; [done|lia].
  - case_bool_decide as Hin.
    + exists false, d. split; [done|]. split; [done|]. split; [reflexivity|]. split; [done|].
      intros E. apply Hhd. by rewrite (ok_head _ _ O), E.
    + pose proof (ok_room _ _ _ O Hq Hin) as Hroom. rewrite (proj2 (Nat.ltb_lt _ _)) by lia.
      pose proof (ok_visit V d _ O Hq Hin) as O1. set (v := leader_of s q) in *.
      destruct (search_from_spec fuel _ v depth (visitedProcs d ++ [v]) (visit v d) IH) as (r & d' & E & Hr).
      * apply leader_idem.
      * split; [exact O1|]. cbn [visitedProcs visit]. rewrite length_app. cbn. lia.
      * rewrite E. exists r, d'. split; [done|].
        destruct r; [by right|]. destruct Hr as (O' & He & Hv).
        assert (He' : ext d d').
        { etransitivity; [|exact He]. unfold ext. cbn [visitedProcs visit]. by apply prefix_app_r. }
        assert (Hva : v <> a).
        { intros Eva. apply Hin. rewrite Eva. pose proof (ok_head _ _ O) as Hh.
          destruct (visitedProcs d); [done|]. injection Hh as ->. constructor. }
        split; [|split; [done|split; [|done]]].
        -- destruct O as [Q1 Q2 Q3 Q4 Q5 Q6]. destruct O' as [P1 P2 P3 P4 P5 P6]. split; try done.
           ++ by etransitivity.
           ++ intros x Hx HxV b e i Hb.
              destruct (decide (x ∈ visitedProcs d ++ [v])) as [Hx1|Hx1]; [|by eapply P6].
              apply elem_of_app in Hx1 as [Hx1|Hx1%list_elem_of_singleton].
              ** eapply seen_ext; [exact He'|]. by eapply Q6.
              ** subst x. by eapply Hv.
        -- destruct (ok_prefix _ _ O') as [k ->]. apply elem_of_app. left. apply elem_of_app. right. constructor.
Qed.

End Search.

(** ** The cycle found *)

Lemma path_from s wo a b es ls : path s wo a b es ls ->
  exists c e i, edge s wo a c e i /\ (c = b \/ exists es' ls', path s wo c b es' ls').
Proof.
  induction 1 as [a b e i He|a b c e i es ls He HP _].
  - exists b, e, i. split; [done|]. by left.
  - exists b, e, i. split; [done|]. right. by exists es, ls.
Qed.

(** A set of groups closed under edges that do not lead to [a] has no path
    to [a]. *)
Lemma closed_no_path s wo (V : list nat) a :
  (forall x, x ∈ V -> forall b e i, edge s wo x b e i -> b ∈ V /\ b <> a) ->
  forall b es ls, b ∈ V -> path s wo b a es ls -> False.
Proof.
  intros HV b es ls Hb P. remember a as c eqn:Ec.
  induction P as [b c e i He|b x c e i es ls He HP IH]; subst c.
  - by destruct (HV b Hb _ _ _ He).
  - destruct (HV b Hb _ _ _ He) as [Hx _]. by apply IH.
Qed.

Lemma FindLockCycle_spec s wo L p d :
  wf None s -> orders_ok s wo -> groups_in s L -> (length L <= MaxBackends)%nat -> leader_of s p ∈ L ->
  exists r d', FindLockCycle MaxBackends MyProc s wo p d = Some (r, d') /\
    if r then
      let n := nDeadlockDetails d' in
      path s wo (leader_of s p) (leader_of s p) (softEdges d') (deadlockDetails d' <$> seq 0 n) /\
      (n <= MaxBackends)%nat
    else softEdges d' = [] /\ ~ deadlocked s wo p.
Proof.
  intros H Hwo Hfit Hlen Hp. unfold FindLockCycle.
  set (d0 := MkD _ _ _ _ _). rewrite FindLockCycleRecurse_S. set (v := leader_of s p) in *.
  change (visitedProcs d0) with (@nil nat).
  rewrite bool_decide_eq_false_2 by done. rewrite bool_decide_eq_false_2 by apply not_elem_of_nil.
  assert (HL : (0 < length L)%nat) by (destruct L; [by apply elem_of_nil in Hp|simpl; lia]).
  rewrite (proj2 (Nat.ltb_lt _ _)) by (simpl; lia).
  destruct (search_from_spec s wo L v H Hwo Hfit Hlen (S MaxBackends) _ v 0 [v] (visit v d0)
    (FindLockCycleRecurse_spec s wo L v H Hwo Hfit Hlen (S MaxBackends))) as (r & d' & E & Hr).
  - by apply leader_idem.
  - split; [|cbn; lia]. split; cbn; try done.
    + apply NoDup_singleton.
    + intros x Hx%list_elem_of_singleton. by subst.
  - rewrite E. exists r, d'. split; [done|]. destruct r.
    + destruct Hr as (es & ls & P & <- & En & Hle & Ed). cbn in En. rewrite En. cbn zeta. rewrite Ed. by rewrite En in Hle.
    + destruct Hr as (O & He & Hv). split; [apply O|]. intros (es & ls & P).
      eapply (closed_no_path s wo (visitedProcs d') v); [|shelve|exact P].
      intros x Hx b e i Hb. destruct (decide (x ∈ [v])) as [->%list_elem_of_singleton|Hxv].
      * by eapply Hv.
      * by eapply (ok_closed _ _ _ _ _ _ O).
      Unshelve. destruct (ok_prefix _ _ _ _ _ _ O) as [k ->]. constructor.
Qed.

End Hash.

End DeadlockGraph.
