(* ===== verification/DeadlockTopo.v ===== *)
(** * The topological sort of a wait queue

    [TopoSort] returns a permutation of the wait queue in which the members of
    a lock group stand together and every constraint between two groups of the
    queue holds, or fails when there is no order that satisfies all of them. *)

From S2P Require Import Prelude.
From S2P Require Import Lock.
From S2P Require Import LockInv.
From S2P Require Import LockOps.
From S2P Require Import Deadlock.
From S2P Require Import DeadlockGraph.
From stdpp Require Import list.

Import Lock LockInv LockOps Deadlock DeadlockGraph.

Open Scope Z_scope.

Module DeadlockTopo.

(** Every member of group [g] is before every member of group [g']. *)
Definition precedes (s : shared) (g g' : nat) (order : list nat) : Prop :=
  forall i j x y, order !! i = Some x -> order !! j = Some y ->
    leader_of s x = g -> leader_of s y = g' -> (i < j)%nat.

(** A constraint concerns a queue in which both of its groups wait. *)
Definition relevant (s : shared) (queue : list nat) (c : EDGE) : Prop :=
  (exists x, x ∈ queue /\ leader_of s x = waiter c) /\ (exists x, x ∈ queue /\ leader_of s x = blocker c).

Definition satisfies (s : shared) (queue : list nat) (cs : list EDGE) (order : list nat) : Prop :=
  forall c, c ∈ cs -> relevant s queue c -> precedes s (waiter c) (blocker c) order.

(** A set of groups each of which has to be before another one of them. *)
Definition contradictory (s : shared) (queue : list nat) (cs : list EDGE) : Prop :=
  exists R : list nat, R <> [] /\
    forall g, g ∈ R -> exists c, c ∈ cs /\ relevant s queue c /\ waiter c = g /\ blocker c ∈ R.

Definition leaders_only (s : shared) (cs : list EDGE) : Prop :=
  forall c, c ∈ cs -> leader_of s (waiter c) = waiter c /\ leader_of s (blocker c) = blocker c.

(** ** Groups and representatives *)

Lemma down_S n : down (S n) = n :: down n.
Proof. unfold down. by rewrite seq_S, rev_app_distr. Qed.

Lemma elem_of_down n j : j ∈ down n <-> (j < n)%nat.
Proof.
  induction n as [|n IH]; [cbn; rewrite elem_of_nil; lia|]. rewrite down_S, elem_of_cons, IH. lia.
Qed.

(** The search from the end of an array. *)
Lemma find_down (f : nat -> bool) n :
  match find f (down n) with
  | Some j => (j < n)%nat /\ f j = true /\ forall k, (j < k < n)%nat -> f k = false
  | None => forall j, (j < n)%nat -> f j = false
  end.
Proof.
  induction n as [|n IH]; [cbn; lia|]. rewrite down_S. cbn [find]. destruct (f n) eqn:E.
  - split; [lia|]. split; [done|]. lia.
  - destruct (find f (down n)) as [j|].
    + destruct IH as (H1 & H2 & H3). split; [lia|]. split; [done|]. intros k Hk.
      destruct (decide (k = n)) as [->|]; [done|apply H3; lia].
    + intros j Hj. destruct (decide (j = n)) as [->|]; [done|apply IH; lia].
Qed.

Section Topo.
Context {lockhash : LockHash} (s : shared) (tag : LOCKTAG) (l : LOCK).
Context (H : wf None s) (Hl : locks s !! tag = Some l).

Notation queue := (waitProcs l).
Notation n := (length queue).

(** The group of a place in the queue, and its last place. *)
Definition grp (j : nat) : option nat := leader_of s <$> queue !! j.

Definition rep_of (g : nat) : option nat := find (fun j => bool_decide (grp j = Some g)) (down n).

Lemma in_group_spec g p : leader_of s g = g -> in_group s g p = bool_decide (leader_of s p = g).
Proof.
  intros Hg. unfold in_group, leader_of.
  destruct (decide (p = g)) as [->|Hne].
  - rewrite (bool_decide_eq_true_2 (g = g)) by done. symmetry. apply bool_decide_eq_true_2. exact Hg.
  - rewrite (bool_decide_eq_false_2 (p = g)) by done. cbn [orb]. apply bool_decide_ext.
    destruct (lockGroupLeader (procs s p)) as [g'|]; cbn; split; congruence.
Qed.

Lemma grp_lt j g : grp j = Some g -> (j < n)%nat.
Proof. unfold grp. intros (p & Hp & _)%fmap_Some. by apply lookup_lt_Some in Hp. Qed.

Lemma rep_of_spec g :
  match rep_of g with
  | Some j => grp j = Some g /\ forall k, grp k = Some g -> (k <= j)%nat
  | None => forall j, grp j <> Some g
  end.
Proof.
  unfold rep_of. pose proof (find_down (fun j => bool_decide (grp j = Some g)) n) as Hf.
  destruct (find _ _) as [j|].
  - destruct Hf as (H1 & H2%bool_decide_eq_true & H3). split; [done|]. intros k Hk.
    destruct (decide (k <= j)%nat) as [|Hx]; [done|].
    pose proof (H3 k) as H4. rewrite bool_decide_eq_true_2 in H4 by done. apply grp_lt in Hk.
    discriminate H4. lia.
  - intros j Hj. pose proof (Hf j (grp_lt _ _ Hj)) as Hx. by apply bool_decide_eq_false in Hx.
Qed.

Lemma queue_waits p : p ∈ queue -> waitLock (procs s p) = Some tag.
Proof. intros Hp. by apply (wt_lock _ _ _ (wf_queue _ _ H tag l p Hl Hp)). Qed.

(** A place that is in group [g] but does not represent it. *)
Definition follower (g j : nat) : bool := bool_decide (grp j = Some g /\ rep_of g <> Some j).

Lemma find_rep_rest g k m before :
  leader_of s g = g -> (m <= n)%nat -> (forall j, (j < m)%nat -> grp j = Some g -> before j <= 0) ->
  exists before', find_representative s tag g queue (down m) (Some k) before = Some (Some k, before') /\
    forall j, before' j = if bool_decide ((j < m)%nat /\ grp j = Some g) then -1 else before j.
Proof.
  intros Hg. revert before. induction m as [|m IH]; intros before Hm Hb.
  - exists before. split; [done|]. intros j. rewrite bool_decide_eq_false_2; [done|lia].
  - rewrite down_S. cbn [find_representative].
    destruct (lookup_lt_is_Some_2 queue m) as [p Hp]; [lia|]. rewrite Hp. cbn [mbind option_bind].
    rewrite in_group_spec by done. case_bool_decide as Hpg.
    + rewrite bool_decide_eq_true_2 by (apply queue_waits; by apply list_elem_of_lookup_2 in Hp).
      assert (Hgm : grp m = Some g) by (unfold grp; by rewrite Hp, <- Hpg).
      rewrite (proj2 (Z.leb_le _ _)) by (apply Hb; [lia|done]).
      destruct (IH (<[m := -1]> before)) as (before' & -> & Hb'); [lia| |].
      { intros j Hj Hgj. rewrite fn_lookup_insert_ne by lia. apply Hb; [lia|done]. }
      exists before'. split; [done|]. intros j. rewrite Hb'.
      destruct (decide (j = m)) as [->|Hne].
      * rewrite bool_decide_eq_false_2 by lia. rewrite fn_lookup_insert.
        rewrite bool_decide_eq_true_2; [done|]. split; [lia|done].
      * rewrite fn_lookup_insert_ne by done.
        rewrite (bool_decide_ext _ ((j < S m)%nat /\ grp j = Some g)); [done|]. intuition lia.
    + destruct (IH before) as (before' & -> & Hb'); [lia|intros j Hj; apply Hb; lia|].
      exists before'. split; [done|]. intros j. rewrite Hb'.
      rewrite (bool_decide_ext _ ((j < S m)%nat /\ grp j = Some g)); [done|].
      assert (grp m <> Some g) by (unfold grp; rewrite Hp; cbn; congruence).
      destruct (decide (j = m)) as [->|]; [tauto|]. intuition lia.
Qed.

Lemma find_representative_spec g before :
  leader_of s g = g -> (forall j, follower g j = true -> before j <= 0) ->
  exists before', find_representative s tag g queue (down n) None before = Some (rep_of g, before') /\
    forall j, before' j = if follower g j then -1 else before j.
Proof.
  intros Hg Hb.
  assert (Hgen : forall m, (m <= n)%nat -> (forall j, (m <= j)%nat -> grp j <> Some g) ->
    exists before', find_representative s tag g queue (down m) None before = Some (rep_of g, before') /\
      forall j, before' j = if follower g j then -1 else before j); [|by apply Hgen; [|intros j Hj Hgj%grp_lt; lia]].
  induction m as [|m IH]; intros Hm Hno.
  - pose proof (rep_of_spec g) as Hr. destruct (rep_of g) as [j|] eqn:Er.
    + destruct Hr as [Hr _]. destruct (Hno j); [lia|done].
    + exists before. split; [done|]. intros j. unfold follower. rewrite bool_decide_eq_false_2; [done|].
      intros [Hj _]. by apply (Hr j).
  - rewrite down_S. cbn [find_representative].
    destruct (lookup_lt_is_Some_2 queue m) as [p Hp]; [lia|]. rewrite Hp. cbn [mbind option_bind].
    rewrite in_group_spec by done. case_bool_decide as Hpg.
    + rewrite bool_decide_eq_true_2 by (apply queue_waits; by apply list_elem_of_lookup_2 in Hp).
      assert (Hgm : grp m = Some g) by (unfold grp; by rewrite Hp, <- Hpg).
      assert (Er : rep_of g = Some m).
      { pose proof (rep_of_spec g) as Hr. destruct (rep_of g) as [j|]; [|by destruct (Hr m)].
        destruct Hr as [Hj Hmax]. f_equal. specialize (Hmax m Hgm).
        destruct (decide (j = m)); [done|]. destruct (Hno j); [lia|done]. }
      assert (Hfol : forall j, follower g j = bool_decide ((j < m)%nat /\ grp j = Some g)).
      { intros j. unfold follower. rewrite Er. apply bool_decide_ext.
        destruct (decide (j < m)%nat); [split; [tauto|]; intros [? ?]; split; [done|intros [=]; lia]|].
        split; [|lia]. intros [Hj Hx]. destruct (decide (j = m)) as [->|]; [done|]. destruct (Hno j); [lia|done]. }
      destruct (find_rep_rest g m m before Hg) as (before' & -> & Hb'); [lia| |].
      { intros j Hj Hgj. apply Hb. rewrite Hfol. by apply bool_decide_eq_true_2. }
      exists before'. rewrite Er. split; [done|]. intros j. by rewrite Hb', Hfol.
    + apply IH; [lia|]. intros j Hj. destruct (decide (j = m)) as [->|]; [|apply Hno; lia].
      unfold grp. rewrite Hp. cbn. congruence.
Qed.

(** ** Counting the constraints *)

Section Constraints.
Context (cs : list EDGE) (Hcs : leaders_only s cs).

Definition relb (c : EDGE) : bool :=
  bool_decide (is_Some (rep_of (waiter c))) && bool_decide (is_Some (rep_of (blocker c))).

(** Constraint [i] keeps group [g] in the queue as long as its blocker is not
    among the groups [E] that were output. *)
Definition live (E : list nat) (g i : nat) : bool :=
  match cs !! i with
  | Some c => relb c && bool_decide (waiter c = g) && negb (bool_decide (blocker c ∈ E))
  | None => false
  end.

(** Constraint [i] puts something after group [b]. *)
Definition into (b i : nat) : bool :=
  match cs !! i with Some c => relb c && bool_decide (blocker c = b) | None => false end.

Record before_ok (E : list nat) (m : nat) (before : nat -> Z) : Prop := {
  bo_rep : forall g j, rep_of g = Some j -> before j = countb (live E g) (seq 0 m);
  bo_follower : forall g j, follower g j = true -> before j = 0 \/ before j = -1;
  bo_marked : forall g j i c, follower g j = true -> (i < m)%nat -> cs !! i = Some c ->
    relb c = true -> waiter c = g -> before j = -1 }.

(** The list of constraints that starts with [k], through the link fields. *)
Fixpoint links_to (link : nat -> nat) (k : nat) (ls : list nat) : Prop :=
  match ls with [] => k = 0%nat | i :: ls' => k = S i /\ links_to link (link i) ls' end.

Record links_ok (m : nat) (t : topo) : Prop := {
  li_after : forall b k, rep_of b = Some k ->
    links_to (c_link t) (afterConstraints t k) (rev (List.filter (into b) (seq 0 m)));
  li_pred : forall i c, (i < m)%nat -> cs !! i = Some c -> relb c = true ->
    rep_of (waiter c) = Some (c_pred t i) }.

Lemma links_to_insert link i x k ls :
  (forall y, y ∈ ls -> y <> i) -> links_to link k ls -> links_to (<[i := x]> link) k ls.
Proof.
  revert k. induction ls as [|y ls IH]; intros k Hne; cbn; [done|]. intros [-> Hls]. split; [done|].
  rewrite fn_lookup_insert_ne by (intros ->; by apply (Hne y); [constructor|]).
  apply IH; [|done]. intros z Hz. apply Hne. by constructor.
Qed.

Lemma follower_not_rep g g' j : follower g j = true -> rep_of g' <> Some j.
Proof.
  intros [Hj Hne]%bool_decide_eq_true Hr. pose proof (rep_of_spec g') as Hs. rewrite Hr in Hs.
  destruct Hs as [Hs _]. assert (g = g') by congruence. by subst.
Qed.

Lemma follower_eq g g' j : follower g j = true -> follower g' j = true -> g = g'.
Proof. intros [Hj _]%bool_decide_eq_true [Hj' _]%bool_decide_eq_true. congruence. Qed.

Lemma rep_of_inj g g' j : rep_of g = Some j -> rep_of g' = Some j -> g = g'.
Proof.
  intros H1 H2. pose proof (rep_of_spec g) as S1. pose proof (rep_of_spec g') as S2.
  rewrite H1 in S1. rewrite H2 in S2. destruct S1 as [S1 _], S2 as [S2 _]. congruence.
Qed.

Lemma rep_of_none g : rep_of g = None -> forall j, follower g j = false.
Proof.
  intros Hr j. apply bool_decide_eq_false_2. intros [Hj _]. pose proof (rep_of_spec g) as S. rewrite Hr in S.
  by apply (S j).
Qed.

(** Marking the followers of a group. *)
Lemma before_ok_mark E m before before' g :
  before_ok E m before -> (forall j, before' j = if follower g j then -1 else before j) ->
  before_ok E m before' /\ forall j, follower g j = true -> before' j = -1.
Proof.
  intros [B1 B2 B3] Hb. split; [split|].
  - intros g' j Hj. rewrite Hb. destruct (follower g j) eqn:Ef; [by destruct (follower_not_rep g g' j Ef)|by apply B1].
  - intros g' j Hj. rewrite Hb. destruct (follower g j); [by right|by eapply B2].
  - intros g' j i c Hj Hi Hc Hr Hw. rewrite Hb. destruct (follower g j); [done|by eapply B3].
  - intros j Hj. by rewrite Hb, Hj.
Qed.

Lemma before_ok_S E m before c :
  before_ok E m before -> cs !! m = Some c -> relb c = false -> before_ok E (S m) before.
Proof.
  intros [B1 B2 B3] Hc Hr. split; [| |].
  - intros g j Hj. rewrite seq_S, countb_app. cbn. unfold live at 2. rewrite Hc, Hr. cbn. rewrite (B1 g j Hj). lia.
  - done.
  - intros g j i c' Hj Hi Hc' Hr' Hw. destruct (decide (i = m)) as [->|]; [congruence|]. apply (B3 g j i c'); try done; lia.
Qed.

Lemma links_ok_S m t c before :
  links_ok m t -> cs !! m = Some c -> relb c = false ->
  links_ok (S m) (MkTopo (topoProcs t) before (afterConstraints t) (c_pred t) (c_link t)).
Proof.
  intros [L1 L2] Hc Hr. split; cbn [topoProcs afterConstraints c_link c_pred beforeConstraints].
  - intros b k Hk. rewrite seq_S, List.filter_app. cbn. unfold into at 2. rewrite Hc, Hr. cbn.
    rewrite app_nil_r. by apply L1.
  - intros i c' Hi Hc' Hr'. destruct (decide (i = m)) as [->|]; [congruence|]. apply L2; [lia|done..].
Qed.

Lemma count_constraint_spec i c t :
  cs !! i = Some c -> before_ok [] i (beforeConstraints t) -> links_ok i t ->
  exists t', count_constraint s tag queue c i t = Some t' /\ topoProcs t' = topoProcs t /\
    before_ok [] (S i) (beforeConstraints t') /\ links_ok (S i) t'.
Proof.
  intros Hc HB HL. unfold count_constraint.
  destruct (Hcs c) as [Hw Hb]; [by apply list_elem_of_lookup_2 in Hc|].
  destruct (find_representative_spec (waiter c) (beforeConstraints t) Hw) as (b1 & -> & Eb1).
  { intros j Hj. destruct (bo_follower _ _ _ HB _ j Hj) as [-> | ->]; lia. }
  cbn [mbind option_bind]. destruct (before_ok_mark _ _ _ _ _ HB Eb1) as [HB1 Hm1].
  destruct (rep_of (waiter c)) as [j|] eqn:Ew.
  2: { assert (Hr : relb c = false) by (unfold relb; rewrite Ew; by rewrite bool_decide_eq_false_2 by apply is_Some_None).
       eexists. split; [done|]. split; [done|]. split; [by eapply before_ok_S|by eapply links_ok_S]. }
  destruct (find_representative_spec (blocker c) b1 Hb) as (b2 & -> & Eb2).
  { intros k Hk. destruct (bo_follower _ _ _ HB1 _ k Hk) as [-> | ->]; lia. }
  cbn [mbind option_bind]. destruct (before_ok_mark _ _ _ _ _ HB1 Eb2) as [HB2 Hm2].
  destruct (rep_of (blocker c)) as [k|] eqn:Ek.
  2: { assert (Hr : relb c = false).
       { unfold relb. rewrite Ek. rewrite (bool_decide_eq_false_2 (is_Some None)) by apply is_Some_None. apply andb_false_r. }
       eexists. split; [done|]. split; [done|]. split; [by eapply before_ok_S|by eapply links_ok_S]. }
  assert (Hr : relb c = true) by (unfold relb; rewrite Ew, Ek; by rewrite !bool_decide_eq_true_2 by (by eexists)).
  pose proof (bo_rep _ _ _ HB2 _ _ Ew) as Hcount. pose proof (countb_nonneg (live [] (waiter c)) (seq 0 i)).
  rewrite (proj2 (Z.leb_le _ _)) by lia. eexists. split; [done|]. split; [done|]. split.
  - assert (Hm2' : forall x, follower (waiter c) x = true -> b2 x = -1).
    { intros x Hx. rewrite Eb2. destruct (follower (blocker c) x); [done|by apply Hm1]. }
    destruct HB2 as [B1 B2 B3]. split; cbn [topoProcs afterConstraints c_link c_pred beforeConstraints].
    + intros g x Hx. rewrite seq_S, countb_app. cbn. unfold live at 2. rewrite Hc, Hr. cbn.
      rewrite (bool_decide_eq_false_2 (blocker c ∈ [])) by apply not_elem_of_nil. rewrite andb_true_r.
      destruct (decide (x = j)) as [->|Hxj].
      * rewrite fn_lookup_insert. assert (g = waiter c) as -> by (by eapply rep_of_inj).
        rewrite bool_decide_eq_true_2 by done. cbn. rewrite Hcount. lia.
      * rewrite fn_lookup_insert_ne by done. rewrite bool_decide_eq_false_2 by congruence. cbn.
        rewrite (B1 g x Hx). lia.
    + intros g x Hx. rewrite fn_lookup_insert_ne by (intros ->; by eapply (follower_not_rep _ _ _ Hx)). by eapply B2.
    + intros g x i' c' Hx Hi Hc' Hr' Hg. rewrite fn_lookup_insert_ne by (intros ->; by eapply (follower_not_rep _ _ _ Hx)).
      destruct (decide (i' = i)) as [->|]; [|apply (B3 g x i' c'); try done; lia].
      apply Hm2'. assert (c' = c) as -> by congruence. by rewrite Hg.
  - destruct HL as [L1 L2]. split; cbn [topoProcs afterConstraints c_link c_pred beforeConstraints].
    + intros b x Hx. rewrite seq_S, List.filter_app, rev_app_distr. cbn [plus List.filter]. unfold into at 1. rewrite Hc, Hr. cbn [andb].
      assert (Hlt : forall y, y ∈ rev (List.filter (into b) (seq 0 i)) -> y <> i).
      { intros y Hy%list_elem_of_In%in_rev%List.filter_In ->. destruct Hy as [Hy%in_seq _]. lia. }
      destruct (decide (x = k)) as [->|Hxk].
      * assert (b = blocker c) as -> by (by eapply rep_of_inj). rewrite bool_decide_eq_true_2 by done. cbn.
        rewrite fn_lookup_insert. split; [done|]. rewrite fn_lookup_insert. by apply links_to_insert, L1.
      * rewrite bool_decide_eq_false_2 by congruence. cbn. rewrite fn_lookup_insert_ne by done.
        by apply links_to_insert, L1.
    + intros i' c' Hi Hc' Hr'. destruct (decide (i' = i)) as [->|].
      * rewrite fn_lookup_insert. by assert (c' = c) as -> by congruence.
      * rewrite fn_lookup_insert_ne by done. apply L2; [lia|done..].
Qed.

Lemma count_constraints_spec ks : forall i t,
  (forall m, ks !! m = cs !! (i + m)%nat) -> before_ok [] i (beforeConstraints t) -> links_ok i t ->
  exists t', count_constraints s tag queue ks i t = Some t' /\ topoProcs t' = topoProcs t /\
    before_ok [] (i + length ks) (beforeConstraints t') /\ links_ok (i + length ks) t'.
Proof.
  induction ks as [|c ks IH]; intros i t Hks HB HL; cbn [count_constraints length].
  - exists t. by rewrite Nat.add_0_r.
  - pose proof (Hks 0%nat) as Hc. rewrite Nat.add_0_r in Hc. cbn in Hc.
    destruct (count_constraint_spec i c t (eq_sym Hc) HB HL) as (t1 & -> & E1 & HB1 & HL1). cbn [mbind option_bind].
    destruct (IH (S i) t1) as (t' & -> & E2 & HB2 & HL2); [|done..|].
    { intros m. transitivity (cs !! (i + S m)%nat); [exact (Hks (S m))|f_equal; lia]. }
    exists t'. rewrite E2, E1. replace (i + S (length ks))%nat with (S i + length ks)%nat by lia. done.
Qed.

(** ** Output *)

Lemma skip_null_spec ps last j p :
  ps j = Some p -> (j <= last)%nat -> (forall k q, ps k = Some q -> (k <= last)%nat) ->
  exists last', skip_null ps last = Some last' /\ (last' <= last)%nat /\
    (forall k q, ps k = Some q -> (k <= last')%nat).
Proof.
  intros Hj. induction last as [|last IH]; intros Hjl Hall; cbn [skip_null].
  - assert (j = 0%nat) as -> by lia. rewrite Hj. by exists 0%nat.
  - destruct (ps (S last)) as [q|] eqn:E; [by exists (S last)|].
    destruct IH as (last' & -> & Hle & H'); [| |by exists last'; split; [|split; [lia|]]].
    + destruct (decide (j = S last)) as [->|]; [congruence|lia].
    + intros k r Hk. specialize (Hall k r Hk). destruct (decide (k = S last)) as [->|]; [congruence|lia].
Qed.

(** What [output_group] takes out of the array. *)
Definition pick (g : nat) (ps : nat -> option nat) (c : nat) : option nat :=
  match ps c with Some p => if bool_decide (leader_of s p = g) then Some p else None | None => None end.

Lemma output_group_spec g ixs : forall ps out,
  leader_of s g = g -> NoDup ixs ->
  exists ps', output_group s g ixs ps out = (ps', rev (omap (pick g ps) ixs) ++ out) /\
    forall j, ps' j = if bool_decide (j ∈ ixs /\ is_Some (pick g ps j)) then None else ps j.
Proof.
  induction ixs as [|c ixs IH]; intros ps out Hg Hnd; cbn [output_group omap list_omap].
  - exists ps. split; [done|]. intros j. rewrite bool_decide_eq_false_2; [done|]. intros [Hj _]. by apply elem_of_nil in Hj.
  - apply NoDup_cons in Hnd as [Hc Hnd].
    assert (Hskip : pick g ps c = None ->
      exists ps', output_group s g ixs ps out = (ps', rev (omap (pick g ps) ixs) ++ out) /\
        forall j, ps' j = if bool_decide (j ∈ c :: ixs /\ is_Some (pick g ps j)) then None else ps j).
    { intros Hp. destruct (IH ps out Hg Hnd) as (ps' & -> & Hps'). exists ps'. split; [done|].
      intros j. rewrite Hps'. rewrite (bool_decide_ext _ (j ∈ c :: ixs /\ is_Some (pick g ps j))); [done|].
      rewrite elem_of_cons. split; [tauto|]. intros [[->|?] Hs]; [|done]. rewrite Hp in Hs. by destruct Hs. }
    destruct (ps c) as [p|] eqn:Ep.
    2: { assert (Hp : pick g ps c = None) by (unfold pick; by rewrite Ep). rewrite Hp. by apply Hskip. }
    rewrite in_group_spec by done. case_bool_decide as Hpg.
    2: { assert (Hp : pick g ps c = None) by (unfold pick; rewrite Ep; by rewrite bool_decide_eq_false_2).
         rewrite Hp. by apply Hskip. }
    assert (Hp : pick g ps c = Some p) by (unfold pick; rewrite Ep; by rewrite bool_decide_eq_true_2).
    rewrite Hp. destruct (IH (<[c := None]> ps) (p :: out) Hg Hnd) as (ps' & -> & Hps').
    assert (Hsame : forall j, j <> c -> pick g (<[c := None]> ps) j = pick g ps j).
    { intros j Hj. unfold pick. by rewrite fn_lookup_insert_ne. }
    exists ps'. split.
    + cbn [rev]. rewrite <- app_assoc. cbn. do 2 f_equal. f_equal.
      assert (Hext : forall ks : list nat, c ∉ ks -> omap (pick g (<[c := None]> ps)) ks = omap (pick g ps) ks); [|by apply Hext].
      induction ks as [|k ks IHk]; [done|]. rewrite not_elem_of_cons. intros [Hk Hks]. cbn.
      rewrite Hsame by done. by rewrite IHk.
    + intros j. rewrite Hps'. destruct (decide (j = c)) as [->|Hj].
      * rewrite bool_decide_eq_false_2 by tauto. rewrite fn_lookup_insert.
        rewrite bool_decide_eq_true_2; [done|]. split; [constructor|by eexists].
      * rewrite Hsame, fn_lookup_insert_ne by done.
        rewrite (bool_decide_ext _ (j ∈ c :: ixs /\ is_Some (pick g ps j))); [done|].
        rewrite elem_of_cons. tauto.
Qed.

Lemma release_preds_spec t ls : forall fuel k before,
  links_to (c_link t) k ls -> (length ls <= fuel)%nat ->
  exists before', release_preds fuel k t before = Some before' /\
    forall j, before' j = before j - countb (fun i => c_pred t i =? j)%nat ls.
Proof.
  induction ls as [|i ls IH]; intros fuel k before; cbn [links_to length countb].
  - intros -> _. exists before. split; [by destruct fuel|]. intros j. lia.
  - intros [-> Hls] Hf. destruct fuel as [|fuel]; [lia|]. cbn [release_preds].
    destruct (IH fuel (c_link t i) (<[c_pred t i := before (c_pred t i) - 1]> before) Hls) as (b' & -> & Hb'); [lia|].
    exists b'. split; [done|]. intros j. rewrite Hb'. destruct (Nat.eqb_spec (c_pred t i) j) as [->|Hne]; cbn.
    + rewrite fn_lookup_insert. lia.
    + rewrite fn_lookup_insert_ne by congruence. lia.
Qed.

Lemma countb_rev {A} (f : A -> bool) ks : countb f (rev ks) = countb f ks.
Proof. induction ks as [|k ks IH]; [done|]. cbn [rev]. rewrite countb_app, IH. simpl. lia. Qed.

Lemma countb_filter {A} (f g : A -> bool) ks : countb f (List.filter g ks) = countb (fun x => g x && f x) ks.
Proof. induction ks as [|k ks IH]; [done|]. simpl. destruct (g k); simpl; lia. Qed.

Lemma countb_add {A} (f g h : A -> bool) ks :
  (forall x, x ∈ ks -> Z.b2z (f x) = Z.b2z (g x) + Z.b2z (h x)) -> countb f ks = countb g ks + countb h ks.
Proof.
  induction ks as [|k ks IH]; intros Hx; [done|]. cbn [countb]. rewrite (Hx k) by constructor.
  rewrite IH by (intros; apply Hx; by constructor). lia.
Qed.

(** Releasing the constraints of a group that was put out. *)
Lemma release_ok E m t g j :
  links_ok m t -> (forall i, (m <= i)%nat -> cs !! i = None) -> before_ok E m (beforeConstraints t) ->
  rep_of g = Some j -> g ∉ E -> (m <= length cs)%nat ->
  exists before', release_preds (length cs) (afterConstraints t j) t (beforeConstraints t) = Some before' /\
    before_ok (g :: E) m before'.
Proof.
  intros [L1 L2] Hm [B1 B2 B3] Hj HgE Hlen.
  destruct (release_preds_spec t (rev (List.filter (into g) (seq 0 m))) (length cs) (afterConstraints t j)
    (beforeConstraints t)) as (before' & E' & Hb'); [by apply L1| |].
  { rewrite length_rev. pose proof (List.filter_length_le (into g) (seq 0 m)) as Hle. rewrite length_seq in Hle. lia. }
  exists before'. split; [done|].
  assert (Hcount : forall x, before' x =
    beforeConstraints t x - countb (fun i => into g i && (c_pred t i =? x)%nat) (seq 0 m)).
  { intros x. by rewrite Hb', countb_rev, countb_filter. }
  assert (Hfol : forall g' x, follower g' x = true -> before' x = beforeConstraints t x).
  { intros g' x Hx. rewrite Hcount, countb_0; [lia|]. intros i Hi%elem_of_seq. unfold into.
    destruct (cs !! i) as [c|] eqn:Ec; [|done]. destruct (relb c) eqn:Er; [|done].
    destruct (Nat.eqb_spec (c_pred t i) x) as [Ex|]; [|apply andb_false_r].
    pose proof (L2 i c ltac:(lia) Ec Er) as Hp. rewrite Ex in Hp. by destruct (follower_not_rep g' (waiter c) x Hx). }
  split.
  - intros g' x Hx. rewrite Hcount, (B1 g' x Hx).
    rewrite (countb_add (live E g') (live (g :: E) g') (fun i => into g i && (c_pred t i =? x)%nat)); [lia|].
    intros i Hi%elem_of_seq. unfold live, into. destruct (cs !! i) as [c|] eqn:Ec; [|done].
    destruct (relb c) eqn:Er; [|done]. cbn [andb].
    pose proof (L2 i c ltac:(lia) Ec Er) as Hp.
    assert (Heq : (c_pred t i =? x)%nat = bool_decide (waiter c = g')).
    { case_bool_decide as Hw; apply Nat.eqb_eq || apply Nat.eqb_neq; [congruence|].
      intros Ex. apply Hw. rewrite Ex in Hp. by eapply rep_of_inj. }
    rewrite Heq. case_bool_decide; cbn [andb]; [|by rewrite andb_false_r].
    rewrite andb_true_r. destruct (decide (blocker c = g)) as [->|Hne].
    + rewrite (bool_decide_eq_false_2 (g ∈ E)) by done. rewrite (bool_decide_eq_true_2 (g ∈ g :: E)) by constructor.
      by rewrite bool_decide_eq_true_2.
    + rewrite (bool_decide_eq_false_2 (blocker c = g)) by done.
      rewrite (bool_decide_ext (blocker c ∈ g :: E) (blocker c ∈ E)) by (rewrite elem_of_cons; tauto).
      destruct (bool_decide _); done.
  - intros g' x Hx. rewrite (Hfol g' x Hx). by eapply B2.
  - intros g' x i c Hx Hi Hc Hr Hw. rewrite (Hfol g' x Hx). by eapply B3.
Qed.

(** ** The output loop *)

(** The groups in [E] are in the output, all others still in the array. *)
Record loop_ok (E : list nat) (last : nat) (t : topo) (out : list nat) : Prop := {
  lp_null : forall j, topoProcs t j =
    match queue !! j with Some p => if bool_decide (leader_of s p ∈ E) then None else Some p | None => None end;
  lp_last : forall j p, topoProcs t j = Some p -> (j <= last)%nat;
  lp_out : out ≡ₚ filter (fun p => leader_of s p ∈ E) queue;
  lp_grouped : grouped s out;
  lp_before : before_ok E (length cs) (beforeConstraints t);
  lp_links : links_ok (length cs) t;
  lp_sat : forall c, c ∈ cs -> relb c = true -> waiter c ∈ E ->
    blocker c ∈ E /\ precedes s (waiter c) (blocker c) out }.

Lemma filter_or_perm (P Q : nat -> Prop) `{!forall x, Decision (P x)} `{!forall x, Decision (Q x)}
    `{!forall x, Decision (P x \/ Q x)} (k : list nat) :
  (forall x, P x -> ~ Q x) -> filter (fun x => P x \/ Q x) k ≡ₚ filter P k ++ filter Q k.
Proof.
  intros Hd. induction k as [|x k IH]; [done|]. rewrite !filter_cons.
  destruct (decide (P x)) as [HP|HP], (decide (Q x)) as [HQ|HQ].
  - by destruct (Hd x HP).
  - rewrite decide_True by (by left). cbn. by rewrite IH.
  - rewrite decide_True by (by right). rewrite IH. by apply Permutation_middle.
  - rewrite decide_False by tauto. done.
Qed.

Lemma omap_lookup_seq (f : nat -> option nat) (q : list nat) (k : nat) :
  omap (fun j => q !! (j - k)%nat ≫= f) (seq k (length q)) = omap f q.
Proof.
  revert k. induction q as [|x q IH]; intros k; [done|]. cbn [length seq omap list_omap].
  rewrite Nat.sub_diag. cbn [lookup list_lookup mbind option_bind].
  assert (Htail : omap (fun j => (x :: q) !! (j - k)%nat ≫= f) (seq (S k) (length q)) = omap f q).
  { rewrite <- (IH (S k)). apply omap_ext_Forall || idtac.
    assert (Hext : forall ks : list nat, (forall j, j ∈ ks -> (k < j)%nat) ->
      omap (fun j => (x :: q) !! (j - k)%nat ≫= f) ks = omap (fun j => q !! (j - S k)%nat ≫= f) ks).
    { induction ks as [|j ks IHk]; intros Hks; [done|]. cbn [omap list_omap].
      rewrite IHk by (intros; apply Hks; by constructor).
      assert (k < j)%nat by (apply Hks; constructor).
      by replace (j - k)%nat with (S (j - S k)) by lia. }
    apply Hext. intros j Hj%elem_of_seq. lia. }
  cbn in Htail |- *. rewrite Htail. by destruct (f x).
Qed.

Lemma omap_filter_nat (g : nat) (q : list nat) :
  omap (fun p => if bool_decide (leader_of s p = g) then Some p else None) q =
  filter (fun p => leader_of s p = g) q.
Proof.
  induction q as [|p q IH]; [done|]. rewrite filter_cons. cbn [omap list_omap]. cbn in IH |- *. rewrite IH.
  case_bool_decide; [by rewrite decide_True|by rewrite decide_False].
Qed.

(** One group is taken out as a whole. *)
Lemma picked E last t out g :
  loop_ok E last t out -> g ∉ E -> (last < n)%nat ->
  omap (pick g (topoProcs t)) (seq 0 (S last)) = filter (fun p => leader_of s p = g) queue.
Proof.
  intros HL HgE Hlast. rewrite <- omap_filter_nat, <- (omap_lookup_seq _ queue 0).
  assert (Hpick : forall j, pick g (topoProcs t) j =
    queue !! (j - 0)%nat ≫= (fun p => if bool_decide (leader_of s p = g) then Some p else None)).
  { intros j. unfold pick. rewrite (lp_null _ _ _ _ HL), Nat.sub_0_r.
    destruct (queue !! j) as [p|]; [|done]. cbn. case_bool_decide as HE; [|done].
    rewrite bool_decide_eq_false_2; [done|]. intros Eg. by rewrite Eg in HE. }
  replace n with (S last + (n - S last))%nat at 1 by lia.
  rewrite seq_app, omap_app.
  assert (Hext : forall f h : nat -> option nat, (forall j, f j = h j) -> forall ks : list nat, omap f ks = omap h ks).
  { intros f h Hfh. induction ks as [|k ks IH]; [done|]. cbn [omap list_omap]. by rewrite Hfh, IH. }
  rewrite <- (Hext _ _ Hpick (seq (0 + S last) _)).
  rewrite (Hext _ _ Hpick (seq 0 (S last))).
  assert (Hnil : forall ks : list nat, (forall k, k ∈ ks -> (last < k)%nat) -> omap (pick g (topoProcs t)) ks = []).
  { induction ks as [|k ks IH]; intros Hk; [done|]. cbn [omap list_omap].
    assert (Hn : pick g (topoProcs t) k = None).
    { unfold pick. destruct (topoProcs t k) as [p|] eqn:Ep; [|done].
      apply (lp_last _ _ _ _ HL) in Ep. specialize (Hk k (list_elem_of_here _ _)). lia. }
    rewrite Hn. apply IH. intros; apply Hk; by constructor. }
  rewrite Hnil by (intros k Hk%elem_of_seq; lia). by rewrite app_nil_r.
Qed.

Lemma grouped_app g (ms out : list nat) :
  (forall x, x ∈ ms -> leader_of s x = g) -> (forall x, x ∈ out -> leader_of s x <> g) ->
  grouped s out -> grouped s (ms ++ out).
Proof.
  intros Hms Hout Hg i j k x y z Hijk Hi Hj Hk E.
  destruct (decide (k < length ms)%nat) as [Hkm|Hkm].
  - rewrite lookup_app_l in Hi, Hj by lia.
    rewrite (Hms x), (Hms y); [done|by eapply list_elem_of_lookup_2..].
  - rewrite lookup_app_r in Hk by lia. assert (Hz : leader_of s z <> g) by (eapply Hout, list_elem_of_lookup_2; done).
    destruct (decide (i < length ms)%nat) as [Him|Him].
    + rewrite lookup_app_l in Hi by lia. destruct Hz. rewrite <- E. eapply Hms, list_elem_of_lookup_2; done.
    + rewrite lookup_app_r in Hi, Hj by lia. eapply (Hg (i - length ms)%nat (j - length ms)%nat (k - length ms)%nat); [lia|done..].
Qed.

Lemma precedes_app g g' (ms out : list nat) :
  (forall x, x ∈ ms -> leader_of s x <> g') ->
  (forall x, x ∈ out -> leader_of s x = g -> precedes s g g' out) ->
  precedes s g g' (ms ++ out).
Proof.
  intros Hms Hout i j x y Hi Hj Hx Hy.
  destruct (decide (j < length ms)%nat) as [Hjm|Hjm].
  - rewrite lookup_app_l in Hj by done. by destruct (Hms y (list_elem_of_lookup_2 _ _ _ Hj)).
  - rewrite lookup_app_r in Hj by lia. destruct (decide (i < length ms)%nat) as [Him|Him]; [lia|].
    rewrite lookup_app_r in Hi by lia.
    pose proof (Hout x (list_elem_of_lookup_2 _ _ _ Hi) Hx _ _ _ _ Hi Hj Hx Hy). lia.
Qed.

(** The candidate is the last member of a group that nothing has to follow. *)
Lemma candidate_spec E last t out :
  loop_ok E last t out ->
  match candidate t last with
  | Some j => exists g p, rep_of g = Some j /\ topoProcs t j = Some p /\ leader_of s p = g /\ g ∉ E /\
      queue !! j = Some p /\ (j <= last)%nat /\ beforeConstraints t j = 0
  | None => forall g j, rep_of g = Some j -> g ∉ E -> 0 < beforeConstraints t j
  end.
Proof.
  intros HL. unfold candidate.
  pose proof (find_down (fun j => negb (bool_decide (topoProcs t j = None)) && (beforeConstraints t j =? 0)) (S last)) as Hf.
  assert (Hrep : forall g j, rep_of g = Some j -> g ∉ E -> exists p, topoProcs t j = Some p /\ (j < S last)%nat /\
    0 <= beforeConstraints t j).
  { intros g j Hj HgE. pose proof (rep_of_spec g) as Hs. rewrite Hj in Hs. destruct Hs as [Hs _].
    unfold grp in Hs. apply fmap_Some in Hs as (p & Hp & Eg).
    assert (Hpt : topoProcs t j = Some p) by (rewrite (lp_null _ _ _ _ HL), Hp; rewrite bool_decide_eq_false_2 by congruence; done).
    exists p. split; [done|]. pose proof (lp_last _ _ _ _ HL _ _ Hpt). split; [lia|].
    rewrite (bo_rep _ _ _ (lp_before _ _ _ _ HL) g j Hj). apply countb_nonneg. }
  destruct (find _ _) as [j|].
  - destruct Hf as (Hj & [H1 H2%Z.eqb_eq]%andb_true_iff & H3).
    destruct (topoProcs t j) as [p|] eqn:Ep; [|by rewrite bool_decide_eq_true_2 in H1].
    pose proof Ep as Eq. rewrite (lp_null _ _ _ _ HL) in Eq. destruct (queue !! j) as [p'|] eqn:Eqj; [|done].
    case_bool_decide as HE; [done|]. injection Eq as ->.
    assert (Hgj : grp j = Some (leader_of s p)) by (unfold grp; by rewrite Eqj).
    exists (leader_of s p), p. split; [|split_and!; try done; lia].
    pose proof (rep_of_spec (leader_of s p)) as Hs. destruct (rep_of (leader_of s p)) as [k|] eqn:Er; [|by destruct (Hs j)].
    destruct Hs as [Hk Hmax]. destruct (decide (k = j)) as [->|Hne]; [done|]. exfalso.
    destruct (Hrep _ k Er HE) as (q & Hq & Hkl & Hge). pose proof (Hmax j Hgj).
    pose proof (H3 k ltac:(lia)) as Hk3. rewrite Hq in Hk3. rewrite bool_decide_eq_false_2 in Hk3 by done.
    cbn in Hk3. apply Z.eqb_neq in Hk3.
    rewrite (bo_rep _ _ _ (lp_before _ _ _ _ HL) _ k Er) in Hk3, Hge.
    assert (Hpos : 0 < countb (live E (leader_of s p)) (seq 0 (length cs))) by lia.
    apply countb_pos in Hpos as (i & Hi%elem_of_seq & Hlive). unfold live in Hlive.
    destruct (cs !! i) as [c|] eqn:Ec; [|done]. destruct (relb c) eqn:Erel; [|done].
    apply andb_true_iff in Hlive as [Hw%bool_decide_eq_true _].
    assert (Hfol : follower (leader_of s p) j = true) by (apply bool_decide_eq_true_2; split; [done|congruence]).
    pose proof (bo_marked _ _ _ (lp_before _ _ _ _ HL) _ j i c Hfol ltac:(lia) Ec Erel Hw). lia.
  - intros g j Hj HgE. destruct (Hrep g j Hj HgE) as (p & Hp & Hlt & Hge).
    specialize (Hf j Hlt). rewrite Hp in Hf. rewrite bool_decide_eq_false_2 in Hf by done.
    cbn in Hf. apply Z.eqb_neq in Hf. lia.
Qed.

Lemma relb_spec c : relb c = true <-> relevant s queue c.
Proof.
  unfold relb, relevant. rewrite andb_true_iff, !bool_decide_eq_true.
  assert (Hg : forall g, is_Some (rep_of g) <-> exists x, x ∈ queue /\ leader_of s x = g); [|by rewrite !Hg].
  intros g. pose proof (rep_of_spec g) as Hs. split.
  - intros [j Hj]. rewrite Hj in Hs. destruct Hs as [Hs _]. unfold grp in Hs.
    apply fmap_Some in Hs as (p & Hp & ->). exists p. split; [by eapply list_elem_of_lookup_2|done].
  - intros (x & (j & Hj)%list_elem_of_lookup & Hx). destruct (rep_of g); [by eexists|].
    destruct (Hs j). unfold grp. by rewrite Hj, <- Hx.
Qed.

Lemma filter_id (P : nat -> Prop) `{!forall x, Decision (P x)} (k : list nat) :
  (forall x, x ∈ k -> P x) -> filter P k = k.
Proof.
  induction k as [|x k IH]; intros HP; [done|]. rewrite filter_cons, decide_True by (apply HP; constructor).
  f_equal. apply IH. intros; apply HP; by constructor.
Qed.

(** One round: the group of the candidate goes out. *)
Lemma loop_step E last t out g j p ps before :
  loop_ok E last t out -> (last < n)%nat -> rep_of g = Some j -> leader_of s p = g -> g ∉ E ->
  beforeConstraints t j = 0 ->
  (forall k, ps k = if bool_decide (k ∈ seq 0 (S last) /\ is_Some (pick g (topoProcs t) k)) then None
                    else topoProcs t k) ->
  before_ok (g :: E) (length cs) before ->
  loop_ok (g :: E) last (MkTopo ps before (afterConstraints t) (c_pred t) (c_link t))
    (rev (omap (pick g (topoProcs t)) (seq 0 (S last))) ++ out).
Proof.
  intros HL Hlast Hj Hp HgE Hb0 Hps HB. pose proof (picked E last t out g HL HgE Hlast) as Hpick.
  set (ms := rev _).
  assert (Hms : forall x, x ∈ ms <-> x ∈ queue /\ leader_of s x = g).
  { intros x. unfold ms. rewrite Hpick, list_elem_of_In, <- in_rev, <- list_elem_of_In, list_elem_of_filter. tauto. }
  assert (Hout : forall x, x ∈ out <-> x ∈ queue /\ leader_of s x ∈ E).
  { intros x. rewrite (lp_out _ _ _ _ HL), list_elem_of_filter. tauto. }
  split; cbn [topoProcs beforeConstraints afterConstraints c_pred c_link].
  - intros k. rewrite Hps. unfold pick. rewrite (lp_null _ _ _ _ HL).
    destruct (queue !! k) as [q|] eqn:Eq.
    2: { rewrite bool_decide_eq_false_2; [done|]. intros [_ [? ?]]. done. }
    destruct (decide (leader_of s q ∈ E)) as [HE|HE].
    + rewrite (bool_decide_eq_true_2 (leader_of s q ∈ E)) by done.
      rewrite (bool_decide_eq_true_2 (leader_of s q ∈ g :: E)) by (by constructor).
      by destruct (bool_decide _).
    + rewrite (bool_decide_eq_false_2 (leader_of s q ∈ E)) by done.
      destruct (decide (leader_of s q = g)) as [Hq|Hq].
      * rewrite (bool_decide_eq_true_2 (leader_of s q ∈ g :: E)) by (rewrite Hq; constructor).
        rewrite bool_decide_eq_true_2; [done|]. split; [|by rewrite bool_decide_eq_true_2].
        apply elem_of_seq. assert (topoProcs t k = Some q) as Hk.
        { rewrite (lp_null _ _ _ _ HL), Eq. by rewrite bool_decide_eq_false_2. }
        pose proof (lp_last _ _ _ _ HL _ _ Hk). lia.
      * rewrite (bool_decide_eq_false_2 (leader_of s q ∈ g :: E)) by (rewrite elem_of_cons; tauto).
        rewrite bool_decide_eq_false_2; [done|]. intros [_ Hs]. rewrite bool_decide_eq_false_2 in Hs by done. by destruct Hs.
  - intros k q. rewrite Hps. destruct (bool_decide _); [done|]. apply (lp_last _ _ _ _ HL).
  - rewrite (lp_out _ _ _ _ HL). unfold ms. rewrite Hpick, <- Permutation_rev.
    rewrite <- (filter_or_perm (fun p => leader_of s p = g) (fun p => leader_of s p ∈ E)) by congruence.
    apply reflexive_eq, list_filter_iff. intros x. rewrite elem_of_cons. tauto.
  - apply (grouped_app g); [intros x Hx; by apply Hms in Hx as [_ ?]| |apply HL].
    intros x Hx Hg. apply Hout in Hx as [_ Hx]. congruence.
  - done.
  - destruct (lp_links _ _ _ _ HL) as [L1 L2]. by split.
  - intros c Hc Hr Hw. apply elem_of_cons in Hw as [Hw|Hw].
    + assert (HbE : blocker c ∈ E).
      { destruct (decide (blocker c ∈ E)) as [|Hn]; [done|]. exfalso.
        pose proof (bo_rep _ _ _ (lp_before _ _ _ _ HL) g j Hj) as Hcnt. rewrite Hb0 in Hcnt.
        apply list_elem_of_lookup in Hc as [i Hi].
        assert (0 < countb (live E g) (seq 0 (length cs))); [|lia].
        apply countb_pos. exists i. split; [apply elem_of_seq; apply lookup_lt_Some in Hi; lia|].
        unfold live. rewrite Hi, Hr, (bool_decide_eq_true_2 (waiter c = g)), (bool_decide_eq_false_2 (blocker c ∈ E)) by done. done. }
      split; [by constructor|]. rewrite Hw. apply precedes_app.
      * intros x Hx. apply Hms in Hx as [_ Hx]. congruence.
      * intros x Hx Hxg. apply Hout in Hx as [_ Hx]. congruence.
    + destruct (lp_sat _ _ _ _ HL c Hc Hr Hw) as [HbE Hprec]. split; [by constructor|]. apply precedes_app; [|done].
      intros x Hx. apply Hms in Hx as [_ Hx]. congruence.
Qed.

(** When nothing can go out the groups that are left contradict each other. *)
Lemma stuck E last t out :
  loop_ok E last t out -> (length out < n)%nat ->
  (forall g j, rep_of g = Some j -> g ∉ E -> 0 < beforeConstraints t j) ->
  contradictory s queue cs.
Proof.
  intros HL Hout Hpos. exists (filter (fun g => g ∉ E) (leader_of s <$> queue)). split.
  - intros Hnil. pose proof (Permutation_length (lp_out _ _ _ _ HL)) as Hlen.
    rewrite filter_id in Hlen; [lia|]. intros x Hx. destruct (decide (leader_of s x ∈ E)) as [|Hn]; [done|].
    assert (leader_of s x ∈ filter (fun g => g ∉ E) (leader_of s <$> queue)) as Hin.
    { apply list_elem_of_filter. split; [done|]. by apply list_elem_of_fmap_2. }
    rewrite Hnil in Hin. by apply elem_of_nil in Hin.
  - intros g [HgE Hg]%list_elem_of_filter. apply list_elem_of_fmap in Hg as (x & -> & Hx).
    destruct (rep_of (leader_of s x)) as [j|] eqn:Er.
    2: { pose proof (rep_of_spec (leader_of s x)) as Hs. rewrite Er in Hs.
         apply list_elem_of_lookup in Hx as [k Hk]. destruct (Hs k). unfold grp. by rewrite Hk. }
    specialize (Hpos _ _ Er HgE). rewrite (bo_rep _ _ _ (lp_before _ _ _ _ HL) _ _ Er) in Hpos.
    apply countb_pos in Hpos as (k & _ & Hlive). unfold live in Hlive.
    destruct (cs !! k) as [c|] eqn:Ec; [|done]. destruct (relb c) eqn:Erel; [|done].
    apply andb_true_iff in Hlive as [Hw%bool_decide_eq_true Hb%negb_true_iff%bool_decide_eq_false].
    pose proof (proj1 (relb_spec c) Erel) as Hrel. exists c.
    split; [by eapply list_elem_of_lookup_2|]. split; [done|]. split; [done|].
    destruct Hrel as [_ (y & Hy & Hyb)]. apply list_elem_of_filter. split; [done|]. rewrite <- Hyb. by apply list_elem_of_fmap_2.
Qed.

Definition sorted_ok (order : list nat) : Prop :=
  order ≡ₚ queue /\ grouped s order /\ satisfies s queue cs order.

Lemma topo_loop_unfold fuel last t out :
  topo_loop s (length cs) n fuel last t out =
  if bool_decide (length out = n) then Some (Some out)
  else
    match fuel with
    | O => None
    | S fuel' =>
        last ← skip_null (topoProcs t) last;
        match candidate t last with
        | None => Some None
        | Some j =>
            p ← topoProcs t j;
            let '(ps, out') := output_group s (leader_of s p) (seq 0 (S last)) (topoProcs t) out in
            assert (length out <? length out')%nat;;
            before ← release_preds (length cs) (afterConstraints t j) t (beforeConstraints t);
            topo_loop s (length cs) n fuel' last
              (MkTopo ps before (afterConstraints t) (c_pred t) (c_link t)) out'
        end
    end.
Proof. by destruct fuel. Qed.

Lemma loop_done E last t out : loop_ok E last t out -> length out = n -> sorted_ok out.
Proof.
  intros HL Hlen.
  assert (Hall : forall x, x ∈ queue -> leader_of s x ∈ E).
  { intros x Hx. destruct (decide (leader_of s x ∈ E)) as [|Hn]; [done|].
    pose proof (length_filter_lt (fun p => leader_of s p ∈ E) queue x Hx Hn).
    pose proof (Permutation_length (lp_out _ _ _ _ HL)). lia. }
  split; [|split; [apply HL|]].
  - rewrite (lp_out _ _ _ _ HL), filter_id by done. done.
  - intros c Hc Hrel. apply (lp_sat _ _ _ _ HL); [done|by apply relb_spec|].
    destruct Hrel as [(x & Hx & <-) _]. by apply Hall.
Qed.

Lemma topo_loop_spec fuel : forall E last t out,
  loop_ok E last t out -> (n <= fuel + length out)%nat -> (last < n \/ n = 0)%nat ->
  exists r, topo_loop s (length cs) n fuel last t out = Some r /\
    match r with
    | Some order => sorted_ok order
    | None => contradictory s queue cs
    end.
Proof.
  induction fuel as [|fuel IH]; intros E last t out HL Hfuel Hlast; rewrite topo_loop_unfold;
    pose proof (Permutation_length (lp_out _ _ _ _ HL)) as Hlen;
    pose proof (length_filter (fun p => leader_of s p ∈ E) queue) as Hle.
  - rewrite bool_decide_eq_true_2 by lia. exists (Some out). split; [done|]. eapply loop_done; [done|lia].
  - case_bool_decide as Hdone; [exists (Some out); split; [done|by eapply loop_done]|].
    assert (Hrest : exists j p, topoProcs t j = Some p).
    { destruct (decide (Exists (fun x => leader_of s x ∉ E) queue)) as [Hex|Hno].
      - apply Exists_exists in Hex as (x & (j & Hj)%list_elem_of_lookup & Hx).
        exists j, x. rewrite (lp_null _ _ _ _ HL), Hj. by rewrite bool_decide_eq_false_2.
      - exfalso. rewrite filter_id in Hlen; [lia|]. intros x Hx. destruct (decide (leader_of s x ∈ E)); [done|].
        destruct Hno. apply Exists_exists. by exists x. }
    destruct Hrest as (j0 & p0 & Hj0).
    destruct (skip_null_spec (topoProcs t) last j0 p0 Hj0) as (last' & -> & Hle' & Hlast').
    { by eapply lp_last. } { intros k q. by apply (lp_last _ _ _ _ HL). }
    cbn [mbind option_bind].
    assert (HL' : loop_ok E last' t out) by (destruct HL; by split).
    pose proof (candidate_spec E last' t out HL') as Hcand. destruct (candidate t last') as [j|].
    2: { exists None. split; [done|]. eapply (stuck E last' t out); [exact HL'|lia|exact Hcand]. }
    destruct Hcand as (g & p & Hrep & Hp & Hpg & HgE & Hqj & Hjl & Hb0). rewrite Hp. cbn [mbind option_bind].
    rewrite Hpg. assert (Hgl : leader_of s g = g) by (rewrite <- Hpg; by apply leader_idem).
    destruct (output_group_spec g (seq 0 (S last')) (topoProcs t) out Hgl) as (ps & -> & Hps); [apply NoDup_seq|].
    destruct (release_ok E (length cs) t g j) as (before & -> & HB); [apply HL'| |apply HL'|done..|].
    { intros i Hi. by apply lookup_ge_None_2. }
    assert (Hgrow : (length out < length (rev (omap (pick g (topoProcs t)) (seq 0 (S last'))) ++ out))%nat).
    { rewrite length_app, length_rev, (picked E last' t out g HL' HgE) by lia.
      assert (p ∈ filter (fun p => leader_of s p = g) queue) as Hin.
      { apply list_elem_of_filter. split; [done|by eapply list_elem_of_lookup_2]. }
      destruct (filter (fun p => leader_of s p = g) queue); [by apply elem_of_nil in Hin|simpl; lia]. }
    rewrite (proj2 (Nat.ltb_lt _ _) Hgrow). cbn [mbind option_bind].
    apply (IH (g :: E)); [|lia|lia]. eapply (loop_step E last' t out g j p); try done. lia.
Qed.
End Constraints.

(** ** The whole sort *)

(** No order of the queue satisfies contradictory constraints. *)
Lemma contradictory_no_order cs order :
  contradictory s queue cs -> order ≡ₚ queue -> ~ satisfies s queue cs order.
Proof.
  intros (R & HR & Hall) Hperm Hsat.
  pose proof (find_down (fun i => match order !! i with Some x => bool_decide (leader_of s x ∈ R) | None => false end)
    (length order)) as Hf.
  destruct (find _ _) as [i|].
  - destruct Hf as (Hi & Hx & Hlast). destruct (order !! i) as [x|] eqn:Ex; [|done].
    apply bool_decide_eq_true in Hx. destruct (Hall _ Hx) as (c & Hc & Hrel & Hw & Hb).
    pose proof Hrel as [_ (y & Hy & Hyb)]. rewrite <- Hperm in Hy. apply list_elem_of_lookup in Hy as [k Hk].
    pose proof (Hsat c Hc Hrel i k x y Ex Hk (eq_sym Hw) Hyb) as Hlt.
    pose proof (Hlast k) as Hl'. rewrite Hk in Hl'. apply lookup_lt_Some in Hk.
    rewrite bool_decide_eq_true_2 in Hl' by congruence. discriminate Hl'. lia.
  - destruct R as [|g R]; [done|]. destruct (Hall g (list_elem_of_here _ _)) as (c & _ & [(x & Hx & Hxg) _] & Hw & _).
    rewrite <- Hperm in Hx. apply list_elem_of_lookup in Hx as [i Hi].
    pose proof (Hf i (lookup_lt_Some _ _ _ Hi)) as Hi'. rewrite Hi in Hi'.
    rewrite bool_decide_eq_true_2 in Hi'; [done|]. rewrite Hxg, Hw. constructor.
Qed.

Lemma TopoSort_spec cs :
  leaders_only s cs ->
  exists r, TopoSort s tag cs = Some r /\
    match r with
    | Some order => order ≡ₚ queue /\ grouped s order /\ satisfies s queue cs order
    | None => contradictory s queue cs
    end.
Proof.
  intros Hcs. unfold TopoSort. rewrite Hl. cbn [mbind option_bind].
  set (t0 := MkTopo _ _ _ _ _).
  destruct (count_constraints_spec cs Hcs cs 0 t0) as (t & -> & Et & HB & HL).
  - done.
  - split; cbn.
    + done.
    + intros; by left.
    + intros; lia.
  - split; cbn.
    + done.
    + intros; lia.
  - cbn [mbind option_bind]. eapply (topo_loop_spec cs n []); [|cbn; lia|lia].
    split; try done.
    + intros j. rewrite Et. cbn. destruct (queue !! j); [|done].
      by rewrite bool_decide_eq_false_2 by apply not_elem_of_nil.
    + intros j p. rewrite Et. cbn. intros Hj%lookup_lt_Some. lia.
    + assert (Hnil : forall k : list nat, filter (fun p => leader_of s p ∈ []) k = []).
      { induction k as [|x k IH]; [done|]. rewrite filter_cons, decide_False by apply not_elem_of_nil. done. }
      by rewrite Hnil.
    + intros c _ _ Hx. by apply elem_of_nil in Hx.
Qed.

End Topo.

End DeadlockTopo.
