(* ===== verification/DeadlockOrders.v ===== *)
(** * Constraints, wait orders and reversed edges

    [ExpandConstraints] turns a list of constraints into wait orders that
    satisfy them, or the constraints contradict each other.  The second half
    compares a configuration with any other rearrangement of the queues: a soft
    edge either is still there or is reversed, so a rearrangement without
    deadlock reverses an edge of every cycle. *)

From S2P Require Import Prelude.
From S2P Require Import Lock.
From S2P Require Import LockInv.
From S2P Require Import LockOps.
From S2P Require Import Deadlock.
From S2P Require Import DeadlockGraph.
From S2P Require Import DeadlockTopo.
From stdpp Require Import list.

Import Lock LockInv LockOps Deadlock DeadlockGraph DeadlockTopo.

Open Scope Z_scope.

Module DeadlockOrders.

(** At most [MaxBackends] lock groups have to do with locks, and at most
    [MaxBackends] processes wait. *)
Definition fits (MaxBackends : nat) (s : shared) : Prop :=
  (exists L, groups_in s L /\ (length L <= MaxBackends)%nat) /\
  exists W : list nat, (length W <= MaxBackends)%nat /\ forall tag p, p ∈ queue_of s tag -> p ∈ W.

(** ** Constraints and wait orders *)

Section Hash.
Context {lockhash : LockHash} (MaxBackends : nat).

Section State.
Context (s : shared) (H : wf None s) (Hfits : fits MaxBackends s).

(** A constraint that comes from a soft edge: two groups with members that
    wait for its lock in conflicting modes. *)
Definition edge_ok (e : EDGE) : Prop :=
  leader_of s (waiter e) = waiter e /\ leader_of s (blocker e) = blocker e /\ waiter e <> blocker e /\
  exists p q, p ∈ queue_of s (lock e) /\ q ∈ queue_of s (lock e) /\
    leader_of s p = waiter e /\ leader_of s q = blocker e /\
    DoLockModesConflict (waitLockMode (procs s p)) (waitLockMode (procs s q)) = true.

Lemma queue_of_lock tag p : p ∈ queue_of s tag -> exists l, locks s !! tag = Some l /\ p ∈ waitProcs l.
Proof.
  unfold queue_of. destruct (locks s !! tag) as [l|]; [by exists l|intros Hp; by apply elem_of_nil in Hp].
Qed.

Lemma edge_ok_lock e : edge_ok e -> is_Some (locks s !! lock e).
Proof. intros (_ & _ & _ & p & q & Hp & _). destruct (queue_of_lock _ _ Hp) as (l & -> & _). done. Qed.

Lemma edge_ok_relevant e : edge_ok e -> relevant s (queue_of s (lock e)) e.
Proof. intros (_ & _ & _ & p & q & Hp & Hq & Hpw & Hqb & _). split; [by exists p|by exists q]. Qed.

Lemma blocked_by_edge_ok wo p b e i : orders_ok s wo -> blocked_by s wo p b (Some e) i -> edge_ok e.
Proof.
  intros Hwo Hb. remember (Some e) as o eqn:Eo. destruct Hb as [|t q pre m post W Hq Hne Ho Hm Hin Hc]; [done|].
  injection Eo as <-. destruct (waits_lock s H p t W) as (l & Hl & Hp).
  split; [cbn; by apply leader_idem|]. split; [cbn; rewrite <- Hq; by apply leader_idem|].
  split; [done|]. exists p, q. split; [cbn; by rewrite (queue_of_Some _ _ _ Hl)|]. split; [|done].
  assert (Hqo : q ∈ order_of s wo t) by (rewrite Ho; apply elem_of_app; by left).
  unfold order_of in Hqo. destruct (find_order wo t) as [ps|] eqn:Ef; cbn in Hqo; [|done].
  destruct (Hwo t ps Ef) as [Hperm _]. cbn. by rewrite <- Hperm.
Qed.

Lemma path_edges_ok wo a b es ls : orders_ok s wo -> path s wo a b es ls -> forall e, e ∈ es -> edge_ok e.
Proof.
  intros Hwo P.
  assert (Hedge : forall a b o i e, edge s wo a b o i -> e ∈ option_list o -> edge_ok e).
  { intros a0 b0 [e'|] i e (p & _ & Hb) He; cbn in He; [|by apply elem_of_nil in He].
    apply list_elem_of_singleton in He as ->. by eapply blocked_by_edge_ok. }
  induction P as [a b o i Ho|a b c o i es ls Ho _ IH]; intros e He; [by eapply Hedge|].
  apply elem_of_app in He as [He|He]; [by apply IH|by eapply Hedge].
Qed.

(** Two processes wait for the lock of a constraint. *)
Lemma edge_two_waiters e : edge_ok e -> (2 <= length (queue_of s (lock e)))%nat.
Proof.
  intros (_ & _ & Hne & x & y & Hx & Hy & Hxw & Hyb & _).
  assert (x <> y) by congruence.
  assert ([x; y] ⊆+ queue_of s (lock e)) as Hs.
  { apply NoDup_submseteq; [apply NoDup_cons; split; [by intros ?%list_elem_of_singleton|apply NoDup_singleton]|].
    intros z [->|Hz]%elem_of_cons; [done|]. apply list_elem_of_singleton in Hz. by subst. }
  by apply submseteq_length in Hs.
Qed.

(** Nobody waits for two locks, so all wait queues together are no longer than
    the number of processes. *)
Lemma queues_fit ts : NoDup ts -> (length (concat (queue_of s <$> ts)) <= MaxBackends)%nat.
Proof.
  destruct Hfits as [_ (W & HW & Hall)]. intros Hnd. transitivity (length W); [|done].
  assert (Hin : forall p, p ∈ concat (queue_of s <$> ts) <-> exists t, t ∈ ts /\ p ∈ queue_of s t).
  { intros p. rewrite list_elem_of_In, in_concat. split.
    - intros (q & Hq & Hp). apply list_elem_of_In, list_elem_of_fmap in Hq as (t & -> & Ht).
      exists t. split; [done|by apply list_elem_of_In].
    - intros (t & Ht & Hp). exists (queue_of s t). split; [|by apply list_elem_of_In].
      apply list_elem_of_In, list_elem_of_fmap. by exists t. }
  apply submseteq_length, NoDup_submseteq; [|intros p (t & _ & Hp)%Hin; by eapply Hall].
  clear Hin. induction ts as [|t ts IH]; [constructor|]. apply NoDup_cons in Hnd as [Ht Hnd].
  cbn [fmap list_fmap concat]. apply NoDup_app. split; [|split; [|by apply IH]].
  - unfold queue_of. destruct (locks s !! t) as [l|] eqn:El; [|constructor].
    by apply (lo_nodup_w _ _ _ _ (wf_lock _ _ H _ _ El)).
  - intros p Hp Hp'. apply list_elem_of_In, in_concat in Hp' as (q & Hq & Hpq).
    apply list_elem_of_In, list_elem_of_fmap in Hq as (t' & -> & Ht'). apply list_elem_of_In in Hpq.
    assert (Hlock : forall t, p ∈ queue_of s t -> waitLock (procs s p) = Some t).
    { intros t0. unfold queue_of. destruct (locks s !! t0) as [l|] eqn:El; [|intros Hx; by apply elem_of_nil in Hx].
      intros Hx. apply (wt_lock _ _ _ (wf_queue _ _ H t0 l p El Hx)). }
    apply Hlock in Hp. apply Hlock in Hpq. congruence.
Qed.

Lemma find_order_None wo t : find_order wo t = None <-> t ∉ (wo_lock <$> wo).
Proof.
  induction wo as [|w wo IH]; cbn [find_order fmap list_fmap]; [split; [intros _; apply not_elem_of_nil|done]|].
  rewrite not_elem_of_cons, <- IH. case_bool_decide as Hc; [|split; [by intros ?; split; [congruence|]|by intros [_ ?]]]. split; [done|]. intros [Hne _]. congruence.
Qed.

Lemma find_order_app wo w t :
  find_order (wo ++ [w]) t = match find_order wo t with Some q => Some q | None =>
    if bool_decide (wo_lock w = t) then Some (wo_procs w) else None end.
Proof. induction wo as [|v wo IH]; [done|]. cbn [app find_order]. destruct (bool_decide (wo_lock v = t)); [done|exact IH]. Qed.

Lemma find_order_elem wo t q :
  find_order wo t = Some q -> exists w, w ∈ wo /\ wo_lock w = t /\ wo_procs w = q.
Proof.
  induction wo as [|v wo IH]; [done|]. cbn [find_order]. case_bool_decide.
  - intros [= <-]. exists v. split; [constructor|done].
  - intros (w & Hw & Hx)%IH. exists w. split; [by constructor|done].
Qed.

(** A list of wait orders that stand for the constraints [cs]. *)
Record orders_for (cs : list EDGE) (wo : list WAIT_ORDER) : Prop := {
  of_ok : orders_ok s wo;
  of_nodup : NoDup (wo_lock <$> wo);
  of_locks : forall w, w ∈ wo -> exists c, c ∈ cs /\ lock c = wo_lock w }.

Lemma orders_for_locks cs wo w :
  (forall c, c ∈ cs -> edge_ok c) -> orders_for cs wo -> w ∈ wo ->
  exists l, locks s !! wo_lock w = Some l /\ wo_procs w ≡ₚ waitProcs l.
Proof.
  intros Hcs [O1 O2 O3] Hw. destruct (O3 w Hw) as (c & Hc & E). destruct (edge_ok_lock c (Hcs c Hc)) as [l Hl].
  rewrite E in Hl. exists l. split; [done|].
  destruct (find_order wo (wo_lock w)) as [q|] eqn:Ef.
  - destruct (O1 _ _ Ef) as [Hperm _]. rewrite (queue_of_Some _ _ _ Hl) in Hperm.
    assert (wo_procs w = q) as ->; [|done]. clear -O2 Hw Ef.
    induction wo as [|v wo IH]; [by apply elem_of_nil in Hw|]. cbn [fmap list_fmap] in O2.
    apply NoDup_cons in O2 as [Hv O2]. cbn [find_order] in Ef. apply elem_of_cons in Hw as [->|Hw].
    + rewrite bool_decide_eq_true_2 in Ef by done. congruence.
    + rewrite bool_decide_eq_false_2 in Ef; [by apply IH|]. intros E. apply Hv. rewrite E.
      by apply list_elem_of_fmap_2.
  - apply find_order_None in Ef. destruct Ef. by apply list_elem_of_fmap_2.
Qed.

Lemma orders_room cs wo e l :
  (forall c, c ∈ cs -> edge_ok c) -> orders_for cs wo -> edge_ok e -> find_order wo (lock e) = None ->
  locks s !! lock e = Some l ->
  (length wo < MaxBackends / 2)%nat /\ (order_procs wo + length (waitProcs l) <= MaxBackends)%nat.
Proof.
  intros Hcs O He Hnone Hl. pose proof (queues_fit (lock e :: (wo_lock <$> wo))) as Hfit.
  assert (Hsum : length (concat (queue_of s <$> (wo_lock <$> wo))) = order_procs wo /\
    (2 * length wo <= order_procs wo)%nat).
  { assert (Hall : forall w, w ∈ wo -> length (queue_of s (wo_lock w)) = length (wo_procs w) /\
      (2 <= length (wo_procs w))%nat).
    { intros w Hw. destruct (orders_for_locks cs wo w Hcs O Hw) as (l' & Hl' & Hperm).
      destruct (of_locks _ _ O w Hw) as (c & Hc & Ec). pose proof (edge_two_waiters c (Hcs c Hc)) as H2.
      rewrite Ec in H2. rewrite (queue_of_Some _ _ _ Hl') in H2 |- *.
      by rewrite (Permutation_length Hperm). }
    clear -Hall. induction wo as [|w wo IH]; [done|]. unfold order_procs in *. cbn [fmap list_fmap concat sum_list length].
    rewrite length_app. destruct IH as [IH1 IH2]; [intros; apply Hall; by constructor|].
    destruct (Hall w (list_elem_of_here _ _)) as [E1 E2]. cbn in IH1, IH2 |- *. rewrite IH1, E1. lia. }
  cbn [fmap list_fmap concat] in Hfit. rewrite length_app in Hfit.
  destruct Hsum as [Hs1 Hs2]. rewrite Hs1, (queue_of_Some _ _ _ Hl) in Hfit.
  pose proof (edge_two_waiters e He) as H2. rewrite (queue_of_Some _ _ _ Hl) in H2.
  assert (NoDup (lock e :: (wo_lock <$> wo))) as Hnd.
  { apply NoDup_cons. split; [by apply find_order_None|apply O]. }
  specialize (Hfit Hnd). split; [|lia].
  apply Nat.lt_le_trans with (S (length wo)); [lia|]. apply Nat.div_le_lower_bound; lia.
Qed.

(** What the two results of [ExpandConstraints] mean. *)
Definition expanded (cs : list EDGE) (r : bool) (wo : list WAIT_ORDER) : Prop :=
  if r then
    orders_for cs wo /\
    forall c, c ∈ cs -> exists order, find_order wo (lock c) = Some order /\
      precedes s (waiter c) (blocker c) order
  else
    exists t, contradictory s (queue_of s t) cs.

Lemma ExpandConstraints_loop_spec cs n : forall wo,
  (forall c, c ∈ cs -> edge_ok c) -> (n <= length cs)%nat -> orders_for cs wo ->
  (forall i c, cs !! i = Some c -> (n <= i)%nat -> exists order, find_order wo (lock c) = Some order) ->
  (forall c order, c ∈ cs -> find_order wo (lock c) = Some order -> precedes s (waiter c) (blocker c) order) ->
  exists r wo', ExpandConstraints_loop MaxBackends s cs n wo = Some (r, wo') /\ expanded cs r wo'.
Proof.
  induction n as [|i IH]; intros wo Hcs Hn O Hdone Hprec; cbn [ExpandConstraints_loop].
  - exists true, wo. split; [done|]. split; [done|]. intros c Hc.
    pose proof Hc as [k Hk]%list_elem_of_lookup. destruct (Hdone k c Hk) as [order Ho]; [lia|].
    exists order. split; [done|by apply Hprec].
  - destruct (lookup_lt_is_Some_2 cs i) as [c Hc]; [lia|]. rewrite Hc. cbn [mbind option_bind].
    pose proof (list_elem_of_lookup_2 _ _ _ Hc) as Hcin. pose proof (Hcs c Hcin) as He.
    destruct (find_order wo (lock c)) as [order|] eqn:Ef.
    + apply IH; [done|lia|done| |done]. intros k c' Hk Hle.
      destruct (decide (k = i)) as [->|]; [|apply (Hdone k); [done|lia]].
      assert (c' = c) as -> by congruence. by exists order.
    + destruct (edge_ok_lock c He) as [l Hl]. rewrite Hl. cbn [mbind option_bind].
      destruct (orders_room cs wo c l Hcs O He Ef Hl) as [R1 R2].
      rewrite (proj2 (Nat.ltb_lt _ _) R1), (proj2 (Nat.leb_le _ _) R2).
      destruct (TopoSort_spec s (lock c) l H Hl (take (S i) cs)) as (r & -> & Hr).
      { intros c' Hc'. destruct (Hcs c') as (? & ? & _); [|done]. eapply elem_of_submseteq; [done|].
        apply sublist_submseteq, sublist_take. }
      cbn [mbind option_bind]. destruct r as [order|].
      2: { exists false, wo. split; [done|]. exists (lock c). rewrite (queue_of_Some _ _ _ Hl).
           destruct Hr as (R & HR & Hall). exists R. split; [done|]. intros g Hg.
           destruct (Hall g Hg) as (c' & Hc' & Hx). exists c'. split; [|done].
           eapply elem_of_submseteq; [done|]. apply sublist_submseteq, sublist_take. }
      destruct Hr as (Hperm & Hgrp & Hsat).
      assert (Hfind : forall t, find_order (wo ++ [MkWO (lock c) order]) t =
        if bool_decide (t = lock c) then Some order else find_order wo t).
      { intros t. rewrite find_order_app. cbn. destruct (decide (t = lock c)) as [->|Hne].
        - by rewrite Ef, !bool_decide_eq_true_2.
        - rewrite (bool_decide_eq_false_2 (lock c = t)) by congruence.
          rewrite (bool_decide_eq_false_2 (t = lock c)) by done. by destruct (find_order wo t). }
      apply IH; [done|lia| | |].
      * destruct O as [O1 O2 O3]. split.
        -- intros t q. rewrite Hfind. case_bool_decide as Ht; [|by apply O1]. intros [= <-].
           rewrite Ht, (queue_of_Some _ _ _ Hl). done.
        -- rewrite fmap_app. apply NoDup_app. split; [done|]. split; [|apply NoDup_singleton].
           intros t Ht Ht'%list_elem_of_singleton. apply find_order_None in Ef. by rewrite Ht' in Ht.
        -- intros w [Hw|Hw%list_elem_of_singleton]%elem_of_app; [by apply O3|]. rewrite Hw. by exists c.
      * intros k c' Hk Hle. rewrite Hfind. case_bool_decide as Ht; [by exists order|].
        apply (Hdone k); [done|]. destruct (decide (k = i)) as [->|]; [congruence|lia].
      * intros c' order' Hc' . rewrite Hfind. case_bool_decide as Ht; [|by apply Hprec]. intros [= <-].
        apply Hsat; [|rewrite <- (queue_of_Some _ _ _ Hl), <- Ht; by apply edge_ok_relevant, Hcs].
        apply list_elem_of_lookup in Hc' as [k Hk]. destruct (decide (k < S i)%nat) as [Hlt|Hge].
        -- apply list_elem_of_lookup. exists k. by rewrite lookup_take_lt.
        -- destruct (Hdone k c' Hk) as [o Ho]; [lia|]. rewrite Ht in Ho. congruence.
Qed.

Lemma ExpandConstraints_spec cs :
  (forall c, c ∈ cs -> edge_ok c) ->
  exists r wo, ExpandConstraints MaxBackends s cs = Some (r, wo) /\ expanded cs r wo.
Proof.
  intros Hcs. apply ExpandConstraints_loop_spec; [done|done| | |done].
  - split; [done|constructor|]. intros w Hw. by apply elem_of_nil in Hw.
  - intros i c Hc. apply lookup_lt_Some in Hc. lia.
Qed.

(** ** Other rearrangements *)

(** Any rearrangement of the wait queues. *)
Definition reorders (wo : list WAIT_ORDER) : Prop :=
  forall t q, find_order wo t = Some q -> q ≡ₚ queue_of s t.

Lemma order_of_perm wo t : reorders wo -> order_of s wo t ≡ₚ queue_of s t.
Proof. intros Hwo. unfold order_of. destruct (find_order wo t) as [q|] eqn:E; cbn; [by apply Hwo|done]. Qed.

Definition joined (wo : list WAIT_ORDER) (a b : nat) : Prop := exists e i, edge s wo a b e i.

Definition reversed (wo : list WAIT_ORDER) (e : EDGE) : Prop := joined wo (blocker e) (waiter e).

(** Of two conflicting waiters the second in the queue waits for the first. *)
Lemma edge_or_reversed wo e :
  edge_ok e -> reorders wo -> joined wo (waiter e) (blocker e) \/ reversed wo e.
Proof.
  intros (_ & _ & Hne & p & q & Hp & Hq & Hpw & Hqb & Hc) Hwo.
  destruct (queue_of_lock _ _ Hp) as (l & Hl & Hpl). destruct (queue_of_lock _ _ Hq) as (l' & Hl' & Hql).
  assert (l' = l) as -> by congruence.
  pose proof (wf_queue _ _ H _ _ _ Hl Hpl) as Wp. pose proof (wf_queue _ _ H _ _ _ Hl Hql) as Wq.
  pose proof (order_of_perm wo (lock e) Hwo) as Hperm.
  assert (Hpo : p ∈ order_of s wo (lock e)) by (by rewrite Hperm).
  assert (Hqo : q ∈ order_of s wo (lock e)) by (by rewrite Hperm).
  apply list_elem_of_split in Hpo as (pre & post & Eo). rewrite Eo in Hqo.
  apply elem_of_app in Hqo as [Hqo|[->|Hqo]%elem_of_cons]; [left|congruence|right].
  - eexists _, _, p. split; [done|]. eapply (soft_edge s wo p _ (lock e) q pre p post); try done. congruence.
  - apply list_elem_of_split in Hqo as (x & y & ->). eexists _, _, q. split; [done|].
    eapply (soft_edge s wo q _ (lock e) p (pre ++ p :: x) q y); try done; [congruence|rewrite Eo, <- app_assoc; reflexivity|..].
    + apply elem_of_app. right. constructor.
    + rewrite DoLockModesConflict_sym; [done|..]; by apply (lo_wait _ _ _ _ (wf_lock _ _ H _ _ Hl)).
Qed.

(** The edge of a cycle is none of the constraints that the wait orders
    satisfy. *)
Lemma satisfied_not_edge wo e a b i :
  edge s wo a b (Some e) i ->
  (exists order, find_order wo (lock e) = Some order /\ precedes s (waiter e) (blocker e) order) -> False.
Proof.
  intros (p & _ & Hb) (order & Hf & Hprec). remember (Some e) as o eqn:Eo.
  destruct Hb as [|t q pre m post _ Hq _ Ho Hm Hin _]; [done|]. injection Eo as <-. cbn in Hf, Hprec.
  unfold order_of in Ho. rewrite Hf in Ho. cbn in Ho. subst order.
  apply list_elem_of_lookup in Hin as [k Hk]. pose proof (lookup_lt_Some _ _ _ Hk) as Hlt.
  pose proof (Hprec (length pre) k m q) as Hx. rewrite list_lookup_middle in Hx by done.
  rewrite lookup_app_l in Hx by done. specialize (Hx eq_refl Hk Hm Hq). lia.
Qed.

Lemma edge_ends wo a b e i : edge s wo a b (Some e) i -> waiter e = a /\ blocker e = b.
Proof.
  intros (p & Hp & Hb). remember (Some e) as o eqn:Eo. destruct Hb; [done|]. by injection Eo as <-.
Qed.

Lemma path_edges wo a b es ls : path s wo a b es ls ->
  forall e, e ∈ es -> exists a b i, edge s wo a b (Some e) i.
Proof.
  assert (Hone : forall a b o i e, edge s wo a b o i -> e ∈ option_list o -> exists a b i, edge s wo a b (Some e) i).
  { intros a0 b0 [e'|] i e He Hin; cbn in Hin; [|by apply elem_of_nil in Hin].
    apply list_elem_of_singleton in Hin as ->. by exists a0, b0, i. }
  induction 1 as [a b o i Ho|a b c o i es ls Ho _ IH]; intros e He; [by eapply Hone|].
  apply elem_of_app in He as [He|He]; [by apply IH|by eapply Hone].
Qed.

Definition linked (wo : list WAIT_ORDER) (a b : nat) : Prop := exists es ls, path s wo a b es ls.

Lemma joined_linked wo a b : joined wo a b -> linked wo a b.
Proof. intros (e & i & He). eexists _, _. by apply path_one. Qed.

Lemma joined_trans wo a b c : joined wo a b -> linked wo b c -> linked wo a c.
Proof. intros (e & i & He) (es & ls & P). eexists _, _. by eapply path_cons. Qed.

(** A path whose soft edges are all still there. *)
Lemma path_kept wo wo' a b es ls :
  path s wo a b es ls -> (forall e, e ∈ es -> joined wo' (waiter e) (blocker e)) -> linked wo' a b.
Proof.
  assert (Hone : forall a b o i, edge s wo a b o i ->
    (forall e, e ∈ option_list o -> joined wo' (waiter e) (blocker e)) -> joined wo' a b).
  { intros a0 b0 [e|] i He Hall.
    - destruct (edge_ends _ _ _ _ _ He) as [<- <-]. apply Hall. constructor.
    - destruct He as (p & Hp & Hb). remember (@None EDGE) as o eqn:Eo. destruct Hb as [t q m|]; [|discriminate Eo].
      eexists None, _, p. split; [exact Hp|]. by apply (hard_edge s wo' p b0 t q m). }
  induction 1 as [a b o i Ho|a b c o i es ls Ho _ IH]; intros Hall; [by apply joined_linked, (Hone a b o i)|].
  eapply joined_trans; [eapply Hone; [exact Ho|]|apply IH]; intros e He; apply Hall, elem_of_app; [by right|by left].
Qed.

Lemma cycle_or_reversed wo wo' a es ls :
  orders_ok s wo -> path s wo a a es ls -> reorders wo' ->
  linked wo' a a \/ exists e, e ∈ es /\ reversed wo' e.
Proof.
  intros Hwo P Hwo'. pose proof (path_edges_ok _ _ _ _ _ Hwo P) as Hok.
  assert (Hall : (forall e, e ∈ es -> joined wo' (waiter e) (blocker e)) \/ exists e, e ∈ es /\ reversed wo' e).
  { clear P. induction es as [|e es IH]; [left; intros e He; by apply elem_of_nil in He|].
    destruct (edge_or_reversed wo' e) as [He|He]; [apply Hok; constructor|done| |right; exists e; split; [constructor|done]].
    destruct IH as [IH|(e' & He' & Hr)]; [intros; apply Hok; by constructor| |right; exists e'; split; [by constructor|done]].
    left. intros e' [->|He']%elem_of_cons; [done|by apply IH]. }
  destruct Hall as [Hall|Hr]; [left; by eapply path_kept|by right].
Qed.

(** A finite set in which every group has an edge from another has a cycle. *)
Lemma in_edges_cycle wo (R : list nat) :
  R <> [] -> (forall g, g ∈ R -> exists g', g' ∈ R /\ joined wo g' g) -> exists a, linked wo a a.
Proof.
  intros HR Hin.
  assert (Hwalk : forall n, (exists a, linked wo a a) \/
    exists h k, length k = n /\ NoDup (h :: k) /\ (forall x, x ∈ h :: k -> x ∈ R) /\ forall x, x ∈ k -> linked wo h x).
  { induction n as [|n IH].
    - right. destruct R as [|h R]; [done|]. exists h, []. split; [done|]. split; [apply NoDup_singleton|].
      split; [|intros x Hx; by apply elem_of_nil in Hx]. intros x Hx%list_elem_of_singleton. rewrite Hx. constructor.
    - destruct IH as [?|(h & k & Hk & Hnd & Hsub & Hlink)]; [by left|].
      destruct (Hin h) as (g & Hg & Hj); [apply Hsub; constructor|].
      destruct (decide (g ∈ h :: k)) as [[->|Hgk]%elem_of_cons|Hn].
      + left. exists h. by apply joined_linked.
      + left. exists g. eapply joined_trans; [done|by apply Hlink].
      + right. exists g, (h :: k). split; [cbn; by rewrite Hk|]. split; [by constructor|]. split.
        * intros x [->|Hx]%elem_of_cons; [done|by apply Hsub].
        * intros x [->|Hx]%elem_of_cons; [by apply joined_linked|]. eapply joined_trans; [done|by apply Hlink]. }
  destruct (Hwalk (length R)) as [?|(h & k & Hk & Hnd & Hsub & _)]; [done|].
  assert (h :: k ⊆+ R) as Hle%submseteq_length by (by apply NoDup_submseteq). cbn in Hle. lia.
Qed.

Lemma contradictory_cycle wo queue cs :
  contradictory s queue cs -> (forall c, c ∈ cs -> reversed wo c) -> exists a, linked wo a a.
Proof.
  intros (R & HR & Hall) Hrev. apply (in_edges_cycle wo R HR). intros g Hg.
  destruct (Hall g Hg) as (c & Hc & _ & <- & Hb). exists (blocker c). split; [done|]. by apply Hrev.
Qed.

(** Somebody is deadlocked. *)
Definition stuck_somewhere (wo : list WAIT_ORDER) : Prop := exists x, deadlocked s wo x.

Lemma linked_stuck wo a : linked wo a a -> stuck_somewhere wo.
Proof.
  intros (es & ls & P). exists a. assert (leader_of s a = a) as Ea.
  { destruct (path_from _ _ _ _ _ _ P) as (c & e & i & (p & <- & _) & _). by apply leader_idem. }
  unfold deadlocked. rewrite Ea. by exists es, ls.
Qed.

(** No rearrangement that reverses the edges [cur] is free of deadlocks. *)
Definition hopeless (cur : list EDGE) : Prop :=
  forall wo, reorders wo -> (forall c, c ∈ cur -> reversed wo c) -> stuck_somewhere wo.

(** A configuration with a cycle is hopeless when it is after the reversal of
    any soft edge of the cycle. *)
Lemma hopeless_cycle wo cur a es ls :
  orders_ok s wo -> path s wo a a es ls -> (forall e, e ∈ es -> hopeless (cur ++ [e])) -> hopeless cur.
Proof.
  intros Hwo P Hes wo' Hwo' Hcur. destruct (cycle_or_reversed wo wo' a es ls Hwo P Hwo') as [Hc|(e & He & Hr)].
  - by eapply linked_stuck.
  - apply (Hes e He wo' Hwo'). intros c [Hc|Hc%list_elem_of_singleton]%elem_of_app; [by apply Hcur|by rewrite Hc].
Qed.

Lemma hopeless_contradictory cur queue : contradictory s queue cur -> hopeless cur.
Proof. intros Hc wo _ Hrev. destruct (contradictory_cycle wo queue cur Hc Hrev) as [a Ha]. by eapply linked_stuck. Qed.

(** Fewer constraints than the detector has room for can come up. *)
Definition few_constraints : Prop :=
  forall cur, NoDup cur -> (forall c, c ∈ cur -> edge_ok c) -> (length cur < MaxBackends)%nat.

End State.

End Hash.

End DeadlockOrders.
