(* ===== verification/DeadlockSearch.v ===== *)
(** * The search for a configuration without deadlock

    [TestConfiguration] and [DeadLockCheckRecurse]: a configuration that is
    accepted has no deadlock that matters, and a search that fails has shown
    that no rearrangement of the queues is without deadlock, as long as there
    are fewer possible constraints than there is room for. *)

From S2P Require Import Prelude.
From S2P Require Import Lock.
From S2P Require Import LockInv.
From S2P Require Import LockOps.
From S2P Require Import Deadlock.
From S2P Require Import DeadlockGraph.
From S2P Require Import DeadlockTopo.
From S2P Require Import DeadlockOrders.
From stdpp Require Import list.

Import Lock LockInv LockOps Deadlock DeadlockGraph DeadlockTopo DeadlockOrders.

Open Scope Z_scope.

Module DeadlockSearch.

(** ** The result of a search does not depend on what was found before *)

Definition sim (d1 d2 : dstate) : Prop :=
  visitedProcs d1 = visitedProcs d2 /\ softEdges d1 = softEdges d2.

Definition agree (x y : option (bool * dstate)) : Prop :=
  match x, y with
  | Some (r1, d1), Some (r2, d2) => r1 = r2 /\ sim d1 d2
  | None, None => True
  | _, _ => False
  end.

Lemma agree_bind x y k1 k2 :
  agree x y -> (forall r d1 d2, sim d1 d2 -> agree (k1 (r, d1)) (k2 (r, d2))) ->
  agree (x ≫= k1) (y ≫= k2).
Proof.
  destruct x as [[r1 d1]|], y as [[r2 d2]|]; cbn; try done. intros [-> Hs] Hk. by apply Hk.
Qed.

Lemma agree_scan {A} (f g : A -> dstate -> option (bool * dstate)) xs :
  (forall x d1 d2, sim d1 d2 -> agree (f x d1) (g x d2)) ->
  forall d1 d2, sim d1 d2 -> agree (scan_until f xs d1) (scan_until g xs d2).
Proof.
  intros Hf. induction xs as [|x xs IH]; intros d1 d2 Hs; [done|]. cbn [scan_until].
  apply agree_bind; [by apply Hf|]. intros [] e1 e2 He; [done|by apply IH].
Qed.

Lemma write_edges_lt base es a i : (i < base)%nat -> write_edges base es a i = a i.
Proof.
  revert base a. induction es as [|e es IH]; intros base a Hi; [done|]. cbn [write_edges].
  rewrite IH by lia. apply fn_lookup_insert_ne. lia.
Qed.

Lemma write_edges_at base es a i e : es !! i = Some e -> write_edges base es a (base + i)%nat = e.
Proof.
  revert base a i. induction es as [|x es IH]; intros base a i; [done|]. cbn [write_edges].
  destruct i as [|i]; cbn [lookup list_lookup].
  - intros [= ->]. rewrite Nat.add_0_r, write_edges_lt by lia. apply fn_lookup_insert.
  - intros Hi. replace (base + S i)%nat with (S base + i)%nat by lia. by apply IH.
Qed.

Section Agree.
Context (MaxBackends MyProc : nat) (s : shared) (wo : list WAIT_ORDER).

Lemma agree_member rec p v depth d1 d2 :
  (forall q k e1 e2, sim e1 e2 -> agree (rec q k e1) (rec q k e2)) -> sim d1 d2 ->
  agree (FindLockCycleRecurseMember MaxBackends MyProc s wo rec p v depth d1)
        (FindLockCycleRecurseMember MaxBackends MyProc s wo rec p v depth d2).
Proof.
  intros Hrec Hs. unfold FindLockCycleRecurseMember.
  destruct (waitLock (procs s p)) as [tag|]; [|done]. cbn [mbind option_bind].
  destruct (locks s !! tag) as [l|]; [|done]. cbn [mbind option_bind].
  apply agree_bind.
  - apply agree_scan; [|done]. intros q e1 e2 He. unfold check_holder.
    destruct (proclocks s !! (tag, q)) as [pl|]; [|done]. cbn [mbind option_bind].
    destruct (_ && _); [|done]. apply agree_bind; [by apply Hrec|]. intros [] c1 c2 Hc; [done|].
    split; [done|]. by destruct (_ && _).
  - intros [] e1 e2 He; [done|]. destruct (procs_ahead _ _ _ _ _ _) as [ahead|]; [|done]. cbn [mbind option_bind].
    apply agree_scan; [|done]. intros q c1 c2 Hc. unfold check_ahead. destruct (_ && _); [|done].
    apply agree_bind; [by apply Hrec|]. intros [] a1 a2 [A1 A2]; [|done].
    cbn [softEdges note_details set_details]. rewrite A2. destruct (_ <? _)%nat; [|done].
    split; [done|]. split; cbn; [done|by rewrite A2].
Qed.

Lemma agree_recurse fuel : forall q depth d1 d2, sim d1 d2 ->
  agree (FindLockCycleRecurse MaxBackends MyProc s wo fuel q depth d1)
        (FindLockCycleRecurse MaxBackends MyProc s wo fuel q depth d2).
Proof.
  induction fuel as [|fuel IH]; intros q depth d1 d2 Hs; [done|]. rewrite !FindLockCycleRecurse_S.
  destruct Hs as [S1 S2]. rewrite S1. case_bool_decide.
  { by destruct (_ <=? _)%nat. }
  case_bool_decide; [done|]. destruct (_ <? _)%nat; [|done].
  assert (Hv : sim (visit (leader_of s q) d1) (visit (leader_of s q) d2)) by (split; cbn; congruence).
  unfold search_from. apply agree_bind.
  - destruct (is_waiting s _); [by apply agree_member|done].
  - intros [] e1 e2 He; [done|]. apply agree_scan; [|done]. intros p c1 c2 Hc.
    destruct (_ && _); [by apply agree_member|done].
Qed.

Lemma FindLockCycle_agree p d1 d2 :
  agree (FindLockCycle MaxBackends MyProc s wo p d1) (FindLockCycle MaxBackends MyProc s wo p d2).
Proof. by apply agree_recurse. Qed.

Lemma write_edges_same es : forall base a1 a2 i, a1 i = a2 i -> write_edges base es a1 i = write_edges base es a2 i.
Proof.
  induction es as [|e es IH]; intros base a1 a2 i Hi; [done|]. cbn [write_edges]. apply IH.
  destruct (decide (i = base)) as [->|Hne]; [by rewrite !fn_lookup_insert|by rewrite !fn_lookup_insert_ne].
Qed.

(** Two works have the same edges in a part of [possibleConstraints]. *)
Definition same_entries (base n : nat) (w1 w2 : work) : Prop :=
  forall i, (i < n)%nat -> possibleConstraints w1 (base + i)%nat = possibleConstraints w2 (base + i)%nat.

Definition same_result (base : nat) (x y : option (Z * work)) : Prop :=
  match x, y with
  | Some (r1, w1), Some (r2, w2) => r1 = r2 /\ same_entries base (Z.to_nat r1) w1 w2
  | None, None => True
  | _, _ => False
  end.

Lemma test_procs_agree base ps : forall n w1 w2,
  waitOrders w1 = wo -> waitOrders w2 = wo ->
  nPossibleConstraints w1 = base -> nPossibleConstraints w2 = base -> same_entries base (Z.to_nat n) w1 w2 ->
  same_result base (test_procs MaxBackends MyProc s ps n w1) (test_procs MaxBackends MyProc s ps n w2).
Proof.
  induction ps as [|p ps IH]; intros n w1 w2 E1 E2 N1 N2 Hs; [done|]. cbn [test_procs]. rewrite E1, E2.
  pose proof (FindLockCycle_agree p (found w1) (found w2)) as Ha.
  destruct (FindLockCycle MaxBackends MyProc s wo p (found w1)) as [[r1 d1]|],
    (FindLockCycle MaxBackends MyProc s wo p (found w2)) as [[r2 d2]|]; cbn in Ha; try done.
  destruct Ha as [-> [_ Ee]]. cbn [mbind option_bind]. rewrite Ee, N1, N2. destruct r2.
  - case_bool_decide; [by split; [|intros i Hi; cbn in Hi; lia]|]. apply IH; try done.
    intros i Hi. cbn. destruct (lookup_lt_is_Some_2 (softEdges d2) i) as [e He]; [lia|].
    by rewrite !(write_edges_at _ _ _ _ _ He).
  - apply IH; try done. intros i Hi. cbn. apply write_edges_same. by apply Hs.
Qed.
End Agree.

Lemma TestConfiguration_agree MaxBackends MyProc s p cur w1 w2 :
  nPossibleConstraints w1 = nPossibleConstraints w2 ->
  same_result (nPossibleConstraints w1) (TestConfiguration MaxBackends MyProc s p cur w1)
              (TestConfiguration MaxBackends MyProc s p cur w2).
Proof.
  intros E. unfold TestConfiguration. rewrite E.
  case_bool_decide; [by split; [|intros i Hi; cbn in Hi; lia]|].
  destruct (ExpandConstraints MaxBackends s cur) as [[r wo]|]; [|done]. cbn [mbind option_bind].
  destruct r; [|by split; [|intros i Hi; cbn in Hi; lia]].
  apply (test_procs_agree MaxBackends MyProc s wo); try done. intros i Hi. cbn in Hi. lia.
Qed.

(** ** Testing a configuration *)

Section Hash.
Context {lockhash : LockHash} (MaxBackends MyProc : nat).

Section State.
Context (s : shared) (H : wf None s) (Hfits : fits MaxBackends s).

Definition in_graph (p : nat) : Prop := exists tag q, is_Some (proclocks s !! (tag, q)) /\ leader_of s q = leader_of s p.

Lemma waiter_in_graph p : links (procs s p) = true -> in_graph p.
Proof.
  intros Hp. destruct (wf_links _ _ H p Hp) as (tag & l & Hl & Hin). exists tag, p. split; [|done].
  apply hold_is_Some. by apply (lo_wait _ _ _ _ (wf_lock _ _ H _ _ Hl)).
Qed.

Lemma queue_in_graph tag x g : x ∈ queue_of s tag -> leader_of s x = g -> leader_of s g = g -> in_graph g.
Proof.
  unfold queue_of. destruct (locks s !! tag) as [l|] eqn:El; [|intros Hx; by apply elem_of_nil in Hx].
  intros Hx Hg Hgg. exists tag, x. split; [|congruence]. apply hold_is_Some.
  by apply (lo_wait _ _ _ _ (wf_lock _ _ H _ _ El)).
Qed.

Definition same_below (base : nat) (w w' : work) : Prop :=
  forall i, (i < base)%nat -> possibleConstraints w' i = possibleConstraints w i.

(** The soft edges of a cycle are in a part of [possibleConstraints]; they are
    none of the constraints in force. *)
Definition cycle_at (cur : list EDGE) (base n : nat) (w : work) : Prop :=
  exists wo x es ls, orders_ok s wo /\ path s wo x x es ls /\ length es = n /\
    (forall e, e ∈ es -> e ∉ cur) /\ forall i e, es !! i = Some e -> possibleConstraints w (base + i)%nat = e.

Lemma test_procs_spec wo cur ps : forall n w,
  orders_ok s wo -> waitOrders w = wo -> (forall x, x ∈ ps -> in_graph x) ->
  (forall c, c ∈ cur -> exists order, find_order wo (lock c) = Some order /\
     precedes s (waiter c) (blocker c) order) ->
  0 <= n <= Z.of_nat MaxBackends -> (0 < n -> cycle_at cur (nPossibleConstraints w) (Z.to_nat n) w) ->
  exists r w', test_procs MaxBackends MyProc s ps n w = Some (r, w') /\ waitOrders w' = wo /\
    nPossibleConstraints w' = nPossibleConstraints w /\ same_below (nPossibleConstraints w) w w' /\
    -1 <= r <= Z.of_nat MaxBackends /\
    (r = -1 -> exists x ls, path s wo x x [] ls) /\
    (0 < r -> cycle_at cur (nPossibleConstraints w) (Z.to_nat r) w') /\
    (r = 0 -> n = 0 /\ forall x, x ∈ ps -> ~ deadlocked s wo x) /\
    (r <> 0 -> n <> 0 \/ exists x, x ∈ ps /\ deadlocked s wo x).
Proof.
  destruct Hfits as [(L & HL & Hlen) _].
  induction ps as [|p ps IH]; intros n w Hwo Ew Hps Hsat Hn Hedges; cbn [test_procs].
  - exists n, w. split; [done|]. split; [done|]. split; [done|]. split; [by intros i|].
    split; [lia|]. split; [lia|]. split; [done|]. split; [|by left]. intros ->. split; [done|].
    intros x Hx. by apply elem_of_nil in Hx.
  - assert (Hp : leader_of s p ∈ L).
    { destruct (Hps p (list_elem_of_here _ _)) as (tag & q & Hq & <-). by apply (HL tag). }
    rewrite Ew. destruct (FindLockCycle_spec MaxBackends MyProc s wo L p (found w) H Hwo HL Hlen Hp) as (r & d & -> & Hr).
    cbn [mbind option_bind]. set (w1 := MkWork _ _ _ _).
    assert (Hbelow : same_below (nPossibleConstraints w) w w1).
    { intros i Hi. unfold w1. cbn. by apply write_edges_lt. }
    assert (Hps' : forall x, x ∈ ps -> in_graph x) by (intros; apply Hps; by constructor).
    destruct r.
    + destruct Hr as (P & Hlt). pose proof (path_soft_le _ _ _ _ _ _ P) as Hle.
      rewrite length_fmap, length_seq in Hle.
      assert (Hdead : deadlocked s wo p) by (by eexists _, _).
      case_bool_decide as Hnil.
      * exists (-1), w1. split; [done|]. split; [done|]. split; [done|]. split; [done|]. split; [lia|].
        rewrite Hnil in P. split; [by eexists _, _|]. split; [lia|].
        split; [done|]. intros _. right. exists p. split; [constructor|done].
      * assert (Hpos : (0 < length (softEdges d))%nat) by (destruct (softEdges d); [done|simpl; lia]).
        destruct (IH (Z.of_nat (length (softEdges d))) w1) as (r & w' & E & E1 & E2 & E3 & E4 & E5 & E6 & E7 & E8); try done.
        -- lia.
        -- intros _. exists wo, (leader_of s p), (softEdges d). eexists. split; [done|]. split; [exact P|].
           split; [lia|]. split; [|intros i e; apply write_edges_at].
           intros e He Hc. destruct (path_edges _ _ _ _ _ _ P e He) as (a & b & i & Hedge).
           by apply (satisfied_not_edge _ _ _ _ _ _ Hedge), Hsat.
        -- exists r, w'. split; [done|]. split; [done|]. split; [done|]. split.
           { intros i Hi. rewrite (E3 i) by done. by apply Hbelow. }
           split; [done|]. split; [done|]. split; [done|]. split.
           ++ intros ->. destruct (E7 eq_refl) as [Hz _]. lia.
           ++ intros _. right. exists p. split; [constructor|done].
    + destruct Hr as [Enil Hnd].
      assert (Ep : possibleConstraints w1 = possibleConstraints w) by (unfold w1; cbn; by rewrite Enil).
      destruct (IH n w1) as (r & w' & E & E1 & E2 & E3 & E4 & E5 & E6 & E7 & E8); try done.
      { unfold cycle_at. rewrite Ep. exact Hedges. }
      exists r, w'. split; [done|]. split; [done|]. split; [done|]. split.
      { intros i Hi. rewrite (E3 i) by done. by rewrite Ep. }
      split; [done|]. split; [done|]. split; [done|]. split.
      * intros ->. destruct (E7 eq_refl) as [-> Hall]. split; [done|]. intros x [->|Hx]%elem_of_cons; [done|by apply Hall].
      * intros Hr. destruct (E8 Hr) as [?|(x & Hx & Hd)]; [by left|]. right. exists x. split; [by constructor|done].
Qed.

(** There is room for the output of a search. *)
Definition has_room (w : work) : Prop :=
  (nPossibleConstraints w + MaxBackends <= maxPossibleConstraints MaxBackends)%nat.

(** What a test says about the configuration [cur]. *)
Record tested (cur : list EDGE) (p : nat) (w : work) (r : Z) (w' : work) : Prop := {
  tc_n : nPossibleConstraints w' = nPossibleConstraints w;
  tc_below : same_below (nPossibleConstraints w) w w';
  tc_range : -1 <= r <= Z.of_nat MaxBackends;
  tc_cycle : 0 < r -> cycle_at cur (nPossibleConstraints w) (Z.to_nat r) w';
  tc_hopeless : r = -1 -> hopeless s cur;
  tc_good : r = 0 -> orders_for s cur (waitOrders w') /\ (waitOrders w' = [] <-> cur = []) /\
    forall x, x ∈ procs_to_test cur p -> ~ deadlocked s (waitOrders w') x;
  tc_bad : r <> 0 -> cur = [] -> deadlocked s [] p }.

Lemma procs_to_test_elem cur p x :
  x ∈ procs_to_test cur p <-> x = p \/ exists c, c ∈ cur /\ (x = waiter c \/ x = blocker c).
Proof.
  unfold procs_to_test. rewrite elem_of_app, list_elem_of_singleton.
  assert (Hc : x ∈ concat ((fun c => [waiter c; blocker c]) <$> cur) <-> exists c, c ∈ cur /\ (x = waiter c \/ x = blocker c));
    [|tauto].
  induction cur as [|c cur IH]; cbn [fmap list_fmap concat].
  - split; [intros Hx; by apply elem_of_nil in Hx|]. intros (c & Hc & _). by apply elem_of_nil in Hc.
  - rewrite elem_of_app, IH, !elem_of_cons, elem_of_nil. split.
    + intros [[->|[->|[]]]|(c' & Hc' & Hx)]; [exists c; split; [constructor|by left]|exists c; split; [constructor|by right]|].
      exists c'. split; [by constructor|done].
    + intros (c' & [->|Hc']%elem_of_cons & Hx); [left; tauto|right]. by exists c'.
Qed.

Lemma expanded_nil wo : ExpandConstraints MaxBackends s [] = Some (true, wo) -> wo = [].
Proof. by intros [= <-]. Qed.

Lemma TestConfiguration_spec cur p w :
  (forall c, c ∈ cur -> edge_ok s c) -> in_graph p -> has_room w ->
  exists r w', TestConfiguration MaxBackends MyProc s p cur w = Some (r, w') /\ tested cur p w r w'.
Proof.
  intros Hcur Hp Hroom. unfold TestConfiguration, has_room in *. rewrite bool_decide_eq_false_2 by lia.
  destruct (ExpandConstraints_spec MaxBackends s H Hfits cur Hcur) as (r & wo & E & Hex). rewrite E. cbn [mbind option_bind].
  destruct r.
  2: { destruct Hex as [t Hex]. exists (-1), (set_waitOrders wo w). split; [done|]. split; try done; try lia.
       - intros _. by eapply hopeless_contradictory.
       - intros _ ->. cbn in E. congruence. }
  destruct Hex as [Ho Hprec].
  destruct (test_procs_spec wo cur (procs_to_test cur p) 0 (set_waitOrders wo w))
    as (r & w' & Er & E1 & E2 & E3 & E4 & E5 & E6 & E7 & E8); [apply Ho|done| |done|lia|lia|].
  { intros x [->|(c & Hc & Hx)]%procs_to_test_elem; [done|].
    destruct (Hcur c Hc) as (Hw & Hb & _ & y & z & Hy & Hz & Hyw & Hzb & _).
    destruct Hx as [->| ->]; [by apply (queue_in_graph (lock c) y)|by apply (queue_in_graph (lock c) z)]. }
  exists r, w'. split; [done|]. split; [done|done|done|done| | |].
  - intros Hr. destruct (E5 Hr) as (x & ls & P). eapply hopeless_cycle; [done|apply Ho|exact P|].
    intros e He. by apply elem_of_nil in He.
  - intros ->. destruct (E7 eq_refl) as [_ Hall]. rewrite E1. split; [done|]. split; [|done]. split.
    + intros ->. destruct cur as [|c cur']; [done|]. destruct (Hprec c (list_elem_of_here _ _)) as (order & Hf & _). done.
    + intros ->. by apply expanded_nil.
  - intros Hr ->. destruct (E8 Hr) as [?|(x & Hx & Hd)]; [done|].
    apply procs_to_test_elem in Hx as [->|(c & Hc & _)]; [|by apply elem_of_nil in Hc].
    by rewrite (expanded_nil wo E) in Hd.
Qed.

(** ** The search for a good configuration *)

(** The outcome of the search below a configuration: no solution, or wait
    orders under which nothing that matters is deadlocked. *)
Record searched (cur : list EDGE) (p : nat) (w : work) (hard : bool) (w' : work) : Prop := {
  sr_n : hard = true -> nPossibleConstraints w' = nPossibleConstraints w;
  sr_below : same_below (nPossibleConstraints w) w w';
  sr_good : hard = false -> exists cur', (forall c, c ∈ cur' -> edge_ok s c) /\
    orders_for s cur' (waitOrders w') /\ ~ deadlocked s (waitOrders w') p /\
    (waitOrders w' = [] <-> cur' = []);
  sr_bad : hard = true \/ waitOrders w' <> [] -> cur = [] -> deadlocked s [] p;
  sr_hopeless : hard = true -> NoDup cur -> few_constraints MaxBackends s -> hopeless s cur }.

Definition search_spec (room : nat) (p : nat) (rec : list EDGE -> work -> option (bool * work)) : Prop :=
  forall cur w, (forall c, c ∈ cur -> edge_ok s c) -> (length cur <= MaxBackends < room + length cur)%nat ->
    has_room w -> exists hard w', rec cur w = Some (hard, w') /\ searched cur p w hard w'.

Lemma same_below_trans n w1 w2 w3 : same_below n w1 w2 -> same_below n w2 w3 -> same_below n w1 w3.
Proof. intros H1 H2 i Hi. rewrite (H2 i Hi). by apply H1. Qed.

Lemma same_below_mono n m w1 w2 : (n <= m)%nat -> same_below m w1 w2 -> same_below n w1 w2.
Proof. intros Hnm Hs i Hi. apply Hs. lia. Qed.

Section Edges.
Context (room : nat) (p : nat) (rec : list EDGE -> work -> option (bool * work)) (cur : list EDGE).
Context (r : Z) (old : nat) (f : nat -> EDGE).
Notation R := (Z.to_nat r).
Context (Hrec : search_spec room p rec) (Hcur : forall c, c ∈ cur -> edge_ok s c).
Context (Hlen : (S (length cur) <= MaxBackends < room + S (length cur))%nat).
Context (Hf : forall i, (i < R)%nat -> edge_ok s (f i)).

Definition entries (w : work) : Prop := forall i, (i < R)%nat -> possibleConstraints w (old + i)%nat = f i.

(** Where the edges are: [old] entries are in use below the saved list, or the
    list is made again for each of them. *)
Definition at_hand (saved : bool) (ixs : list nat) (w : work) : Prop :=
  if saved then nPossibleConstraints w = (old + R)%nat /\ entries w
  else nPossibleConstraints w = old /\
    (forall w1, nPossibleConstraints w1 = old -> exists w2,
       TestConfiguration MaxBackends MyProc s p cur w1 = Some (r, w2) /\
       nPossibleConstraints w2 = old /\ same_below old w1 w2 /\ entries w2) /\
    (head ixs = Some 0%nat -> entries w) /\ forall i, i ∈ tail ixs -> (0 < i)%nat.

(** The edge [i] is fetched. *)
Lemma at_hand_fetch saved i ixs w :
  at_hand saved (i :: ixs) w -> (i < R)%nat ->
  exists w1,
    (if negb saved && bool_decide (0 < i)%nat then
       '(n, w) ← TestConfiguration MaxBackends MyProc s p cur w; assert n =? r;; Some w
     else Some w) = Some w1 /\ entries w1 /\ same_below old w w1 /\
    nPossibleConstraints w1 = nPossibleConstraints w.
Proof.
  destruct saved; cbn [negb andb at_hand].
  - intros [Hn He] _. by exists w.
  - intros (Hn & Hagain & Hhead & _) _. case_bool_decide as Hpos.
    + destruct (Hagain w Hn) as (w2 & -> & Hn2 & Hb & He). cbn [mbind option_bind]. rewrite Z.eqb_refl.
      exists w2. split; [done|]. split; [done|]. split; [done|congruence].
    + assert (i = 0%nat) as -> by lia. exists w. split; [done|]. by split; [apply Hhead|].
Qed.

Lemma at_hand_next saved i ixs w w1 w2 :
  at_hand saved (i :: ixs) w -> entries w1 -> nPossibleConstraints w1 = nPossibleConstraints w ->
  nPossibleConstraints w2 = nPossibleConstraints w1 -> same_below (nPossibleConstraints w1) w1 w2 ->
  at_hand saved ixs w2.
Proof.
  destruct saved; cbn [at_hand].
  - intros [Hn _] He N1 N2 Hb. split; [congruence|]. intros j Hj. rewrite (Hb (old + j)%nat) by lia. by apply He.
  - intros (Hn & Hagain & _ & Htail) He N1 N2 Hb. split; [congruence|]. split; [done|].
    assert (Hpos : forall j, j ∈ ixs -> (0 < j)%nat) by done. split.
    + intros Hh. destruct ixs as [|j ixs]; [done|]. injection Hh as ->. specialize (Hpos 0%nat (list_elem_of_here _ _)). lia.
    + intros j Hj. apply Hpos. destruct ixs; [done|by constructor].
Qed.

Lemma try_edges_spec saved ixs : forall w,
  in_graph p -> (forall i, i ∈ ixs -> (i < R)%nat) -> has_room w -> at_hand saved ixs w ->
  exists hard w', try_edges MaxBackends MyProc rec s p cur r old saved ixs w = Some (hard, w') /\
    (hard = true -> nPossibleConstraints w' = old) /\ same_below old w w' /\
    (hard = false -> exists cur', (forall c, c ∈ cur' -> edge_ok s c) /\ orders_for s cur' (waitOrders w') /\
       ~ deadlocked s (waitOrders w') p /\ (waitOrders w' = [] <-> cur' = [])) /\
    (hard = true -> few_constraints MaxBackends s -> forall i, i ∈ ixs -> NoDup (cur ++ [f i]) ->
       hopeless s (cur ++ [f i])).
Proof.
  induction ixs as [|i ixs IH]; intros w Hp Hixs Hw Hat; cbn [try_edges].
  - exists true, (set_nPossible old w). split; [done|]. split; [done|]. split; [by intros j|]. split; [done|].
    intros _ _ i Hi. by apply elem_of_nil in Hi.
  - assert (Hi : (i < R)%nat) by (apply Hixs; constructor).
    destruct (at_hand_fetch saved i ixs w Hat Hi) as (w1 & -> & He & Hb1 & Hn1). cbn [mbind option_bind].
    rewrite (He i Hi).
    assert (Hold : (old <= nPossibleConstraints w1)%nat) by (rewrite Hn1; destruct saved; destruct Hat; lia).
    destruct (Hrec (cur ++ [f i]) w1) as (hard & w2 & -> & S2).
    { intros c [Hc|Hc%list_elem_of_singleton]%elem_of_app; [by apply Hcur|rewrite Hc; by apply Hf]. }
    { rewrite length_app. cbn. lia. }
    { unfold has_room. by rewrite Hn1. }
    cbn [mbind option_bind]. destruct S2 as [S1 S2 S3 _ S4]. destruct hard.
    + destruct (IH w2) as (hard & w' & E & F1 & F2 & F3 & F4); [done| | | |].
      * intros j Hj. apply Hixs. by constructor.
      * unfold has_room. by rewrite S1, Hn1.
      * eapply (at_hand_next saved i ixs w w1 w2); [done|done|done|by apply S1|done].
      * exists hard, w'. split; [done|]. split; [done|]. split; [|split; [done|]].
        -- eapply same_below_trans; [|done]. eapply same_below_trans; [done|]. by eapply same_below_mono.
        -- intros Hh Hfew j [->|Hj]%elem_of_cons Hnd; [by apply S4|by apply F4].
    + exists false, w2. split; [done|]. split; [done|]. split.
      { eapply same_below_trans; [done|]. by eapply same_below_mono. }
      split; [|done]. intros _. by apply S3.
Qed.
End Edges.

Lemma NoDup_snoc (cur : list EDGE) e : NoDup cur -> e ∉ cur -> NoDup (cur ++ [e]).
Proof.
  intros Hnd He. apply NoDup_app. split; [done|]. split; [|apply NoDup_singleton].
  intros x Hx Hx'%list_elem_of_singleton. by subst.
Qed.

Lemma DeadLockCheckRecurse_spec fuel p :
  in_graph p -> search_spec fuel p (DeadLockCheckRecurse MaxBackends MyProc fuel s p).
Proof.
  intros Hp. induction fuel as [|fuel IH]; intros cur w Hcur Hlen Hroom; cbn [DeadLockCheckRecurse]; [lia|].
  destruct (TestConfiguration_spec cur p w Hcur Hp Hroom) as (r & w1 & E & T). rewrite E. cbn [mbind option_bind].
  pose proof T as [T1 T2 T3 T4 T5 T6 T7].
  destruct (Z.ltb_spec r 0) as [Hneg|Hge].
  { exists true, w1. split; [done|]. split; try done; [intros _; apply T7; lia|]. intros _ _ _. apply T5. lia. }
  destruct (Z.eqb_spec r 0) as [->|Hne].
  { exists false, w1. split; [done|]. destruct (T6 eq_refl) as (O & Hnil & Hall). split; try done.
    - intros _. exists cur. split; [done|]. split; [done|]. split; [apply Hall, procs_to_test_elem; by left|done].
    - intros [?|Hwo] ->; [done|]. by destruct Hwo; apply Hnil. }
  case_bool_decide as Hmax.
  { exists true, w1. split; [done|]. split; try done; [intros _; by apply T7|].
    intros _ Hnd Hfew. specialize (Hfew cur Hnd Hcur). unfold maxCurConstraints in Hmax. lia. }
  unfold maxCurConstraints in Hmax.
  destruct (T4 ltac:(lia)) as (wo & x & es & ls & Hwo & P & Hes & Hnew & Hat).
  set (f i := default (MkEDGE 0 0 (lock (possibleConstraints w 0%nat))) (es !! i)).
  assert (Hf : forall i, (i < Z.to_nat r)%nat -> f i ∈ es).
  { intros i Hi. destruct (lookup_lt_is_Some_2 es i) as [e He]; [lia|]. unfold f. rewrite He. by eapply list_elem_of_lookup_2. }
  assert (Hent : entries r (nPossibleConstraints w) f w1).
  { intros i Hi. destruct (lookup_lt_is_Some_2 es i) as [e He]; [lia|]. unfold f. rewrite He. by apply Hat. }
  pose proof (path_edges_ok s H _ _ _ _ _ Hwo P) as Hok.
  set (saved := bool_decide _). set (w2 := if saved then _ else _).
  assert (Ep : possibleConstraints w2 = possibleConstraints w1) by (unfold w2; by destruct saved).
  destruct (try_edges_spec fuel p (DeadLockCheckRecurse MaxBackends MyProc fuel s p) cur r
    (nPossibleConstraints w1) f IH Hcur ltac:(lia) (fun i Hi => Hok _ (Hf i Hi)) saved (seq 0 (Z.to_nat r)) w2 Hp)
    as (hard & w' & -> & F1 & F2 & F3 & F4).
  - intros i Hi%elem_of_seq. lia.
  - unfold has_room, w2, saved. case_bool_decide as Hs; [exact Hs|]. by rewrite T1.
  - rewrite T1. unfold at_hand, w2. destruct saved; [by cbn; rewrite T1|]. split; [done|]. split; [|split].
    + intros v Hv. pose proof (TestConfiguration_agree MaxBackends MyProc s p cur w v) as Ha.
      rewrite E in Ha. destruct (TestConfiguration_spec cur p v Hcur Hp) as (r' & v' & Ev & Tv); [unfold has_room; by rewrite Hv|].
      rewrite Ev in Ha |- *. destruct Ha as [<- Ha]; [done|]. exists v'. split; [done|].
      split; [rewrite <- Hv; apply Tv|]. split; [rewrite <- Hv; apply Tv|]. intros i Hi. rewrite <- Ha by done. by apply Hent.
    + done.
    + intros i. destruct (Z.to_nat r) as [|k] eqn:Ek; cbn [seq tail]; [intros Hx; by apply elem_of_nil in Hx|].
      intros Hi%elem_of_seq. lia.
  - exists hard, w'. split; [done|]. split.
    + intros Hh. by rewrite F1.
    + rewrite T1 in F2. eapply same_below_trans; [done|]. intros i Hi. rewrite (F2 i Hi). by rewrite Ep.
    + done.
    + intros _. by apply T7.
    + intros Hh Hnd Hfew. eapply hopeless_cycle; [done|exact Hwo|exact P|]. intros e He.
      pose proof He as [i Hi]%list_elem_of_lookup. pose proof (lookup_lt_Some _ _ _ Hi) as Hlt.
      specialize (F4 Hh Hfew i). unfold f in F4. rewrite Hi in F4. apply F4; [apply elem_of_seq; lia|].
      apply NoDup_snoc; [done|by apply Hnew].
Qed.

End State.

End Hash.

End DeadlockSearch.
