(* ===== verification/DeadlockProofs.v ===== *)
(** * The deadlock check

    [DeadLockCheck] reports a deadlock only when there is one that no
    rearrangement of the queues resolves, resolves a soft deadlock by a
    rearrangement after which there is none, leaves everything alone when there
    is none, and never fails an assertion. *)

From S2P Require Import Prelude.
From S2P Require Import Lock.
From S2P Require Import LockInv.
From S2P Require Import LockOps.
From S2P Require Import Deadlock.
From S2P Require Import DeadlockGraph.
From S2P Require Import DeadlockTopo.
From S2P Require Import DeadlockOrders.
From S2P Require Import DeadlockSearch.
From stdpp Require Import list.

Import Lock LockInv LockOps Deadlock DeadlockGraph DeadlockTopo DeadlockOrders DeadlockSearch.

Open Scope Z_scope.

Module DeadlockProofs.

Section Hash.
Context {lockhash : LockHash} (MaxBackends MyProc : nat).


(** ** Rearranging a queue *)

Definition reordered (tag : LOCKTAG) (ps : list nat) (l : LOCK) (s : shared) : shared :=
  put_lock tag (set_waitProcs ps l) s.

Lemma reordered_queue s tag l ps t :
  queue_of (reordered tag ps l s) t = if bool_decide (t = tag) then ps else queue_of s t.
Proof.
  unfold queue_of, reordered. cbn. case_bool_decide as Ht.
  - by rewrite Ht, lookup_insert_eq.
  - by rewrite lookup_insert_ne.
Qed.

Lemma reordered_inv s tag l ps :
  good s -> locks s !! tag = Some l -> ps ≡ₚ waitProcs l ->
  wf None (reordered tag ps l s) /\ excl (reordered tag ps l s) /\ tidy None (reordered tag ps l s) /\
  blocked (Some tag) (reordered tag ps l s).
Proof.
  intros [H E [T1 T2] B] Hl Hps. set (s1 := reordered tag ps l s).
  assert (Hlk : forall t l', locks s1 !! t = Some l' ->
    exists l0, locks s !! t = Some l0 /\ procLocks l' = procLocks l0 /\ waitProcs l' ≡ₚ waitProcs l0 /\
      lock_ok l' (hold s t) (fun q => waitLockMode (procs s q)) (extra_of None t) /\
      (t <> tag -> l' = l0)).
  { intros t l'. unfold s1, reordered. cbn. destruct (decide (t = tag)) as [->|Ht].
    - rewrite lookup_insert_eq. intros [= <-]. exists l. split_and!; try done.
      apply lock_ok_reorder; [apply (wf_lock _ _ H _ _ Hl)|done].
    - rewrite lookup_insert_ne by done. intros Hl'. exists l'. split_and!; try done. by apply (wf_lock _ _ H). }
  assert (Hback : forall t l0 , locks s !! t = Some l0 -> exists l', locks s1 !! t = Some l' /\ waitProcs l' ≡ₚ waitProcs l0).
  { intros t l0 Hl0. unfold s1, reordered. cbn. destruct (decide (t = tag)) as [->|Ht].
    - rewrite lookup_insert_eq. eexists. split; [done|]. cbn. congruence.
    - rewrite lookup_insert_ne by done. by exists l0. }
  split; [|split; [|split]].
  - split; try apply H.
    + intros t l' Hl'. by destruct (Hlk t l' Hl') as (l0 & _ & _ & _ & Hok & _).
    + intros t p Hp. destruct (wf_orphan _ _ H t p Hp) as [l0 Hl0]. destruct (Hback t l0 Hl0) as (l' & -> & _). by eexists.
    + intros t l' p Hl' Hp. destruct (Hlk t l' Hl') as (l0 & Hl0 & _ & Hperm & _). rewrite Hperm in Hp.
      by apply (wf_queue _ _ H t l0).
    + intros p Hp. destruct (wf_links _ _ H p Hp) as (t & l0 & Hl0 & Hin). destruct (Hback t l0 Hl0) as (l' & Hl' & Hperm).
      exists t, l'. split; [done|]. by rewrite Hperm.
    + intros t [l' Hl']. destruct (Hlk t l' Hl') as (l0 & Hl0 & _). apply (wf_method _ _ H). by rewrite Hl0.
    + done.
  - exact E.
  - split.
    + intros t p pl Hpl Hex. destruct (T1 t p pl Hpl Hex) as [?|(l0 & Hl0 & Hp)]; [by left|right].
      destruct (Hback t l0 Hl0) as (l' & Hl' & Hperm). exists l'. split; [done|]. by rewrite Hperm.
    + intros t l' Hl' Hex. destruct (Hlk t l' Hl') as (l0 & Hl0 & -> & _). by apply (T2 t l0).
  - intros t l' ahead p rest Hl' Hex Hq. destruct (Hlk t l' Hl') as (l0 & Hl0 & _ & _ & _ & Heq).
    rewrite (Heq ltac:(congruence)) in Hq. by apply (B t l0 ahead p rest).
Qed.

Lemma sublist_split {A} (k q : list A) pre m post x :
  sublist k q -> k = pre ++ m :: post -> x ∈ pre ->
  exists pre' post', q = pre' ++ m :: post' /\ x ∈ pre'.
Proof.
  intros Hs. revert pre. induction Hs as [|y k q Hs IH|y k q Hs IH]; intros pre E Hx.
  - by destruct pre.
  - destruct pre as [|z pre]; [by apply elem_of_nil in Hx|]. injection E as -> E.
    apply elem_of_cons in Hx as [->|Hx].
    + assert (Hm : m ∈ q).
      { eapply elem_of_submseteq; [|by apply sublist_submseteq]. rewrite E. apply elem_of_app. right. constructor. }
      apply list_elem_of_split in Hm as (p1 & p2 & ->). exists (z :: p1), p2. split; [done|constructor].
    + destruct (IH pre E Hx) as (p1 & p2 & -> & Hin). exists (z :: p1), p2. split; [done|by constructor].
  - destruct (IH pre E Hx) as (p1 & p2 & -> & Hin). exists (y :: p1), p2. split; [done|by constructor].
Qed.

(** Every edge after a rearrangement and the wakeups was there before, in the
    configuration with that rearrangement. *)
Lemma apply_edge w wo s l s2 a b e i :
  good s -> locks s !! wo_lock w = Some l -> wo_procs w ≡ₚ waitProcs l ->
  let s1 := reordered (wo_lock w) (wo_procs w) l s in
  wf None s1 -> wakes (wo_lock w) s1 s2 -> fair (wo_lock w) s1 s2 -> good s2 ->
  find_order wo (wo_lock w) = None ->
  edge s2 wo a b e i -> exists e' i', edge s (w :: wo) a b e' i'.
Proof.
  intros G Hl Hperm s1 H1 W F G2 Hnone (p & Hpa & Hb). set (tag := wo_lock w) in *.
  pose proof (good_wf _ G2) as H2.
  assert (Hld : forall q, leader_of s2 q = leader_of s q).
  { intros q. unfold leader_of. destruct (wk_proc _ _ _ W q) as [->|(_ & _ & ->)]; done. }
  assert (Hq1 : queue_of s1 tag = wo_procs w) by (unfold s1; rewrite reordered_queue; by rewrite bool_decide_eq_true_2).
  assert (Hord1 : order_of s (w :: wo) tag = wo_procs w).
  { unfold order_of. cbn [find_order]. by rewrite bool_decide_eq_true_2. }
  assert (Hlk1 : is_Some (locks s1 !! tag)) by (unfold s1, reordered; cbn; rewrite lookup_insert_eq; by eexists).
  assert (Hwait : forall q t, waits (procs s2 q) t q -> procs s2 q = procs s q).
  { intros q t Wt. destruct (wk_proc _ _ _ W q) as [->|(_ & _ & E)]; [done|].
    pose proof (wt_links _ _ _ Wt) as Hlinks. by rewrite E in Hlinks. }
  assert (Hmode : forall q, waitLockMode (procs s2 q) = waitLockMode (procs s q)).
  { intros q. destruct (wk_proc _ _ _ W q) as [->|(_ & _ & ->)]; done. }
  destruct Hb as [t q m Wt Hq Hne Hm Hh Hc|t q pre m post Wt Hq Hne Ho Hmm Hin Hc].
  - pose proof (Hwait p t Wt) as Ep. rewrite Ep in Wt, Hc. rewrite Hld in Hq, Hne, Hpa.
    apply (wk_hold _ _ _ W) in Hh as [Hh|(-> & Hq1in & Hq2 & ->)].
    + exists None. eexists. exists p. split; [done|]. eapply (hard_edge s (w :: wo) p b t q m); done.
    + change (procs s1 q) with (procs s q) in *.
      assert (Hpin : p ∈ queue_of s2 tag).
      { destruct (waits_lock s2 H2 p tag) as (l2 & Hl2 & Hp2); [by rewrite Ep|]. by rewrite (queue_of_Some _ _ _ Hl2). }
      pose proof (wakes_queue tag s1 s2 p Hlk1 W Hpin) as Hp1. pose proof Hp1 as Hp1'.
      apply list_elem_of_split in Hp1 as (pre & post & Eq). rewrite Eq in Hq1in.
      assert (Hpq : p <> q) by congruence.
      apply elem_of_app in Hq1in as [Hqpre|[Hqp|Hqpost]%elem_of_cons]; [|by destruct Hpq|].
      * exists (Some (MkEDGE (leader_of s p) b tag)). eexists. exists p. split; [done|].
        eapply (soft_edge s (w :: wo) p b tag q pre p post); try done. by rewrite Hord1, <- Hq1.
      * exfalso. apply list_elem_of_split in Hqpost as (m1 & m2 & ->).
        pose proof (F (pre ++ p :: m1) q m2 p) as Hf. change (procs s1) with (procs s) in Hf.
        rewrite DoLockModesConflict_sym in Hc; [|destruct (waits_lock s (good_wf _ G) p tag Wt) as (l0 & Hl0 & Hp0);
          by apply (lo_wait _ _ _ _ (wf_lock _ _ (good_wf _ G) _ _ Hl0))|done].
        rewrite Hf in Hc; [done| |done| |done].
        -- by rewrite Eq, <- app_assoc.
        -- apply elem_of_app. right. constructor.
  - pose proof (Hwait p t Wt) as Ep. rewrite Ep in Wt, Hc. rewrite Hmode in Hc. rewrite Hld in Hq, Hne, Hpa. rewrite !Hld in Hmm.
    assert (Hgoal : exists pre' post', order_of s (w :: wo) t = pre' ++ m :: post' /\ q ∈ pre').
    { unfold order_of in Ho |- *. cbn [find_order]. fold tag. destruct (decide (t = tag)) as [->|Ht].
      - rewrite bool_decide_eq_true_2 by done. rewrite Hnone in Ho. cbn in Ho |- *.
        destruct Hlk1 as [l1 Hl1]. destruct (wk_lock _ _ _ W l1 Hl1) as (l2 & Hl2 & _ & Hsub).
        rewrite (queue_of_Some _ _ _ Hl2) in Ho. rewrite (queue_of_Some _ _ _ Hl1) in Hq1. rewrite Hq1 in Hsub.
        by eapply sublist_split.
      - rewrite bool_decide_eq_false_2 by congruence. exists pre, post. split; [|done]. rewrite <- Ho.
        f_equal. unfold queue_of. rewrite (wk_locks _ _ _ W) by done. unfold s1, reordered. cbn.
        by rewrite lookup_insert_ne. }
    destruct Hgoal as (pre' & post' & Ho' & Hin').
    eexists (Some _), _. exists p. split; [done|]. by eapply (soft_edge s (w :: wo) p b t q pre' m post').
Qed.

(** What the application of wait orders may do. *)
Record rearranged (ts : list LOCKTAG) (s s' : shared) : Prop := {
  ra_grows : grows s s';
  ra_locks : forall t, t ∉ ts -> locks s' !! t = locks s !! t;
  ra_queue : forall t q, q ∈ queue_of s' t -> q ∈ queue_of s t;
  ra_proc : forall q, procs s' q = procs s q \/ procs s' q = woken (procs s q);
  ra_waiter : forall t q, q ∈ queue_of s t ->
    q ∈ queue_of s' t \/ holdb (hold s' t q) (waitLockMode (procs s q)) = true }.

Lemma rearranged_step w s l s2 :
  locks s !! wo_lock w = Some l -> wo_procs w ≡ₚ waitProcs l ->
  wakes (wo_lock w) (reordered (wo_lock w) (wo_procs w) l s) s2 -> rearranged [wo_lock w] s s2.
Proof.
  intros Hl Hperm W. set (tag := wo_lock w) in *. set (s1 := reordered _ _ _ _) in *.
  assert (Hlk1 : is_Some (locks s1 !! tag)) by (unfold s1, reordered; cbn; rewrite lookup_insert_eq; by eexists).
  assert (Hqueue : forall t q, q ∈ queue_of s1 t <-> q ∈ queue_of s t).
  { intros t q. unfold s1. rewrite reordered_queue. case_bool_decide as Ht; [|done].
    by rewrite Ht, (queue_of_Some _ _ _ Hl), Hperm. }
  assert (Hother : forall t, t <> tag -> locks s2 !! t = locks s !! t).
  { intros t Ht. rewrite (wk_locks _ _ _ W) by done. unfold s1, reordered. cbn. by rewrite lookup_insert_ne. }
  split.
  - destruct (wk_grows _ _ _ W) as [g1 g2]. by split.
  - intros t Ht. apply Hother. intros ->. apply Ht. constructor.
  - intros t q Hq. destruct (decide (t = tag)) as [->|Ht].
    + apply Hqueue. by eapply wakes_queue.
    + unfold queue_of in Hq |- *. by rewrite Hother in Hq.
  - intros q. destruct (wk_proc _ _ _ W q) as [E|(_ & _ & E)]; [left|right]; exact E.
  - intros t q Hq. destruct (decide (t = tag)) as [->|Ht].
    + destruct (decide (q ∈ queue_of s2 tag)) as [|Hn]; [by left|right].
      apply Hqueue in Hq. by destruct (wk_woken _ _ _ W q Hq Hn) as [Hh _].
    + left. unfold queue_of in Hq |- *. by rewrite Hother.
Qed.

Lemma rearranged_trans ts us s1 s2 s3 :
  rearranged ts s1 s2 -> rearranged us s2 s3 -> rearranged (ts ++ us) s1 s3.
Proof.
  intros [A1 A2 A3 A4 A5] [B1 B2 B3 B4 B5].
  assert (Hmode : forall q, waitLockMode (procs s2 q) = waitLockMode (procs s1 q)).
  { intros q. by destruct (A4 q) as [->| ->]. }
  split.
  - by eapply grows_trans.
  - intros t [H1 H2]%not_elem_of_app. by rewrite B2, A2.
  - intros t q Hq. by apply A3, B3.
  - intros q. destruct (A4 q) as [E1|E1], (B4 q) as [E2|E2]; rewrite E2, E1; auto.
  - intros t q Hq. destruct (A5 t q Hq) as [Hq2|Hh]; [rewrite <- Hmode; by apply B5|].
    right. by apply (gr_hold _ _ B1).
Qed.

Lemma apply_orders_spec wo : forall s,
  good s -> orders_ok s wo -> NoDup (wo_lock <$> wo) ->
  (forall w, w ∈ wo -> exists l, locks s !! wo_lock w = Some l /\ wo_procs w ≡ₚ waitProcs l) ->
  exists s', apply_orders MyProc wo s = Some s' /\ good s' /\ rearranged (wo_lock <$> wo) s s' /\
    forall a b e i, edge s' [] a b e i -> exists e' i', edge s wo a b e' i'.
Proof.
  induction wo as [|w wo IH]; intros s G O Hnd Hlocks; cbn [apply_orders].
  - exists s. split; [done|]. split; [done|]. split; [|by intros a b e i; exists e, i].
    split; [by split|done..|by left|by left].
  - cbn [fmap list_fmap] in Hnd. apply NoDup_cons in Hnd as [Hw Hnd].
    destruct (Hlocks w (list_elem_of_here _ _)) as (l & Hl & Hperm). rewrite Hl. cbn [mbind option_bind].
    rewrite bool_decide_eq_true_2 by (by apply Permutation_length).
    destruct (reordered_inv s (wo_lock w) l (wo_procs w) G Hl Hperm) as (H1 & E1 & T1 & B1).
    fold (reordered (wo_lock w) (wo_procs w) l s).
    destruct (ProcLockWakeup_spec MyProc (wo_lock w) (reordered (wo_lock w) (wo_procs w) l s))
      as (s2 & -> & G2 & W & F); [done..|unfold reordered; cbn; rewrite lookup_insert_eq; by eexists|].
    cbn [mbind option_bind].
    pose proof (rearranged_step w s l s2 Hl Hperm W) as R.
    assert (Hnone : find_order wo (wo_lock w) = None) by (by apply find_order_None).
    assert (Hsame : forall t, t <> wo_lock w -> locks s2 !! t = locks s !! t).
    { intros t Ht. apply (ra_locks _ _ _ R). by intros ?%list_elem_of_singleton. }
    destruct (IH s2) as (s' & -> & G' & R' & Hedge); [done| |done| |].
    + intros t q Hf. assert (Ht : t <> wo_lock w) by congruence.
      destruct (O t q) as [P1 P2]; [cbn [find_order]; by rewrite bool_decide_eq_false_2|]. split.
      * unfold queue_of. rewrite Hsame by done. exact P1.
      * intros i j k x y z Hijk Hi Hj Hk. rewrite !(gr_leader _ _ (ra_grows _ _ _ R)). by apply (P2 i j k x y z).
    + intros v Hv. destruct (Hlocks v) as (l' & Hl' & Hp'); [by constructor|]. exists l'. split; [|done].
      rewrite Hsame; [done|]. intros E. apply Hw. rewrite <- E. by apply list_elem_of_fmap_2.
    + exists s'. split; [done|]. split; [done|]. split; [exact (rearranged_trans _ _ _ _ _ R R')|].
      intros a b e i He. destruct (Hedge a b e i He) as (e1 & i1 & He1).
      by eapply (apply_edge w wo s l s2).
Qed.

Lemma deadlocked_edges s s' wo wo' p :
  (forall q, leader_of s' q = leader_of s q) ->
  (forall a b e i, edge s' wo' a b e i -> exists e' i', edge s wo a b e' i') ->
  deadlocked s' wo' p -> deadlocked s wo p.
Proof.
  intros Hld Hedge (es & ls & P). rewrite Hld in P.
  assert (Hgen : forall a b es ls, path s' wo' a b es ls -> exists es' ls', path s wo a b es' ls').
  { induction 1 as [a b e i He|a b c e i es' ls' He _ IH].
    - destruct (Hedge _ _ _ _ He) as (e' & i' & He'). eexists _, _. by apply path_one.
    - destruct (Hedge _ _ _ _ He) as (e' & i' & He'). destruct IH as (es1 & ls1 & P1).
      eexists _, _. by eapply path_cons. }
  by apply Hgen in P.
Qed.


(** ** Blocking autovacuum workers *)

(** [q] is an autovacuum worker that holds a lock that [MyProc] waits for. *)
Definition autovac_blocks (s : shared) (q : nat) : Prop :=
  exists tag m, waits (procs s MyProc) tag MyProc /\ m ∈ lockmodes /\ holdb (hold s tag q) m = true /\
    DoLockModesConflict (waitLockMode (procs s MyProc)) m = true /\ leader_of s q <> leader_of s MyProc /\
    Z.land (vacuumFlags (procs s q)) PROC_IS_AUTOVACUUM <> 0.

Definition autovac_ok (s : shared) (d : dstate) : Prop :=
  forall q, blocking_autovacuum_proc d = Some q -> autovac_blocks s q.

Section Autovac.
Context (s : shared) (H : wf None s) (wo : list WAIT_ORDER).

Definition keeps (f : dstate -> option (bool * dstate)) : Prop :=
  forall d r d', autovac_ok s d -> f d = Some (r, d') -> autovac_ok s d'.

Lemma keeps_scan {A} (f : A -> dstate -> option (bool * dstate)) xs :
  (forall x, x ∈ xs -> keeps (f x)) -> keeps (scan_until f xs).
Proof.
  induction xs as [|x xs IH]; intros Hf d r d' Hd; cbn [scan_until]; [by intros [= <- <-]|].
  destruct (f x d) as [[r1 d1]|] eqn:E; [|done]. cbn [mbind option_bind].
  pose proof (Hf x (list_elem_of_here _ _) d r1 d1 Hd E) as H1.
  destruct r1; [by intros [= <- <-]|]. apply IH; [|done]. intros y Hy. apply Hf. by constructor.
Qed.

Lemma keeps_member rec p depth :
  (forall q k, keeps (rec q k)) -> is_waiting s p = true ->
  keeps (FindLockCycleRecurseMember MaxBackends MyProc s wo rec p (leader_of s p) depth).
Proof.
  intros Hrec Hp d r d' Hd. destruct (waiting_waits s H p Hp) as (tag & l & Hl & Hin & W).
  unfold FindLockCycleRecurseMember. rewrite (wt_lock _ _ _ W). cbn [mbind option_bind]. rewrite Hl. cbn [mbind option_bind].
  destruct (scan_until _ (procLocks l) d) as [[r1 d1]|] eqn:E1; [|done]. cbn [mbind option_bind].
  assert (H1 : autovac_ok s d1).
  { eapply keeps_scan; [|exact Hd|exact E1]. intros q _ e r0 e' He. unfold check_holder.
    destruct (proclocks s !! (tag, q)) as [pl|] eqn:Epl; [|done]. cbn [mbind option_bind].
    destruct (_ && _) eqn:Ec; [|by intros [= <- <-]].
    destruct (rec q (S depth) e) as [[r2 e2]|] eqn:E2; [|done]. cbn [mbind option_bind].
    pose proof (Hrec q (S depth) e r2 e2 He E2) as H2.
    destruct r2; [by intros [= <- <-]|]. intros [= <- <-].
    destruct (bool_decide (p = MyProc) && _) eqn:Ef; [|done].
    intros q' [= <-]. apply andb_true_iff in Ef as [->%bool_decide_eq_true Ef%negb_true_iff%Z.eqb_neq].
    apply andb_true_iff in Ec as [Hne%bool_decide_eq_true Hc].
    apply hard_conflict_spec in Hc as (m & Hm & Hh & Hx); [|by apply (lo_wait _ _ _ _ (wf_lock _ _ H _ _ Hl))].
    exists tag, m. rewrite (hold_Some _ _ _ _ Epl). done. }
  destruct r1; [by intros [= <- <-]|].
  destruct (procs_ahead s wo p (leader_of s p) tag l) as [ahead|]; [|done]. cbn [mbind option_bind].
  apply keeps_scan; [|done]. intros q _ e r0 e' He. unfold check_ahead. destruct (_ && _); [|by intros [= <- <-]].
  destruct (rec q (S depth) e) as [[r2 e2]|] eqn:E2; [|done]. cbn [mbind option_bind].
  pose proof (Hrec q (S depth) e r2 e2 He E2) as H2. destruct r2; [|by intros [= <- <-]].
  cbn [softEdges note_details set_details]. destruct (_ <? _)%nat; [|done]. by intros [= <- <-].
Qed.

Lemma keeps_recurse fuel : forall q depth, keeps (FindLockCycleRecurse MaxBackends MyProc s wo fuel q depth).
Proof.
  induction fuel as [|fuel IH]; intros q depth d r d' Hd; [done|]. rewrite FindLockCycleRecurse_S.
  case_bool_decide; [destruct (_ <=? _)%nat; [|done]; by intros [= <- <-]|].
  case_bool_decide; [by intros [= <- <-]|]. destruct (_ <? _)%nat; [|done]. unfold search_from.
  set (v := leader_of s q). assert (Hv : leader_of s v = v) by (by apply leader_idem).
  destruct (if is_waiting s v then _ else _) as [[r1 d1]|] eqn:E1; [|done]. cbn [mbind option_bind].
  assert (Hd1 : autovac_ok s d1).
  { destruct (is_waiting s v) eqn:Ew; [|by injection E1 as <- <-].
    rewrite <- Hv in E1 at 2. eapply keeps_member; [exact IH|done| |exact E1]. done. }
  destruct r1; [by intros [= <- <-]|]. apply keeps_scan; [|done].
  intros p Hp%(wf_members _ _ H) e r0 e' He. destruct (is_waiting s p) eqn:Ew; cbn [andb]; [|by intros [= <- <-]].
  case_bool_decide; [|by intros [= <- <-]]. intros E2.
  assert (Hpv : leader_of s p = v) by (unfold leader_of; by rewrite Hp).
  rewrite <- Hpv in E2. eapply keeps_member; [exact IH|done|exact He|exact E2].
Qed.

Lemma FindLockCycle_autovac p d r d' :
  autovac_ok s d -> FindLockCycle MaxBackends MyProc s wo p d = Some (r, d') -> autovac_ok s d'.
Proof. intros Hd. by apply keeps_recurse. Qed.
End Autovac.

Lemma test_procs_autovac s ps : wf None s -> forall n w r w',
  autovac_ok s (found w) -> test_procs MaxBackends MyProc s ps n w = Some (r, w') -> autovac_ok s (found w').
Proof.
  intros H. induction ps as [|p ps IH]; intros n w r w' Hw; cbn [test_procs]; [by intros [= <- <-]|].
  destruct (FindLockCycle _ _ _ _ _ _) as [[r1 d1]|] eqn:E; [|done]. cbn [mbind option_bind].
  pose proof (FindLockCycle_autovac s H _ _ _ _ _ Hw E) as H1.
  destruct r1; [|by apply IH]. case_bool_decide; [by intros [= <- <-]|by apply IH].
Qed.

Lemma TestConfiguration_autovac s p cur w r w' :
  wf None s -> autovac_ok s (found w) ->
  TestConfiguration MaxBackends MyProc s p cur w = Some (r, w') -> autovac_ok s (found w').
Proof.
  intros H Hw. unfold TestConfiguration. case_bool_decide; [by intros [= <- <-]|].
  destruct (ExpandConstraints _ _ _) as [[r1 wo]|]; [|done]. cbn [mbind option_bind].
  destruct r1; [by apply test_procs_autovac|by intros [= <- <-]].
Qed.

Lemma try_edges_autovac s p rec cur n old saved ixs : wf None s ->
  (forall cur w r w', autovac_ok s (found w) -> rec cur w = Some (r, w') -> autovac_ok s (found w')) ->
  forall w r w', autovac_ok s (found w) ->
    try_edges MaxBackends MyProc rec s p cur n old saved ixs w = Some (r, w') -> autovac_ok s (found w').
Proof.
  intros H Hrec. induction ixs as [|i ixs IH]; intros w r w' Hw; cbn [try_edges]; [by intros [= <- <-]|].
  destruct (if negb saved && _ then _ else _) as [w1|] eqn:E1; [|done]. cbn [mbind option_bind].
  assert (H1 : autovac_ok s (found w1)).
  { destruct (negb saved && _); [|by injection E1 as <-].
    destruct (TestConfiguration _ _ _ _ _ _) as [[m w2]|] eqn:E2; [|done]. cbn [mbind option_bind] in E1.
    destruct (m =? n); [|done]. injection E1 as <-. by eapply TestConfiguration_autovac. }
  destruct (rec _ w1) as [[r2 w2]|] eqn:E2; [|done]. cbn [mbind option_bind].
  pose proof (Hrec _ _ _ _ H1 E2) as H2. destruct r2; [by apply IH|by intros [= <- <-]].
Qed.

Lemma DeadLockCheckRecurse_autovac s p fuel : wf None s -> forall cur w r w',
  autovac_ok s (found w) -> DeadLockCheckRecurse MaxBackends MyProc fuel s p cur w = Some (r, w') ->
  autovac_ok s (found w').
Proof.
  intros H. induction fuel as [|fuel IH]; intros cur w r w' Hw; cbn [DeadLockCheckRecurse]; [done|].
  destruct (TestConfiguration _ _ _ _ _ _) as [[n w1]|] eqn:E1; [|done]. cbn [mbind option_bind].
  pose proof (TestConfiguration_autovac s p cur w n w1 H Hw E1) as H1.
  destruct (n <? 0); [by intros [= <- <-]|]. destruct (n =? 0); [by intros [= <- <-]|].
  case_bool_decide; [by intros [= <- <-]|]. apply try_edges_autovac; [done|exact IH|]. by case_bool_decide.
Qed.

(** ** The whole check *)

Definition report_ok (s : shared) (p : nat) (w : work) : Prop :=
  exists es, path s [] (leader_of s p) (leader_of s p) es
    (deadlockDetails (found w) <$> seq 0 (nDeadlockDetails (found w))).

(** What each answer of [DeadLockCheck] means. *)
Definition answer_ok (s : shared) (p : nat) (st : DeadLockState) (s' : shared) (w' : work) : Prop :=
  match st with
  | DS_HARD_DEADLOCK => s' = s /\ deadlocked s [] p /\ report_ok s p w' /\
      (few_constraints MaxBackends s -> hopeless s [])
  | DS_SOFT_DEADLOCK => deadlocked s [] p /\ ~ deadlocked s' [] p /\
      exists ts, ts <> [] /\ rearranged ts s s'
  | DS_BLOCKED_BY_AUTOVACUUM => s' = s /\ ~ deadlocked s [] p /\
      exists q, blocking_autovacuum_proc (found w') = Some q /\ autovac_blocks s q
  | DS_NO_DEADLOCK => s' = s /\ ~ deadlocked s [] p
  | DS_NOT_YET_CHECKED => False
  end.

Lemma DeadLockCheck_spec p s w :
  good s -> fits MaxBackends s -> links (procs s p) = true ->
  exists st s' w', DeadLockCheck MaxBackends MyProc p s w = Some (st, s', w') /\ good s' /\
    answer_ok s p st s' w'.
Proof.
  intros G Hfits Hp. pose proof (good_wf _ G) as H. pose proof (waiter_in_graph s H p Hp) as Hg.
  unfold DeadLockCheck. set (w0 := MkWork _ _ _ _).
  destruct (DeadLockCheckRecurse_spec MaxBackends MyProc s H Hfits (S (S MaxBackends)) p Hg [] w0) as (hard & w1 & E1 & S1).
  { intros c Hc. by apply elem_of_nil in Hc. } { cbn. lia. }
  { unfold has_room. cbn. unfold maxPossibleConstraints. lia. }
  rewrite E1. cbn [mbind option_bind]. destruct S1 as [_ _ Hsoft Hbad Hhard]. destruct hard.
  - specialize (Hbad (or_introl eq_refl) eq_refl). destruct Hfits as [(L & HL & Hlen) _].
    assert (HpL : leader_of s p ∈ L) by (destruct Hg as (t & q & Hq & <-); by apply (HL t)).
    destruct (FindLockCycle_spec MaxBackends MyProc s [] L p (found w1) H) as (r & d & -> & Hr); try done.
    cbn [mbind option_bind]. destruct r; [|by destruct Hr as [_ Hr]]. destruct Hr as [P _].
    eexists _, _, _. split; [done|]. split; [done|]. split; [done|]. split; [done|].
    split; [by exists (softEdges d)|]. intros Hfew. by apply Hhard; [|apply NoDup_nil_2|].
  - destruct (Hsoft eq_refl) as (cur & Hcur & O & Hnd & Hnil).
    destruct (apply_orders_spec (waitOrders w1) s G (of_ok _ _ _ O) (of_nodup _ _ _ O)) as (s' & E & G' & R & Hedge).
    { intros v Hv. by eapply orders_for_locks. }
    rewrite E. cbn [mbind option_bind]. eexists _, _, _. split; [done|]. split; [done|].
    destruct (decide (waitOrders w1 = [])) as [Enil|Hne].
    + assert (s' = s) as -> by (rewrite Enil in E; by injection E).
      rewrite bool_decide_eq_false_2 by (intros Hx; by apply Hx). rewrite Enil in Hnd.
      assert (Hav : autovac_ok s (found w1)) by (by eapply DeadLockCheckRecurse_autovac; [done| |exact E1]).
      case_bool_decide as Hb; [|done]. split; [done|]. split; [done|].
      destruct (blocking_autovacuum_proc (found w1)) as [q|] eqn:Eq; [|done]. exists q. split; [done|by apply Hav].
    + rewrite bool_decide_eq_true_2 by done. split; [apply Hbad; [by right|done]|]. split.
      * intros Hd. apply Hnd. eapply deadlocked_edges; [|exact Hedge|exact Hd]. apply (ra_grows _ _ _ R).
      * exists (wo_lock <$> waitOrders w1). split; [|done]. by destruct (waitOrders w1).
Qed.

(** ** The check on a lock timeout *)

(** What [CheckDeadLock] does to a process that waits: a deadlock that cannot
    be resolved takes the process out of the queue with an error, and it keeps
    the locks that it holds. *)
Definition checked (s : shared) (st : DeadLockState) (s' : shared) (w' : work) : Prop :=
  match st with
  | DS_HARD_DEADLOCK => deadlocked s [] MyProc /\ report_ok s MyProc w' /\
      (few_constraints MaxBackends s -> hopeless s []) /\
      links (procs s' MyProc) = false /\ waitStatus (procs s' MyProc) = STATUS_ERROR /\
      (exists tag, MyProc ∈ queue_of s tag /\ effect tag (Some MyProc) s s') /\
      forall t i, holdb (hold s' t MyProc) i = holdb (hold s t MyProc) i
  | _ => answer_ok s MyProc st s' w'
  end.

Lemma CheckDeadLock_spec st0 s w :
  good s -> fits MaxBackends s ->
  exists st s' w', CheckDeadLock MaxBackends MyProc st0 s w = Some (st, s', w') /\ good s' /\
    if links (procs s MyProc) then checked s st s' w' else st = st0 /\ s' = s /\ w' = w.
Proof.
  intros G Hfits. unfold CheckDeadLock. destruct (links (procs s MyProc)) eqn:El; [|by exists st0, s, w].
  destruct (DeadLockCheck_spec MyProc s w G Hfits El) as (st & s' & w' & -> & G' & Hans). cbn [mbind option_bind].
  case_bool_decide as Hst; [subst st|by exists st, s', w'; destruct st].
  destruct Hans as (-> & Hdead & Hrep & Hless).
  destruct (wf_links _ _ (good_wf _ G) _ El) as (tag & l & Hl & Hin).
  pose proof (wf_queue _ _ (good_wf _ G) _ _ _ Hl Hin) as W.
  rewrite (bool_decide_eq_true_2 (waitLock (procs s MyProc) <> None)) by (by rewrite (wt_lock _ _ _ W)).
  destruct (RemoveFromWaitQueue_spec MyProc MyProc tag l s (good_wf _ G) (good_excl _ G) (good_tidy _ G)
    (blocked_weaken tag s (good_blocked _ G)) Hl Hin) as (s1 & -> & G1 & Ef & Eh & mine & Ep).
  cbn [mbind option_bind]. exists DS_HARD_DEADLOCK, s1, w'. split; [done|]. split; [done|].
  split; [done|]. split; [done|]. split; [done|]. rewrite Ep. split; [done|]. split; [done|].
  split; [exists tag; split; [by rewrite (queue_of_Some _ _ _ Hl)|exact Ef]|exact Eh].
Qed.

End Hash.

End DeadlockProofs.
