(* ===== verification/LockRuns.v ===== *)
(** * Runs of the lock manager

    The critical sections of [lock.c] and [proc.c] as steps of the shared lock
    table, interleaved in any order from start-up on, and what holds in every
    state that such a run reaches. *)

From S2P Require Import Prelude.
From S2P Require Import Lock.
From S2P Require Import LockInv.
From S2P Require Import LockOps.
From S2P Require Import Deadlock.
From S2P Require Import DeadlockOrders.
From S2P Require Import DeadlockProofs.
From stdpp Require Import list.

Import Lock LockInv LockOps Deadlock DeadlockOrders DeadlockProofs.

Open Scope Z_scope.

Module LockRuns.

(** ** Steps *)

(** The state after [InitLocks] and [InitProcGlobal]. *)
Definition idle : PGPROC :=
  MkPGPROC false STATUS_OK None None 0 0 0 0 0 None [] (fun _ => []) 0 [].
Definition InitLocks : shared := MkShared ∅ ∅ (fun _ => idle).

(** The first pass of [LockReleaseAll]: a lock that the process holds is
    marked for release ([releaseMask |= LOCKBIT_ON(mode)]), which needs no
    partition lock because only its owner uses the field. *)
Definition mark_release (MyProc : nat) (tag : LOCKTAG) (lockmode : Z) (s : shared) : option shared :=
  pl ← proclocks s !! (tag, MyProc);
  Some (put_proclock (tag, MyProc)
          (set_releaseMask (Z.lor (releaseMask pl) (LOCKBIT_ON lockmode)) pl) s).

Section Runs.
Context {lockhash : LockHash}.

(** A process asks for, releases and marks locks while it is not asleep; the
    table of its own locks keeps it from asking twice for a lock it holds. *)
Inductive step (s s' : shared) : Prop :=
  | step_acquire p room tag m dontWait r :
      m ∈ lockmodes -> 0 < locktag_lockmethodid tag < 3 -> links (procs s p) = false ->
      holdb (hold s tag p) m = false ->
      LockAcquire_locked room p tag m dontWait s = Some (r, s') -> step s s'
  | step_release p tag m b :
      m ∈ lockmodes -> links (procs s p) = false -> is_Some (proclocks s !! (tag, p)) ->
      LockRelease_locked p tag m s = Some (b, s') -> step s s'
  | step_refind me p tag m :
      m ∈ lockmodes -> links (procs s p) = false -> is_Some (proclocks s !! (tag, p)) ->
      LockRefindAndRelease me p tag m s = Some s' -> step s s'
  | step_mark p tag m :
      m ∈ lockmodes -> holdb (hold s tag p) m = true -> mark_release p tag m s = Some s' -> step s s'
  | step_release_all p method allLocks part :
      links (procs s p) = false ->
      (forall t pl, proclocks s !! (t, p) = Some pl -> release_ok pl) ->
      LockReleaseAll_partition p method allLocks part s = Some s' -> step s s'
  | step_error p b : LockErrorCleanup_locked p s = Some (b, s') -> step s s'
  | step_leader p :
      lockGroupLeader (procs s p) = None \/ lockGroupLeader (procs s p) = Some p ->
      BecomeLockGroupLeader p s = Some s' -> step s s'
  | step_member p ldr pid b :
      p <> ldr -> lockGroupLeader (procs s p) = None -> pid <> 0 -> no_proclocks (procs s p) = true ->
      BecomeLockGroupMember p ldr pid s = Some (b, s') -> step s s'
  | step_init p pid flags :
      links (procs s p) = false -> InitProcess p pid flags s = Some s' -> step s s'
  | step_kill p freed :
      links (procs s p) = false ->
      (lockGroupLeader (procs s p) = Some p -> lockGroupMembers (procs s p) = [p]) ->
      ProcKill p s = Some (freed, s') -> step s s'
  | step_check MaxBackends p st0 st w w' :
      fits MaxBackends s -> CheckDeadLock MaxBackends p st0 s w = Some (st, s', w') -> step s s'.

Inductive reachable : shared -> Prop :=
  | reach_init : reachable InitLocks
  | reach_step s s' : reachable s -> step s s' -> reachable s'.

(** ** Lemmas *)

Lemma good_init : good InitLocks.
Proof.
  assert (Hl : forall t l, locks InitLocks !! t = Some l -> False) by (intros t l; cbn; by rewrite lookup_empty).
  assert (Hp : forall k pl, proclocks InitLocks !! k = Some pl -> False) by (intros k pl; cbn; by rewrite lookup_empty).
  split.
  - split; try done.
    + intros t p [pl Hx]. by destruct (Hp _ pl Hx).
    + intros p part t. cbn. rewrite elem_of_nil, lookup_empty. split; [done|]. by intros [_ [? ?]].
    + intros p part. constructor.
    + intros g p. cbn. by rewrite elem_of_nil.
    + intros t [l Hx]. by destruct (Hl t l).
  - intros t p q m m' _ _ _ Hh. unfold hold in Hh. cbn in Hh. by rewrite lookup_empty in Hh.
  - split; [intros t p pl Hx; by destruct (Hp _ pl Hx)|intros t l Hx; by destruct (Hl t l)].
  - intros t l ahead p rest Hx. by destruct (Hl t l).
Qed.

Lemma LockHashPartition_range h : In (LockHashPartition h) partitions.
Proof.
  apply list_elem_of_In, elem_of_seqZ. unfold LockHashPartition.
  pose proof (Z.mod_pos_bound h NUM_LOCK_PARTITIONS eq_refl). lia.
Qed.

Lemma no_proclocks_spec s p :
  wf None s -> no_proclocks (procs s p) = true <-> forall t, proclocks s !! (t, p) = None.
Proof.
  intros H. unfold no_proclocks. rewrite forallb_forall. split.
  - intros Hn t. destruct (proclocks s !! (t, p)) as [pl|] eqn:E; [|done].
    assert (Ht : t ∈ myProcLocks (procs s p) (partition_of t)) by (apply (wf_mine _ _ H); by rewrite E).
    specialize (Hn _ (LockHashPartition_range (LockTagHashCode t))).
    apply bool_decide_eq_true in Hn. unfold partition_of in Ht. rewrite Hn in Ht. by apply elem_of_nil in Ht.
  - intros Hn part _. apply bool_decide_eq_true_2, elem_of_nil_inv. intros t Ht.
    apply (wf_mine _ _ H) in Ht as [_ Ht]. rewrite Hn in Ht. by destruct Ht.
Qed.

Lemma mark_release_good p tag m s s' :
  good s -> m ∈ lockmodes -> mark_release p tag m s = Some s' -> good s'.
Proof.
  intros G Hm. unfold mark_release. destruct (proclocks s !! (tag, p)) as [pl|] eqn:Hpl; [|done].
  cbn [mbind option_bind]. intros [= <-]. pose proof (good_wf _ G) as H.
  destruct (wf_orphan _ _ H tag p) as [l Hl]; [by rewrite Hpl|]. by eapply good_release_mask.
Qed.

(** What a process does to its own PGPROC while it has no locks. *)
Lemma good_own p x s :
  good s -> (forall t, proclocks s !! (t, p) = None) -> links (procs s p) = false ->
  links x = false -> myProcLocks x = myProcLocks (procs s p) ->
  lockGroupLeader x = lockGroupLeader (procs s p) ->
  lockGroupMembers x = lockGroupMembers (procs s p) -> waitLockMode x = waitLockMode (procs s p) ->
  good (put_proc p x s).
Proof.
  intros G Hno Hl Hxl Hm Hg Hgm Hw. pose proof (good_wf _ G) as H.
  set (s' := put_proc p x s).
  assert (Hp : procs s' p = x) by apply fn_lookup_insert.
  assert (Hq : forall q, q <> p -> procs s' q = procs s q) by (intros; by apply fn_lookup_insert_ne).
  assert (Hgl : forall q, lockGroupLeader (procs s' q) = lockGroupLeader (procs s q)).
  { intros q. destruct (decide (q = p)) as [->|]; [by rewrite Hp|by rewrite Hq]. }
  assert (Hgms : forall q, lockGroupMembers (procs s' q) = lockGroupMembers (procs s q)).
  { intros q. destruct (decide (q = p)) as [->|]; [by rewrite Hp|by rewrite Hq]. }
  assert (Hld : forall q, leader_of s' q = leader_of s q) by (intros q; unfold leader_of; by rewrite Hgl).
  assert (Hwm : forall q, waitLockMode (procs s' q) = waitLockMode (procs s q)).
  { intros q. destruct (decide (q = p)) as [->|]; [by rewrite Hp|by rewrite Hq]. }
  apply (good_procs s); try done. split; try done; try apply H.
  - intros t l Hl'. apply (wf_lock _ _ H) in Hl'. eapply lock_ok_ext; [..|exact Hl']; done.
  - intros t l q Hl' Hin. pose proof (wf_queue _ _ H t l q Hl' Hin) as W.
    destruct (decide (q = p)) as [->|]; [|by rewrite Hq]. destruct W; congruence.
  - intros q. destruct (decide (q = p)) as [->|]; [by rewrite Hp, Hxl|]. rewrite Hq by done. apply (wf_links _ _ H).
  - intros q part t. destruct (decide (q = p)) as [->|]; [rewrite Hp, Hm|rewrite Hq by done]; apply (wf_mine _ _ H).
  - intros q part. destruct (decide (q = p)) as [->|]; [rewrite Hp, Hm|rewrite Hq by done]; apply (wf_mine_nodup _ _ H).
  - intros t q pl. rewrite Hld. apply (wf_leader _ _ H).
  - intros q g. rewrite !Hgl, Hgms. apply (wf_group _ _ H).
  - intros g q. rewrite Hgl, Hgms. apply (wf_members _ _ H).
Qed.

Lemma InitProcess_spec p pid flags s :
  good s -> (forall t, proclocks s !! (t, p) = None) -> links (procs s p) = false ->
  lockGroupLeader (procs s p) = None ->
  exists s', InitProcess p pid flags s = Some s' /\ good s'.
Proof.
  intros G Hno Hl Hg. pose proof (good_wf _ G) as H. unfold InitProcess.
  rewrite (proj2 (no_proclocks_spec s p H) Hno), bool_decide_eq_true_2 by done.
  rewrite bool_decide_eq_true_2.
  - eexists. split; [done|]. by apply good_own.
  - apply elem_of_nil_inv. intros q Hq%(wf_members _ _ H). apply (wf_group _ _ H) in Hq as [Hq _]. congruence.
Qed.

(** The fields that a change of groups does not touch. *)
Definition same_wait (x y : PGPROC) : Prop :=
  links y = links x /\ waitStatus y = waitStatus x /\ waitLock y = waitLock x /\
  waitProcLock y = waitProcLock x /\ waitLockMode y = waitLockMode x /\ myProcLocks y = myProcLocks x.

Lemma good_leave p s s' :
  good s -> (forall t, proclocks s !! (t, p) = None) ->
  (forall q, lockGroupLeader (procs s q) = Some p -> q = p) ->
  locks s' = locks s -> proclocks s' = proclocks s ->
  (forall q, same_wait (procs s q) (procs s' q)) ->
  lockGroupLeader (procs s' p) = None ->
  (forall q, q <> p -> lockGroupLeader (procs s' q) = lockGroupLeader (procs s q)) ->
  (forall g q, q ∈ lockGroupMembers (procs s' g) <-> q <> p /\ q ∈ lockGroupMembers (procs s g)) ->
  good s'.
Proof.
  intros G Hno Halone E1 E2 Hw Hp Hq Hm. pose proof (good_wf _ G) as H.
  assert (Hld : forall t q, is_Some (proclocks s !! (t, q)) -> leader_of s' q = leader_of s q).
  { intros t q Hs. unfold leader_of. rewrite Hq; [done|]. intros ->. rewrite Hno in Hs. by destruct Hs. }
  apply (good_procs s); try done; [|intros q; apply Hw].
  apply (wf_procs None s); try done.
  - intros t q pl Hs. apply (Hld t). by rewrite Hs.
  - intros q g Hg. destruct (decide (q = p)) as [->|Hne]; [congruence|]. rewrite Hq in Hg by done.
    destruct (wf_group _ _ H q g Hg) as [G1 G2].
    assert (g <> p) by (intros ->; apply Hne, Halone, Hg).
    rewrite Hq by done. split; [done|]. by apply Hm.
  - intros g q [Hne Hin]%Hm. rewrite Hq by done. by apply (wf_members _ _ H).
Qed.

(** A process that leaves, unless it is a leader that leaves before its
    group, returns its own PGPROC and no other. *)
Lemma ProcKill_spec p s :
  good s -> (forall t, proclocks s !! (t, p) = None) ->
  (lockGroupLeader (procs s p) = Some p -> lockGroupMembers (procs s p) = [p]) ->
  exists s', ProcKill p s = Some ([p], s') /\ good s' /\ lockGroupLeader (procs s' p) = None.
Proof.
  intros G Hno Hlast. pose proof (good_wf _ G) as H. unfold ProcKill.
  rewrite (proj2 (no_proclocks_spec s p H) Hno).
  assert (Hnil : lockGroupLeader (procs s p) <> Some p -> lockGroupMembers (procs s p) = []).
  { intros Hg. apply elem_of_nil_inv. intros q Hin%(wf_members _ _ H).
    by apply (wf_group _ _ H) in Hin as [Hin _]. }
  destruct (lockGroupLeader (procs s p)) as [g|] eqn:Eg; cbn [mbind option_bind].
  2: { rewrite Eg, bool_decide_eq_true_2 by done. rewrite Hnil, bool_decide_eq_true_2 by done.
       exists s. done. }
  destruct (wf_group _ _ H p g Eg) as [Hgg Hin].
  rewrite (bool_decide_eq_false_2 (lockGroupMembers (procs s g) = []))
    by (intros E; rewrite E in Hin; by apply elem_of_nil in Hin).
  cbn [negb]. destruct (decide (g = p)) as [->|Hne].
  - specialize (Hlast eq_refl).
    rewrite bool_decide_eq_true_2.
    2: { cbn [lockGroupMembers set_lockGroupMembers]. rewrite Hlast. unfold unlink. cbn. by rewrite decide_False by tauto. }
    rewrite bool_decide_eq_false_2 by tauto. cbn [mbind option_bind].
    set (s' := put_proc _ _ (put_proc _ _ s)).
    assert (Hp : procs s' p = set_lockGroupLeader None (set_lockGroupMembers (unlink p (lockGroupMembers (procs s p))) (procs s p)))
      by apply fn_lookup_insert.
    assert (Hq : forall q, q <> p -> procs s' q = procs s q).
    { intros q Hq. subst s'. cbn [procs put_proc]. by rewrite !fn_lookup_insert_ne. }
    rewrite Hp. cbn [lockGroupLeader lockGroupMembers set_lockGroupLeader set_lockGroupMembers].
    rewrite bool_decide_eq_true_2 by done.
    rewrite bool_decide_eq_true_2.
    2: { rewrite Hlast. unfold unlink. cbn. by rewrite decide_False by tauto. }
    exists s'. split; [done|]. split; [|by rewrite Hp].
    apply (good_leave p s); try done.
    + intros q Hg%(wf_group _ _ H). destruct Hg as [_ Hg]. rewrite Hlast in Hg. by apply list_elem_of_singleton in Hg.
    + intros q. destruct (decide (q = p)) as [->|]; [by rewrite Hp|by rewrite Hq].
    + by rewrite Hp.
    + intros q Hqp. by rewrite Hq.
    + intros g q. destruct (decide (g = p)) as [->|].
      * rewrite Hp. cbn [lockGroupLeader lockGroupMembers set_lockGroupLeader set_lockGroupMembers].
        apply elem_of_unlink.
      * rewrite Hq by done. split; [|tauto]. intros Hm. split; [|done]. intros ->.
        apply (wf_members _ _ H) in Hm. congruence.
  - assert (Hgin : g ∈ lockGroupMembers (procs s g)) by (by apply (wf_group _ _ H)).
    rewrite bool_decide_eq_false_2.
    2: { cbn [lockGroupMembers set_lockGroupMembers]. intros E.
         assert (g ∈ unlink p (lockGroupMembers (procs s g))) as Hx by (by apply elem_of_unlink).
         rewrite E in Hx. by apply elem_of_nil in Hx. }
    rewrite bool_decide_eq_true_2 by done. cbn [mbind option_bind].
    set (s1 := put_proc g _ s). set (s' := put_proc p _ s1).
    assert (H1p : procs s1 p = procs s p) by (by apply fn_lookup_insert_ne).
    assert (Hp : procs s' p = set_lockGroupLeader None (procs s p)).
    { unfold s'. cbn [procs put_proc]. rewrite fn_lookup_insert. f_equal. exact H1p. }
    assert (Hg : procs s' g = set_lockGroupMembers (unlink p (lockGroupMembers (procs s g))) (procs s g)).
    { unfold s'. cbn [procs put_proc]. rewrite fn_lookup_insert_ne by done. apply fn_lookup_insert. }
    assert (Hq : forall q, q <> p -> q <> g -> procs s' q = procs s q).
    { intros q Hq1 Hq2. unfold s', s1. cbn [procs put_proc]. by rewrite !fn_lookup_insert_ne. }
    rewrite Hp. cbn [lockGroupLeader lockGroupMembers set_lockGroupLeader].
    rewrite bool_decide_eq_true_2 by done. rewrite Hnil, bool_decide_eq_true_2 by congruence.
    exists s'. split; [done|]. split; [|by rewrite Hp].
    apply (good_leave p s); try done.
    + intros q Hx%(wf_group _ _ H). destruct Hx as [Hx _]. congruence.
    + intros q. destruct (decide (q = p)) as [->|]; [by rewrite Hp|].
      destruct (decide (q = g)) as [->|]; [by rewrite Hg|by rewrite Hq].
    + by rewrite Hp.
    + intros q Hqp. destruct (decide (q = g)) as [->|]; [by rewrite Hg|by rewrite Hq].
    + intros x q. destruct (decide (x = g)) as [->|Hxg].
      * rewrite Hg. apply elem_of_unlink.
      * assert (lockGroupMembers (procs s' x) = lockGroupMembers (procs s x)) as ->.
        { destruct (decide (x = p)) as [->|]; [by rewrite Hp|by rewrite Hq]. }
        split; [|tauto]. intros Hm. split; [|done]. intros ->. apply (wf_members _ _ H) in Hm. congruence.
Qed.

(** Every step keeps the invariant. *)
Lemma step_good s s' : good s -> step s s' -> good s'.
Proof.
  intros G. pose proof (good_wf _ G) as H.
  destruct 1 as [p room tag m dw r Hm Ht Hl Hh E|p tag m b Hm Hl Hpl E|me p tag m Hm Hl Hpl E|
    p tag m Hm Hh E|p mt al part Hl Hok E|p b E|p Hp E|p ldr pid b Hne Hg Hpid Hno E|
    p pid flags Hl E|p freed Hl Hlast E|MaxBackends p st0 st w w' Hfits E].
  - destruct (LockAcquire_locked_spec room s tag p m dw G Hm Ht Hl Hh) as (r' & s1 & E1 & G1 & _). congruence.
  - destruct (LockRelease_locked_spec s tag p m G Hm Hl Hpl) as (b' & s1 & E1 & G1 & _). congruence.
  - destruct (LockRefindAndRelease_spec me s tag p m G Hm Hl Hpl) as (s1 & E1 & G1 & _). congruence.
  - by eapply mark_release_good.
  - destruct (LockReleaseAll_partition_spec p mt al part s G Hl Hok) as (s1 & E1 & G1 & _). congruence.
  - destruct (LockErrorCleanup_locked_spec p s G) as (b' & s1 & E1 & G1 & _). congruence.
  - destruct (BecomeLockGroupLeader_spec p s G Hp) as (s1 & E1 & G1 & _). congruence.
  - destruct (BecomeLockGroupMember_spec p ldr pid s G Hne Hg Hpid) as (b' & s1 & E1 & G1 & _);
      [by apply no_proclocks_spec|congruence].
  - assert (Hn : no_proclocks (procs s p) = true /\ lockGroupLeader (procs s p) = None).
    { unfold InitProcess in E. destruct (no_proclocks _); [|done].
      destruct (decide (lockGroupLeader (procs s p) = None)); [done|].
      rewrite bool_decide_eq_false_2 in E by done. done. }
    destruct Hn as [Hn Hg]. destruct (InitProcess_spec p pid flags s G) as (s1 & E1 & G1); try done.
    + by apply no_proclocks_spec.
    + congruence.
  - assert (Hn : no_proclocks (procs s p) = true).
    { unfold ProcKill in E. by destruct (no_proclocks _). }
    destruct (ProcKill_spec p s G) as (s1 & E1 & G1 & _); try done.
    + by apply no_proclocks_spec.
    + congruence.
  - destruct (CheckDeadLock_spec MaxBackends p st0 s w G Hfits) as (st1 & s1 & w1 & E1 & G1 & _). congruence.
Qed.

Lemma reachable_good s : reachable s -> good s.
Proof. induction 1; [apply good_init|by eapply step_good]. Qed.

(** ** Properties *)

(** C22: in every state that the lock manager reaches, processes of different
    lock groups never hold conflicting locks on the same object, in whatever
    order requests, releases, wakeups and errors came. *)
Theorem reachable_exclusive s tag p q m m' :
  reachable s -> leader_of s p <> leader_of s q -> m ∈ lockmodes -> m' ∈ lockmodes ->
  holdb (hold s tag p) m = true -> holdb (hold s tag q) m' = true ->
  DoLockModesConflict m m' = false.
Proof. intros R. apply (good_excl _ (reachable_good _ R)). Qed.

(** C24: every reachable lock table is well formed: [granted], [requested],
    [nGranted], [nRequested], [grantMask] and [waitMask] of each LOCK are what
    its PROCLOCKs and its wait queue say, the lists and the hash tables agree,
    wait queues and the wait fields of processes agree, lock groups are
    consistent, and no object without a use stays behind. *)
Theorem reachable_well_formed s : reachable s -> wf None s /\ tidy None s.
Proof. intros G%reachable_good. split; apply G. Qed.

(** C23: no wakeup is lost: in every reachable state a process in a wait queue
    is asleep on exactly that lock, and either a process of another lock group
    holds a conflicting lock, or a process ahead of it in the queue asks for a
    conflicting mode. *)
Theorem reachable_waiters s tag l ahead p rest :
  reachable s -> locks s !! tag = Some l -> waitProcs l = ahead ++ p :: rest ->
  waits (procs s p) tag p /\ NoDup (waitProcs l) /\
  (behind s ahead (waitLockMode (procs s p)) \/
   conflicting s tag p (waitLockMode (procs s p))).
Proof.
  intros G%reachable_good Hl Hw. split; [|split].
  - apply (wf_queue _ _ (good_wf _ G) tag l); [done|].
    rewrite Hw. apply elem_of_app. right. constructor.
  - by apply (lo_nodup_w _ _ _ _ (wf_lock _ _ (good_wf _ G) _ _ Hl)).
  - by apply (good_blocked _ G tag l ahead p rest).
Qed.

(** In a reachable state a request for a lock that the process does not
    hold yet gives a result without failing an assertion: it is granted only
    when no other lock group holds a conflicting lock, otherwise the process is
    turned away, or sleeps in the queue, or sees a deadlock with a process that
    waits for the same object; the locks of all other processes stay as they
    are, except that waiters leave the queue with the lock they asked for. *)
Theorem reachable_acquire s room p tag m dontWait :
  reachable s -> m ∈ lockmodes -> 0 < locktag_lockmethodid tag < 3 ->
  links (procs s p) = false -> holdb (hold s tag p) m = false ->
  exists r s', LockAcquire_locked room p tag m dontWait s = Some (r, s') /\
    reachable s' /\ effect tag (Some p) s s' /\ acquired tag p m s s' r.
Proof.
  intros R Hm Ht Hl Hh.
  destruct (LockAcquire_locked_spec room s tag p m dontWait (reachable_good _ R) Hm Ht Hl Hh)
    as (r & s' & E & _ & He & Ha).
  exists r, s'. split_and!; try done. eapply reach_step; [exact R|]. by eapply step_acquire.
Qed.

(** In a reachable state [LockReleaseAll] gives up, in the partition it
    works on, all locks of the caller or just those marked, and nothing else;
    no assertion fails, nobody loses a lock, and everyone who can go on has
    been woken up. *)
Theorem reachable_release_all s p method allLocks part :
  reachable s -> links (procs s p) = false ->
  (forall t pl, proclocks s !! (t, p) = Some pl -> release_ok pl) ->
  exists s', LockReleaseAll_partition p method allLocks part s = Some s' /\ reachable s' /\
    (forall t i, i ∈ lockmodes -> holdb (hold s' t p) i =
       holdb (hold s t p) i && negb (gone_of s p method allLocks (myProcLocks (procs s p) part) t i)) /\
    (forall q t i, q <> p -> holdb (hold s t q) i = true -> holdb (hold s' t q) i = true) /\
    blocked None s'.
Proof.
  intros R Hl Hok.
  destruct (LockReleaseAll_partition_spec p method allLocks part s (reachable_good _ R) Hl Hok)
    as (s' & E & G & _ & _ & H1 & H2).
  exists s'. split_and!; try done; [|apply G].
  eapply reach_step; [exact R|]. by eapply step_release_all.
Qed.

End Runs.

(** ** A run *)

Module Example.

#[export] Instance hash : LockHash := fun tag => locktag_field2 tag.

Definition tag : LOCKTAG := MkTag 1 16384 0 0 0 DEFAULT_LOCKMETHOD.

Definition after {A} (x : option (A * shared)) : shared :=
  match x with Some (_, s) => s | None => InitLocks end.

(** Process 1 locks the table, 2 and 3 ask for it, 1 unlocks. *)
Definition s1 : shared :=
  after (LockAcquire_locked (true, true) 1 tag AccessExclusiveLock false InitLocks).
Definition s2 : shared := after (LockAcquire_locked (true, true) 2 tag RowExclusiveLock false s1).
Definition s3 : shared := after (LockAcquire_locked (true, true) 3 tag ShareLock false s2).
Definition s4 : shared := after (LockRelease_locked 1 tag AccessExclusiveLock s3).
Definition s5 : shared := after (LockAcquire_locked (true, true) 4 tag AccessShareLock false s4).

Lemma acquire_step s p m r :
  m ∈ lockmodes -> links (procs s p) = false -> holdb (hold s tag p) m = false ->
  fst <$> LockAcquire_locked (true, true) p tag m false s = Some r ->
  step s (after (LockAcquire_locked (true, true) p tag m false s)).
Proof.
  intros Hm Hl Hh Hr. destruct (LockAcquire_locked _ _ _ _ _ _) as [[r' s']|] eqn:E; [|done].
  cbn [after]. by eapply (step_acquire s s' p _ tag m); [..|exact E].
Qed.

Lemma s1_reachable : reachable s1.
Proof.
  eapply reach_step; [apply reach_init|].
  apply (acquire_step _ 1 AccessExclusiveLock AcquireGranted); [|by vm_compute..].
  apply lockmodes_range. by vm_compute.
Qed.

Lemma s2_reachable : reachable s2.
Proof.
  eapply reach_step; [apply s1_reachable|].
  apply (acquire_step _ 2 RowExclusiveLock AcquireWaiting); [|by vm_compute..].
  apply lockmodes_range. by vm_compute.
Qed.

Lemma s3_reachable : reachable s3.
Proof.
  eapply reach_step; [apply s2_reachable|].
  apply (acquire_step _ 3 ShareLock AcquireWaiting); [|by vm_compute..].
  apply lockmodes_range. by vm_compute.
Qed.

Lemma s4_reachable : reachable s4.
Proof.
  eapply reach_step; [apply s3_reachable|].
  assert (Hm : AccessExclusiveLock ∈ lockmodes) by (apply lockmodes_range; by vm_compute).
  assert (Hl : links (procs s3 1%nat) = false) by by vm_compute.
  assert (Hp : is_Some (proclocks s3 !! (tag, 1%nat))) by (apply (bool_decide_unpack _); by vm_compute).
  assert (Hr : fst <$> LockRelease_locked 1 tag AccessExclusiveLock s3 = Some true) by by vm_compute.
  unfold s4. destruct (LockRelease_locked _ _ _ s3) as [[b s']|] eqn:E; [|discriminate Hr].
  exact (step_release s3 s' 1 tag AccessExclusiveLock b Hm Hl Hp E).
Qed.

Lemma s5_reachable : reachable s5.
Proof.
  eapply reach_step; [apply s4_reachable|].
  apply (acquire_step _ 4 AccessShareLock AcquireGranted); [|by vm_compute..].
  apply lockmodes_range. by vm_compute.
Qed.

(** After the release process 2 has its lock, 3 still waits. *)
Example s5_state :
  map (hold s5 tag) [1; 2; 3; 4]%nat = [None; Some 8; Some 0; Some 2] /\
  queue_of s5 tag = [3%nat].
Proof. by vm_compute. Qed.

Lemma reachable_exclusive_witness :
  holdb (hold s5 tag 2%nat) RowExclusiveLock = true /\ holdb (hold s5 tag 4%nat) AccessShareLock = true /\
  DoLockModesConflict RowExclusiveLock AccessShareLock = false.
Proof.
  split; [by vm_compute|]. split; [by vm_compute|].
  apply (reachable_exclusive s5 tag 2 4 RowExclusiveLock AccessShareLock);
    [apply s5_reachable|by vm_compute|apply lockmodes_range; by vm_compute..|by vm_compute|by vm_compute].
Defined.

Lemma reachable_well_formed_witness : wf None s4 /\ tidy None s4.
Proof. apply (reachable_well_formed s4), s4_reachable. Defined.

Definition l4 : LOCK := default new_lock (locks s4 !! tag).

Lemma reachable_waiters_witness :
  locks s4 !! tag = Some l4 /\ waitProcs l4 = [3%nat] /\ waits (procs s4 3%nat) tag 3 /\
  (behind s4 [] (waitLockMode (procs s4 3%nat)) \/
   conflicting s4 tag 3 (waitLockMode (procs s4 3%nat))).
Proof.
  split; [by vm_compute|]. split; [by vm_compute|].
  destruct (reachable_waiters s4 tag l4 [] 3 []) as (W & _ & B);
    [apply s4_reachable|by vm_compute|by vm_compute|]. by split.
Defined.

Lemma reachable_acquire_witness :
  exists r s', LockAcquire_locked (true, true) 4 tag AccessShareLock false s4 = Some (r, s') /\
    reachable s' /\ acquired tag 4 AccessShareLock s4 s' r.
Proof.
  destruct (reachable_acquire s4 (true, true) 4 tag AccessShareLock false) as (r & s' & E & R & _ & A);
    [apply s4_reachable|apply lockmodes_range; by vm_compute|by vm_compute..|].
  exact (ex_intro _ r (ex_intro _ s' (conj E (conj R A)))).
Defined.

Lemma reachable_release_all_witness :
  exists s', LockReleaseAll_partition 2 DEFAULT_LOCKMETHOD true (partition_of tag) s4 = Some s' /\
    reachable s' /\ blocked None s'.
Proof.
  destruct (reachable_release_all s4 2 DEFAULT_LOCKMETHOD true (partition_of tag))
    as (s' & E & R & _ & _ & B); [apply s4_reachable|by vm_compute| |exact (ex_intro _ s' (conj E (conj R B)))].
  assert (Hall : map_Forall (fun _ pl => releaseMask pl = 0) (proclocks s4))
    by (apply (bool_decide_unpack _); by vm_compute).
  intros t pl Hpl%Hall. unfold release_ok. rewrite Hpl. split; [apply modes_only_0|].
  intros i _ Hi. by rewrite Z.bits_0 in Hi.
Defined.

(** A lock group whose leader leaves first: the last member returns the
    PGPROC of the leader, but its own stays in the group for good and is not
    returned to its free list. *)
Definition group : shared :=
  let s := MkShared ∅ ∅ (fun p => set_lockGroupLeader None
             (MkPGPROC false STATUS_OK None None 0 0 (Z.of_nat p) 0 0 None [] (fun _ => []) 0 [])) in
  after (s' ← BecomeLockGroupLeader 1 s; BecomeLockGroupMember 2 1 1 s').

Example ProcKill_leaks :
  match ProcKill 1 group with
  | Some (freed1, s) =>
      freed1 = [] /\
      match ProcKill 2 s with
      | Some (freed2, s') => freed2 = [1%nat] /\ lockGroupLeader (procs s' 2%nat) = Some 1%nat
      | None => False
      end
  | None => False
  end.
Proof. by vm_compute. Qed.

End Example.

End LockRuns.
