(* ===== verification/DeadlockRuns.v ===== *)
(** * The deadlock detector in the reachable states

    What the search for a cycle, the sort of a wait queue and the whole check
    promise in every state of a run of the lock manager, and runs with a hard
    and a soft deadlock. *)

From S2P Require Import Prelude.
From S2P Require Import Lock.
From S2P Require Import LockInv.
From S2P Require Import LockOps.
From S2P Require Import Deadlock.
From S2P Require Import DeadlockGraph.
From S2P Require Import DeadlockTopo.
From S2P Require Import DeadlockOrders.
From S2P Require Import DeadlockSearch.
From S2P Require Import DeadlockProofs.
From S2P Require Import LockRuns.
From stdpp Require Import list.

Import Lock LockInv LockOps Deadlock DeadlockGraph DeadlockTopo DeadlockOrders DeadlockSearch.
Import DeadlockProofs LockRuns.

Open Scope Z_scope.

Module DeadlockRuns.

Section Runs.
Context {lockhash : LockHash}.

(** C26: [FindLockCycle] finds a cycle of the waits-for graph through its
    argument exactly when there is one, hard edges and soft edges taken from
    the wait orders that are tested; the soft edges that it returns and the
    lines that it leaves for the report are those of such a cycle.  It visits
    each group once, so it returns and its arrays do not overflow when at most
    [MaxBackends] groups have to do with locks. *)
Theorem FindLockCycle_exact MaxBackends MyProc s wo L p d :
  reachable s -> orders_ok s wo -> groups_in s L -> (length L <= MaxBackends)%nat -> leader_of s p ∈ L ->
  exists r d', FindLockCycle MaxBackends MyProc s wo p d = Some (r, d') /\
    (r = true <-> deadlocked s wo p) /\
    (r = true -> (nDeadlockDetails d' <= MaxBackends)%nat /\
       path s wo (leader_of s p) (leader_of s p) (softEdges d')
         (deadlockDetails d' <$> seq 0 (nDeadlockDetails d'))).
Proof.
  intros G%reachable_good Hwo HL Hlen Hp.
  destruct (FindLockCycle_spec MaxBackends MyProc s wo L p d (good_wf _ G) Hwo HL Hlen Hp) as (r & d' & E & Hr).
  exists r, d'. split; [done|]. destruct r.
  - destruct Hr as [P Hn]. split; [|done]. split; [|done]. intros _. by eexists _, _.
  - destruct Hr as [_ Hn]. split; [|done]. by split.
Qed.

(** C27: [TopoSort] returns an order of the wait queue, with the members of a
    lock group next to each other, in which for every constraint between two
    groups of the queue the waiter's group is ahead of the blocker's; or it
    fails, and then no order of the queue satisfies the constraints. *)
Theorem TopoSort_correct s tag l cs :
  reachable s -> locks s !! tag = Some l -> leaders_only s cs ->
  exists r, TopoSort s tag cs = Some r /\
    match r with
    | Some order => order ≡ₚ waitProcs l /\ grouped s order /\ satisfies s (waitProcs l) cs order
    | None => forall order, order ≡ₚ waitProcs l -> ~ satisfies s (waitProcs l) cs order
    end.
Proof.
  intros G%reachable_good Hl Hcs. destruct (TopoSort_spec s tag l (good_wf _ G) Hl cs Hcs) as (r & E & Hr).
  exists r. split; [done|]. destruct r; [done|]. intros order. by apply contradictory_no_order.
Qed.


End Runs.

(** ** Runs with deadlocks *)

Module Example.

#[local] Existing Instance LockRuns.Example.hash.

Notation after := LockRuns.Example.after.

Definition A : LOCKTAG := MkTag 1 16384 0 0 0 DEFAULT_LOCKMETHOD.
Definition B : LOCKTAG := MkTag 1 16385 0 0 0 DEFAULT_LOCKMETHOD.

(** A list of requests. *)
Definition ask (s : shared) (r : nat * LOCKTAG * Z) : shared :=
  after (LockAcquire_locked (true, true) r.1.1 r.1.2 r.2 false s).
Definition run (rs : list (nat * LOCKTAG * Z)) : shared := foldl ask InitLocks rs.

(** A request that can be made. *)
Definition can_ask (s : shared) (r : nat * LOCKTAG * Z) : bool :=
  bool_decide (r.2 ∈ lockmodes) && bool_decide (0 < locktag_lockmethodid r.1.2 < 3) &&
  negb (links (procs s r.1.1)) && negb (holdb (hold s r.1.2 r.1.1) r.2).

Fixpoint can_run (s : shared) (rs : list (nat * LOCKTAG * Z)) : bool :=
  match rs with [] => true | r :: rs' => can_ask s r && can_run (ask s r) rs' end.

Lemma run_reachable rs : can_run InitLocks rs = true -> reachable (run rs).
Proof.
  unfold run. generalize reach_init. generalize InitLocks.
  induction rs as [|[[p t] m] rs IH]; intros s R Hrs; [exact R|].
  cbn [can_run foldl] in *. apply andb_true_iff in Hrs as [Hr Hrs]. apply IH; [|exact Hrs].
  unfold can_ask in Hr. cbn [fst snd] in Hr.
  apply andb_true_iff in Hr as [[[Hm%bool_decide_eq_true Ht%bool_decide_eq_true]%andb_true_iff
    Hl%negb_true_iff]%andb_true_iff Hh%negb_true_iff].
  unfold ask. cbn [fst snd]. destruct (LockAcquire_locked_spec (true, true) s t p m false (reachable_good _ R) Hm Ht Hl Hh)
    as (r & s' & E & _). rewrite E. cbn. eapply reach_step; [exact R|]. by eapply step_acquire.
Qed.

(** Processes 1 and 2 each hold a lock that the other waits for. *)
Definition hard : shared :=
  run [(1%nat, A, ExclusiveLock); (2%nat, B, ExclusiveLock); (1%nat, B, ShareLock); (2%nat, A, ShareLock)].

(** 3 waits for [A] behind 2, which waits for 1, which waits for 3. *)
Definition soft : shared :=
  run [(1%nat, A, AccessShareLock); (3%nat, B, ExclusiveLock); (2%nat, A, AccessExclusiveLock);
       (3%nat, A, AccessShareLock); (1%nat, B, ShareLock)].

Definition work0 : work :=
  MkWork [] (fun _ => MkEDGE 0 0 A) 0 (MkD [] [] 0 (fun _ => MkINFO A 0 0) None).

(** The answer, the queue of [A] and who holds it. *)
Definition outcome (MyProc : nat) (s : shared) : option (DeadLockState * list nat * list (option Z)) :=
  '(st, s', _) ← CheckDeadLock 4 MyProc DS_NOT_YET_CHECKED s work0;
  Some (st, queue_of s' A, map (hold s' A) [1; 2; 3]%nat).

Example hard_outcome : queue_of hard A = [2%nat] /\
  outcome 2 hard = Some (DS_HARD_DEADLOCK, [], [Some 128; None; None]).
Proof. split; by vm_compute. Qed.

Example soft_outcome : queue_of soft A = [2%nat; 3%nat] /\
  outcome 1 soft = Some (DS_SOFT_DEADLOCK, [2%nat], [Some 2; Some 0; Some 2]).
Proof. split; by vm_compute. Qed.

Lemma hard_reachable : reachable hard.
Proof. apply run_reachable. by vm_compute. Qed.

Lemma soft_reachable : reachable soft.
Proof. apply run_reachable. by vm_compute. Qed.

Lemma groups_in_fin s L :
  map_Forall (fun k _ => leader_of s k.2 ∈ L) (proclocks s) -> groups_in s L.
Proof. intros Hall tag p [pl Hp]. exact (Hall (tag, p) pl Hp). Qed.

Lemma fits_fin n s L :
  map_Forall (fun k _ => leader_of s k.2 ∈ L) (proclocks s) ->
  map_Forall (fun _ l => Forall (fun p => p ∈ L) (waitProcs l)) (locks s) -> (length L <= n)%nat -> fits n s.
Proof.
  intros H1 H2 Hn. split; [exists L; split; [by apply groups_in_fin|done]|]. exists L. split; [done|].
  intros tag p Hp. unfold queue_of in Hp. destruct (locks s !! tag) as [l|] eqn:El; [|by apply elem_of_nil in Hp].
  specialize (H2 tag l El). by eapply Forall_forall in H2.
Qed.

Lemma soft_fits : fits 4 soft.
Proof.
  apply (fits_fin 4 soft [1; 2; 3]%nat); [apply (bool_decide_unpack _); by vm_compute..|cbn; lia].
Qed.


(** The search from process 1 in the true order of the queues. *)
Definition cycle_edges (s : shared) (p : nat) : option (bool * list EDGE) :=
  '(r, d) ← FindLockCycle 4 p s [] p (found work0); Some (r, softEdges d).

Lemma FindLockCycle_exact_witness :
  cycle_edges soft 1 = Some (true, [MkEDGE 3 2 A]) /\ deadlocked soft [] 1.
Proof.
  assert (Hc : cycle_edges soft 1 = Some (true, [MkEDGE 3 2 A])) by by vm_compute.
  split; [exact Hc|].
  destruct (FindLockCycle_exact 4 1 soft [] [1; 2; 3]%nat 1 (found work0)) as (r & d & E & Hr & _).
  - exact soft_reachable.
  - intros t q Hq. discriminate Hq.
  - apply groups_in_fin. apply (bool_decide_unpack _). by vm_compute.
  - cbn. lia.
  - apply (bool_decide_unpack _). by vm_compute.
  - unfold cycle_edges in Hc. rewrite E in Hc. cbn [mbind option_bind] in Hc. apply Hr. injection Hc as Hr1 _. exact Hr1.
Defined.

Definition queueA : LOCK := default new_lock (locks soft !! A).

Lemma TopoSort_correct_witness :
  waitProcs queueA = [2; 3]%nat /\ TopoSort soft A [MkEDGE 3 2 A] = Some (Some [3; 2]%nat) /\
  precedes soft 3 2 [3; 2]%nat.
Proof.
  assert (Hs : TopoSort soft A [MkEDGE 3 2 A] = Some (Some [3; 2]%nat)) by by vm_compute.
  split; [by vm_compute|]. split; [exact Hs|].
  destruct (TopoSort_correct soft A queueA [MkEDGE 3 2 A]) as (r & E & Hr).
  - exact soft_reachable.
  - by vm_compute.
  - intros c Hc%list_elem_of_singleton. rewrite Hc. split; by vm_compute.
  - assert (Hr' : r = Some [3; 2]%nat) by congruence. rewrite Hr' in Hr. destruct Hr as (_ & _ & Hsat).
    apply (Hsat (MkEDGE 3 2 A)); [constructor|].
    split; [exists 3%nat|exists 2%nat]; (split; [apply (bool_decide_unpack _); by vm_compute|by vm_compute]).
Defined.

(** With more groups than [MaxBackends], as when prepared transactions hold
    locks, the work area does not suffice. *)
Example too_many_groups :
  match FindLockCycle 1 1 soft [] 1 (found work0) with None => True | Some _ => False end.
Proof. by vm_compute. Qed.


(** Nobody is behind anybody else, so no rearrangement could help. *)
Lemma hard_few : few_constraints 4 hard.
Proof.
  assert (Hall : map_Forall (fun _ l => (length (waitProcs l) <= 1)%nat) (locks hard))
    by (apply (bool_decide_unpack _); by vm_compute).
  intros cur _ Hcur. destruct cur as [|e cur]; [cbn; lia|].
  pose proof (edge_two_waiters hard e (Hcur e (list_elem_of_here _ _))) as H2. unfold queue_of in H2.
  destruct (locks hard !! lock e) as [l|] eqn:El; [|cbn in H2; lia]. specialize (Hall _ _ El). cbn in Hall. lia.
Qed.

Example hard_stays_hard : hopeless hard [].
Proof.
  assert (Hf : fits 4 hard).
  { apply (fits_fin 4 hard [1; 2]%nat); [apply (bool_decide_unpack _); by vm_compute..|cbn; lia]. }
  destruct (CheckDeadLock_spec 4 2 DS_NOT_YET_CHECKED hard work0 (reachable_good _ hard_reachable) Hf)
    as (st & s' & w' & E & _ & Hc).
  assert (Hl : links (procs hard 2%nat) = true) by by vm_compute. rewrite Hl in Hc.
  pose proof (proj2 hard_outcome) as Ho. unfold outcome in Ho. rewrite E in Ho. cbn [mbind option_bind] in Ho.
  injection Ho as Hst _ _. rewrite Hst in Hc. destruct Hc as (_ & _ & Hless & _). exact (Hless hard_few).
Qed.

End Example.

End DeadlockRuns.
