(* ===== verification/Xact.v ===== *)
(** * Transactions, subtransactions and transaction blocks

    Models [src/backend/access/transam/xact.c]: the stack of
    [TransactionStateData], the low-level state ([TransState]), the block state
    driven by SQL commands ([TBlockState]), the assignment of transaction ids,
    and every routine that starts, commits, prepares, aborts or cleans up a
    transaction or subtransaction.

    xact.c is an orchestrator: most of what it does is to call other modules in
    a fixed order.  A call of another module is [sys name args]: it is appended
    to the trace of the backend, it may raise an error, and it returns a value;
    both are chosen by the environment [Env], so every theorem is about every
    behaviour of the callees, errors at any call included.  Raising an error is
    an outcome of the monad [M] ([ERROR], or [PANIC] inside a critical section,
    as errstart and errfinish do); so is a failed [Assert].

    [subs] is the stack of subtransactions, innermost first, and [top] is
    [TopTransactionStateData]; [CurrentTransactionState] is the head of the
    stack.  Resource owners and memory contexts are handles; NULL is [None]. *)

From Stdlib Require Import Ascii.
From S2P Require Import Prelude.
From S2P Require Import Transam.

Import Transam.

Open Scope Z_scope.

Module Xact.

(** ** Data *)

Inductive TransState :=
  | TRANS_DEFAULT | TRANS_START | TRANS_INPROGRESS | TRANS_COMMIT | TRANS_ABORT
  | TRANS_PREPARE.

Inductive TBlockState :=
  (* not-in-transaction-block states *)
  | TBLOCK_DEFAULT | TBLOCK_STARTED
  (* transaction block states *)
  | TBLOCK_BEGIN | TBLOCK_INPROGRESS | TBLOCK_IMPLICIT_INPROGRESS
  | TBLOCK_PARALLEL_INPROGRESS | TBLOCK_END | TBLOCK_ABORT | TBLOCK_ABORT_END
  | TBLOCK_ABORT_PENDING | TBLOCK_PREPARE
  (* subtransaction states *)
  | TBLOCK_SUBBEGIN | TBLOCK_SUBINPROGRESS | TBLOCK_SUBRELEASE | TBLOCK_SUBCOMMIT
  | TBLOCK_SUBABORT | TBLOCK_SUBABORT_END | TBLOCK_SUBABORT_PENDING
  | TBLOCK_SUBRESTART | TBLOCK_SUBABORT_RESTART.

#[global] Instance TransState_eq_dec : EqDecision TransState.
Proof. solve_decision. Defined.

#[global] Instance TBlockState_eq_dec : EqDecision TBlockState.
Proof. solve_decision. Defined.

Definition InvalidSubTransactionId : Z := 0.
Definition TopSubTransactionId : Z := 1.
Definition FirstCommandId : Z := 0.
Definition InvalidCommandId : Z := 0xFFFFFFFF.
Definition MaxChildXids : Z := 0x3fffffff / 4.   (* MaxAllocSize / sizeof(TransactionId) *)
Definition PGPROC_MAX_CACHED_SUBXIDS : Z := 64.

Record TransactionStateData := mkTS {
  fullTransactionId : Z;
  subTransactionId : Z;
  name : option string;
  savepointLevel : Z;
  state : TransState;
  blockState : TBlockState;
  nestingLevel : Z;
  gucNestLevel : Z;
  curTransactionContext : option Z;
  curTransactionOwner : option Z;
  childXids : list Z;          (* nChildXids entries *)
  maxChildXids : Z;
  prevUser : Z;
  prevSecContext : Z;
  prevXactReadOnly : bool;
  startedInRecovery : bool;
  didLogXid : bool;
  parallelModeLevel : Z;
  chain : bool }.

Definition eta_TS (s : TransactionStateData) : TransactionStateData :=
  mkTS (fullTransactionId s) (subTransactionId s) (name s) (savepointLevel s) (state s)
    (blockState s) (nestingLevel s) (gucNestLevel s) (curTransactionContext s)
    (curTransactionOwner s) (childXids s) (maxChildXids s) (prevUser s) (prevSecContext s)
    (prevXactReadOnly s) (startedInRecovery s) (didLogXid s) (parallelModeLevel s) (chain s).

Definition set_fullTransactionId v s := ltac:(setter (eta_TS s) (fullTransactionId s) v).
Definition set_subTransactionId v s := ltac:(setter (eta_TS s) (subTransactionId s) v).
Definition set_name v s := ltac:(setter (eta_TS s) (name s) v).
Definition set_savepointLevel v s := ltac:(setter (eta_TS s) (savepointLevel s) v).
Definition set_state v s := ltac:(setter (eta_TS s) (state s) v).
Definition set_blockState v s := ltac:(setter (eta_TS s) (blockState s) v).
Definition set_nestingLevel v s := ltac:(setter (eta_TS s) (nestingLevel s) v).
Definition set_gucNestLevel v s := ltac:(setter (eta_TS s) (gucNestLevel s) v).
Definition set_curTransactionContext v s := ltac:(setter (eta_TS s) (curTransactionContext s) v).
Definition set_curTransactionOwner v s := ltac:(setter (eta_TS s) (curTransactionOwner s) v).
Definition set_childXids v s := ltac:(setter (eta_TS s) (childXids s) v).
Definition set_maxChildXids v s := ltac:(setter (eta_TS s) (maxChildXids s) v).
Definition set_prevUser v s := ltac:(setter (eta_TS s) (prevUser s) v).
Definition set_prevSecContext v s := ltac:(setter (eta_TS s) (prevSecContext s) v).
Definition set_prevXactReadOnly v s := ltac:(setter (eta_TS s) (prevXactReadOnly s) v).
Definition set_startedInRecovery v s := ltac:(setter (eta_TS s) (startedInRecovery s) v).
Definition set_didLogXid v s := ltac:(setter (eta_TS s) (didLogXid s) v).
Definition set_parallelModeLevel v s := ltac:(setter (eta_TS s) (parallelModeLevel s) v).
Definition set_chain v s := ltac:(setter (eta_TS s) (chain s) v).

(** A call of another module, as it stands in the trace. *)
Definition call : Type := string * list Z.

(** The variables of xact.c, and the holdoff and critical-section counters of
    the backend. *)
Record backend := mkBE {
  top : TransactionStateData;
  subs : list TransactionStateData;
  XactIsoLevel : Z;
  XactReadOnly : bool;
  XactDeferrable : bool;
  save_XactIsoLevel : Z;
  save_XactReadOnly : bool;
  save_XactDeferrable : bool;
  XactTopFullTransactionId : Z;
  ParallelCurrentXids : list Z;          (* nParallelCurrentXids entries *)
  MyXactFlags : Z;
  unreportedXids : list Z;               (* nUnreportedXids entries *)
  currentSubTransactionId : Z;
  currentCommandId : Z;
  currentCommandIdUsed : bool;
  xactStartTimestamp : Z;
  stmtStartTimestamp : Z;
  xactStopTimestamp : Z;
  prepareGID : option string;
  forceSyncCommit : bool;
  lxid : Z;                              (* MyProc->lxid *)
  TopTransactionResourceOwner : option Z;
  CurTransactionResourceOwner : option Z;
  CurrentResourceOwner : option Z;
  TopTransactionContext : option Z;
  CurTransactionContext : option Z;
  TransactionAbortContext : option Z;
  Xact_callbacks : list (Z * Z);
  SubXact_callbacks : list (Z * Z);
  InterruptHoldoffCount : Z;
  CritSectionCount : Z;
  trace : list call }.                   (* newest first *)

Definition eta_BE (b : backend) : backend :=
  mkBE (top b) (subs b) (XactIsoLevel b) (XactReadOnly b) (XactDeferrable b)
    (save_XactIsoLevel b) (save_XactReadOnly b) (save_XactDeferrable b)
    (XactTopFullTransactionId b) (ParallelCurrentXids b) (MyXactFlags b) (unreportedXids b)
    (currentSubTransactionId b) (currentCommandId b) (currentCommandIdUsed b)
    (xactStartTimestamp b) (stmtStartTimestamp b) (xactStopTimestamp b) (prepareGID b)
    (forceSyncCommit b) (lxid b) (TopTransactionResourceOwner b)
    (CurTransactionResourceOwner b) (CurrentResourceOwner b) (TopTransactionContext b)
    (CurTransactionContext b) (TransactionAbortContext b) (Xact_callbacks b)
    (SubXact_callbacks b) (InterruptHoldoffCount b) (CritSectionCount b) (trace b).

Definition set_top v b := ltac:(setter (eta_BE b) (top b) v).
Definition set_subs v b := ltac:(setter (eta_BE b) (subs b) v).
Definition set_XactIsoLevel v b := ltac:(setter (eta_BE b) (XactIsoLevel b) v).
Definition set_XactReadOnly v b := ltac:(setter (eta_BE b) (XactReadOnly b) v).
Definition set_XactDeferrable v b := ltac:(setter (eta_BE b) (XactDeferrable b) v).
Definition set_save_XactIsoLevel v b := ltac:(setter (eta_BE b) (save_XactIsoLevel b) v).
Definition set_save_XactReadOnly v b := ltac:(setter (eta_BE b) (save_XactReadOnly b) v).
Definition set_save_XactDeferrable v b := ltac:(setter (eta_BE b) (save_XactDeferrable b) v).
Definition set_XactTopFullTransactionId v b := ltac:(setter (eta_BE b) (XactTopFullTransactionId b) v).
Definition set_ParallelCurrentXids v b := ltac:(setter (eta_BE b) (ParallelCurrentXids b) v).
Definition set_MyXactFlags v b := ltac:(setter (eta_BE b) (MyXactFlags b) v).
Definition set_unreportedXids v b := ltac:(setter (eta_BE b) (unreportedXids b) v).
Definition set_currentSubTransactionId v b := ltac:(setter (eta_BE b) (currentSubTransactionId b) v).
Definition set_currentCommandId v b := ltac:(setter (eta_BE b) (currentCommandId b) v).
Definition set_currentCommandIdUsed v b := ltac:(setter (eta_BE b) (currentCommandIdUsed b) v).
Definition set_xactStartTimestamp v b := ltac:(setter (eta_BE b) (xactStartTimestamp b) v).
Definition set_stmtStartTimestamp v b := ltac:(setter (eta_BE b) (stmtStartTimestamp b) v).
Definition set_xactStopTimestamp v b := ltac:(setter (eta_BE b) (xactStopTimestamp b) v).
Definition set_prepareGID v b := ltac:(setter (eta_BE b) (prepareGID b) v).
Definition set_forceSyncCommit v b := ltac:(setter (eta_BE b) (forceSyncCommit b) v).
Definition set_lxid v b := ltac:(setter (eta_BE b) (lxid b) v).
Definition set_TopTransactionResourceOwner v b := ltac:(setter (eta_BE b) (TopTransactionResourceOwner b) v).
Definition set_CurTransactionResourceOwner v b := ltac:(setter (eta_BE b) (CurTransactionResourceOwner b) v).
Definition set_CurrentResourceOwner v b := ltac:(setter (eta_BE b) (CurrentResourceOwner b) v).
Definition set_TopTransactionContext v b := ltac:(setter (eta_BE b) (TopTransactionContext b) v).
Definition set_CurTransactionContext v b := ltac:(setter (eta_BE b) (CurTransactionContext b) v).
Definition set_TransactionAbortContext v b := ltac:(setter (eta_BE b) (TransactionAbortContext b) v).
Definition set_Xact_callbacks v b := ltac:(setter (eta_BE b) (Xact_callbacks b) v).
Definition set_SubXact_callbacks v b := ltac:(setter (eta_BE b) (SubXact_callbacks b) v).
Definition set_InterruptHoldoffCount v b := ltac:(setter (eta_BE b) (InterruptHoldoffCount b) v).
Definition set_CritSectionCount v b := ltac:(setter (eta_BE b) (CritSectionCount b) v).
Definition set_trace v b := ltac:(setter (eta_BE b) (trace b) v).

(** ** Outcomes and the monad *)

Inductive exn :=
  | ERROR (msg : string) | FATAL (msg : string) | PANIC (msg : string)
  | ASSERT (msg : string)        (* a failed Assert *)
  | NOFUEL.                      (* a loop ran longer than its bound *)

Inductive result (A : Type) := Ok (a : A) | Exn (e : exn).
Arguments Ok {A} a.
Arguments Exn {A} e.

Definition M (A : Type) : Type := backend -> result A * backend.

Definition ret {A} (a : A) : M A := fun b => (Ok a, b).
Definition bind {A B} (m : M A) (k : A -> M B) : M B := fun b =>
  match m b with
  | (Ok a, b') => k a b'
  | (Exn e, b') => (Exn e, b')
  end.

Declare Scope xact_scope.
Delimit Scope xact_scope with xact.
Notation "'let!' x := m 'in' k" := (bind m (fun x => k))
  (at level 200, x name, m at level 100, k at level 200) : xact_scope.
Notation "m ;; k" := (bind m (fun _ => k)) (at level 100, k at level 200, right associativity) : xact_scope.
Open Scope xact_scope.

Definition get {A} (f : backend -> A) : M A := fun b => (Ok (f b), b).
Definition modify (f : backend -> backend) : M unit := fun b => (Ok tt, f b).
Definition when (c : bool) (m : M unit) : M unit := if c then m else ret tt.

(** errstart and errfinish: inside a critical section every error is a PANIC;
    throwing an ERROR resets the holdoff count. *)
Definition ereport_ERROR {A} (msg : string) : M A := fun b =>
  if 0 <? CritSectionCount b then (Exn (PANIC msg), b)
  else (Exn (ERROR msg), set_InterruptHoldoffCount 0 b).
Definition elog_FATAL {A} (msg : string) : M A := fun b =>
  if 0 <? CritSectionCount b then (Exn (PANIC msg), b) else (Exn (FATAL msg), b).
Definition elog_PANIC {A} (msg : string) : M A := fun b => (Exn (PANIC msg), b).

(** [Assert], in a build with assertions. *)
Definition Assert (msg : string) (p : backend -> bool) : M unit := fun b =>
  if p b then (Ok tt, b) else (Exn (ASSERT msg), b).

(** The behaviour of the other modules: whether a call raises an error, and
    what it returns, given the calls made before it. *)
Class Env := {
  raises : list call -> call -> bool;
  value : list call -> call -> Z;
  loop_fuel : nat }.

(** The current level and its parent. *)
Definition cur (b : backend) : TransactionStateData :=
  match subs b with [] => top b | s :: _ => s end.
Definition set_cur (s : TransactionStateData) (b : backend) : backend :=
  match subs b with [] => set_top s b | _ :: p => set_subs (s :: p) b end.
(** [s->parent], where there is one. *)
Definition parent (b : backend) : TransactionStateData :=
  match subs b with _ :: p :: _ => p | _ => top b end.
Definition set_parent (p : TransactionStateData) (b : backend) : backend :=
  match subs b with
  | s :: _ :: l => set_subs (s :: p :: l) b
  | _ => set_top p b
  end.
Definition upd (f : TransactionStateData -> TransactionStateData) : M unit :=
  modify (fun b => set_cur (f (cur b)) b).

(** The whole stack, innermost level first. *)
Definition stack (b : backend) : list TransactionStateData := subs b ++ [top b].
Definition set_stack (l : list TransactionStateData) (b : backend) : backend :=
  set_top (List.last l (top b)) (set_subs (removelast l) b).

Definition hz (o : option Z) : Z := default 0 o.
Definition isNone {A} (o : option A) : bool := match o with None => true | Some _ => false end.
Definition FullTransactionIdIsValid (x : Z) : bool :=
  TransactionIdIsValid (XidFromFullTransactionId x).

Section Calls.
Context `{Env}.

Definition sys (f : string) (args : list Z) : M Z := fun b =>
  let b' := set_trace ((f, args) :: trace b) b in
  if raises (trace b) (f, args) then ereport_ERROR f b'
  else (Ok (value (trace b) (f, args)), b').

Fixpoint calls (l : list call) : M unit :=
  match l with
  | [] => ret tt
  | (f, args) :: l => sys f args ;; calls l
  end.

(** A macro or a variable of another module that is only read. *)
Definition query (f : string) (args : list Z) : M Z := fun b =>
  (Ok (value (trace b) (f, args)), b).
Definition queryb (f : string) (args : list Z) : M bool := fun b =>
  (Ok (negb (value (trace b) (f, args) =? 0)), b).

(** A call that makes an object; its handle is new. *)
Definition create (f : string) (args : list Z) : M Z :=
  let! _ := sys f args in get (fun b => Z.of_nat (length (trace b))).

(** elog(WARNING) is a call that is only logged. *)
Definition warning (msg : string) : M unit := calls [(String.append "WARNING: " msg, [])].

End Calls.

(** A step on every level of a list, innermost first, that stops at the first
    level whose block state it does not accept. *)
Fixpoint mark (step : TBlockState -> option TBlockState) (l : list TransactionStateData)
  : list TransactionStateData * bool :=
  match l with
  | [] => ([], true)
  | s :: l =>
      match step (blockState s) with
      | Some bs => let '(l', ok) := mark step l in (set_blockState bs s :: l', ok)
      | None => (s :: l, false)
      end
  end.

(** ** State queries *)

Definition is_state (t : TransState) (s : TransactionStateData) : bool := bool_decide (state s = t).
Definition is_block (t : TBlockState) (s : TransactionStateData) : bool :=
  bool_decide (blockState s = t).

Definition IsTransactionState (b : backend) : bool := is_state TRANS_INPROGRESS (cur b).
Definition IsAbortedTransactionBlockState (b : backend) : bool :=
  is_block TBLOCK_ABORT (cur b) || is_block TBLOCK_SUBABORT (cur b).
Definition IsInParallelMode (b : backend) : bool := negb (parallelModeLevel (cur b) =? 0).
Definition IsTransactionBlock (b : backend) : bool :=
  negb (is_block TBLOCK_DEFAULT (cur b) || is_block TBLOCK_STARTED (cur b)).
Definition IsTransactionOrTransactionBlock (b : backend) : bool :=
  negb (is_block TBLOCK_DEFAULT (cur b)).
Definition IsSubTransaction (b : backend) : bool := 2 <=? nestingLevel (cur b).

Definition TransactionBlockStatusCode (b : backend) : Ascii.ascii :=
  match blockState (cur b) with
  | TBLOCK_DEFAULT | TBLOCK_STARTED => "I"%char
  | TBLOCK_BEGIN | TBLOCK_SUBBEGIN | TBLOCK_INPROGRESS | TBLOCK_IMPLICIT_INPROGRESS
  | TBLOCK_PARALLEL_INPROGRESS | TBLOCK_SUBINPROGRESS | TBLOCK_END | TBLOCK_SUBRELEASE
  | TBLOCK_SUBCOMMIT | TBLOCK_PREPARE => "T"%char
  | TBLOCK_ABORT | TBLOCK_SUBABORT | TBLOCK_ABORT_END | TBLOCK_SUBABORT_END
  | TBLOCK_ABORT_PENDING | TBLOCK_SUBABORT_PENDING | TBLOCK_SUBRESTART
  | TBLOCK_SUBABORT_RESTART => "E"%char
  end.

Definition GetTopTransactionIdIfAny (b : backend) : Z :=
  XidFromFullTransactionId (XactTopFullTransactionId b).
Definition GetCurrentTransactionIdIfAny (b : backend) : Z :=
  XidFromFullTransactionId (fullTransactionId (cur b)).
Definition GetCurrentSubTransactionId (b : backend) : Z := subTransactionId (cur b).
Definition GetCurrentTransactionNestLevel (b : backend) : Z := nestingLevel (cur b).
Definition TransactionStartedDuringRecovery (b : backend) : bool := startedInRecovery (cur b).
Definition xactGetCommittedChildren (b : backend) : list Z := childXids (cur b).

Definition SubTransactionIsActive (subxid : Z) (b : backend) : bool :=
  existsb (fun s => negb (is_state TRANS_ABORT s) && (subTransactionId s =? subxid)) (stack b).

(** Binary search; [lt probe xid] is the order the array is sorted by.  The
    bounds are those of the code: [low] and one past [high]. *)
Fixpoint xid_bsearch (lt : Z -> Z -> bool) (fuel : nat) (l : list Z) (xid : Z) (low high1 : nat)
  : bool :=
  match fuel with
  | O => false
  | S fuel =>
      if Nat.ltb low high1 then
        let middle := (low + (high1 - 1 - low) / 2)%nat in
        let probe := nth middle l 0 in
        if probe =? xid then true
        else if lt probe xid then xid_bsearch lt fuel l xid (S middle) high1
        else xid_bsearch lt fuel l xid low middle
      else false
  end.

Definition search_children (xid : Z) (l : list Z) : bool :=
  xid_bsearch TransactionIdPrecedes (S (length l)) l xid 0 (length l).

Fixpoint current_in_stack (xid : Z) (l : list TransactionStateData) : bool :=
  match l with
  | [] => false
  | s :: l =>
      if is_state TRANS_ABORT s then current_in_stack xid l
      else if negb (FullTransactionIdIsValid (fullTransactionId s)) then current_in_stack xid l
      else if xid =? XidFromFullTransactionId (fullTransactionId s) then true
      else if search_children xid (childXids s) then true
      else current_in_stack xid l
  end.

Definition TransactionIdIsCurrentTransactionId (xid : Z) (b : backend) : bool :=
  if negb (TransactionIdIsNormal xid) then false
  else if (0 <? length (ParallelCurrentXids b))%nat then
    xid_bsearch Z.ltb (S (length (ParallelCurrentXids b))) (ParallelCurrentXids b) xid 0
      (length (ParallelCurrentXids b))
  else current_in_stack xid (stack b).

(** ** Operations *)

Section Operations.
Context `{Env}.

Definition EnterParallelMode : M unit :=
  Assert "parallelModeLevel >= 0" (fun b => 0 <=? parallelModeLevel (cur b)) ;;
  upd (fun s => set_parallelModeLevel (parallelModeLevel s + 1) s).

Definition ExitParallelMode : M unit :=
  Assert "parallelModeLevel > 0" (fun b => 0 <? parallelModeLevel (cur b)) ;;
  upd (fun s => set_parallelModeLevel (parallelModeLevel s - 1) s).

Definition MarkCurrentTransactionIdLoggedIfAny : M unit :=
  let! x := get (fun b => fullTransactionId (cur b)) in
  when (FullTransactionIdIsValid x) (upd (set_didLogXid true)).

(** *** Assignment of transaction ids

    Level 0 is [TopTransactionStateData], level [k] the [k]-th subtransaction
    from the outside; the parent of level [S k] is level [k]. *)

Definition level (k : nat) (b : backend) : TransactionStateData :=
  match k with
  | O => top b
  | S _ => nth (length (subs b) - k) (subs b) (top b)
  end.

Definition upd_level (k : nat) (f : TransactionStateData -> TransactionStateData) (b : backend)
  : backend :=
  match k with
  | O => set_top (f (top b)) b
  | S _ => set_subs (alter f (length (subs b) - k)%nat (subs b)) b
  end.

Definition curlevel (b : backend) : nat := length (subs b).

Definition level_xid (k : nat) (b : backend) : Z :=
  XidFromFullTransactionId (fullTransactionId (level k b)).
Definition has_xid (k : nat) (b : backend) : bool :=
  FullTransactionIdIsValid (fullTransactionId (level k b)).

(** The levels from [k] outwards up to the first with an id, the outermost
    first: the order in which the code assigns them. *)
Fixpoint unassigned (k : nat) (b : backend) : list nat :=
  if has_xid k b then []
  else match k with O => [O] | S k' => unassigned k' b ++ [k] end.

Fixpoint foreach {A} (f : A -> M unit) (l : list A) : M unit :=
  match l with [] => ret tt | a :: l => f a ;; foreach f l end.

(** The logging of subtransaction ids for standbys. *)
Definition report_assignment (k : nat) (log_unknown_top : bool) : M unit :=
  let! x := get (level_xid k) in
  let! u := get unreportedXids in
  modify (set_unreportedXids (u ++ [x])) ;;
  when ((PGPROC_MAX_CACHED_SUBXIDS <=? Z.of_nat (length (u ++ [x]))) || log_unknown_top)
    (let! xtop := get GetTopTransactionIdIfAny in
     Assert "xtop is valid" (fun _ => TransactionIdIsValid xtop) ;;
     calls [("XLogBeginInsert", []); ("XLogRegisterData", [xtop; Z.of_nat (length (u ++ [x]))]);
            ("XLogRegisterData", u ++ [x]); ("XLogInsert", [])] ;;
     modify (set_unreportedXids []) ;;
     modify (fun b => set_top (set_didLogXid true (top b)) b)).

Definition assign_body (k : nat) : M unit :=
  let isSubXact := negb (Nat.eqb k 0) in
  let! logical := queryb "XLogLogicalInfoActive" [] in
  let! didlog := get (fun b => didLogXid (top b)) in
  let log_unknown_top := isSubXact && logical && negb didlog in
  let! full := sys "GetNewTransactionId" [Z.b2z isSubXact] in
  modify (upd_level k (set_fullTransactionId full)) ;;
  when (negb isSubXact) (modify (set_XactTopFullTransactionId full)) ;;
  let! x := get (level_xid k) in
  let! px := get (level_xid (k - 1)) in
  when isSubXact (calls [("SubTransSetParent", [x; px])]) ;;
  when (negb isSubXact) (calls [("RegisterPredicateLockingXid", [x])]) ;;
  let! currentOwner := get CurrentResourceOwner in
  modify (fun b => set_CurrentResourceOwner (curTransactionOwner (level k b)) b) ;;
  calls [("XactLockTableInsert", [x])] ;;
  modify (set_CurrentResourceOwner currentOwner) ;;
  let! standby := queryb "XLogStandbyInfoActive" [] in
  when (isSubXact && standby) (report_assignment k log_unknown_top).

Fixpoint AssignTransactionId (fuel : nat) (k : nat) : M unit :=
  match fuel with
  | O => fun b => (Exn NOFUEL, b)
  | S fuel =>
      Assert "no id yet" (fun b => negb (has_xid k b)) ;;
      Assert "TRANS_INPROGRESS" (fun b => is_state TRANS_INPROGRESS (level k b)) ;;
      let! parallel := get IsInParallelMode in
      let! worker := queryb "IsParallelWorker" [] in
      if parallel || worker then ereport_ERROR "cannot assign XIDs during a parallel operation"
      else
        (match k with
         | O => ret tt
         | S p =>
             let! parents := get (unassigned p) in
             when (negb (Nat.eqb (length parents) 0))
               (calls [("palloc", [])] ;; foreach (AssignTransactionId fuel) parents)
         end) ;;
        assign_body k
  end.

Definition GetTopTransactionId : M Z :=
  let! x := get XactTopFullTransactionId in
  when (negb (FullTransactionIdIsValid x)) (AssignTransactionId 1 0) ;;
  get GetTopTransactionIdIfAny.

Definition GetCurrentTransactionId : M Z :=
  let! x := get (fun b => fullTransactionId (cur b)) in
  let! k := get curlevel in
  when (negb (FullTransactionIdIsValid x)) (AssignTransactionId (S k) k) ;;
  get GetCurrentTransactionIdIfAny.

(** *** Commands *)

Definition GetCurrentCommandId (used : bool) : M Z :=
  when used
    (let! worker := queryb "IsParallelWorker" [] in
     Assert "not a parallel worker" (fun _ => negb worker) ;;
     modify (set_currentCommandIdUsed true)) ;;
  get currentCommandId.

Definition AtCCI_LocalCache : M unit :=
  calls [("AtCCI_RelationMap", []); ("CommandEndInvalidationMessages", [])].

Definition CommandCounterIncrement : M unit :=
  let! used := get currentCommandIdUsed in
  when used
    (let! parallel := get IsInParallelMode in
     let! worker := queryb "IsParallelWorker" [] in
     when (parallel || worker) (ereport_ERROR "cannot start commands during a parallel operation") ;;
     modify (fun b => set_currentCommandId (u32 (currentCommandId b + 1)) b) ;;
     let! c := get currentCommandId in
     when (c =? InvalidCommandId)
       (modify (fun b => set_currentCommandId (u32 (currentCommandId b - 1)) b) ;;
        ereport_ERROR "cannot have more than 2^32-2 commands in a transaction") ;;
     modify (set_currentCommandIdUsed false) ;;
     calls [("SnapshotSetCommandId", [c])] ;;
     AtCCI_LocalCache).

Definition ForceSyncCommit : M unit := modify (set_forceSyncCommit true).

(** *** Callbacks *)

Definition XACT_EVENT_COMMIT : Z := 0.
Definition XACT_EVENT_PARALLEL_COMMIT : Z := 1.
Definition XACT_EVENT_ABORT : Z := 2.
Definition XACT_EVENT_PARALLEL_ABORT : Z := 3.
Definition XACT_EVENT_PREPARE : Z := 4.
Definition XACT_EVENT_PRE_COMMIT : Z := 5.
Definition XACT_EVENT_PARALLEL_PRE_COMMIT : Z := 6.
Definition XACT_EVENT_PRE_PREPARE : Z := 7.
Definition SUBXACT_EVENT_START_SUB : Z := 0.
Definition SUBXACT_EVENT_COMMIT_SUB : Z := 1.
Definition SUBXACT_EVENT_ABORT_SUB : Z := 2.
Definition SUBXACT_EVENT_PRE_COMMIT_SUB : Z := 3.

Definition RegisterXactCallback (callback arg : Z) : M unit :=
  calls [("MemoryContextAlloc", [])] ;;
  modify (fun b => set_Xact_callbacks ((callback, arg) :: Xact_callbacks b) b).

Fixpoint unregister (callback arg : Z) (l : list (Z * Z)) : list (Z * Z) :=
  match l with
  | [] => []
  | (c, a) :: l => if (c =? callback) && (a =? arg) then l else (c, a) :: unregister callback arg l
  end.

Definition UnregisterXactCallback (callback arg : Z) : M unit :=
  modify (fun b => set_Xact_callbacks (unregister callback arg (Xact_callbacks b)) b).

Definition CallXactCallbacks (event : Z) : M unit :=
  let! l := get Xact_callbacks in
  calls (map (fun i => ("XactCallback", [fst i; event; snd i])) l).

Definition RegisterSubXactCallback (callback arg : Z) : M unit :=
  calls [("MemoryContextAlloc", [])] ;;
  modify (fun b => set_SubXact_callbacks ((callback, arg) :: SubXact_callbacks b) b).

Definition UnregisterSubXactCallback (callback arg : Z) : M unit :=
  modify (fun b => set_SubXact_callbacks (unregister callback arg (SubXact_callbacks b)) b).

Definition CallSubXactCallbacks (event mySubid parentSubid : Z) : M unit :=
  let! l := get SubXact_callbacks in
  calls (map (fun i => ("SubXactCallback", [fst i; event; mySubid; parentSubid; snd i])) l).

(** *** Memory contexts and resource owners *)

Definition AtStart_Memory : M unit :=
  let! a := get TransactionAbortContext in
  (match a with
   | None => let! h := create "AllocSetContextCreate" [0] in
             modify (set_TransactionAbortContext (Some h))
   | Some _ => ret tt
   end) ;;
  Assert "TopTransactionContext == NULL" (fun b => isNone (TopTransactionContext b)) ;;
  let! h := create "AllocSetContextCreate" [0] in
  modify (set_TopTransactionContext (Some h)) ;;
  modify (set_CurTransactionContext (Some h)) ;;
  upd (set_curTransactionContext (Some h)) ;;
  calls [("MemoryContextSwitchTo", [h])].

Definition AtStart_ResourceOwner : M unit :=
  Assert "TopTransactionResourceOwner == NULL" (fun b => isNone (TopTransactionResourceOwner b)) ;;
  let! h := create "ResourceOwnerCreate" [0] in
  upd (set_curTransactionOwner (Some h)) ;;
  modify (set_TopTransactionResourceOwner (Some h)) ;;
  modify (set_CurTransactionResourceOwner (Some h)) ;;
  modify (set_CurrentResourceOwner (Some h)).

Definition has_parent (b : backend) : bool := negb (Nat.eqb (length (subs b)) 0).

Definition AtSubStart_Memory : M unit :=
  Assert "CurTransactionContext != NULL" (fun b => negb (isNone (CurTransactionContext b))) ;;
  let! c := get CurTransactionContext in
  let! h := create "AllocSetContextCreate" [hz c] in
  modify (set_CurTransactionContext (Some h)) ;;
  upd (set_curTransactionContext (Some h)) ;;
  calls [("MemoryContextSwitchTo", [h])].

Definition AtSubStart_ResourceOwner : M unit :=
  Assert "parent != NULL" has_parent ;;
  let! o := get (fun b => curTransactionOwner (parent b)) in
  let! h := create "ResourceOwnerCreate" [hz o] in
  upd (set_curTransactionOwner (Some h)) ;;
  modify (set_CurTransactionResourceOwner (Some h)) ;;
  modify (set_CurrentResourceOwner (Some h)).

Definition AtCommit_Memory : M unit :=
  Assert "TopTransactionContext != NULL" (fun b => negb (isNone (TopTransactionContext b))) ;;
  let! c := get TopTransactionContext in
  calls [("MemoryContextSwitchTo", [0]); ("MemoryContextDelete", [hz c])] ;;
  modify (set_TopTransactionContext None) ;;
  modify (set_CurTransactionContext None) ;;
  upd (set_curTransactionContext None).

Definition AtSubCommit_Memory : M unit :=
  Assert "parent != NULL" has_parent ;;
  modify (fun b => set_CurTransactionContext (curTransactionContext (parent b)) b) ;;
  let! c := get CurTransactionContext in
  calls [("MemoryContextSwitchTo", [hz c])] ;;
  let! sc := get (fun b => curTransactionContext (cur b)) in
  let! empty := queryb "MemoryContextIsEmpty" [hz sc] in
  when empty
    (calls [("MemoryContextDelete", [hz sc])] ;; upd (set_curTransactionContext None)).

Definition AtSubCommit_childXids : M unit :=
  Assert "parent != NULL" has_parent ;;
  let! s := get cur in
  let! p := get parent in
  let n := Z.of_nat (length (childXids p)) + Z.of_nat (length (childXids s)) + 1 in
  when (maxChildXids p <? n)
    (let m := Z.min (n * 2) MaxChildXids in
     when (m <? n)
       (ereport_ERROR "maximum number of committed subtransactions exceeded") ;;
     calls [(match childXids p with [] => "MemoryContextAlloc" | _ => "repalloc" end, [m * 4])] ;;
     modify (fun b => set_parent (set_maxChildXids m (parent b)) b)) ;;
  modify (fun b => set_parent
    (set_childXids (childXids p ++ XidFromFullTransactionId (fullTransactionId s) :: childXids s)
      (parent b)) b) ;;
  upd (fun s => set_maxChildXids 0 (set_childXids [] s)).

Definition AtAbort_Memory : M unit :=
  let! a := get TransactionAbortContext in calls [("MemoryContextSwitchTo", [hz a])].
Definition AtSubAbort_Memory : M unit :=
  Assert "TransactionAbortContext != NULL" (fun b => negb (isNone (TransactionAbortContext b))) ;;
  let! a := get TransactionAbortContext in calls [("MemoryContextSwitchTo", [hz a])].
Definition AtAbort_ResourceOwner : M unit :=
  modify (fun b => set_CurrentResourceOwner (TopTransactionResourceOwner b) b).
Definition AtSubAbort_ResourceOwner : M unit :=
  modify (fun b => set_CurrentResourceOwner (curTransactionOwner (cur b)) b).
Definition AtSubAbort_childXids : M unit :=
  upd (fun s => set_maxChildXids 0 (set_childXids [] s)).

Definition reset_abort_context : M unit :=
  let! a := get TransactionAbortContext in
  match a with
  | None => ret tt
  | Some h => calls [("MemoryContextResetAndDeleteChildren", [h])]
  end.

Definition AtCleanup_Memory : M unit :=
  Assert "parent == NULL" (fun b => negb (has_parent b)) ;;
  calls [("MemoryContextSwitchTo", [0])] ;;
  reset_abort_context ;;
  let! c := get TopTransactionContext in
  (match c with None => ret tt | Some h => calls [("MemoryContextDelete", [h])] end) ;;
  modify (set_TopTransactionContext None) ;;
  modify (set_CurTransactionContext None) ;;
  upd (set_curTransactionContext None).

Definition AtSubCleanup_Memory : M unit :=
  Assert "parent != NULL" has_parent ;;
  let! pc := get (fun b => curTransactionContext (parent b)) in
  calls [("MemoryContextSwitchTo", [hz pc])] ;;
  modify (set_CurTransactionContext pc) ;;
  reset_abort_context ;;
  let! c := get (fun b => curTransactionContext (cur b)) in
  (match c with None => ret tt | Some h => calls [("MemoryContextDelete", [h])] end) ;;
  upd (set_curTransactionContext None).

(** *** Recording the end of a transaction *)

(** An assignment to a variable of another module. *)
Definition note (f : string) (args : list Z) : M unit :=
  modify (fun b => set_trace ((f, args) :: trace b) b).

Definition START_CRIT_SECTION : M unit :=
  modify (fun b => set_CritSectionCount (CritSectionCount b + 1) b).
Definition END_CRIT_SECTION : M unit :=
  Assert "CritSectionCount > 0" (fun b => 0 <? CritSectionCount b) ;;
  modify (fun b => set_CritSectionCount (CritSectionCount b - 1) b).
Definition HOLD_INTERRUPTS : M unit :=
  modify (fun b => set_InterruptHoldoffCount (InterruptHoldoffCount b + 1) b).
Definition RESUME_INTERRUPTS : M unit :=
  Assert "InterruptHoldoffCount > 0" (fun b => 0 <? InterruptHoldoffCount b) ;;
  modify (fun b => set_InterruptHoldoffCount (InterruptHoldoffCount b - 1) b).

Definition SetCurrentTransactionStopTimestamp : M unit :=
  let! t := query "GetCurrentTimestamp" [] in modify (set_xactStopTimestamp t).

(** The commit record and what precedes it, for a transaction with an id. *)
Definition RecordTransactionCommit_log (xid nrels nmsgs : Z) (children : list Z) : M unit :=
  let! replorigin := queryb "replorigin_session_origin is a real origin" [] in
  calls [("BufmgrCommit", [])] ;;
  START_CRIT_SECTION ;;
  note "MyPgXact->delayChkpt :=" [1] ;;
  SetCurrentTransactionStopTimestamp ;;
  let! stop := get xactStopTimestamp in
  let! force := get forceSyncCommit in
  let! flags := get MyXactFlags in
  calls [("XactLogCommitRecord", stop :: nrels :: nmsgs :: Z.b2z force :: flags :: children)] ;;
  when replorigin (calls [("replorigin_session_advance", [])]) ;;
  let! nots := queryb "replorigin_session_origin_timestamp == 0" [] in
  when (negb replorigin || nots) (note "replorigin_session_origin_timestamp :=" [stop]) ;;
  calls [("TransactionTreeSetCommitTsData", xid :: children)].

(** Flushing, the commit log update and the wait for standbys. *)
Definition RecordTransactionCommit_finish (wrote_xlog markXidCommitted : bool) (xid nrels : Z)
  (children : list Z) : M Z :=
  let! sync := queryb "synchronous_commit > SYNCHRONOUS_COMMIT_OFF" [] in
  let! force := get forceSyncCommit in
  (if (wrote_xlog && markXidCommitted && sync) || force || (0 <? nrels) then
     calls [("XLogFlush", [])] ;;
     when markXidCommitted (calls [("TransactionIdCommitTree", xid :: children)])
   else
     calls [("XLogSetAsyncXactLSN", [])] ;;
     when markXidCommitted (calls [("TransactionIdAsyncCommitTree", xid :: children)])) ;;
  when markXidCommitted (note "MyPgXact->delayChkpt :=" [0] ;; END_CRIT_SECTION) ;;
  let latestXid := TransactionIdLatest xid children in
  when (wrote_xlog && markXidCommitted) (calls [("SyncRepWaitForLSN", [1])]) ;;
  note "XactLastCommitEnd := XactLastRecEnd" [] ;;
  note "XactLastRecEnd :=" [0] ;;
  ret latestXid.

Definition RecordTransactionCommit : M Z :=
  let! xid := get GetTopTransactionIdIfAny in
  let markXidCommitted := TransactionIdIsValid xid in
  let! nrels := sys "smgrGetPendingDeletes" [1] in
  let! children := get xactGetCommittedChildren in
  let! standby := queryb "XLogStandbyInfoActive" [] in
  let! nmsgs := (if standby then sys "xactGetCommittedInvalidationMessages" [] else ret 0) in
  let! wrote_xlog := queryb "XactLastRecEnd" [] in
  if negb markXidCommitted then
    when (negb (nrels =? 0))
      (ereport_ERROR "cannot commit a transaction that deleted files but has no xid") ;;
    Assert "nchildren == 0" (fun _ => Nat.eqb (length children) 0) ;;
    when (negb (nmsgs =? 0)) (calls [("LogStandbyInvalidations", [nmsgs])]) ;;
    let wrote_xlog := wrote_xlog || negb (nmsgs =? 0) in
    if negb wrote_xlog then ret InvalidTransactionId
    else RecordTransactionCommit_finish wrote_xlog markXidCommitted xid nrels children
  else
    RecordTransactionCommit_log xid nrels nmsgs children ;;
    RecordTransactionCommit_finish wrote_xlog markXidCommitted xid nrels children.

Definition RecordTransactionAbort (isSubXact : bool) : M Z :=
  let! xid := get GetCurrentTransactionIdIfAny in
  if negb (TransactionIdIsValid xid) then
    when (negb isSubXact) (note "XactLastRecEnd :=" [0]) ;; ret InvalidTransactionId
  else
    let! committed := queryb "TransactionIdDidCommit" [xid] in
    when committed (elog_PANIC "cannot abort transaction, it was already committed") ;;
    let! nrels := sys "smgrGetPendingDeletes" [0] in
    let! children := get xactGetCommittedChildren in
    START_CRIT_SECTION ;;
    let! xact_time :=
      (if isSubXact then query "GetCurrentTimestamp" []
       else SetCurrentTransactionStopTimestamp ;; get xactStopTimestamp) in
    let! flags := get MyXactFlags in
    calls [("XactLogAbortRecord", xact_time :: nrels :: flags :: children)] ;;
    when (negb isSubXact) (calls [("XLogSetAsyncXactLSN", [])]) ;;
    calls [("TransactionIdAbortTree", xid :: children)] ;;
    END_CRIT_SECTION ;;
    let latestXid := TransactionIdLatest xid children in
    when isSubXact (calls [("XidCacheRemoveRunningXids", latestXid :: xid :: children)]) ;;
    when (negb isSubXact) (note "XactLastRecEnd :=" [0]) ;;
    ret latestXid.

(** *** The top-level transaction *)

Definition StartTransaction : M unit :=
  modify (set_subs []) ;;
  Assert "no top id" (fun b => negb (FullTransactionIdIsValid (XactTopFullTransactionId b))) ;;
  Assert "TRANS_DEFAULT" (fun b => is_state TRANS_DEFAULT (cur b)) ;;
  upd (fun s => set_fullTransactionId 0 (set_state TRANS_START s)) ;;
  note "xact_is_sampled :=" [] ;;
  upd (fun s => set_maxChildXids 0 (set_childXids [] (set_gucNestLevel 1 (set_nestingLevel 1 s)))) ;;
  let! user := query "GetUserId" [] in
  let! sec := query "SecurityRestrictionContext" [1] in
  upd (fun s => set_prevSecContext sec (set_prevUser user s)) ;;
  Assert "prevSecContext == 0" (fun b => prevSecContext (cur b) =? 0) ;;
  let! recovery := queryb "RecoveryInProgress" [] in
  let! ro := queryb "DefaultXactReadOnly" [] in
  upd (set_startedInRecovery recovery) ;;
  modify (set_XactReadOnly (recovery || ro)) ;;
  let! def := queryb "DefaultXactDeferrable" [] in
  let! iso := query "DefaultXactIsoLevel" [] in
  modify (fun b => set_MyXactFlags 0 (set_forceSyncCommit false
                     (set_XactIsoLevel iso (set_XactDeferrable def b)))) ;;
  upd (set_subTransactionId TopSubTransactionId) ;;
  modify (fun b => set_currentCommandIdUsed false (set_currentCommandId FirstCommandId
                     (set_currentSubTransactionId TopSubTransactionId b))) ;;
  modify (set_unreportedXids []) ;;
  upd (set_didLogXid false) ;;
  AtStart_Memory ;;
  AtStart_ResourceOwner ;;
  let! l := sys "GetNextLocalTransactionId" [] in
  calls [("VirtualXactLockTableInsert", [l])] ;;
  modify (set_lxid l) ;;
  let! worker := queryb "IsParallelWorker" [] in
  when (negb worker)
    (let! nonatomic := queryb "SPI_inside_nonatomic_context" [] in
     let! now := query "GetCurrentTimestamp" [] in
     modify (fun b => set_xactStartTimestamp (if nonatomic then now else stmtStartTimestamp b) b)) ;;
  let! start := get xactStartTimestamp in
  calls [("pgstat_report_xact_timestamp", [start])] ;;
  modify (set_xactStopTimestamp 0) ;;
  calls [("AtStart_GUC", []); ("AcceptInvalidationMessages", []); ("AfterTriggerBeginXact", [])] ;;
  upd (set_state TRANS_INPROGRESS).

(** Deferred triggers and portals, until closing the portals queues no more
    triggers. *)
Fixpoint PreCommit_loop (fuel : nat) (isPrepare : bool) : M unit :=
  match fuel with
  | O => fun b => (Exn NOFUEL, b)
  | S fuel =>
      calls [("AfterTriggerFireDeferred", [])] ;;
      let! again := sys "PreCommit_Portals" [Z.b2z isPrepare] in
      if again =? 0 then ret tt else PreCommit_loop fuel isPrepare
  end.

(** [ResourceOwnerRelease(TopTransactionResourceOwner, phase, isCommit, true)] *)
Definition RESOURCE_RELEASE_BEFORE_LOCKS : Z := 0.
Definition RESOURCE_RELEASE_LOCKS : Z := 1.
Definition RESOURCE_RELEASE_AFTER_LOCKS : Z := 2.
Definition ReleaseTop (phase : Z) (isCommit : bool) : M unit :=
  let! o := get TopTransactionResourceOwner in
  calls [("ResourceOwnerRelease", [hz o; phase; Z.b2z isCommit; 1])].

(** The last part of a commit, a prepare or a cleanup: the fields of the top
    level and the ids of the transaction are reset. *)
Definition reset_top : M unit :=
  upd (fun s => set_maxChildXids 0 (set_childXids [] (set_gucNestLevel 0 (set_nestingLevel 0
        (set_subTransactionId InvalidSubTransactionId (set_fullTransactionId 0 s)))))).

Definition clear_owners : M unit :=
  upd (set_curTransactionOwner None) ;;
  modify (fun b => set_TopTransactionResourceOwner None (set_CurTransactionResourceOwner None b)).

Definition CommitTransaction : M unit :=
  let! is_parallel_worker := get (fun b => is_block TBLOCK_PARALLEL_INPROGRESS (cur b)) in
  let w := Z.b2z is_parallel_worker in
  when is_parallel_worker EnterParallelMode ;;
  let! inprogress := get (fun b => is_state TRANS_INPROGRESS (cur b)) in
  when (negb inprogress) (warning "CommitTransaction while not in progress") ;;
  Assert "parent == NULL" (fun b => negb (has_parent b)) ;;
  PreCommit_loop loop_fuel false ;;
  CallXactCallbacks
    (if is_parallel_worker then XACT_EVENT_PARALLEL_PRE_COMMIT else XACT_EVENT_PRE_COMMIT) ;;
  let! parallel := get IsInParallelMode in
  when parallel (calls [("AtEOXact_Parallel", [1])]) ;;
  calls [("AfterTriggerEndXact", [1]); ("PreCommit_on_commit_actions", []);
         ("AtEOXact_LargeObject", [1]); ("PreCommit_Notify", [])] ;;
  when (negb is_parallel_worker) (calls [("PreCommit_CheckForSerializationFailure", [])]) ;;
  HOLD_INTERRUPTS ;;
  calls [("AtEOXact_RelationMap", [1; w])] ;;
  upd (fun s => set_parallelModeLevel 0 (set_state TRANS_COMMIT s)) ;;
  let! latestXid :=
    (if negb is_parallel_worker then RecordTransactionCommit
     else calls [("ParallelWorkerReportLastRecEnd", [])] ;; ret InvalidTransactionId) in
  calls [("ProcArrayEndTransaction", [latestXid])] ;;
  CallXactCallbacks
    (if is_parallel_worker then XACT_EVENT_PARALLEL_COMMIT else XACT_EVENT_COMMIT) ;;
  ReleaseTop RESOURCE_RELEASE_BEFORE_LOCKS true ;;
  calls [("AtEOXact_Buffers", [1]); ("AtEOXact_RelationCache", [1]); ("AtEOXact_Inval", [1]);
         ("AtEOXact_MultiXact", [])] ;;
  ReleaseTop RESOURCE_RELEASE_LOCKS true ;;
  ReleaseTop RESOURCE_RELEASE_AFTER_LOCKS true ;;
  calls [("smgrDoPendingDeletes", [1]); ("AtCommit_Notify", []); ("AtEOXact_GUC", [1; 1]);
         ("AtEOXact_SPI", [1]); ("AtEOXact_Enum", []); ("AtEOXact_on_commit_actions", [1]);
         ("AtEOXact_Namespace", [1; w]); ("AtEOXact_SMgr", []); ("AtEOXact_Files", [1]);
         ("AtEOXact_ComboCid", []); ("AtEOXact_HashTables", [1]); ("AtEOXact_PgStat", [1; w]);
         ("AtEOXact_Snapshot", [1; 0]); ("AtEOXact_ApplyLauncher", [1]);
         ("pgstat_report_xact_timestamp", [0])] ;;
  modify (set_CurrentResourceOwner None) ;;
  let! o := get TopTransactionResourceOwner in
  calls [("ResourceOwnerDelete", [hz o])] ;;
  clear_owners ;;
  AtCommit_Memory ;;
  reset_top ;;
  modify (fun b => set_ParallelCurrentXids [] (set_XactTopFullTransactionId 0 b)) ;;
  upd (set_state TRANS_DEFAULT) ;;
  RESUME_INTERRUPTS.

Definition XACT_FLAGS_ACCESSEDTEMPNAMESPACE : Z := 1.

Definition PrepareTransaction : M unit :=
  let! xid := GetCurrentTransactionId in
  Assert "not in parallel mode" (fun b => negb (IsInParallelMode b)) ;;
  let! inprogress := get (fun b => is_state TRANS_INPROGRESS (cur b)) in
  when (negb inprogress) (warning "PrepareTransaction while not in progress") ;;
  Assert "parent == NULL" (fun b => negb (has_parent b)) ;;
  PreCommit_loop loop_fuel true ;;
  CallXactCallbacks XACT_EVENT_PRE_PREPARE ;;
  calls [("AfterTriggerEndXact", [1]); ("PreCommit_on_commit_actions", []);
         ("AtEOXact_LargeObject", [1]); ("PreCommit_CheckForSerializationFailure", [])] ;;
  let! flags := get MyXactFlags in
  when (negb (Z.land flags XACT_FLAGS_ACCESSEDTEMPNAMESPACE =? 0))
    (ereport_ERROR "cannot PREPARE a transaction that has operated on temporary objects") ;;
  let! exported := queryb "XactHasExportedSnapshots" [] in
  when exported (ereport_ERROR "cannot PREPARE a transaction that has exported snapshots") ;;
  let! workers := queryb "XactManipulatesLogicalReplicationWorkers" [] in
  when workers
    (ereport_ERROR "cannot PREPARE a transaction that has manipulated logical replication workers") ;;
  HOLD_INTERRUPTS ;;
  upd (set_state TRANS_PREPARE) ;;
  let! prepared_at := query "GetCurrentTimestamp" [] in
  calls [("BufmgrCommit", []); ("MarkAsPreparing", [xid; prepared_at])] ;;
  modify (set_prepareGID None) ;;
  calls [("StartPrepare", [xid]); ("AtPrepare_Notify", []); ("AtPrepare_Locks", []);
         ("AtPrepare_PredicateLocks", []); ("AtPrepare_PgStat", []); ("AtPrepare_MultiXact", []);
         ("AtPrepare_RelationMap", []); ("EndPrepare", [xid])] ;;
  note "XactLastRecEnd :=" [0] ;;
  calls [("ProcArrayClearTransaction", [])] ;;
  CallXactCallbacks XACT_EVENT_PREPARE ;;
  ReleaseTop RESOURCE_RELEASE_BEFORE_LOCKS true ;;
  calls [("AtEOXact_Buffers", [1]); ("AtEOXact_RelationCache", [1]); ("PostPrepare_PgStat", []);
         ("PostPrepare_Inval", []); ("PostPrepare_smgr", []); ("PostPrepare_MultiXact", [xid]);
         ("PostPrepare_Locks", [xid]); ("PostPrepare_PredicateLocks", [xid])] ;;
  ReleaseTop RESOURCE_RELEASE_LOCKS true ;;
  ReleaseTop RESOURCE_RELEASE_AFTER_LOCKS true ;;
  calls [("PostPrepare_Twophase", []); ("AtEOXact_GUC", [1; 1]); ("AtEOXact_SPI", [1]);
         ("AtEOXact_Enum", []); ("AtEOXact_on_commit_actions", [1]);
         ("AtEOXact_Namespace", [1; 0]); ("AtEOXact_SMgr", []); ("AtEOXact_Files", [1]);
         ("AtEOXact_ComboCid", []); ("AtEOXact_HashTables", [1]); ("AtEOXact_Snapshot", [1; 1]);
         ("pgstat_report_xact_timestamp", [0])] ;;
  modify (set_CurrentResourceOwner None) ;;
  let! o := get TopTransactionResourceOwner in
  calls [("ResourceOwnerDelete", [hz o])] ;;
  clear_owners ;;
  AtCommit_Memory ;;
  reset_top ;;
  modify (fun b => set_ParallelCurrentXids [] (set_XactTopFullTransactionId 0 b)) ;;
  upd (set_state TRANS_DEFAULT) ;;
  RESUME_INTERRUPTS.

(** What an abort releases before anything else, for a transaction and for a
    subtransaction. *)
Definition abort_prologue : list call :=
  [("LWLockReleaseAll", []); ("pgstat_report_wait_end", []); ("pgstat_progress_end_command", []);
   ("AbortBufferIO", []); ("UnlockBuffers", []); ("XLogResetInsertion", []);
   ("ConditionVariableCancelSleep", []); ("LockErrorCleanup", []); ("reschedule_timeouts", []);
   ("PG_SETMASK(&UnBlockSig)", [])].

Definition AbortTransaction : M unit :=
  HOLD_INTERRUPTS ;;
  AtAbort_Memory ;;
  AtAbort_ResourceOwner ;;
  calls abort_prologue ;;
  let! is_parallel_worker := get (fun b => is_block TBLOCK_PARALLEL_INPROGRESS (cur b)) in
  let w := Z.b2z is_parallel_worker in
  let! expected := get (fun b => is_state TRANS_INPROGRESS (cur b) || is_state TRANS_PREPARE (cur b)) in
  when (negb expected) (warning "AbortTransaction while not in progress") ;;
  Assert "parent == NULL" (fun b => negb (has_parent b)) ;;
  upd (set_state TRANS_ABORT) ;;
  let! s := get cur in
  calls [("SetUserIdAndSecContext", [prevUser s; prevSecContext s])] ;;
  let! parallel := get IsInParallelMode in
  when parallel (calls [("AtEOXact_Parallel", [0])] ;; upd (set_parallelModeLevel 0)) ;;
  calls [("AfterTriggerEndXact", [0]); ("AtAbort_Portals", []); ("AtEOXact_LargeObject", [0]);
         ("AtAbort_Notify", []); ("AtEOXact_RelationMap", [0; w]); ("AtAbort_Twophase", [])] ;;
  let! latestXid :=
    (if negb is_parallel_worker then RecordTransactionAbort false
     else calls [("XLogSetAsyncXactLSN", [])] ;; ret InvalidTransactionId) in
  calls [("ProcArrayEndTransaction", [latestXid])] ;;
  let! o := get TopTransactionResourceOwner in
  when (negb (isNone o))
    (CallXactCallbacks
       (if is_parallel_worker then XACT_EVENT_PARALLEL_ABORT else XACT_EVENT_ABORT) ;;
     ReleaseTop RESOURCE_RELEASE_BEFORE_LOCKS false ;;
     calls [("AtEOXact_Buffers", [0]); ("AtEOXact_RelationCache", [0]); ("AtEOXact_Inval", [0]);
            ("AtEOXact_MultiXact", [])] ;;
     ReleaseTop RESOURCE_RELEASE_LOCKS false ;;
     ReleaseTop RESOURCE_RELEASE_AFTER_LOCKS false ;;
     calls [("smgrDoPendingDeletes", [0]); ("AtEOXact_GUC", [0; 1]); ("AtEOXact_SPI", [0]);
            ("AtEOXact_Enum", []); ("AtEOXact_on_commit_actions", [0]);
            ("AtEOXact_Namespace", [0; w]); ("AtEOXact_SMgr", []); ("AtEOXact_Files", [0]);
            ("AtEOXact_ComboCid", []); ("AtEOXact_HashTables", [0]); ("AtEOXact_PgStat", [0; w]);
            ("AtEOXact_ApplyLauncher", [0]); ("pgstat_report_xact_timestamp", [0])]) ;;
  RESUME_INTERRUPTS.

Definition CleanupTransaction : M unit :=
  let! aborted := get (fun b => is_state TRANS_ABORT (cur b)) in
  when (negb aborted) (elog_FATAL "CleanupTransaction: unexpected state") ;;
  calls [("AtCleanup_Portals", []); ("AtEOXact_Snapshot", [0; 1])] ;;
  modify (set_CurrentResourceOwner None) ;;
  let! o := get TopTransactionResourceOwner in
  when (negb (isNone o)) (calls [("ResourceOwnerDelete", [hz o])]) ;;
  clear_owners ;;
  AtCleanup_Memory ;;
  reset_top ;;
  upd (set_parallelModeLevel 0) ;;
  modify (fun b => set_ParallelCurrentXids [] (set_XactTopFullTransactionId 0 b)) ;;
  upd (set_state TRANS_DEFAULT).

(** *** Subtransactions *)

(** [ResourceOwnerRelease(s->curTransactionOwner, phase, isCommit, false)] *)
Definition ReleaseSub (phase : Z) (isCommit : bool) : M unit :=
  let! o := get (fun b => curTransactionOwner (cur b)) in
  calls [("ResourceOwnerRelease", [hz o; phase; Z.b2z isCommit; 0])].

Definition PushTransaction : M unit :=
  let! p := get cur in
  calls [("MemoryContextAllocZero", [])] ;;
  modify (fun b => set_currentSubTransactionId (u32 (currentSubTransactionId b + 1)) b) ;;
  let! subid := get currentSubTransactionId in
  when (subid =? InvalidSubTransactionId)
    (modify (fun b => set_currentSubTransactionId (u32 (currentSubTransactionId b - 1)) b) ;;
     ereport_ERROR "cannot have more than 2^32-1 subtransactions in a transaction") ;;
  let! guc := sys "NewGUCNestLevel" [] in
  let! user := query "GetUserId" [] in
  let! sec := query "SecurityRestrictionContext" [nestingLevel p + 1] in
  let! ro := get XactReadOnly in
  let s := {| fullTransactionId := 0; subTransactionId := subid; name := None;
              savepointLevel := savepointLevel p; state := TRANS_DEFAULT;
              blockState := TBLOCK_SUBBEGIN; nestingLevel := nestingLevel p + 1;
              gucNestLevel := guc; curTransactionContext := None; curTransactionOwner := None;
              childXids := []; maxChildXids := 0; prevUser := user; prevSecContext := sec;
              prevXactReadOnly := ro; startedInRecovery := false; didLogXid := false;
              parallelModeLevel := 0; chain := false |} in
  modify (fun b => set_subs (s :: subs b) b).

Definition PopTransaction : M unit :=
  let! d := get (fun b => is_state TRANS_DEFAULT (cur b)) in
  when (negb d) (warning "PopTransaction while not in DEFAULT state") ;;
  let! hp := get has_parent in
  when (negb hp) (elog_FATAL "PopTransaction with no parent") ;;
  let! s := get cur in
  modify (fun b => set_subs (tail (subs b)) b) ;;
  let! p := get cur in
  modify (set_CurTransactionContext (curTransactionContext p)) ;;
  calls [("MemoryContextSwitchTo", [hz (curTransactionContext p)])] ;;
  modify (fun b => set_CurrentResourceOwner (curTransactionOwner p)
                     (set_CurTransactionResourceOwner (curTransactionOwner p) b)) ;;
  when (negb (isNone (name s))) (calls [("pfree", [])]) ;;
  calls [("pfree", [])].

Definition StartSubTransaction : M unit :=
  let! d := get (fun b => is_state TRANS_DEFAULT (cur b)) in
  when (negb d) (warning "StartSubTransaction while not in DEFAULT state") ;;
  upd (set_state TRANS_START) ;;
  AtSubStart_Memory ;;
  AtSubStart_ResourceOwner ;;
  calls [("AtSubStart_Notify", []); ("AfterTriggerBeginSubXact", [])] ;;
  upd (set_state TRANS_INPROGRESS) ;;
  let! s := get cur in
  let! p := get parent in
  CallSubXactCallbacks SUBXACT_EVENT_START_SUB (subTransactionId s) (subTransactionId p).

(** The switch to the parent's resource owner, and the deletion of one's own. *)
Definition leave_owner : M unit :=
  let! o := get (fun b => curTransactionOwner (cur b)) in
  modify (fun b => set_CurTransactionResourceOwner (curTransactionOwner (parent b))
                     (set_CurrentResourceOwner (curTransactionOwner (parent b)) b)) ;;
  when (negb (isNone o)) (calls [("ResourceOwnerDelete", [hz o])]) ;;
  upd (set_curTransactionOwner None).

Definition CommitSubTransaction : M unit :=
  let! inprogress := get (fun b => is_state TRANS_INPROGRESS (cur b)) in
  when (negb inprogress) (warning "CommitSubTransaction while not in progress") ;;
  let! s := get cur in
  let! p := get parent in
  let sub := subTransactionId s in
  let psub := subTransactionId p in
  let lev := nestingLevel s in
  CallSubXactCallbacks SUBXACT_EVENT_PRE_COMMIT_SUB sub psub ;;
  let! parallel := get IsInParallelMode in
  when parallel (calls [("AtEOSubXact_Parallel", [1; sub])] ;; upd (set_parallelModeLevel 0)) ;;
  upd (set_state TRANS_COMMIT) ;;
  CommandCounterIncrement ;;
  let! x := get (fun b => fullTransactionId (cur b)) in
  when (FullTransactionIdIsValid x) AtSubCommit_childXids ;;
  calls [("AfterTriggerEndSubXact", [1]);
         ("AtSubCommit_Portals", [sub; psub; hz (curTransactionOwner p)]);
         ("AtEOSubXact_LargeObject", [1; sub; psub]); ("AtSubCommit_Notify", [])] ;;
  CallSubXactCallbacks SUBXACT_EVENT_COMMIT_SUB sub psub ;;
  ReleaseSub RESOURCE_RELEASE_BEFORE_LOCKS true ;;
  calls [("AtEOSubXact_RelationCache", [1; sub; psub]); ("AtEOSubXact_Inval", [1]);
         ("AtSubCommit_smgr", [])] ;;
  modify (fun b => set_CurrentResourceOwner (curTransactionOwner (cur b)) b) ;;
  when (FullTransactionIdIsValid x)
    (calls [("XactLockTableDelete", [XidFromFullTransactionId x])]) ;;
  ReleaseSub RESOURCE_RELEASE_LOCKS true ;;
  ReleaseSub RESOURCE_RELEASE_AFTER_LOCKS true ;;
  calls [("AtEOXact_GUC", [1; gucNestLevel s]); ("AtEOSubXact_SPI", [1; sub]);
         ("AtEOSubXact_on_commit_actions", [1; sub; psub]);
         ("AtEOSubXact_Namespace", [1; sub; psub]); ("AtEOSubXact_Files", [1; sub; psub]);
         ("AtEOSubXact_HashTables", [1; lev]); ("AtEOSubXact_PgStat", [1; lev]);
         ("AtSubCommit_Snapshot", [lev]); ("AtEOSubXact_ApplyLauncher", [1; lev])] ;;
  modify (set_XactReadOnly (prevXactReadOnly s)) ;;
  modify (fun b => set_CurTransactionResourceOwner (curTransactionOwner (parent b))
                     (set_CurrentResourceOwner (curTransactionOwner (parent b)) b)) ;;
  let! o := get (fun b => curTransactionOwner (cur b)) in
  calls [("ResourceOwnerDelete", [hz o])] ;;
  upd (set_curTransactionOwner None) ;;
  AtSubCommit_Memory ;;
  upd (set_state TRANS_DEFAULT) ;;
  PopTransaction.

Definition AbortSubTransaction : M unit :=
  HOLD_INTERRUPTS ;;
  AtSubAbort_Memory ;;
  AtSubAbort_ResourceOwner ;;
  calls abort_prologue ;;
  let! inprogress := get (fun b => is_state TRANS_INPROGRESS (cur b)) in
  when (negb inprogress) (warning "AbortSubTransaction while not in progress") ;;
  upd (set_state TRANS_ABORT) ;;
  let! s := get cur in
  let! p := get parent in
  let sub := subTransactionId s in
  let psub := subTransactionId p in
  let lev := nestingLevel s in
  calls [("SetUserIdAndSecContext", [prevUser s; prevSecContext s])] ;;
  let! parallel := get IsInParallelMode in
  when parallel (calls [("AtEOSubXact_Parallel", [0; sub])] ;; upd (set_parallelModeLevel 0)) ;;
  when (negb (isNone (curTransactionOwner s)))
    (calls [("AfterTriggerEndSubXact", [0]);
            ("AtSubAbort_Portals", [sub; psub; hz (curTransactionOwner s); hz (curTransactionOwner p)]);
            ("AtEOSubXact_LargeObject", [0; sub; psub]); ("AtSubAbort_Notify", [])] ;;
     let! _ := RecordTransactionAbort true in
     when (FullTransactionIdIsValid (fullTransactionId s)) AtSubAbort_childXids ;;
     CallSubXactCallbacks SUBXACT_EVENT_ABORT_SUB sub psub ;;
     ReleaseSub RESOURCE_RELEASE_BEFORE_LOCKS false ;;
     calls [("AtEOSubXact_RelationCache", [0; sub; psub]); ("AtEOSubXact_Inval", [0])] ;;
     ReleaseSub RESOURCE_RELEASE_LOCKS false ;;
     ReleaseSub RESOURCE_RELEASE_AFTER_LOCKS false ;;
     calls [("AtSubAbort_smgr", []); ("AtEOXact_GUC", [0; gucNestLevel s]);
            ("AtEOSubXact_SPI", [0; sub]); ("AtEOSubXact_on_commit_actions", [0; sub; psub]);
            ("AtEOSubXact_Namespace", [0; sub; psub]); ("AtEOSubXact_Files", [0; sub; psub]);
            ("AtEOSubXact_HashTables", [0; lev]); ("AtEOSubXact_PgStat", [0; lev]);
            ("AtSubAbort_Snapshot", [lev]); ("AtEOSubXact_ApplyLauncher", [0; lev])]) ;;
  modify (set_XactReadOnly (prevXactReadOnly s)) ;;
  RESUME_INTERRUPTS.

Definition CleanupSubTransaction : M unit :=
  let! aborted := get (fun b => is_state TRANS_ABORT (cur b)) in
  when (negb aborted) (warning "CleanupSubTransaction while not in ABORT state") ;;
  let! s := get cur in
  calls [("AtSubCleanup_Portals", [subTransactionId s])] ;;
  leave_owner ;;
  AtSubCleanup_Memory ;;
  upd (set_state TRANS_DEFAULT) ;;
  PopTransaction.

(** ** Transaction commands *)

Definition SaveTransactionCharacteristics : M unit :=
  modify (fun b => set_save_XactDeferrable (XactDeferrable b)
    (set_save_XactReadOnly (XactReadOnly b) (set_save_XactIsoLevel (XactIsoLevel b) b))).
Definition RestoreTransactionCharacteristics : M unit :=
  modify (fun b => set_XactDeferrable (save_XactDeferrable b)
    (set_XactReadOnly (save_XactReadOnly b) (set_XactIsoLevel (save_XactIsoLevel b) b))).

(** A level of the stack as pattern of its block state. *)
Definition curblock : M TBlockState := get (fun b => blockState (cur b)).
Definition setblock (t : TBlockState) : M unit := upd (set_blockState t).

Definition switch_to_cur_context : M unit :=
  Assert "CurTransactionContext != NULL" (fun b => negb (isNone (CurTransactionContext b))) ;;
  let! c := get CurTransactionContext in
  calls [("MemoryContextSwitchTo", [hz c])].

Definition StartTransactionCommand : M unit :=
  let! bs := curblock in
  (match bs with
   | TBLOCK_DEFAULT => StartTransaction ;; setblock TBLOCK_STARTED
   | TBLOCK_INPROGRESS | TBLOCK_IMPLICIT_INPROGRESS | TBLOCK_SUBINPROGRESS => ret tt
   | TBLOCK_ABORT | TBLOCK_SUBABORT => ret tt
   | _ => ereport_ERROR "StartTransactionCommand: unexpected state"
   end) ;;
  switch_to_cur_context.

(** The start of the next transaction after COMMIT or ROLLBACK AND CHAIN. *)
Definition start_chained : M unit :=
  let! c := get (fun b => chain (cur b)) in
  when c
    (StartTransaction ;; setblock TBLOCK_INPROGRESS ;; upd (set_chain false) ;;
     RestoreTransactionCharacteristics).

Definition DefineSavepoint (nm : option string) : M unit :=
  let! parallel := get IsInParallelMode in
  when parallel (ereport_ERROR "cannot define savepoints during a parallel operation") ;;
  let! bs := curblock in
  match bs with
  | TBLOCK_INPROGRESS | TBLOCK_SUBINPROGRESS =>
      PushTransaction ;;
      match nm with
      | None => ret tt
      | Some _ => calls [("MemoryContextStrdup", [])] ;; upd (set_name nm)
      end
  | TBLOCK_IMPLICIT_INPROGRESS =>
      ereport_ERROR "SAVEPOINT can only be used in transaction blocks"
  | _ => elog_FATAL "DefineSavepoint: unexpected state"
  end.

(** [do CommitSubTransaction(); while (s->blockState == bs)] *)
Fixpoint commit_subs_while (fuel : nat) (bs : TBlockState) : M unit :=
  match fuel with
  | O => fun b => (Exn NOFUEL, b)
  | S fuel =>
      CommitSubTransaction ;;
      let! again := get (fun b => is_block bs (cur b)) in
      if again then commit_subs_while fuel bs else ret tt
  end.

(** The new subtransaction of ROLLBACK TO: a savepoint with the old name and
    level. *)
Definition restart_subxact (undo : M unit) : M unit :=
  let! s := get cur in
  upd (set_name None) ;;
  undo ;;
  DefineSavepoint None ;;
  upd (fun s' => set_savepointLevel (savepointLevel s) (set_name (name s) s')) ;;
  Assert "TBLOCK_SUBBEGIN" (fun b => is_block TBLOCK_SUBBEGIN (cur b)) ;;
  StartSubTransaction ;;
  setblock TBLOCK_SUBINPROGRESS.

(** The recursion pops one level each time, so the depth of the stack bounds
    it. *)
Fixpoint CommitTransactionCommand_rec (fuel : nat) : M unit :=
  match fuel with
  | O => fun b => (Exn NOFUEL, b)
  | S fuel =>
      let! c := get (fun b => chain (cur b)) in
      when c SaveTransactionCharacteristics ;;
      let! bs := curblock in
      let! depth := get (fun b => S (length (subs b))) in
      match bs with
      | TBLOCK_DEFAULT | TBLOCK_PARALLEL_INPROGRESS =>
          elog_FATAL "CommitTransactionCommand: unexpected state"
      | TBLOCK_STARTED => CommitTransaction ;; setblock TBLOCK_DEFAULT
      | TBLOCK_BEGIN => setblock TBLOCK_INPROGRESS
      | TBLOCK_INPROGRESS | TBLOCK_IMPLICIT_INPROGRESS | TBLOCK_SUBINPROGRESS =>
          CommandCounterIncrement
      | TBLOCK_END => CommitTransaction ;; setblock TBLOCK_DEFAULT ;; start_chained
      | TBLOCK_ABORT | TBLOCK_SUBABORT => ret tt
      | TBLOCK_ABORT_END => CleanupTransaction ;; setblock TBLOCK_DEFAULT ;; start_chained
      | TBLOCK_ABORT_PENDING =>
          AbortTransaction ;; CleanupTransaction ;; setblock TBLOCK_DEFAULT ;; start_chained
      | TBLOCK_PREPARE => PrepareTransaction ;; setblock TBLOCK_DEFAULT
      | TBLOCK_SUBBEGIN => StartSubTransaction ;; setblock TBLOCK_SUBINPROGRESS
      | TBLOCK_SUBRELEASE =>
          commit_subs_while depth TBLOCK_SUBRELEASE ;;
          Assert "INPROGRESS" (fun b => is_block TBLOCK_INPROGRESS (cur b) ||
                                        is_block TBLOCK_SUBINPROGRESS (cur b))
      | TBLOCK_SUBCOMMIT =>
          commit_subs_while depth TBLOCK_SUBCOMMIT ;;
          let! bs := curblock in
          match bs with
          | TBLOCK_END =>
              Assert "parent == NULL" (fun b => negb (has_parent b)) ;;
              CommitTransaction ;; setblock TBLOCK_DEFAULT
          | TBLOCK_PREPARE =>
              Assert "parent == NULL" (fun b => negb (has_parent b)) ;;
              PrepareTransaction ;; setblock TBLOCK_DEFAULT
          | _ => ereport_ERROR "CommitTransactionCommand: unexpected state"
          end
      | TBLOCK_SUBABORT_END => CleanupSubTransaction ;; CommitTransactionCommand_rec fuel
      | TBLOCK_SUBABORT_PENDING =>
          AbortSubTransaction ;; CleanupSubTransaction ;; CommitTransactionCommand_rec fuel
      | TBLOCK_SUBRESTART => restart_subxact (AbortSubTransaction ;; CleanupSubTransaction)
      | TBLOCK_SUBABORT_RESTART => restart_subxact CleanupSubTransaction
      end
  end.

Definition CommitTransactionCommand : M unit :=
  let! depth := get (fun b => S (length (subs b))) in CommitTransactionCommand_rec depth.

Definition abort_and_cleanup : M unit :=
  AbortTransaction ;; CleanupTransaction ;; setblock TBLOCK_DEFAULT.

(** In [TBLOCK_DEFAULT]: nothing to do, unless a transaction was being
    started. *)
Definition abort_starting : M unit :=
  let! s := get cur in
  if is_state TRANS_DEFAULT s then ret tt
  else
    when (is_state TRANS_START s) (upd (set_state TRANS_INPROGRESS)) ;;
    AbortTransaction ;; CleanupTransaction.

Fixpoint AbortCurrentTransaction_rec (fuel : nat) : M unit :=
  match fuel with
  | O => fun b => (Exn NOFUEL, b)
  | S fuel =>
      let! bs := curblock in
      match bs with
      | TBLOCK_DEFAULT => abort_starting
      | TBLOCK_STARTED | TBLOCK_IMPLICIT_INPROGRESS => abort_and_cleanup
      | TBLOCK_BEGIN => abort_and_cleanup
      | TBLOCK_INPROGRESS | TBLOCK_PARALLEL_INPROGRESS =>
          AbortTransaction ;; setblock TBLOCK_ABORT
      | TBLOCK_END => abort_and_cleanup
      | TBLOCK_ABORT | TBLOCK_SUBABORT => ret tt
      | TBLOCK_ABORT_END => CleanupTransaction ;; setblock TBLOCK_DEFAULT
      | TBLOCK_ABORT_PENDING => abort_and_cleanup
      | TBLOCK_PREPARE => abort_and_cleanup
      | TBLOCK_SUBINPROGRESS => AbortSubTransaction ;; setblock TBLOCK_SUBABORT
      | TBLOCK_SUBBEGIN | TBLOCK_SUBRELEASE | TBLOCK_SUBCOMMIT | TBLOCK_SUBABORT_PENDING
      | TBLOCK_SUBRESTART =>
          AbortSubTransaction ;; CleanupSubTransaction ;; AbortCurrentTransaction_rec fuel
      | TBLOCK_SUBABORT_END | TBLOCK_SUBABORT_RESTART =>
          CleanupSubTransaction ;; AbortCurrentTransaction_rec fuel
      end
  end.

Definition AbortCurrentTransaction : M unit :=
  let! depth := get (fun b => S (length (subs b))) in AbortCurrentTransaction_rec depth.

Definition PreventInTransactionBlock (isTopLevel : bool) : M unit :=
  let! block := get IsTransactionBlock in
  when block (ereport_ERROR "cannot run inside a transaction block") ;;
  let! sub := get IsSubTransaction in
  when sub (ereport_ERROR "cannot run inside a subtransaction") ;;
  when (negb isTopLevel) (ereport_ERROR "cannot be executed from a function") ;;
  let! s := get cur in
  when (negb (is_block TBLOCK_DEFAULT s) && negb (is_block TBLOCK_STARTED s))
    (elog_FATAL "cannot prevent transaction chain").

Definition CheckTransactionBlock (isTopLevel throwError : bool) : M unit :=
  let! block := get IsTransactionBlock in
  let! sub := get IsSubTransaction in
  if block then ret tt else if sub then ret tt else if negb isTopLevel then ret tt
  else if throwError then ereport_ERROR "can only be used in transaction blocks"
  else warning "can only be used in transaction blocks".
Definition WarnNoTransactionBlock (isTopLevel : bool) : M unit :=
  CheckTransactionBlock isTopLevel false.
Definition RequireTransactionBlock (isTopLevel : bool) : M unit :=
  CheckTransactionBlock isTopLevel true.

Definition IsInTransactionBlock (isTopLevel : bool) (b : backend) : bool :=
  if IsTransactionBlock b then true
  else if IsSubTransaction b then true
  else if negb isTopLevel then true
  else negb (is_block TBLOCK_DEFAULT (cur b)) && negb (is_block TBLOCK_STARTED (cur b)).

(** ** Transaction block commands *)

Definition BeginTransactionBlock : M unit :=
  let! bs := curblock in
  match bs with
  | TBLOCK_STARTED => setblock TBLOCK_BEGIN
  | TBLOCK_IMPLICIT_INPROGRESS => setblock TBLOCK_BEGIN
  | TBLOCK_INPROGRESS | TBLOCK_PARALLEL_INPROGRESS | TBLOCK_SUBINPROGRESS
  | TBLOCK_ABORT | TBLOCK_SUBABORT => warning "there is already a transaction in progress"
  | _ => elog_FATAL "BeginTransactionBlock: unexpected state"
  end.

(** The block state of every subtransaction is advanced; the first level the
    step rejects is a FATAL error. *)
Definition mark_subs (step : TBlockState -> option TBlockState) : M unit :=
  let! l := get subs in
  modify (set_subs (mark step l).1) ;;
  when (negb (mark step l).2) (elog_FATAL "unexpected state").

Definition mark_top (step : TBlockState -> option TBlockState) : M unit :=
  let! t := get top in
  match step (blockState t) with
  | Some bs => modify (set_top (set_blockState bs t))
  | None => elog_FATAL "unexpected state"
  end.

Definition step_subcommit (bs : TBlockState) : option TBlockState :=
  match bs with TBLOCK_SUBINPROGRESS => Some TBLOCK_SUBCOMMIT | _ => None end.
Definition step_end (bs : TBlockState) : option TBlockState :=
  match bs with TBLOCK_INPROGRESS => Some TBLOCK_END | _ => None end.
Definition step_subabort (bs : TBlockState) : option TBlockState :=
  match bs with
  | TBLOCK_SUBINPROGRESS => Some TBLOCK_SUBABORT_PENDING
  | TBLOCK_SUBABORT => Some TBLOCK_SUBABORT_END
  | _ => None
  end.
Definition step_abort (bs : TBlockState) : option TBlockState :=
  match bs with
  | TBLOCK_INPROGRESS => Some TBLOCK_ABORT_PENDING
  | TBLOCK_ABORT => Some TBLOCK_ABORT_END
  | _ => None
  end.
Definition step_release (bs : TBlockState) : option TBlockState :=
  match bs with TBLOCK_SUBINPROGRESS => Some TBLOCK_SUBRELEASE | _ => None end.
Definition step_restart (bs : TBlockState) : option TBlockState :=
  match bs with
  | TBLOCK_SUBINPROGRESS => Some TBLOCK_SUBRESTART
  | TBLOCK_SUBABORT => Some TBLOCK_SUBABORT_RESTART
  | _ => None
  end.

(** Outside a block: an error with AND CHAIN, a warning without. *)
Definition no_block (chain : bool) : M unit :=
  if chain then ereport_ERROR "AND CHAIN can only be used in transaction blocks"
  else warning "there is no transaction in progress".

(** The level the code calls [s] at the end of the two routines below is the
    top level: either the current one, or where the walk over the parents
    stopped. *)
Definition set_top_chain (c : bool) : M unit :=
  modify (fun b => set_top (set_chain c (top b)) b).

Definition EndTransactionBlock (chain : bool) : M bool :=
  let! bs := curblock in
  match bs with
  | TBLOCK_INPROGRESS => setblock TBLOCK_END ;; upd (set_chain chain) ;; ret true
  | TBLOCK_IMPLICIT_INPROGRESS =>
      no_block chain ;; setblock TBLOCK_END ;; upd (set_chain chain) ;; ret true
  | TBLOCK_ABORT => setblock TBLOCK_ABORT_END ;; upd (set_chain chain) ;; ret false
  | TBLOCK_SUBINPROGRESS =>
      mark_subs step_subcommit ;; mark_top step_end ;; set_top_chain chain ;; ret true
  | TBLOCK_SUBABORT =>
      mark_subs step_subabort ;; mark_top step_abort ;; set_top_chain chain ;; ret false
  | TBLOCK_STARTED => no_block chain ;; upd (set_chain chain) ;; ret true
  | TBLOCK_PARALLEL_INPROGRESS => elog_FATAL "cannot commit during a parallel operation"
  | _ => elog_FATAL "EndTransactionBlock: unexpected state"
  end.

Definition PrepareTransactionBlock (gid : string) : M bool :=
  let! result := EndTransactionBlock false in
  if result then
    let! t := get top in
    if is_block TBLOCK_END t then
      calls [("MemoryContextStrdup", [])] ;;
      modify (set_prepareGID (Some gid)) ;;
      modify (fun b => set_top (set_blockState TBLOCK_PREPARE (top b)) b) ;;
      ret true
    else
      Assert "STARTED" (fun b => is_block TBLOCK_STARTED (top b) ||
                                 is_block TBLOCK_IMPLICIT_INPROGRESS (top b)) ;;
      ret false
  else ret false.

Definition UserAbortTransactionBlock (chain : bool) : M unit :=
  let! bs := curblock in
  match bs with
  | TBLOCK_INPROGRESS => setblock TBLOCK_ABORT_PENDING ;; upd (set_chain chain)
  | TBLOCK_ABORT => setblock TBLOCK_ABORT_END ;; upd (set_chain chain)
  | TBLOCK_SUBINPROGRESS | TBLOCK_SUBABORT =>
      mark_subs step_subabort ;; mark_top step_abort ;; set_top_chain chain
  | TBLOCK_STARTED | TBLOCK_IMPLICIT_INPROGRESS =>
      no_block chain ;; setblock TBLOCK_ABORT_PENDING ;; upd (set_chain chain)
  | TBLOCK_PARALLEL_INPROGRESS => elog_FATAL "cannot abort during a parallel operation"
  | _ => elog_FATAL "UserAbortTransactionBlock: unexpected state"
  end.

Definition BeginImplicitTransactionBlock : M unit :=
  upd (fun s => if is_block TBLOCK_STARTED s then set_blockState TBLOCK_IMPLICIT_INPROGRESS s else s).

Definition EndImplicitTransactionBlock : M unit :=
  upd (fun s => if is_block TBLOCK_IMPLICIT_INPROGRESS s then set_blockState TBLOCK_STARTED s else s).

(** ** Savepoints *)

(** The innermost level with a name, counted from the current one. *)
Definition find_savepoint (nm : string) (b : backend) : option (nat * TransactionStateData) :=
  list_find (fun s => name s = Some nm) (stack b).

Definition mark_first (n : nat) (step : TBlockState -> option TBlockState) (err : M unit) : M unit :=
  let! l := get stack in
  let r := mark step (take n l) in
  modify (set_stack (r.1 ++ drop n l)) ;;
  when (negb r.2) err.

(** The part RELEASE and ROLLBACK TO share: finding the target. *)
Definition savepoint_target (nm : string) (k : nat -> M unit) : M unit :=
  let! s := get cur in
  let! t := get (find_savepoint nm) in
  match t with
  | None => ereport_ERROR "savepoint does not exist"
  | Some (i, target) =>
      if negb (savepointLevel target =? savepointLevel s)
      then ereport_ERROR "savepoint does not exist within current savepoint level"
      else k i
  end.

Definition ReleaseSavepoint (nm : string) : M unit :=
  let! parallel := get IsInParallelMode in
  when parallel (ereport_ERROR "cannot release savepoints during a parallel operation") ;;
  let! bs := curblock in
  match bs with
  | TBLOCK_INPROGRESS => ereport_ERROR "savepoint does not exist"
  | TBLOCK_IMPLICIT_INPROGRESS =>
      ereport_ERROR "RELEASE SAVEPOINT can only be used in transaction blocks"
  | TBLOCK_SUBINPROGRESS =>
      savepoint_target nm (fun i =>
        mark_first (S i) step_release (fun b => (Exn (ASSERT "TBLOCK_SUBINPROGRESS"), b)))
  | _ => elog_FATAL "ReleaseSavepoint: unexpected state"
  end.

Definition RollbackToSavepoint (nm : string) : M unit :=
  let! parallel := get IsInParallelMode in
  when parallel (ereport_ERROR "cannot rollback to savepoints during a parallel operation") ;;
  let! bs := curblock in
  match bs with
  | TBLOCK_INPROGRESS | TBLOCK_ABORT => ereport_ERROR "savepoint does not exist"
  | TBLOCK_IMPLICIT_INPROGRESS =>
      ereport_ERROR "ROLLBACK TO SAVEPOINT can only be used in transaction blocks"
  | TBLOCK_SUBINPROGRESS | TBLOCK_SUBABORT =>
      savepoint_target nm (fun i =>
        mark_first i step_subabort (elog_FATAL "RollbackToSavepoint: unexpected state") ;;
        let! l := get stack in
        match drop i l with
        | xact :: rest =>
            match step_restart (blockState xact) with
            | Some bs => modify (set_stack (take i l ++ set_blockState bs xact :: rest))
            | None => elog_FATAL "RollbackToSavepoint: unexpected state"
            end
        | [] => fun b => (Exn (ASSERT "xact is valid"), b)
        end)
  | _ => elog_FATAL "RollbackToSavepoint: unexpected state"
  end.

(** ** Internal subtransactions *)

Definition BeginInternalSubTransaction (nm : option string) : M unit :=
  let! parallel := get IsInParallelMode in
  when parallel (ereport_ERROR "cannot start subtransactions during a parallel operation") ;;
  let! bs := curblock in
  (match bs with
   | TBLOCK_STARTED | TBLOCK_INPROGRESS | TBLOCK_IMPLICIT_INPROGRESS | TBLOCK_END
   | TBLOCK_PREPARE | TBLOCK_SUBINPROGRESS =>
       PushTransaction ;;
       match nm with
       | None => ret tt
       | Some _ => calls [("MemoryContextStrdup", [])] ;; upd (set_name nm)
       end
   | _ => elog_FATAL "BeginInternalSubTransaction: unexpected state"
   end) ;;
  CommitTransactionCommand ;;
  StartTransactionCommand.

Definition ReleaseCurrentSubTransaction : M unit :=
  let! parallel := get IsInParallelMode in
  when parallel (ereport_ERROR "cannot commit subtransactions during a parallel operation") ;;
  let! bs := curblock in
  match bs with
  | TBLOCK_SUBINPROGRESS =>
      Assert "TRANS_INPROGRESS" (fun b => is_state TRANS_INPROGRESS (cur b)) ;;
      let! c := get CurTransactionContext in
      calls [("MemoryContextSwitchTo", [hz c])] ;;
      CommitSubTransaction ;;
      Assert "TRANS_INPROGRESS" (fun b => is_state TRANS_INPROGRESS (cur b))
  | _ => ereport_ERROR "ReleaseCurrentSubTransaction: unexpected state"
  end.

Definition RollbackAndReleaseCurrentSubTransaction : M unit :=
  let! bs := curblock in
  (match bs with
   | TBLOCK_SUBINPROGRESS => AbortSubTransaction ;; CleanupSubTransaction
   | TBLOCK_SUBABORT => CleanupSubTransaction
   | _ => elog_FATAL "RollbackAndReleaseCurrentSubTransaction: unexpected state"
   end) ;;
  Assert "in progress" (fun b => is_block TBLOCK_SUBINPROGRESS (cur b) ||
    is_block TBLOCK_INPROGRESS (cur b) || is_block TBLOCK_IMPLICIT_INPROGRESS (cur b) ||
    is_block TBLOCK_STARTED (cur b)).

Fixpoint AbortOutOfAny_loop (fuel : nat) : M unit :=
  match fuel with
  | O => fun b => (Exn NOFUEL, b)
  | S fuel =>
      let! s := get cur in
      let! p := get parent in
      (match blockState s with
       | TBLOCK_DEFAULT => abort_starting
       | TBLOCK_STARTED | TBLOCK_BEGIN | TBLOCK_INPROGRESS | TBLOCK_IMPLICIT_INPROGRESS
       | TBLOCK_PARALLEL_INPROGRESS | TBLOCK_END | TBLOCK_ABORT_PENDING | TBLOCK_PREPARE =>
           abort_and_cleanup
       | TBLOCK_ABORT | TBLOCK_ABORT_END =>
           calls [("AtAbort_Portals", [])] ;; CleanupTransaction ;; setblock TBLOCK_DEFAULT
       | TBLOCK_SUBBEGIN | TBLOCK_SUBINPROGRESS | TBLOCK_SUBRELEASE | TBLOCK_SUBCOMMIT
       | TBLOCK_SUBABORT_PENDING | TBLOCK_SUBRESTART =>
           AbortSubTransaction ;; CleanupSubTransaction
       | TBLOCK_SUBABORT | TBLOCK_SUBABORT_END | TBLOCK_SUBABORT_RESTART =>
           when (negb (isNone (curTransactionOwner s)))
             (calls [("AtSubAbort_Portals", [subTransactionId s; subTransactionId p;
                        hz (curTransactionOwner s); hz (curTransactionOwner p)])]) ;;
           CleanupSubTransaction
       end) ;;
      let! again := get (fun b => negb (is_block TBLOCK_DEFAULT (cur b))) in
      if again then AbortOutOfAny_loop fuel else ret tt
  end.

Definition AbortOutOfAnyTransaction : M unit :=
  AtAbort_Memory ;;
  let! depth := get (fun b => S (length (subs b))) in
  AbortOutOfAny_loop depth ;;
  Assert "parent == NULL" (fun b => negb (has_parent b)) ;;
  AtCleanup_Memory.

(** ** Parallel workers *)

Record SerializedTransactionState := {
  ser_XactIsoLevel : Z; ser_XactDeferrable : bool;
  ser_topFullTransactionId : Z; ser_currentFullTransactionId : Z; ser_currentCommandId : Z;
  ser_parallelCurrentXids : list Z }.

(** The ids of a stack: each level's own id, then those of its committed
    children. *)
Definition level_xids (s : TransactionStateData) : list Z :=
  (if FullTransactionIdIsValid (fullTransactionId s)
   then [XidFromFullTransactionId (fullTransactionId s)] else []) ++ childXids s.

(** qsort with xidComparator, the numerical order. *)
Fixpoint xid_insert (x : Z) (l : list Z) : list Z :=
  match l with
  | [] => [x]
  | y :: l => if x <=? y then x :: y :: l else y :: xid_insert x l
  end.
Definition xid_qsort (l : list Z) : list Z := foldr xid_insert [] l.

Definition SerializeTransactionState (b : backend) : SerializedTransactionState :=
  {| ser_XactIsoLevel := XactIsoLevel b; ser_XactDeferrable := XactDeferrable b;
     ser_topFullTransactionId := XactTopFullTransactionId b;
     ser_currentFullTransactionId := fullTransactionId (cur b);
     ser_currentCommandId := currentCommandId b;
     ser_parallelCurrentXids :=
       if (0 <? length (ParallelCurrentXids b))%nat then ParallelCurrentXids b
       else xid_qsort (mjoin (map level_xids (stack b))) |}.

Definition StartParallelWorkerTransaction (tstate : SerializedTransactionState) : M unit :=
  Assert "TBLOCK_DEFAULT" (fun b => is_block TBLOCK_DEFAULT (cur b)) ;;
  StartTransaction ;;
  modify (fun b => set_XactTopFullTransactionId (ser_topFullTransactionId tstate)
    (set_XactDeferrable (ser_XactDeferrable tstate) (set_XactIsoLevel (ser_XactIsoLevel tstate) b))) ;;
  upd (set_fullTransactionId (ser_currentFullTransactionId tstate)) ;;
  modify (fun b => set_ParallelCurrentXids (ser_parallelCurrentXids tstate)
    (set_currentCommandId (ser_currentCommandId tstate) b)) ;;
  setblock TBLOCK_PARALLEL_INPROGRESS.

Definition EndParallelWorkerTransaction : M unit :=
  Assert "TBLOCK_PARALLEL_INPROGRESS" (fun b => is_block TBLOCK_PARALLEL_INPROGRESS (cur b)) ;;
  CommitTransaction ;;
  setblock TBLOCK_DEFAULT.

End Operations.

End Xact.
