(* ===== verification/XactLogic.v ===== *)
(** * Invariant and program logic of the transaction state machine

    The theorems about [Xact.v].  They are proved with a small program logic
    for the monad [M]: [triple P m Q] says that from a state in [P], a normal
    end of [m] is in [Q], an ERROR or a FATAL leaves the invariant [Inv], a
    PANIC leaves a consistent trace, and no [Assert] fails and no bound is
    exceeded.  A call of another module may raise an error at any point, so
    every triple is also a statement about all error exits of the routine. *)

From S2P Require Import Prelude.
From S2P Require Import Transam.
From S2P Require Import Xact.

Import Transam Xact.

Open Scope Z_scope.

Module XactLogic.

(** ** What the trace says about transaction ids *)

(** The calls that give an id or decide its fate. *)
Definition fate_call (f : string) : bool :=
  bool_decide (f ∈ ["GetNewTransactionId"; "TransactionIdCommitTree";
                    "TransactionIdAsyncCommitTree"; "TransactionIdAbortTree"]%string).

Section Ghost.
Context `{Env}.

(** The ids given out, those committed as a top-level transaction and those
    aborted in their own name. *)
Fixpoint assigned (tr : list call) : list Z :=
  match tr with
  | [] => []
  | (f, args) :: tr' =>
      if String.eqb f "GetNewTransactionId"
      then XidFromFullTransactionId (value tr' (f, args)) :: assigned tr' else assigned tr'
  end.

Fixpoint main_ids (names : list string) (tr : list call) : list Z :=
  match tr with
  | [] => []
  | (f, args) :: tr' =>
      if existsb (String.eqb f) names
      then match args with x :: _ => x :: main_ids names tr' | [] => main_ids names tr' end
      else main_ids names tr'
  end.
Definition commits : list call -> list Z :=
  main_ids ["TransactionIdCommitTree"; "TransactionIdAsyncCommitTree"]%string.
Definition aborts : list call -> list Z := main_ids ["TransactionIdAbortTree"]%string.

(** The ids of each such call: the transaction and its committed children. *)
Fixpoint fate_args (names : list string) (tr : list call) : list (list Z) :=
  match tr with
  | [] => []
  | (f, args) :: tr' =>
      if existsb (String.eqb f) names then args :: fate_args names tr' else fate_args names tr'
  end.
Definition commit_trees : list call -> list (list Z) :=
  fate_args ["TransactionIdCommitTree"; "TransactionIdAsyncCommitTree"]%string.
Definition abort_trees : list call -> list (list Z) := fate_args ["TransactionIdAbortTree"]%string.

(** What xact.c relies on.  A call that hands out an id hands out a valid and
    new one (the 32-bit ids of one backend do not wrap around while it lives;
    when they are used up the call fails); the commit log answers yes for the
    ids it was told to commit; the security context is clear at top level; and
    closing portals comes to an end. *)
Class EnvLaws : Prop := {
  new_xid_valid tr args :
    raises tr ("GetNewTransactionId"%string, args) = false ->
    FullTransactionIdIsValid (value tr ("GetNewTransactionId"%string, args)) = true;
  new_xid_fresh tr args :
    raises tr ("GetNewTransactionId"%string, args) = false ->
    XidFromFullTransactionId (value tr ("GetNewTransactionId"%string, args)) ∉ assigned tr;
  did_commit_law tr x :
    x ∈ commits tr -> value tr ("TransactionIdDidCommit"%string, [x]) <> 0;
  sec_context_law tr : value tr ("SecurityRestrictionContext"%string, [1]) = 0;
  portals_end p b : fst (PreCommit_loop loop_fuel p b) <> Exn NOFUEL }.

End Ghost.

(** ** The invariant *)

Definition is_sub_block (bs : TBlockState) : bool :=
  match bs with
  | TBLOCK_SUBBEGIN | TBLOCK_SUBINPROGRESS | TBLOCK_SUBRELEASE | TBLOCK_SUBCOMMIT
  | TBLOCK_SUBABORT | TBLOCK_SUBABORT_END | TBLOCK_SUBABORT_PENDING | TBLOCK_SUBRESTART
  | TBLOCK_SUBABORT_RESTART => true
  | _ => false
  end.

(** The low-level state a block state goes with, between commands. *)
Definition exp_state (bs : TBlockState) : TransState :=
  match bs with
  | TBLOCK_DEFAULT | TBLOCK_SUBBEGIN => TRANS_DEFAULT
  | TBLOCK_ABORT | TBLOCK_ABORT_END | TBLOCK_SUBABORT | TBLOCK_SUBABORT_END
  | TBLOCK_SUBABORT_RESTART => TRANS_ABORT
  | _ => TRANS_INPROGRESS
  end.

Definition own (s : TransactionStateData) : Z := XidFromFullTransactionId (fullTransactionId s).
Definition valid_own (s : TransactionStateData) : Prop :=
  FullTransactionIdIsValid (fullTransactionId s) = true.

(** A level that is not the current one. *)
Definition parent_ok (s : TransactionStateData) : Prop :=
  state s = TRANS_INPROGRESS /\ exp_state (blockState s) = TRANS_INPROGRESS /\
  curTransactionContext s <> None.

(** The shape of the stack. *)
Definition level_ok (s : TransactionStateData) : Prop :=
  (FullTransactionIdIsValid (fullTransactionId s) = false -> childXids s = []) /\
  0 <= parallelModeLevel s.

Fixpoint sub_levels (l : list TransactionStateData) : Prop :=
  match l with
  | [] => True
  | s :: l' => is_sub_block (blockState s) = true /\ nestingLevel s = 2 + Z.of_nat (length l') /\
               level_ok s /\ (blockState s = TBLOCK_SUBABORT -> state s = TRANS_ABORT) /\
               sub_levels l'
  end.

(** A level with an id has a parent with an id. *)
Fixpoint chained (l : list TransactionStateData) : Prop :=
  match l with
  | [] => True
  | s :: l' =>
      match l' with
      | [] => True
      | p :: _ => (valid_own s -> valid_own p) /\ chained l'
      end
  end.

(** The block states of a level and of its parent. *)
Definition live_block (p : TBlockState) : bool :=
  match p with
  | TBLOCK_SUBINPROGRESS | TBLOCK_INPROGRESS | TBLOCK_STARTED | TBLOCK_IMPLICIT_INPROGRESS
  | TBLOCK_END | TBLOCK_PREPARE => true
  | _ => false
  end.

Definition below (c p : TBlockState) : bool :=
  match c with
  | TBLOCK_SUBBEGIN | TBLOCK_SUBINPROGRESS | TBLOCK_SUBABORT | TBLOCK_SUBRESTART
  | TBLOCK_SUBABORT_RESTART => live_block p
  | TBLOCK_SUBRELEASE =>
      match p with
      | TBLOCK_SUBRELEASE | TBLOCK_SUBINPROGRESS | TBLOCK_INPROGRESS => true
      | _ => false
      end
  | _ => true
  end.

Fixpoint belows (l : list TransactionStateData) : Prop :=
  match l with
  | [] => True
  | s :: l' =>
      match l' with
      | [] => True
      | p :: _ => below (blockState s) (blockState p) = true /\ belows l'
      end
  end.

Record shape (t : TransactionStateData) (l : list TransactionStateData) : Prop := {
  sh_top : is_sub_block (blockState t) = false /\ blockState t <> TBLOCK_PARALLEL_INPROGRESS;
  sh_top_name : name t = None;
  sh_top_ok : level_ok t;
  sh_subs : sub_levels l;
  sh_parents : Forall parent_ok (tail (l ++ [t]));
  sh_chained : chained (l ++ [t]);
  sh_below : belows (l ++ [t]);
  sh_default : state t = TRANS_DEFAULT -> blockState t = TBLOCK_DEFAULT;
  sh_abort : blockState t = TBLOCK_ABORT \/ blockState t = TBLOCK_ABORT_END ->
             state t = TRANS_ABORT;
  sh_nest : blockState t <> TBLOCK_DEFAULT -> nestingLevel t = 1 }.

(** The variables that go with the stack. *)
Record vars_ok (t : TransactionStateData) (xtop : Z)
  (topctx curctx abctx topowner : option Z) : Prop := {
  va_idle : state t = TRANS_DEFAULT ->
    xtop = 0 /\ fullTransactionId t = 0 /\ childXids t = [] /\
    topctx = None /\ topowner = None /\ parallelModeLevel t = 0;
  va_block : blockState t <> TBLOCK_DEFAULT ->
    topctx <> None /\ curctx <> None /\ abctx <> None /\ curTransactionContext t <> None;
  va_xtop : exp_state (blockState t) = TRANS_INPROGRESS -> xtop = fullTransactionId t }.

(** The states of a transaction that has neither committed nor aborted. *)
Definition live_state (st : TransState) : bool :=
  match st with TRANS_START | TRANS_INPROGRESS => true | _ => false end.

(** The ids of the stack and the trace. *)
Record ids_ok (t : TransactionStateData) (l : list TransactionStateData)
  (given com ab : list Z) : Prop := {
  id_excl x : x ∈ com -> x ∈ ab -> False;
  id_live : live_state (state t) = true -> valid_own t -> own t ∉ ab;
  id_given : Forall (fun s => valid_own s -> own s ∈ given) (l ++ [t]);
  id_com x : x ∈ com -> x ∈ given;
  id_ab x : x ∈ ab -> x ∈ given;
  id_sub : Forall (fun s => valid_own s -> own s <> own t) l }.

Lemma belows_map l l' : map blockState l' = map blockState l -> belows l -> belows l'.
Proof.
  revert l'. induction l as [|s l IH]; intros [|s' l']; try done.
  cbn [map]. intros [= Hs Hl]. destruct l as [|p l], l' as [|p' l']; try done.
  pose proof Hl as [= Hp _]. change (below (blockState s) (blockState p) = true /\ belows (p :: l) ->
    below (blockState s') (blockState p') = true /\ belows (p' :: l')).
  rewrite Hs, Hp. intros [Hb Hl']. split; [done|]. by apply (IH (p' :: l')).
Qed.

Section Inv.
Context `{Env}.

Definition Inv (b : backend) : Prop :=
  shape (top b) (subs b) /\
  vars_ok (top b) (XactTopFullTransactionId b) (TopTransactionContext b)
    (CurTransactionContext b) (TransactionAbortContext b) (TopTransactionResourceOwner b) /\
  ids_ok (top b) (subs b) (assigned (trace b)) (commits (trace b)) (aborts (trace b)) /\
  0 <= CritSectionCount b /\ 0 <= InterruptHoldoffCount b.

(** Between commands the low-level states are the expected ones. *)
Definition Settled (b : backend) : Prop :=
  Inv b /\ state (cur b) = exp_state (blockState (cur b)) /\ CritSectionCount b = 0 /\
  (exp_state (blockState (cur b)) = TRANS_INPROGRESS -> curTransactionContext (cur b) <> None).

Definition consistent (b : backend) : Prop :=
  forall x, x ∈ commits (trace b) -> x ∈ aborts (trace b) -> False.

Definition E (e : exn) (b : backend) : Prop :=
  match e with
  | ERROR _ | FATAL _ => Inv b /\ CritSectionCount b = 0
  | PANIC _ => consistent b
  | ASSERT _ | NOFUEL => False
  end.

(** ** The program logic *)

Definition triple {A} (P : backend -> Prop) (m : M A) (Q : A -> backend -> Prop) : Prop :=
  forall b, P b -> match m b with (Ok a, b') => Q a b' | (Exn e, b') => E e b' end.

(** A predicate that does not depend on the calls made. *)
Definition Stable (P : backend -> Prop) : Prop :=
  forall b f args, fate_call f = false -> P b -> P (set_trace ((f, args) :: trace b) b).

End Inv.

Lemma is_state_true st s : state s = st -> is_state st s = true.
Proof. intros. by apply bool_decide_eq_true. Qed.
Lemma is_state_false st s : state s <> st -> is_state st s = false.
Proof. intros. by apply bool_decide_eq_false. Qed.
Lemma is_block_true bs s : blockState s = bs -> is_block bs s = true.
Proof. intros. by apply bool_decide_eq_true. Qed.
Lemma is_block_false bs s : blockState s <> bs -> is_block bs s = false.
Proof. intros. by apply bool_decide_eq_false. Qed.

Section Logic.
Context `{Env}.

Definition wp {A} (m : M A) (Q : A -> backend -> Prop) (b : backend) : Prop :=
  match m b with (Ok a, b') => Q a b' | (Exn e, b') => E e b' end.

Lemma wp_bind {A B} (m : M A) (k : A -> M B) Q b :
  wp m (fun a b' => wp (k a) Q b') b -> wp (bind m k) Q b.
Proof. unfold wp, bind. destruct (m b) as [[a|e] b']; done. Qed.

Lemma wp_assoc {A B C} (m : M A) (k : A -> M B) (k' : B -> M C) Q b :
  wp (bind m (fun a => bind (k a) k')) Q b -> wp (bind (bind m k) k') Q b.
Proof. unfold wp, bind. destruct (m b) as [[a|e] b']; done. Qed.

Lemma wp_group {A B C} (m : M A) (k : A -> M B) (k' : B -> M C) Q b :
  wp (bind (bind m k) k') Q b -> wp (bind m (fun a => bind (k a) k')) Q b.
Proof. unfold wp, bind. destruct (m b) as [[a|e] b']; done. Qed.

Lemma wp_mono {A} (m : M A) (Q Q' : A -> backend -> Prop) b :
  wp m Q b -> (forall a b', Q a b' -> Q' a b') -> wp m Q' b.
Proof. unfold wp. destruct (m b) as [[a|e] b']; auto. Qed.

Lemma wp_triple {A B} P (m : M A) (k : A -> M B) Q R b :
  triple P m R -> P b -> (forall a b', R a b' -> wp (k a) Q b') -> wp (bind m k) Q b.
Proof.
  intros Hm HP Hk. apply wp_bind. specialize (Hm b HP). revert Hm. unfold wp.
  destruct (m b) as [[a|e] b']; [apply Hk|done].
Qed.

Lemma wp_when {B} c (m : M unit) (k : unit -> M B) Q b :
  (c = true -> wp (bind m k) Q b) -> (c = false -> wp (k tt) Q b) ->
  wp (bind (when c m) k) Q b.
Proof. destruct c; cbn; auto. Qed.

Lemma wp_assert {B} msg p (k : unit -> M B) Q b :
  p b = true -> wp (k tt) Q b -> wp (bind (Assert msg p) k) Q b.
Proof. unfold wp, bind, Assert. intros ->. done. Qed.

(** The part of the trace the invariant reads. *)
Definition same_ghost (tr tr' : list call) : Prop :=
  assigned tr' = assigned tr /\ commits tr' = commits tr /\ aborts tr' = aborts tr /\
  commit_trees tr' = commit_trees tr /\ abort_trees tr' = abort_trees tr.

Lemma same_ghost_cons f args tr : fate_call f = false -> same_ghost tr ((f, args) :: tr).
Proof.
  unfold fate_call. rewrite bool_decide_eq_false. intros Hf.
  rewrite !elem_of_cons, !elem_of_nil in Hf. unfold same_ghost, commits, aborts, commit_trees, abort_trees. cbn.
  repeat match goal with
  | |- context [String.eqb f ?s] => destruct (String.eqb_spec f s); [tauto|cbn]
  end. done.
Qed.

Lemma same_ghost_trans tr1 tr2 tr3 :
  same_ghost tr1 tr2 -> same_ghost tr2 tr3 -> same_ghost tr1 tr3.
Proof. unfold same_ghost. intros (->&->&->&->&->) (->&->&->&->&->). done. Qed.

Lemma Inv_trace tr b : same_ghost (trace b) tr -> Inv b -> Inv (set_trace tr b).
Proof. unfold Inv. cbn. intros (->&->&->&_). done. Qed.

Lemma Inv_consistent b : Inv b -> consistent b.
Proof. intros (?&?&[]&?). done. Qed.

Lemma wp_error {A} msg (Q : A -> backend -> Prop) b : Inv b -> wp (ereport_ERROR msg) Q b.
Proof.
  intros HI. unfold wp, ereport_ERROR. destruct (Z.ltb_spec 0 (CritSectionCount b)); cbn.
  { by apply Inv_consistent. }
  destruct HI as (?&?&?&?&?). split; [|cbn; lia]. by repeat (split; [done|]).
Qed.

Lemma wp_fatal {A} msg (Q : A -> backend -> Prop) b : Inv b -> wp (elog_FATAL msg) Q b.
Proof.
  intros HI. unfold wp, elog_FATAL. destruct (Z.ltb_spec 0 (CritSectionCount b)); cbn.
  { by apply Inv_consistent. }
  split; [done|]. destruct HI as (?&?&?&?&?). lia.
Qed.

(** An error in a computation whose continuation does not matter. *)
Lemma wp_error_bind {A B} msg (k : A -> M B) Q b : Inv b -> wp (bind (ereport_ERROR msg) k) Q b.
Proof. intros. by apply wp_bind, wp_error. Qed.
Lemma wp_fatal_bind {A B} msg (k : A -> M B) Q b : Inv b -> wp (bind (elog_FATAL msg) k) Q b.
Proof. intros. by apply wp_bind, wp_fatal. Qed.
Lemma wp_panic_bind {A B} msg (k : A -> M B) Q b : Inv b -> wp (bind (elog_PANIC msg) k) Q b.
Proof. intros. by apply Inv_consistent. Qed.

Lemma wp_sys {B} f args (k : Z -> M B) Q b :
  fate_call f = false -> Inv b ->
  (forall v tr, same_ghost (trace b) tr -> Inv (set_trace tr b) -> wp (k v) Q (set_trace tr b)) ->
  wp (bind (sys f args) k) Q b.
Proof.
  intros Hf HI Hk. apply wp_bind. unfold wp, sys.
  pose proof (same_ghost_cons f args (trace b) Hf) as Hg.
  pose proof (Inv_trace _ _ Hg HI) as HI'.
  destruct (raises _ _); [|by apply Hk].
  exact (wp_error f (fun a b' => wp (k a) Q b') _ HI').
Qed.

Lemma wp_note {B} f args (k : unit -> M B) Q b :
  fate_call f = false -> Inv b ->
  (forall tr, same_ghost (trace b) tr -> Inv (set_trace tr b) -> wp (k tt) Q (set_trace tr b)) ->
  wp (bind (note f args) k) Q b.
Proof.
  intros Hf HI Hk. pose proof (same_ghost_cons f args (trace b) Hf) as Hg.
  apply Hk; [done|]. by apply Inv_trace.
Qed.

Lemma wp_create {B} f args (k : Z -> M B) Q b :
  fate_call f = false -> Inv b ->
  (forall v tr, same_ghost (trace b) tr -> Inv (set_trace tr b) -> wp (k v) Q (set_trace tr b)) ->
  wp (bind (create f args) k) Q b.
Proof.
  intros Hf HI Hk. unfold create. apply wp_assoc, wp_sys; [done..|]. intros v tr Hg HI'.
  by apply Hk.
Qed.

Lemma wp_calls {B} l (k : unit -> M B) Q b :
  forallb (fun c => negb (fate_call (fst c))) l = true -> Inv b ->
  (forall tr, same_ghost (trace b) tr -> Inv (set_trace tr b) -> wp (k tt) Q (set_trace tr b)) ->
  wp (bind (calls l) k) Q b.
Proof.
  revert b. induction l as [|[f args] l IH]; intros b Hl HI Hk; cbn [calls].
  { destruct b. by apply Hk. }
  cbn in Hl. apply andb_true_iff in Hl as [Hf Hl]. apply negb_true_iff in Hf.
  apply wp_assoc, wp_sys; [done..|]. intros _ tr Hg HI'. apply IH; [done..|].
  intros tr' Hg' HI''. apply (Hk tr'); [|done]. by eapply same_ghost_trans.
Qed.

(** The primitives that cannot fail. *)
Lemma wp_get {A B} (f : backend -> A) (k : A -> M B) Q b :
  wp (k (f b)) Q b -> wp (bind (get f) k) Q b.
Proof. done. Qed.
Lemma wp_modify {B} f (k : unit -> M B) Q b : wp (k tt) Q (f b) -> wp (bind (modify f) k) Q b.
Proof. done. Qed.
Lemma wp_upd {B} f (k : unit -> M B) Q b :
  wp (k tt) Q (set_cur (f (cur b)) b) -> wp (bind (upd f) k) Q b.
Proof. done. Qed.
Lemma wp_setblock {B} t (k : unit -> M B) Q b :
  wp (k tt) Q (set_cur (set_blockState t (cur b)) b) -> wp (bind (setblock t) k) Q b.
Proof. done. Qed.
Lemma wp_curblock {B} (k : TBlockState -> M B) Q b :
  wp (k (blockState (cur b))) Q b -> wp (bind curblock k) Q b.
Proof. done. Qed.
Lemma wp_query {B} f args (k : Z -> M B) Q b :
  wp (k (value (trace b) (f, args))) Q b -> wp (bind (query f args) k) Q b.
Proof. done. Qed.
Lemma wp_queryb {B} f args (k : bool -> M B) Q b :
  wp (k (negb (value (trace b) (f, args) =? 0))) Q b -> wp (bind (queryb f args) k) Q b.
Proof. done. Qed.
Lemma wp_ret {A B} (a : A) (k : A -> M B) Q b : wp (k a) Q b -> wp (bind (ret a) k) Q b.
Proof. done. Qed.
Lemma wp_when_true {B} m (k : unit -> M B) Q b : wp (bind m k) Q b -> wp (bind (when true m) k) Q b.
Proof. done. Qed.
Lemma wp_when_false {B} m (k : unit -> M B) Q b : wp (k tt) Q b -> wp (bind (when false m) k) Q b.
Proof. done. Qed.

Lemma wp_ret_last {A} (m : M A) Q b : wp (bind m ret) Q b -> wp m Q b.
Proof. unfold wp, bind. destruct (m b) as [[a|e] b']; done. Qed.

(** Computations that only make calls. *)
Definition quiet {A} (m : M A) : Prop := forall b, Inv b ->
  wp m (fun _ b' => exists tr, b' = set_trace tr b /\ same_ghost (trace b) tr /\ Inv b') b.

Lemma set_trace_same b : set_trace (trace b) b = b.
Proof. by destruct b. Qed.

Lemma wp_quiet {A B} (m : M A) (k : A -> M B) Q b :
  quiet m -> Inv b ->
  (forall a tr, same_ghost (trace b) tr -> Inv (set_trace tr b) -> wp (k a) Q (set_trace tr b)) ->
  wp (bind m k) Q b.
Proof.
  intros Hm HI Hk. apply wp_bind. eapply wp_mono; [by apply Hm|].
  intros a ? (tr & -> & ? & ?). by apply Hk.
Qed.

Lemma quiet_ret {A} (a : A) : quiet (ret a).
Proof.
  intros b HI. exists (trace b). rewrite set_trace_same. by split_and!.
Qed.

Lemma quiet_bind {A B} (m : M A) (k : A -> M B) :
  quiet m -> (forall a, quiet (k a)) -> quiet (bind m k).
Proof.
  intros Hm Hk b HI. apply wp_quiet; [done..|]. intros a tr Hg HI'.
  eapply wp_mono; [by apply Hk|]. intros a' b' (tr' & -> & Hg' & HI'').
  exists tr'. split_and!; [done| |done]. by eapply same_ghost_trans.
Qed.

Lemma quiet_get {A} (f : backend -> A) : quiet (get f).
Proof. intros b HI. exists (trace b). rewrite set_trace_same. by split_and!. Qed.

Lemma quiet_query f args : quiet (query f args).
Proof. intros b HI. exists (trace b). rewrite set_trace_same. by split_and!. Qed.

Lemma quiet_queryb f args : quiet (queryb f args).
Proof. intros b HI. exists (trace b). rewrite set_trace_same. by split_and!. Qed.

Lemma quiet_calls l : forallb (fun c => negb (fate_call (fst c))) l = true -> quiet (calls l).
Proof.
  intros Hl b HI. pose proof (wp_calls l ret (fun _ b' => exists tr, b' = set_trace tr b /\
    same_ghost (trace b) tr /\ Inv b') b Hl HI) as Hw.
  unfold wp, bind in *. destruct (calls l b) as [[[]|e] b']; apply Hw;
    intros tr Hg HI'; by exists tr.
Qed.

Lemma quiet_sys f args : fate_call f = false -> quiet (sys f args).
Proof.
  intros Hf b HI. pose proof (wp_sys f args ret (fun _ b' => exists tr, b' = set_trace tr b /\
    same_ghost (trace b) tr /\ Inv b') b Hf HI) as Hw.
  unfold wp, bind in *. destruct (sys f args b) as [[v|e] b']; apply Hw;
    intros ? tr Hg HI'; by exists tr.
Qed.

Lemma quiet_when c m : quiet m -> quiet (when c m).
Proof. destruct c; [done|]. intros _. apply quiet_ret. Qed.

Lemma quiet_warning msg : quiet (warning msg).
Proof.
  apply quiet_calls. cbn. rewrite andb_true_r. apply negb_true_iff.
  unfold fate_call. apply bool_decide_eq_false. rewrite !elem_of_cons, elem_of_nil.
  intros [?|[?|[?|[?|[]]]]]; discriminate.
Qed.

Lemma quiet_callbacks ev : quiet (CallXactCallbacks ev).
Proof.
  apply quiet_bind; [apply quiet_get|]. intros l. apply quiet_calls.
  induction l as [|[c a] l IH]; cbn; [done|]. by rewrite IH.
Qed.

Lemma quiet_sub_callbacks ev a p : quiet (CallSubXactCallbacks ev a p).
Proof.
  apply quiet_bind; [apply quiet_get|]. intros l. apply quiet_calls.
  induction l as [|[c x] l IH]; cbn; [done|]. by rewrite IH.
Qed.

Lemma quiet_ReleaseTop ph c : quiet (ReleaseTop ph c).
Proof. apply quiet_bind; [apply quiet_get|]. intros o. by apply quiet_calls. Qed.
Lemma quiet_ReleaseSub ph c : quiet (ReleaseSub ph c).
Proof. apply quiet_bind; [apply quiet_get|]. intros o. by apply quiet_calls. Qed.
Lemma quiet_AtAbort_Memory : quiet AtAbort_Memory.
Proof. apply quiet_bind; [apply quiet_get|]. intros o. by apply quiet_calls. Qed.
Lemma quiet_reset_abort_context : quiet reset_abort_context.
Proof.
  apply quiet_bind; [apply quiet_get|]. intros [h|]; [by apply quiet_calls|apply quiet_ret].
Qed.

End Logic.

Create HintDb quiet.
#[export] Hint Resolve quiet_ret quiet_bind quiet_get quiet_query quiet_queryb quiet_when
  quiet_warning quiet_callbacks quiet_sub_callbacks quiet_ReleaseTop quiet_ReleaseSub
  quiet_AtAbort_Memory quiet_reset_abort_context : quiet.
#[export] Hint Extern 1 (quiet (calls _)) => apply quiet_calls; reflexivity : quiet.
#[export] Hint Extern 1 (quiet (sys _ _)) => apply quiet_sys; reflexivity : quiet.
#[export] Hint Extern 1 (quiet (match ?x with _ => _ end)) => destruct x : quiet.

(** Normal form of a state: a record of its fields. *)
Ltac nf b := eval cbv beta iota delta
  [set_top set_subs set_XactIsoLevel set_XactReadOnly set_XactDeferrable set_save_XactIsoLevel
   set_save_XactReadOnly set_save_XactDeferrable set_XactTopFullTransactionId
   set_ParallelCurrentXids set_MyXactFlags set_unreportedXids set_currentSubTransactionId
   set_currentCommandId set_currentCommandIdUsed set_xactStartTimestamp set_stmtStartTimestamp
   set_xactStopTimestamp set_prepareGID set_forceSyncCommit set_lxid
   set_TopTransactionResourceOwner set_CurTransactionResourceOwner set_CurrentResourceOwner
   set_TopTransactionContext set_CurTransactionContext set_TransactionAbortContext
   set_Xact_callbacks set_SubXact_callbacks set_InterruptHoldoffCount set_CritSectionCount
   set_trace set_cur set_parent cur parent set_stack stack upd_level has_parent IsInParallelMode
   top subs XactIsoLevel XactReadOnly XactDeferrable save_XactIsoLevel save_XactReadOnly
   save_XactDeferrable XactTopFullTransactionId ParallelCurrentXids MyXactFlags unreportedXids
   currentSubTransactionId currentCommandId currentCommandIdUsed xactStartTimestamp
   stmtStartTimestamp xactStopTimestamp prepareGID forceSyncCommit lxid
   TopTransactionResourceOwner CurTransactionResourceOwner CurrentResourceOwner
   TopTransactionContext CurTransactionContext TransactionAbortContext Xact_callbacks
   SubXact_callbacks InterruptHoldoffCount CritSectionCount trace] in b.

Ltac nstate :=
  match goal with |- wp ?m ?Q ?b => let b' := nf b in change (wp m Q b') end.

(** The invariant of an explicit state, from the one of an earlier state. *)
Ltac use_block :=
  repeat match goal with H : blockState ?t = _ |- _ => rewrite H in *; clear H end.
(** Close the goal by a hypothesis that is the goal, without conversion. *)
Ltac same H := let T := type of H in lazymatch goal with |- ?G => constr_eq G T; exact H end.
Ltac hyp := match goal with H : ?T |- ?G => constr_eq T G; exact H end.
Ltac crush_flat :=
  first [ hyp | discriminate | congruence
        | solve [intros; first [hyp|discriminate|congruence|contradiction]]
        | solve [intros [?|?]; first [discriminate|congruence|use_block; cbn in *; discriminate]]
        | solve [intros; use_block; cbn in *; first [discriminate|congruence|tauto]]
        | solve [destruct_and?; split_and?; intros; first [hyp|lia|congruence|by auto]]
        | solve [intros; repeat match goal with H : ?A -> _, H' : ?A |- _ => specialize (H H') end;
                 destruct_and?; split_and?; first [hyp|discriminate|congruence]]
        | solve [intros; eauto 4]
        | idtac ].
Ltac crush_forall :=
  repeat match goal with H : Forall _ (_ :: _) |- _ => apply Forall_cons in H as [? ?] end;
  repeat (apply Forall_cons; split);
  lazymatch goal with
  | |- Forall _ [] => apply Forall_nil_2
  | |- Forall _ _ => first [hyp|idtac]
  | |- _ => cbn in *; crush_flat
  end.
Ltac crush :=
  lazymatch goal with
  | |- Forall _ _ => first [hyp|crush_forall]
  | |- _ => crush_flat
  end.

Ltac ids_tac Hid :=
  first [same Hid|destruct Hid; constructor; unfold valid_own, own in *; cbn in *; crush].
Ltac shape_tac Hsh :=
  first [same Hsh|destruct Hsh; constructor; cbn in *; unfold level_ok, valid_own in *; cbn in *; crush].
Ltac vars_tac Hva := first [same Hva|destruct Hva; constructor; cbn in *; crush].

Ltac open_inv HI :=
  let Hsh := fresh "Hsh" in let Hva := fresh "Hva" in let Hid := fresh "Hid" in
  let Hcr := fresh "Hcr" in let Hho := fresh "Hho" in
  destruct HI as (Hsh & Hva & Hid & Hcr & Hho);
  cbn [top subs XactTopFullTransactionId TopTransactionContext CurTransactionContext
       TransactionAbortContext TopTransactionResourceOwner CritSectionCount InterruptHoldoffCount
       trace] in Hsh, Hva, Hid, Hcr, Hho.

Ltac pinv :=
  lazymatch goal with
  | HI : Inv _ |- Inv _ =>
      open_inv HI; unfold Inv;
      cbn [top subs XactTopFullTransactionId TopTransactionContext CurTransactionContext
       TransactionAbortContext TopTransactionResourceOwner CritSectionCount InterruptHoldoffCount
       trace];
      lazymatch goal with
      | Hsh : shape _ _, Hva : vars_ok _ _ _ _ _ _, Hid : ids_ok _ _ _ _ _ |- _ =>
          split; [shape_tac Hsh|split; [vars_tac Hva|split; [ids_tac Hid|split; cbn; lia]]]
      end
  end.

(** Keep the invariant of the newest state only. *)
Ltac last_inv H :=
  try match goal with HI : Inv _ |- _ => tryif unify HI H then fail else clear HI end;
  lazymatch type of H with Inv ?b => let b' := nf b in change (Inv b') in H end.

(** One step of symbolic execution. *)
Ltac wstep_raw :=
  cbv beta zeta;
  lazymatch goal with
  | |- wp (bind (bind _ _) _) _ _ => apply wp_assoc
  | |- wp (bind (get ?f) ?k) ?Q ?b =>
      let v := nf (f b) in refine (wp_get f k Q b (_ : wp (k v) Q b))
  | |- wp (bind (modify _) _) _ _ => apply wp_modify; nstate
  | |- wp (bind (upd _) _) _ _ => apply wp_upd; nstate
  | |- wp (bind (setblock _) _) _ _ => apply wp_setblock; nstate
  | |- wp (ret ?a) ?Q ?b => change (Q a b)
  | |- wp (modify ?f) ?Q ?b => change (Q tt (f b))
  | |- wp (upd ?f) ?Q ?b => change (Q tt (set_cur (f (cur b)) b))
  | |- wp (setblock ?t) ?Q ?b => change (Q tt (set_cur (set_blockState t (cur b)) b))
  | |- wp (bind curblock ?k) ?Q ?b =>
      let v := nf (blockState (cur b)) in refine (wp_curblock k Q b (_ : wp (k v) Q b))
  | |- wp (bind (query ?f ?a) ?k) ?Q ?b =>
      apply wp_query; generalize (value (trace b) (f, a)); let v := fresh "v" in intros v
  | |- wp (bind (queryb ?f ?a) ?k) ?Q ?b =>
      apply wp_queryb; generalize (negb (value (trace b) (f, a) =? 0)); let v := fresh "v" in intros v
  | |- wp (bind (ret _) _) _ _ => apply wp_ret
  | |- wp (bind (create _ _) _) _ _ =>
      let HI := fresh "HI" in
      apply wp_create; [reflexivity|pinv|intros ? ? ? HI; nstate; last_inv HI]
  | |- wp (bind (note _ _) _) _ _ =>
      let HI := fresh "HI" in
      apply wp_note; [reflexivity|pinv|intros ? ? HI; nstate; last_inv HI]
  | |- wp (bind (ereport_ERROR _) _) _ _ => apply wp_error_bind; pinv
  | |- wp (bind (elog_FATAL _) _) _ _ => apply wp_fatal_bind; pinv
  | |- wp (ereport_ERROR _) _ _ => apply wp_error; pinv
  | |- wp (elog_FATAL _) _ _ => apply wp_fatal; pinv
  | |- wp (bind (Assert _ _) _) _ _ => apply wp_assert;
      [first [reflexivity|apply Z.ltb_lt; cbn; lia
             |lazymatch goal with |- ?x = true => let x' := nf x in change (x' = true) end]|nstate]
  | |- wp (bind (when true _) _) _ _ => apply wp_when_true
  | |- wp (bind (when false _) _) _ _ => apply wp_when_false
  | |- wp (calls _) _ _ => apply wp_ret_last
  | |- wp (when _ _) _ _ => apply wp_ret_last
  | |- wp (CallSubXactCallbacks _ _ _) _ _ => apply wp_ret_last
  | |- wp (bind ?m _) _ _ =>
      first [ let HI := fresh "HI" in
              apply (wp_quiet m); [solve [auto 20 with quiet]|pinv|intros ? ? ? HI; nstate; last_inv HI]
            | lazymatch m with
              | when _ _ => apply wp_when; intros ?
              end ]
  end.

Ltac wstep := wstep_raw; cbv beta zeta.
Ltac wsteps := repeat wstep.

(** The ids of the current trace, from those of the trace it extends. *)
Ltac use_ghost Hg :=
  let E1 := fresh in let E2 := fresh in let E3 := fresh in let E4 := fresh in let E5 := fresh in
  destruct Hg as (E1 & E2 & E3 & E4 & E5); cbn [trace] in E1, E2, E3, E4, E5;
  rewrite ?E1, ?E2, ?E3, ?E4, ?E5; clear E1 E2 E3 E4 E5.
Ltac ghost :=
  repeat match goal with
  | Hg : same_ghost _ ?tr |- context [assigned ?tr] => use_ghost Hg
  | Hg : same_ghost _ ?tr |- context [commits ?tr] => use_ghost Hg
  | Hg : same_ghost _ ?tr |- context [aborts ?tr] => use_ghost Hg
  | Hg : same_ghost _ ?tr |- context [commit_trees ?tr] => use_ghost Hg
  | Hg : same_ghost _ ?tr |- context [abort_trees ?tr] => use_ghost Hg
  end.

(** Reduce the fields of explicit states in a hypothesis. *)
Ltac fields H := let T := type of H in let T' := nf T in change T' in H.

(** Forget how the top level was built, but for the fields that matter. *)
Ltac snap T f := let v := eval cbn in (f T) in assert (f T = v) by reflexivity.
Ltac abstract_top :=
  match goal with |- wp _ _ ?b =>
    let HI := fresh "HI" in assert (Inv b) as HI by pinv; last_inv HI end;
  match goal with |- wp _ _ (mkBE ?T _ _ _ _ _ _ _ _ _ _ _ _ _ _ _ _ _ _ _ _ _ _ _ _ _ _ _ _ _ _ _) =>
    snap T state; snap T blockState; snap T fullTransactionId; snap T childXids;
    snap T parallelModeLevel; snap T nestingLevel; snap T name; snap T chain;
    snap T curTransactionContext;
    let t' := fresh "t" in generalize dependent T; intros t'; intros
  end.

End XactLogic.
