(* ===== verification/XactTop.v ===== *)
(** * The top-level transaction and the assignment of ids

    Triples of [XactLogic.v] for the routines of [xact.c] that work on the
    top-level transaction (start, commit, prepare, abort, cleanup, and the two
    that record an end in the log), and for the assignment of transaction
    ids. *)

From S2P Require Import Prelude.
From S2P Require Import Transam.
From S2P Require Import Xact.
From S2P Require Import XactLogic.

Import Transam Xact XactLogic.

Open Scope Z_scope.

Module XactTop.

Section Rules.
Context `{Env, !EnvLaws}.

Lemma quiet_note f args : fate_call f = false -> quiet (note f args).
Proof.
  intros Hf b HI. pose proof (same_ghost_cons f args (trace b) Hf) as Hg.
  exists ((f, args) :: trace b). split_and!; [done|done|]. by apply Inv_trace.
Qed.

(** A call inside a critical section that decides the fate of an id. *)
Lemma wp_fate {B} f args (k : unit -> M B) Q b :
  0 < CritSectionCount b -> Inv (set_trace ((f, args) :: trace b) b) ->
  (Inv (set_trace ((f, args) :: trace b) b) -> wp (k tt) Q (set_trace ((f, args) :: trace b) b)) ->
  wp (bind (calls [(f, args)]) k) Q b.
Proof.
  intros Hc HI Hk. unfold wp, bind, calls. unfold bind, sys.
  destruct (raises (trace b) (f, args)); [|by apply Hk].
  unfold ereport_ERROR. cbn. destruct (Z.ltb_spec 0 (CritSectionCount b)); [|lia].
  by apply Inv_consistent.
Qed.

Lemma ids_cur b : Inv b -> valid_own (cur b) -> own (cur b) ∈ assigned (trace b).
Proof.
  intros (_&_&[? ? Hg _ _ _]&_) Hv. unfold cur in *.
  destruct (subs b) as [|s l]; rewrite Forall_forall in Hg; apply Hg; try done; left.
Qed.

(** Aborting in one's own name. *)
Lemma ids_abort b x args f :
  f = "TransactionIdAbortTree"%string ->
  Inv b -> own (cur b) = x -> valid_own (cur b) -> state (cur b) = TRANS_ABORT ->
  x ∉ commits (trace b) -> Inv (set_trace ((f, x :: args) :: trace b) b).
Proof.
  intros -> HI Hx Hv Hs Hc. pose proof (ids_cur b HI Hv) as Hg. rewrite Hx in Hg.
  destruct HI as (Hsh & Hva & Hid & Hcr). split; [done|]. split; [done|]. split; [|done].
  unfold commits, aborts in *. cbn -[main_ids] in *. cbn.
  destruct Hid as [H1 H2 H3 H4 H5 H6]. constructor; try done.
  - intros y Hy. rewrite elem_of_cons. intros [->|?]; [done|by eapply H1].
  - intros Ht Hvt. rewrite not_elem_of_cons. split; [|by apply H2]. revert Hx Hv Hs.
    unfold cur. destruct (subs b) as [|s l]; [intros _ _ Hab; by rewrite Hab in Ht|]. intros <- Hv Hs Heq.
    rewrite Forall_cons in H6. destruct H6 as [H6 _]. by apply H6.
  - intros y. rewrite elem_of_cons. intros [->|?]; [done|by apply H5].
Qed.

(** Committing the top-level transaction. *)
Lemma ids_commit b x args f :
  f = "TransactionIdCommitTree"%string \/ f = "TransactionIdAsyncCommitTree"%string ->
  Inv b -> own (top b) = x -> valid_own (top b) -> x ∉ aborts (trace b) ->
  Inv (set_trace ((f, x :: args) :: trace b) b).
Proof.
  intros Hf HI Hx Hv Hab.
  destruct HI as (Hsh & Hva & Hid & Hcr). split; [done|]. split; [done|]. split; [|done].
  unfold commits, aborts in *.
  assert (x ∈ assigned (trace b)) as Hg.
  { destruct Hid as [_ _ H3 _ _ _]. rewrite Forall_app, Forall_singleton in H3.
    rewrite <-Hx. by apply H3. }
  destruct Hid as [H1 H2 H3 H4 H5 H6].
  destruct Hf as [-> | ->]; cbn; constructor; try done.
  all: intros y; rewrite elem_of_cons; intros [->|?]; eauto.
Qed.

(** A new id extends the ids given out. *)
Lemma ids_new b args f :
  f = "GetNewTransactionId"%string -> Inv b -> Inv (set_trace ((f, args) :: trace b) b).
Proof.
  intros -> (Hsh & Hva & Hid & Hcr). split; [done|]. split; [done|]. split; [|done].
  unfold commits, aborts in *. cbn. destruct Hid as [H1 H2 H3 H4 H5 H6]. constructor; try done.
  - eapply Forall_impl; [done|]. intros s Hs Hv. right. by apply Hs.
  - intros y Hy. right. by apply H4.
  - intros y Hy. right. by apply H5.
Qed.

End Rules.

#[export] Hint Extern 1 (quiet (note _ _)) => apply quiet_note; reflexivity : quiet.

(** A transaction and its committed children. *)
Definition tree (s : TransactionStateData) : list Z := own s :: childXids s.

(** The fates a trace records, from those of the trace it extends. *)
Ltac trees :=
  match goal with |- ?G => let G' := nf G in change G' end; repeat (ghost || (progress unfold commit_trees, abort_trees; cbn [fate_args existsb
    String.eqb Ascii.eqb Bool.eqb orb]; fold commit_trees abort_trees)).

Section Records.
Context `{Env, !EnvLaws}.

Lemma wp_RecordTransactionAbort isSub b :
  Inv b -> CritSectionCount b = 0 -> state (cur b) = TRANS_ABORT ->
  wp (RecordTransactionAbort isSub)
    (fun _ b' => exists tr stop, b' = set_trace tr (set_xactStopTimestamp stop b) /\ Inv b' /\
       (valid_own (cur b) -> abort_trees tr = tree (cur b) :: abort_trees (trace b))) b.
Proof.
  intros HI Hc Hs. unfold RecordTransactionAbort, START_CRIT_SECTION, END_CRIT_SECTION.
  wstep.
  destruct (negb (TransactionIdIsValid _)) eqn:Hv.
  { wstep. exists tr, (xactStopTimestamp b). cbn. split_and!; [by destruct b|done|].
    intros Hvo. apply negb_true_iff in Hv. unfold valid_own, FullTransactionIdIsValid in Hvo.
    unfold GetCurrentTransactionIdIfAny in Hv. congruence. }
  match goal with |- wp (bind (queryb ?f ?a) ?k) ?Q ?b =>
    change (wp (k (negb (value (trace b) (f, a) =? 0))) Q b) end. cbv beta.
  set (x := GetCurrentTransactionIdIfAny b) in *.
  assert (valid_own (cur b)) as Hvo. { apply negb_false_iff in Hv. exact Hv. }
  apply wp_when. { intros _. by apply wp_panic_bind. }
  intros Hd%negb_false_iff%Z.eqb_eq.
  assert (x ∉ commits (trace b)) as Hxc. { intros Hx%did_commit_law. done. }
  assert (own (cur b) = x) as Hx by done. clearbody x. clear Hd Hv.
  destruct b as [t l]. fields Hc. fields Hs. fields Hx. fields Hvo. fields Hxc.
  subst CritSectionCount0.
  do 3 wstep.
  destruct isSub; unfold SetCurrentTransactionStopTimestamp; repeat wstep.
  all: apply wp_fate; [cbn; lia|apply ids_abort; try done; cbn; by ghost|].
  all: intros HI'; nstate; last_inv HI'; repeat wstep.
  all: eexists _, _; split_and!; [reflexivity|hyp|intros _]; trees.
  all: rewrite <- Hx; reflexivity.
Qed.

Lemma wp_RecordTransactionCommit_finish wrote mark xid nrels children b :
  Inv b -> CritSectionCount b = Z.b2z mark -> xid = own (top b) ->
  (mark = true -> valid_own (top b) /\ own (top b) ∉ aborts (trace b)) ->
  wp (RecordTransactionCommit_finish wrote mark xid nrels children)
    (fun _ b' => exists tr, b' = set_trace tr (set_CritSectionCount 0 b) /\ Inv b' /\
       (mark = true -> commit_trees tr = (xid :: children) :: commit_trees (trace b))) b.
Proof.
  intros HI Hc -> Hm. destruct b as [t l]. fields Hc. fields Hm. subst.
  unfold RecordTransactionCommit_finish. cbv zeta. do 2 wstep. destruct mark.
  - destruct (Hm eq_refl) as [Hv Hab].
    destruct (_ || _); do 3 wstep.
    all: eapply wp_fate; [cbn; lia|apply ids_commit; try done; [by auto|cbn; by ghost]|].
    all: intros HI'; nstate; last_inv HI'; unfold END_CRIT_SECTION; repeat wstep.
    all: eexists; split_and!; [reflexivity|hyp|intros _]; by trees.
  - destruct (_ || _); repeat wstep; by eexists.
Qed.

(** The commit of the top-level transaction: nothing but the trace changes. *)
Lemma wp_RecordTransactionCommit b :
  Inv b -> CritSectionCount b = 0 -> subs b = [] ->
  exp_state (blockState (top b)) = TRANS_INPROGRESS ->
  (valid_own (top b) -> own (top b) ∉ aborts (trace b)) ->
  wp RecordTransactionCommit
    (fun _ b' => exists tr stop, b' = set_trace tr (set_xactStopTimestamp stop b) /\ Inv b' /\
       (valid_own (top b) -> commit_trees tr = tree (top b) :: commit_trees (trace b))) b.
Proof.
  intros HI Hc Hsubs Hb Hab. destruct b as [t l].
  fields Hc. fields Hsubs. fields Hb. fields Hab. subst.
  assert (XactTopFullTransactionId0 = fullTransactionId t) as ->.
  { destruct HI as (_&[_ _ Hx]&_). by apply Hx. }
  assert (FullTransactionIdIsValid (fullTransactionId t) = false -> childXids t = []) as Hch.
  { destruct HI as ([_ _ [? _] _ _ _ _ _ _]&_). done. }
  unfold RecordTransactionCommit. do 6 wstep.
  change (GetTopTransactionIdIfAny _) with (own t). change (xactGetCommittedChildren _) with (childXids t).
  destruct (TransactionIdIsValid (own t)) eqn:Hv; cbn [negb].
  - unfold RecordTransactionCommit_log, START_CRIT_SECTION, SetCurrentTransactionStopTimestamp.
    repeat wstep. eapply wp_mono.
    { apply wp_RecordTransactionCommit_finish; [done..|]. intros _. split; [done|].
      cbn. ghost. by apply Hab. }
    intros ? b' (tr' & -> & HI' & Ht). eexists _, _. split_and!; [reflexivity|exact HI'|].
    intros _. rewrite Ht by done. by trees.
  - assert (~ valid_own t) as Hno.
    { intros Hx. change (TransactionIdIsValid (own t) = true) in Hx. congruence. }
    rewrite Hch by done. repeat wstep.
    destruct (v0 || negb (a0 =? 0)); cbn [negb].
    + eapply wp_mono; [by apply wp_RecordTransactionCommit_finish|].
      intros ? b' (tr' & -> & HI' & _). by eexists _, _.
    + wstep. by eexists _, _.
Qed.
End Records.

Section TopLevel.
Context `{Env, !EnvLaws}.

(** No subtransaction, the top level in state [st], and what the commands
    need of it kept. *)
Record AtTop (st : TransState) (b0 b : backend) : Prop := {
  at_inv : Inv b;
  at_subs : subs b = [];
  at_crit : CritSectionCount b = 0;
  at_state : state (top b) = st;
  at_block : blockState (top b) = blockState (top b0);
  at_chain : chain (top b) = chain (top b0) }.

Lemma not_parallel b : Inv b -> is_block TBLOCK_PARALLEL_INPROGRESS (top b) = false.
Proof. intros ([[_ Hp] _ _ _ _ _ _ _ _]&_). by apply bool_decide_eq_false. Qed.

Lemma holdoff_nonneg b : Inv b -> 0 <= InterruptHoldoffCount b.
Proof. intros (_&_&_&_&Hh). done. Qed.

Lemma wp_AbortTransaction_tree b :
  Inv b -> subs b = [] -> CritSectionCount b = 0 -> state (top b) <> TRANS_DEFAULT ->
  wp AbortTransaction (fun _ b' => AtTop TRANS_ABORT b b' /\
    (valid_own (top b) -> tree (top b) ∈ abort_trees (trace b'))) b.
Proof.
  intros HI Hs Hc Hst. pose proof (not_parallel b HI) as Hp. pose proof (holdoff_nonneg b HI) as Hh.
  destruct b as [t l]. fields Hs. fields Hc. fields Hst. fields Hp. fields Hh. subst.
  unfold AbortTransaction, HOLD_INTERRUPTS, RESUME_INTERRUPTS, AtAbort_ResourceOwner.
  do 6 wstep. rewrite Hp. cbn [negb]. repeat wstep.
  all: apply wp_bind; eapply wp_mono; [by apply wp_RecordTransactionAbort|].
  all: intros ? ? (tr' & stop & -> & HI' & Ht); nstate; last_inv HI'; repeat wstep.
  all: split; [constructor; try done; pinv|].
  all: intros Hv; specialize (Ht Hv); trees; rewrite Ht; left.
Qed.

Lemma wp_AbortTransaction b :
  Inv b -> subs b = [] -> CritSectionCount b = 0 -> state (top b) <> TRANS_DEFAULT ->
  wp AbortTransaction (fun _ => AtTop TRANS_ABORT b) b.
Proof. intros. eapply wp_mono; [by apply wp_AbortTransaction_tree|]. by intros ? ? [? _]. Qed.

(** After a commit, a prepare or a cleanup only the block state is left of
    the transaction. *)
Record Ended (b0 b : backend) : Prop := {
  en_inv : Inv (set_top (set_blockState TBLOCK_DEFAULT (top b)) b);
  en_subs : subs b = [];
  en_crit : CritSectionCount b = 0;
  en_state : state (top b) = TRANS_DEFAULT;
  en_block : blockState (top b) = blockState (top b0);
  en_chain : chain (top b) = chain (top b0) }.

Lemma wp_CleanupTransaction b :
  Inv b -> subs b = [] -> CritSectionCount b = 0 -> state (top b) = TRANS_ABORT ->
  wp CleanupTransaction (fun _ => Ended b) b.
Proof.
  intros HI Hs Hc Hst. destruct b as [t l]. fields Hs. fields Hc. fields Hst. subst.
  unfold CleanupTransaction, clear_owners, AtCleanup_Memory, reset_top.
  wstep. rewrite is_state_true by done. cbn [negb]. repeat wstep.
  constructor; try done; pinv.
Qed.

(** The loop over deferred triggers and portals only makes calls, or exceeds
    its bound. *)
Lemma PreCommit_loop_quiet n p b :
  Inv b ->
  match PreCommit_loop n p b with
  | (Exn NOFUEL, _) => True
  | (Exn e, b') => E e b'
  | (Ok _, b') => exists tr, b' = set_trace tr b /\ same_ghost (trace b) tr /\ Inv b'
  end.
Proof.
  revert b. induction n as [|n IH]; intros b HI; [done|]. cbn [PreCommit_loop]. unfold bind at 1.
  pose proof (quiet_calls [("AfterTriggerFireDeferred"%string, [])] eq_refl b HI) as H1. unfold wp in H1.
  destruct (calls _ b) as [[u|e] b1]; [|by destruct e]. destruct H1 as (tr1 & -> & Hg1 & HI1).
  unfold bind at 1.
  pose proof (quiet_sys "PreCommit_Portals"%string [Z.b2z p] eq_refl _ HI1) as H2. unfold wp in H2.
  destruct (sys _ _ _) as [[v|e] b2]; [|by destruct e]. destruct H2 as (tr2 & -> & Hg2 & HI2).
  destruct (v =? 0).
  { exists tr2. split_and!; [done| |done]. by eapply same_ghost_trans. }
  specialize (IH _ HI2). destruct (PreCommit_loop n p _) as [[[]|[]] b3]; try done.
  destruct IH as (tr3 & -> & Hg3 & HI3). exists tr3. split_and!; [done| |done].
  eapply same_ghost_trans; [|exact Hg3]. by eapply same_ghost_trans.
Qed.

Lemma quiet_PreCommit_loop p : quiet (PreCommit_loop loop_fuel p).
Proof.
  intros b HI. pose proof (PreCommit_loop_quiet loop_fuel p b HI) as Hl.
  pose proof (portals_end p b) as Hn. unfold wp.
  destruct (PreCommit_loop _ p b) as [[u|[]] b']; try done.
Qed.

End TopLevel.

#[export] Hint Resolve quiet_PreCommit_loop : quiet.

Section TopLevel2.
Context `{Env, !EnvLaws}.

Lemma wp_CommitTransaction_tree b :
  Inv b -> subs b = [] -> CritSectionCount b = 0 -> state (top b) = TRANS_INPROGRESS ->
  exp_state (blockState (top b)) = TRANS_INPROGRESS ->
  wp CommitTransaction (fun _ b' => Ended b b' /\
    (valid_own (top b) -> tree (top b) ∈ commit_trees (trace b'))) b.
Proof.
  intros HI Hs Hc Hst Hb. pose proof (not_parallel b HI) as Hp. pose proof (holdoff_nonneg b HI) as Hh.
  assert (TopTransactionContext b <> None) as Hctx.
  { destruct HI as (_&[_ Hv _]&_). apply Hv. intros Hd. rewrite Hd in Hb. done. }
  assert (valid_own (top b) -> own (top b) ∉ aborts (trace b)) as Hab.
  { destruct HI as (_&_&[_ Hlive _ _ _ _]&_). apply Hlive. by rewrite Hst. }
  destruct b as [t l]. fields Hs. fields Hc. fields Hst. fields Hb. fields Hp. fields Hh.
  fields Hctx. fields Hab. subst.
  unfold CommitTransaction, clear_owners, AtCommit_Memory, reset_top, HOLD_INTERRUPTS, RESUME_INTERRUPTS.
  wstep. rewrite Hp. cbn [negb Z.b2z]. wstep. wstep. rewrite is_state_true by done. cbn [negb].
  destruct TopTransactionContext0 as [ctx|]; [|done].
  repeat wstep. apply wp_bind. eapply wp_mono.
  { apply wp_RecordTransactionCommit; [pinv|reflexivity|reflexivity|exact Hb|]. cbn. intros Hv. ghost. by apply Hab. }
  intros ? ? (tr' & stop & -> & HI' & Ht); nstate; last_inv HI'; repeat wstep.
  split; [constructor; try done; pinv|].
  intros Hv; specialize (Ht Hv); trees; rewrite Ht; left.
Qed.

Lemma wp_CommitTransaction b :
  Inv b -> subs b = [] -> CritSectionCount b = 0 -> state (top b) = TRANS_INPROGRESS ->
  exp_state (blockState (top b)) = TRANS_INPROGRESS ->
  wp CommitTransaction (fun _ => Ended b) b.
Proof. intros. eapply wp_mono; [by apply wp_CommitTransaction_tree|]. by intros ? ? [? _]. Qed.

End TopLevel2.

(** ** Assignment of transaction ids *)

(** A level without what an assignment may change. *)
Definition strip (s : TransactionStateData) : TransactionStateData :=
  set_didLogXid false (set_fullTransactionId 0 s).

Lemma level_split k b s i o :
  subs b = i ++ s :: o -> k = S (length o) -> level k b = s.
Proof.
  intros Hs ->. unfold level. rewrite Hs, length_app. cbn [length].
  replace (length i + S (length o) - S (length o))%nat with (length i) by lia.
  by rewrite nth_middle.
Qed.

Lemma upd_level_split k b f s i o :
  subs b = i ++ s :: o -> k = S (length o) ->
  upd_level k f b = set_subs (i ++ f s :: o) b.
Proof.
  intros Hs ->. unfold upd_level. rewrite Hs, length_app. cbn [length].
  replace (length i + S (length o) - S (length o))%nat with (length i + 0)%nat by lia.
  rewrite alter_app_r. done.
Qed.

(** A level of the stack is the top one or splits the subtransactions. *)
Lemma level_cases k b :
  (k <= length (subs b))%nat ->
  k = 0%nat \/ exists i s o, subs b = i ++ s :: o /\ k = S (length o).
Proof.
  intros Hk. destruct k as [|k]; [by left|right].
  assert (length (subs b) - S k < length (subs b))%nat as Hlt by lia.
  apply lookup_lt_is_Some in Hlt as [s Hs].
  pose proof (take_drop_middle _ _ _ Hs) as Heq. eexists _, s, _. split; [by symmetry|].
  rewrite length_drop. lia.
Qed.

Lemma chained_app_valid i s o :
  chained (i ++ s :: o) -> chained (s :: o).
Proof.
  induction i as [|x i IH]; [done|]. cbn. destruct (i ++ s :: o) eqn:E; [by destruct i|].
  intros [_ Hc]. by apply IH.
Qed.

(** An id somewhere on the stack means an id at the top. *)
Lemma chained_last l t s : chained (l ++ [t]) -> s ∈ l -> valid_own s -> valid_own t.
Proof.
  revert s. induction l as [|x l IH]; intros s Hc Hin Hv; [by apply elem_of_nil in Hin|].
  apply elem_of_cons in Hin as [->|Hin].
  - destruct l as [|y l]; cbn in Hc; destruct Hc as [Hxy Hc]; [by apply Hxy|].
    apply (IH y); [done|by left|by apply Hxy].
  - destruct l as [|y l]; [by apply elem_of_nil in Hin|]. destruct Hc as [_ Hc]. by apply (IH s).
Qed.

(** Below a subtransaction the top level is in progress. *)
Lemma shape_top_parent t l : shape t l -> l <> [] -> parent_ok t.
Proof.
  intros [_ _ _ _ Hp _ _ _ _ _] Hl. destruct l as [|s l]; [done|]. cbn in Hp.
  rewrite Forall_app, Forall_singleton in Hp. apply Hp.
Qed.

(** Levels that the invariant cannot tell apart. *)
Definition like (s s' : TransactionStateData) : Prop :=
  (fullTransactionId s', name s', state s', blockState s', nestingLevel s', curTransactionContext s',
   childXids s', parallelModeLevel s') =
  (fullTransactionId s, name s, state s, blockState s, nestingLevel s, curTransactionContext s,
   childXids s, parallelModeLevel s).

Lemma chained_snoc l t t' :
  fullTransactionId t' = fullTransactionId t -> chained (l ++ [t]) -> chained (l ++ [t']).
Proof.
  intros Ht. induction l as [|s l IH]; [done|]. destruct l as [|p l]; cbn in *.
  - intros [Hv _]. split; [|done]. unfold valid_own in *. by rewrite Ht.
  - intros [Hv Hc]. split; [done|by apply IH].
Qed.

Lemma Inv_like `{Env} t' b : like (top b) t' -> Inv b -> Inv (set_top t' b).
Proof.
  unfold like. intros [= Hf Hn Hs Hb Hl Hc Hx Hp] (Hsh & Hva & Hid & Hcr & Hho).
  split; [|split; [|split; [|done]]]; cbn [top subs set_top XactTopFullTransactionId
    TopTransactionContext CurTransactionContext TransactionAbortContext
    TopTransactionResourceOwner trace].
  - destruct Hsh. constructor; rewrite ?Hf, ?Hn, ?Hs, ?Hb, ?Hl, ?Hc, ?Hx, ?Hp; try done.
    + unfold level_ok in *. by rewrite Hf, Hx, Hp.
    + destruct (subs b); cbn in *; [done|]. rewrite Forall_app, Forall_singleton in *.
      unfold parent_ok in *. by rewrite Hs, Hb, Hc.
    + by eapply chained_snoc.
    + eapply belows_map; [|done]. by rewrite !map_app, (map_cons _ t'), (map_cons _ (top b)), Hb.
  - destruct Hva. constructor; rewrite ?Hf, ?Hn, ?Hs, ?Hb, ?Hl, ?Hc, ?Hx, ?Hp; done.
  - destruct Hid. constructor; unfold valid_own, own in *; rewrite ?Hf, ?Hs; try done.
    rewrite Forall_app, Forall_singleton in *. by rewrite Hf.
Qed.

Section Assign.
Context `{Env, !EnvLaws}.

Lemma chained_set x i s o :
  FullTransactionIdIsValid x = true ->
  (forall p, head o = Some p -> valid_own p) ->
  chained (i ++ s :: o) -> chained (i ++ set_fullTransactionId x s :: o).
Proof.
  intros Hx Hp. induction i as [|y i IH].
  - destruct o as [|p o]; [done|]. cbn. intros [_ Hc]. split; [|done]. intros _. by apply Hp.
  - intros Hc. cbn in *. destruct i as [|z i]; cbn in *; destruct Hc as [Hyz Hc];
      (split; [by auto|by apply IH]).
Qed.

Lemma sub_levels_set x i s o :
  FullTransactionIdIsValid x = true ->
  sub_levels (i ++ s :: o) -> sub_levels (i ++ set_fullTransactionId x s :: o).
Proof.
  intros Hx. induction i as [|y i IH]; cbn.
  - unfold level_ok. cbn. intros (?&?&[? ?]&?&?). split_and!; try done. by rewrite Hx.
  - rewrite !length_app. cbn. intros (?&?&?&?&?). split_and!; auto.
Qed.

Lemma parents_set x i s o t :
  Forall parent_ok (tail ((i ++ s :: o) ++ [t])) ->
  Forall parent_ok (tail ((i ++ set_fullTransactionId x s :: o) ++ [t])).
Proof.
  destruct i as [|y i]; cbn; [done|]. rewrite <- !app_assoc, !Forall_app. cbn.
  rewrite !Forall_cons. intros (?&?&?). done.
Qed.

(** Giving an id to a subtransaction whose parent has one. *)
Lemma Inv_set_sub x i s o b :
  Inv b -> subs b = i ++ s :: o -> FullTransactionIdIsValid x = true ->
  XidFromFullTransactionId x ∈ assigned (trace b) ->
  XidFromFullTransactionId x <> own (top b) ->
  (forall p, head (o ++ [top b]) = Some p -> valid_own p) ->
  Inv (set_subs (i ++ set_fullTransactionId x s :: o) b).
Proof.
  intros (Hsh & Hva & Hid & Hcr & Hho) Hs Hx Hg Hne Hp. rewrite Hs in Hsh, Hid.
  split; [|split; [done|split; [|done]]]; cbn [top subs set_subs].
  - destruct Hsh. constructor; try done.
    + by apply sub_levels_set.
    + by apply parents_set.
    + rewrite <- app_assoc in *. cbn in *. by apply chained_set.
    + eapply belows_map; [|done]. by rewrite !map_app.
  - destruct Hid as [H1 H2 H3 H4 H5 H6]. constructor; try done.
    + rewrite <- app_assoc in *. cbn in *. rewrite Forall_app, Forall_cons in *.
      destruct H3 as (?&?&?). split_and!; try done. 
    + rewrite Forall_app, Forall_cons in *. destruct H6 as (?&?&?). split_and!; try done.
Qed.

(** Giving the top-level transaction its id. *)
Lemma Inv_set_top x b :
  Inv b -> FullTransactionIdIsValid (fullTransactionId (top b)) = false ->
  FullTransactionIdIsValid x = true ->
  XidFromFullTransactionId x ∈ assigned (trace b) ->
  XidFromFullTransactionId x ∉ aborts (trace b) ->
  state (top b) <> TRANS_DEFAULT ->
  Inv (set_XactTopFullTransactionId x (set_top (set_fullTransactionId x (top b)) b)).
Proof.
  intros (Hsh & Hva & Hid & Hcr & Hho) Hn Hx Hg Hab Hst.
  assert (Forall (fun s => ~ valid_own s) (subs b)) as Hno.
  { apply Forall_forall. intros s Hs Hv. destruct Hsh.
    pose proof (chained_last _ _ _ sh_chained0 Hs Hv) as Ht. unfold valid_own in Ht. congruence. }
  split; [|split; [|split; [|done]]]; cbn [top subs set_top set_XactTopFullTransactionId
    XactTopFullTransactionId TopTransactionContext CurTransactionContext TransactionAbortContext
    TopTransactionResourceOwner trace].
  - destruct Hsh. constructor; try done.
    + unfold level_ok in *. cbn. rewrite Hx. split; [done|]. by destruct sh_top_ok0.
    + destruct (subs b); cbn in *; [done|]. rewrite Forall_app, Forall_singleton in *. done.
    + destruct (subs b) as [|s l] eqn:E using rev_ind; [done|].
      clear IHl E. rewrite <- app_assoc in *. cbn in *.
      clear -sh_chained0 Hx. induction l as [|y l IH]; cbn in *.
      { destruct sh_chained0. by split. }
      destruct (l ++ [s; top b]) eqn:E1; [by destruct l|].
      destruct l; cbn in *; injection E1 as <- <-; destruct sh_chained0; (split; [done|by apply IH]).
    + eapply belows_map; [|done]. by rewrite !map_app.
  - destruct Hva. constructor; cbn; try done.
  - destruct Hid as [H1 H2 H3 H4 H5 H6]. constructor; try done.
    + rewrite Forall_app, Forall_singleton in *. by destruct H3.
    + eapply Forall_impl; [exact Hno|]. cbn. intros s Hs Hv. by destruct (Hs Hv).
Qed.

End Assign.

Section Assign2.
Context `{Env, !EnvLaws}.

Lemma wp_new_xid {B} args (k : Z -> M B) Q b :
  Inv b ->
  (forall x tr, FullTransactionIdIsValid x = true ->
     tr = ("GetNewTransactionId"%string, args) :: trace b ->
     XidFromFullTransactionId x ∈ assigned tr -> XidFromFullTransactionId x ∉ aborts tr ->
     (valid_own (top b) -> XidFromFullTransactionId x <> own (top b)) ->
     Inv (set_trace tr b) -> wp (k x) Q (set_trace tr b)) ->
  wp (bind (sys "GetNewTransactionId" args) k) Q b.
Proof.
  intros HI Hk. apply wp_bind. unfold wp, sys.
  pose proof (ids_new b args _ eq_refl HI) as HI'.
  destruct (raises _ _) eqn:Hr.
  { apply (wp_error _ (fun a b' => wp (k a) Q b')). done. }
  pose proof (new_xid_fresh (trace b) args Hr) as Hf.
  destruct HI as (_&_&[_ _ Hg _ Hab _]&_). eapply Hk; [by apply new_xid_valid|done|..|done].
  - cbn. left.
  - unfold aborts. cbn. intros Hx. by apply Hf, Hab.
  - intros Hv Heq. apply Hf. rewrite Heq. rewrite Forall_app, Forall_singleton in Hg.
    by apply Hg.
Qed.

(** The levels are those of before, ids and the logging flag apart. *)
Definition same_levels (b0 b : backend) : Prop :=
  strip (top b) = strip (top b0) /\ map strip (subs b) = map strip (subs b0).

Record gave (k : nat) (b0 b : backend) : Prop := {
  ga_inv : Inv b;
  ga_crit : CritSectionCount b = 0;
  ga_levels : same_levels b0 b;
  ga_has : has_xid k b = true;
  ga_other j : (j <= length (subs b0))%nat -> j <> k -> has_xid j b = has_xid j b0 }.

(** Setting the id of one level leaves the others alone. *)
Lemma has_xid_other x k j i s o t b b' :
  subs b = i ++ s :: o -> subs b' = i ++ set_fullTransactionId x s :: o ->
  top b = t -> fullTransactionId (top b') = fullTransactionId t ->
  k = S (length o) -> (j <= length (subs b))%nat -> j <> k -> has_xid j b' = has_xid j b.
Proof.
  intros Hs Hs' Ht Ht' Hk Hl Hj. rewrite Hs, length_app in Hl. cbn in Hl. unfold has_xid, level. destruct j as [|j]; [by rewrite Ht', Ht|].
  rewrite Hs, Hs', !length_app. cbn [length]. f_equal.
  assert (forall d d' n, fullTransactionId d = fullTransactionId d' -> n <> length i ->
    fullTransactionId (nth n (i ++ set_fullTransactionId x s :: o) d) =
    fullTransactionId (nth n (i ++ s :: o) d')) as Hn.
  { intros d d' n Hd Hne. destruct (Nat.lt_ge_cases n (length i)).
    - rewrite !app_nth1 by done. by rewrite (nth_indep i d d').
    - rewrite !app_nth2 by done. destruct (n - length i)%nat as [|m] eqn:E; [lia|]. cbn.
      destruct (Nat.lt_ge_cases m (length o)); [by rewrite (nth_indep o d d')|].
      by rewrite !nth_overflow. }
  apply Hn; [by rewrite Ht', Ht|]. lia.
Qed.

Lemma has_xid_subs j b b' :
  subs b' = subs b -> (j <= length (subs b))%nat -> j <> 0%nat -> has_xid j b' = has_xid j b.
Proof.
  intros Hs Hl Hj. unfold has_xid, level. destruct j as [|j]; [done|]. rewrite Hs. do 2 f_equal.
  apply nth_indep. lia.
Qed.

Lemma wp_assign_top b :
  Inv b -> CritSectionCount b = 0 -> has_xid 0 b = false -> state (top b) = TRANS_INPROGRESS ->
  wp (assign_body 0) (fun _ => gave 0 b) b.
Proof.
  intros HI Hc Hn Hst. destruct b as [t l]. fields Hc. fields Hst. subst.
  unfold assign_body. cbv zeta. cbn [Nat.eqb negb andb Z.b2z].
  do 2 wstep. apply wp_new_xid; [done|]. intros x tr Hx -> Hg Hab Hne HI'.
  apply wp_modify, wp_when_true, wp_modify. nstate.
  assert (HI2 := Inv_set_top x _ HI' Hn Hx Hg Hab ltac:(cbn; congruence)). last_inv HI2.
  repeat (wstep; cbn [andb]).
  constructor; try done. intros j Hj Hj0. by apply has_xid_subs.
Qed.

Lemma wp_report_assignment k unk b :
  Inv b -> valid_own (top b) -> XactTopFullTransactionId b = fullTransactionId (top b) ->
  wp (report_assignment k unk) (fun _ b' => exists tr u d,
    b' = set_top (set_didLogXid d (top b)) (set_unreportedXids u (set_trace tr b)) /\ Inv b') b.
Proof.
  intros HI Hv Hx. destruct b as [t l]. fields Hv. fields Hx. subst.
  unfold report_assignment. cbv zeta. repeat wstep.
  - unfold GetTopTransactionIdIfAny. cbn. exact Hv.
  - eexists _, _, true. split; [reflexivity|]. match goal with HI : Inv _ |- _ => refine (Inv_like (set_didLogXid true t) _ _ HI); reflexivity end.
  - eexists _, _, (didLogXid t). split; [by destruct t|pinv].
Qed.

Lemma wp_assign_sub k b :
  Inv b -> CritSectionCount b = 0 -> (k < length (subs b))%nat ->
  has_xid (S k) b = false -> has_xid k b = true ->
  wp (assign_body (S k)) (fun _ => gave (S k) b) b.
Proof.
  intros HI Hc Hk Hn Hp. destruct (level_cases (S k) b) as [?|(i & s & o & Hs & Hko)]; [lia|lia|].
  injection Hko as ->.
  assert (forall p, head (o ++ [top b]) = Some p -> valid_own p) as Hhead.
  { destruct o as [|p o]; cbn [app head].
    - intros ? [= <-]. exact Hp.
    - intros ? [= <-]. unfold has_xid in Hp.
      rewrite (level_split (length (p :: o)) b p (i ++ [s]) o) in Hp; [done| |done].
      by rewrite <- app_assoc. }
  assert (valid_own (top b)) as Hvt.
  { destruct HI as (Hsh&_). destruct Hsh. rewrite Hs, <- app_assoc in sh_chained0.
    apply chained_app_valid in sh_chained0.
    destruct o as [|p o]; [by apply Hhead|].
    eapply (chained_last (s :: p :: o) _ p); [done|right; left|by apply Hhead]. }
  assert (exp_state (blockState (top b)) = TRANS_INPROGRESS) as Hexp.
  { destruct HI as (Hsh&_). apply (shape_top_parent _ _ Hsh). rewrite Hs. by destruct i. }
  assert (XactTopFullTransactionId b = fullTransactionId (top b)) as Hxtop.
  { destruct HI as (_&[_ _ Hx]&_). by apply Hx. }
  destruct b as [t l]. fields Hs. fields Hc. fields Hvt. fields Hxtop. subst.
  unfold assign_body. cbv zeta. cbn [Nat.eqb negb andb Z.b2z].
  do 2 wstep. apply wp_new_xid; [done|]. intros x tr Hx -> Hg Hab Hne HI'.
  apply wp_modify. erewrite upd_level_split; [|reflexivity..].
  assert (HI2 := Inv_set_sub x i s o _ HI' eq_refl Hx Hg (Hne Hvt) Hhead). last_inv HI2. nstate.
  repeat (wstep; cbn [andb]).
  2: { constructor; [pinv|done|split; [done|]; cbn; by rewrite !map_app| |].
       - unfold has_xid. erewrite level_split; [|reflexivity..]. exact Hx.
       - intros j Hj Hjk. by eapply has_xid_other. }
  apply wp_bind. eapply wp_mono; [apply wp_report_assignment; [pinv|exact Hvt|reflexivity]|].
  intros ? b' (tr' & u & d & -> & HI'). 
  constructor; [done|done|split; [done|]; cbn; by rewrite !map_app| |].
  - unfold has_xid. erewrite level_split; [|reflexivity..]. exact Hx.
  - intros j Hj Hjk. by eapply has_xid_other.
Qed.
End Assign2.

Section Assign3.
Context `{Env, !EnvLaws}.

Lemma same_levels_trans b1 b2 b3 :
  same_levels b1 b2 -> same_levels b2 b3 -> same_levels b1 b3.
Proof. unfold same_levels. intros [-> ->] [-> ->]. done. Qed.

Lemma same_levels_length b b' : same_levels b b' -> length (subs b') = length (subs b).
Proof. intros [_ Hs]. by rewrite <- (length_map strip (subs b')), Hs, length_map. Qed.

Lemma level_strip b b' k :
  same_levels b b' -> strip (level k b') = strip (level k b).
Proof.
  intros Hs. pose proof (same_levels_length _ _ Hs) as Hl. destruct Hs as [Ht Hs].
  unfold level. destruct k as [|k]; [done|].
  rewrite <- (map_nth strip (subs b')), <- (map_nth strip (subs b)), Ht, Hs, Hl. done.
Qed.

Lemma strip_state s s' : strip s' = strip s -> state s' = state s.
Proof. by intros [= _ _ _ ? _]. Qed.

Definition assignable (k : nat) (b : backend) : Prop :=
  Inv b /\ CritSectionCount b = 0 /\ (k <= length (subs b))%nat /\
  has_xid k b = false /\ state (level k b) = TRANS_INPROGRESS.

Lemma unassigned_spec p b :
  exists q, unassigned p b = seq q (S p - q) /\ (q <= S p)%nat /\
    (forall j, (q <= j <= p)%nat -> has_xid j b = false) /\
    (q = 0%nat \/ has_xid (q - 1) b = true).
Proof.
  induction p as [|p (q & Heq & Hle & Hno & Hq)]; cbn [unassigned].
  - destruct (has_xid 0 b) eqn:E; [exists 1%nat|exists 0%nat]; (split_and!; [done|lia| |]).
    + lia.
    + by right.
    + intros j Hj. by replace j with 0%nat by lia.
    + by left.
  - destruct (has_xid (S p) b) eqn:E.
    + exists (S (S p)). split_and!; [by rewrite Nat.sub_diag|lia|lia|].
      right. by replace (S (S p) - 1)%nat with (S p) by lia.
    + exists q. split_and!; [|lia| |done].
      * rewrite Heq. replace (S (S p) - q)%nat with ((S p - q) + 1)%nat by lia.
        rewrite seq_app. cbn. do 2 f_equal. lia.
      * intros j Hj. destruct (decide (j = S p)) as [->|]; [done|]. apply Hno. lia.
Qed.

(** The body of the recursion, once the parent has its id. *)
Lemma wp_assign_body k b :
  assignable k b -> (k = 0%nat \/ has_xid (k - 1) b = true) ->
  wp (assign_body k) (fun _ => gave k b) b.
Proof.
  intros (HI & Hc & Hk & Hn & Hst) Hp. destruct k as [|k].
  - by apply wp_assign_top.
  - destruct Hp as [|Hp]; [done|]. apply wp_assign_sub; try done; try lia.
    by replace (S k - 1)%nat with k in Hp by lia.
Qed.

(** What comes before the recursion of the assignment. *)
Lemma wp_assign_checks {B} k (m : M B) Q b :
  assignable k b -> wp m Q b ->
  wp (Assert "no id yet"%string (fun b => negb (has_xid k b)) ;;
      Assert "TRANS_INPROGRESS"%string (fun b => is_state TRANS_INPROGRESS (level k b)) ;;
      let! parallel := get IsInParallelMode in
      let! worker := queryb "IsParallelWorker"%string [] in
      if parallel || worker
      then ereport_ERROR "cannot assign XIDs during a parallel operation"%string else m) Q b.
Proof.
  intros (HI & Hc & Hk & Hn & Hst) Hm. apply wp_assert; [by rewrite Hn|].
  apply wp_assert; [by rewrite is_state_true|]. apply wp_get, wp_queryb.
  destruct (_ || _); [by apply wp_error|done].
Qed.

Lemma wp_Assign_direct fuel k b :
  assignable k b -> (k = 0%nat \/ has_xid (k - 1) b = true) ->
  wp (AssignTransactionId (S fuel) k) (fun _ => gave k b) b.
Proof.
  intros Ha Hp. cbn [AssignTransactionId]. apply wp_assign_checks; [done|].
  destruct k as [|p]; [apply wp_ret; by apply wp_assign_body|].
  apply wp_assoc, wp_get. destruct Hp as [|Hp]; [done|].
  assert (unassigned p b = []) as ->.
  { replace (S p - 1)%nat with p in Hp by lia. destruct p; cbn [unassigned]; by rewrite Hp. }
  apply wp_when_false. apply wp_assign_body; [done|by right].
Qed.

Lemma gave_assignable k j b b' :
  gave k b b' -> (j <= length (subs b))%nat -> j <> k -> assignable j b -> assignable j b'.
Proof.
  intros [HI Hc Hl Hh Ho] Hj Hjk (_ & _ & _ & Hn & Hst). split_and!; try done.
  - by rewrite (same_levels_length b b').
  - by rewrite Ho.
  - rewrite <- Hst. apply strip_state. by apply level_strip.
Qed.

(** A run of assignments from the outside inwards. *)
Lemma wp_assign_run fuel n q b :
  Inv b -> CritSectionCount b = 0 -> (q + n <= S (length (subs b)))%nat ->
  (forall j, (q <= j < q + n)%nat -> assignable j b) ->
  (q = 0%nat \/ has_xid (q - 1) b = true) ->
  wp (foreach (AssignTransactionId (S fuel)) (seq q n))
    (fun _ b' => Inv b' /\ CritSectionCount b' = 0 /\ same_levels b b' /\
       (q + n = 0 \/ has_xid (q + n - 1) b' = true)%nat /\
       forall j, (q + n <= j <= length (subs b))%nat -> has_xid j b' = has_xid j b) b.
Proof.
  revert q b. induction n as [|n IH]; intros q b HI Hc Hle Ha Hp; cbn [seq foreach].
  { rewrite Nat.add_0_r. cbn. by split_and!. }
  apply wp_bind. eapply wp_mono; [apply wp_Assign_direct; [apply Ha; lia|done]|].
  intros ? b1 Hg. pose proof (same_levels_length _ _ (ga_levels _ _ _ Hg)) as Hl.
  eapply wp_mono; [apply (IH (S q) b1)|].
  - apply Hg.
  - apply Hg.
  - rewrite Hl. lia.
  - intros j Hj. eapply gave_assignable; [exact Hg|lia|lia|apply Ha; lia].
  - right. replace (S q - 1)%nat with q by lia. apply Hg.
  - intros ? b2 (HI2 & Hc2 & Hs2 & Hq2 & Ho2). replace (q + S n)%nat with (S q + n)%nat by lia.
    split_and!; try done.
    + eapply same_levels_trans; [exact (ga_levels _ _ _ Hg)|exact Hs2].
    + intros j Hj. rewrite Ho2 by lia. apply Hg; lia.
Qed.

(** The assignment of an id to a level: the levels keep everything else, the
    level and with it all its ancestors have ids. *)
Definition gave_upto (k : nat) (b0 b : backend) : Prop :=
  Inv b /\ CritSectionCount b = 0 /\ same_levels b0 b /\ has_xid k b = true.

Lemma wp_AssignTransactionId k b :
  assignable k b -> (forall j, (j < k)%nat -> state (level j b) = TRANS_INPROGRESS) ->
  wp (AssignTransactionId (S k) k) (fun _ => gave_upto k b) b.
Proof.
  intros Ha Hst. destruct (decide (k = 0%nat \/ has_xid (k - 1) b = true)) as [Hp|Hp].
  { eapply wp_mono; [by apply wp_Assign_direct|]. intros ? b' []. by split_and!. }
  destruct k as [|p]; [by destruct Hp; left|]. cbn [AssignTransactionId].
  apply wp_assign_checks; [done|]. apply wp_assoc, wp_get.
  destruct (unassigned_spec p b) as (q & Heq & Hle & Hno & Hq). rewrite Heq.
  replace (S p - 1)%nat with p in Hp by lia.
  destruct Ha as (HI & Hc & Hk & Hn & Hs).
  assert (q <= p)%nat as Hqp.
  { destruct (decide (q = S p)) as [->|]; [|lia]. destruct Hp. right. destruct Hq as [|Hq]; [done|].
    by replace (S p - 1)%nat with p in Hq by lia. }
  destruct (Nat.eqb_spec (length (seq q (S p - q))) 0) as [Hl|_]; [rewrite length_seq in Hl; lia|].
  apply wp_when_true, wp_assoc, wp_calls; [done|done|]. intros tr Hg HI1.
  change (has_xid ?j b) with (has_xid j (set_trace tr b)) in *.
  apply wp_bind. eapply wp_mono; [apply (wp_assign_run p (S p - q) q)|].
  - done.
  - done.
  - cbn. lia.
  - intros j Hj. split_and!; try done; [cbn; lia|apply Hno; lia|apply Hst; lia].
  - done.
  - intros ? b2 (HI2 & Hc2 & Hs2 & Hq2 & Ho2). replace (q + (S p - q))%nat with (S p) in * by lia.
    eapply wp_mono; [apply wp_assign_body|].
    + split_and!; try done.
      * rewrite (same_levels_length _ _ Hs2). done.
      * rewrite Ho2; [done|cbn; lia].
      * rewrite <- Hs. apply strip_state. by apply (level_strip (set_trace tr b)).
    + destruct Hq2; [done|by right].
    + intros ? b3 []. split_and!; try done. by eapply same_levels_trans.
Qed.

End Assign3.

Section Current.
Context `{Env, !EnvLaws}.

Lemma level_cur b : level (curlevel b) b = cur b.
Proof.
  unfold curlevel, level, cur. destruct (subs b) as [|s l]; [done|].
  cbn [length]. by rewrite Nat.sub_diag.
Qed.

Lemma level_parent j b : Inv b -> (j < length (subs b))%nat -> parent_ok (level j b).
Proof.
  intros (Hsh & _) Hj. destruct (level_cases j b) as [->|(i & s & o & Hs & ->)]; [lia|..].
  - apply (shape_top_parent _ _ Hsh). by destruct (subs b); [cbn in Hj; lia|].
  - rewrite (level_split _ _ s i o) by done. destruct Hsh. rewrite Hs, length_app in *. cbn in Hj.
    destruct i as [|x i]; [cbn in Hj; lia|]. cbn in sh_parents0.
    rewrite <- app_assoc, Forall_app in sh_parents0. cbn in sh_parents0.
    rewrite Forall_cons in sh_parents0. apply sh_parents0.
Qed.

Lemma has_xid_cur b : has_xid (curlevel b) b = FullTransactionIdIsValid (fullTransactionId (cur b)).
Proof. unfold has_xid. by rewrite level_cur. Qed.

Lemma wp_GetCurrentTransactionId b :
  Inv b -> CritSectionCount b = 0 -> state (cur b) = TRANS_INPROGRESS ->
  wp GetCurrentTransactionId
    (fun _ b' => Inv b' /\ CritSectionCount b' = 0 /\ same_levels b b' /\ valid_own (cur b')) b.
Proof.
  intros HI Hc Hst. unfold GetCurrentTransactionId. apply wp_get, wp_get, wp_when.
  - intros Hn%negb_true_iff. apply wp_bind. eapply wp_mono; [apply wp_AssignTransactionId|].
    + split_and!; try done. { by rewrite has_xid_cur. } by rewrite level_cur.
    + intros j Hj. by apply level_parent.
    + intros ? b1 (HI1 & Hc1 & Hs1 & Hx1). cbn. split_and!; try done.
      unfold curlevel in Hx1. rewrite <- (same_levels_length _ _ Hs1) in Hx1. fold (curlevel b1) in Hx1.
      by rewrite has_xid_cur in Hx1.
  - intros Hn%negb_false_iff. cbn. by split_and!.
Qed.

Lemma wp_GetTopTransactionId b :
  Inv b -> CritSectionCount b = 0 -> state (top b) = TRANS_INPROGRESS ->
  exp_state (blockState (top b)) = TRANS_INPROGRESS ->
  wp GetTopTransactionId (fun _ b' => Inv b' /\ CritSectionCount b' = 0 /\ same_levels b b') b.
Proof.
  intros HI Hc Hst Hb. unfold GetTopTransactionId. apply wp_get, wp_when.
  - intros Hn%negb_true_iff. apply wp_bind. eapply wp_mono; [apply wp_AssignTransactionId|].
    + split_and!; try done. { lia. } unfold has_xid. cbn. destruct HI as (_&[_ _ Hx]&_).
      by rewrite <- Hx.
    + lia.
    + intros ? b1 (HI1 & Hc1 & Hs1 & Hx1). cbn. by split_and!.
  - intros Hn%negb_false_iff. cbn. by split_and!.
Qed.

Lemma same_levels_cur b b' : same_levels b b' -> strip (cur b') = strip (cur b).
Proof.
  intros Hs. rewrite <- !level_cur. unfold curlevel. rewrite (same_levels_length b b') by done.
  by apply level_strip.
Qed.

Lemma wp_PrepareTransaction b :
  Inv b -> subs b = [] -> CritSectionCount b = 0 -> state (top b) = TRANS_INPROGRESS ->
  exp_state (blockState (top b)) = TRANS_INPROGRESS -> parallelModeLevel (top b) = 0 ->
  wp PrepareTransaction (fun _ => Ended b) b.
Proof.
  intros HI Hs Hc Hst Hb Hpar. unfold PrepareTransaction, clear_owners, AtCommit_Memory, reset_top,
    HOLD_INTERRUPTS, RESUME_INTERRUPTS.
  apply wp_bind. eapply wp_mono; [apply wp_GetCurrentTransactionId; [done..|]|].
  { unfold cur. by rewrite Hs. }
  intros xid b1 (HI1 & Hc1 & [Ht1 Hs1] & Hx1).
  rewrite Hs in Hs1. apply map_eq_nil in Hs1.
  pose proof (f_equal state Ht1) as Est. pose proof (f_equal blockState Ht1) as Ebl.
  pose proof (f_equal chain Ht1) as Ech. pose proof (f_equal parallelModeLevel Ht1) as Epa.
  cbn in Est, Ebl, Ech, Epa. rewrite Hst in Est. rewrite Hpar in Epa. rewrite <- Ebl in Hb.
  pose proof (holdoff_nonneg b1 HI1) as Hh.
  assert (TopTransactionContext b1 <> None) as Hctx.
  { destruct HI1 as (_&[_ Hv _]&_). apply Hv. intros Hd. by rewrite Hd in Hb. }
  destruct b1 as [t l]. fields Hs1. fields Hc1. fields Est. fields Epa. fields Hh. fields Hctx.
  fields Ebl. fields Ech. fields Hb. subst. destruct TopTransactionContext0 as [ctx|]; [|done].
  wstep. { unfold IsInParallelMode. cbn. by rewrite Epa. }
  wstep. rewrite is_state_true by done. cbn [negb].
  repeat wstep.
  constructor; try done; pinv.
Qed.

(** A started transaction only waits for its block state. *)
Record Started (b0 b : backend) : Prop := {
  sta_inv bs : is_sub_block bs = false -> exp_state bs = TRANS_INPROGRESS ->
    bs <> TBLOCK_PARALLEL_INPROGRESS -> Inv (set_top (set_blockState bs (top b)) b);
  sta_subs : subs b = [];
  sta_crit : CritSectionCount b = 0;
  sta_state : state (top b) = TRANS_INPROGRESS;
  sta_chain : chain (top b) = chain (top b0);
  sta_ctx : CurTransactionContext b <> None }.

Lemma default_no_subs b : Inv b -> state (top b) = TRANS_DEFAULT -> subs b = [].
Proof.
  intros (Hsh & _) Hst. destruct (subs b) as [|s l] eqn:E; [done|].
  destruct (shape_top_parent _ _ Hsh) as (Hp & _); [done|]. congruence.
Qed.

Lemma wp_StartTransaction b :
  Inv b -> CritSectionCount b = 0 -> state (top b) = TRANS_DEFAULT ->
  wp StartTransaction (fun _ => Started b) b.
Proof.
  intros HI Hc Hst. pose proof (default_no_subs _ HI Hst) as Hs.
  assert (blockState (top b) = TBLOCK_DEFAULT) as Hbl. { destruct HI as ([]&_). auto. }
  destruct (HI) as (_&[Hidle _ _]&_). destruct (Hidle Hst) as (Hx & Hf & Hch & Htc & Hto & Hpa).
  clear Hidle. destruct b as [t l]. fields Hs. fields Hc. fields Hst. fields Hbl. fields Hx.
  fields Hf. fields Hch. fields Htc. fields Hto. fields Hpa. subst.
  unfold StartTransaction, AtStart_Memory, AtStart_ResourceOwner.
  wstep. wstep. wstep. { by apply is_state_true. }
  do 4 wstep. apply wp_query. rewrite sec_context_law. repeat wstep.
  abstract_top. rewrite Hbl in *. rewrite Hpa in *. clear Hst Hbl Hf Hch Hpa. destruct TransactionAbortContext0. all: repeat wstep. 
  all: constructor; [|reflexivity|reflexivity|reflexivity|cbn; congruence|discriminate].
  all: intros bs Hb1 Hb2 Hb3; pinv; try (by intros [-> | ->]).
  all: match goal with E : fullTransactionId ?t = 0 |- _ => rewrite E in * end; intros _ Hv; discriminate Hv.
Qed.

End Current.

End XactTop.
