(* ===== verification/XactSub.v ===== *)
(** * Subtransactions

    Triples of [XactLogic.v] for the routines of [xact.c] that push, start,
    commit, abort, clean up and pop a subtransaction.  A failure at any call
    leaves the invariant; the posts say what becomes of the stack. *)

From S2P Require Import Prelude.
From S2P Require Import Transam.
From S2P Require Import Xact.
From S2P Require Import XactLogic.
From S2P Require Import XactTop.

Import Transam Xact XactLogic XactTop.

Open Scope Z_scope.

Module XactSub.

Section Sub.
Context `{Env, !EnvLaws}.

(** The level [PushTransaction] makes below [p]. *)
Definition fresh_sub (p : TransactionStateData) (subid guc user sec : Z) (ro : bool)
  : TransactionStateData :=
  mkTS 0 subid None (savepointLevel p) TRANS_DEFAULT TBLOCK_SUBBEGIN (nestingLevel p + 1) guc
    None None [] 0 user sec ro false false 0 false.

Lemma sub_levels_nest l : sub_levels l ->
  match l with [] => True | s :: l' => nestingLevel s = 2 + Z.of_nat (length l') end.
Proof. destruct l as [|s l]; [done|]. by intros (_ & ? & _). Qed.

(** The nesting level of the current level counts the levels. *)
Lemma nest_cur b :
  Inv b -> parent_ok (cur b) -> nestingLevel (cur b) = 1 + Z.of_nat (length (subs b)).
Proof.
  intros (Hsh & _) Hp. unfold cur in *. destruct Hsh. destruct (subs b) as [|s l].
  - apply sh_nest0. intros Hd. destruct Hp as (_ & Hp & _). by rewrite Hd in Hp.
  - apply sub_levels_nest in sh_subs0. cbn [length]. lia.
Qed.

Lemma Inv_push s b :
  Inv b -> parent_ok (cur b) -> blockState s = TBLOCK_SUBBEGIN ->
  live_block (blockState (cur b)) = true ->
  nestingLevel s = nestingLevel (cur b) + 1 -> fullTransactionId s = 0 -> childXids s = [] ->
  parallelModeLevel s = 0 -> Inv (set_subs (s :: subs b) b).
Proof.
  intros HI Hp Hb Hbl Hn Hf Hc Hpar. pose proof (nest_cur b HI Hp) as Hnc.
  destruct HI as (Hsh & Hva & Hid & Hcr & Hho).
  split; [|split; [done|split; [|done]]]; cbn [top subs set_subs trace].
  - destruct Hsh. constructor; try done.
    + cbn. unfold level_ok. rewrite Hpar, Hb. split_and!; [done|lia|done|done|discriminate|done].
    + cbn. unfold cur in Hp. destruct (subs b); cbn in *; by constructor.
    + cbn. destruct (subs b ++ [top b]) eqn:E; [done|]. split; [|done].
      unfold valid_own. rewrite Hf. intros Hv. discriminate Hv.
    + unfold cur in Hbl. cbn in *. rewrite Hb. destruct (subs b); cbn in *; by split.
  - destruct Hid. constructor; try done; cbn; constructor; try done;
      unfold valid_own; rewrite Hf; intros Hv; discriminate Hv.
Qed.

Lemma wp_PushTransaction b :
  Inv b -> parent_ok (cur b) -> live_block (blockState (cur b)) = true ->
  wp PushTransaction (fun _ b' => exists subid guc user sec tr,
    b' = set_subs (fresh_sub (cur b) subid guc user sec (XactReadOnly b) :: subs b)
           (set_currentSubTransactionId subid (set_trace tr b)) /\ Inv b') b.
Proof.
  intros HI Hp Hbl. destruct b as [t l]. unfold PushTransaction.
  repeat wstep. eexists _, _, _, _, _. split; [reflexivity|].
  apply Inv_push; [pinv|exact Hp|reflexivity|exact Hbl|reflexivity..].
Qed.

(** Below a subtransaction, the parent. *)
Lemma parent_ok_parent b : Inv b -> subs b <> [] -> parent_ok (parent b).
Proof.
  intros (Hsh & _) Hs. unfold parent. destruct Hsh. destruct (subs b) as [|s l]; [done|]. cbn in *.
  destruct l as [|p l]; cbn in *; by apply Forall_cons in sh_parents0 as [? _].
Qed.

Lemma sub_contexts b :
  Inv b -> subs b <> [] ->
  CurTransactionContext b <> None /\ TransactionAbortContext b <> None.
Proof.
  intros (Hsh & [_ Hv _] & _) Hs.
  destruct (shape_top_parent _ _ Hsh Hs) as (_ & He & _).
  destruct Hv as (_ & ? & ? & _); [|done]. intros Hd. by rewrite Hd in He.
Qed.

End Sub.

(** ** Starting, aborting and cleaning up *)

(** What starting, committing and aborting a level do not touch. *)
Definition sub_frame (s s' : TransactionStateData) : Prop :=
  (name s', savepointLevel s', blockState s', subTransactionId s', chain s') =
  (name s, savepointLevel s, blockState s, subTransactionId s, chain s).

Section Sub2.
Context `{Env, !EnvLaws}.

(** The current subtransaction changed, and nothing outside it. *)
Record CurSub (st : TransState) (s : TransactionStateData) (b0 b : backend) : Prop := {
  cs_inv : Inv b;
  cs_crit : CritSectionCount b = 0;
  cs_top : top b = top b0;
  cs_sub : exists s', subs b = s' :: tail (subs b0) /\ state s' = st /\ sub_frame s s' /\
             (st = TRANS_INPROGRESS -> curTransactionContext s' <> None) }.

Lemma wp_StartSubTransaction b s l :
  Inv b -> subs b = s :: l -> CritSectionCount b = 0 -> blockState s <> TBLOCK_SUBABORT ->
  wp StartSubTransaction (fun _ => CurSub TRANS_INPROGRESS s b) b.
Proof.
  intros HI Hs Hc Hbl. destruct (sub_contexts b HI) as [Hctx _]; [by rewrite Hs|].
  destruct b as [t l0]. fields Hs. fields Hc. fields Hctx. subst.
  destruct CurTransactionContext0 as [ctx|]; [|done].
  unfold StartSubTransaction, AtSubStart_Memory, AtSubStart_ResourceOwner.
  repeat wstep. constructor; [pinv|done|done|]. by eexists.
Qed.

Lemma wp_AbortSubTransaction b s l :
  Inv b -> subs b = s :: l -> CritSectionCount b = 0 ->
  wp AbortSubTransaction (fun _ => CurSub TRANS_ABORT s b) b.
Proof.
  intros HI Hs Hc. destruct (sub_contexts b HI) as [_ Hctx]; [by rewrite Hs|].
  pose proof (holdoff_nonneg b HI) as Hh.
  destruct b as [t l0]. fields Hs. fields Hc. fields Hctx. fields Hh. subst.
  destruct TransactionAbortContext0 as [ctx|]; [|done].
  unfold AbortSubTransaction, AtSubAbort_Memory, AtSubAbort_ResourceOwner, HOLD_INTERRUPTS,
    RESUME_INTERRUPTS, AtSubAbort_childXids.
  repeat wstep.
  2, 4: constructor; [pinv|done|done|]; by eexists.
  all: apply wp_bind; eapply wp_mono; [by apply wp_RecordTransactionAbort|].
  all: intros ? ? (tr' & stop & -> & HI' & _); nstate; last_inv HI'; repeat wstep.
  all: constructor; [pinv|done|done|]; by eexists.
Qed.

Lemma chained_tail l t : chained (l ++ [t]) -> chained (tail l ++ [t]).
Proof. destruct l as [|s l]; [done|]. cbn. destruct (l ++ [t]); [done|]. by intros [_ ?]. Qed.

(** The stack without its innermost level. *)
Lemma Inv_pop s l b : Inv b -> subs b = s :: l -> Inv (set_subs l b).
Proof.
  intros (Hsh & Hva & Hid & Hcr & Hho) Hs. rewrite Hs in Hsh, Hid.
  split; [|split; [done|split; [|done]]]; cbn [top subs set_subs trace].
  - destruct Hsh. constructor; try done.
    + by destruct sh_subs0 as (_ & _ & _ & _ & ?).
    + cbn in sh_parents0. destruct l; cbn in *; [constructor|].
      by apply Forall_cons in sh_parents0 as [_ ?].
    + apply (chained_tail (s :: l)). done.
    + cbn in sh_below0. destruct (l ++ [top b]); [done|]. apply sh_below0.
  - destruct Hid. constructor; try done.
    + by apply Forall_cons in id_given0 as [_ ?].
    + by apply Forall_cons in id_sub0 as [_ ?].
Qed.

(** The current subtransaction is gone. *)
Record Popped (l : list TransactionStateData) (t : TransactionStateData) (b : backend) : Prop := {
  po_inv : Inv b;
  po_crit : CritSectionCount b = 0;
  po_subs : subs b = l;
  po_top : top b = t }.

Lemma wp_PopTransaction b s l :
  Inv (set_subs l b) -> parent_ok (cur (set_subs l b)) ->
  subs b = s :: l -> CritSectionCount b = 0 -> state s = TRANS_DEFAULT ->
  wp PopTransaction (fun _ => Popped l (top b)) b.
Proof.
  intros HI2 (_ & _ & Hctx) Hs Hc Hst. destruct b as [t l0]. fields Hs. fields Hc. fields Hctx. subst. last_inv HI2.
  unfold PopTransaction. wstep. rewrite is_state_true by done.
  cbn [negb]. do 2 wstep. cbn [length Nat.eqb negb]. do 3 wstep.
  repeat wstep. by constructor.
Qed.

End Sub2.

(** The call that ends the life of the innermost level. *)
Ltac pop_level Hp :=
  match goal with HI : Inv _ |- wp PopTransaction _ _ =>
    let HI2 := fresh "HI" in pose proof (Inv_pop _ _ _ HI eq_refl) as HI2; last_inv HI2;
    eapply wp_mono; [eapply wp_PopTransaction; [pinv|exact Hp|reflexivity..]|by intros]
  end.

Section Cleanup.
Context `{Env, !EnvLaws}.

Lemma wp_CleanupSubTransaction b s l :
  Inv b -> subs b = s :: l -> CritSectionCount b = 0 ->
  wp CleanupSubTransaction (fun _ => Popped l (top b)) b.
Proof.
  intros HI Hs Hc. pose proof (parent_ok_parent b HI ltac:(by rewrite Hs)) as Hp.
  destruct b as [t l0]. fields Hs. fields Hc. fields Hp. subst.
  assert (curTransactionContext match l with [] => t | p :: _ => p end <> None) as Hctx.
  { by destruct Hp as (_&_&?). }
  unfold CleanupSubTransaction, leave_owner, AtSubCleanup_Memory. repeat wstep.
  pop_level Hp.
Qed.

End Cleanup.

(** ** Committing *)

Section Sub3.
Context `{Env, !EnvLaws}.

Lemma wp_CommandCounterIncrement b :
  Inv b -> wp CommandCounterIncrement (fun _ b' => exists tr c u,
    b' = set_currentCommandIdUsed u (set_currentCommandId c (set_trace tr b)) /\ Inv b') b.
Proof.
  intros HI. destruct b as [t l]. unfold CommandCounterIncrement, AtCCI_LocalCache.

  wstep. destruct currentCommandIdUsed0; repeat wstep; eexists _, _, _; (split; [reflexivity|pinv]).
Qed.

Lemma valid_parent b s l :
  Inv b -> subs b = s :: l -> valid_own s -> valid_own (parent b).
Proof.
  intros (Hsh & _) Hs Hv. destruct Hsh. unfold parent. rewrite Hs in *. cbn in sh_chained0.
  destruct l as [|p l]; cbn in *; by destruct sh_chained0 as [Hp _]; apply Hp.
Qed.

(** A level with an id may take committed children. *)
Lemma Inv_kids b s l x m :
  Inv b -> subs b = s :: l -> valid_own s ->
  Inv (set_parent (set_childXids x (set_maxChildXids m (parent b))) b).
Proof.
  intros HI Hs Hv. pose proof (valid_parent b s l HI Hs Hv) as Hp. unfold valid_own in Hp.
  destruct HI as (Hsh & Hva & Hid & Hcr & Hho). unfold set_parent, parent in *.
  rewrite Hs in *. destruct l as [|p l].
  - split; [|split; [|split; [|done]]]; cbn [top subs set_top XactTopFullTransactionId
      TopTransactionContext CurTransactionContext TransactionAbortContext
      TopTransactionResourceOwner trace]; rewrite ?Hs.
    + destruct Hsh. constructor; try done.
      * unfold level_ok in *. cbn. rewrite Hp. by destruct sh_top_ok0.
      * cbn in *. by apply Forall_cons in sh_parents0 as [? _]; constructor.
    + destruct Hva as [Hi Hb Hx]. constructor; try done. cbn. intros Ht. exfalso.
      destruct Hsh. cbn in sh_parents0. apply Forall_cons in sh_parents0 as [(Hin & _) _]. congruence.
    + destruct Hid. constructor; try done.
      cbn in *. rewrite !Forall_cons in *. by destruct_and?; split_and?.
  - split; [|split; [done|split; [|done]]]; cbn [top subs set_subs trace].
    + destruct Hsh. constructor; try done.
      * cbn in *. unfold level_ok in *. cbn. rewrite Hp. by destruct_and?; split_and?.
      * cbn in *. apply Forall_cons in sh_parents0 as [? ?]. by constructor.
    + destruct Hid. constructor; try done.
      * cbn in *. rewrite !Forall_cons in *. by destruct_and?; split_and?.
      * rewrite !Forall_cons in *. by destruct_and?; split_and?.
Qed.

(** [s] merged into its parent [p]. *)
Definition absorb (s : TransactionStateData) (m : Z) (p : TransactionStateData)
  : TransactionStateData :=
  set_childXids
    (if FullTransactionIdIsValid (fullTransactionId s) then childXids p ++ own s :: childXids s
     else childXids p) (set_maxChildXids m p).

Record SubCommitted (s : TransactionStateData) (l : list TransactionStateData)
  (t : TransactionStateData) (b : backend) : Prop := {
  sc_inv : Inv b;
  sc_crit : CritSectionCount b = 0;
  sc_stack : exists m, match l with
    | [] => subs b = [] /\ top b = absorb s m t
    | p :: l' => subs b = absorb s m p :: l' /\ top b = t
    end }.

Lemma absorb_eta s m p :
  valid_own s -> absorb s m p = set_childXids (childXids p ++ own s :: childXids s) (set_maxChildXids m p).
Proof. unfold absorb. by intros ->. Qed.

Lemma set_maxChildXids_same p : set_maxChildXids (maxChildXids p) p = p.
Proof. by destruct p. Qed.

Lemma quiet_grow {A} (k : list A) args :
  quiet (calls [(match k with [] => "MemoryContextAlloc" | _ => "repalloc" end%string, args)]).
Proof. destruct k; by apply quiet_calls. Qed.

Lemma wp_AtSubCommit_childXids b s l :
  Inv b -> subs b = s :: l -> valid_own s ->
  wp AtSubCommit_childXids (fun _ b' => exists tr m,
    b' = set_cur (set_maxChildXids 0 (set_childXids [] s))
           (set_parent (absorb s m (parent b)) (set_trace tr b)) /\ Inv b') b.
Proof.
  intros HI Hs Hv. unfold AtSubCommit_childXids.
  destruct b as [t l0]. fields Hs. subst. do 3 wstep. fold (own s).
  pose proof (quiet_grow (childXids match l with [] => t | p :: _ => p end)) as Hq.
  apply wp_when.
  - intros _. wstep. wstep; [wstep|]. apply wp_assoc, (wp_quiet _ _ _ _ (Hq _)); [pinv|].
    intros ? tr Hg HI1. last_inv HI1. do 2 apply wp_modify.
    set (n := Z.min _ _). exists tr, n. rewrite absorb_eta by done.
    pose proof (Inv_kids _ s l (childXids match l with [] => t | p :: _ => p end ++ own s :: childXids s) n HI1 eq_refl Hv) as HI2.
    destruct l; (split; [reflexivity|]); last_inv HI2; pinv.
  - intros _. apply wp_modify. exists trace0, (maxChildXids match l with [] => t | p :: _ => p end).
    rewrite absorb_eta by done.
    pose proof (Inv_kids _ s l (childXids match l with [] => t | p :: _ => p end ++ own s :: childXids s)
      (maxChildXids match l with [] => t | p :: _ => p end) HI eq_refl Hv) as HI2.
    destruct l; cbn [parent]; rewrite set_maxChildXids_same; (split; [reflexivity|]);
      last_inv HI2; pinv.
Qed.

Lemma absorb_no_id s p :
  FullTransactionIdIsValid (fullTransactionId s) = false -> absorb s (maxChildXids p) p = p.
Proof. unfold absorb. intros ->. by destruct p. Qed.

(** The part of [CommitSubTransaction] after the children are handed over. *)
Definition CommitSubTransaction_tail (s p : TransactionStateData) (x : Z) : M unit :=
  let sub := subTransactionId s in
  let psub := subTransactionId p in
  let lev := nestingLevel s in
  calls [("AfterTriggerEndSubXact"%string, [1]);
         ("AtSubCommit_Portals"%string, [sub; psub; hz (curTransactionOwner p)]);
         ("AtEOSubXact_LargeObject"%string, [1; sub; psub]); ("AtSubCommit_Notify"%string, [])] ;;
  CallSubXactCallbacks SUBXACT_EVENT_COMMIT_SUB sub psub ;;
  ReleaseSub RESOURCE_RELEASE_BEFORE_LOCKS true ;;
  calls [("AtEOSubXact_RelationCache"%string, [1; sub; psub]); ("AtEOSubXact_Inval"%string, [1]);
         ("AtSubCommit_smgr"%string, [])] ;;
  modify (fun b => set_CurrentResourceOwner (curTransactionOwner (cur b)) b) ;;
  when (FullTransactionIdIsValid x)
    (calls [("XactLockTableDelete"%string, [XidFromFullTransactionId x])]) ;;
  ReleaseSub RESOURCE_RELEASE_LOCKS true ;;
  ReleaseSub RESOURCE_RELEASE_AFTER_LOCKS true ;;
  calls [("AtEOXact_GUC"%string, [1; gucNestLevel s]); ("AtEOSubXact_SPI"%string, [1; sub]);
         ("AtEOSubXact_on_commit_actions"%string, [1; sub; psub]);
         ("AtEOSubXact_Namespace"%string, [1; sub; psub]); ("AtEOSubXact_Files"%string, [1; sub; psub]);
         ("AtEOSubXact_HashTables"%string, [1; lev]); ("AtEOSubXact_PgStat"%string, [1; lev]);
         ("AtSubCommit_Snapshot"%string, [lev]); ("AtEOSubXact_ApplyLauncher"%string, [1; lev])] ;;
  modify (set_XactReadOnly (prevXactReadOnly s)) ;;
  modify (fun b => set_CurTransactionResourceOwner (curTransactionOwner (parent b))
                     (set_CurrentResourceOwner (curTransactionOwner (parent b)) b)) ;;
  let! o := get (fun b => curTransactionOwner (cur b)) in
  calls [("ResourceOwnerDelete"%string, [hz o])] ;;
  upd (set_curTransactionOwner None) ;;
  AtSubCommit_Memory ;;
  upd (set_state TRANS_DEFAULT) ;;
  PopTransaction.

Lemma wp_CommitSubTransaction_tail s0 p0 x b s l :
  Inv b -> subs b = s :: l -> CritSectionCount b = 0 -> blockState s <> TBLOCK_SUBABORT ->
  wp (CommitSubTransaction_tail s0 p0 x) (fun _ => Popped l (top b)) b.
Proof.
  intros HI Hs Hc Hbl. pose proof (parent_ok_parent b HI ltac:(by rewrite Hs)) as Hp.
  destruct b as [t l0]. fields Hs. fields Hc. fields Hp. subst.
  assert (curTransactionContext match l with [] => t | p :: _ => p end <> None) as Hctx.
  { by destruct Hp as (_&_&?). }
  unfold CommitSubTransaction_tail, AtSubCommit_Memory. cbv zeta. repeat wstep.
  all: pop_level Hp.
Qed.

End Sub3.

Section Sub4.
Context `{Env, !EnvLaws}.

(** [CommitSubTransaction] from the change to [TRANS_COMMIT]. *)
Definition CommitSubTransaction_mid (s p : TransactionStateData) : M unit :=
  upd (set_state TRANS_COMMIT) ;;
  CommandCounterIncrement ;;
  let! x := get (fun b => fullTransactionId (cur b)) in
  when (FullTransactionIdIsValid x) AtSubCommit_childXids ;;
  CommitSubTransaction_tail s p x.

Lemma wp_CommitSubTransaction_mid s0 p0 b s l :
  Inv b -> subs b = s :: l -> CritSectionCount b = 0 -> blockState s <> TBLOCK_SUBABORT ->
  wp (CommitSubTransaction_mid s0 p0) (fun _ => SubCommitted s l (top b)) b.
Proof.
  intros HI Hs Hc Hbl. destruct b as [t l0]. fields Hs. fields Hc. subst.
  unfold CommitSubTransaction_mid. wstep.
  apply wp_bind. eapply wp_mono; [apply wp_CommandCounterIncrement; pinv|].
  intros ? ? (tr & c & u & -> & HI1). nstate. last_inv HI1. wstep. apply wp_when.
  - intros Hv. apply wp_bind. eapply wp_mono.
    { eapply wp_AtSubCommit_childXids; [pinv|reflexivity|exact Hv]. }
    intros ? ? (tr' & m & -> & HI2). destruct l as [|p l].
    all: nstate; last_inv HI2; eapply wp_mono;
      [eapply wp_CommitSubTransaction_tail; [exact HI2|reflexivity|reflexivity|exact Hbl]|].
    all: intros ? b' []; constructor; [done..|]; exists m; split; [exact po_subs0|exact po_top0].
  - intros Hv. eapply wp_mono; [eapply wp_CommitSubTransaction_tail; [exact HI1|reflexivity|reflexivity|exact Hbl]|].
    intros ? b' []. constructor; [done..|]. destruct l as [|p l].
    + exists (maxChildXids t). rewrite absorb_no_id by done. by split.
    + exists (maxChildXids p). rewrite absorb_no_id by done. by split.
Qed.

Lemma CommitSubTransaction_mid_spec : CommitSubTransaction = (
  let! inprogress := get (fun b => is_state TRANS_INPROGRESS (cur b)) in
  when (negb inprogress) (warning "CommitSubTransaction while not in progress") ;;
  let! s := get cur in
  let! p := get parent in
  CallSubXactCallbacks SUBXACT_EVENT_PRE_COMMIT_SUB (subTransactionId s) (subTransactionId p) ;;
  let! parallel := get IsInParallelMode in
  when parallel (calls [("AtEOSubXact_Parallel", [1; subTransactionId s])]%string ;;
                 upd (set_parallelModeLevel 0)) ;;
  CommitSubTransaction_mid s p).
Proof. reflexivity. Qed.

Lemma wp_CommitSubTransaction b s l :
  Inv b -> subs b = s :: l -> CritSectionCount b = 0 -> blockState s <> TBLOCK_SUBABORT ->
  wp CommitSubTransaction (fun _ => SubCommitted s l (top b)) b.
Proof.
  intros HI Hs Hc Hbl. destruct b as [t l0]. fields Hs. fields Hc. subst.
  rewrite CommitSubTransaction_mid_spec.
  repeat (lazymatch goal with |- wp (CommitSubTransaction_mid _ _) _ _ => fail | _ => wstep end).
  all: eapply wp_mono; [eapply wp_CommitSubTransaction_mid; [pinv|reflexivity|reflexivity|exact Hbl]|].
  all: intros ? b' []; constructor; [done..|exact sc_stack0].
Qed.
End Sub4.

End XactSub.
