(* ===== verification/XactCommands.v ===== *)
(** * Transaction commands

    The commands of [xact.c] on top of the triples of [XactTop.v] and
    [XactSub.v]: the three command routines, the block commands of the user,
    savepoints, internal subtransactions and the exit of a backend.  The
    commands map settled states to settled states, and any error on the way
    leaves the invariant, from which [AbortCurrentTransaction] recovers. *)

From S2P Require Import Prelude.
From S2P Require Import Transam.
From S2P Require Import Xact.
From S2P Require Import XactLogic.
From S2P Require Import XactTop.
From S2P Require Import XactSub.

Import Transam Xact XactLogic XactTop XactSub.

Open Scope Z_scope.

Module XactCommands.

(** ** Block states and the stack *)

Section Stack.
Context `{Env, !EnvLaws}.

Lemma sub_levels_block l s : sub_levels l -> s ∈ l -> is_sub_block (blockState s) = true.
Proof.
  induction l as [|y l IH]; intros Hl Hs; [by apply elem_of_nil in Hs|].
  destruct Hl as (? & _ & _ & _ & ?). apply elem_of_cons in Hs as [->|]; auto.
Qed.

Lemma top_block_no_subs b : Inv b -> is_sub_block (blockState (cur b)) = false -> subs b = [].
Proof.
  intros ([]&_). unfold cur. destruct (subs b) as [|s l]; [done|].
  destruct sh_subs0 as (-> & _). done.
Qed.

Lemma sub_block_subs b :
  Inv b -> is_sub_block (blockState (cur b)) = true -> exists l, subs b = cur b :: l.
Proof.
  intros ([[Ht _]]&_). unfold cur. destruct (subs b) as [|s l]; [congruence|]. by exists l.
Qed.

Lemma parent_settled b :
  Inv b -> CritSectionCount b = 0 -> parent_ok (cur b) -> Settled b.
Proof. intros HI Hc (Hs & He & Hx). split_and!; try done. congruence. Qed.

Lemma settled_parent b :
  Settled b -> exp_state (blockState (cur b)) = TRANS_INPROGRESS -> parent_ok (cur b).
Proof. intros (_ & Hs & _ & Hx) He. split_and!; [congruence|done|auto]. Qed.

(** After a pop the current level is the former parent. *)
Lemma popped_cur b0 s l b :
  Inv b0 -> subs b0 = s :: l -> Popped l (top b0) b -> parent_ok (cur b).
Proof.
  intros HI Hs [_ _ Hl Ht]. pose proof (parent_ok_parent b0 HI) as Hp.
  rewrite Hs in Hp. specialize (Hp ltac:(done)). unfold parent, cur in *. rewrite Hs in Hp.
  rewrite Hl, Ht. by destruct l.
Qed.

(** Changing the block state of the current subtransaction. *)
Lemma Inv_setblock_sub bs b s l :
  Inv b -> subs b = s :: l -> is_sub_block bs = true -> bs <> TBLOCK_SUBABORT ->
  below bs (blockState (parent b)) = true ->
  Inv (set_cur (set_blockState bs (cur b)) b).
Proof.
  intros (Hsh & Hva & Hid & Hcr & Hho) Hs Hb Hne Hbl. unfold set_cur, cur, parent in *.
  rewrite Hs in *. split; [|split; [done|split; [|done]]]; cbn [top subs set_subs trace].
  - destruct Hsh. constructor; try done.
    + cbn in *. destruct sh_subs0 as (_ & ? & ? & _ & ?). by split_and!.
    + cbn in *. destruct l; cbn in *; by destruct sh_below0.
  - ids_tac Hid.
Qed.

(** And to [TBLOCK_SUBABORT], once aborted. *)
Lemma Inv_setblock_subabort b s l :
  Inv b -> subs b = s :: l -> state s = TRANS_ABORT ->
  live_block (blockState (parent b)) = true ->
  Inv (set_cur (set_blockState TBLOCK_SUBABORT (cur b)) b).
Proof.
  intros (Hsh & Hva & Hid & Hcr & Hho) Hs Hst Hbl. unfold set_cur, cur, parent in *.
  rewrite Hs in *. split; [|split; [done|split; [|done]]]; cbn [top subs set_subs trace].
  - destruct Hsh. constructor; try done.
    + cbn in *. destruct sh_subs0 as (_ & ? & ? & _ & ?). by split_and!.
    + cbn in *. destruct l; cbn in *; by destruct sh_below0.
  - ids_tac Hid.
Qed.

(** Changing the block state of the top level inside a transaction. *)
Lemma Inv_setblock_top bs b :
  Inv b -> subs b = [] -> is_sub_block bs = false -> bs <> TBLOCK_PARALLEL_INPROGRESS ->
  bs <> TBLOCK_DEFAULT -> blockState (top b) <> TBLOCK_DEFAULT ->
  (bs = TBLOCK_ABORT \/ bs = TBLOCK_ABORT_END -> state (top b) = TRANS_ABORT) ->
  (exp_state bs = TRANS_INPROGRESS -> exp_state (blockState (top b)) = TRANS_INPROGRESS) ->
  Inv (set_top (set_blockState bs (top b)) b).
Proof.
  intros (Hsh & Hva & Hid & Hcr & Hho) Hs Hb Hp Hd Hd0 Ha He.
  split; [|split; [|split; [|done]]]; cbn [top subs set_top XactTopFullTransactionId
    TopTransactionContext CurTransactionContext TransactionAbortContext
    TopTransactionResourceOwner trace].
  - destruct Hsh. rewrite Hs in *. constructor; try done; cbn; auto.
    intros Hst. by specialize (sh_default0 Hst).
  - destruct Hva. constructor; cbn; auto.
  - rewrite Hs in *. ids_tac Hid.
Qed.

End Stack.

(** ** Recovery from an error *)

(** The backend has no transaction. *)
Record Idle (b : backend) : Prop := {
  idle_subs : subs b = [];
  idle_state : state (top b) = TRANS_DEFAULT;
  idle_block : blockState (top b) = TBLOCK_DEFAULT }.

Section Recovery.
Context `{Env, !EnvLaws}.

Lemma set_top_same b : set_top (set_blockState (blockState (top b)) (top b)) b = b.
Proof. destruct b as [[] ?]; done. Qed.

Lemma idle_settled b : Inv b -> CritSectionCount b = 0 -> Idle b -> Settled b.
Proof.
  intros HI Hc [Hs Hst Hb]. unfold Settled, cur. rewrite Hs, Hst, Hb. by split_and!.
Qed.

Lemma cur_top b : subs b = [] -> cur b = top b.
Proof. unfold cur. by intros ->. Qed.

Lemma set_cur_top b s : subs b = [] -> set_cur s b = set_top s b.
Proof. unfold set_cur. by intros ->. Qed.

(** The end of a transaction and the block state of an idle backend. *)
Lemma wp_ended_default b0 b :
  Ended b0 b ->
  wp (setblock TBLOCK_DEFAULT)
     (fun _ b' => Settled b' /\ Idle b' /\ chain (top b') = chain (top b0)) b.
Proof.
  intros [HI Hs Hc Hst Hb Hch]. change (wp (setblock TBLOCK_DEFAULT) ?Q b)
    with (Q tt (set_cur (set_blockState TBLOCK_DEFAULT (cur b)) b)). cbv beta.
  rewrite set_cur_top, cur_top by done.
  assert (Idle (set_top (set_blockState TBLOCK_DEFAULT (top b)) b)) as Hi by by constructor.
  split_and!; [|done|done]. by apply idle_settled.
Qed.

Lemma wp_abort_and_cleanup b :
  Inv b -> subs b = [] -> CritSectionCount b = 0 -> state (top b) <> TRANS_DEFAULT ->
  wp abort_and_cleanup (fun _ b' => Settled b' /\ Idle b' /\ chain (top b') = chain (top b)) b.
Proof.
  intros HI Hs Hc Hst. unfold abort_and_cleanup. apply wp_bind.
  eapply wp_mono; [by apply wp_AbortTransaction|]. intros ? b1 [HI1 Hs1 Hc1 Hst1 Hb1 Hch1].
  apply wp_bind. eapply wp_mono; [by apply wp_CleanupTransaction|]. intros ? b2 HE.
  eapply wp_mono; [exact (wp_ended_default _ _ HE)|]. intros ? b3 (? & ? & ?). split_and!; [done..|congruence].
Qed.

Lemma wp_abort_starting b :
  Inv b -> CritSectionCount b = 0 -> blockState (cur b) = TBLOCK_DEFAULT ->
  wp abort_starting (fun _ b' => Settled b' /\ Idle b') b.
Proof.
  intros HI Hc Hb. pose proof (top_block_no_subs b HI ltac:(by rewrite Hb)) as Hs.
  rewrite cur_top in Hb by done. unfold abort_starting. apply wp_get. rewrite (cur_top b Hs).
  destruct (decide (state (top b) = TRANS_DEFAULT)) as [Hd|Hd].
  { rewrite is_state_true by done. split; [apply idle_settled|]; done. }
  rewrite is_state_false by done.
  set (b1 := if is_state TRANS_START (top b) then set_top (set_state TRANS_INPROGRESS (top b)) b else b).
  enough (wp (AbortTransaction;; CleanupTransaction) (fun _ b' => Settled b' /\ Idle b') b1) as Hw.
  { apply wp_when; intros Hif; subst b1; rewrite Hif in Hw; [|done].
    apply wp_upd. by rewrite set_cur_top, cur_top. }
  assert (Inv b1 /\ subs b1 = [] /\ CritSectionCount b1 = 0 /\ state (top b1) <> TRANS_DEFAULT /\
          blockState (top b1) = TBLOCK_DEFAULT) as (HI1 & Hs1 & Hc1 & Hst1 & Hb1).
  { subst b1. destruct (is_state TRANS_START (top b)) eqn:Hif; [|by split_and!]. split_and!; try done.
    apply bool_decide_eq_true in Hif. destruct b as [t l]. fields Hs. fields Hb. fields Hif. subst.
    cbn. pinv. intros _. apply id_live0. by rewrite Hif. }
  apply wp_bind. eapply wp_mono; [by apply wp_AbortTransaction|]. intros ? b2 [HI2 Hs2 Hc2 Hst2 Hb2 _].
  eapply wp_mono; [by apply wp_CleanupTransaction|]. intros ? b3 [HI3 Hs3 Hc3 Hst3 Hb3 _].
  assert (blockState (top b3) = TBLOCK_DEFAULT) as Hb4 by congruence.
  assert (Inv b3). { rewrite <- Hb4 in HI3. by rewrite set_top_same in HI3. }
  assert (Idle b3) by by constructor. split; [by apply idle_settled|done].
Qed.

End Recovery.

(** ** The machine of block states

    What the commands do to the block states of the stack, innermost level
    first, when nothing goes wrong. *)

Definition blocks (b : backend) : list TBlockState := map blockState (stack b).

(** The levels an abort leaves behind. *)
Definition abort_pops (s : TBlockState) : bool :=
  match s with
  | TBLOCK_SUBBEGIN | TBLOCK_SUBRELEASE | TBLOCK_SUBCOMMIT | TBLOCK_SUBABORT_PENDING
  | TBLOCK_SUBRESTART | TBLOCK_SUBABORT_END | TBLOCK_SUBABORT_RESTART => true
  | _ => false
  end.

Definition abort_block (s : TBlockState) : TBlockState :=
  match s with
  | TBLOCK_INPROGRESS | TBLOCK_PARALLEL_INPROGRESS | TBLOCK_ABORT => TBLOCK_ABORT
  | TBLOCK_SUBINPROGRESS | TBLOCK_SUBABORT => TBLOCK_SUBABORT
  | _ => TBLOCK_DEFAULT
  end.

Fixpoint abort_blocks (l : list TBlockState) : list TBlockState :=
  match l with
  | s :: l' => if abort_pops s then abort_blocks l' else abort_block s :: l'
  | [] => []
  end.

Section Blocks.
Context `{Env, !EnvLaws}.

Lemma blocks_top b : subs b = [] -> blocks b = [blockState (top b)].
Proof. unfold blocks, stack. by intros ->. Qed.

Lemma blocks_subs b s l : subs b = s :: l -> blocks b = blockState s :: map blockState (l ++ [top b]).
Proof. unfold blocks, stack. by intros ->. Qed.

Lemma blocks_cur b : blocks b = blockState (cur b) :: tail (blocks b).
Proof. unfold blocks, stack, cur. by destruct (subs b). Qed.

Lemma popped_blocks l t b : Popped l t b -> blocks b = map blockState (l ++ [t]).
Proof. intros [_ _ Hl Ht]. unfold blocks, stack. by rewrite Hl, Ht. Qed.

Lemma set_top_blocks b bs : subs b = [] -> blocks (set_top (set_blockState bs (top b)) b) = [bs].
Proof. unfold blocks, stack. cbn. by intros ->. Qed.

Lemma idle_blocks b : Idle b -> blocks b = [TBLOCK_DEFAULT].
Proof. intros [Hs _ Hb]. by rewrite blocks_top, Hb. Qed.

Lemma wp_abort_pop b s l :
  Inv b -> subs b = s :: l -> CritSectionCount b = 0 ->
  wp (AbortSubTransaction;; CleanupSubTransaction) (fun _ => Popped l (top b)) b.
Proof.
  intros HI Hs Hc. apply wp_bind. eapply wp_mono; [by eapply wp_AbortSubTransaction|].
  intros ? b1 [HI1 Hc1 Ht1 (s1 & Hs1 & _)]. rewrite Hs in Hs1. rewrite <- Ht1.
  by eapply wp_CleanupSubTransaction.
Qed.

(** Recovery ends, whatever state an error left: with as much fuel as levels,
    and with the blocks [abort_blocks] says. *)
Definition recovered (b0 b : backend) : Prop := Settled b /\ blocks b = abort_blocks (blocks b0).

Lemma wp_abort_top_idle b :
  Inv b -> CritSectionCount b = 0 -> is_sub_block (blockState (cur b)) = false ->
  blockState (cur b) <> TBLOCK_DEFAULT -> abort_block (blockState (cur b)) = TBLOCK_DEFAULT ->
  wp abort_and_cleanup (fun _ => recovered b) b.
Proof.
  intros HI Hc Hb Hd Ha. pose proof (top_block_no_subs b HI Hb) as Hs. rewrite cur_top in * by done.
  eapply wp_mono; [apply wp_abort_and_cleanup; try done|].
  { intros Hst. destruct HI as ([]&_). auto. }
  intros ? b1 (HS & Hi & _). split; [done|]. rewrite idle_blocks, blocks_top by done. cbn.
  rewrite Ha. by destruct (blockState (top b)).
Qed.

Lemma wp_abort_current_pop (m : M unit) n b s l :
  (forall b', Inv b' -> CritSectionCount b' = 0 -> (length (subs b') < n)%nat ->
     wp (AbortCurrentTransaction_rec n) (fun _ => recovered b') b') ->
  Inv b -> subs b = s :: l -> abort_pops (blockState s) = true -> (length l < n)%nat ->
  wp m (fun _ => Popped l (top b)) b ->
  wp (m ;; AbortCurrentTransaction_rec n) (fun _ => recovered b) b.
Proof.
  intros IH HI Hs Hp Hn Hm. apply wp_bind. eapply wp_mono; [exact Hm|].
  intros ? b1 HP. pose proof (popped_blocks _ _ _ HP) as Hb1. destruct HP as [HI1 Hc1 Hs1 _].
  eapply wp_mono; [apply IH; [done..|by rewrite Hs1]|]. intros ? b2 [HS2 Hb2]. split; [done|].
  rewrite Hb2, Hb1, (blocks_subs b s l Hs). cbn. by rewrite Hp.
Qed.

Lemma wp_abort_and_setblock b :
  Inv b -> CritSectionCount b = 0 -> blockState (cur b) = TBLOCK_INPROGRESS ->
  wp (AbortTransaction;; setblock TBLOCK_ABORT) (fun _ => recovered b) b.
Proof.
  intros HI Hc Hb. pose proof (top_block_no_subs b HI ltac:(by rewrite Hb)) as Hs.
  rewrite cur_top in Hb by done. apply wp_bind. eapply wp_mono; [apply wp_AbortTransaction; try done|].
  { intros Hst. destruct HI as ([]&_). specialize (sh_default0 Hst). congruence. }
  intros ? b1 [HI1 Hs1 Hc1 Hst1 Hb1 _]. rewrite Hb in Hb1.
  change (recovered b (set_cur (set_blockState TBLOCK_ABORT (cur b1)) b1)).
  rewrite set_cur_top, cur_top by done. split.
  - split_and!; try done.
    + apply Inv_setblock_top; try done; by rewrite Hb1.
    + unfold cur. cbn. by rewrite Hs1.
    + unfold cur. cbn. by rewrite Hs1.
  - by rewrite set_top_blocks, (blocks_top b), Hb.
Qed.

Lemma wp_abort_sub_and_setblock b :
  Inv b -> CritSectionCount b = 0 -> blockState (cur b) = TBLOCK_SUBINPROGRESS ->
  wp (AbortSubTransaction;; setblock TBLOCK_SUBABORT) (fun _ => recovered b) b.
Proof.
  intros HI Hc Hb. destruct (sub_block_subs b HI ltac:(by rewrite Hb)) as [l Hs].
  apply wp_bind. eapply wp_mono; [by eapply wp_AbortSubTransaction|].
  intros ? b1 [HI1 Hc1 Ht1 (s1 & Hs1 & Hst1 & Hf & _)]. rewrite Hs in Hs1.
  injection Hf as _ _ Hb1 _ _. rewrite Hb in Hb1.
  assert (cur b1 = s1) as Hcur by (unfold cur; by rewrite Hs1).
  change (recovered b (set_cur (set_blockState TBLOCK_SUBABORT (cur b1)) b1)). split.
  - split_and!; try done.
    + eapply Inv_setblock_subabort; [done|done|done|]. destruct HI1 as ([]&_). unfold parent.
      rewrite Hs1 in *. cbn in sh_below0. rewrite Hb1 in sh_below0.
      destruct l; cbn in *; by destruct sh_below0.
    + unfold set_cur, cur. rewrite Hs1. cbn. done.
    + unfold set_cur. by rewrite Hs1.
    + unfold set_cur, cur. by rewrite Hs1.
  - rewrite (blocks_subs b _ _ Hs), Hb. unfold blocks, stack, set_cur. rewrite Hs1. cbn. by rewrite Ht1.
Qed.

Lemma wp_AbortCurrentTransaction_rec n b :
  Inv b -> CritSectionCount b = 0 -> (length (subs b) < n)%nat ->
  wp (AbortCurrentTransaction_rec n) (fun _ => recovered b) b.
Proof.
  revert b. induction n as [|n IH]; intros b HI Hc Hn; [lia|].
  cbn [AbortCurrentTransaction_rec]. apply wp_curblock.
  destruct (is_sub_block (blockState (cur b))) eqn:Hk.
  - destruct (sub_block_subs b HI Hk) as [l Hs]. rewrite Hs in Hn. cbn [length] in Hn.
    assert (length l < n)%nat by lia.
    pose proof (wp_abort_pop b _ _ HI Hs Hc) as Hpop.
    pose proof (wp_CleanupSubTransaction b _ _ HI Hs Hc) as Hcl.
    destruct (blockState (cur b)) eqn:Hb; try discriminate Hk.
    all: first [apply wp_group|idtac].
    all: try (eapply wp_abort_current_pop; [exact IH|done|done|by rewrite Hb|done|]).
    all: try first [exact Hpop|exact Hcl].
    + by apply wp_abort_sub_and_setblock.
    + pose proof HI as ([]&_). rewrite Hs in sh_subs0. destruct sh_subs0 as (_&_&_&Ha&_).
      split; [split_and!; try done|]; rewrite ?Hb; try done; [by apply Ha|].
      by rewrite (blocks_subs b _ _ Hs), Hb.
  - pose proof (top_block_no_subs b HI Hk) as Hs. 
    destruct (blockState (cur b)) eqn:Hb; try discriminate Hk.
    all: try (apply wp_abort_top_idle; rewrite ?Hb; done).
    + eapply wp_mono; [by apply wp_abort_starting|]. intros ? b1 [HS Hi]. split; [done|].
      rewrite cur_top in Hb by done. by rewrite idle_blocks, (blocks_top b), Hb.
    + by apply wp_abort_and_setblock.
    + rewrite cur_top in Hb by done. by destruct HI as ([[_ []]]&_).
    + pose proof HI as ([]&_). rewrite cur_top in * by done. split.
      * unfold Settled. rewrite cur_top, Hb by done. split_and!; try done. by apply sh_abort0; left.
      * by rewrite blocks_top, Hb.
    + apply wp_bind. rewrite cur_top in Hb by done. eapply wp_mono.
      { apply wp_CleanupTransaction; try done. destruct HI as ([]&_). apply sh_abort0. by right. }
      intros ? b1 HE. eapply wp_mono; [exact (wp_ended_default _ _ HE)|]. cbv beta.
      intros ? b2 (HS & Hi & _). split; [done|]. by rewrite idle_blocks, (blocks_top b), Hb.
Qed.

End Blocks.

(** ** The exit of a backend *)

Section Exit.
Context `{Env, !EnvLaws}.

(** One level less, or no transaction. *)
Definition unwound (n : nat) (b : backend) : Prop :=
  Inv b /\ CritSectionCount b = 0 /\
  (Idle b \/ blockState (cur b) <> TBLOCK_DEFAULT /\ (length (subs b) < n)%nat).

Lemma wp_unwind_loop n (m : M unit) b :
  (forall b', Inv b' -> CritSectionCount b' = 0 -> (length (subs b') < n)%nat ->
     wp (AbortOutOfAny_loop n) (fun _ b2 => Settled b2 /\ Idle b2) b') ->
  wp m (fun _ => unwound n) b ->
  wp (m ;;
      let! again := get (fun b => negb (is_block TBLOCK_DEFAULT (cur b))) in
      if again then AbortOutOfAny_loop n else ret tt) (fun _ b2 => Settled b2 /\ Idle b2) b.
Proof.
  intros IH Hm. apply wp_bind. eapply wp_mono; [exact Hm|].
  intros ? b1 (HI1 & Hc1 & [Hi|[Hd Hn]]); apply wp_get.
  - rewrite cur_top, is_block_true by apply Hi. split; [by apply idle_settled|done].
  - rewrite is_block_false by done. by apply IH.
Qed.

Lemma popped_unwound n l b0 s b :
  Inv b0 -> subs b0 = s :: l -> (length l < n)%nat -> Popped l (top b0) b -> unwound n b.
Proof.
  intros HI Hs Hn HP. pose proof (popped_cur _ _ _ _ HI Hs HP) as (_ & He & _).
  destruct HP. split_and!; try done. right. rewrite po_subs0. split; [|done].
  intros Hd. by rewrite Hd in He.
Qed.

Lemma wp_AbortOutOfAny_loop n b :
  Inv b -> CritSectionCount b = 0 -> (length (subs b) < n)%nat ->
  wp (AbortOutOfAny_loop n) (fun _ b' => Settled b' /\ Idle b') b.
Proof.
  revert b. induction n as [|n IH]; intros b HI Hc Hn; [lia|].
  cbn [AbortOutOfAny_loop]. do 2 apply wp_get. apply wp_unwind_loop; [exact IH|].
  destruct (is_sub_block (blockState (cur b))) eqn:Hk.
  - destruct (sub_block_subs b HI Hk) as [l Hs]. rewrite Hs in Hn. cbn [length] in Hn.
    assert (forall b', Popped l (top b) b' -> unwound n b') as Hu.
    { intros b'. eapply popped_unwound; [done..|lia]. }
    assert (forall b', Inv b' -> CritSectionCount b' = 0 -> subs b' = subs b -> top b' = top b ->
      wp CleanupSubTransaction (fun _ => unwound n) b') as Hcl.
    { intros b' HI' Hc' Hs' Ht'. rewrite Hs in Hs'.
      eapply wp_mono; [by eapply wp_CleanupSubTransaction|]. rewrite Ht'. auto. }
    assert (wp (AbortSubTransaction;; CleanupSubTransaction) (fun _ => unwound n) b) as Hab.
    { eapply wp_mono; [by eapply wp_abort_pop|]. auto. }
    destruct (blockState (cur b)) eqn:Hb; try discriminate Hk; first [exact Hab|idtac].
    all: apply wp_when; intros _; [|by apply Hcl].
    all: apply wp_calls; [done|done|]; intros tr _ HI'; by apply Hcl.
  - pose proof (top_block_no_subs b HI Hk) as Hs.
    assert (forall b', Settled b' /\ Idle b' -> unwound n b') as Hi.
    { intros b' [(?&?&?&?) ?]. split_and!; auto. }
    rewrite cur_top in * by done.
    destruct (blockState (top b)) eqn:Hb; try discriminate Hk.
    all: try (eapply wp_mono; [apply wp_abort_and_cleanup; try done|intros ? ? (?&?&?); by apply Hi]).
    all: try (intros Hst; destruct HI as ([]&_); specialize (sh_default0 Hst); congruence).
    { eapply wp_mono; [apply wp_abort_starting; try done; by rewrite cur_top|]. intros ? ? ?. by apply Hi. }
    all: apply wp_calls; [done|done|]; intros tr _ HI'.
    all: apply wp_bind; eapply wp_mono; [apply wp_CleanupTransaction; try done|].
    all: try (destruct HI as ([]&_); apply sh_abort0; auto).
    all: intros ? b1 HE; eapply wp_mono; [exact (wp_ended_default _ _ HE)|].
    all: cbv beta; intros ? ? (?&?&?); by apply Hi.
Qed.

Lemma wp_AbortOutOfAnyTransaction b :
  Inv b -> CritSectionCount b = 0 ->
  wp AbortOutOfAnyTransaction (fun _ b' => Settled b' /\ Idle b') b.
Proof.
  intros HI Hc. unfold AbortOutOfAnyTransaction.
  apply wp_quiet; [apply quiet_AtAbort_Memory|done|]. intros ? tr _ HI1. apply wp_get.
  apply wp_bind. eapply wp_mono; [apply wp_AbortOutOfAny_loop; cbn; [done|done|lia]|].
  intros ? b1 [HS Hi]. 
  destruct HS as (HI2 & _ & Hc2 & _), Hi as [Hs2 Hst2 Hb2]. destruct b1 as [t l].
  fields Hs2. fields Hst2. fields Hb2. fields Hc2. subst. unfold AtCleanup_Memory.
  repeat wstep.
  all: split; [apply idle_settled; [pinv|done|by constructor]|by constructor].
Qed.
End Exit.

(** ** Savepoints and the commit of a command *)

(** The levels above the first one in another block state are gone. *)
Fixpoint skip (bs : TBlockState) (l : list TBlockState) : list TBlockState :=
  match l with
  | s :: l' => if decide (s = bs) then skip bs l' else l
  | [] => []
  end.

Fixpoint commit_blocks (ch : bool) (l : list TBlockState) : list TBlockState :=
  match l with
  | [] => []
  | s :: l' =>
      match s with
      | TBLOCK_STARTED | TBLOCK_PREPARE => TBLOCK_DEFAULT :: l'
      | TBLOCK_BEGIN => TBLOCK_INPROGRESS :: l'
      | TBLOCK_END | TBLOCK_ABORT_END | TBLOCK_ABORT_PENDING =>
          (if ch then TBLOCK_INPROGRESS else TBLOCK_DEFAULT) :: l'
      | TBLOCK_SUBBEGIN | TBLOCK_SUBRESTART | TBLOCK_SUBABORT_RESTART => TBLOCK_SUBINPROGRESS :: l'
      | TBLOCK_SUBRELEASE => skip TBLOCK_SUBRELEASE l'
      | TBLOCK_SUBCOMMIT => [TBLOCK_DEFAULT]
      | TBLOCK_SUBABORT_END | TBLOCK_SUBABORT_PENDING => commit_blocks ch l'
      | _ => l
      end
  end.

(** The level a savepoint pushes. *)
Record Pushed `{Env} (nm : option string) (b0 b : backend) : Prop := {
  pu_inv : Inv b;
  pu_crit : CritSectionCount b = 0;
  pu_top : top b = top b0;
  pu_sub : exists s, subs b = s :: subs b0 /\ state s = TRANS_DEFAULT /\
    blockState s = TBLOCK_SUBBEGIN /\ name s = nm /\ savepointLevel s = savepointLevel (cur b0) /\
    chain s = false /\ parallelModeLevel s = 0 }.

Section Commit.
Context `{Env, !EnvLaws}.

Lemma Pushed_blocks nm b0 b : Pushed nm b0 b -> blocks b = TBLOCK_SUBBEGIN :: blocks b0.
Proof. intros [_ _ Ht (s & Hs & _ & Hb & _)]. unfold blocks, stack. by rewrite Hs, Ht, <- Hb. Qed.

Lemma Pushed_settled nm b0 b : Pushed nm b0 b -> Settled b.
Proof.
  intros [HI Hc Ht (s & Hs & Hst & Hb & _)]. unfold Settled, cur. rewrite Hs, Hst, Hb. by split_and!.
Qed.

(** A level with a name of its own. *)
Lemma Inv_set_name nm b s l :
  Inv b -> subs b = s :: l -> Inv (set_cur (set_name nm (cur b)) b).
Proof.
  intros (Hsh & Hva & Hid & Hcr & Hho) Hs. unfold set_cur, cur in *. rewrite Hs in *.
  split; [|split; [done|split; [|done]]]; cbn [top subs set_subs trace].
  - shape_tac Hsh.
  - ids_tac Hid.
Qed.

Lemma wp_push_named nm b :
  Inv b -> CritSectionCount b = 0 -> parent_ok (cur b) -> live_block (blockState (cur b)) = true ->
  wp (PushTransaction ;;
      match nm with
      | None => ret tt
      | Some _ => calls [("MemoryContextStrdup"%string, [])] ;; upd (set_name nm)
      end) (fun _ => Pushed nm b) b.
Proof.
  intros HI Hc Hp Hl. apply wp_bind. eapply wp_mono; [by apply wp_PushTransaction|].
  intros ? ? (subid & guc & user & sec & tr & -> & HI1). destruct nm as [nm|].
  - apply wp_calls; [done|exact HI1|]. intros tr' _ HI2.
    match type of HI2 with Inv ?b2 =>
      change (Pushed (Some nm) b (set_cur (set_name (Some nm) (cur b2)) b2)) end.
    constructor; [by eapply Inv_set_name|done|done|]. by eexists.
  - constructor; [done..|]. by eexists.
Qed.

Lemma wp_DefineSavepoint nm b :
  Settled b -> wp (DefineSavepoint nm) (fun _ => Pushed nm b) b.
Proof.
  intros HS. pose proof HS as (HI & _ & Hc & _). unfold DefineSavepoint. apply wp_get, wp_when.
  { intros _. by apply wp_error_bind. }
  intros _. apply wp_curblock.
  destruct (blockState (cur b)) eqn:Hb; try by apply wp_fatal.
  - apply wp_push_named; try done; [|by rewrite Hb]. apply settled_parent; [done|by rewrite Hb].
  - by apply wp_error.
  - apply wp_push_named; try done; [|by rewrite Hb]. apply settled_parent; [done|by rewrite Hb].
Qed.

(** Idle, and the next transaction of a chain. *)
Lemma wp_start_chained b :
  Settled b -> Idle b ->
  wp start_chained (fun _ b' => Settled b' /\
    blocks b' = [if chain (top b) then TBLOCK_INPROGRESS else TBLOCK_DEFAULT]) b.
Proof.
  intros HS Hi. pose proof HS as (HI & _ & Hc & _). pose proof Hi as [Hs Hst Hb].
  unfold start_chained. apply wp_get. rewrite cur_top by done.
  destruct (chain (top b)); [|split; [done|by apply idle_blocks]].
  apply wp_bind. eapply wp_mono; [by apply wp_StartTransaction|].
  intros ? b1 [HI1 Hs1 Hc1 Hst1 _ Hx1]. apply wp_setblock, wp_upd.
  rewrite (set_cur_top b1), (cur_top b1), set_cur_top, cur_top by done.
  match goal with |- wp _ _ ?b2 => assert (Inv b2) as HI2 end.
  { apply (Inv_like (set_chain false (set_blockState TBLOCK_INPROGRESS (top b1)))
      (set_top (set_blockState TBLOCK_INPROGRESS (top b1)) b1)); [done|]. by apply HI1. }
  split.
  - apply parent_settled; [exact HI2|exact Hc1|]. unfold cur. cbn. rewrite Hs1.
    destruct HI2 as (_&[_ Hv _]&_). split_and!; try done. cbn. by apply Hv.
  - unfold blocks, stack. cbn. by rewrite Hs1.
Qed.

End Commit.

Section CommitSubs.
Context `{Env, !EnvLaws}.

(** The stack after a chain of subcommits. *)
Record Absorbed (bs : TBlockState) (b0 b : backend) : Prop := {
  ab_inv : Inv b;
  ab_crit : CritSectionCount b = 0;
  ab_cur : parent_ok (cur b);
  ab_blocks : blocks b = skip bs (tail (blocks b0));
  ab_chain : chain (top b) = chain (top b0);
  ab_parallel : parallelModeLevel (top b) = parallelModeLevel (top b0) }.

Lemma subcommitted_cur b0 s l b :
  Inv b0 -> subs b0 = s :: l -> SubCommitted s l (top b0) b ->
  parent_ok (cur b) /\ blocks b = map blockState (l ++ [top b0]) /\
  length (subs b) = length l /\ chain (top b) = chain (top b0) /\
  parallelModeLevel (top b) = parallelModeLevel (top b0).
Proof.
  intros HI Hs [_ _ (m & Hm)]. pose proof (parent_ok_parent b0 HI) as Hp. rewrite Hs in Hp.
  specialize (Hp ltac:(done)). unfold parent, cur, blocks, stack in *. rewrite Hs in Hp.
  destruct l as [|p l]; destruct Hm as [-> Ht]; rewrite Ht; by split_and!.
Qed.

Lemma wp_commit_subs_while n bs b s l :
  bs <> TBLOCK_SUBABORT -> is_sub_block bs = true ->
  Inv b -> subs b = s :: l -> blockState s = bs -> CritSectionCount b = 0 -> (length l < n)%nat ->
  wp (commit_subs_while n bs) (fun _ => Absorbed bs b) b.
Proof.
  intros Hne Hsb. revert b s l. induction n as [|n IH]; intros b s l HI Hs Hb Hc Hn; [lia|].
  cbn [commit_subs_while]. apply wp_bind. eapply wp_mono.
  { eapply wp_CommitSubTransaction; [done..|congruence]. }
  intros ? b1 HS. destruct (subcommitted_cur b s l b1 HI Hs HS) as (Hp & Hbl & Hlen & Hch & Hpar).
  destruct HS as [HI1 Hc1 _]. apply wp_get.
  rewrite (blocks_cur b1) in Hbl.
  destruct (is_block bs (cur b1)) eqn:Hcur.
  - apply bool_decide_eq_true in Hcur.
    destruct (sub_block_subs b1 HI1 ltac:(by rewrite Hcur)) as [l1 Hs1].
    rewrite Hs1 in Hlen. cbn in Hlen.
    eapply wp_mono; [apply (IH b1 (cur b1) l1); try done; lia|].
    intros ? b2 []. constructor; try done; [|congruence..].
    rewrite ab_blocks0, (blocks_subs b s l Hs). cbn [tail]. rewrite <- Hbl. cbn [skip tail].
    by rewrite decide_True.
  - apply bool_decide_eq_false in Hcur. constructor; try done.
    rewrite (blocks_subs b s l Hs). cbn [tail]. rewrite (blocks_cur b1), <- Hbl. cbn [skip].
    by rewrite decide_False.
Qed.

(** Released levels end at a level in progress. *)
Lemma release_lands l s :
  belows (s :: l) -> blockState s = TBLOCK_SUBRELEASE ->
  (forall y, last (s :: l) = Some y -> blockState y <> TBLOCK_SUBRELEASE) ->
  exists p rest, skip TBLOCK_SUBRELEASE (map blockState l) = p :: rest /\
    (p = TBLOCK_INPROGRESS \/ p = TBLOCK_SUBINPROGRESS).
Proof.
  revert s. induction l as [|p l IH]; intros s Hb Hs Hl;
    [by destruct (Hl s)|].
  destruct Hb as [Hb Hbl]. rewrite Hs in Hb. cbn [map skip].
  destruct (decide (blockState p = TBLOCK_SUBRELEASE)) as [Hp|Hp].
  - apply (IH p); [done|done|]. intros y Hy. exact (Hl y Hy).
  - eexists _, _. split; [done|]. destruct (blockState p); try discriminate Hb; auto; done.
Qed.

Lemma wp_commit_release b :
  Settled b -> blockState (cur b) = TBLOCK_SUBRELEASE ->
  wp (commit_subs_while (S (length (subs b))) TBLOCK_SUBRELEASE ;;
      Assert "INPROGRESS" (fun b => is_block TBLOCK_INPROGRESS (cur b) ||
                                    is_block TBLOCK_SUBINPROGRESS (cur b)))
     (fun _ b' => Settled b' /\ blocks b' = skip TBLOCK_SUBRELEASE (tail (blocks b))) b.
Proof.
  intros (HI & _ & Hc & _) Hb. destruct (sub_block_subs b HI ltac:(by rewrite Hb)) as [l Hs].
  apply wp_bind. eapply wp_mono.
  { eapply wp_commit_subs_while; [done|done|done|exact Hs|done|done|]. rewrite Hs. cbn. lia. }
  intros ? b1 []. rewrite (blocks_subs b _ _ Hs) in ab_blocks0. cbn [tail] in ab_blocks0.
  destruct (release_lands (l ++ [top b]) (cur b)) as (p & rest & Hsk & Hp).
  { destruct HI as ([]&_). by rewrite Hs in sh_below0. }
  { done. }
  { destruct HI as ([[Ht _]]&_). intros y. rewrite app_comm_cons, last_snoc. intros [= <-] Heq.
    by rewrite Heq in Ht. }
  rewrite Hsk in ab_blocks0. rewrite (blocks_subs b _ _ Hs). cbn [tail]. rewrite Hsk.
  apply wp_ret_last, wp_assert.
  - rewrite (blocks_cur b1) in ab_blocks0. injection ab_blocks0 as Hp1 _. apply orb_true_iff.
    destruct Hp as [-> | ->]; [left|right]; by apply is_block_true.
  - split; [by apply parent_settled|done].
Qed.

Lemma wp_commit_top b :
  Inv b -> subs b = [] -> CritSectionCount b = 0 -> state (top b) = TRANS_INPROGRESS ->
  exp_state (blockState (top b)) = TRANS_INPROGRESS ->
  wp (CommitTransaction ;; setblock TBLOCK_DEFAULT)
     (fun _ b' => Settled b' /\ Idle b' /\ chain (top b') = chain (top b)) b.
Proof.
  intros. apply wp_bind. eapply wp_mono; [by apply wp_CommitTransaction|].
  intros ? b1 HE. exact (wp_ended_default _ _ HE).
Qed.

Lemma wp_prepare_top b :
  Inv b -> subs b = [] -> CritSectionCount b = 0 -> state (top b) = TRANS_INPROGRESS ->
  exp_state (blockState (top b)) = TRANS_INPROGRESS -> parallelModeLevel (top b) = 0 ->
  wp (PrepareTransaction ;; setblock TBLOCK_DEFAULT)
     (fun _ b' => Settled b' /\ Idle b' /\ chain (top b') = chain (top b)) b.
Proof.
  intros. apply wp_bind. eapply wp_mono; [by apply wp_PrepareTransaction|].
  intros ? b1 HE. exact (wp_ended_default _ _ HE).
Qed.

(** A prepared transaction has left parallel mode. *)
Definition prepare_ok (b : backend) : Prop :=
  blockState (top b) = TBLOCK_PREPARE -> parallelModeLevel (top b) = 0.

Lemma blocks_last b : List.last (blocks b) TBLOCK_DEFAULT = blockState (top b).
Proof. unfold blocks, stack. rewrite map_app. apply List.last_last. Qed.

Lemma skip_last bs l x :
  x <> bs -> List.last (skip bs (l ++ [x])) TBLOCK_DEFAULT = x.
Proof.
  intros Hx. induction l as [|y l IH]; cbn [skip app].
  - by rewrite decide_False.
  - destruct (decide (y = bs)); [done|]. by rewrite app_comm_cons, List.last_last.
Qed.

Lemma wp_commit_subcommit b :
  Settled b -> prepare_ok b -> blockState (cur b) = TBLOCK_SUBCOMMIT ->
  wp (commit_subs_while (S (length (subs b))) TBLOCK_SUBCOMMIT ;;
      let! bs := curblock in
      match bs with
      | TBLOCK_END =>
          Assert "parent == NULL" (fun b => negb (has_parent b)) ;;
          CommitTransaction ;; setblock TBLOCK_DEFAULT
      | TBLOCK_PREPARE =>
          Assert "parent == NULL" (fun b => negb (has_parent b)) ;;
          PrepareTransaction ;; setblock TBLOCK_DEFAULT
      | _ => ereport_ERROR "CommitTransactionCommand: unexpected state"
      end) (fun _ b' => Settled b' /\ Idle b' /\ chain (top b') = chain (top b)) b.
Proof.
  intros (HI & _ & Hc & _) Hprep Hb.
  destruct (sub_block_subs b HI ltac:(by rewrite Hb)) as [l Hs].
  apply wp_bind. eapply wp_mono.
  { eapply wp_commit_subs_while; [done|done|done|exact Hs|done|done|]. rewrite Hs. cbn. lia. }
  intros ? b1 []. apply wp_curblock.
  destruct (is_sub_block (blockState (cur b1))) eqn:Hk.
  { destruct (blockState (cur b1)); try discriminate Hk; by apply wp_error. }
  pose proof (top_block_no_subs b1 ab_inv0 Hk) as Hs1. rewrite cur_top in * by done.
  destruct ab_cur0 as (Hst & He & _). rewrite <- ab_chain0.
  assert (has_parent b1 = false) as Hpar by (unfold has_parent; by rewrite Hs1).
  destruct (blockState (top b1)) eqn:Hb1; try by apply wp_error.
  all: apply wp_assert; [by rewrite Hpar|].
  - apply wp_commit_top; try done. by rewrite Hb1.
  - apply wp_prepare_top; try done; [by rewrite Hb1|]. rewrite ab_parallel0. apply Hprep.
    rewrite (blocks_subs b _ _ Hs) in ab_blocks0. cbn [tail] in ab_blocks0.
    rewrite map_app in ab_blocks0.
    assert (blockState (top b) <> TBLOCK_SUBCOMMIT) as Hne.
    { destruct HI as ([[Ht _]]&_). by intros Heq; rewrite Heq in Ht. }
    pose proof (skip_last TBLOCK_SUBCOMMIT (map blockState l) _ Hne) as Hl.
    cbn [map] in ab_blocks0. rewrite <- ab_blocks0, blocks_last in Hl. congruence.
Qed.

End CommitSubs.

Section Restart.
Context `{Env, !EnvLaws}.

(** A subtransaction in progress with the name and savepoint level of [s], in
    the place of the current level of [b0]. *)
Record Entered (s : TransactionStateData) (l : list TransactionStateData) (b0 b : backend) : Prop := {
  ent_settled : Settled b;
  ent_top : top b = top b0;
  ent_sub : exists s', subs b = s' :: l /\ blockState s' = TBLOCK_SUBINPROGRESS /\
    name s' = name s /\ savepointLevel s' = savepointLevel s }.

Lemma below_parent b s l :
  Inv b -> subs b = s :: l -> below (blockState s) (blockState (parent b)) = true.
Proof.
  intros ([]&_) Hs. unfold parent. rewrite Hs in *. cbn in sh_below0.
  destruct l; cbn in *; by destruct sh_below0.
Qed.

Lemma wp_enter_sub b s l :
  Inv b -> subs b = s :: l -> CritSectionCount b = 0 -> blockState s = TBLOCK_SUBBEGIN ->
  wp (StartSubTransaction ;; setblock TBLOCK_SUBINPROGRESS) (fun _ => Entered s l b) b.
Proof.
  intros HI Hs Hc Hb. apply wp_bind. eapply wp_mono.
  { eapply wp_StartSubTransaction; [done..|congruence]. }
  intros ? b1 [HI1 Hc1 Ht1 (s1 & Hs1 & Hst1 & Hf & Hx1)]. rewrite Hs in Hs1. cbn in Hs1.
  injection Hf as Hn1 Hl1 Hb1 _ _. rewrite Hb in Hb1. specialize (Hx1 eq_refl).
  change (Entered s l b (set_cur (set_blockState TBLOCK_SUBINPROGRESS (cur b1)) b1)).
  pose proof (below_parent b1 s1 l HI1 Hs1) as Hbel. rewrite Hb1 in Hbel.
  assert (Inv (set_cur (set_blockState TBLOCK_SUBINPROGRESS (cur b1)) b1)) as HI2.
  { by eapply Inv_setblock_sub. }
  revert HI2. unfold set_cur, cur. rewrite Hs1. intros HI2. constructor; [|done|by eexists].
  by apply parent_settled.
Qed.

Lemma Entered_blocks s l b0 b :
  Entered s l b0 b -> blocks b = TBLOCK_SUBINPROGRESS :: map blockState (l ++ [top b0]).
Proof. intros [_ Ht (s' & Hs & Hb & _)]. unfold blocks, stack. by rewrite Hs, Ht, <- Hb. Qed.

(** The level that [ROLLBACK TO] starts again keeps its name and its savepoint
    level. *)
Lemma wp_restart_subxact undo b s l :
  Inv b -> subs b = s :: l -> CritSectionCount b = 0 ->
  (forall b', Inv b' -> subs b' = set_name None s :: l -> CritSectionCount b' = 0 ->
     top b' = top b -> wp undo (fun _ => Popped l (top b)) b') ->
  wp (restart_subxact undo) (fun _ => Entered s l b) b.
Proof.
  intros HI Hs Hc Hundo. unfold restart_subxact. apply wp_get, wp_upd.
  assert (cur b = s) as Hcur by (unfold cur; by rewrite Hs).
  pose proof (Inv_set_name None b s l HI Hs) as HI1. rewrite Hcur in *.
  assert (top (set_cur (set_name None s) b) = top b) as Ht1 by (unfold set_cur; by rewrite Hs).
  apply wp_bind. eapply wp_mono.
  { apply Hundo; [done| |by unfold set_cur; rewrite Hs|done]. unfold set_cur. by rewrite Hs. }
  intros ? b2 HP.
  assert (Settled b2) as HS2.
  { pose proof (popped_cur b s l b2 HI Hs HP). apply parent_settled; [apply HP..|done]. }
  destruct HP as [HI2 Hc2 Hs2 Ht2]. apply wp_bind. eapply wp_mono; [by apply wp_DefineSavepoint|].
  intros ? b3 [HI3 Hc3 Ht3 (s3 & Hs3 & Hst3 & Hb3 & Hn3 & Hl3 & _)]. apply wp_upd.
  assert (cur b3 = s3) as Hcur3 by (unfold cur; by rewrite Hs3). rewrite Hcur3.
  set (s4 := set_savepointLevel (savepointLevel s) (set_name (name s) s3)).
  assert (Inv (set_cur s4 b3)) as HI4.
  { destruct HI3 as (Hsh & Hva & Hid & Hcr & Hho). unfold set_cur. rewrite Hs3 in *. subst s4.
    split; [|split; [done|split; [|done]]]; cbn [top subs set_subs trace].
    - shape_tac Hsh.
    - ids_tac Hid. }
  apply wp_assert.
  { unfold set_cur, cur. rewrite Hs3. cbn. by apply is_block_true. }
  eapply wp_mono; [eapply (wp_enter_sub _ s4 (subs b2)); [done|by unfold set_cur; rewrite Hs3|..]|].
  - unfold set_cur. by rewrite Hs3.
  - done.
  - rewrite Hs2. intros ? b5 [HS5 Ht5 (s5 & ?)]. constructor; [done| |by exists s5].
    rewrite Ht5, <- Ht2, <- Ht3. unfold set_cur. by rewrite Hs3.
Qed.

End Restart.

(** ** StartTransactionCommand and CommitTransactionCommand *)

Section CommitCommand.
Context `{Env, !EnvLaws}.

Definition commits_to (b0 b : backend) : Prop :=
  Settled b /\ blocks b = commit_blocks (chain (top b0)) (blocks b0).

Lemma settled_frame b b' :
  Settled b -> Inv b' -> top b' = top b -> subs b' = subs b -> CritSectionCount b' = 0 ->
  Settled b' /\ blocks b' = blocks b.
Proof.
  intros (_ & Hs & _ & Hx) HI Ht Hsub Hc. unfold Settled, blocks, stack, cur in *.
  rewrite Ht, Hsub. by split_and!.
Qed.

Lemma settled_setblock_top bs b :
  Inv (set_top (set_blockState bs (top b)) b) -> subs b = [] -> CritSectionCount b = 0 ->
  state (top b) = exp_state bs -> bs <> TBLOCK_DEFAULT ->
  Settled (set_top (set_blockState bs (top b)) b).
Proof.
  intros HI Hs Hc Hst Hd. unfold Settled, cur. cbn [top subs set_top]. rewrite Hs.
  split_and!; try done. intros _. destruct HI as (_&[_ Hv _]&_). by apply Hv.
Qed.

Lemma wp_commit_cci b :
  Settled b -> wp CommandCounterIncrement (fun _ b' => Settled b' /\ blocks b' = blocks b) b.
Proof.
  intros HS. pose proof HS as (HI & _ & Hc & _). eapply wp_mono; [by apply wp_CommandCounterIncrement|].
  intros ? ? (tr & c & u & -> & HI'). by apply (settled_frame b).
Qed.

Lemma wp_commit_chained (m : M unit) b :
  blocks b = [blockState (top b)] ->
  commit_blocks (chain (top b)) (blocks b) =
    [if chain (top b) then TBLOCK_INPROGRESS else TBLOCK_DEFAULT] ->
  wp m (fun _ b' => Settled b' /\ Idle b' /\ chain (top b') = chain (top b)) b ->
  wp (m ;; start_chained) (fun _ => commits_to b) b.
Proof.
  intros Hb He Hm. apply wp_bind. eapply wp_mono; [exact Hm|]. intros ? b1 (HS & Hi & Hch).
  eapply wp_mono; [by apply wp_start_chained|]. intros ? b2 [HS2 Hb2]. split; [done|].
  by rewrite Hb2, He, Hch.
Qed.

Lemma wp_commit_pop (m : M unit) n b s l :
  (forall b', Settled b' -> prepare_ok b' -> (length (subs b') < n)%nat ->
     wp (CommitTransactionCommand_rec n) (fun _ => commits_to b') b') ->
  Inv b -> subs b = s :: l -> prepare_ok b ->
  blockState s = TBLOCK_SUBABORT_END \/ blockState s = TBLOCK_SUBABORT_PENDING ->
  (length l < n)%nat -> wp m (fun _ => Popped l (top b)) b ->
  wp (m ;; CommitTransactionCommand_rec n) (fun _ => commits_to b) b.
Proof.
  intros IH HI Hs Hprep Hb Hn Hm. apply wp_bind. eapply wp_mono; [exact Hm|].
  intros ? b1 HP. pose proof (popped_blocks _ _ _ HP) as Hb1.
  pose proof (popped_cur b s l b1 HI Hs HP) as Hp1. destruct HP as [HI1 Hc1 Hs1 Ht1].
  eapply wp_mono; [apply IH|].
  - by apply parent_settled.
  - unfold prepare_ok. by rewrite Ht1.
  - by rewrite Hs1.
  - intros ? b2 [HS2 Hb2]. split; [done|]. rewrite Hb2, Hb1, Ht1, (blocks_subs b s l Hs).
    by destruct Hb as [-> | ->].
Qed.

Lemma wp_CommitTransactionCommand_rec n b :
  Settled b -> prepare_ok b -> (length (subs b) < n)%nat ->
  wp (CommitTransactionCommand_rec n) (fun _ => commits_to b) b.
Proof.
  revert b. induction n as [|n IH]; intros b HS Hprep Hn; [lia|].
  cbn [CommitTransactionCommand_rec]. apply wp_get.
  match goal with |- wp (bind _ ?k) _ _ =>
    enough (forall b1, Settled b1 -> prepare_ok b1 -> (length (subs b1) < S n)%nat ->
      wp (k tt) (fun _ => commits_to b1) b1) as Hbody end.
  { apply wp_when; intros _; [apply wp_modify|by apply Hbody].
    apply (Hbody (set_save_XactDeferrable (XactDeferrable b) (set_save_XactReadOnly (XactReadOnly b)
      (set_save_XactIsoLevel (XactIsoLevel b) b)))); [exact HS|exact Hprep|exact Hn]. }
  clear b HS Hprep Hn. intros b HS Hprep Hn. pose proof HS as (HI & Hst & Hc & _).
  apply wp_curblock, wp_get. destruct (is_sub_block (blockState (cur b))) eqn:Hk.
  - destruct (sub_block_subs b HI Hk) as [l Hs]. rewrite Hs in Hn. cbn [length] in Hn.
    pose proof (blocks_subs b _ _ Hs) as Hbl.
    assert (length l < n)%nat as Hn' by lia.
    pose proof (wp_abort_pop b _ _ HI Hs Hc) as Hpop.
    pose proof (wp_CleanupSubTransaction b _ _ HI Hs Hc) as Hcl.
    assert (forall undo, (forall b', Inv b' -> subs b' = set_name None (cur b) :: l ->
      CritSectionCount b' = 0 -> top b' = top b -> wp undo (fun _ => Popped l (top b)) b') ->
      blockState (cur b) = TBLOCK_SUBRESTART \/ blockState (cur b) = TBLOCK_SUBABORT_RESTART ->
      wp (restart_subxact undo) (fun _ => commits_to b) b) as Hre.
    { intros undo Hu Hb. eapply wp_mono; [by apply (wp_restart_subxact undo b (cur b) l)|].
      intros ? b' HE. split; [apply HE|]. rewrite (Entered_blocks _ _ _ _ HE), Hbl.
      by destruct Hb as [-> | ->]. }
    destruct (blockState (cur b)) eqn:Hb; try discriminate Hk.
    + eapply wp_mono; [by eapply wp_enter_sub|]. intros ? b' HE. split; [apply HE|].
      by rewrite (Entered_blocks _ _ _ _ HE), Hbl.
    + eapply wp_mono; [by apply wp_commit_cci|]. intros ? b' [HS' Hb']. split; [done|].
      by rewrite Hb', Hbl.
    + eapply wp_mono; [by apply wp_commit_release|]. intros ? b' [HS' Hb']. split; [done|].
      by rewrite Hb', Hbl.
    + eapply wp_mono; [by apply wp_commit_subcommit|]. intros ? b' (HS' & Hi' & _). split; [done|].
      by rewrite (idle_blocks _ Hi'), Hbl.
    + split; [done|]. by rewrite Hbl.
    + eapply wp_commit_pop; eauto.
    + apply wp_group. eapply wp_commit_pop; eauto.
    + apply Hre; [|by left]. intros b' HI' Hs' Hc' Ht'. rewrite <- Ht'. by eapply wp_abort_pop.
    + apply Hre; [|by right]. intros b' HI' Hs' Hc' Ht'. rewrite <- Ht'.
      by eapply wp_CleanupSubTransaction.
  - pose proof (top_block_no_subs b HI Hk) as Hs. rewrite cur_top in * by done.
    pose proof (blocks_top b Hs) as Hbl.
    destruct (blockState (top b)) eqn:Hb; try discriminate Hk.
    all: try by apply wp_fatal.
    + eapply wp_mono; [apply wp_commit_top; try done; by rewrite Hb|]. intros ? b' (HS' & Hi' & _).
      split; [done|]. by rewrite (idle_blocks _ Hi'), Hbl.
    + change (commits_to b (set_cur (set_blockState TBLOCK_INPROGRESS (cur b)) b)).
      rewrite set_cur_top, cur_top by done. split; [|by rewrite set_top_blocks, Hbl].
      apply settled_setblock_top; try done. apply Inv_setblock_top; rewrite ?Hb; try done. by intros [? | ?].
    + eapply wp_mono; [by apply wp_commit_cci|]. intros ? b' [HS' Hb']. split; [done|].
      by rewrite Hb', Hbl.
    + eapply wp_mono; [by apply wp_commit_cci|]. intros ? b' [HS' Hb']. split; [done|].
      by rewrite Hb', Hbl.
    + apply wp_group, wp_commit_chained; [by rewrite Hbl, Hb|by rewrite Hbl|].
      apply wp_commit_top; try done; by rewrite Hb.
    + split; [done|]. by rewrite Hbl.
    + apply wp_group, wp_commit_chained; [by rewrite Hbl, Hb|by rewrite Hbl|].
      apply wp_bind. eapply wp_mono; [by apply wp_CleanupTransaction|]. intros ? b1 HE.
      exact (wp_ended_default _ _ HE).
    + apply wp_bind. eapply wp_mono; [apply wp_AbortTransaction; try done; by rewrite Hst|].
      intros ? b1 [HI1 Hs1 Hc1 Hst1 Hb1 Hch1]. rewrite Hb in Hb1.
      pose proof (blocks_top b1 Hs1) as Hbl1. rewrite Hb1 in Hbl1.
      eapply wp_mono; [apply wp_group, wp_commit_chained; [by rewrite Hbl1, Hb1|by rewrite Hbl1|]|].
      * apply wp_bind. eapply wp_mono; [by apply wp_CleanupTransaction|]. intros ? b2 HE.
        exact (wp_ended_default _ _ HE).
      * intros ? b2 [HS2 Hb2]. split; [done|]. by rewrite Hb2, Hbl1, Hbl, Hch1.
    + eapply wp_mono; [apply wp_prepare_top; try done; [by rewrite Hb|by apply Hprep]|].
      intros ? b' (HS' & Hi' & _). split; [done|]. by rewrite (idle_blocks _ Hi'), Hbl.
Qed.

End CommitCommand.

End XactCommands.
