(* ===== verification/XactBlocks.v ===== *)
(** * Block commands and savepoints

    The commands of [xact.c] that only change block states (BEGIN, COMMIT,
    PREPARE TRANSACTION, ROLLBACK, RELEASE, ROLLBACK TO and the implicit
    blocks): from a settled state they leave a settled state whose block
    states are the marks the next [CommitTransactionCommand] acts on. *)

From S2P Require Import Prelude.
From S2P Require Import Transam.
From S2P Require Import Xact.
From S2P Require Import XactLogic.
From S2P Require Import XactTop.
From S2P Require Import XactSub.
From S2P Require Import XactCommands.

Import Transam Xact XactLogic XactTop XactSub XactCommands.

Open Scope Z_scope.

Module XactBlocks.

(** ** Changing block states only

    The block commands of the user change block states and leave the work to
    [CommitTransactionCommand]. *)

Section Reblock.
Context `{Env, !EnvLaws}.

Record reblocked (s s' : TransactionStateData) : Prop := {
  rb_eq : exists bs, s' = set_blockState bs s;
  rb_exp : exp_state (blockState s') = exp_state (blockState s);
  rb_sub : is_sub_block (blockState s') = is_sub_block (blockState s);
  rb_subabort : blockState s' = TBLOCK_SUBABORT -> blockState s = TBLOCK_SUBABORT;
  rb_par : blockState s' = TBLOCK_PARALLEL_INPROGRESS -> blockState s = TBLOCK_PARALLEL_INPROGRESS }.

Lemma reblocked_parent s s' : reblocked s s' -> parent_ok s -> parent_ok s'.
Proof. intros [[bs ->] He _ _] (Hs & Hx & Hc). unfold parent_ok. by rewrite He. Qed.

Lemma reblocked_levels l l' : Forall2 reblocked l l' -> sub_levels l -> sub_levels l'.
Proof.
  induction 1 as [|s s' l l' Hr Hl IH]; [done|]. intros (Hb & Hn & Ho & Ha & Hs).
  destruct Hr as [[bs ->] _ Hk Hsa _]. cbn [blockState set_blockState] in *.
  rewrite (Forall2_length _ _ _ Hl) in Hn. split_and!; [by cbn; rewrite Hk|exact Hn|exact Ho|intros; by apply Ha, Hsa|by apply IH].
Qed.

Lemma reblocked_parents l l' :
  Forall2 reblocked l l' -> Forall parent_ok (tail l) -> Forall parent_ok (tail l').
Proof.
  intros Hl. destruct Hl as [|s s' l l' _ Hl]; [done|]. cbn. induction Hl; [done|].
  rewrite !Forall_cons. intros [? ?]. split; [by eapply reblocked_parent|auto].
Qed.

Lemma reblocked_chained l l' : Forall2 reblocked l l' -> chained l -> chained l'.
Proof.
  induction 1 as [|s s' l l' [[bs ->] _ _ _ _] Hl IH]; [done|].
  destruct Hl as [|p p' l l' [[ps ->] _ _ _ _] Hl]; [done|].
  change (chained (s :: p :: l)) with ((valid_own s -> valid_own p) /\ chained (p :: l)).
  intros [Hv Hc]. split; [exact Hv|by apply IH].
Qed.

Lemma reblocked_ids (P : Z -> Z -> Prop) l l' :
  Forall2 reblocked l l' ->
  Forall (fun s => P (fullTransactionId s) (own s)) l ->
  Forall (fun s => P (fullTransactionId s) (own s)) l'.
Proof.
  induction 1 as [|s s' l l' [[bs ->] _ _ _ _] Hl IH]; [done|]. rewrite !Forall_cons.
  intros [? ?]. split; [done|auto].
Qed.

Lemma Inv_reblock b l' t' :
  Inv b -> Forall2 reblocked (subs b) l' -> reblocked (top b) t' -> belows (l' ++ [t']) ->
  Inv (set_top t' (set_subs l' b)).
Proof.
  intros (Hsh & Hva & Hid & Hcr & Hho) Hl Ht Hbel.
  assert (Forall2 reblocked (subs b ++ [top b]) (l' ++ [t'])) as Hlt.
  { apply Forall2_app; [done|by constructor]. }
  pose proof Ht as [[bs ->] He Hk Hsa Hpar]. cbn [blockState set_blockState] in *.
  split; [|split; [|split; [|done]]]; cbn [top subs set_top set_subs XactTopFullTransactionId
    TopTransactionContext CurTransactionContext TransactionAbortContext
    TopTransactionResourceOwner trace].
  - destruct Hsh as [[Hs1 Hs2] Hnm Hok Hsubs Hpars Hch Hb Hd Hab Hn]. constructor; try done; cbn.
    + split; [congruence|]. auto.
    + by eapply reblocked_levels.
    + by eapply reblocked_parents.
    + by eapply reblocked_chained.
    + intros Hst. specialize (Hd Hst). rewrite Hd in *. cbn in *. destruct bs; done.
    + intros Hbs. apply Hab. destruct Hbs as [-> | ->]; cbn in *; destruct (blockState (top b)); auto; done.
    + intros Hbs. apply Hn. intros Hd0. rewrite Hd0 in *. cbn in *. destruct bs; done.
  - destruct Hva as [Hi Hb Hx]. constructor; cbn; try done.
    + intros Hbs. apply Hb. intros Hd0. rewrite Hd0 in *. destruct Hsh as [[Hs1 _] _ _ _ _ _ _ _ _ _].
      cbn in *. destruct bs; done.
    + by rewrite He.
  - destruct Hid as [H1 H2 H3 H4 H5 H6]. constructor; try done.
    + by eapply (reblocked_ids (fun f o => FullTransactionIdIsValid f = true -> o ∈ assigned (trace b))).
    + by eapply (reblocked_ids (fun f o => FullTransactionIdIsValid f = true -> o <> own (top b))).
Qed.

Lemma Settled_reblock b l' t' :
  Settled b -> Forall2 reblocked (subs b) l' -> reblocked (top b) t' -> belows (l' ++ [t']) ->
  Settled (set_top t' (set_subs l' b)).
Proof.
  intros (HI & Hst & Hc & Hx) Hl Ht Hbel. split; [by apply Inv_reblock|].
  unfold cur in *. cbn [top subs set_top set_subs].
  destruct Hl as [|s s' l l' [[bs ->] He _ _ _] Hl].
  - destruct Ht as [[bs ->] He _ _ _]. cbn [blockState set_blockState state curTransactionContext] in *.
    rewrite He. by split_and!.
  - cbn [blockState set_blockState state curTransactionContext] in *. rewrite He. by split_and!.
Qed.

(** The chain flag of the top level. *)
Lemma Settled_chain c b : Settled b -> Settled (set_top (set_chain c (top b)) b).
Proof.
  intros (HI & Hst & Hc & Hx). split; [by apply Inv_like|]. unfold cur in *.
  cbn [top subs set_top]. by destruct (subs b).
Qed.

Lemma reblocked_refl s : reblocked s s.
Proof. constructor; try done. exists (blockState s). by destruct s. Qed.

Lemma reblocked_refls l : Forall2 reblocked l l.
Proof. induction l; constructor; [apply reblocked_refl|done]. Qed.

(** Under a live level every level is in progress. *)
Lemma belows_live l t s :
  belows ((s :: l) ++ [t]) -> sub_levels l -> is_sub_block (blockState t) = false ->
  below (blockState s) = live_block ->
  Forall (fun y => blockState y = TBLOCK_SUBINPROGRESS) l /\ live_block (blockState t) = true.
Proof.
  revert s. induction l as [|p l IH]; intros s Hb Hl Ht Hs.
  - destruct Hb as [Hb _]. rewrite Hs in Hb. by split.
  - destruct Hb as [Hb Hbl], Hl as (Hk & _ & _ & _ & Hl). rewrite Hs in Hb.
    assert (blockState p = TBLOCK_SUBINPROGRESS) as Hp by (destruct (blockState p); done).
    destruct (IH p) as [Hl' Ht']; try done; [by rewrite Hp|]. by split; [constructor|].
Qed.

Lemma live_stack b :
  Inv b -> is_sub_block (blockState (cur b)) = true ->
  below (blockState (cur b)) = live_block ->
  exists l, subs b = cur b :: l /\ Forall (fun y => blockState y = TBLOCK_SUBINPROGRESS) l /\
            live_block (blockState (top b)) = true.
Proof.
  intros HI Hk Hb. destruct (sub_block_subs b HI Hk) as [l Hs]. exists l.
  destruct HI as ([[Ht _]]&_). rewrite Hs in *.
  destruct (belows_live l (top b) (cur b)); try done. by destruct sh_subs0 as (_&_&_&_&?).
Qed.

(** Block states that any parent may have. *)
Lemma belows_free l t :
  Forall (fun s => forall p, below (blockState s) p = true) l -> belows (l ++ [t]).
Proof.
  induction l as [|s l IH]; [done|]. rewrite Forall_cons. intros [Hs Hl].
  specialize (IH Hl). cbn. destruct (l ++ [t]); [done|]. by split.
Qed.

End Reblock.

(** ** Transaction block commands *)

(** The marks [COMMIT], [PREPARE TRANSACTION] and [ROLLBACK] leave. *)
Definition commit_mark (bs : TBlockState) : TBlockState :=
  match bs with
  | TBLOCK_SUBINPROGRESS => TBLOCK_SUBCOMMIT
  | TBLOCK_INPROGRESS | TBLOCK_IMPLICIT_INPROGRESS => TBLOCK_END
  | _ => bs
  end.
Definition prepare_mark (bs : TBlockState) : TBlockState :=
  match commit_mark bs with TBLOCK_END => TBLOCK_PREPARE | bs' => bs' end.
Definition abort_mark (bs : TBlockState) : TBlockState :=
  match bs with
  | TBLOCK_SUBINPROGRESS => TBLOCK_SUBABORT_PENDING
  | TBLOCK_SUBABORT => TBLOCK_SUBABORT_END
  | TBLOCK_INPROGRESS | TBLOCK_STARTED | TBLOCK_IMPLICIT_INPROGRESS => TBLOCK_ABORT_PENDING
  | TBLOCK_ABORT => TBLOCK_ABORT_END
  | _ => bs
  end.
Definition begin_mark (bs : TBlockState) : TBlockState :=
  match bs with TBLOCK_STARTED | TBLOCK_IMPLICIT_INPROGRESS => TBLOCK_BEGIN | _ => bs end.

Section BlockCommands.
Context `{Env, !EnvLaws}.

Definition marked (g : TBlockState -> TBlockState) (c : bool) (b0 b : backend) : Prop :=
  Settled b /\ blocks b = map g (blocks b0) /\ chain (top b) = c.

(** A step that keeps the low-level state a block state goes with. *)
Definition good_step (g : TBlockState -> TBlockState) (step : TBlockState -> option TBlockState) :=
  forall x y, step x = Some y ->
    y = g x /\ exp_state y = exp_state x /\ is_sub_block y = is_sub_block x /\
    y <> TBLOCK_SUBABORT /\ y <> TBLOCK_PARALLEL_INPROGRESS.

(** And leaves the block state of the parent free. *)
Definition free_step (g : TBlockState -> TBlockState) (step : TBlockState -> option TBlockState) :=
  good_step g step /\
  forall x y, step x = Some y -> is_sub_block y = true -> forall p, below y p = true.

Definition reblock (g : TBlockState -> TBlockState) (s : TransactionStateData) :=
  set_blockState (g (blockState s)) s.

Lemma good_reblocked g step s :
  good_step g step -> step (blockState s) <> None -> reblocked s (reblock g s).
Proof.
  intros Hf Hs. destruct (step (blockState s)) as [y|] eqn:Hy; [|done].
  destruct (Hf _ _ Hy) as (-> & He & Hk & Hsa & Hp). by constructor; cbn; [by eexists|..].
Qed.

Lemma mark_all g step l :
  good_step g step -> Forall (fun s => step (blockState s) <> None) l ->
  mark step l = (map (reblock g) l, true) /\ Forall2 reblocked l (map (reblock g) l).
Proof.
  intros Hf. induction 1 as [|s l Hs _ [IH1 IH2]]; [done|]. cbn. split.
  - destruct (step (blockState s)) as [y|] eqn:Hy; [|done]. rewrite IH1.
    destruct (Hf _ _ Hy) as (Hg & _). unfold reblock. by rewrite <- Hg.
  - constructor; [by eapply good_reblocked|done].
Qed.

Lemma mark_free g step l :
  free_step g step -> Forall (fun s => step (blockState s) <> None) l ->
  Forall (fun s => is_sub_block (blockState s) = true) l ->
  Forall (fun s => forall p, below (blockState s) p = true) (map (reblock g) l).
Proof.
  intros [Hf Hfree]. induction 1 as [|s l Hs _ IH]; [done|].
  intros [Hsub Hl]%Forall_cons. cbn [map]. apply Forall_cons. split; [|by apply IH]. cbn.
  destruct (step (blockState s)) as [y|] eqn:Hy; [|done].
  destruct (Hf _ _ Hy) as (<- & _ & Hk & _). apply (Hfree _ _ Hy). by rewrite Hk.
Qed.

Lemma reblock_blocks g b t' :
  blockState t' = g (blockState (top b)) ->
  blocks (set_top t' (set_subs (map (reblock g) (subs b)) b)) = map g (blocks b).
Proof. intros Ht. unfold blocks, stack. cbn. by rewrite !map_app, !map_map; cbn; rewrite Ht. Qed.

(** Every level is marked. *)
Lemma wp_mark_all g step step' c b (Q : unit -> backend -> Prop) :
  free_step g step -> free_step g step' -> Settled b ->
  Forall (fun s => step (blockState s) <> None) (subs b) ->
  (forall b', marked g c b b' -> step' (blockState (top b)) <> None -> Q tt b') ->
  wp (mark_subs step ;; mark_top step' ;; set_top_chain c) Q b.
Proof.
  intros Hf Hf' HS Hl HQ. pose proof HS as (HI & _ & Hc & _).
  destruct (mark_all g step (subs b) (proj1 Hf) Hl) as (Hm & Hr).
  assert (forall t, belows (map (reblock g) (subs b) ++ [t])) as Hbel.
  { intros t. apply belows_free. apply (mark_free g step); [done|done|]. apply Forall_forall. intros s Hs.
    destruct HI as ([]&_). by eapply sub_levels_block. }
  unfold mark_subs. apply wp_assoc, wp_get. rewrite Hm. cbn [fst snd negb].
  apply wp_assoc, wp_modify, wp_when_false. unfold mark_top. apply wp_assoc, wp_get.
  cbn [top set_subs]. destruct (step' (blockState (top b))) as [y|] eqn:Hy.
  - destruct (proj1 Hf' _ _ Hy) as (-> & _). apply wp_modify.
    assert (reblocked (top b) (reblock g (top b))) as Ht.
    { eapply good_reblocked; [apply Hf'|]. by rewrite Hy. }
    change (set_top (set_blockState (g (blockState (top b))) (top b)) ?x)
      with (set_top (reblock g (top b)) x).
    apply (HQ (set_top (set_chain c (reblock g (top b)))
      (set_top (reblock g (top b)) (set_subs (map (reblock g) (subs b)) b)))); [split_and!|done].
    + apply (Settled_chain c (set_top (reblock g (top b)) (set_subs (map (reblock g) (subs b)) b))).
      by apply Settled_reblock.
    + by apply (reblock_blocks g b (set_chain c (reblock g (top b)))).
    + done.
  - apply wp_fatal_bind.
    pose proof (Inv_reblock b (map (reblock g) (subs b)) (top b) HI Hr (reblocked_refl _) (Hbel _)) as HI1.
    by destruct b.
Qed.

Ltac free_tac :=
  unfold free_step, good_step; split; intros [] ? [= <-]; first [done|by split_and!].

Lemma free_commit_subs : free_step commit_mark step_subcommit.
Proof. free_tac. Qed.
Lemma free_commit_top : free_step commit_mark step_end.
Proof. free_tac. Qed.
Lemma free_abort_subs : free_step abort_mark step_subabort.
Proof. free_tac. Qed.
Lemma free_abort_top : free_step abort_mark step_abort.
Proof. free_tac. Qed.

(** The current level is the top level and is marked alone. *)
Lemma settled_mark_top bs b :
  Settled b -> subs b = [] -> exp_state bs = exp_state (blockState (top b)) ->
  is_sub_block bs = false -> bs <> TBLOCK_PARALLEL_INPROGRESS ->
  Settled (set_cur (set_blockState bs (cur b)) b).
Proof.
  intros HS Hs He Hk Hp.
  pose proof (Settled_reblock b (subs b) (set_blockState bs (top b)) HS) as HS1.
  destruct b as [t l]. fields Hs. subst. apply HS1; [constructor| |done].
  constructor; try done; [by eexists|..]; cbn.
  - rewrite Hk. symmetry. destruct HS as ((Hsh & _) & _). by destruct Hsh as [[? _]].
  - intros ->. by destruct (blockState t).
Qed.

Lemma wp_mark_cur bs c b :
  Settled b -> subs b = [] -> exp_state bs = exp_state (blockState (top b)) ->
  is_sub_block bs = false -> bs <> TBLOCK_PARALLEL_INPROGRESS ->
  wp (setblock bs ;; upd (set_chain c)) (fun _ => marked (fun _ => bs) c b) b.
Proof.
  intros HS Hs He Hk Hp. pose proof (settled_mark_top bs b HS Hs He Hk Hp) as HS1.
  change (marked (fun _ => bs) c b
    (set_cur (set_chain c (cur (set_cur (set_blockState bs (cur b)) b)))
             (set_cur (set_blockState bs (cur b)) b))).
  destruct b as [t l]. fields Hs. subst. split; [|done]. by apply (Settled_chain c) in HS1.
Qed.

End BlockCommands.

Section BlockCommands2.
Context `{Env, !EnvLaws}.

Lemma settled_top_end b :
  Settled b -> is_sub_block (blockState (cur b)) = false ->
  subs b = [] /\ cur b = top b /\ blocks b = [blockState (top b)].
Proof.
  intros (HI & _) Hk. pose proof (top_block_no_subs b HI Hk) as Hs.
  split_and!; [done|by apply cur_top|by apply blocks_top].
Qed.

(** [COMMIT] or [ROLLBACK] outside a block. *)
Lemma wp_no_block {A} c (k : unit -> M A) Q b :
  Settled b -> (forall tr, Settled (set_trace tr b) -> wp (k tt) Q (set_trace tr b)) ->
  wp (bind (no_block c) k) Q b.
Proof.
  intros HS Hk. pose proof HS as (HI & _ & Hc & _). unfold no_block. destruct c.
  - by apply wp_error_bind.
  - apply wp_quiet; [apply quiet_warning|done|]. intros [] tr _ HI'. apply Hk.
    by apply (settled_frame b).
Qed.

Lemma marked_cur bs g c b0 b b' :
  subs b = [] -> blocks b0 = blocks b -> bs = g (blockState (top b)) ->
  marked (fun _ => bs) c b b' -> marked g c b0 b'.
Proof.
  intros Hs Hb -> (HS & Hb' & Hc). split_and!; try done. rewrite Hb', Hb. by rewrite (blocks_top b).
Qed.

(** A mark on the top level alone. *)
Lemma wp_mark_one g bs c b b0 :
  Settled b -> subs b = [] -> blocks b0 = blocks b -> bs = g (blockState (top b)) ->
  exp_state bs = exp_state (blockState (top b)) -> is_sub_block bs = false ->
  bs <> TBLOCK_PARALLEL_INPROGRESS ->
  wp (setblock bs ;; upd (set_chain c)) (fun _ => marked g c b0) b.
Proof.
  intros. eapply wp_mono; [by apply wp_mark_cur|]. intros ? b' Hm. by eapply marked_cur.
Qed.

Lemma mark_one_ret {A} bs c (r : A) Q b :
  wp (setblock bs ;; upd (set_chain c)) (fun _ => Q r) b ->
  wp (setblock bs ;; upd (set_chain c) ;; ret r) Q b.
Proof. done. Qed.

(** The subtransactions of a settled stack accept the step of a command. *)
Lemma live_accepts (step : TBlockState -> option TBlockState) b :
  Settled b -> is_sub_block (blockState (cur b)) = true ->
  below (blockState (cur b)) = live_block -> step (blockState (cur b)) <> None ->
  step TBLOCK_SUBINPROGRESS <> None -> Forall (fun s => step (blockState s) <> None) (subs b).
Proof.
  intros (HI & _) Hk Hb Hs Hl. destruct (live_stack b HI Hk Hb) as (l & -> & Hf & _).
  constructor; [done|]. eapply Forall_impl; [exact Hf|]. by intros s ->.
Qed.

Definition failed_block (bs : TBlockState) : bool :=
  match bs with TBLOCK_ABORT | TBLOCK_SUBABORT => true | _ => false end.

(** [COMMIT] succeeds unless the transaction has failed. *)
Definition ended (c : bool) (b0 : backend) (r : bool) (b : backend) : Prop :=
  r = negb (failed_block (blockState (cur b0))) /\
  marked (if r then commit_mark else abort_mark) c b0 b /\
  (r = true -> blockState (top b) = TBLOCK_END \/ blockState (top b) = TBLOCK_STARTED).

Lemma marked_top g c b0 b : marked g c b0 b -> blockState (top b) = g (blockState (top b0)).
Proof.
  intros (_ & Hb & _). unfold blocks, stack in Hb. rewrite !map_app in Hb. cbn in Hb.
  by apply app_inj_tail in Hb as [_ ?].
Qed.

Lemma wp_ended_ret c b0 (r : bool) (m : M unit) b :
  r = negb (failed_block (blockState (cur b0))) ->
  wp m (fun _ => marked (if r then commit_mark else abort_mark) c b0) b ->
  (r = true -> commit_mark (blockState (top b0)) = TBLOCK_END \/
               commit_mark (blockState (top b0)) = TBLOCK_STARTED) ->
  wp m (fun _ => ended c b0 r) b.
Proof.
  intros Hr Hm Ht. eapply wp_mono; [exact Hm|]. intros ? b' HM. split_and!; try done.
  intros ->. rewrite (marked_top _ _ _ _ HM). by apply Ht.
Qed.

Lemma wp_mark_ret g step step' c (r : bool) (Q : bool -> backend -> Prop) b :
  free_step g step -> free_step g step' -> Settled b ->
  Forall (fun s => step (blockState s) <> None) (subs b) ->
  (forall b', marked g c b b' -> step' (blockState (top b)) <> None -> Q r b') ->
  wp (mark_subs step ;; mark_top step' ;; set_top_chain c ;; ret r) Q b.
Proof.
  intros Hf Hf' HS Hl HQ.
  pose proof (wp_mark_all g step step' c b (fun _ => Q r) Hf Hf' HS Hl HQ) as Hw.
  unfold wp, bind in *. destruct (mark_subs step b) as [[[]|e] b1]; [|done].
  destruct (mark_top step' b1) as [[[]|e] b2]; [|done]. exact Hw.
Qed.

Lemma wp_EndTransactionBlock c b : Settled b -> wp (EndTransactionBlock c) (ended c b) b.
Proof.
  intros HS. pose proof HS as (HI & _ & Hc & _). unfold EndTransactionBlock. apply wp_curblock.
  destruct (is_sub_block (blockState (cur b))) eqn:Hk.
  - destruct (blockState (cur b)) eqn:Hb; try discriminate Hk; try by apply wp_fatal.
    + apply (wp_mark_ret commit_mark); [apply free_commit_subs|apply free_commit_top|done|..].
      { apply live_accepts; by rewrite ?Hb. }
      intros b' HM Ht. split_and!; [by rewrite Hb|done|]. intros _. left.
      rewrite (marked_top _ _ _ _ HM). by destruct (blockState (top b)).
    + apply (wp_mark_ret abort_mark); [apply free_abort_subs|apply free_abort_top|done|..].
      { apply live_accepts; by rewrite ?Hb. }
      intros b' HM _. by split_and!; [rewrite Hb|..].
  - destruct (settled_top_end b HS Hk) as (Hs & Hcur & Hbl). rewrite Hcur in *.
    destruct (blockState (top b)) eqn:Hb; try discriminate Hk; try by apply wp_fatal.
    + apply wp_no_block; [done|]. intros tr HS1.
      change (wp (upd (set_chain c);; ret true) (ended c b) (set_trace tr b))
        with (ended c b true (set_cur (set_chain c (cur (set_trace tr b))) (set_trace tr b))).
      rewrite set_cur_top, cur_top by done.
      split_and!; [by rewrite Hcur, Hb|split_and!|by intros _; right].
      * by apply (Settled_chain c).
      * unfold blocks, stack. cbn. by rewrite Hs; cbn; rewrite Hb.
      * done.
    + apply mark_one_ret, wp_ended_ret; rewrite ?Hcur, ?Hb; [done| |by auto].
      apply wp_mark_one; rewrite ?Hb; done.
    + apply wp_no_block; [done|]. intros tr HS1.
      apply mark_one_ret, wp_ended_ret; rewrite ?Hcur, ?Hb; [done| |by auto].
      apply wp_mark_one; cbn; rewrite ?Hb; done.
    + apply mark_one_ret, wp_ended_ret; rewrite ?Hcur, ?Hb; [done| |done].
      apply wp_mark_one; rewrite ?Hb; done.
Qed.

Lemma wp_UserAbortTransactionBlock c b :
  Settled b -> wp (UserAbortTransactionBlock c) (fun _ => marked abort_mark c b) b.
Proof.
  intros HS. pose proof HS as (HI & _ & Hc & _). unfold UserAbortTransactionBlock. apply wp_curblock.
  destruct (is_sub_block (blockState (cur b))) eqn:Hk.
  - destruct (blockState (cur b)) eqn:Hb; try discriminate Hk; try by apply wp_fatal.
    all: apply (wp_mark_all abort_mark); [apply free_abort_subs|apply free_abort_top|done| |done].
    all: apply live_accepts; by rewrite ?Hb.
  - destruct (settled_top_end b HS Hk) as (Hs & Hcur & Hbl). rewrite Hcur in *.
    destruct (blockState (top b)) eqn:Hb; try discriminate Hk; try by apply wp_fatal.
    all: try (apply wp_no_block; [done|]; intros tr HS1).
    all: apply wp_mark_one; cbn; rewrite ?Hb; done.
Qed.

Definition is_started (bs : TBlockState) : bool :=
  match bs with TBLOCK_STARTED => true | _ => false end.

Lemma prepare_commit_subs b :
  Inv b -> map prepare_mark (map blockState (subs b)) = map commit_mark (map blockState (subs b)).
Proof.
  intros ([_ _ _ Hl _ _ _ _ _ _] & _). induction (subs b) as [|s l IH]; [done|].
  destruct Hl as (Hk & _ & _ & _ & Hl). cbn. f_equal; [|by apply IH].
  unfold prepare_mark. by destruct (blockState s).
Qed.

Lemma wp_PrepareTransactionBlock gid b :
  Settled b ->
  wp (PrepareTransactionBlock gid)
     (fun r => marked (if failed_block (blockState (cur b)) then abort_mark else prepare_mark) false b) b.
Proof.
  intros HS. unfold PrepareTransactionBlock. apply wp_bind.
  eapply wp_mono; [by apply wp_EndTransactionBlock|]. intros r b1 (Hr & HM & Ht).
  destruct (failed_block (blockState (cur b))); subst r; cbn [negb]; [exact HM|].
  specialize (Ht eq_refl). apply wp_get. destruct Ht as [Ht|Ht].
  - rewrite is_block_true by done. destruct HM as (HS1 & Hb1 & Hch1).
    pose proof HS1 as (HI1 & _ & Hc1 & _). apply wp_calls; [done|done|]. intros tr _ HI2.
    destruct (settled_frame b1 _ HS1 HI2 eq_refl eq_refl Hc1) as [HS2 Hb2].
    apply wp_modify, wp_modify.
    assert (reblocked (top b1) (set_blockState TBLOCK_PREPARE (top b1))) as Hre.
    { constructor; cbn; rewrite ?Ht; try done. by eexists. }
    assert (belows (subs b1 ++ [set_blockState TBLOCK_PREPARE (top b1)])) as Hbel.
    { destruct HI1 as ([]&_). revert sh_below0. clear -Ht. induction (subs b1) as [|s l IH]; [done|].
      destruct l as [|p l]; cbn in *; intros [Hx Hl].
      - split; [|done]. rewrite Ht in Hx. by destruct (blockState s).
      - split; [done|by apply IH]. }
    pose proof (Settled_reblock _ (subs b1) _ HS2 (reblocked_refls _) Hre Hbel) as HS3.
    change (marked prepare_mark false b (set_top (set_blockState TBLOCK_PREPARE (top b1))
      (set_prepareGID (Some gid) (set_trace tr b1)))). split_and!; [|..|done].
    + by destruct b1.
    + unfold blocks, stack in *. cbn. rewrite !map_app, (prepare_commit_subs b (proj1 HS)) in *.
      cbn in *. apply app_inj_tail in Hb1 as [Hl Hx]. rewrite Hl. f_equal.
      unfold prepare_mark. by rewrite <- Hx, Ht.
  - rewrite is_block_false by congruence. apply wp_assert; [by rewrite is_block_true|].
    destruct HM as (HS1 & Hb1 & Hch1). split_and!; try done. rewrite Hb1.
    unfold blocks, stack in *. rewrite !map_app, (prepare_commit_subs b (proj1 HS)) in *. f_equal. cbn in *.
    apply app_inj_tail in Hb1 as [_ Hx]. unfold prepare_mark. by rewrite <- Hx, Ht.
Qed.

End BlockCommands2.

(** ** RELEASE and ROLLBACK TO *)

Definition release_mark (bs : TBlockState) : TBlockState :=
  match bs with TBLOCK_SUBINPROGRESS => TBLOCK_SUBRELEASE | _ => bs end.
Definition restart_mark (bs : TBlockState) : TBlockState :=
  match bs with
  | TBLOCK_SUBINPROGRESS => TBLOCK_SUBRESTART
  | TBLOCK_SUBABORT => TBLOCK_SUBABORT_RESTART
  | _ => bs
  end.

(** The levels down to and including level [i] are released; those above
    level [i] are aborted and level [i] starts again. *)
Definition release_blocks (i : nat) (l : list TBlockState) : list TBlockState :=
  map release_mark (take (S i) l) ++ drop (S i) l.
Definition rollback_blocks (i : nat) (l : list TBlockState) : list TBlockState :=
  map abort_mark (take i l) ++ map restart_mark (take 1 (drop i l)) ++ drop (S i) l.

Section Savepoints.
Context `{Env, !EnvLaws}.

Lemma set_stack_app l t b : set_stack (l ++ [t]) b = set_top t (set_subs l b).
Proof. unfold set_stack. by rewrite List.last_last, List.removelast_last. Qed.

Lemma good_release : good_step release_mark step_release.
Proof. intros [] ? [= <-]; by split_and!. Qed.
Lemma good_restart : good_step restart_mark step_restart.
Proof. intros [] ? [= <-]; by split_and!. Qed.

(** A named level is a subtransaction. *)
Lemma find_savepoint_sub nm b i s :
  Inv b -> find_savepoint nm b = Some (i, s) ->
  subs b !! i = Some s /\ name s = Some nm.
Proof.
  intros ([_ Hnm _ _ _ _ _ _ _ _]&_) Hf. unfold find_savepoint in Hf.
  apply list_find_Some in Hf as (Hi & Hn & _). split; [|done]. unfold stack in Hi.
  apply lookup_app_Some in Hi as [?|[_ Hi]]; [done|].
  apply list_lookup_singleton_Some in Hi as [_ <-]. congruence.
Qed.

Lemma subs_lookup_lt b i s : subs b !! i = Some s -> (i < length (subs b))%nat.
Proof. apply lookup_lt_Some. Qed.

(** Marking the first levels. *)
Lemma wp_mark_first g step n err (k : unit -> M unit) Q b :
  good_step g step -> (n <= length (subs b))%nat ->
  Forall (fun s => step (blockState s) <> None) (take n (subs b)) ->
  wp (k tt) Q (set_subs (map (reblock g) (take n (subs b)) ++ drop n (subs b)) b) ->
  wp (bind (mark_first n step err) k) Q b.
Proof.
  intros Hg Hn Hl Hk. unfold mark_first. apply wp_assoc, wp_get.
  assert (take n (stack b) = take n (subs b)) as ->.
  { unfold stack. by rewrite take_app_le. }
  destruct (mark_all g step _ Hg Hl) as [-> _]. cbn [fst snd negb].
  apply wp_assoc, wp_modify, wp_when_false.
  assert (drop n (stack b) = drop n (subs b) ++ [top b]) as ->.
  { unfold stack. by rewrite drop_app_le. }
  rewrite app_assoc, set_stack_app. by destruct b.
Qed.

Lemma wp_savepoint_target nm k Q b :
  Inv b ->
  (forall i s, find_savepoint nm b = Some (i, s) -> savepointLevel s = savepointLevel (cur b) ->
     wp (k i) Q b) ->
  wp (savepoint_target nm k) Q b.
Proof.
  intros HI Hk. unfold savepoint_target. apply wp_get, wp_get.
  destruct (find_savepoint nm b) as [[i s]|] eqn:Hf; [|by apply wp_error].
  destruct (Z.eqb_spec (savepointLevel s) (savepointLevel (cur b))) as [Hl|Hl]; cbn [negb];
    [by eapply Hk|by apply wp_error].
Qed.

Lemma live_forall (P : TransactionStateData -> Prop) b :
  Inv b -> is_sub_block (blockState (cur b)) = true -> below (blockState (cur b)) = live_block ->
  P (cur b) -> (forall s, blockState s = TBLOCK_SUBINPROGRESS -> P s) -> Forall P (subs b).
Proof.
  intros HI Hk Hb Hc Hp. destruct (live_stack b HI Hk Hb) as (l & -> & Hf & _).
  constructor; [done|]. eapply Forall_impl; [exact Hf|]. exact Hp.
Qed.

Lemma belows_release n l t :
  Forall (fun s => blockState s = TBLOCK_SUBINPROGRESS) l -> blockState t = TBLOCK_INPROGRESS ->
  belows ((map (reblock release_mark) (take n l) ++ drop n l) ++ [t]).
Proof.
  intros Hl Ht. revert n. induction Hl as [|s l Hs Hl IH]; intros n; [by destruct n|].
  destruct n as [|n].
  - specialize (IH 0%nat). destruct l as [|p l]; cbn in *; rewrite ?Hs, ?Ht; [done|].
    apply Forall_cons in Hl as [Hp _]. rewrite Hp in *. by split.
  - specialize (IH n). destruct l as [|p l].
    + cbn [take drop]. rewrite firstn_nil, skipn_nil. cbn. by rewrite Hs, Ht.
    + apply Forall_cons in Hl as [Hp _]. destruct n as [|n]; cbn in *; rewrite ?Hs, ?Hp in *; by split.
Qed.

Lemma map_reblock g l : map blockState (map (reblock g) l) = map g (map blockState l).
Proof. by rewrite !map_map. Qed.

Lemma wp_ReleaseSavepoint nm b :
  Settled b -> blockState (top b) = TBLOCK_INPROGRESS ->
  wp (ReleaseSavepoint nm) (fun _ b' => Settled b' /\ exists i s, find_savepoint nm b = Some (i, s) /\
       blocks b' = release_blocks i (blocks b)) b.
Proof.
  intros HS Ht. pose proof HS as (HI & _ & Hc & _). unfold ReleaseSavepoint. apply wp_get, wp_when.
  { intros _. by apply wp_error_bind. }
  intros _. apply wp_curblock.
  destruct (blockState (cur b)) eqn:Hb; try (by apply wp_fatal); try by apply wp_error.
  apply wp_savepoint_target; [done|]. intros i s Hf Hlev.
  destruct (find_savepoint_sub nm b i s HI Hf) as [Hi _]. apply lookup_lt_Some in Hi as Hlt.
  assert (Forall (fun s => blockState s = TBLOCK_SUBINPROGRESS) (subs b)) as Hall.
  { apply live_forall; rewrite ?Hb; done. }
  apply wp_ret_last, (wp_mark_first release_mark); [apply good_release|lia|..].
  { apply Forall_take. eapply Forall_impl; [exact Hall|]. by intros ? ->. }
  split.
  - pose proof (Settled_reblock b (map (reblock release_mark) (take (S i) (subs b)) ++
      drop (S i) (subs b)) (top b) HS) as HS1. destruct b as [t l]. cbn in *. apply HS1.
    + rewrite <- (take_drop (S i) l) at 1. apply Forall2_app; [|apply reblocked_refls].
      eapply mark_all; [apply good_release|]. apply Forall_take.
      eapply Forall_impl; [exact Hall|]. by intros ? ->.
    + apply reblocked_refl.
    + by apply belows_release.
  - exists i, s. split; [done|]. unfold blocks, release_blocks, stack. cbn [subs top set_subs].
    rewrite !map_app, take_app_le, drop_app_le by (rewrite length_map; lia).
    by rewrite <- app_assoc, map_reblock, firstn_map, skipn_map.
Qed.

Lemma drop_split i (l : list TransactionStateData) s :
  l !! i = Some s -> drop i l = s :: drop (S i) l.
Proof. apply drop_S. Qed.

Lemma take_marked g i (l : list TransactionStateData) r :
  (i <= length l)%nat -> take i (map (reblock g) (take i l) ++ r) = map (reblock g) (take i l).
Proof. intros. rewrite take_app_length' by (rewrite length_map, length_take; lia). done. Qed.

Lemma drop_marked g i (l : list TransactionStateData) r :
  (i <= length l)%nat -> drop i (map (reblock g) (take i l) ++ r) = r.
Proof. intros. rewrite drop_app_length' by (rewrite length_map, length_take; lia). done. Qed.

Lemma belows_app_free l r :
  Forall (fun s => forall p, below (blockState s) p = true) l -> belows r -> belows (l ++ r).
Proof.
  induction l as [|s l IH]; [done|]. rewrite Forall_cons. intros [Hs Hl] Hr.
  specialize (IH Hl Hr). cbn. destruct (l ++ r); [done|]. by split.
Qed.

(** The stack [ROLLBACK TO] the level [i] leaves. *)
Definition rolled_back (i : nat) (s : TransactionStateData) (l : list TransactionStateData) :=
  map (reblock abort_mark) (take i l) ++ reblock restart_mark s :: drop (S i) l.

Lemma belows_drop i l : belows l -> belows (drop i l).
Proof.
  revert l. induction i as [|i IH]; intros l; [done|]. destruct l as [|s l]; [done|]. cbn.
  destruct l; [by rewrite drop_nil|]. intros [_ ?]. by apply IH.
Qed.

Lemma settled_rolled_back b i s :
  Settled b -> subs b !! i = Some s ->
  Forall (fun s => step_subabort (blockState s) <> None) (subs b) ->
  step_restart (blockState s) <> None -> Settled (set_subs (rolled_back i s (subs b)) b).
Proof.
  intros HS Hi Hall Hs. pose proof HS as (HI & _).
  pose proof (Settled_reblock b (rolled_back i s (subs b)) (top b) HS) as HS1.
  assert (subs b = take i (subs b) ++ s :: drop (S i) (subs b)) as Hsplit by by rewrite take_drop_middle.
  replace (set_top (top b) (set_subs (rolled_back i s (subs b)) b))
    with (set_subs (rolled_back i s (subs b)) b) in HS1 by by destruct b.
  apply HS1; [|apply reblocked_refl|].
  - rewrite Hsplit at 1. apply Forall2_app.
    + eapply mark_all; [apply free_abort_subs|]. by apply Forall_take.
    + constructor; [by eapply good_reblocked; [apply good_restart|]|apply reblocked_refls].
  - unfold rolled_back. rewrite <- app_assoc. apply belows_app_free.
    + apply (mark_free abort_mark step_subabort); [apply free_abort_subs|by apply Forall_take|].
      apply Forall_take, Forall_forall. intros y Hy. destruct HI as ([]&_). by eapply sub_levels_block.
    + destruct HI as ([]&_). apply (belows_drop i) in sh_below0.
      rewrite drop_app_le, (drop_S _ _ _ Hi) in sh_below0 by (apply lookup_lt_Some in Hi; lia).
      cbn in *. destruct (drop (S i) (subs b) ++ [top b]) as [|p r]; [done|].
      destruct sh_below0 as [Hb Hr]. split; [|done]. by destruct (blockState s).
Qed.

Lemma rolled_back_blocks i s b :
  subs b !! i = Some s ->
  blocks (set_subs (rolled_back i s (subs b)) b) = rollback_blocks i (blocks b).
Proof.
  intros Hi. pose proof (lookup_lt_Some _ _ _ Hi) as Hlt. unfold blocks, rollback_blocks, rolled_back, stack.
  cbn [subs top set_subs]. rewrite !map_app, take_app_le, !drop_app_le by (rewrite length_map; lia).
  rewrite map_reblock, !firstn_map, !skipn_map, (drop_S _ _ _ Hi). cbn [map take].
  by rewrite <- !app_assoc.
Qed.

Lemma wp_rollback_target i s (Q : unit -> backend -> Prop) b :
  Settled b -> subs b !! i = Some s ->
  Forall (fun s => step_subabort (blockState s) <> None) (subs b) ->
  step_restart (blockState s) <> None -> Q tt (set_subs (rolled_back i s (subs b)) b) ->
  wp (mark_first i step_subabort (elog_FATAL "RollbackToSavepoint: unexpected state") ;;
      let! l := get stack in
      match drop i l with
      | xact :: rest =>
          match step_restart (blockState xact) with
          | Some bs => modify (set_stack (take i l ++ set_blockState bs xact :: rest))
          | None => elog_FATAL "RollbackToSavepoint: unexpected state"
          end
      | [] => fun b => (Exn (ASSERT "xact is valid"), b)
      end) Q b.
Proof.
  intros HS Hi Hab Hs HQ. pose proof (lookup_lt_Some _ _ _ Hi) as Hlt.
  apply (wp_mark_first abort_mark); [apply free_abort_subs|lia|by apply Forall_take|].
  apply wp_get. unfold stack. cbn [subs top set_subs].
  rewrite <- app_assoc, drop_marked, take_marked, (drop_S _ _ _ Hi) by lia. cbn [app].
  destruct (step_restart (blockState s)) as [bs|] eqn:Hbs; [|done].
  destruct (good_restart _ _ Hbs) as (-> & _).
  match goal with |- wp (modify ?f) _ ?b1 => change (Q tt (f b1)) end. cbv beta.
  rewrite app_comm_cons, app_assoc, set_stack_app. by destruct b.
Qed.

Record RolledBack (nm : string) (b0 : backend) (i : nat) (s : TransactionStateData)
  (b : backend) : Prop := {
  rb_settled : Settled b;
  rb_found : find_savepoint nm b0 = Some (i, s);
  rb_target : subs b0 !! i = Some s;
  rb_state : b = set_subs (rolled_back i s (subs b0)) b0;
  rb_live : Forall (fun s => step_subabort (blockState s) <> None) (subs b0);
  rb_restart : step_restart (blockState s) <> None }.

Lemma wp_RollbackToSavepoint nm b :
  Settled b -> wp (RollbackToSavepoint nm) (fun _ b' => exists i s, RolledBack nm b i s b') b.
Proof.
  intros HS. pose proof HS as (HI & _ & Hc & _). unfold RollbackToSavepoint. apply wp_get, wp_when.
  { intros _. by apply wp_error_bind. }
  intros _. apply wp_curblock.
  assert (forall step : TBlockState -> option TBlockState, is_sub_block (blockState (cur b)) = true ->
    below (blockState (cur b)) = live_block -> step (blockState (cur b)) <> None ->
    step TBLOCK_SUBINPROGRESS <> None -> Forall (fun s => step (blockState s) <> None) (subs b)) as Hl.
  { intros. by apply live_accepts. }
  destruct (blockState (cur b)) eqn:Hb; try (by apply wp_fatal); try by apply wp_error.
  all: pose proof (Hl step_subabort eq_refl eq_refl ltac:(done) ltac:(done)) as Hab.
  all: pose proof (Hl step_restart eq_refl eq_refl ltac:(done) ltac:(done)) as Hre.
  all: clear Hl; apply wp_savepoint_target; [done|]; intros i s Hf Hlev.
  all: destruct (find_savepoint_sub nm b i s HI Hf) as [Hi _].
  all: assert (step_restart (blockState s) <> None) as Hs
    by (rewrite Forall_lookup in Hre; by eapply Hre).
  all: apply (wp_rollback_target i s); try done.
  all: exists i, s; constructor; try done; by apply settled_rolled_back.
Qed.

End Savepoints.

End XactBlocks.
