(* ===== verification/XactRuns.v ===== *)
(** * Runs of the transaction machine

    The commands of [xact.c] as one type, the machine of block states they
    refine, and the runs of a backend: commands, errors at any call, recovery
    and exit.  Every reachable state satisfies the invariant, no [Assert]
    fails, and no transaction id is both committed and aborted. *)

From S2P Require Import Prelude.
From S2P Require Import Transam.
From S2P Require Import Xact.
From S2P Require Import XactLogic.
From S2P Require Import XactTop.
From S2P Require Import XactSub.
From S2P Require Import XactCommands.
From S2P Require Import XactBlocks.

Import Transam Xact XactLogic XactTop XactSub XactCommands XactBlocks.

Open Scope Z_scope.

Module XactRuns.

(** ** The commands *)

Inductive command :=
  | StartCommand | CommitCommand
  | Begin | End_ (chain : bool) | Prepare (gid : string) | UserAbort (chain : bool)
  | BeginImplicit | EndImplicit
  | Savepoint (nm : option string) | Release (nm : string) | RollbackTo (nm : string)
  | BeginInternal (nm : option string) | ReleaseCurrent | RollbackCurrent
  | NeedXid | NeedTopXid | NextCommandId.

Section Exec.
Context `{Env}.

Definition exec (c : command) : M unit :=
  match c with
  | StartCommand => StartTransactionCommand
  | CommitCommand => CommitTransactionCommand
  | Begin => BeginTransactionBlock
  | End_ chain => EndTransactionBlock chain ;; ret tt
  | Prepare gid => PrepareTransactionBlock gid ;; ret tt
  | UserAbort chain => UserAbortTransactionBlock chain
  | BeginImplicit => BeginImplicitTransactionBlock
  | EndImplicit => EndImplicitTransactionBlock
  | Savepoint nm => DefineSavepoint nm
  | Release nm => ReleaseSavepoint nm
  | RollbackTo nm => RollbackToSavepoint nm
  | BeginInternal nm => BeginInternalSubTransaction nm
  | ReleaseCurrent => ReleaseCurrentSubTransaction
  | RollbackCurrent => RollbackAndReleaseCurrentSubTransaction
  | NeedXid => GetCurrentTransactionId ;; ret tt
  | NeedTopXid => GetTopTransactionId ;; ret tt
  | NextCommandId => CommandCounterIncrement
  end.

(** What the callers of a command see to. *)
Definition allowed (c : command) (b : backend) : Prop :=
  match c with
  | CommitCommand | BeginInternal _ => prepare_ok b
  | Release _ => blockState (top b) = TBLOCK_INPROGRESS
  | RollbackCurrent =>
      blockState (parent b) <> TBLOCK_END /\ blockState (parent b) <> TBLOCK_PREPARE
  | NeedXid => exp_state (blockState (cur b)) = TRANS_INPROGRESS
  | NeedTopXid => exp_state (blockState (top b)) = TRANS_INPROGRESS
  | _ => True
  end.

(** The block states a command leaves. *)
Definition block_spec (c : command) (b : backend) : list TBlockState :=
  let l := blocks b in
  match c with
  | StartCommand => match l with TBLOCK_DEFAULT :: l' => TBLOCK_STARTED :: l' | _ => l end
  | CommitCommand => commit_blocks (chain (top b)) l
  | Begin => map begin_mark (take 1 l) ++ drop 1 l
  | End_ _ => map (if failed_block (blockState (cur b)) then abort_mark else commit_mark) l
  | Prepare _ => map (if failed_block (blockState (cur b)) then abort_mark else prepare_mark) l
  | UserAbort _ => map abort_mark l
  | BeginImplicit =>
      match l with TBLOCK_STARTED :: l' => TBLOCK_IMPLICIT_INPROGRESS :: l' | _ => l end
  | EndImplicit =>
      match l with TBLOCK_IMPLICIT_INPROGRESS :: l' => TBLOCK_STARTED :: l' | _ => l end
  | Savepoint _ => TBLOCK_SUBBEGIN :: l
  | Release nm => match find_savepoint nm b with Some (i, _) => release_blocks i l | None => l end
  | RollbackTo nm => match find_savepoint nm b with Some (i, _) => rollback_blocks i l | None => l end
  | BeginInternal _ => TBLOCK_SUBINPROGRESS :: l
  | ReleaseCurrent | RollbackCurrent => tail l
  | NeedXid | NeedTopXid | NextCommandId => l
  end.

End Exec.

Section Commands.
Context `{Env, !EnvLaws}.

Definition refines (c : command) (b0 : backend) (b : backend) : Prop :=
  Settled b /\ blocks b = block_spec c b0.

Lemma settled_context b :
  Settled b -> blockState (cur b) <> TBLOCK_DEFAULT -> CurTransactionContext b <> None.
Proof.
  intros (HI & _) Hd. pose proof HI as (Hsh & [_ Hv _] & _). apply Hv. intros Ht.
  destruct (subs b) as [|s l] eqn:Hs; [by rewrite cur_top in Hd|].
  destruct (shape_top_parent _ _ Hsh) as (_ & He & _); [done|]. by rewrite Ht in He.
Qed.

Lemma wp_switch (Q : unit -> backend -> Prop) b :
  Settled b -> CurTransactionContext b <> None ->
  (forall b', Settled b' -> blocks b' = blocks b -> Q tt b') ->
  wp switch_to_cur_context Q b.
Proof.
  intros HS Hx HQ. pose proof HS as (HI & _ & Hc & _). unfold switch_to_cur_context.
  apply wp_assert; [by destruct (CurTransactionContext b)|]. apply wp_get, wp_ret_last, wp_calls; [done..|].
  intros tr _ HI'. apply HQ; by apply (settled_frame b).
Qed.

Lemma wp_StartTransactionCommand b :
  Settled b -> wp StartTransactionCommand (fun _ => refines StartCommand b) b.
Proof.
  intros HS. pose proof HS as (HI & Hst & Hc & _). unfold StartTransactionCommand. apply wp_curblock.
  pose proof (blocks_cur b) as Hbl.
  destruct (blockState (cur b)) eqn:Hb; try (by apply wp_error_bind).
  2-6: apply wp_ret, wp_switch; [done|by apply settled_context; rewrite ?Hb|];
       intros b' HS' Hb'; split; [done|]; by rewrite Hb'; cbn; rewrite Hbl.
  destruct (settled_top_end b HS ltac:(by rewrite Hb)) as (Hs & Hcur & Hbt). rewrite Hcur in *.
  apply wp_assoc, wp_bind. eapply wp_mono; [by apply wp_StartTransaction|].
  intros ? b1 [HI1 Hs1 Hc1 Hst1 _ Hx1]. apply wp_setblock.
  specialize (HI1 TBLOCK_STARTED eq_refl eq_refl ltac:(done)).
  rewrite set_cur_top, cur_top by done. apply wp_switch; [|done|].
  - by apply settled_setblock_top.
  - intros b' HS' Hb'. split; [done|]. rewrite Hb', set_top_blocks by done. cbn.
    by rewrite Hbt, ?Hb.
Qed.

Lemma wp_BeginTransactionBlock b :
  Settled b -> wp BeginTransactionBlock (fun _ => refines Begin b) b.
Proof.
  intros HS. pose proof HS as (HI & _ & Hc & _). unfold BeginTransactionBlock. apply wp_curblock.
  pose proof (blocks_cur b) as Hbl. unfold refines, block_spec.
  destruct (blockState (cur b)) eqn:Hb; try (by apply wp_fatal).
  all: try (apply wp_ret_last, wp_quiet; [apply quiet_warning|done|]; intros ? tr _ HI';
    destruct (settled_frame b _ HS HI' eq_refl eq_refl Hc) as [? Hb2]; split; [done|];
    by rewrite Hb2; cbv zeta; rewrite Hbl).
  all: destruct (settled_top_end b HS ltac:(by rewrite Hb)) as (Hs & Hcur & Hbt).
  all: rewrite Hcur in Hb; rewrite Hbt, Hb.
  all: change (wp (setblock TBLOCK_BEGIN) ?Q b)
    with (Q tt (set_cur (set_blockState TBLOCK_BEGIN (cur b)) b)); cbv beta.
  all: split; [apply settled_mark_top; rewrite ?Hb; done|].
  all: rewrite set_cur_top, cur_top, set_top_blocks by done; reflexivity.
Qed.

Lemma implicit_spec bs bs' b :
  Settled b -> is_sub_block bs = false -> bs <> TBLOCK_DEFAULT -> exp_state bs' = exp_state bs ->
  is_sub_block bs' = false -> bs' <> TBLOCK_PARALLEL_INPROGRESS ->
  let b' := set_cur (if is_block bs (cur b) then set_blockState bs' (cur b) else cur b) b in
  Settled b' /\
  blocks b' = if decide (blockState (cur b) = bs) then bs' :: tail (blocks b) else blocks b.
Proof.
  intros HS Hk Hd He Hk' Hp. cbv zeta. destruct (decide (blockState (cur b) = bs)) as [Hb|Hb].
  - rewrite is_block_true by done.
    destruct (settled_top_end b HS ltac:(by rewrite Hb)) as (Hs & Hcur & Hbt).
    rewrite Hcur in Hb. split.
    + apply settled_mark_top; rewrite ?Hb; done.
    + by rewrite set_cur_top, cur_top, set_top_blocks, Hbt by done.
  - rewrite is_block_false by done. assert (set_cur (cur b) b = b) as ->; [|done].
    unfold set_cur, cur. destruct b as [t [|s l]]; done.
Qed.

Lemma wp_BeginImplicit b :
  Settled b -> wp BeginImplicitTransactionBlock (fun _ => refines BeginImplicit b) b.
Proof.
  intros HS. destruct (implicit_spec TBLOCK_STARTED TBLOCK_IMPLICIT_INPROGRESS b HS) as [HS' Hb'];
    try done. split; [exact HS'|]. refine (eq_trans Hb' _). cbn. pose proof (blocks_cur b) as Hbl.
  rewrite Hbl. by destruct (blockState (cur b)).
Qed.

Lemma wp_EndImplicit b :
  Settled b -> wp EndImplicitTransactionBlock (fun _ => refines EndImplicit b) b.
Proof.
  intros HS. destruct (implicit_spec TBLOCK_IMPLICIT_INPROGRESS TBLOCK_STARTED b HS) as [HS' Hb'];
    try done. split; [exact HS'|]. refine (eq_trans Hb' _). cbn. pose proof (blocks_cur b) as Hbl.
  rewrite Hbl. by destruct (blockState (cur b)).
Qed.

Lemma wp_CommitTransactionCommand b :
  Settled b -> prepare_ok b -> wp CommitTransactionCommand (fun _ => refines CommitCommand b) b.
Proof.
  intros HS Hp. unfold CommitTransactionCommand. apply wp_get.
  apply wp_CommitTransactionCommand_rec; [done|done|lia].
Qed.

Lemma wp_BeginInternal nm b :
  Settled b -> prepare_ok b ->
  wp (BeginInternalSubTransaction nm) (fun _ => refines (BeginInternal nm) b) b.
Proof.
  intros HS Hprep. pose proof HS as (HI & _ & Hc & _). unfold BeginInternalSubTransaction.
  apply wp_get, wp_when; intros _; [by apply wp_error_bind|]. apply wp_curblock.
  assert (forall m : M unit, wp m (fun _ => Pushed nm b) b ->
    wp (m ;; CommitTransactionCommand ;; StartTransactionCommand)
      (fun _ => refines (BeginInternal nm) b) b) as Hrest.
  { intros m Hm. apply wp_bind. eapply wp_mono; [exact Hm|]. intros ? b1 HP. apply wp_bind.
    eapply wp_mono; [apply wp_CommitTransactionCommand; [exact (Pushed_settled _ _ _ HP)|]|].
    - unfold prepare_ok. by rewrite (pu_top _ _ _ HP).
    - intros ? b2 [HS2 Hb2]. unfold block_spec in Hb2. rewrite (Pushed_blocks _ _ _ HP) in Hb2.
      eapply wp_mono; [by apply wp_StartTransactionCommand|]. intros ? b3 [HS3 Hb3].
      split; [done|]. rewrite Hb3. unfold block_spec. by rewrite Hb2. }
  destruct (blockState (cur b)) eqn:Hb; try by apply wp_fatal_bind.
  all: apply Hrest, wp_push_named; try done; [|by rewrite Hb].
  all: apply settled_parent; [done|by rewrite Hb].
Qed.

Lemma popped_refines b0 s l b :
  Inv b0 -> subs b0 = s :: l -> Popped l (top b0) b ->
  Settled b /\ blocks b = tail (blocks b0) /\ state (cur b) = TRANS_INPROGRESS.
Proof.
  intros HI Hs HP. pose proof (popped_cur b0 s l b HI Hs HP) as Hp. split_and!.
  - apply parent_settled; [apply HP..|done].
  - by rewrite (popped_blocks _ _ _ HP), (blocks_subs b0 s l Hs).
  - apply Hp.
Qed.

Lemma wp_ReleaseCurrent b :
  Settled b -> wp ReleaseCurrentSubTransaction (fun _ => refines ReleaseCurrent b) b.
Proof.
  intros HS. pose proof HS as (HI & Hst & Hc & _). unfold ReleaseCurrentSubTransaction.
  apply wp_get, wp_when; intros _; [by apply wp_error_bind|]. apply wp_curblock.
  destruct (blockState (cur b)) eqn:Hb; try by apply wp_error.
  destruct (sub_block_subs b HI ltac:(by rewrite Hb)) as [l Hs].
  apply wp_assert; [by apply is_state_true|]. apply wp_get, wp_calls; [done..|]. intros tr _ HI1.
  apply wp_bind. eapply wp_mono; [eapply wp_CommitSubTransaction; [done|exact Hs|done|congruence]|].
  intros ? b1 HC. destruct (subcommitted_cur _ _ _ _ HI1 Hs HC) as (Hp & Hbl & _).
  apply wp_ret_last, wp_assert; [apply is_state_true, Hp|]. split.
  - apply parent_settled; [apply HC..|done].
  - rewrite Hbl. cbn. by rewrite (blocks_subs b _ _ Hs).
Qed.

Lemma wp_RollbackCurrent b :
  Settled b -> allowed RollbackCurrent b ->
  wp RollbackAndReleaseCurrentSubTransaction (fun _ => refines RollbackCurrent b) b.
Proof.
  intros HS [He Hpr]. pose proof HS as (HI & Hst & Hc & _).
  unfold RollbackAndReleaseCurrentSubTransaction. apply wp_curblock.
  assert (is_sub_block (blockState (cur b)) = true -> below (blockState (cur b)) = live_block ->
    forall m : M unit, (forall l, subs b = cur b :: l -> wp m (fun _ => Popped l (top b)) b) ->
    wp (m ;; Assert "in progress" (fun b => is_block TBLOCK_SUBINPROGRESS (cur b) ||
      is_block TBLOCK_INPROGRESS (cur b) || is_block TBLOCK_IMPLICIT_INPROGRESS (cur b) ||
      is_block TBLOCK_STARTED (cur b))) (fun _ => refines RollbackCurrent b) b) as Hrest.
  { intros Hk Hlive m Hm. destruct (sub_block_subs b HI Hk) as [l Hs].
    apply wp_bind. eapply wp_mono; [by apply Hm|]. intros ? b1 HP.
    destruct (popped_refines b _ l b1 HI Hs HP) as (HS1 & Hb1 & _).
    pose proof (below_parent b _ l HI Hs) as Hpar. rewrite Hlive in Hpar.
    assert (blockState (cur b1) = blockState (parent b)) as Hcur.
    { pose proof (blocks_cur b1) as Hbc. rewrite Hb1, (blocks_subs b _ l Hs) in Hbc.
      unfold parent. rewrite Hs. destruct l; cbn in Hbc; congruence. }
    apply wp_ret_last, wp_assert; [|by split]. unfold is_block. rewrite Hcur.
    by destruct (blockState (parent b)). }
  destruct (blockState (cur b)) eqn:Hb; try by apply wp_fatal_bind.
  - apply Hrest; [done|done|]. intros l Hs. by eapply wp_abort_pop.
  - apply Hrest; [done|done|]. intros l Hs. by eapply wp_CleanupSubTransaction.
Qed.

Lemma same_levels_settled b b' :
  Settled b -> Inv b' -> CritSectionCount b' = 0 -> same_levels b b' ->
  Settled b' /\ blocks b' = blocks b.
Proof.
  intros (_ & Hst & _ & Hx) HI Hc Hs. pose proof (same_levels_cur b b' Hs) as Hcur.
  pose proof (f_equal state Hcur) as E1. pose proof (f_equal blockState Hcur) as E2.
  pose proof (f_equal curTransactionContext Hcur) as E3. cbn in E1, E2, E3. split.
  - unfold Settled. rewrite E1, E2, E3. by split_and!.
  - destruct Hs as [Ht Hl]. unfold blocks, stack. rewrite !map_app. f_equal.
    + apply (f_equal (map blockState)) in Hl. by rewrite !map_map in Hl.
    + apply (f_equal blockState) in Ht. cbn in *. by f_equal.
Qed.

(** Every command refines the machine of block states. *)
Lemma wp_exec c b :
  Settled b -> allowed c b -> wp (exec c) (fun _ => refines c b) b.
Proof.
  intros HS Ha. pose proof HS as (HI & Hst & Hc & _). destruct c; cbn [exec allowed] in *.
  - by apply wp_StartTransactionCommand.
  - by apply wp_CommitTransactionCommand.
  - by apply wp_BeginTransactionBlock.
  - apply wp_bind. eapply wp_mono; [by apply wp_EndTransactionBlock|].
    intros r b' (Hr & (HS' & Hb' & _) & _). split; [done|]. cbn. rewrite Hb', Hr.
    by destruct (failed_block _).
  - apply wp_bind. eapply wp_mono; [by apply wp_PrepareTransactionBlock|].
    intros r b' (HS' & Hb' & _). by split.
  - eapply wp_mono; [by apply wp_UserAbortTransactionBlock|]. intros ? b' (HS' & Hb' & _). by split.
  - by apply wp_BeginImplicit.
  - by apply wp_EndImplicit.
  - eapply wp_mono; [by apply wp_DefineSavepoint|]. intros ? b' HP. split; [exact (Pushed_settled _ _ _ HP)|].
    by rewrite (Pushed_blocks _ _ _ HP).
  - eapply wp_mono; [by apply wp_ReleaseSavepoint|]. intros ? b' (HS' & i & s & Hf & Hb').
    split; [done|]. cbn. by rewrite Hf.
  - eapply wp_mono; [by apply wp_RollbackToSavepoint|]. intros ? b' (i & s & [HS' Hf Hi -> _ _]).
    split; [done|]. cbn. rewrite Hf. by apply rolled_back_blocks.
  - by apply wp_BeginInternal.
  - by apply wp_ReleaseCurrent.
  - by apply wp_RollbackCurrent.
  - apply wp_bind. eapply wp_mono; [apply wp_GetCurrentTransactionId; try done; congruence|].
    intros ? b' (HI' & Hc' & Hs' & _). by apply same_levels_settled.
  - apply wp_bind. assert (state (top b) = TRANS_INPROGRESS) as Ht.
    { destruct (subs b) eqn:Hs; [rewrite cur_top in Hst by done; congruence|].
      destruct HI as (Hsh&_). rewrite Hs in Hsh. by destruct (shape_top_parent _ _ Hsh). }
    eapply wp_mono; [by apply wp_GetTopTransactionId|].
    intros ? b' (HI' & Hc' & Hs'). by apply same_levels_settled.
  - by apply wp_commit_cci.
Qed.

End Commands.

(** ** Runs *)

(** The static initializers of [xact.c]. *)
Definition TopTransactionStateData : TransactionStateData :=
  mkTS 0 0 None 0 TRANS_DEFAULT TBLOCK_DEFAULT 0 0 None None [] 0 0 0 false false false 0 false.
Definition backend_start : backend :=
  mkBE TopTransactionStateData [] 0 false false 0 false false 0 [] 0 [] 0 0 false 0 0 0 None false 0
    None None None None None None [] [] 0 0 [].

(** Where control is: in a command, in the error handler of the main loop, in
    the exit of the process, or nowhere. *)
Inductive control := Running | Caught | Exiting | Panicked | Stuck.

Definition handler (e : exn) : control :=
  match e with
  | ERROR _ => Caught
  | FATAL _ => Exiting
  | PANIC _ => Panicked
  | ASSERT _ | NOFUEL => Stuck
  end.

Section Runs.
Context `{Env}.

Definition after (r : result unit) : control :=
  match r with Ok _ => Running | Exn e => handler e end.

Inductive step : control * backend -> control * backend -> Prop :=
  | step_command c b r b' :
      allowed c b -> exec c b = (r, b') -> step (Running, b) (after r, b')
  | step_recover b r b' :
      AbortCurrentTransaction b = (r, b') -> step (Caught, b) (after r, b')
  | step_exit k b r b' :
      k <> Panicked -> k <> Stuck ->
      AbortOutOfAnyTransaction b = (r, b') -> step (k, b) (after r, b').

Inductive reachable : control * backend -> Prop :=
  | reachable_start : reachable (Running, backend_start)
  | reachable_step x y : reachable x -> step x y -> reachable y.

(** What is known of a reachable state. *)
Definition safe (x : control * backend) : Prop :=
  match x.1 with
  | Running => Settled x.2
  | Caught | Exiting => Inv x.2 /\ CritSectionCount x.2 = 0
  | Panicked => consistent x.2
  | Stuck => False
  end.

End Runs.

Section RunProofs.
Context `{Env, !EnvLaws}.

Lemma start_settled : Settled backend_start.
Proof.
  apply idle_settled; [|done|done]. split; [|split; [|split; [|done]]].
  - constructor; try done; by intros [?|?].
  - constructor; done.
  - constructor; try done; try (by intros; apply not_elem_of_nil); try (by intros x ?%elem_of_nil).
    by repeat constructor.
Qed.

Lemma wp_safe (m : M unit) (Q : unit -> backend -> Prop) b r b' :
  wp m Q b -> (forall b2, Q tt b2 -> Settled b2) -> m b = (r, b') -> safe (after r, b').
Proof.
  unfold wp. intros Hm HQ Heq. rewrite Heq in Hm. destruct r as [[]|[]]; cbn in *; auto.
Qed.

Lemma wp_AbortCurrentTransaction b :
  Inv b -> CritSectionCount b = 0 -> wp AbortCurrentTransaction (fun _ => recovered b) b.
Proof.
  intros. unfold AbortCurrentTransaction. apply wp_get. apply wp_AbortCurrentTransaction_rec; auto.
Qed.

Lemma step_safe x y : safe x -> step x y -> safe y.
Proof.
  intros Hx Hs. destruct Hs as [c b r b' Ha He|b r b' He|k b r b' Hp Hk He]; cbn in Hx.
  - eapply wp_safe; [by apply wp_exec| |done]. by intros b2 [? _].
  - destruct Hx. eapply wp_safe; [by apply wp_AbortCurrentTransaction| |done]. by intros b2 [? _].
  - assert (Inv b /\ CritSectionCount b = 0) as [HI Hc].
    { destruct k; cbn in Hx; try done. by destruct Hx as (?&?&?&?). }
    eapply wp_safe; [by apply wp_AbortOutOfAnyTransaction| |done]. by intros b2 [? _].
Qed.

Lemma reachable_safe x : reachable x -> safe x.
Proof.
  induction 1 as [|x y _ IH Hs]; [apply start_settled|]. by eapply step_safe.
Qed.

Lemma safe_consistent x : safe x -> consistent x.2.
Proof.
  destruct x as [[] b]; cbn; try done.
  - intros (?&_). by apply Inv_consistent.
  - intros [? _]. by apply Inv_consistent.
  - intros [? _]. by apply Inv_consistent.
Qed.

End RunProofs.

(** ** ROLLBACK TO as one command *)

Section RollbackCommand.
Context `{Env, !EnvLaws}.

Lemma abort_blocks_head b l :
  blocks b = abort_blocks l -> blockState (cur b) ∈ [TBLOCK_DEFAULT; TBLOCK_ABORT; TBLOCK_SUBABORT].
Proof.
  rewrite blocks_cur. generalize (blockState (cur b)) as x. intros x Hx.
  induction l as [|s l IH]; cbn in Hx; [done|].
  destruct (abort_pops s) eqn:Hp; [by apply IH|]. injection Hx as -> _.
  destruct s; try discriminate Hp; cbn; set_solver.
Qed.

(** The pending levels above the target are left, the target starts again. *)
Lemma wp_commit_restart n pre s rest b :
  Settled b -> subs b = pre ++ s :: rest ->
  Forall (fun y => blockState y = TBLOCK_SUBABORT_PENDING \/ blockState y = TBLOCK_SUBABORT_END) pre ->
  blockState s = TBLOCK_SUBRESTART \/ blockState s = TBLOCK_SUBABORT_RESTART ->
  (length pre < n)%nat ->
  wp (CommitTransactionCommand_rec n) (fun _ => Entered s rest b) b.
Proof.
  revert pre b. induction n as [|n IH]; intros pre b HS Hs Hpre Hb Hn; [lia|].
  cbn [CommitTransactionCommand_rec]. apply wp_get.
  match goal with |- wp (bind _ ?k) _ _ =>
    enough (forall b1, Settled b1 -> subs b1 = subs b -> top b1 = top b ->
      wp (k tt) (fun _ => Entered s rest b1) b1) as Hbody end.
  { apply wp_when; intros _; [apply wp_modify|by apply Hbody].
    eapply wp_mono; [by apply (Hbody (set_save_XactDeferrable (XactDeferrable b)
      (set_save_XactReadOnly (XactReadOnly b) (set_save_XactIsoLevel (XactIsoLevel b) b))))|].
    by intros ? b' []. }
  intros b1 HS1 Hs1 Ht1. rewrite Hs in Hs1. clear b HS Hs Ht1. pose proof HS1 as (HI & _ & Hc & _).
  apply wp_curblock, wp_get. destruct pre as [|y pre].
  - cbn [app] in Hs1. assert (cur b1 = s) as -> by (unfold cur; by rewrite Hs1).
    assert (forall undo, (forall b', Inv b' -> subs b' = set_name None s :: rest ->
      CritSectionCount b' = 0 -> top b' = top b1 -> wp undo (fun _ => Popped rest (top b1)) b') ->
      wp (restart_subxact undo) (fun _ => Entered s rest b1) b1) as Hre.
    { intros undo Hu. by apply wp_restart_subxact. }
    destruct Hb as [-> | ->]; apply Hre; intros b' HI' Hs' Hc' Ht'; rewrite <- Ht'.
    + by eapply wp_abort_pop.
    + by eapply wp_CleanupSubTransaction.
  - cbn [app] in Hs1. apply Forall_cons in Hpre as [Hy Hpre]. cbn in Hn.
    assert (cur b1 = y) as -> by (unfold cur; by rewrite Hs1).
    assert (forall m : M unit, wp m (fun _ => Popped (pre ++ s :: rest) (top b1)) b1 ->
      wp (m ;; CommitTransactionCommand_rec n) (fun _ => Entered s rest b1) b1) as Hpop.
    { intros m Hm. apply wp_bind. eapply wp_mono; [exact Hm|]. intros ? b2 HP.
      destruct (popped_refines _ _ _ _ HI Hs1 HP) as (HS2 & _ & _). destruct HP as [_ _ Hs2 Ht2].
      eapply wp_mono; [apply (IH pre); try done; lia|]. intros ? b3 []. by rewrite Ht2 in *. }
    destruct Hy as [-> | ->].
    + apply wp_group, Hpop. by eapply wp_abort_pop.
    + apply Hpop. by eapply wp_CleanupSubTransaction.
Qed.

Lemma abort_marked_pending l :
  Forall (fun s => step_subabort (blockState s) <> None) l ->
  Forall (fun y => blockState y = TBLOCK_SUBABORT_PENDING \/ blockState y = TBLOCK_SUBABORT_END)
    (map (reblock abort_mark) l).
Proof.
  induction 1 as [|s l Hs _ IH]; [done|]. cbn. constructor; [|done]. cbn.
  destruct (blockState s); try done; auto.
Qed.

Lemma wp_rollback_command nm b :
  Settled b ->
  wp (RollbackToSavepoint nm ;; CommitTransactionCommand)
     (fun _ b' => Settled b' /\ top b' = top b /\ exists i s s', find_savepoint nm b = Some (i, s) /\
        subs b' = s' :: drop (S i) (subs b) /\ name s' = Some nm /\
        savepointLevel s' = savepointLevel s /\ blockState s' = TBLOCK_SUBINPROGRESS) b.
Proof.
  intros HS. pose proof HS as (HI & _). apply wp_bind.
  eapply wp_mono; [by apply wp_RollbackToSavepoint|]. intros ? ? (i & s & [HS1 Hf Hi -> Hl Hr]).
  destruct (find_savepoint_sub nm b i s HI Hf) as [_ Hn].
  unfold CommitTransactionCommand. apply wp_get. eapply wp_mono.
  { apply (wp_commit_restart _ (map (reblock abort_mark) (take i (subs b))) (reblock restart_mark s)
      (drop (S i) (subs b))); [done|done| |..].
    - by apply abort_marked_pending, Forall_take.
    - cbn. destruct (blockState s); try done; auto.
    - cbn [subs set_subs]. unfold rolled_back. rewrite length_app, length_map. cbn. lia. }
  intros ? b' [HS' Ht (s' & Hs' & Hb' & Hn' & Hl')]. split_and!; [done|done|].
  exists i, s, s'. split_and!; try done. by rewrite Hn'.
Qed.

End RollbackCommand.

(** ** Theorems *)

Section Theorems.
Context `{Env, !EnvLaws}.


(** C15: after an error at any point [AbortCurrentTransaction] ends: the levels
    on the stack are bound enough for its recursion.  It stops at no
    transaction, or at a failed block whose outer levels are those of before. *)
Theorem recovery_terminates (b : backend) :
  Inv b -> CritSectionCount b = 0 ->
  match AbortCurrentTransaction b with
  | (Ok _, b') => Settled b' /\ blocks b' = abort_blocks (blocks b) /\
      blockState (cur b') ∈ [TBLOCK_DEFAULT; TBLOCK_ABORT; TBLOCK_SUBABORT]
  | (Exn e, b') => e <> NOFUEL /\ E e b'
  end.
Proof.
  intros HI Hc. pose proof (wp_AbortCurrentTransaction b HI Hc) as Hw. unfold wp in Hw.
  destruct (AbortCurrentTransaction b) as [[[]|e] b'].
  - destruct Hw as [HS Hb]. split_and!; try done. apply abort_blocks_head in Hb. done.
  - split; [|done]. by intros ->.
Qed.

(** [AbortOutOfAnyTransaction] ends with no transaction, from any state an
    error may leave. *)
Theorem exit_leaves_no_transaction (b : backend) :
  Inv b -> CritSectionCount b = 0 ->
  match AbortOutOfAnyTransaction b with
  | (Ok _, b') => Idle b' /\ Settled b'
  | (Exn e, b') => e <> NOFUEL /\ E e b'
  end.
Proof.
  intros HI Hc. pose proof (wp_AbortOutOfAnyTransaction b HI Hc) as Hw. unfold wp in Hw.
  destruct (AbortOutOfAnyTransaction b) as [[[]|e] b']; [by destruct Hw|]. split; [|done]. by intros ->.
Qed.



(** C18: when [CommitTransaction] returns, the id of the transaction and those
    of its committed subtransactions have been reported committed together. *)
Theorem commit_is_recorded (b : backend) :
  Settled b -> subs b = [] -> exp_state (blockState (top b)) = TRANS_INPROGRESS ->
  FullTransactionIdIsValid (fullTransactionId (top b)) = true ->
  match CommitTransaction b with
  | (Ok _, b') => (XidFromFullTransactionId (fullTransactionId (top b)) :: childXids (top b)) ∈
      commit_trees (trace b') /\ state (top b') = TRANS_DEFAULT
  | (Exn e, b') => E e b'
  end.
Proof.
  intros (HI & Hst & Hc & _) Hs He Hv. rewrite cur_top in Hst by done. rewrite He in Hst.
  pose proof (wp_CommitTransaction_tree b HI Hs Hc Hst He) as Hw. unfold wp in Hw.
  destruct (CommitTransaction b) as [[[]|e] b']; [|done]. destruct Hw as [[] Ht].
  split; [by apply Ht|done].
Qed.

(** [ROLLBACK TO] a savepoint and the end of its command leave a new
    subtransaction in progress in the place of the savepoint, with its name
    and its savepoint level, on top of the levels that were below it. *)
Theorem rollback_to_reenters (nm : string) (b : backend) :
  Settled b ->
  match (RollbackToSavepoint nm ;; CommitTransactionCommand) b with
  | (Ok _, b') => Settled b' /\ top b' = top b /\ exists i s s', find_savepoint nm b = Some (i, s) /\
      subs b' = s' :: drop (S i) (subs b) /\ name s' = Some nm /\
      savepointLevel s' = savepointLevel s /\ blockState s' = TBLOCK_SUBINPROGRESS
  | (Exn e, b') => E e b'
  end.
Proof.
  intros HS. exact (wp_rollback_command nm b HS).
Qed.

End Theorems.

Section Chain.
Context `{Env, !EnvLaws}.

(** C19: COMMIT AND CHAIN in a block without savepoints ends in the next block,
    but with a savepoint open it ends without a transaction: the branch of
    [CommitTransactionCommand] that commits the subtransactions does not look
    at the chain flag. *)
Theorem commit_and_chain_with_savepoint (b : backend) :
  Settled b -> blockState (top b) = TBLOCK_INPROGRESS ->
  blockState (cur b) = TBLOCK_INPROGRESS \/ blockState (cur b) = TBLOCK_SUBINPROGRESS ->
  match (EndTransactionBlock true ;; CommitTransactionCommand) b with
  | (Ok _, b') => Settled b' /\
      blocks b' = (if decide (subs b = []) then [TBLOCK_INPROGRESS] else [TBLOCK_DEFAULT])
  | (Exn e, b') => E e b'
  end.
Proof.
  intros HS Ht Hcb.
  assert (failed_block (blockState (cur b)) = false) as Hf by by destruct Hcb as [-> | ->].
  enough (wp (EndTransactionBlock true ;; CommitTransactionCommand) (fun _ b' => Settled b' /\
    blocks b' = (if decide (subs b = []) then [TBLOCK_INPROGRESS] else [TBLOCK_DEFAULT])) b) as Hw
    by exact Hw.
  apply wp_bind. eapply wp_mono; [by apply wp_EndTransactionBlock|]. intros r b1 (-> & HM & _).
  rewrite Hf in HM. cbn [negb] in HM. pose proof (marked_top _ _ _ _ HM) as Ht1. rewrite Ht in Ht1.
  destruct HM as (HS1 & Hb1 & Hc1).
  eapply wp_mono; [apply wp_CommitTransactionCommand; [done|]|].
  { unfold prepare_ok. by rewrite Ht1. }
  intros ? b2 [HS2 Hb2]. split; [done|]. rewrite Hb2. cbn [block_spec]. rewrite Hb1, Hc1.
  destruct HS as (HI & _).
  destruct (is_sub_block (blockState (cur b))) eqn:Hk.
  - destruct (sub_block_subs b HI Hk) as [l Hs]. rewrite decide_False by congruence.
    rewrite (blocks_subs b _ l Hs). by destruct Hcb as [Hcb|Hcb]; rewrite Hcb in *.
  - pose proof (top_block_no_subs b HI Hk) as Hs. rewrite decide_True by done.
    by rewrite (blocks_top b Hs), Ht.
Qed.

End Chain.

Section AssertGap.
Context `{Env, !EnvLaws}.

(** [BeginInternalSubTransaction] starts a subtransaction inside a commit or
    a prepare that is under way, but [RollbackAndReleaseCurrentSubTransaction]
    never returns there: its last [Assert] does not list these parents. *)
Theorem rollback_inside_commit_fails (b : backend) :
  Settled b -> blockState (cur b) = TBLOCK_SUBINPROGRESS ->
  blockState (parent b) = TBLOCK_END \/ blockState (parent b) = TBLOCK_PREPARE ->
  fst (RollbackAndReleaseCurrentSubTransaction b) <> Ok tt.
Proof.
  intros HS Hb Hp. pose proof HS as (HI & _ & Hc & _).
  destruct (sub_block_subs b HI ltac:(by rewrite Hb)) as [l Hs].
  pose proof (wp_abort_pop b _ l HI Hs Hc) as Hw.
  assert (RollbackAndReleaseCurrentSubTransaction b =
    ((AbortSubTransaction ;; CleanupSubTransaction) ;;
     Assert "in progress" (fun b => is_block TBLOCK_SUBINPROGRESS (cur b) ||
       is_block TBLOCK_INPROGRESS (cur b) || is_block TBLOCK_IMPLICIT_INPROGRESS (cur b) ||
       is_block TBLOCK_STARTED (cur b))) b) as ->.
  { unfold RollbackAndReleaseCurrentSubTransaction, curblock, get, bind at 1. by rewrite Hb. }
  unfold bind at 1. unfold wp in Hw.
  destruct ((AbortSubTransaction ;; CleanupSubTransaction) b) as [[[]|e] b1]; [|done].
  assert (blockState (cur b1) = blockState (parent b)) as Hcur.
  { pose proof (blocks_cur b1) as Hbc. rewrite (popped_blocks _ _ _ Hw) in Hbc.
    unfold parent. rewrite Hs. destruct l; cbn in Hbc; congruence. }
  unfold Assert, is_block. rewrite Hcur. by destruct Hp as [-> | ->].
Qed.

End AssertGap.

(** ** Concrete runs

    An environment in which the calls of one function fail, and ids are
    counted up. *)

Definition demo (bad : string) : Env := {|
  raises tr c := String.eqb c.1 bad ||
    (String.eqb c.1 "GetNewTransactionId" && (2 ^ 31 <=? Z.of_nat (length tr)));
  value tr c :=
    if String.eqb c.1 "GetNewTransactionId" then 3 + Z.of_nat (length tr)
    else if String.eqb c.1 "TransactionIdDidCommit"
    then match c.2 with x :: _ => if decide (x ∈ commits tr) then 1 else 0 | [] => 0 end
    else 0;
  loop_fuel := 1 |}.

Lemma demo_assigned bad tr x :
  Z.of_nat (length tr) < 2 ^ 31 -> x ∈ assigned (H := demo bad) tr -> x < 3 + Z.of_nat (length tr).
Proof.
  induction tr as [|[f args] tr IH]; intros Hl Hx; [by apply elem_of_nil in Hx|].
  cbn [length] in *. cbn [assigned] in Hx.
  destruct (String.eqb_spec f "GetNewTransactionId") as [->|_].
  - apply elem_of_cons in Hx as [->|Hx].
    + cbn. unfold XidFromFullTransactionId, u32. rewrite Z.mod_small; lia.
    + specialize (IH ltac:(lia) Hx). lia.
  - specialize (IH ltac:(lia) Hx). lia.
Qed.

#[export] Instance demo_laws bad : EnvLaws (H := demo bad).
Proof.
  assert (forall tr args, raises (Env := demo bad) tr ("GetNewTransactionId"%string, args) = false ->
    Z.of_nat (length tr) < 2 ^ 31) as Hr.
  { intros tr args [_ Hl]%orb_false_iff. cbn in Hl. by apply Z.leb_gt in Hl. }
  constructor.
  - intros tr args Hl%Hr. cbn. unfold FullTransactionIdIsValid, XidFromFullTransactionId, u32.
    unfold TransactionIdIsValid. rewrite Z.mod_small by lia. apply negb_true_iff, Z.eqb_neq.
    unfold InvalidTransactionId. lia.
  - intros tr args Hl%Hr Hx. apply demo_assigned in Hx; [|done]. revert Hx. cbn.
    unfold XidFromFullTransactionId, u32. rewrite Z.mod_small; lia.
  - intros tr x Hx. cbn. by rewrite decide_True.
  - done.
  - intros p b. cbn [PreCommit_loop loop_fuel demo]. unfold bind, calls, sys, ereport_ERROR, bind, ret.
    cbn [raises value demo fst snd]. cbv beta iota.
    repeat (match goal with |- context [if ?c then _ else _] => destruct c; try done end;
            cbv beta iota); done.
Qed.

#[export] Instance allowed_dec `{Env} c b : Decision (allowed c b).
Proof. destruct c; cbn; unfold prepare_ok; apply _. Defined.

Section Script.
Context `{Env}.

(** The state after a list of commands, when none fails. *)
Fixpoint script (l : list command) (b : backend) : option backend :=
  match l with
  | [] => Some b
  | c :: l => if decide (allowed c b) then
                match exec c b with (Ok _, b') => script l b' | (Exn _, _) => None end
              else None
  end.

Lemma script_settled `{!EnvLaws} l b b' : Settled b -> script l b = Some b' -> Settled b'.
Proof.
  revert b. induction l as [|c l IH]; intros b HS Hb; cbn in Hb; [congruence|].
  destruct (decide (allowed c b)) as [Ha|]; [|done]. pose proof (wp_exec c b HS Ha) as Hw.
  unfold wp in Hw. destruct (exec c b) as [[[]|e] b1]; [|done]. destruct Hw as [HS1 _]. by eapply IH.
Qed.

Definition at_script (l : list command) : backend := default backend_start (script l backend_start).

Lemma at_script_settled `{!EnvLaws} l : is_Some (script l backend_start) -> Settled (at_script l).
Proof.
  intros [b Hb]. unfold at_script. rewrite Hb. eapply script_settled; [apply start_settled|exact Hb].
Qed.

Lemma script_run l b b' :
  reachable (Running, b) -> script l b = Some b' -> reachable (Running, b').
Proof.
  revert b. induction l as [|c l IH]; intros b Hr Hb; cbn in Hb; [congruence|].
  destruct (decide (allowed c b)) as [Ha|]; [|done].
  destruct (exec c b) as [[[]|e] b1] eqn:He; [|done]. apply (IH b1); [|done].
  eapply reachable_step; [exact Hr|]. exact (step_command c b (Ok tt) b1 Ha He).
Qed.

Lemma script_reachable l :
  is_Some (script l backend_start) -> reachable (Running, at_script l).
Proof.
  intros [b Hb]. unfold at_script. rewrite Hb. eapply script_run; [apply reachable_start|exact Hb].
Qed.

End Script.

(** BEGIN; a row is written; SAVEPOINT a; another row. *)
Definition in_savepoint : list command :=
  [StartCommand; Begin; CommitCommand; StartCommand; NeedXid; CommitCommand;
   StartCommand; Savepoint (Some "a"%string); CommitCommand; StartCommand; NeedXid; CommitCommand].
Definition demo_state : backend := at_script (H := demo "") in_savepoint.

Example demo_blocks : blocks demo_state = [TBLOCK_SUBINPROGRESS; TBLOCK_INPROGRESS].
Proof. vm_compute. reflexivity. Qed.

Section Witnesses.

#[local] Instance quiet_env : Env := demo "".
#[local] Instance quiet_laws : EnvLaws := demo_laws "".

Lemma demo_settled : Settled demo_state.
Proof. apply at_script_settled. eexists. vm_compute. reflexivity. Qed.


Example rollback_to_reenters_witness :
  match (RollbackToSavepoint "a" ;; CommitTransactionCommand) demo_state with
  | (Ok _, b') => Settled b' /\ top b' = top demo_state /\
      exists i s s', find_savepoint "a" demo_state = Some (i, s) /\
      subs b' = s' :: drop (S i) (subs demo_state) /\ name s' = Some "a"%string /\
      savepointLevel s' = savepointLevel s /\ blockState s' = TBLOCK_SUBINPROGRESS
  | (Exn e, b') => E e b'
  end /\ blocks ((RollbackToSavepoint "a" ;; CommitTransactionCommand) demo_state).2 =
         [TBLOCK_SUBINPROGRESS; TBLOCK_INPROGRESS].
Proof.
  split; [|vm_compute; reflexivity]. apply (rollback_to_reenters "a" demo_state demo_settled).
Defined.

(** The state an error in the commit of the savepoint leaves. *)
Definition failed_state : backend :=
  (exec (H := demo "AtSubCommit_Notify") ReleaseCurrent demo_state).2.

Lemma error_inv `{!EnvLaws (H := demo bad)} c b msg b' :
  Settled (H := demo bad) b -> allowed c b -> exec (H := demo bad) c b = (Exn (ERROR msg), b') ->
  Inv (H := demo bad) b' /\ CritSectionCount b' = 0.
Proof.
  intros HS Ha He. pose proof (wp_exec (H := demo bad) c b HS Ha) as Hw. unfold wp in Hw.
  by rewrite He in Hw.
Qed.

(** The invariant does not depend on the call that fails. *)
Lemma inv_env bad bad' b : Inv (H := demo bad) b -> Inv (H := demo bad') b.
Proof. intros HI. exact HI. Qed.
Lemma settled_env bad bad' b : Settled (H := demo bad) b -> Settled (H := demo bad') b.
Proof. intros HS. exact HS. Qed.

Lemma failed_inv : Inv failed_state /\ CritSectionCount failed_state = 0.
Proof.
  pose proof (error_inv (bad := "AtSubCommit_Notify") ReleaseCurrent demo_state "AtSubCommit_Notify"
    failed_state) as He.
  destruct He as [HI Hc].
  - apply (settled_env ""), demo_settled.
  - exact I.
  - vm_compute. reflexivity.
  - split; [|exact Hc]. unfold quiet_env. exact (inv_env "AtSubCommit_Notify" "" failed_state HI).
Qed.

Example recovery_terminates_witness :
  match AbortCurrentTransaction failed_state with
  | (Ok _, b') => Settled b' /\ blocks b' = abort_blocks (blocks failed_state) /\
      blockState (cur b') ∈ [TBLOCK_DEFAULT; TBLOCK_ABORT; TBLOCK_SUBABORT]
  | (Exn e, b') => e <> NOFUEL /\ E e b'
  end /\ blocks (AbortCurrentTransaction failed_state).2 = [TBLOCK_SUBABORT; TBLOCK_INPROGRESS].
Proof.
  split; [|vm_compute; reflexivity].
  apply (recovery_terminates failed_state (proj1 failed_inv) (proj2 failed_inv)).
Defined.

Example exit_leaves_no_transaction_witness :
  match AbortOutOfAnyTransaction failed_state with
  | (Ok _, b') => Idle b' /\ Settled b'
  | (Exn e, b') => e <> NOFUEL /\ E e b'
  end /\ blocks (AbortOutOfAnyTransaction failed_state).2 = [TBLOCK_DEFAULT] /\
  length (abort_trees (trace (AbortOutOfAnyTransaction failed_state).2)) = 2%nat.
Proof.
  split; [|vm_compute; split; reflexivity].
  apply (exit_leaves_no_transaction failed_state (proj1 failed_inv) (proj2 failed_inv)).
Defined.

(** BEGIN, a row, COMMIT marked. *)
Definition before_commit : backend :=
  at_script [StartCommand; Begin; CommitCommand; StartCommand; NeedXid; End_ false].

Lemma before_commit_settled : Settled before_commit.
Proof. apply at_script_settled. eexists. vm_compute. reflexivity. Qed.

Example commit_is_recorded_witness :
  match CommitTransaction before_commit with
  | (Ok _, b') => (XidFromFullTransactionId (fullTransactionId (top before_commit)) ::
      childXids (top before_commit)) ∈ commit_trees (trace b') /\ state (top b') = TRANS_DEFAULT
  | (Exn e, b') => E e b'
  end /\ length (commit_trees (trace (CommitTransaction before_commit).2)) = 1%nat.
Proof.
  split; [|vm_compute; reflexivity].
  apply (commit_is_recorded before_commit before_commit_settled); vm_compute; reflexivity.
Defined.

(** COMMIT AND CHAIN with a savepoint open. *)
Example commit_and_chain_with_savepoint_witness :
  match (EndTransactionBlock true ;; CommitTransactionCommand) demo_state with
  | (Ok _, b') => Settled b' /\
      blocks b' = (if decide (subs demo_state = []) then [TBLOCK_INPROGRESS] else [TBLOCK_DEFAULT])
  | (Exn e, b') => E e b'
  end /\ (exists b', (EndTransactionBlock true ;; CommitTransactionCommand) demo_state = (Ok tt, b') /\
            blocks b' = [TBLOCK_DEFAULT] /\ chain (top b') = true).
Proof.
  split.
  - apply (commit_and_chain_with_savepoint demo_state demo_settled).
    + vm_compute. reflexivity.
    + right. vm_compute. reflexivity.
  - eexists. split; [vm_compute; reflexivity|vm_compute; split; reflexivity].
Defined.

(** A subtransaction begun by a trigger that fires at COMMIT. *)
Definition inside_commit : backend :=
  at_script [StartCommand; Begin; CommitCommand; StartCommand; End_ false; BeginInternal None].

Lemma inside_commit_settled : Settled inside_commit.
Proof. apply at_script_settled. eexists. vm_compute. reflexivity. Qed.

Example rollback_inside_commit_fails_witness :
  fst (RollbackAndReleaseCurrentSubTransaction inside_commit) <> Ok tt /\
  fst (RollbackAndReleaseCurrentSubTransaction inside_commit) = Exn (ASSERT "in progress").
Proof.
  split; [|vm_compute; reflexivity].
  apply (rollback_inside_commit_fails inside_commit inside_commit_settled).
  - vm_compute. reflexivity.
  - left. vm_compute. reflexivity.
Defined.

(** In [in_savepoint], ROLLBACK TO a and COMMIT. *)
Definition half_committed : backend :=
  at_script (in_savepoint ++ [StartCommand; RollbackTo "a"; CommitCommand; StartCommand; End_ false;
    CommitCommand]).

Lemma half_committed_reachable : reachable (Running, half_committed).
Proof. apply script_reachable. eexists. vm_compute. reflexivity. Qed.



End Witnesses.

End XactRuns.
