(* ===== verification/XactXids.v ===== *)
(** * Which transaction ids are current

    [TransactionIdIsCurrentTransactionId] searches sorted arrays by bisection.
    The theorems show that the search is exact, what the answer means for the
    stack of subtransactions, and that a parallel worker that restores the
    serialized state of its leader gives the answers of the leader. *)

From Stdlib Require Import Sorting.Sorted.
From S2P Require Import Prelude.
From S2P Require Import Transam.
From S2P Require Import Xact.
From S2P Require Import XactLogic.
From S2P Require Import XactTop.
From S2P Require Import XactCommands.
From S2P Require Import XactRuns.

Import Transam Xact XactLogic XactTop XactCommands XactRuns.

Open Scope Z_scope.

Module XactXids.

(** Strictly ascending in an order that need not be transitive. *)
Definition sorted_by (lt : Z -> Z -> bool) (l : list Z) : Prop :=
  forall i j x y, (i < j)%nat -> l !! i = Some x -> l !! j = Some y ->
    lt x y = true /\ lt y x = false.

Lemma nth_lookup_Z (l : list Z) i : (i < length l)%nat -> l !! i = Some (nth i l 0).
Proof. intros Hi. destruct (lookup_lt_is_Some_2 l i Hi) as [x Hx]. by rewrite nth_lookup, Hx. Qed.

Lemma bsearch_sound lt fuel l xid low high1 :
  (high1 <= length l)%nat -> xid_bsearch lt fuel l xid low high1 = true -> xid ∈ l.
Proof.
  revert low high1. induction fuel as [|fuel IH]; intros low high1 Hh; [done|]. cbn [xid_bsearch].
  destruct (Nat.ltb_spec low high1) as [Hlt|]; [|done]. cbv zeta.
  set (m := (low + (high1 - 1 - low) / 2)%nat).
  assert (low <= m < high1)%nat as Hm.
  { subst m. pose proof (Nat.div_le_upper_bound (high1 - 1 - low) 2 (high1 - 1 - low)). lia. }
  destruct (Z.eqb_spec (nth m l 0) xid) as [<-|_].
  - intros _. apply list_elem_of_In, nth_In. lia.
  - destruct (lt (nth m l 0) xid); apply IH; lia.
Qed.

Lemma bsearch_complete lt fuel l xid low high1 k :
  sorted_by lt l -> l !! k = Some xid -> (low <= k < high1)%nat -> (high1 <= length l)%nat ->
  (high1 - low <= fuel)%nat -> xid_bsearch lt fuel l xid low high1 = true.
Proof.
  intros Hs Hk. revert low high1. induction fuel as [|fuel IH]; intros low high1 Hr Hh Hf; [lia|].
  cbn [xid_bsearch]. destruct (Nat.ltb_spec low high1) as [Hlt|]; [|lia]. cbv zeta.
  set (m := (low + (high1 - 1 - low) / 2)%nat).
  assert (low <= m < high1)%nat as Hm.
  { subst m. pose proof (Nat.div_le_upper_bound (high1 - 1 - low) 2 (high1 - 1 - low)). lia. }
  destruct (Z.eqb_spec (nth m l 0) xid) as [|Hne]; [done|].
  assert (l !! m = Some (nth m l 0)) as Hlm by (apply nth_lookup_Z; lia).
  destruct (Nat.lt_total m k) as [Hmk|[->|Hmk]].
  - destruct (Hs m k _ _ Hmk Hlm Hk) as [-> _]. apply IH; lia.
  - congruence.
  - destruct (Hs k m _ _ Hmk Hk Hlm) as [_ ->]. apply IH; lia.
Qed.

Lemma bsearch_exact lt l xid :
  sorted_by lt l -> xid_bsearch lt (S (length l)) l xid 0 (length l) = bool_decide (xid ∈ l).
Proof.
  intros Hs. destruct (bool_decide_reflect (xid ∈ l)) as [Hin|Hno].
  - apply list_elem_of_lookup in Hin as [k Hk]. pose proof (lookup_lt_Some _ _ _ Hk).
    eapply bsearch_complete; [done|done|lia..].
  - apply not_true_iff_false. intros Hb. by apply bsearch_sound in Hb.
Qed.

(** ** The stack *)

(** The ids a level stands for, if it has not aborted. *)
Definition live_ids (s : TransactionStateData) : list Z :=
  if is_state TRANS_ABORT s then []
  else if FullTransactionIdIsValid (fullTransactionId s)
  then own s :: childXids s else [].

Lemma current_in_stack_exact xid l :
  Forall (fun s => sorted_by TransactionIdPrecedes (childXids s)) l ->
  current_in_stack xid l = true <-> xid ∈ mjoin (map live_ids l).
Proof.
  induction 1 as [|s l Hs _ IH]; cbn [current_in_stack map mjoin list_join].
  { by rewrite elem_of_nil. }
  unfold live_ids at 1. destruct (is_state TRANS_ABORT s); [done|].
  destruct (FullTransactionIdIsValid (fullTransactionId s)); [|done]. cbn [negb app].
  unfold search_children. rewrite bsearch_exact, elem_of_cons, elem_of_app by done. unfold own.
  destruct (Z.eqb_spec xid (XidFromFullTransactionId (fullTransactionId s))) as [->|Hne]; [tauto|].
  destruct (bool_decide_reflect (xid ∈ childXids s)) as [Hin|Hno]; [tauto|]. rewrite IH. tauto.
Qed.

(** ** Sorting for the workers *)

Lemma xid_insert_perm x l : xid_insert x l ≡ₚ x :: l.
Proof.
  induction l as [|y l IH]; cbn; [done|]. destruct (Z.leb_spec x y); [done|].
  rewrite IH. apply Permutation_swap.
Qed.

Lemma xid_qsort_perm l : xid_qsort l ≡ₚ l.
Proof. induction l as [|x l IH]; cbn; [done|]. by rewrite xid_insert_perm, IH. Qed.

Lemma xid_insert_sorted x l : Sorted Z.le l -> Sorted Z.le (xid_insert x l).
Proof.
  induction 1 as [|y l Hl IH Hy]; cbn; [by repeat constructor|].
  destruct (Z.leb_spec x y); [by repeat constructor|]. constructor; [done|].
  destruct l as [|z l]; cbn; [constructor; lia|]. inversion Hy; subst.
  destruct (x <=? z); constructor; lia.
Qed.

Lemma xid_qsort_sorted l : Sorted Z.le (xid_qsort l).
Proof. induction l; cbn; [constructor|by apply xid_insert_sorted]. Qed.

Lemma qsort_sorted_by l : NoDup l -> sorted_by Z.ltb (xid_qsort l).
Proof.
  intros Hnd. pose proof (xid_qsort_sorted l) as Hs.
  assert (NoDup (xid_qsort l)) as Hnd' by by rewrite xid_qsort_perm.
  apply Sorted_StronglySorted in Hs; [|intros ???; lia].
  intros i j x y Hij Hi Hj.
  assert (x <= y) as Hle.
  { clear Hnd Hnd'. revert i j Hij Hi Hj. induction Hs as [|z k Hk IH Hz]; intros i j Hij Hi Hj; [done|].
    destruct j as [|j]; [lia|]. cbn in Hj. destruct i as [|i]; cbn in Hi.
    - injection Hi as <-. rewrite Forall_forall in Hz. apply Hz. by eapply list_elem_of_lookup_2.
    - apply (IH i j); [lia|done|done]. }
  assert (x <> y). { intros ->. pose proof (NoDup_lookup _ _ _ _ Hnd' Hi Hj). lia. }
  split; [apply Z.ltb_lt|apply Z.ltb_ge]; lia.
Qed.

(** ** The answers *)

Lemma elem_of_live_ids xid s :
  xid ∈ live_ids s <->
  state s <> TRANS_ABORT /\ FullTransactionIdIsValid (fullTransactionId s) = true /\
  (xid = XidFromFullTransactionId (fullTransactionId s) \/ xid ∈ childXids s).
Proof.
  unfold live_ids, is_state. destruct (bool_decide_reflect (state s = TRANS_ABORT)) as [Ha|Ha].
  { rewrite elem_of_nil. tauto. }
  destruct (FullTransactionIdIsValid (fullTransactionId s)); [|rewrite elem_of_nil; naive_solver].
  rewrite elem_of_cons. unfold own. tauto.
Qed.

Lemma elem_of_live xid l :
  xid ∈ mjoin (map live_ids l) <->
  exists s, s ∈ l /\ state s <> TRANS_ABORT /\ FullTransactionIdIsValid (fullTransactionId s) = true /\
    (xid = XidFromFullTransactionId (fullTransactionId s) \/ xid ∈ childXids s).
Proof.
  induction l as [|s l IH]; cbn [map mjoin list_join].
  - rewrite elem_of_nil. split; [done|]. by intros (s & ?%elem_of_nil & _).
  - rewrite elem_of_app, IH, elem_of_live_ids. split.
    + intros [?|(y & ? & ?)]; [exists s|exists y]; (split; [by constructor|done]).
    + intros (y & [->|?]%elem_of_cons & ?); [by left|right; by exists y].
Qed.

(** The levels of a settled stack in progress. *)
Lemma settled_levels `{Env} b :
  Settled b -> exp_state (blockState (cur b)) = TRANS_INPROGRESS ->
  Forall (fun s => state s = TRANS_INPROGRESS /\ level_ok s) (stack b).
Proof.
  intros HS He. destruct (settled_parent b HS He) as (Hc & _). destruct HS as ((Hsh & _) & _).
  destruct Hsh as [_ _ Hok Hsubs Hpar _ _ _ _ _]. unfold stack, cur in *.
  assert (Forall level_ok (subs b ++ [top b])) as Hlev.
  { apply Forall_app. split; [|by constructor]. clear -Hsubs. induction (subs b) as [|s l IH]; [done|].
    destruct Hsubs as (_ & _ & ? & _ & ?). constructor; auto. }
  apply Forall_and. split; [|done].
  destruct (subs b) as [|s l]; cbn in *; constructor; try done.
  eapply Forall_impl; [exact Hpar|]. by intros ? [? _].
Qed.

Lemma level_xids_live l :
  Forall (fun s => state s = TRANS_INPROGRESS /\ level_ok s) l ->
  mjoin (map level_xids l) = mjoin (map live_ids l).
Proof.
  induction 1 as [|s l [Hs [Hk _]] _ IH]; [done|].
  change (level_xids s ++ mjoin (map level_xids l) = live_ids s ++ mjoin (map live_ids l)).
  rewrite IH. f_equal. unfold level_xids, live_ids. rewrite is_state_false by congruence.
  destruct (FullTransactionIdIsValid (fullTransactionId s)); [done|]. by rewrite Hk.
Qed.

Section Workers.
Context `{Env, !EnvLaws}.

(** The state of a worker that has restored a leader's. *)
Record Restored (ts : SerializedTransactionState) (w : backend) : Prop := {
  re_subs : subs w = [];
  re_state : state (top w) = TRANS_INPROGRESS;
  re_top : XactTopFullTransactionId w = ser_topFullTransactionId ts;
  re_cur : fullTransactionId (top w) = ser_currentFullTransactionId ts;
  re_xids : ParallelCurrentXids w = ser_parallelCurrentXids ts;
  re_cid : currentCommandId w = ser_currentCommandId ts;
  re_block : blockState (top w) = TBLOCK_PARALLEL_INPROGRESS }.

Lemma wp_StartParallelWorker ts w :
  Settled w -> Idle w -> wp (StartParallelWorkerTransaction ts) (fun _ => Restored ts) w.
Proof.
  intros (HI & _ & Hc & _) [Hs Hst Hb]. unfold StartParallelWorkerTransaction.
  apply wp_assert; [by rewrite cur_top, is_block_true|]. apply wp_bind.
  eapply wp_mono; [by apply wp_StartTransaction|]. intros ? b1 [_ Hs1 Hc1 Hst1 _ _].
  destruct b1 as [t l]. fields Hs1. subst. by constructor.
Qed.

(** C21: a parallel worker that starts with the serialized state of its leader
    answers as the leader for every id, and has the same top-level id, current
    id and command id. *)
Theorem worker_agrees (b w w' : backend) (xid : Z) :
  Settled b -> exp_state (blockState (cur b)) = TRANS_INPROGRESS -> ParallelCurrentXids b = [] ->
  Forall (fun s => sorted_by TransactionIdPrecedes (childXids s)) (stack b) ->
  NoDup (mjoin (map level_xids (stack b))) ->
  Settled w -> Idle w ->
  StartParallelWorkerTransaction (SerializeTransactionState b) w = (Ok tt, w') ->
  TransactionIdIsCurrentTransactionId xid w' = TransactionIdIsCurrentTransactionId xid b /\
  GetTopTransactionIdIfAny w' = GetTopTransactionIdIfAny b /\
  GetCurrentTransactionIdIfAny w' = GetCurrentTransactionIdIfAny b /\
  currentCommandId w' = currentCommandId b.
Proof.
  intros HS He Hp Hsort Hnd HSw Hiw Heq.
  pose proof (wp_StartParallelWorker (SerializeTransactionState b) w HSw Hiw) as Hw.
  unfold wp in Hw. rewrite Heq in Hw. destruct Hw as [Hs Hst Htop Hcur Hx Hcid _].
  split; [|unfold GetTopTransactionIdIfAny, GetCurrentTransactionIdIfAny;
           rewrite Htop, Hcid, (cur_top w' Hs), Hcur; by split_and!].
  pose proof (settled_levels b HS He) as Hlev.
  cbn [SerializeTransactionState ser_parallelCurrentXids] in Hx. rewrite Hp in Hx. cbn in Hx.
  unfold TransactionIdIsCurrentTransactionId. destruct (TransactionIdIsNormal xid); [|done]. cbn [negb].
  rewrite Hp, Hx. change (0 <? length (@nil Z))%nat with false. cbv iota.
  apply eq_true_iff_eq. rewrite (current_in_stack_exact xid (stack b)) by done.
  rewrite <- (level_xids_live _ Hlev).
  destruct (Nat.ltb_spec 0 (length (xid_qsort (mjoin (map level_xids (stack b)))))) as [Hl|Hl].
  - rewrite bsearch_exact by by apply qsort_sorted_by. rewrite bool_decide_eq_true.
    by rewrite xid_qsort_perm.
  - assert (mjoin (map level_xids (stack b)) = []) as Hnil.
    { pose proof (xid_qsort_perm (mjoin (map level_xids (stack b)))) as HP.
      destruct (xid_qsort _); [|cbn in Hl; lia]. by apply Permutation_nil_l in HP. }
    rewrite Hnil. unfold stack. rewrite Hs. cbn [app current_in_stack].
    rewrite is_state_false by congruence. rewrite Hcur. cbn [SerializeTransactionState ser_currentFullTransactionId].
    assert (FullTransactionIdIsValid (fullTransactionId (cur b)) = false) as ->; [|by split; [|intros ?%elem_of_nil]].
    destruct (FullTransactionIdIsValid (fullTransactionId (cur b))) eqn:Hv; [|done].
    assert (own (cur b) ∈ mjoin (map level_xids (stack b))) as Hin; [|by rewrite Hnil in Hin; apply elem_of_nil in Hin].
    unfold stack, cur in *. destruct (subs b) as [|s l]; cbn; unfold level_xids; rewrite Hv; left.
Qed.

End Workers.

Section Current.

(** C20: outside a parallel worker an id is current exactly if it is a normal id
    and the id of a level that has not aborted or of one of its committed
    children, provided the arrays of children are in id order. *)
Theorem current_xid_exact (b : backend) (xid : Z) :
  ParallelCurrentXids b = [] ->
  Forall (fun s => sorted_by TransactionIdPrecedes (childXids s)) (stack b) ->
  TransactionIdIsCurrentTransactionId xid b = true <->
  TransactionIdIsNormal xid = true /\
  exists s, s ∈ stack b /\ state s <> TRANS_ABORT /\
    FullTransactionIdIsValid (fullTransactionId s) = true /\
    (xid = XidFromFullTransactionId (fullTransactionId s) \/ xid ∈ childXids s).
Proof.
  intros Hp Hs. unfold TransactionIdIsCurrentTransactionId. rewrite Hp. cbn [length Nat.ltb Nat.leb].
  destruct (TransactionIdIsNormal xid); cbn [negb]; [|by split; [|intros [? _]]].
  rewrite current_in_stack_exact, elem_of_live by done. tauto.
Qed.

End Current.

(** ** Concrete stacks *)

Section Witnesses.

#[local] Instance xids_env : Env := demo "".
#[local] Instance xids_laws : EnvLaws := demo_laws "".

Lemma sorted_by_short lt l : (length l <= 1)%nat -> sorted_by lt l.
Proof. intros Hl i j x y Hij _ Hj%lookup_lt_Some. lia. Qed.

(** After [in_savepoint], RELEASE a and a second savepoint. *)
Definition released : backend :=
  at_script (in_savepoint ++ [StartCommand; Release "a"; CommitCommand; StartCommand;
    Savepoint (Some "b"%string); CommitCommand; StartCommand; NeedXid]).

Lemma released_settled : Settled released.
Proof. apply at_script_settled. eexists. vm_compute. reflexivity. Qed.

Lemma short_sorted lt l :
  forallb (fun s => Nat.leb (length (childXids s)) 1) l = true ->
  Forall (fun s => sorted_by lt (childXids s)) l.
Proof.
  intros Hl. apply Forall_forall. intros s Hs%list_elem_of_In.
  rewrite forallb_forall in Hl. by apply sorted_by_short, Nat.leb_le, Hl.
Qed.

Lemma released_sorted :
  Forall (fun s => sorted_by TransactionIdPrecedes (childXids s)) (stack released).
Proof. apply short_sorted. vm_compute. reflexivity. Qed.

(** The released savepoint's id, now a child of the top level, is current. *)
Definition released_child : Z := nth 0 (childXids (top released)) 0.

Example current_xid_exact_witness :
  (TransactionIdIsCurrentTransactionId released_child released = true <->
   TransactionIdIsNormal released_child = true /\
   exists s, s ∈ stack released /\ state s <> TRANS_ABORT /\
     FullTransactionIdIsValid (fullTransactionId s) = true /\
     (released_child = XidFromFullTransactionId (fullTransactionId s) \/
      released_child ∈ childXids s)) /\
  TransactionIdIsCurrentTransactionId released_child released = true.
Proof.
  split; [|vm_compute; reflexivity].
  apply (current_xid_exact released released_child); [vm_compute; reflexivity|apply released_sorted].
Defined.

Definition worker : backend :=
  (StartParallelWorkerTransaction (SerializeTransactionState released) backend_start).2.

Example worker_agrees_witness :
  TransactionIdIsCurrentTransactionId released_child worker =
    TransactionIdIsCurrentTransactionId released_child released /\
  GetTopTransactionIdIfAny worker = GetTopTransactionIdIfAny released /\
  GetCurrentTransactionIdIfAny worker = GetCurrentTransactionIdIfAny released /\
  currentCommandId worker = currentCommandId released.
Proof.
  apply (worker_agrees released backend_start worker released_child released_settled).
  - vm_compute. reflexivity.
  - vm_compute. reflexivity.
  - apply released_sorted.
  - apply (bool_decide_unpack _). vm_compute. exact I.
  - apply start_settled.
  - by constructor.
  - vm_compute. reflexivity.
Defined.

End Witnesses.

End XactXids.
